(* ===== verification/_CoqProject ===== *)
-Q . S2P
Prelude.v
KMonad.v
Memory.v
Riscv.v
State.v
Spinlock.v
CString.v
Kalloc.v
Vm.v
VmUser.v
VmFree.v
VmCopy.v
Sched.v
Uart.v
Printf.v
PrintfSpec.v
Console.v
Pipe.v
ConsoleSpec.v
Sleeplock.v
Bio.v
Virtio.v
Crash.v
VirtioSpec.v
BioSpec.v
Log.v
LogSpec.v
Fs.v
FsSpec.v
FsTx.v
FsMount.v
FsBlock.v
FsFile.v
File.v
ProcLife.v
ProcSpec.v
AllocSpec.v
ForkSpec.v
LifeSpec.v
Exec.v
Syscall.v
Trap.v
Boot.v
Asm.v
AsmSpec.v
Ulib.v
User.v
UserSpec.v
Grep.v
GrepSpec.v
Umalloc.v
UmallocSpec.v
Programs.v
Sh.v
ShSpec.v
ShTotal.v
Grind.v
GrindSpec.v
Mkfs.v
MkfsSpec.v
