(* ===== verification/Prelude.v ===== *)
(** * A verification development for xv6 (xv6-riscv, labs 2023)

    xv6 is a small Unix: a kernel for RISC-V machines with several harts
    (src/kernel), the programs that run on it (src/user) and the builder of its
    disk image (src/mkfs).  This library models the C and assembly code
    function by function and proves what makes its parts correct.

    ** The language of the model

    A C function is a computation in the monad [M S A] of KMonad.v over a
    record [S] of the variables it can reach: [kernel] (State.v) for kernel
    code, [uproc G] (User.v) for a program with the globals [G], [mmode] for
    the code that runs in machine mode, [mkfs] for the image builder.  It can
    return, call panic(), reach behaviour C leaves undefined ([Stuck]), wait
    ([Blocked]) or run out of fuel.  Where a thread waits, in swtch() or on a
    spinlock, the next element of a schedule, an arbitrary transformation of
    the state, stands for what the rest of the machine does.  Integers are [Z]
    with the conversions to their C width written out ([u32], [i32], [u64]...);
    physical memory is a map from addresses to bytes (Memory.v); a pointer into
    a static array is an index.

    ** Files and sources

    - Prelude: record update, machine integers, byte strings, lemmas on lists;
      the hint database [ints].  KMonad: the monad, its loops and their laws.
      Memory: loads and stores.  Riscv: param.h, riscv.h, memlayout.h.  State:
      the structs of proc.h, buf.h, file.h, fs.h, spinlock.h, sleeplock.h...
    - Spinlock: spinlock.c.  CString: string.c.  Kalloc: kalloc.c.
    - Vm, VmUser, VmFree, VmCopy: vm.c.
    - Sched and ProcLife: proc.c; ProcSpec (freeproc, wait, reparent),
      AllocSpec (allocproc), ForkSpec (fork) and LifeSpec (the theorems on the
      life of a process) are about it.  Sleeplock: sleeplock.c.
    - Uart: uart.c.  Printf, PrintfSpec: printf.c.  Console, ConsoleSpec:
      console.c.  Pipe: pipe.c.
    - Virtio, VirtioSpec: virtio_disk.c.  Bio, BioSpec: bio.c.  Log, LogSpec:
      log.c.  Fs, FsSpec, FsTx, FsMount, FsBlock, FsFile: fs.c.  Crash: the
      logic for code that can be cut short by a power failure.
    - File: file.c and pipealloc().  Exec: exec.c.  Syscall: syscall.c,
      sysproc.c, sysfile.c.  Trap: trap.c, plic.c.  Boot: start.c, main.c.
    - Asm, AsmSpec: entry.S, swtch.S, trampoline.S, kernelvec.S.
    - Ulib, User, UserSpec: ulib.c, printf.c and the system call stubs of user/.
      Umalloc, UmallocSpec: umalloc.c.  Sh, ShSpec, ShTotal: sh.c.  Grep,
      GrepSpec: grep.c.  Programs: cat, echo, find, init, kill, ln, ls, mkdir,
      pingpong, primes, rm, sleep, wc, xargs, zombie.  Grind, GrindSpec:
      grind.c, forktest.c, stressfs.c.
    - Mkfs, MkfsSpec: mkfs.c.

    ** Interfaces

    Components meet in classes: [Disk] is the driver the buffer cache calls
    and [DiskSpec] what it promises, discharged by the virtio driver in
    VirtioSpec; [LogArea] is the part of the disk the log has; [KernelImage]
    gives the addresses the linker chooses; [OS] is the kernel a user program
    talks to, a function from the calls so far to the answer; [Host] is the
    machine mkfs runs on.

    ** What is shown

    - File system.  A group of block writes between begin_op() and end_op()
      is atomic under crashes, recovery finishes an interrupted commit however
      often it is itself interrupted, a write to a file is one such group, and
      reads return what was written (LogSpec, FsFile, FsMount, FsBlock).  This
      rests on refinements: the driver moves exactly one block (VirtioSpec),
      the cache acts as a map of the blocks in use (BioSpec), code inside a
      transaction sees its own writes (FsTx).  The image of mkfs holds the
      files it was given, and mounting it yields that file system (MkfsSpec).
    - Memory.  Page-table operations refine updates of the address map; no
      page is lost or owned twice, on error paths included; copies between
      user and kernel touch only pages the process may access; the list of
      free pages stays well formed (Kalloc, Vm, VmUser, VmFree, VmCopy).
    - Concurrency.  Spinlocks exclude each other in every interleaving of
      atomic accesses (Spinlock); no process runs on two cpus, sleep() misses
      no wakeup (Sched); a pipe is a queue with readers and writers that sleep
      (Pipe).
    - Processes.  fork() gives the child a copy of the parent's memory,
      registers and descriptors in pages of its own, or fails and gives back
      all it took; wait() reaps an exited child, or sleeps, or fails; a child
      made by fork() and reaped by wait() leaves the free pages as they were;
      reparent() hands the children to init (ProcSpec, ForkSpec, LifeSpec).
      exit() is modelled whole; the theorems take from it the state it leaves
      the child in.
    - Traps.  A trap from user space and its return restore all registers and
      match the layout of struct trapframe; kernel and timer interrupts are
      transparent; swtch() exchanges contexts (AsmSpec).
    - Devices and output.  The console edits and delivers lines, the serial
      line is a queue, printint() prints decimal and hexadecimal numbers.
    - User programs.  malloc() gives disjoint blocks and keeps its heap well
      formed; the shell's parser returns on every line and reads back the
      lines of its language; grep prints the matching lines, its matcher
      decides the patterns' meaning; grind's generator is the one it names.

    ** Fuel

    A loop of the source is [while_fuel n body]; a theorem that a function
    returns includes that [n] was enough.  Bounded loops have a constant or a
    count from the arguments: NBUF + 1 for the buffer list, 3 levels for page
    tables, the length of a path, the n bytes of a read or write, one turn per
    block for file contents.  Loops that wait take one turn per element of the
    schedule, so that the schedule ends ([Blocked]) before the fuel does.
    Loops that end with input or children, and endless ones, take the fuel as
    an argument, and their theorems say how much is enough.

    ** Not modelled

    - defs.h only declares; kernel.ld, user.ld and the Makefile are
      the linker's and the build's; initcode.S is in the model as the bytes of
      initcode[] in proc.c.
    - ramdisk.c is not built and uses names the sources do not define.
    - usertests.c exercises the kernel and implements no part of it; its tests
      of bad pointers pass raw addresses, which the calls of User.v, made of
      the bytes a pointer stands for, cannot express.
    - Of exit() the closing of files and the release of the directory have no
      theorem of their own; the function is modelled.
    - Time, caches and the memory model: atomic accesses interleave, and
      __sync_synchronize() has nothing to order.
    - In sh.c malloc() is taken to succeed (the source does not check it). *)

From Stdlib Require Export ZArith Lia.
From stdpp Require Export numbers strings list fin_maps gmap.
#[global] Open Scope Z_scope.

#[global] Arguments Z.testbit : simpl never.
#[global] Arguments Z.shiftl : simpl never.
#[global] Arguments Z.shiftr : simpl never.
#[global] Arguments Z.land : simpl never.
#[global] Arguments Z.lor : simpl never.
#[global] Arguments Z.lnot : simpl never.
#[global] Arguments Z.modulo : simpl never.
#[global] Arguments Z.div : simpl never.
#[global] Arguments Z.pow : simpl never.
#[global] Arguments Z.of_nat : simpl never.
#[global] Arguments Z.to_nat : simpl never.

(** ** Record update

    [r <| f := v |>] is [r] with field [f] replaced.  A record becomes
    updatable by giving its eta expansion as an [Eta] instance. *)

Class Eta (R : Type) := eta : R → R.

Class Setter {R E : Type} (fld : R → E) := set_field : (E → E) → R → R.

Arguments set_field {R E} fld {Setter} f r /.

Ltac build_setter :=
  lazymatch goal with
  | |- @Setter ?R _ ?fld =>
      let h := constr:(_ : Eta R) in
      let h := eval hnf in h in
      let g := eval pattern fld in h in
      lazymatch g with
      | ?body _ => exact (fun f r => body (fun r' => f (fld r')) r)
      end
  end.

#[export] Hint Extern 1 (Setter _) => build_setter : typeclass_instances.

Notation "r <| f := v |>" := (set_field f (fun _ => v) r)
  (at level 1, left associativity, f constr at level 0, v constr at level 99,
   format "r <| f  :=  v |>").

Notation "r <| f ::= g |>" := (set_field f g r)
  (at level 1, left associativity, f constr at level 0, g constr at level 99,
   format "r <| f  ::=  g |>").

(** Prove a decidable fact about concrete data by evaluating it. *)
Ltac by_eval := apply (bool_decide_unpack _); vm_compute; exact I.

(** ** Machine integers

    A C integer is a [Z]; the functions below are the conversions C applies
    when a value is stored in an object of the given width. *)

Definition u8 (z : Z) : Z := z mod 2 ^ 8.
Definition u16 (z : Z) : Z := z mod 2 ^ 16.
Definition u32 (z : Z) : Z := z mod 2 ^ 32.
Definition u64 (z : Z) : Z := z mod 2 ^ 64.

Definition signed (w z : Z) : Z :=
  let r := z mod 2 ^ w in if r <? 2 ^ (w - 1) then r else r - 2 ^ w.

Definition i16 (z : Z) : Z := signed 16 z.
Definition i32 (z : Z) : Z := signed 32 z.
Definition i64 (z : Z) : Z := signed 64 z.

(** C truth values. *)
Definition b2z (b : bool) : Z := if b then 1 else 0.
Definition truthy (z : Z) : bool := negb (z =? 0).

Lemma u8_range z : 0 ≤ u8 z < 256.
Proof. apply Z.mod_pos_bound. lia. Qed.

Lemma u32_range z : 0 ≤ u32 z < 2 ^ 32.
Proof. apply Z.mod_pos_bound. lia. Qed.

Lemma u64_range z : 0 ≤ u64 z < 2 ^ 64.
Proof. apply Z.mod_pos_bound. lia. Qed.

Lemma u8_small z : 0 ≤ z < 256 → u8 z = z.
Proof. intros. apply Z.mod_small. lia. Qed.

Lemma u16_small z : 0 ≤ z < 2 ^ 16 → u16 z = z.
Proof. intros. apply Z.mod_small. lia. Qed.

Lemma u32_small z : 0 ≤ z < 2 ^ 32 → u32 z = z.
Proof. intros. apply Z.mod_small. lia. Qed.

Lemma u64_small z : 0 ≤ z < 2 ^ 64 → u64 z = z.
Proof. intros. apply Z.mod_small. lia. Qed.

Lemma signed_small w z : 0 < w → - 2 ^ (w - 1) ≤ z < 2 ^ (w - 1) → signed w z = z.
Proof.
  intros Hw Hz. unfold signed.
  assert (Hp : 2 ^ w = 2 * 2 ^ (w - 1)).
  { rewrite <- Z.pow_succ_r by lia. f_equal. lia. }
  assert (0 < 2 ^ (w - 1)) by (apply Z.pow_pos_nonneg; lia).
  destruct (decide (0 ≤ z)) as [Hpos|Hneg].
  - rewrite Z.mod_small by lia. destruct (Z.ltb_spec z (2 ^ (w - 1))); lia.
  - rewrite <- (Z.mod_add z 1) by lia. rewrite Z.mod_small by lia.
    destruct (Z.ltb_spec (z + 1 * 2 ^ w) (2 ^ (w - 1))); lia.
Qed.

Lemma i32_small z : - 2 ^ 31 ≤ z < 2 ^ 31 → i32 z = z.
Proof. intros. apply signed_small; lia. Qed.
Lemma i64_small z : - 2 ^ 63 ≤ z < 2 ^ 63 → i64 z = z.
Proof. intros. apply signed_small; lia. Qed.

Create HintDb ints.
Create Rewrite HintDb ints.
#[export] Hint Resolve u8_range u32_range u64_range : ints.
#[export] Hint Rewrite u8_small u16_small u32_small u64_small i32_small i64_small using lia : ints.

(** ** Bit facts shared by the register and page-table macros *)

Lemma testbit_high z n i : 0 ≤ z < 2 ^ n → 0 ≤ n ≤ i → Z.testbit z i = false.
Proof.
  intros Hz Hi. rewrite <- (Z.mod_small z (2 ^ n)) by lia.
  apply Z.mod_pow2_bits_high. lia.
Qed.

(** Adding two numbers whose bits are disjoint is their bitwise or. *)
Lemma lor_shiftl_add a b n : 0 ≤ n → 0 ≤ b < 2 ^ n → Z.lor (Z.shiftl a n) b = a * 2 ^ n + b.
Proof.
  intros Hn Hb. rewrite <- Z.shiftl_mul_pow2 by lia.
  rewrite <- Z.lxor_lor, <- Z.add_nocarry_lxor; [done| |].
  all: apply Z.bits_inj'; intros i Hi; rewrite Z.land_spec, Z.bits_0.
  all: destruct (decide (i < n)).
  1,3: rewrite Z.shiftl_spec_low by lia; done.
  all: rewrite (testbit_high b n) by lia; apply andb_false_r.
Qed.

(** ** Updating one element of an array *)

Section alter.
Context {A : Type} `{!Inhabited A}.
Implicit Types (l : list A) (f g : A → A).

Lemma list_alter_total f l i : (i < length l)%nat → alter f i l !!! i = f (l !!! i).
Proof.
  intros Hi. apply list_lookup_total_correct. rewrite list_lookup_alter.
  case_decide; [|done]. rewrite list_lookup_lookup_total_lt by done. done.
Qed.

Lemma list_alter_total_ne f l i j : i ≠ j → alter f i l !!! j = l !!! j.
Proof.
  intros Hij. rewrite !list_lookup_total_alt, list_lookup_alter.
  by case_decide.
Qed.

Lemma list_alter_alter f g l i : alter g i (alter f i l) = alter (λ x, g (f x)) i l.
Proof.
  apply list_eq. intros j. destruct (decide (i = j)) as [->|Hij].
  - rewrite !list_lookup_alter_eq. by destruct (l !! j).
  - by rewrite !list_lookup_alter_ne.
Qed.

Lemma list_alter_ext_at f g l i : f (l !!! i) = g (l !!! i) → alter f i l = alter g i l.
Proof.
  intros H. apply list_eq. intros j. rewrite !list_lookup_alter.
  case_decide; [|done]. subst. destruct (l !! j) as [x|] eqn:E; [|done].
  rewrite (list_lookup_total_correct _ _ _ E) in H. cbn. by rewrite H.
Qed.

Lemma list_alter_id_at f l i : f (l !!! i) = l !!! i → alter f i l = l.
Proof.
  intros H. apply list_eq. intros j. rewrite !list_lookup_alter.
  case_decide; [|done]. subst. destruct (l !! j) as [x|] eqn:E; [|done].
  rewrite (list_lookup_total_correct _ _ _ E) in H. cbn. by rewrite H.
Qed.

Lemma list_alter_comm f g l i j :
  i ≠ j → alter f i (alter g j l) = alter g j (alter f i l).
Proof.
  intros Hij. apply list_eq. intros k. destruct (decide (i = k)) as [->|Hik].
  - by rewrite list_lookup_alter_eq, !list_lookup_alter_ne, list_lookup_alter_eq by done.
  - destruct (decide (j = k)) as [->|Hjk].
    + by rewrite list_lookup_alter_ne, !list_lookup_alter_eq, list_lookup_alter_ne by done.
    + by rewrite !list_lookup_alter_ne.
Qed.
End alter.

(** ** Lists of bytes and little-endian words *)

Fixpoint bytes_to_Z (l : list Z) : Z :=
  match l with
  | [] => 0
  | b :: t => b + 256 * bytes_to_Z t
  end.

Fixpoint Z_to_bytes (n : nat) (z : Z) : list Z :=
  match n with
  | O => []
  | S n => z mod 256 :: Z_to_bytes n (z / 256)
  end.

Lemma Z_to_bytes_length n z : length (Z_to_bytes n z) = n.
Proof. revert z. induction n as [|n IH]; intros z; simpl; [done|]. by rewrite IH. Qed.

Lemma bytes_to_Z_to_bytes n z : 0 ≤ z < 256 ^ Z.of_nat n → bytes_to_Z (Z_to_bytes n z) = z.
Proof.
  revert z. induction n as [|n IH]; intros z Hz; simpl.
  - change (256 ^ Z.of_nat 0) with 1 in Hz. lia.
  - rewrite Nat2Z.inj_succ, Z.pow_succ_r in Hz by lia.
    rewrite IH; [pose proof (Z.div_mod z 256); lia|].
    split; [apply Z.div_pos; lia|apply Z.div_lt_upper_bound; lia].
Qed.

Lemma Z_to_bytes_range n z : Forall (λ b, 0 ≤ b < 256) (Z_to_bytes n z).
Proof.
  revert z. induction n as [|n IH]; intros z; simpl; constructor; [|done].
  apply Z.mod_pos_bound. lia.
Qed.

Lemma bytes_to_Z_range l :
  Forall (λ b, 0 ≤ b < 256) l → 0 ≤ bytes_to_Z l < 256 ^ Z.of_nat (length l).
Proof.
  induction 1 as [|b l Hb Hl IH]; simpl; [lia|].
  rewrite Nat2Z.inj_succ, Z.pow_succ_r by lia. lia.
Qed.

Lemma Z_to_bytes_to_Z l :
  Forall (λ b, 0 ≤ b < 256) l → Z_to_bytes (length l) (bytes_to_Z l) = l.
Proof.
  induction 1 as [|b l Hb Hl IH]; simpl; [done|]. f_equal.
  - rewrite (Z.mul_comm 256), Z.mod_add by lia. apply Z.mod_small. lia.
  - rewrite (Z.mul_comm 256), Z.div_add by lia.
    by rewrite (Z.div_small b) by lia.
Qed.
