(* ===== verification/KMonad.v ===== *)
(** * The monad in which the C functions are written

    [M S A] is a computation of one thread over the shared state [S].  Besides
    a result it can end in [panic()], in behaviour C leaves undefined
    ([Stuck]), or waiting.  A thread waits in two places only: in [swtch()]
    and while spinning on a taken lock.  What the rest of the machine does
    during each wait is the schedule [ks], a list of state transformers: every
    wait consumes the next one, and a computation whose schedule is exhausted
    is [Blocked] in the state in which it waits.  Theorems that quantify over
    [ks] therefore hold for every behaviour of the other threads. *)

From S2P Require Import Prelude.

Inductive res (S A : Type) : Type :=
  | Ok (a : A) (ks : list (S → S)) (s : S)
  | Panic (msg : string) (s : S)
  | Stuck (why : string)
  | Blocked (s : S)
  | OutOfFuel.
Arguments Ok {S A} a ks s.
Arguments Panic {S A} msg s.
Arguments Stuck {S A} why.
Arguments Blocked {S A} s.
Arguments OutOfFuel {S A}.

Definition M (S A : Type) : Type := list (S → S) → S → res S A.

#[export] Instance M_ret {S} : MRet (M S) := λ A a ks s, Ok a ks s.

#[export] Instance M_bind {S} : MBind (M S) := λ A B f m ks s,
  match m ks s with
  | Ok a ks' s' => f a ks' s'
  | Panic msg s' => Panic msg s'
  | Stuck why => Stuck why
  | Blocked s' => Blocked s'
  | OutOfFuel => OutOfFuel
  end.

Section ops.
Context {S : Type}.

Definition get : M S S := λ ks s, Ok s ks s.
Definition gets {A} (f : S → A) : M S A := λ ks s, Ok (f s) ks s.
Definition modify (f : S → S) : M S unit := λ ks s, Ok tt ks (f s).
Definition panic {A} (msg : string) : M S A := λ _ s, Panic msg s.
Definition stuck {A} (why : string) : M S A := λ _ _, Stuck why.

(** Give the machine to the other threads and take it back. *)
Definition wait_env : M S unit := λ ks s,
  match ks with
  | [] => Blocked s
  | f :: ks' => Ok tt ks' (f s)
  end.

(** A dereference: undefined when the object does not exist. *)
Definition deref {A} (why : string) (f : S → option A) : M S A := λ ks s,
  match f s with
  | Some a => Ok a ks s
  | None => Stuck why
  end.

Definition when (b : bool) (m : M S unit) : M S unit := if b then m else mret tt.

(** [for(x in l) body(x);] *)
Fixpoint for_each {A} (l : list A) (body : A → M S unit) : M S unit :=
  match l with
  | [] => mret tt
  | x :: l' => body x ;; for_each l' body
  end.

(** [for(x in l) { if(...) return b; }]: [Some b] leaves the loop. *)
Fixpoint for_find {A B} (l : list A) (body : A → M S (option B)) : M S (option B) :=
  match l with
  | [] => mret None
  | x :: l' =>
      r ← body x;
      match r with
      | Some b => mret (Some b)
      | None => for_find l' body
      end
  end.

(** [while(1) body]: [inl] carries the locals to the next iteration, [inr]
    leaves the loop.  [fuel] bounds the iterations. *)
Fixpoint while_fuel {A B} (fuel : nat) (body : A → M S (A + B)) (a : A) : M S B :=
  match fuel with
  | O => λ _ _, OutOfFuel
  | Datatypes.S fuel' =>
      r ← body a;
      match r with
      | inl a' => while_fuel fuel' body a'
      | inr b => mret b
      end
  end.

(** The number of waits the schedule still allows: a loop whose iterations
    each wait or make one of [n] units of progress needs no more fuel than
    [n] plus this. *)
Definition waits_left : M S nat := λ ks s, Ok (length ks) ks s.

(** ** Running computations *)

Lemma bind_run {A B} (m : M S A) (f : A → M S B) ks s :
  (m ≫= f) ks s =
  match m ks s with
  | Ok a ks' s' => f a ks' s'
  | Panic msg s' => Panic msg s'
  | Stuck why => Stuck why
  | Blocked s' => Blocked s'
  | OutOfFuel => OutOfFuel
  end.
Proof. reflexivity. Qed.

Lemma bind_ok {A B} (m : M S A) (f : A → M S B) ks s a ks' s' :
  m ks s = Ok a ks' s' → (m ≫= f) ks s = f a ks' s'.
Proof. intros H. by rewrite bind_run, H. Qed.

Lemma bind_ok_inv {A B} (m : M S A) (f : A → M S B) ks s b ks' s' :
  (m ≫= f) ks s = Ok b ks' s' →
  ∃ a ks1 s1, m ks s = Ok a ks1 s1 ∧ f a ks1 s1 = Ok b ks' s'.
Proof. rewrite bind_run. destruct (m ks s); [eauto|done..]. Qed.

Lemma ret_run {A} (a : A) ks s : (mret a : M S A) ks s = Ok a ks s.
Proof. reflexivity. Qed.

Lemma bind_assoc {A B C} (m : M S A) (f : A → M S B) (g : B → M S C) ks s :
  ((m ≫= f) ≫= g) ks s = (m ≫= λ a, f a ≫= g) ks s.
Proof. rewrite !bind_run. by destruct (m ks s). Qed.

Lemma when_run b (m : M S unit) ks s :
  when b m ks s = if b then m ks s else Ok tt ks s.
Proof. by destruct b. Qed.

Lemma for_find_none {A B} (l : list A) (body : A → M S (option B)) ks s :
  (∀ x, x ∈ l → body x ks s = Ok None ks s) → for_find l body ks s = Ok None ks s.
Proof.
  induction l as [|x l IH]; intros H; [done|]. cbn [for_find]. rewrite bind_run, H by set_solver.
  apply IH. set_solver.
Qed.

(** The loop ends at the first element whose body returns something. *)
Lemma for_find_at {A B} (l1 l2 : list A) x (body : A → M S (option B)) ks s b s' :
  (∀ y, y ∈ l1 → body y ks s = Ok None ks s) → body x ks s = Ok (Some b) ks s' →
  for_find (l1 ++ x :: l2) body ks s = Ok (Some b) ks s'.
Proof.
  induction l1 as [|y l1 IH]; intros H Hx; cbn [app for_find]; rewrite bind_run.
  - by rewrite Hx.
  - rewrite H by set_solver. apply IH; [set_solver|done].
Qed.

Lemma for_each_app {A} (l1 l2 : list A) body ks s :
  for_each (l1 ++ l2) body ks s = (for_each l1 body ;; for_each l2 body) ks s.
Proof.
  revert ks s. induction l1 as [|x l1 IH]; intros ks s; [done|].
  simpl. rewrite bind_assoc, !bind_run.
  destruct (body x ks s); [apply IH|done..].
Qed.

(** A loop whose iterations never wait computes a fold. *)
Lemma for_each_fold {A} (l : list A) (body : A → M S unit) (step : S → A → S) (I : S → Prop) ks s :
  (∀ x ks s, x ∈ l → I s → body x ks s = Ok tt ks (step s x) ∧ I (step s x)) →
  I s →
  for_each l body ks s = Ok tt ks (fold_left step l s) ∧ I (fold_left step l s).
Proof.
  revert s. induction l as [|x l IH]; intros s Hb Hs; simpl; [done|].
  destruct (Hb x ks s) as [Hrun HI]; [constructor|done|].
  rewrite (bind_ok _ _ _ _ _ _ _ Hrun).
  apply IH; [|done]. intros y ks' s' Hy. apply Hb. by constructor.
Qed.

End ops.

Arguments wait_env {S} ks s /.
Arguments waits_left {S} ks s /.
Arguments get {S} ks s /.
Arguments gets {S A} f ks s /.
Arguments modify {S} f ks s /.
Arguments panic {S A} msg ks s /.
Arguments stuck {S A} why ks s /.
Arguments deref {S A} why f ks s /.

(** ** Total-correctness triples

    [total P m Q]: from every state satisfying [P], and whatever the schedule,
    [m] returns without waiting a result and state satisfying [Q]. *)
Definition total {S A} (P : S → Prop) (m : M S A) (Q : A → S → Prop) : Prop :=
  ∀ ks s, P s → ∃ a s', m ks s = Ok a ks s' ∧ Q a s'.

Lemma total_bind {S A B} (P : S → Prop) (m : M S A) (Q : A → S → Prop)
    (f : A → M S B) (R : B → S → Prop) :
  total P m Q → (∀ a, total (Q a) (f a) R) → total P (m ≫= f) R.
Proof.
  intros Hm Hf ks s HP. destruct (Hm ks s HP) as (a & s' & Hr & HQ).
  destruct (Hf a ks s' HQ) as (b & s'' & Hr' & HR).
  exists b, s''. by rewrite (bind_ok _ _ _ _ _ _ _ Hr).
Qed.

Lemma total_conseq {S A} (P P' : S → Prop) (m : M S A) (Q Q' : A → S → Prop) :
  total P m Q → (∀ s, P' s → P s) → (∀ a s, Q a s → Q' a s) → total P' m Q'.
Proof.
  intros Hm HP HQ ks s Hs. destruct (Hm ks s (HP s Hs)) as (a & s' & Hr & Hq). eauto.
Qed.

Lemma total_ret {S A} (a : A) (Q : A → S → Prop) : total (Q a) (mret a) Q.
Proof. intros ks s Hs. by exists a, s. Qed.

(** ** Fuel

    A computation approximates another when more fuel does not change what it
    does, once it does not run out. *)
Definition approx {S A} (m m' : M S A) : Prop := ∀ ks s, m ks s ≠ OutOfFuel → m' ks s = m ks s.

Lemma approx_refl {S A} (m : M S A) : approx m m.
Proof. by intros ks s. Qed.

Lemma approx_bind {S A B} (m m' : M S A) (f f' : A → M S B) :
  approx m m' → (∀ a, approx (f a) (f' a)) → approx (m ≫= f) (m' ≫= f').
Proof.
  intros Hm Hf ks s. rewrite !bind_run. intros H. rewrite Hm; [|intros E; by rewrite E in H]. destruct (m ks s); try done. by apply Hf.
Qed.

Lemma approx_while {S A B} (body body' : A → M S (A + B)) fuel fuel' a :
  (fuel ≤ fuel')%nat → (∀ a, approx (body a) (body' a)) → approx (while_fuel fuel body a) (while_fuel fuel' body' a).
Proof.
  intros Hf Hb. revert fuel' a Hf. induction fuel as [|fuel IH]; intros fuel' a Hf; [by intros ks s []|].
  destruct fuel' as [|fuel']; [lia|]. cbn [while_fuel]. apply approx_bind; [done|]. intros [a'|b]; [apply IH; lia|apply approx_refl].
Qed.

Lemma approx_ok {S A} (m m' : M S A) ks s a ks' s' : approx m m' → m ks s = Ok a ks' s' → m' ks s = Ok a ks' s'.
Proof. intros H E. by rewrite H, E by (by rewrite E). Qed.

(** Two copies of a computation that differ in their fuel. *)
Ltac approx_step :=
  first
    [ apply approx_refl
    | done
    | apply approx_while; [lia|intros]
    | apply approx_bind; [|intros]
    | match goal with |- approx (match ?x with _ => _ end) _ => destruct x end ].
Ltac approx_tac := intros; repeat approx_step.

Create HintDb krun.
Create Rewrite HintDb krun.
#[export] Hint Rewrite @bind_run @ret_run @when_run : krun.

(** Evaluate the head of a computation as far as its equations allow. *)
Ltac kstep := progress (rewrite ?bind_run, ?ret_run, ?when_run; cbn).
Ltac ksteps := repeat kstep.
