(* ===== verification/Memory.v ===== *)
(** * Byte-addressed memory

    Physical memory (and any other C address space) is a total map from
    addresses to bytes; loads and stores of wider objects are little-endian,
    as on RISC-V. *)

From S2P Require Import Prelude.

Definition memory : Type := Z → Z.

(** Every cell holds a byte. *)
Definition mem_bytes (m : memory) : Prop := ∀ a, 0 ≤ m a < 256.

Definition store8 (m : memory) (a v : Z) : memory :=
  λ x, if x =? a then u8 v else m x.

Definition load_bytes (m : memory) (a : Z) (n : nat) : list Z :=
  (λ i, m (a + Z.of_nat i)) <$> seq 0 n.

(** Replace the [length l] bytes at [a]. *)
Definition store_bytes (m : memory) (a : Z) (l : list Z) : memory :=
  λ x, if (a <=? x) && (x <? a + Z.of_nat (length l))
       then l !!! Z.to_nat (x - a) else m x.

(** Set [n] bytes at [a] to [c]. *)
Definition fill (m : memory) (a c n : Z) : memory :=
  λ x, if (a <=? x) && (x <? a + n) then u8 c else m x.

Definition load64 (m : memory) (a : Z) : Z := bytes_to_Z (load_bytes m a 8).
Definition store64 (m : memory) (a v : Z) : memory := store_bytes m a (Z_to_bytes 8 v).
Definition load32 (m : memory) (a : Z) : Z := bytes_to_Z (load_bytes m a 4).
Definition store32 (m : memory) (a v : Z) : memory := store_bytes m a (Z_to_bytes 4 v).

#[global] Arguments store8 : simpl never.
#[global] Arguments load_bytes : simpl never.
#[global] Arguments store_bytes : simpl never.
#[global] Arguments fill : simpl never.
#[global] Arguments load64 : simpl never.
#[global] Arguments store64 : simpl never.
#[global] Arguments load32 : simpl never.
#[global] Arguments store32 : simpl never.

(** Pointwise equality of address spaces. *)
Definition mem_eq (m1 m2 : memory) : Prop := ∀ x, m1 x = m2 x.

#[export] Instance mem_eq_equiv : Equivalence mem_eq.
Proof.
  split; [by intros m x|by intros m1 m2 H x|].
  intros m1 m2 m3 H12 H23 x. by rewrite H12.
Qed.

Lemma load_bytes_length m a n : length (load_bytes m a n) = n.
Proof. unfold load_bytes. by rewrite length_fmap, length_seq. Qed.

Lemma load_bytes_lookup m a n i :
  (i < n)%nat → load_bytes m a n !! i = Some (m (a + Z.of_nat i)).
Proof.
  intros Hi. unfold load_bytes.
  rewrite list_lookup_fmap, lookup_seq_lt by lia. done.
Qed.

Lemma load_bytes_cons m a n : load_bytes m a (S n) = m a :: load_bytes m (a + 1) n.
Proof.
  unfold load_bytes. cbn [seq fmap list_fmap]. rewrite Z.add_0_r. f_equal.
  apply list_eq. intros i. rewrite <- (fmap_S_seq 0 n), <- list_fmap_compose, !list_lookup_fmap.
  destruct (decide (i < n)%nat).
  - rewrite lookup_seq_lt by done. cbn. do 2 f_equal. lia.
  - by rewrite lookup_seq_ge by lia.
Qed.

Lemma load_bytes_ext m1 m2 a n :
  (∀ x, a ≤ x < a + Z.of_nat n → m1 x = m2 x) → load_bytes m1 a n = load_bytes m2 a n.
Proof.
  intros H. apply list_eq_same_length with n; rewrite ?load_bytes_length; [done..|].
  intros i x y Hi. rewrite !load_bytes_lookup by lia. rewrite H by lia. congruence.
Qed.

#[export] Instance load_bytes_proper : Proper (mem_eq ==> eq ==> eq ==> eq) load_bytes.
Proof. intros m1 m2 Hm a ? <- n ? <-. apply load_bytes_ext. auto. Qed.

#[export] Instance load64_proper : Proper (mem_eq ==> eq ==> eq) load64.
Proof. intros m1 m2 Hm a ? <-. unfold load64. by rewrite Hm. Qed.

Lemma load_bytes_range m a n : mem_bytes m → Forall (λ b, 0 ≤ b < 256) (load_bytes m a n).
Proof.
  intros Hm. apply Forall_lookup. intros i x Hx.
  pose proof (lookup_lt_Some _ _ _ Hx). rewrite load_bytes_length in *.
  rewrite load_bytes_lookup in Hx by lia. injection Hx as <-. apply Hm.
Qed.

Lemma load64_range m a : mem_bytes m → 0 ≤ load64 m a < 2 ^ 64.
Proof.
  intros Hm. pose proof (bytes_to_Z_range _ (load_bytes_range m a 8 Hm)) as H.
  by rewrite load_bytes_length in H.
Qed.

Lemma store_bytes_in m a l x :
  a ≤ x < a + Z.of_nat (length l) → store_bytes m a l x = l !!! Z.to_nat (x - a).
Proof.
  intros Hx. unfold store_bytes.
  destruct (Z.leb_spec a x), (Z.ltb_spec x (a + Z.of_nat (length l))); simpl; auto; lia.
Qed.

Lemma store_bytes_out m a l x :
  ¬ (a ≤ x < a + Z.of_nat (length l)) → store_bytes m a l x = m x.
Proof.
  intros Hx. unfold store_bytes.
  destruct (Z.leb_spec a x), (Z.ltb_spec x (a + Z.of_nat (length l))); simpl; auto; lia.
Qed.

Lemma fill_in m a c n x : a ≤ x < a + n → fill m a c n x = u8 c.
Proof.
  intros Hx. unfold fill.
  destruct (Z.leb_spec a x), (Z.ltb_spec x (a + n)); simpl; auto; lia.
Qed.

Lemma fill_out m a c n x : ¬ (a ≤ x < a + n) → fill m a c n x = m x.
Proof.
  intros Hx. unfold fill.
  destruct (Z.leb_spec a x), (Z.ltb_spec x (a + n)); simpl; auto; lia.
Qed.

Lemma fill_bytes m a c n : mem_bytes m → mem_bytes (fill m a c n).
Proof.
  intros Hm x. destruct (decide (a ≤ x < a + n)).
  - rewrite fill_in by done. apply u8_range.
  - by rewrite fill_out.
Qed.

Lemma store_bytes_bytes m a l :
  Forall (λ b, 0 ≤ b < 256) l → mem_bytes m → mem_bytes (store_bytes m a l).
Proof.
  intros Hl Hm x. destruct (decide (a ≤ x < a + Z.of_nat (length l))).
  - rewrite store_bytes_in by done.
    rewrite Forall_lookup in Hl. apply (Hl (Z.to_nat (x - a))).
    apply list_lookup_lookup_total_lt. lia.
  - by rewrite store_bytes_out.
Qed.

Lemma load_store_bytes m a l : load_bytes (store_bytes m a l) a (length l) = l.
Proof.
  apply list_eq_same_length with (length l); rewrite ?load_bytes_length; [done..|].
  intros i x y Hi. rewrite load_bytes_lookup by lia.
  rewrite store_bytes_in by lia. intros [= <-] Hy.
  replace (Z.to_nat _) with i by lia. by apply list_lookup_total_correct.
Qed.

Lemma load_store_bytes_disjoint m a l b n :
  b + Z.of_nat n ≤ a ∨ a + Z.of_nat (length l) ≤ b →
  load_bytes (store_bytes m a l) b n = load_bytes m b n.
Proof. intros H. apply load_bytes_ext. intros x Hx. apply store_bytes_out. lia. Qed.

Lemma load_fill_disjoint m a c n b k :
  b + Z.of_nat k ≤ a ∨ a + n ≤ b → load_bytes (fill m a c n) b k = load_bytes m b k.
Proof. intros H. apply load_bytes_ext. intros x Hx. apply fill_out. lia. Qed.

Lemma load_fill m a c n b k :
  a ≤ b → b + Z.of_nat k ≤ a + n → load_bytes (fill m a c n) b k = replicate k (u8 c).
Proof.
  intros H1 H2. apply list_eq_same_length with k;
    rewrite ?load_bytes_length, ?length_replicate; [done..|].
  intros i x y Hi. rewrite load_bytes_lookup by lia. rewrite fill_in by lia.
  intros [= <-] Hy%lookup_replicate. by destruct Hy.
Qed.

Lemma load64_store64_same m a v : 0 ≤ v < 2 ^ 64 → load64 (store64 m a v) a = v.
Proof.
  intros Hv. unfold load64, store64.
  pose proof (load_store_bytes m a (Z_to_bytes 8 v)) as H.
  rewrite Z_to_bytes_length in H. rewrite H.
  apply bytes_to_Z_to_bytes. done.
Qed.

Lemma load64_store64_other m a b v :
  b + 8 ≤ a ∨ a + 8 ≤ b → load64 (store64 m a v) b = load64 m b.
Proof.
  intros H. unfold load64, store64. rewrite load_store_bytes_disjoint; [done|].
  rewrite Z_to_bytes_length. lia.
Qed.

Lemma load64_fill_zero m a n b :
  a ≤ b → b + 8 ≤ a + n → load64 (fill m a 0 n) b = 0.
Proof. intros. unfold load64. rewrite load_fill by lia. reflexivity. Qed.

Lemma load64_fill_other m a c n b :
  b + 8 ≤ a ∨ a + n ≤ b → load64 (fill m a c n) b = load64 m b.
Proof. intros. unfold load64. by rewrite load_fill_disjoint by lia. Qed.

Lemma store64_out m a v x : ¬ (a ≤ x < a + 8) → store64 m a v x = m x.
Proof. intros. apply store_bytes_out. rewrite Z_to_bytes_length. lia. Qed.

Lemma store64_bytes m a v : mem_bytes m → mem_bytes (store64 m a v).
Proof. apply store_bytes_bytes, Z_to_bytes_range. Qed.

Lemma load32_store32_same m a v : 0 ≤ v < 2 ^ 32 → load32 (store32 m a v) a = v.
Proof.
  intros Hv. unfold load32, store32.
  pose proof (load_store_bytes m a (Z_to_bytes 4 v)) as H.
  rewrite Z_to_bytes_length in H. rewrite H. by apply bytes_to_Z_to_bytes.
Qed.

Lemma load32_ext m1 m2 a : (∀ x, a ≤ x < a + 4 → m1 x = m2 x) → load32 m1 a = load32 m2 a.
Proof. intros H. unfold load32. f_equal. by apply load_bytes_ext. Qed.

Lemma load64_ext m1 m2 a : (∀ x, a ≤ x < a + 8 → m1 x = m2 x) → load64 m1 a = load64 m2 a.
Proof. intros H. unfold load64. f_equal. by apply load_bytes_ext. Qed.

Lemma store32_out m a v x : ¬ (a ≤ x < a + 4) → store32 m a v x = m x.
Proof. intros. apply store_bytes_out. rewrite Z_to_bytes_length. lia. Qed.

#[export] Hint Resolve fill_bytes store64_bytes store_bytes_bytes : ints.
