(* ===== verification/Riscv.v ===== *)
(** * Constants and address arithmetic: param.h, riscv.h, memlayout.h

    The macros that describe RISC-V registers, Sv39 page tables and the
    physical and virtual memory layout, with the facts about them the
    components rely on. *)

From S2P Require Import Prelude.

(** ** param.h *)
Definition NPROC : nat := 64.
Definition NCPU : nat := 8.
Definition NOFILE : nat := 16.
Definition NFILE : nat := 100.
Definition NINODE : nat := 50.
Definition NDEV : Z := 10.
Definition ROOTDEV : Z := 1.
Definition MAXARG : nat := 32.
Definition MAXOPBLOCKS : Z := 10.
Definition LOGSIZE : Z := MAXOPBLOCKS * 3.
Definition NBUF : nat := Z.to_nat (MAXOPBLOCKS * 3).
Definition FSSIZE : Z := 2000.
Definition MAXPATH : Z := 128.

(** ** riscv.h: status bits *)
Definition SSTATUS_SPP : Z := Z.shiftl 1 8.
Definition SSTATUS_SPIE : Z := Z.shiftl 1 5.
Definition SSTATUS_SIE : Z := Z.shiftl 1 1.

(** ** riscv.h: pages and page-table entries *)
Definition PGSIZE : Z := 4096.
Definition PGSHIFT : Z := 12.

(** [~(PGSIZE-1)] is an int, sign-extended to the width of the other operand. *)
Definition PGROUNDUP (sz : Z) : Z := Z.land (u64 (sz + PGSIZE - 1)) (Z.lnot (PGSIZE - 1)).
Definition PGROUNDDOWN (a : Z) : Z := Z.land a (Z.lnot (PGSIZE - 1)).

Definition PTE_V : Z := Z.shiftl 1 0.
Definition PTE_R : Z := Z.shiftl 1 1.
Definition PTE_W : Z := Z.shiftl 1 2.
Definition PTE_X : Z := Z.shiftl 1 3.
Definition PTE_U : Z := Z.shiftl 1 4.

Definition PA2PTE (pa : Z) : Z := u64 (Z.shiftl (Z.shiftr pa 12) 10).
Definition PTE2PA (pte : Z) : Z := u64 (Z.shiftl (Z.shiftr pte 10) 12).
Definition PTE_FLAGS (pte : Z) : Z := Z.land pte 0x3FF.

Definition PXMASK : Z := 0x1FF.
Definition PXSHIFT (level : Z) : Z := PGSHIFT + 9 * level.
Definition PX (level va : Z) : Z := Z.land (Z.shiftr va (PXSHIFT level)) PXMASK.

Definition MAXVA : Z := Z.shiftl 1 (9 + 9 + 9 + 12 - 1).

Definition SATP_SV39 : Z := Z.shiftl 8 60.
Definition MAKE_SATP (pagetable : Z) : Z := Z.lor SATP_SV39 (Z.shiftr pagetable 12).

(** ** memlayout.h *)
Definition UART0 : Z := 0x10000000.
Definition UART0_IRQ : Z := 10.
Definition VIRTIO0 : Z := 0x10001000.
Definition VIRTIO0_IRQ : Z := 1.
Definition PLIC : Z := 0x0c000000.
Definition KERNBASE : Z := 0x80000000.
Definition PHYSTOP : Z := KERNBASE + 128 * 1024 * 1024.
Definition TRAMPOLINE : Z := MAXVA - PGSIZE.
Definition KSTACK (p : Z) : Z := TRAMPOLINE - (p + 1) * 2 * PGSIZE.
Definition TRAPFRAME : Z := TRAMPOLINE - PGSIZE.

(** ** Facts *)

Definition page_aligned (a : Z) : Prop := a mod PGSIZE = 0.

#[export] Instance page_aligned_dec a : Decision (page_aligned a).
Proof. unfold page_aligned. apply _. Defined.

Lemma land_lnot_ones a n : 0 ≤ n → Z.land a (Z.lnot (2 ^ n - 1)) = a / 2 ^ n * 2 ^ n.
Proof.
  intros Hn. replace (2 ^ n - 1) with (Z.ones n) by (rewrite Z.ones_equiv; lia).
  rewrite <- Z.ldiff_land, Z.ldiff_ones_r by lia.
  by rewrite Z.shiftl_mul_pow2, Z.shiftr_div_pow2 by lia.
Qed.

Lemma PGROUNDDOWN_spec a : PGROUNDDOWN a = a / PGSIZE * PGSIZE.
Proof. apply (land_lnot_ones a 12). lia. Qed.

Lemma PGROUNDUP_spec sz :
  0 ≤ sz → sz + PGSIZE - 1 < 2 ^ 64 → PGROUNDUP sz = (sz + PGSIZE - 1) / PGSIZE * PGSIZE.
Proof.
  intros H1 H2. unfold PGROUNDUP. unfold PGSIZE in *. rewrite u64_small by lia.
  apply (land_lnot_ones _ 12). lia.
Qed.

Lemma PGROUNDDOWN_bounds a : PGROUNDDOWN a ≤ a < PGROUNDDOWN a + PGSIZE.
Proof.
  rewrite PGROUNDDOWN_spec. unfold PGSIZE.
  pose proof (Z.div_mod a 4096). pose proof (Z.mod_pos_bound a 4096). lia.
Qed.

Lemma PGROUNDDOWN_aligned a : page_aligned (PGROUNDDOWN a).
Proof. unfold page_aligned. rewrite PGROUNDDOWN_spec. apply Z.mod_mul. done. Qed.

Lemma PGROUNDDOWN_id a : page_aligned a → PGROUNDDOWN a = a.
Proof.
  unfold page_aligned. intros H. rewrite PGROUNDDOWN_spec.
  pose proof (Z.div_mod a PGSIZE). unfold PGSIZE in *. lia.
Qed.

Lemma PGROUNDUP_bounds sz :
  0 ≤ sz → sz + PGSIZE - 1 < 2 ^ 64 → sz ≤ PGROUNDUP sz < sz + PGSIZE.
Proof.
  intros H1 H2. rewrite PGROUNDUP_spec by done. unfold PGSIZE in *.
  pose proof (Z.div_mod (sz + 4096 - 1) 4096).
  pose proof (Z.mod_pos_bound (sz + 4096 - 1) 4096). lia.
Qed.

Lemma PGROUNDUP_aligned sz :
  0 ≤ sz → sz + PGSIZE - 1 < 2 ^ 64 → page_aligned (PGROUNDUP sz).
Proof. intros. unfold page_aligned. rewrite PGROUNDUP_spec by done. by apply Z.mod_mul. Qed.

Lemma PGROUNDUP_id sz :
  0 ≤ sz → sz + PGSIZE - 1 < 2 ^ 64 → page_aligned sz → PGROUNDUP sz = sz.
Proof.
  intros H1 H2 Ha. pose proof (PGROUNDUP_bounds sz H1 H2).
  pose proof (PGROUNDUP_aligned sz H1 H2) as Hb. unfold page_aligned, PGSIZE in *.
  pose proof (Z.div_mod sz 4096). pose proof (Z.div_mod (PGROUNDUP sz) 4096). lia.
Qed.

Lemma PX_spec level va : 0 ≤ level → PX level va = va / 2 ^ (12 + 9 * level) mod 512.
Proof.
  intros H. unfold PX, PXSHIFT, PGSHIFT, PXMASK.
  change 0x1FF with (Z.ones 9). rewrite Z.land_ones by lia.
  by rewrite Z.shiftr_div_pow2 by lia.
Qed.

Lemma PX_range level va : 0 ≤ level → 0 ≤ PX level va < 512.
Proof. intros. rewrite PX_spec by done. apply Z.mod_pos_bound. lia. Qed.

Lemma PX_low va : 0 ≤ va < MAXVA → PX 2 va < 256.
Proof.
  intros H. rewrite PX_spec by lia. change MAXVA with (2 ^ 38) in H.
  change (12 + 9 * 2) with 30. Z.div_mod_to_equations. lia.
Qed.

(** Every triple of indices with the first below 256 is that of an address. *)
Lemma PX_compose i2 i1 i0 :
  0 ≤ i2 < 256 → 0 ≤ i1 < 512 → 0 ≤ i0 < 512 →
  let va := i2 * 2 ^ 30 + i1 * 2 ^ 21 + i0 * 2 ^ 12 in
  0 ≤ va < MAXVA ∧ va mod PGSIZE = 0 ∧ PX 2 va = i2 ∧ PX 1 va = i1 ∧ PX 0 va = i0.
Proof.
  intros H2 H1 H0 va. rewrite !PX_spec by lia. change MAXVA with (2 ^ 38). unfold PGSIZE.
  change (12 + 9 * 2) with 30. change (12 + 9 * 1) with 21. change (12 + 9 * 0) with 12.
  unfold va. split_and!; Z.div_mod_to_equations; lia.
Qed.

(** The three indices and the page offset determine an address below MAXVA. *)
Lemma va_decompose va :
  0 ≤ va < MAXVA →
  va = PX 2 va * 2 ^ 30 + PX 1 va * 2 ^ 21 + PX 0 va * 2 ^ 12 + va mod PGSIZE.
Proof.
  intros H. rewrite !PX_spec by lia. change MAXVA with (2 ^ 38) in H. unfold PGSIZE.
  change (12 + 9 * 2) with 30. change (12 + 9 * 1) with 21. change (12 + 9 * 0) with 12.
  Z.div_mod_to_equations. lia.
Qed.

(** Page-aligned addresses with the same indices are the same. *)
Lemma PX_inj va va' :
  0 ≤ va < MAXVA → 0 ≤ va' < MAXVA → page_aligned va → page_aligned va' →
  PX 2 va = PX 2 va' → PX 1 va = PX 1 va' → PX 0 va = PX 0 va' → va = va'.
Proof.
  unfold page_aligned. intros H H' Ha Ha' H2 H1 H0.
  rewrite (va_decompose va), (va_decompose va') by done. lia.
Qed.

Lemma PX_page_offset level va off :
  0 ≤ level → page_aligned va → 0 ≤ off < PGSIZE → PX level (va + off) = PX level va.
Proof.
  unfold page_aligned, PGSIZE. intros Hl Ha Ho. rewrite !PX_spec by done.
  rewrite Z.pow_add_r by lia. change (2 ^ 12) with 4096.
  rewrite <- !Z.div_div by lia. f_equal. f_equal.
  Z.div_mod_to_equations. lia.
Qed.

Lemma PA2PTE_spec pa : 0 ≤ pa < 2 ^ 56 → page_aligned pa → PA2PTE pa = pa / 4.
Proof.
  unfold page_aligned, PGSIZE. intros H Ha. unfold PA2PTE.
  rewrite Z.shiftl_mul_pow2, Z.shiftr_div_pow2 by lia.
  change (2 ^ 12) with 4096. change (2 ^ 10) with 1024.
  rewrite u64_small; Z.div_mod_to_equations; lia.
Qed.

Lemma PA2PTE_shiftl pa :
  0 ≤ pa < 2 ^ 56 → page_aligned pa → PA2PTE pa = Z.shiftl (pa / 4096) 10.
Proof.
  intros H Ha. rewrite PA2PTE_spec by done. rewrite Z.shiftl_mul_pow2 by lia.
  unfold page_aligned, PGSIZE in *. change (2 ^ 10) with 1024.
  Z.div_mod_to_equations. lia.
Qed.

(** A leaf entry built from a page address and flags gives both back. *)
Lemma PTE2PA_PA2PTE pa fl :
  0 ≤ pa < 2 ^ 56 → page_aligned pa → 0 ≤ fl < 1024 →
  PTE2PA (Z.lor (PA2PTE pa) fl) = pa.
Proof.
  intros Hpa Ha Hfl. unfold PTE2PA. rewrite Z.shiftr_lor.
  rewrite (Z.shiftr_div_pow2 fl) by lia. rewrite (Z.div_small fl) by (change (2^10) with 1024; lia).
  rewrite Z.lor_0_r, PA2PTE_spec by done. unfold page_aligned, PGSIZE in *.
  rewrite Z.shiftl_mul_pow2, Z.shiftr_div_pow2 by lia.
  change (2 ^ 12) with 4096. change (2 ^ 10) with 1024.
  rewrite u64_small; Z.div_mod_to_equations; lia.
Qed.

Lemma PTE_FLAGS_PA2PTE pa fl :
  0 ≤ pa < 2 ^ 56 → page_aligned pa → 0 ≤ fl < 1024 →
  PTE_FLAGS (Z.lor (PA2PTE pa) fl) = fl.
Proof.
  intros Hpa Ha Hfl. unfold PTE_FLAGS. change 0x3FF with (Z.ones 10).
  rewrite Z.land_ones by lia.
  rewrite PA2PTE_shiftl by done.
  rewrite lor_shiftl_add by (change (2^10) with 1024; lia).
  rewrite Z.add_comm, Z.mod_add by lia. apply Z.mod_small. done.
Qed.

Lemma PA2PTE_lor_range pa fl :
  0 ≤ pa < 2 ^ 56 → page_aligned pa → 0 ≤ fl < 1024 →
  0 ≤ Z.lor (PA2PTE pa) fl < 2 ^ 64.
Proof.
  intros Hpa Ha Hfl.
  rewrite PA2PTE_shiftl by done.
  rewrite lor_shiftl_add by (change (2^10) with 1024; lia).
  change (2^10) with 1024. Z.div_mod_to_equations. lia.
Qed.

(** Kernel stacks of different processes are different pages, never adjacent:
    a guard page separates them. *)
Lemma KSTACK_separated p q : p < q → KSTACK q + 2 * PGSIZE ≤ KSTACK p.
Proof. unfold KSTACK, TRAMPOLINE, PGSIZE. lia. Qed.
