(* ===== verification/State.v ===== *)
(** * The kernel's data: one record per C struct, and the global state

    Every struct of the kernel headers is a Record with the source's fields
    (prefixed by the struct).  A pointer into one of the kernel's static
    arrays ([proc], [cpus], [bcache.buf], [itable.inode], [ftable.file]) is
    the index of the element, a pointer to a page from [kalloc] is its
    physical address.  The spinlocks embedded in the structs are kept in one
    map, keyed by [lockid], so that the locking code of spinlock.c is stated
    once.  The [kernel] record gathers the kernel's global variables, physical
    memory, the disk and the registers of the hart that executes. *)

From S2P Require Import Prelude Memory Riscv.

(** ** Locks and sleep channels *)

(** Which spinlock: a global one, or the one embedded in an array element. *)
Inductive lockid :=
  | L_kmem | L_pid | L_wait | L_bcache | L_log | L_itable | L_ftable
  | L_cons | L_uart_tx | L_ticks | L_vdisk | L_pr
  | L_proc (p : nat)      (* proc[p].lock *)
  | L_buf (b : nat)       (* bcache.buf[b].lock.lk *)
  | L_inode (i : nat)     (* itable.inode[i].lock.lk *)
  | L_pipe (pi : Z).      (* ((struct pipe* )pi)->lock *)

#[export] Instance lockid_eq_dec : EqDecision lockid.
Proof. solve_decision. Defined.

Definition lockid_code (l : lockid) : nat * Z :=
  match l with
  | L_kmem => (0%nat, 0) | L_pid => (0%nat, 1) | L_wait => (0%nat, 2)
  | L_bcache => (0%nat, 3) | L_log => (0%nat, 4) | L_itable => (0%nat, 5)
  | L_ftable => (0%nat, 6) | L_cons => (0%nat, 7) | L_uart_tx => (0%nat, 8)
  | L_ticks => (0%nat, 9) | L_vdisk => (0%nat, 10) | L_pr => (0%nat, 11)
  | L_proc p => (1%nat, Z.of_nat p) | L_buf b => (2%nat, Z.of_nat b)
  | L_inode i => (3%nat, Z.of_nat i) | L_pipe a => (4%nat, a)
  end.

#[export] Instance lockid_code_inj : Inj (=) (=) lockid_code.
Proof. intros [] []; cbn; intros [=]; try done; f_equal; lia. Qed.

#[export] Instance lockid_countable : Countable lockid.
Proof.
  refine (inj_countable lockid_code
    (λ c, match c with
      | (0%nat, 0) => Some L_kmem | (0%nat, 1) => Some L_pid | (0%nat, 2) => Some L_wait
      | (0%nat, 3) => Some L_bcache | (0%nat, 4) => Some L_log | (0%nat, 5) => Some L_itable
      | (0%nat, 6) => Some L_ftable | (0%nat, 7) => Some L_cons | (0%nat, 8) => Some L_uart_tx
      | (0%nat, 9) => Some L_ticks | (0%nat, 10) => Some L_vdisk | (0%nat, 11) => Some L_pr
      | (1%nat, z) => Some (L_proc (Z.to_nat z)) | (2%nat, z) => Some (L_buf (Z.to_nat z))
      | (3%nat, z) => Some (L_inode (Z.to_nat z)) | (4%nat, z) => Some (L_pipe z)
      | _ => None end) _).
  intros []; cbn; rewrite ?Nat2Z.id; done.
Defined.

(** The addresses processes sleep on. *)
Inductive channel :=
  | Ch_proc (p : nat)        (* wait(): the parent's struct proc *)
  | Ch_ticks                 (* &ticks *)
  | Ch_log                   (* &log *)
  | Ch_pipe_nread (pi : Z)   (* &pi->nread *)
  | Ch_pipe_nwrite (pi : Z)  (* &pi->nwrite *)
  | Ch_cons_r                (* &cons.r *)
  | Ch_uart_tx_r             (* &uart_tx_r *)
  | Ch_disk_free             (* &disk.free[0] *)
  | Ch_buf (b : nat)         (* a struct buf, waiting for the disk *)
  | Ch_sleeplock (l : lockid). (* a struct sleeplock, named by its spinlock *)

#[export] Instance channel_eq_dec : EqDecision channel.
Proof. solve_decision. Defined.

(** spinlock.h *)
Record spinlock := Spinlock {
  lk_locked : Z;            (* is the lock held? *)
  lk_name : string;
  lk_cpu : option nat;      (* the cpu holding the lock *)
}.

#[export] Instance eta_spinlock : Eta spinlock := λ r,
  Spinlock (lk_locked r) (lk_name r) (lk_cpu r).

(** sleeplock.h, without the embedded spinlock. *)
Record sleeplock := Sleeplock {
  sl_locked : Z;
  sl_name : string;
  sl_pid : Z;
}.

#[export] Instance eta_sleeplock : Eta sleeplock := λ r,
  Sleeplock (sl_locked r) (sl_name r) (sl_pid r).

(** ** proc.h *)

(** Saved registers for kernel context switches. *)
Record context := Context { ra : Z; sp : Z; s_regs : list Z }.

#[export] Instance eta_context : Eta context := λ r, Context (ra r) (sp r) (s_regs r).

Record cpu := Cpu {
  c_proc : option nat;      (* the process running on this cpu, or null *)
  c_context : context;
  c_noff : Z;               (* depth of push_off() nesting *)
  c_intena : Z;             (* were interrupts enabled before push_off()? *)
}.

#[export] Instance eta_cpu : Eta cpu := λ r,
  Cpu (c_proc r) (c_context r) (c_noff r) (c_intena r).

Record trapframe := Trapframe {
  tf_kernel_satp : Z; tf_kernel_sp : Z; tf_kernel_trap : Z; tf_epc : Z;
  tf_kernel_hartid : Z; tf_ra : Z; tf_sp : Z; tf_gp : Z; tf_tp : Z;
  tf_t0 : Z; tf_t1 : Z; tf_t2 : Z; tf_s0 : Z; tf_s1 : Z;
  tf_a0 : Z; tf_a1 : Z; tf_a2 : Z; tf_a3 : Z; tf_a4 : Z; tf_a5 : Z; tf_a6 : Z; tf_a7 : Z;
  tf_s2 : Z; tf_s3 : Z; tf_s4 : Z; tf_s5 : Z; tf_s6 : Z; tf_s7 : Z; tf_s8 : Z;
  tf_s9 : Z; tf_s10 : Z; tf_s11 : Z; tf_t3 : Z; tf_t4 : Z; tf_t5 : Z; tf_t6 : Z;
}.

#[export] Instance eta_trapframe : Eta trapframe := λ r, Trapframe
  (tf_kernel_satp r) (tf_kernel_sp r) (tf_kernel_trap r) (tf_epc r)
  (tf_kernel_hartid r) (tf_ra r) (tf_sp r) (tf_gp r) (tf_tp r)
  (tf_t0 r) (tf_t1 r) (tf_t2 r) (tf_s0 r) (tf_s1 r)
  (tf_a0 r) (tf_a1 r) (tf_a2 r) (tf_a3 r) (tf_a4 r) (tf_a5 r) (tf_a6 r) (tf_a7 r)
  (tf_s2 r) (tf_s3 r) (tf_s4 r) (tf_s5 r) (tf_s6 r) (tf_s7 r) (tf_s8 r)
  (tf_s9 r) (tf_s10 r) (tf_s11 r) (tf_t3 r) (tf_t4 r) (tf_t5 r) (tf_t6 r).

Inductive procstate := UNUSED | USED | SLEEPING | RUNNABLE | RUNNING | ZOMBIE.

#[export] Instance procstate_eq_dec : EqDecision procstate.
Proof. solve_decision. Defined.

Record proc := Proc {
  p_state : procstate;
  p_chan : option channel;
  p_killed : Z;
  p_xstate : Z;
  p_pid : Z;
  p_parent : option nat;
  p_kstack : Z;
  p_sz : Z;
  p_pagetable : Z;             (* physical address of the root page, 0 for none *)
  p_trapframe : Z;             (* physical address of the page, 0 for none *)
  p_context : context;
  p_ofile : list (option nat); (* open files: indices into ftable *)
  p_cwd : option nat;          (* index into itable *)
  p_name : list Z;
}.

#[export] Instance eta_proc : Eta proc := λ r, Proc
  (p_state r) (p_chan r) (p_killed r) (p_xstate r) (p_pid r) (p_parent r)
  (p_kstack r) (p_sz r) (p_pagetable r) (p_trapframe r) (p_context r)
  (p_ofile r) (p_cwd r) (p_name r).

(** ** fs.h, buf.h, file.h *)

Definition ROOTINO : Z := 1.
Definition BSIZE : Z := 1024.
Definition FSMAGIC : Z := 0x10203040.
Definition NDIRECT : Z := 12.
Definition NINDIRECT : Z := BSIZE / 4.
Definition MAXFILE : Z := NDIRECT + NINDIRECT.
Definition DIRSIZ : Z := 14.

Record superblock := Superblock {
  sb_magic : Z; sb_size : Z; sb_nblocks : Z; sb_ninodes : Z;
  sb_nlog : Z; sb_logstart : Z; sb_inodestart : Z; sb_bmapstart : Z;
}.

#[export] Instance eta_superblock : Eta superblock := λ r, Superblock
  (sb_magic r) (sb_size r) (sb_nblocks r) (sb_ninodes r)
  (sb_nlog r) (sb_logstart r) (sb_inodestart r) (sb_bmapstart r).

Record buf := Buf {
  b_valid : Z;      (* has data been read from disk? *)
  b_disk : Z;       (* does disk "own" buf? *)
  b_dev : Z;
  b_blockno : Z;
  b_lock : sleeplock;
  b_refcnt : Z;
  b_prev : nat;     (* LRU cache list; the list head is element NBUF *)
  b_next : nat;
  b_data : list Z;
}.

#[export] Instance eta_buf : Eta buf := λ r, Buf
  (b_valid r) (b_disk r) (b_dev r) (b_blockno r) (b_lock r) (b_refcnt r)
  (b_prev r) (b_next r) (b_data r).

Inductive fdtype := FD_NONE | FD_PIPE | FD_INODE | FD_DEVICE.

#[export] Instance fdtype_eq_dec : EqDecision fdtype.
Proof. solve_decision. Defined.

Record file := File {
  f_type : fdtype;
  f_ref : Z;
  f_readable : Z;
  f_writable : Z;
  f_pipe : Z;               (* FD_PIPE: physical address of the struct pipe *)
  f_ip : option nat;        (* FD_INODE and FD_DEVICE: index into itable *)
  f_off : Z;                (* FD_INODE *)
  f_major : Z;              (* FD_DEVICE *)
}.

#[export] Instance eta_file : Eta file := λ r, File
  (f_type r) (f_ref r) (f_readable r) (f_writable r) (f_pipe r) (f_ip r)
  (f_off r) (f_major r).

Record inode := Inode {
  i_dev : Z;
  i_inum : Z;
  i_ref : Z;
  i_lock : sleeplock;
  i_valid : Z;
  i_type : Z;
  i_major : Z;
  i_minor : Z;
  i_nlink : Z;
  i_size : Z;
  i_addrs : list Z;         (* NDIRECT+1 block addresses *)
}.

#[export] Instance eta_inode : Eta inode := λ r, Inode
  (i_dev r) (i_inum r) (i_ref r) (i_lock r) (i_valid r) (i_type r) (i_major r)
  (i_minor r) (i_nlink r) (i_size r) (i_addrs r).

(** ** pipe.c, log.c, console.c, uart.c *)

Record pipe := Pipe {
  pi_data : list Z;         (* char data[PIPESIZE] *)
  pi_nread : Z;             (* number of bytes read *)
  pi_nwrite : Z;            (* number of bytes written *)
  pi_readopen : Z;
  pi_writeopen : Z;
}.

#[export] Instance eta_pipe : Eta pipe := λ r,
  Pipe (pi_data r) (pi_nread r) (pi_nwrite r) (pi_readopen r) (pi_writeopen r).

Record logheader := Logheader { lh_n : Z; lh_block : list Z }.

#[export] Instance eta_logheader : Eta logheader := λ r, Logheader (lh_n r) (lh_block r).

Record log_t := Log {
  lg_start : Z;
  lg_size : Z;
  lg_outstanding : Z;       (* how many FS sys calls are executing *)
  lg_committing : Z;        (* in commit(), please wait *)
  lg_dev : Z;
  lg_lh : logheader;
}.

#[export] Instance eta_log : Eta log_t := λ r, Log
  (lg_start r) (lg_size r) (lg_outstanding r) (lg_committing r) (lg_dev r) (lg_lh r).

Record cons_t := Cons {
  cons_buf : list Z;        (* char buf[INPUT_BUF_SIZE] *)
  cons_r : Z;               (* read index *)
  cons_w : Z;               (* write index *)
  cons_e : Z;               (* edit index *)
}.

#[export] Instance eta_cons : Eta cons_t := λ r,
  Cons (cons_buf r) (cons_r r) (cons_w r) (cons_e r).

(** The transmit ring of uart.c and the bytes the device has been given. *)
Record uart_t := Uart {
  uart_tx_buf : list Z;
  uart_tx_w : Z;
  uart_tx_r : Z;
  uart_lsr : list Z;        (* successive values the line status register reads *)
  uart_rhr : list Z;        (* successive bytes the receive register reads *)
  uart_thr : list Z;        (* bytes written to the transmit register, oldest first *)
  uart_regs : gmap Z Z;     (* last values written to the other registers *)
}.

#[export] Instance eta_uart : Eta uart_t := λ r, Uart
  (uart_tx_buf r) (uart_tx_w r) (uart_tx_r r) (uart_lsr r) (uart_rhr r) (uart_thr r)
  (uart_regs r).

(** ** virtio.h, virtio_disk.c *)

Definition NUM : Z := 8.

(** The addresses the driver hands to the device. *)
Inductive dma :=
  | Dma_null
  | Dma_op (i : Z)          (* &disk.ops[i] *)
  | Dma_data (b : nat)      (* b->data *)
  | Dma_status (i : Z).     (* &disk.info[i].status *)

Record virtq_desc := Desc {
  d_addr : dma;
  d_len : Z;
  d_flags : Z;
  d_next : Z;
}.

#[export] Instance eta_virtq_desc : Eta virtq_desc := λ r,
  Desc (d_addr r) (d_len r) (d_flags r) (d_next r).

Record virtio_blk_req := BlkReq { q_type : Z; q_reserved : Z; q_sector : Z }.

#[export] Instance eta_virtio_blk_req : Eta virtio_blk_req := λ r,
  BlkReq (q_type r) (q_reserved r) (q_sector r).

Record disk_info := DiskInfo { in_b : option nat; in_status : Z }.

#[export] Instance eta_disk_info : Eta disk_info := λ r, DiskInfo (in_b r) (in_status r).

(** [struct disk] with the descriptor table and rings it points to, and the
    device's registers as last written. *)
Record vdisk := Vdisk {
  vd_desc : list virtq_desc;
  vd_avail_idx : Z;
  vd_avail_ring : list Z;
  vd_used_idx_dev : Z;          (* used->idx, written by the device *)
  vd_used_ring : list Z;        (* used->ring[i].id, written by the device *)
  vd_free : list Z;
  vd_used_idx : Z;
  vd_info : list disk_info;
  vd_ops : list virtio_blk_req;
  vd_pages : Z * Z * Z;         (* the pages of desc, avail and used *)
  vd_regs : gmap Z Z;
}.

#[export] Instance eta_vdisk : Eta vdisk := λ r, Vdisk
  (vd_desc r) (vd_avail_idx r) (vd_avail_ring r) (vd_used_idx_dev r) (vd_used_ring r)
  (vd_free r) (vd_used_idx r) (vd_info r) (vd_ops r) (vd_pages r) (vd_regs r).

(** The interrupt controller: registers written, the interrupts the next
    claims return, and those completed. *)
Record plic_t := Plic {
  plic_regs : gmap Z Z;
  plic_pending : list Z;
  plic_done : list Z;
}.

#[export] Instance eta_plic : Eta plic_t := λ r, Plic (plic_regs r) (plic_pending r) (plic_done r).

(** The functions an entry of [devsw] can point to: only console.c installs any. *)
Inductive devfns := Dev_console.

(** ** Registers of the executing hart *)
Record hart := Hart {
  r_tp : Z;                 (* thread pointer: this hart's id *)
  r_sstatus : Z;
  r_scause : Z;
  r_sepc : Z;
  r_stval : Z;
  r_stvec : Z;
  r_satp : Z;
  r_sip : Z;
}.

#[export] Instance eta_hart : Eta hart := λ r, Hart
  (r_tp r) (r_sstatus r) (r_scause r) (r_sepc r) (r_stval r) (r_stvec r) (r_satp r) (r_sip r).

(** What locking code reads and writes. *)
Record machine := Machine {
  m_hart : hart;
  m_cpus : list cpu;                  (* struct cpu cpus[NCPU] *)
  m_locks : gmap lockid spinlock;
}.

#[export] Instance eta_machine : Eta machine := λ r, Machine (m_hart r) (m_cpus r) (m_locks r).

(** ** The kernel's state *)
Record kernel := Kernel {
  k_mach : machine;
  k_mem : memory;                     (* physical memory *)
  k_freelist : Z;                     (* kmem.freelist *)
  k_pagetable : Z;                    (* kernel_pagetable *)
  k_procs : list proc;                (* struct proc proc[NPROC] *)
  k_initproc : option nat;
  k_nextpid : Z;
  k_first : Z;                        (* forkret()'s static variable *)
  k_ticks : Z;
  k_trapframes : gmap Z trapframe;    (* the struct trapframe on each such page *)
  k_pipes : gmap Z pipe;              (* the struct pipe on each such page *)
  k_disk : gmap Z (list Z);           (* disk blocks; absent blocks are zero *)
  k_bufs : list buf;                  (* bcache.buf[NBUF], then bcache.head *)
  k_log : log_t;
  k_sb : superblock;
  k_itable : list inode;              (* itable.inode[NINODE] *)
  k_ftable : list file;               (* ftable.file[NFILE] *)
  k_cons : cons_t;
  k_uart : uart_t;
  k_panicked : Z;
  k_pr_locking : Z;
  k_vdisk : vdisk;                    (* virtio_disk.c's disk *)
  k_plic : plic_t;
  k_devsw : list (option devfns);     (* struct devsw devsw[NDEV] *)
  k_started : Z;                      (* main.c *)
}.

#[export] Instance eta_kernel : Eta kernel := λ r, Kernel
  (k_mach r) (k_mem r) (k_freelist r) (k_pagetable r) (k_procs r) (k_initproc r)
  (k_nextpid r) (k_first r) (k_ticks r) (k_trapframes r) (k_pipes r) (k_disk r)
  (k_bufs r) (k_log r) (k_sb r) (k_itable r) (k_ftable r) (k_cons r) (k_uart r)
  (k_panicked r) (k_pr_locking r) (k_vdisk r) (k_plic r) (k_devsw r) (k_started r).

(** ** The state at power-on: static data is zero *)

Definition zero_lock : spinlock := Spinlock 0 "" None.
Definition zero_sleeplock : sleeplock := Sleeplock 0 "" 0.
Definition zero_context : context := Context 0 0 (replicate 12 0).
Definition zero_cpu : cpu := Cpu None zero_context 0 0.
Definition zero_trapframe : trapframe :=
  Trapframe 0 0 0 0 0 0 0 0 0 0 0 0 0 0 0 0 0 0 0 0 0 0 0 0 0 0 0 0 0 0 0 0 0 0 0 0.
Definition zero_proc : proc :=
  Proc UNUSED None 0 0 0 None 0 0 0 0 zero_context (replicate NOFILE None) None (replicate 16 0).
Definition zero_block : list Z := replicate (Z.to_nat BSIZE) 0.
Definition zero_buf : buf := Buf 0 0 0 0 zero_sleeplock 0 0 0 zero_block.
Definition zero_file : file := File FD_NONE 0 0 0 0 None 0 0.
Definition zero_inode : inode :=
  Inode 0 0 0 zero_sleeplock 0 0 0 0 0 0 (replicate 13 0).
Definition zero_log : log_t :=
  Log 0 0 0 0 0 (Logheader 0 (replicate (Z.to_nat LOGSIZE) 0)).
Definition zero_superblock : superblock := Superblock 0 0 0 0 0 0 0 0.
Definition zero_cons : cons_t := Cons (replicate 128 0) 0 0 0.
Definition zero_uart : uart_t := Uart (replicate 32 0) 0 0 [] [] [] ∅.
Definition zero_desc : virtq_desc := Desc Dma_null 0 0 0.
Definition zero_vdisk : vdisk :=
  Vdisk (replicate 8 zero_desc) 0 (replicate 8 0) 0 (replicate 8 0) (replicate 8 0) 0
    (replicate 8 (DiskInfo None 0)) (replicate 8 (BlkReq 0 0 0)) (0, 0, 0) ∅.
Definition zero_plic : plic_t := Plic ∅ [] [].
Definition zero_hart : hart := Hart 0 0 0 0 0 0 0 0.
Definition zero_machine : machine := Machine zero_hart (replicate NCPU zero_cpu) ∅.

Definition zero_kernel : kernel :=
  Kernel zero_machine (λ _, 0) 0 0 (replicate NPROC zero_proc) None 1 1 0 ∅ ∅ ∅
    (replicate (S NBUF) zero_buf) zero_log zero_superblock
    (replicate NINODE zero_inode) (replicate NFILE zero_file)
    zero_cons zero_uart 0 0 zero_vdisk zero_plic (replicate (Z.to_nat NDEV) None) 0.

#[export] Instance spinlock_inhabited : Inhabited spinlock := populate zero_lock.
#[export] Instance cpu_inhabited : Inhabited cpu := populate zero_cpu.
#[export] Instance proc_inhabited : Inhabited proc := populate zero_proc.
#[export] Instance buf_inhabited : Inhabited buf := populate zero_buf.
#[export] Instance file_inhabited : Inhabited file := populate zero_file.
#[export] Instance inode_inhabited : Inhabited inode := populate zero_inode.
#[export] Instance virtq_desc_inhabited : Inhabited virtq_desc := populate zero_desc.
#[export] Instance disk_info_inhabited : Inhabited disk_info := populate (DiskInfo None 0).
#[export] Instance virtio_blk_req_inhabited : Inhabited virtio_blk_req := populate (BlkReq 0 0 0).
#[export] Instance trapframe_inhabited : Inhabited trapframe := populate zero_trapframe.
