(* ===== verification/Spinlock.v ===== *)
(** * Spinlocks and interrupt nesting: spinlock.c

    [push_off]/[pop_off], [acquire], [release] and [holding], over the
    registers of the executing hart, its [struct cpu] and the lock map, with
    the helpers of riscv.h and proc.c they use.  The second half runs several
    harts against one lock, one atomic instruction at a time, and shows mutual
    exclusion. *)

From S2P Require Import Prelude KMonad Memory Riscv State.

(** ** riscv.h: interrupt enable *)

Definition set_hart (f : hart → hart) : M kernel unit :=
  modify (λ k, k <| k_mach ::= λ m, m <| m_hart ::= f |> |>).

Definition intr_on : M kernel unit :=
  set_hart (λ h, h <| r_sstatus ::= λ x, Z.lor x SSTATUS_SIE |>).

Definition intr_off : M kernel unit :=
  set_hart (λ h, h <| r_sstatus ::= λ x, Z.land x (Z.lnot SSTATUS_SIE) |>).

Definition intr_get : M kernel Z :=
  gets (λ k, b2z (truthy (Z.land (r_sstatus (m_hart (k_mach k))) SSTATUS_SIE))).

(** ** proc.c: which cpu *)

Definition cpuid : M kernel Z := gets (λ k, i32 (r_tp (m_hart (k_mach k)))).

(** [&cpus[id]] as an index; undefined outside the array. *)
Definition mycpu : M kernel nat :=
  id ← cpuid;
  deref "mycpu" (λ k, if (0 <=? id) && (id <? Z.of_nat (length (m_cpus (k_mach k))))
                      then Some (Z.to_nat id) else None).

Definition cpu_get (c : nat) : M kernel cpu := gets (λ k, m_cpus (k_mach k) !!! c).

Definition cpu_set (c : nat) (f : cpu → cpu) : M kernel unit :=
  modify (λ k, k <| k_mach ::= λ m, m <| m_cpus ::= alter f c |> |>).

(** ** spinlock.c *)

Definition lock_get (lk : lockid) (m : machine) : spinlock :=
  default zero_lock (m_locks m !! lk).

Definition lock_set (lk : lockid) (l : spinlock) : M kernel unit :=
  modify (λ k, k <| k_mach ::= λ m, m <| m_locks ::= insert lk l |> |>).

Definition initlock (lk : lockid) (name : string) : M kernel unit :=
  lock_set lk (Spinlock 0 name None).

Definition push_off : M kernel unit :=
  old ← intr_get;
  intr_off ;;
  c ← mycpu;
  cp ← cpu_get c;
  when (c_noff cp =? 0) (cpu_set c (λ x, x <| c_intena := old |>)) ;;
  c' ← mycpu;
  cpu_set c' (λ x, x <| c_noff ::= λ n, n + 1 |>).

Definition pop_off : M kernel unit :=
  c ← mycpu;
  on ← intr_get;
  if truthy on then panic "pop_off - interruptible" else
  cp ← cpu_get c;
  if c_noff cp <? 1 then panic "pop_off" else
  cpu_set c (λ x, x <| c_noff ::= λ n, n - 1 |>) ;;
  cp' ← cpu_get c;
  when ((c_noff cp' =? 0) && truthy (c_intena cp')) intr_on.

Definition holding (lk : lockid) : M kernel bool :=
  l ← gets (λ k, lock_get lk (k_mach k));
  if truthy (lk_locked l) then
    c ← mycpu; mret (bool_decide (lk_cpu l = Some c))
  else mret false.

(** [__sync_lock_test_and_set(&lk->locked, 1)]: one atomic swap. *)
Definition test_and_set (lk : lockid) : M kernel Z :=
  l ← gets (λ k, lock_get lk (k_mach k));
  lock_set lk (l <| lk_locked := 1 |>) ;;
  mret (lk_locked l).

(** [while(__sync_lock_test_and_set(&lk->locked, 1) != 0) ;].  A failed swap
    leaves the taken lock as it was; each turn of the loop waits. *)
Fixpoint spin_from (lk : lockid) (ks : list (kernel → kernel)) (k : kernel) : res kernel unit :=
  match test_and_set lk ks k with
  | Ok old _ k' =>
      if old =? 0 then Ok tt ks k'
      else match ks with
           | [] => Blocked k'
           | f :: ks' => spin_from lk ks' (f k')
           end
  | _ => Stuck "test_and_set"
  end.

Definition spin (lk : lockid) : M kernel unit := λ ks k, spin_from lk ks k.

(** [lk->cpu = mycpu()] *)
Definition set_owner (lk : lockid) : M kernel unit :=
  c ← mycpu;
  l ← gets (λ k, lock_get lk (k_mach k));
  lock_set lk (l <| lk_cpu := Some c |>).

Definition acquire (lk : lockid) : M kernel unit :=
  push_off ;;
  h ← holding lk;
  if (h : bool) then panic "acquire" else
  spin lk ;;
  set_owner lk.

(** [lk->cpu = 0] *)
Definition clear_owner (lk : lockid) : M kernel unit :=
  l ← gets (λ k, lock_get lk (k_mach k));
  lock_set lk (l <| lk_cpu := None |>).

(** [__sync_lock_release(&lk->locked)] *)
Definition lock_release (lk : lockid) : M kernel unit :=
  l ← gets (λ k, lock_get lk (k_mach k));
  lock_set lk (l <| lk_locked := 0 |>).

Definition release (lk : lockid) : M kernel unit :=
  h ← holding lk;
  if negb h then panic "release" else
  clear_owner lk ;;
  lock_release lk ;;
  pop_off.

(** proc.c: [myproc()] *)
Definition myproc : M kernel (option nat) :=
  push_off ;;
  c ← mycpu;
  p ← gets (λ k, c_proc (m_cpus (k_mach k) !!! c));
  pop_off ;;
  mret p.

#[global] Arguments set_hart f ks s /.
#[global] Arguments intr_on ks s /.
#[global] Arguments intr_off ks s /.
#[global] Arguments intr_get ks s /.
#[global] Arguments cpu_get c ks s /.
#[global] Arguments cpu_set c f ks s /.
#[global] Arguments lock_set lk l ks s /.
#[global] Arguments initlock lk name ks s /.
#[global] Arguments mycpu : simpl never.
#[global] Arguments push_off : simpl never.
#[global] Arguments pop_off : simpl never.
#[global] Arguments holding : simpl never.
#[global] Arguments spin : simpl never.
#[global] Arguments acquire : simpl never.
#[global] Arguments release : simpl never.
#[global] Arguments myproc : simpl never.

(** ** What these operations do to the machine *)

Definition hart_id (m : machine) : nat := Z.to_nat (r_tp (m_hart m)).
Definition this_cpu (m : machine) : cpu := m_cpus m !!! hart_id m.
Definition intr_enabled (m : machine) : bool := Z.testbit (r_sstatus (m_hart m)) 1.

(** The executing hart has a [struct cpu], and interrupts are off inside
    push_off()/pop_off() sections. *)
Record machine_ok (m : machine) : Prop := {
  mo_tp : 0 ≤ r_tp (m_hart m) < Z.of_nat (length (m_cpus m));
  mo_tp_int : r_tp (m_hart m) < 2 ^ 31;
  mo_noff : 0 ≤ c_noff (this_cpu m);
  mo_off : 0 < c_noff (this_cpu m) → intr_enabled m = false;
}.

Definition push_offed (m : machine) : machine :=
  m <| m_hart ::= λ h, h <| r_sstatus ::= λ x, Z.land x (Z.lnot SSTATUS_SIE) |> |>
    <| m_cpus ::= alter (λ x, Cpu (c_proc x) (c_context x) (c_noff x + 1)
         (if c_noff x =? 0 then b2z (intr_enabled m) else c_intena x)) (hart_id m) |>.

Definition pop_offed (m : machine) : machine :=
  let m' := m <| m_cpus ::= alter (λ x, x <| c_noff ::= λ n, n - 1 |>) (hart_id m) |> in
  if (c_noff (this_cpu m) =? 1) && truthy (c_intena (this_cpu m))
  then m' <| m_hart ::= λ h, h <| r_sstatus ::= λ x, Z.lor x SSTATUS_SIE |> |> else m'.

(** The trace a matched push_off()/pop_off() pair leaves: the cpu remembers
    whether interrupts were enabled before the outermost push_off(). *)
Definition settle (m : machine) : machine :=
  if c_noff (this_cpu m) =? 0
  then m <| m_cpus ::= alter (λ x, x <| c_intena := b2z (intr_enabled m) |>) (hart_id m) |>
  else m.

Definition lock_free (lk : lockid) (m : machine) : Prop :=
  ∃ name, m_locks m !! lk = Some (Spinlock 0 name None).

Definition lock_freeb (lk : lockid) (m : machine) : bool :=
  match m_locks m !! lk with
  | Some (Spinlock 0 _ None) => true
  | _ => false
  end.

Lemma lock_freeb_true lk m : lock_freeb lk m = true → lock_free lk m.
Proof.
  unfold lock_freeb, lock_free. destruct (m_locks m !! lk) as [[[] name []]|]; try done. by exists name.
Qed.

Definition lock_held (lk : lockid) (m : machine) : Prop :=
  ∃ name, m_locks m !! lk = Some (Spinlock 1 name (Some (hart_id m))).

Definition take_lock (lk : lockid) (m : machine) : machine :=
  (push_offed m) <| m_locks ::=
    insert lk (Spinlock 1 (lk_name (lock_get lk m)) (Some (hart_id m))) |>.

Definition drop_lock (lk : lockid) (m : machine) : machine :=
  pop_offed (m <| m_locks ::= insert lk (Spinlock 0 (lk_name (lock_get lk m)) None) |>).

Lemma land_SIE x : truthy (Z.land x SSTATUS_SIE) = Z.testbit x 1.
Proof.
  unfold truthy, SSTATUS_SIE. destruct (Z.eqb_spec (Z.land x (Z.shiftl 1 1)) 0) as [E|E]; simpl.
  - assert (H : Z.testbit (Z.land x (Z.shiftl 1 1)) 1 = false) by (rewrite E; apply Z.bits_0).
    rewrite Z.land_spec in H. by rewrite andb_true_r in H.
  - destruct (Z.testbit x 1) eqn:Hb; [done|]. destruct E.
    apply Z.bits_inj'. intros i Hi. rewrite Z.land_spec, Z.bits_0.
    destruct (decide (i = 1)) as [->|Hne]; [by rewrite Hb|].
    change (Z.shiftl 1 1) with (2 ^ 1). rewrite Z.pow2_bits_false by lia. apply andb_false_r.
Qed.

Lemma sie_off_bit x : Z.testbit (Z.land x (Z.lnot SSTATUS_SIE)) 1 = false.
Proof. by rewrite Z.land_spec, Z.lnot_spec, andb_false_r by lia. Qed.

Lemma sie_off_id x : Z.testbit x 1 = false → Z.land x (Z.lnot SSTATUS_SIE) = x.
Proof.
  intros Hb. apply Z.bits_inj'. intros i Hi. rewrite Z.land_spec, Z.lnot_spec by lia.
  unfold SSTATUS_SIE. destruct (decide (i = 1)) as [->|Hne]; [by rewrite Hb|].
  change (Z.shiftl 1 1) with (2 ^ 1). rewrite Z.pow2_bits_false by lia. apply andb_true_r.
Qed.

Lemma sie_off_on x :
  Z.testbit x 1 = true → Z.lor (Z.land x (Z.lnot SSTATUS_SIE)) SSTATUS_SIE = x.
Proof.
  intros Hb. apply Z.bits_inj'. intros i Hi.
  rewrite Z.lor_spec, Z.land_spec, Z.lnot_spec by lia.
  unfold SSTATUS_SIE. destruct (decide (i = 1)) as [->|Hne]; [by rewrite Hb|].
  change (Z.shiftl 1 1) with (2 ^ 1). rewrite Z.pow2_bits_false by lia.
  by rewrite andb_true_r, orb_false_r.
Qed.

Lemma truthy_b2z b : truthy (b2z b) = b.
Proof. by destruct b. Qed.

(** A cpu exists for the executing hart. *)
Lemma this_cpu_lookup m : machine_ok m → m_cpus m !! hart_id m = Some (this_cpu m).
Proof.
  intros Hm. apply list_lookup_lookup_total_lt.
  destruct (mo_tp _ Hm). unfold hart_id. lia.
Qed.

Lemma hart_id_lt m : machine_ok m → (hart_id m < length (m_cpus m))%nat.
Proof. intros Hm. destruct (mo_tp _ Hm). unfold hart_id. lia. Qed.

Lemma mycpu_run ks k :
  0 ≤ r_tp (m_hart (k_mach k)) < Z.of_nat (length (m_cpus (k_mach k))) →
  r_tp (m_hart (k_mach k)) < 2 ^ 31 →
  mycpu ks k = Ok (hart_id (k_mach k)) ks k.
Proof.
  intros H1 H2. unfold mycpu, cpuid, gets, deref. rewrite bind_run, i32_small by lia.
  destruct (Z.leb_spec 0 (r_tp (m_hart (k_mach k)))); [|lia].
  destruct (Z.ltb_spec (r_tp (m_hart (k_mach k))) (Z.of_nat (length (m_cpus (k_mach k)))));
    [done|lia].
Qed.

Lemma machine_ok_tp m :
  machine_ok m → 0 ≤ r_tp (m_hart m) < Z.of_nat (length (m_cpus m)) ∧ r_tp (m_hart m) < 2 ^ 31.
Proof. intros []. done. Qed.

Lemma push_off_run ks k :
  machine_ok (k_mach k) → push_off ks k = Ok tt ks (k <| k_mach ::= push_offed |>).
Proof.
  intros Hm. destruct (machine_ok_tp _ Hm) as [Ht Ht'].
  unfold push_off. ksteps. rewrite mycpu_run by done. ksteps.
  change (hart_id _) with (hart_id (k_mach k)).
  unfold push_offed. rewrite land_SIE.
  destruct (c_noff (m_cpus (k_mach k) !!! hart_id (k_mach k)) =? 0) eqn:E;
    ksteps; (rewrite mycpu_run; cbn; rewrite ?length_alter; [|done..]);
    do 3 f_equal; rewrite ?list_alter_alter; apply list_alter_ext_at; cbn;
    change (hart_id _) with (hart_id (k_mach k)); by rewrite E.
Qed.

Lemma pop_off_run ks k :
  machine_ok (k_mach k) → 1 ≤ c_noff (this_cpu (k_mach k)) →
  pop_off ks k = Ok tt ks (k <| k_mach ::= pop_offed |>).
Proof.
  intros Hm Hn. destruct (machine_ok_tp _ Hm) as [Ht Ht'].
  unfold pop_off. rewrite bind_run, mycpu_run by done. ksteps.
  rewrite land_SIE, truthy_b2z.
  change (Z.testbit _ 1) with (intr_enabled (k_mach k)).
  rewrite (mo_off _ Hm) by lia. ksteps.
  change (m_cpus (k_mach k) !!! hart_id (k_mach k)) with (this_cpu (k_mach k)).
  destruct (Z.ltb_spec (c_noff (this_cpu (k_mach k))) 1); [lia|]. ksteps.
  rewrite list_alter_total by (by apply hart_id_lt). cbn.
  change (m_cpus (k_mach k) !!! hart_id (k_mach k)) with (this_cpu (k_mach k)).
  unfold pop_offed.
  replace (c_noff (this_cpu (k_mach k)) - 1 =? 0) with (c_noff (this_cpu (k_mach k)) =? 1)
    by (destruct (Z.eqb_spec (c_noff (this_cpu (k_mach k))) 1),
          (Z.eqb_spec (c_noff (this_cpu (k_mach k)) - 1) 0); lia).
  by destruct (_ && _).
Qed.

Lemma this_cpu_push m :
  machine_ok m → this_cpu (push_offed m) =
    Cpu (c_proc (this_cpu m)) (c_context (this_cpu m)) (c_noff (this_cpu m) + 1)
      (if c_noff (this_cpu m) =? 0 then b2z (intr_enabled m) else c_intena (this_cpu m)).
Proof.
  intros Hm. unfold this_cpu at 1, push_offed. cbn.
  rewrite list_alter_total by (by apply hart_id_lt). done.
Qed.

Lemma machine_ok_push m : machine_ok m → machine_ok (push_offed m).
Proof.
  intros Hm. constructor.
  - cbn. rewrite length_alter. apply Hm.
  - apply Hm.
  - rewrite this_cpu_push by done. cbn. pose proof (mo_noff _ Hm). lia.
  - intros _. apply sie_off_bit.
Qed.

Lemma pop_push m : machine_ok m → pop_offed (push_offed m) = settle m.
Proof.
  intros Hm. unfold pop_offed. rewrite this_cpu_push by done. cbn [c_noff c_intena].
  change (hart_id (push_offed m)) with (hart_id m).
  pose proof (mo_noff _ Hm).
  destruct (Z.eqb_spec (c_noff (this_cpu m)) 0) as [E|E].
  - rewrite E. cbn [Z.add Z.eqb]. rewrite truthy_b2z. unfold settle. rewrite E.
    destruct m as [[tp ss cause epc tval tvec satp sip] cpus locks]. cbn in *.
    unfold intr_enabled in *; cbn in *. destruct (Z.testbit ss 1) eqn:Hb; cbn.
    all: unfold push_offed; cbn; rewrite ?sie_off_on, ?sie_off_id by done; f_equal.
    all: rewrite list_alter_alter; apply list_alter_ext_at; cbn.
    all: change (cpus !!! _) with (this_cpu (Machine (Hart tp ss cause epc tval tvec satp sip) cpus locks)).
    all: rewrite E; done.
  - replace (c_noff (this_cpu m) + 1 =? 1) with false
      by (symmetry; apply Z.eqb_neq; lia). cbn.
    unfold settle. destruct (Z.eqb_spec (c_noff (this_cpu m)) 0); [lia|].
    assert (Hoff : intr_enabled m = false) by (apply Hm; lia).
    destruct m as [[tp ss cause epc tval tvec satp sip] cpus locks].
    unfold intr_enabled in *; cbn in *. rewrite sie_off_id by done. f_equal.
    rewrite list_alter_alter. apply list_alter_id_at. cbn.
    change (cpus !!! _) with (this_cpu (Machine (Hart tp ss cause epc tval tvec satp sip) cpus locks)).
    set (c := this_cpu _) in *. destruct (Z.eqb_spec (c_noff c) 0); [lia|].
    replace (c_noff c + 1 - 1) with (c_noff c) by lia. by destruct c.
Qed.

(** ** Locks taken and dropped *)

Lemma hart_id_push m : hart_id (push_offed m) = hart_id m.
Proof. done. Qed.

Lemma this_cpu_settle m :
  machine_ok m → this_cpu (settle m) = (this_cpu m)
    <| c_intena := if c_noff (this_cpu m) =? 0 then b2z (intr_enabled m)
                   else c_intena (this_cpu m) |>.
Proof.
  intros Hm. unfold settle. destruct (Z.eqb_spec (c_noff (this_cpu m)) 0).
  - unfold this_cpu at 1. cbn. change (hart_id _) with (hart_id m).
    by rewrite list_alter_total by (by apply hart_id_lt).
  - cbn. by destruct (this_cpu m).
Qed.

Lemma settle_fields m :
  m_hart (settle m) = m_hart m ∧ m_locks (settle m) = m_locks m ∧
  hart_id (settle m) = hart_id m ∧ length (m_cpus (settle m)) = length (m_cpus m).
Proof. unfold settle. destruct (_ =? 0); cbn; [by rewrite length_alter|done]. Qed.

Lemma machine_ok_settle m : machine_ok m → machine_ok (settle m).
Proof.
  intros Hm. destruct (settle_fields m) as (Hh & _ & _ & Hl). constructor.
  - rewrite Hh, Hl. apply Hm.
  - rewrite Hh. apply Hm.
  - rewrite this_cpu_settle by done. apply Hm.
  - rewrite this_cpu_settle by done. unfold intr_enabled. rewrite Hh. apply Hm.
Qed.

Lemma noff_settle m : machine_ok m → c_noff (this_cpu (settle m)) = c_noff (this_cpu m).
Proof. intros Hm. by rewrite this_cpu_settle. Qed.

Lemma c_proc_settle m : machine_ok m → c_proc (this_cpu (settle m)) = c_proc (this_cpu m).
Proof. intros Hm. by rewrite this_cpu_settle. Qed.

Lemma settle_settle m : machine_ok m → settle (settle m) = settle m.
Proof.
  intros Hm. unfold settle at 1. rewrite noff_settle by done. unfold settle.
  destruct (Z.eqb_spec (c_noff (this_cpu m)) 0); [|done].
  cbn. rewrite list_alter_alter. done.
Qed.

(** A nested section leaves the machine as it was. *)
Lemma settle_nested m : 0 < c_noff (this_cpu m) → settle m = m.
Proof. intros Hn. unfold settle. destruct (Z.eqb_spec (c_noff (this_cpu m)) 0); [lia|done]. Qed.

Lemma push_settle m : machine_ok m → push_offed (settle m) = push_offed m.
Proof.
  intros Hm. unfold settle. destruct (Z.eqb_spec (c_noff (this_cpu m)) 0) as [E|E]; [|done].
  unfold push_offed. cbn. rewrite list_alter_alter. f_equal.
  apply list_alter_ext_at. cbn. change (m_cpus m !!! hart_id m) with (this_cpu m).
  by rewrite E.
Qed.

Lemma lock_get_free lk m : lock_free lk m → lk_locked (lock_get lk m) = 0.
Proof. intros [n H]. unfold lock_get. by rewrite H. Qed.

Lemma lock_free_settle lk m : lock_free lk (settle m) ↔ lock_free lk m.
Proof. unfold lock_free. by destruct (settle_fields m) as (_ & -> & _). Qed.

Lemma take_settle lk m : machine_ok m → take_lock lk (settle m) = take_lock lk m.
Proof.
  intros Hm. unfold take_lock. rewrite push_settle by done.
  destruct (settle_fields m) as (_ & Hk & Hi & _). unfold lock_get. by rewrite Hk, Hi.
Qed.

Lemma lock_held_take lk m : lock_held lk (take_lock lk m).
Proof. exists (lk_name (lock_get lk m)). cbn. apply lookup_insert_eq. Qed.

Lemma this_cpu_take lk m : this_cpu (take_lock lk m) = this_cpu (push_offed m).
Proof. done. Qed.

Lemma noff_take lk m :
  machine_ok m → c_noff (this_cpu (take_lock lk m)) = c_noff (this_cpu m) + 1.
Proof. intros Hm. by rewrite this_cpu_take, this_cpu_push. Qed.

Lemma c_proc_take lk m :
  machine_ok m → c_proc (this_cpu (take_lock lk m)) = c_proc (this_cpu m).
Proof. intros Hm. by rewrite this_cpu_take, this_cpu_push. Qed.

Lemma machine_ok_take lk m : machine_ok m → machine_ok (take_lock lk m).
Proof. intros Hm. destruct (machine_ok_push m Hm). by constructor. Qed.

Lemma drop_take lk m : machine_ok m → lock_free lk m → drop_lock lk (take_lock lk m) = settle m.
Proof.
  intros Hm [name Hl]. unfold drop_lock, take_lock, lock_get.
  rewrite Hl. cbn. rewrite lookup_insert_eq. cbn.
  rewrite insert_insert_eq, (insert_id (m_locks m)) by done.
  rewrite <- pop_push by done. by destruct m.
Qed.

(** Locks other than [lk] are not affected by [lk]. *)
Lemma lock_free_take lk lk' m : lk ≠ lk' → lock_free lk' (take_lock lk m) ↔ lock_free lk' m.
Proof. intros Hne. unfold lock_free, take_lock. cbn. by rewrite lookup_insert_ne. Qed.

Lemma lock_held_take_other lk lk' m :
  lk ≠ lk' → lock_held lk' (take_lock lk m) ↔ lock_held lk' m.
Proof. intros Hne. unfold lock_held, take_lock. cbn. by rewrite lookup_insert_ne. Qed.

(** The effect of releasing a lock on the rest of the machine. *)
Lemma this_cpu_pop m :
  machine_ok m → this_cpu (pop_offed m) = (this_cpu m) <| c_noff ::= λ n, n - 1 |>.
Proof.
  intros Hm. pose proof (hart_id_lt m Hm) as Hlt. unfold pop_offed.
  destruct (_ && _); cbn; unfold this_cpu at 1, hart_id at 1; cbn;
    fold (hart_id m); by rewrite list_alter_total.
Qed.

Lemma pop_offed_fields m :
  hart_id (pop_offed m) = hart_id m ∧ m_locks (pop_offed m) = m_locks m ∧
  length (m_cpus (pop_offed m)) = length (m_cpus m).
Proof. unfold pop_offed. by destruct (_ && _); cbn; rewrite length_alter. Qed.

Lemma machine_ok_pop m :
  machine_ok m → 1 ≤ c_noff (this_cpu m) → machine_ok (pop_offed m).
Proof.
  intros Hm Hn. pose proof (this_cpu_pop m Hm) as Hc.
  destruct (pop_offed_fields m) as (Hh & _ & Hl).
  assert (Htp : r_tp (m_hart (pop_offed m)) = r_tp (m_hart m))
    by (unfold pop_offed; by destruct (_ && _)).
  constructor.
  - rewrite Htp, Hl. apply Hm.
  - rewrite Htp. apply Hm.
  - rewrite Hc. cbn. lia.
  - rewrite Hc. cbn. intros H. unfold pop_offed.
    destruct (Z.eqb_spec (c_noff (this_cpu m)) 1) as [E|E]; [lia|]. cbn.
    apply (mo_off _ Hm). lia.
Qed.

Lemma machine_ok_locks m L : machine_ok m → machine_ok (m <| m_locks := L |>).
Proof. intros []. by constructor. Qed.

Section drop.
Context (lk : lockid) (m : machine).
Hypothesis Hm : machine_ok m.

Lemma this_cpu_drop : this_cpu (drop_lock lk m) = (this_cpu m) <| c_noff ::= λ n, n - 1 |>.
Proof. unfold drop_lock. rewrite this_cpu_pop; [done|by apply machine_ok_locks]. Qed.

Lemma noff_drop : c_noff (this_cpu (drop_lock lk m)) = c_noff (this_cpu m) - 1.
Proof. by rewrite this_cpu_drop. Qed.

Lemma c_proc_drop : c_proc (this_cpu (drop_lock lk m)) = c_proc (this_cpu m).
Proof. by rewrite this_cpu_drop. Qed.

Lemma hart_id_drop : hart_id (drop_lock lk m) = hart_id m.
Proof. unfold drop_lock. by destruct (pop_offed_fields (m <| m_locks ::= insert lk (Spinlock 0 (lk_name (lock_get lk m)) None) |>)) as (-> & _). Qed.

Lemma m_locks_drop :
  m_locks (drop_lock lk m) = <[ lk := Spinlock 0 (lk_name (lock_get lk m)) None ]> (m_locks m).
Proof. unfold drop_lock. by destruct (pop_offed_fields (m <| m_locks ::= insert lk (Spinlock 0 (lk_name (lock_get lk m)) None) |>)) as (_ & -> & _). Qed.

Lemma machine_ok_drop : 1 ≤ c_noff (this_cpu m) → machine_ok (drop_lock lk m).
Proof. intros Hn. apply machine_ok_pop; [by apply machine_ok_locks|done]. Qed.

Lemma lock_free_drop : lock_free lk (drop_lock lk m).
Proof. exists (lk_name (lock_get lk m)). rewrite m_locks_drop. apply lookup_insert_eq. Qed.

Lemma lock_free_drop_other lk' : lk ≠ lk' → lock_free lk' (drop_lock lk m) ↔ lock_free lk' m.
Proof. intros Hne. unfold lock_free. by rewrite m_locks_drop, lookup_insert_ne. Qed.

Lemma lock_held_drop_other lk' : lk ≠ lk' → lock_held lk' (drop_lock lk m) ↔ lock_held lk' m.
Proof. intros Hne. unfold lock_held. by rewrite m_locks_drop, hart_id_drop, lookup_insert_ne. Qed.
End drop.

Lemma holding_free lk ks k :
  lock_free lk (k_mach k) → holding lk ks k = Ok false ks k.
Proof. intros [n H]. unfold holding, lock_get. ksteps. by rewrite H. Qed.

Lemma holding_held lk ks k :
  machine_ok (k_mach k) → lock_held lk (k_mach k) → holding lk ks k = Ok true ks k.
Proof.
  intros Hm [n H]. destruct (machine_ok_tp _ Hm). unfold holding, lock_get. ksteps. rewrite H.
  cbn. rewrite bind_run, mycpu_run by done. cbn. by rewrite bool_decide_true.
Qed.

Lemma test_and_set_run lk ks k :
  test_and_set lk ks k = Ok (lk_locked (lock_get lk (k_mach k))) ks
    (k <| k_mach ::= λ m, m <| m_locks ::= insert lk ((lock_get lk m) <| lk_locked := 1 |>) |> |>).
Proof. done. Qed.

Lemma spin_free lk ks k :
  lk_locked (lock_get lk (k_mach k)) = 0 →
  spin lk ks k = Ok tt ks
    (k <| k_mach ::= λ m, m <| m_locks ::= insert lk ((lock_get lk m) <| lk_locked := 1 |>) |> |>).
Proof.
  intros H. unfold spin, spin_from. destruct ks; rewrite test_and_set_run, H; done.
Qed.

Lemma acquire_run lk ks k :
  machine_ok (k_mach k) → lock_free lk (k_mach k) →
  acquire lk ks k = Ok tt ks (k <| k_mach ::= take_lock lk |>).
Proof.
  intros Hm Hf. pose proof (machine_ok_push _ Hm) as Hm'. destruct (machine_ok_tp _ Hm') as [? ?].
  unfold acquire. rewrite bind_run, push_off_run by done.
  rewrite bind_run, holding_free by done. cbn.
  rewrite bind_run, spin_free by (by apply lock_get_free). cbn.
  unfold set_owner. rewrite bind_run, mycpu_run by done. ksteps.
  destruct Hf as [name Hl].
  unfold lock_get, take_lock, lock_get. cbn. rewrite lookup_insert_eq, Hl. cbn.
  by rewrite insert_insert_eq.
Qed.

Lemma release_run lk ks k :
  machine_ok (k_mach k) → lock_held lk (k_mach k) → 1 ≤ c_noff (this_cpu (k_mach k)) →
  release lk ks k = Ok tt ks (k <| k_mach ::= drop_lock lk |>).
Proof.
  intros Hm Hh Hn. unfold release. rewrite bind_run, holding_held by done. cbn.
  destruct Hh as [name Hl].
  unfold clear_owner, lock_release, lock_get. ksteps. rewrite Hl. cbn.
  rewrite lookup_insert_eq. cbn. rewrite insert_insert_eq.
  rewrite pop_off_run; [|destruct Hm; by constructor|done].
  cbn. unfold drop_lock, lock_get. by rewrite Hl.
Qed.

Lemma myproc_run ks k :
  machine_ok (k_mach k) →
  myproc ks k = Ok (c_proc (this_cpu (k_mach k))) ks (k <| k_mach ::= settle |>).
Proof.
  intros Hm. pose proof (machine_ok_push _ Hm) as Hm'. destruct (machine_ok_tp _ Hm') as [? ?].
  unfold myproc. rewrite bind_run, push_off_run by done.
  rewrite bind_run, mycpu_run by done. ksteps.
  rewrite pop_off_run; [|done|cbn; rewrite this_cpu_push by done; cbn;
    pose proof (mo_noff _ Hm); lia]. cbn.
  rewrite pop_push by done.
  rewrite list_alter_total by (by apply hart_id_lt). done.
Qed.

(** ** Several harts, one lock

    Each hart runs [acquire(lk); ...; release(lk);] over and over.  [lockpc]
    is where it is in that code; every transition runs one atomic access of
    the code above on that hart, and transitions of different harts interleave
    arbitrarily. *)

Inductive lockpc :=
  | PcOut        (* outside *)
  | PcSpin       (* in acquire(), about to swap *)
  | PcWon        (* the swap returned 0 *)
  | PcIn         (* acquire() has returned *)
  | PcLeaving    (* in release(), lk->cpu cleared *)
  | PcReleased.  (* lk->locked cleared, pop_off() to do *)

#[export] Instance lockpc_eq_dec : EqDecision lockpc.
Proof. solve_decision. Defined.

Record smp := Smp { smp_k : kernel; smp_harts : list hart; smp_pcs : list lockpc }.

Definition on_hart (h : nat) (s : smp) : kernel :=
  (smp_k s) <| k_mach ::= λ m, m <| m_hart := default zero_hart (smp_harts s !! h) |> |>.

Definition resume (h : nat) (k : kernel) (pc : lockpc) (s : smp) : smp :=
  Smp k (<[h := m_hart (k_mach k)]> (smp_harts s)) (<[h := pc]> (smp_pcs s)).

(** The parts of acquire() and release() between the atomic accesses. *)
Definition acquire_enter (lk : lockid) : M kernel unit :=
  push_off ;; h ← holding lk; if (h : bool) then panic "acquire" else mret tt.

Definition release_enter (lk : lockid) : M kernel unit :=
  h ← holding lk; if negb h then panic "release" else clear_owner lk.

(** The code at each point, with the point it leads to. *)
Definition lock_code (lk : lockid) (pc : lockpc) : M kernel lockpc :=
  match pc with
  | PcOut => acquire_enter lk ;; mret PcSpin
  | PcSpin => v ← test_and_set lk; mret (if v =? 0 then PcWon else PcSpin)
  | PcWon => set_owner lk ;; mret PcIn
  | PcIn => release_enter lk ;; mret PcLeaving
  | PcLeaving => lock_release lk ;; mret PcReleased
  | PcReleased => pop_off ;; mret PcOut
  end.

Inductive lock_step (lk : lockid) (s : smp) : smp → Prop :=
  | hart_step h pc pc' k :
      smp_pcs s !! h = Some pc →
      lock_code lk pc [] (on_hart h s) = Ok pc' [] k →
      lock_step lk s (resume h k pc' s).

(** The lock is initialised, every hart is outside with nothing pushed. *)
Record lock_start (lk : lockid) (s : smp) : Prop := {
  ls_free : lock_free lk (k_mach (smp_k s));
  ls_pcs : ∀ h pc, smp_pcs s !! h = Some pc → pc = PcOut;
  ls_harts : ∀ h pc, smp_pcs s !! h = Some pc →
    ∃ hr c, smp_harts s !! h = Some hr ∧ m_cpus (k_mach (smp_k s)) !! h = Some c ∧
      r_tp hr = Z.of_nat h ∧ Z.of_nat h < 2 ^ 31 ∧ c_noff c = 0;
}.

Definition owns (pc : lockpc) : bool :=
  match pc with PcWon | PcIn | PcLeaving => true | _ => false end.

Definition hart_inv (harts : list hart) (cpus : list cpu) (h : nat) (pc : lockpc) : Prop :=
  ∃ hr c, harts !! h = Some hr ∧ cpus !! h = Some c ∧
    r_tp hr = Z.of_nat h ∧ Z.of_nat h < 2 ^ 31 ∧
    c_noff c = (if decide (pc = PcOut) then 0 else 1) ∧
    (pc ≠ PcOut → Z.testbit (r_sstatus hr) 1 = false).

Record lock_inv (lk : lockid) (s : smp) : Prop := {
  li_hart : ∀ h pc, smp_pcs s !! h = Some pc →
    hart_inv (smp_harts s) (m_cpus (k_mach (smp_k s))) h pc;
  li_excl : ∀ h1 h2 pc1 pc2, smp_pcs s !! h1 = Some pc1 → smp_pcs s !! h2 = Some pc2 →
    owns pc1 = true → owns pc2 = true → h1 = h2;
  li_locked : lk_locked (lock_get lk (k_mach (smp_k s))) ≠ 0 ↔
    ∃ h pc, smp_pcs s !! h = Some pc ∧ owns pc = true;
  li_cpu : ∀ h, lk_cpu (lock_get lk (k_mach (smp_k s))) = Some h ↔ smp_pcs s !! h = Some PcIn;
}.

Lemma hart_inv_on s h pc :
  hart_inv (smp_harts s) (m_cpus (k_mach (smp_k s))) h pc →
  machine_ok (k_mach (on_hart h s)) ∧ hart_id (k_mach (on_hart h s)) = h ∧
  c_noff (this_cpu (k_mach (on_hart h s))) = (if decide (pc = PcOut) then 0 else 1).
Proof.
  intros (hr & c & Hh & Hc & Ht & Hlt & Hn & Hs).
  assert (Hid : hart_id (k_mach (on_hart h s)) = h).
  { unfold hart_id. cbn. rewrite Hh. cbn. lia. }
  assert (Hcpu : this_cpu (k_mach (on_hart h s)) = c).
  { unfold this_cpu. rewrite Hid. cbn. by apply list_lookup_total_correct. }
  split; [|by rewrite Hcpu]. constructor.
  - cbn. rewrite Hh. cbn. apply lookup_lt_Some in Hc. lia.
  - cbn. rewrite Hh. cbn. lia.
  - rewrite Hcpu, Hn. case_decide; lia.
  - rewrite Hcpu, Hn. unfold intr_enabled. cbn. rewrite Hh. case_decide; [lia|auto].
Qed.

(** One transition of hart [h], from [pc0] to [pc]: what must be shown of it. *)
Lemma lock_inv_resume lk s h k pc0 pc l l' :
  l = lock_get lk (k_mach (smp_k s)) → l' = lock_get lk (k_mach k) →
  lock_inv lk s → smp_pcs s !! h = Some pc0 →
  (∀ j, j ≠ h → m_cpus (k_mach k) !! j = m_cpus (k_mach (smp_k s)) !! j) →
  hart_inv (<[h := m_hart (k_mach k)]> (smp_harts s)) (m_cpus (k_mach k)) h pc →
  (owns pc = true → owns pc0 = true ∨ lk_locked l = 0) →
  (lk_locked l' ≠ 0 ↔ owns pc = true ∨ (lk_locked l ≠ 0 ∧ owns pc0 = false)) →
  (∀ j, lk_cpu l' = Some j ↔ if decide (j = h) then pc = PcIn else lk_cpu l = Some j) →
  lock_inv lk (resume h k pc s).
Proof.
  intros El El' HI Hpc0 Hcpus Hh Hex Hlk Hcp.
  assert (Hlt : (h < length (smp_pcs s))%nat) by (by apply lookup_lt_Some in Hpc0).
  assert (Hone : lk_locked l = 0 → ∀ j p, smp_pcs s !! j = Some p → owns p = false).
  { intros H0 j p Hj. destruct (owns p) eqn:Ho; [|done].
    destruct (li_locked _ _ HI) as [_ H]. rewrite <- El, H0 in H.
    by destruct (H (ex_intro _ j (ex_intro _ p (conj Hj Ho)))). }
  constructor; cbn [smp_pcs smp_harts smp_k resume].
  - intros j p. destruct (decide (j = h)) as [->|Hj].
    + rewrite list_lookup_insert_eq by done. by intros [= <-].
    + rewrite list_lookup_insert_ne by done. intros Hp.
      destruct (li_hart _ _ HI j p Hp) as (hr & c & H1 & H2 & H3).
      exists hr, c. rewrite list_lookup_insert_ne, Hcpus by done. done.
  - assert (Hoth : owns pc = true → ∀ j p, j ≠ h → smp_pcs s !! j = Some p → owns p = false).
    { intros Ho j p Hj Hp. destruct (Hex Ho) as [Ho'|H0]; [|by eapply Hone].
      destruct (owns p) eqn:Hop; [|done]. by destruct (Hj (li_excl _ _ HI _ _ _ _ Hp Hpc0 Hop Ho')). }
    intros h1 h2 p1 p2.
    destruct (decide (h1 = h)) as [->|H1], (decide (h2 = h)) as [->|H2]; [done|..].
    + rewrite list_lookup_insert_eq, list_lookup_insert_ne by done. intros [= <-] Hp2 Ho1 Ho2.
      by rewrite (Hoth Ho1 h2 p2) in Ho2.
    + rewrite list_lookup_insert_eq, list_lookup_insert_ne by done. intros Hp1 [= <-] Ho1 Ho2.
      by rewrite (Hoth Ho2 h1 p1) in Ho1.
    + rewrite !list_lookup_insert_ne by done. apply (li_excl _ _ HI).
  - rewrite <- El', Hlk. split.
    + intros [Ho|[Hl Ho]].
      * exists h, pc. by rewrite list_lookup_insert_eq.
      * rewrite El in Hl.
        destruct (proj1 (li_locked _ _ HI) Hl) as (j & p & Hj & Hop). exists j, p.
        rewrite list_lookup_insert_ne by congruence. done.
    + intros (j & p & Hj & Hop). destruct (decide (j = h)) as [->|Hjh].
      * rewrite list_lookup_insert_eq in Hj by done. left. congruence.
      * rewrite list_lookup_insert_ne in Hj by done. right. split.
        -- rewrite El. apply (li_locked _ _ HI). eauto.
        -- destruct (owns pc0) eqn:Ho; [|done].
           by destruct (Hjh (li_excl _ _ HI _ _ _ _ Hj Hpc0 Hop Ho)).
  - intros j. rewrite <- El', Hcp. case_decide as Hj.
    + subst. rewrite list_lookup_insert_eq by done. by split; [intros ->|intros [= ->]].
    + rewrite list_lookup_insert_ne, El by done. apply (li_cpu _ _ HI).
Qed.

Lemma lock_inv_start lk s : lock_start lk s → lock_inv lk s.
Proof.
  intros [[name Hf] Hp Hh]. constructor; unfold lock_get; rewrite ?Hf; cbn.
  - intros h pc H. destruct (Hh _ _ H) as (hr & c & ? & ? & ? & ? & ?).
    exists hr, c. rewrite (Hp _ _ H). done.
  - intros h1 h2 p1 p2 H1 H2. by rewrite (Hp _ _ H1).
  - split; [done|]. intros (h & pc & H & Ho). by rewrite (Hp _ _ H) in Ho.
  - intros h. split; [done|]. intros H. by apply Hp in H.
Qed.

Lemma holding_other lk ks k :
  machine_ok (k_mach k) → lk_cpu (lock_get lk (k_mach k)) ≠ Some (hart_id (k_mach k)) →
  holding lk ks k = Ok false ks k.
Proof.
  intros Hm Hne. destruct (machine_ok_tp _ Hm). unfold holding. ksteps.
  destruct (truthy _); [|done]. rewrite bind_run, mycpu_run by done. cbn.
  by rewrite bool_decide_false.
Qed.

Lemma holding_owner lk ks k :
  machine_ok (k_mach k) → lk_locked (lock_get lk (k_mach k)) ≠ 0 →
  lk_cpu (lock_get lk (k_mach k)) = Some (hart_id (k_mach k)) →
  holding lk ks k = Ok true ks k.
Proof.
  intros Hm Hl He. destruct (machine_ok_tp _ Hm). unfold holding. ksteps.
  unfold truthy. rewrite (proj2 (Z.eqb_neq _ _) Hl). cbn.
  rewrite bind_run, mycpu_run by done. cbn. by rewrite bool_decide_true.
Qed.

(** The lock, the point and the machine each transition leads to. *)
Definition next_lock (pc : lockpc) (l : spinlock) (h : nat) : spinlock :=
  match pc with
  | PcSpin => l <| lk_locked := 1 |>
  | PcWon => l <| lk_cpu := Some h |>
  | PcIn => l <| lk_cpu := None |>
  | PcLeaving => l <| lk_locked := 0 |>
  | _ => l
  end.

Definition next_pc (pc : lockpc) (l : spinlock) : lockpc :=
  match pc with
  | PcOut => PcSpin
  | PcSpin => if lk_locked l =? 0 then PcWon else PcSpin
  | PcWon => PcIn
  | PcIn => PcLeaving
  | PcLeaving => PcReleased
  | PcReleased => PcOut
  end.

Definition next_machine (lk : lockid) (pc : lockpc) (m : machine) : machine :=
  match pc with
  | PcOut => push_offed m
  | PcReleased => pop_offed m
  | _ => m <| m_locks ::= insert lk (next_lock pc (lock_get lk m) (hart_id m)) |>
  end.

Lemma m_locks_pop m : m_locks (pop_offed m) = m_locks m.
Proof. unfold pop_offed. by destruct (_ && _). Qed.

Lemma lock_get_next lk pc m :
  lock_get lk (next_machine lk pc m) = next_lock pc (lock_get lk m) (hart_id m).
Proof.
  destruct pc; unfold next_machine, lock_get; cbn; rewrite ?lookup_insert_eq, ?m_locks_pop; done.
Qed.

Lemma m_cpus_next lk pc m j : j ≠ hart_id m → m_cpus (next_machine lk pc m) !! j = m_cpus m !! j.
Proof.
  intros Hj. destruct pc; cbn; try done; unfold pop_offed; try destruct (_ && _); cbn;
    by rewrite list_lookup_alter_ne.
Qed.

(** Under the invariant no check panics. *)
Lemma lock_code_run lk s h pc :
  lock_inv lk s → smp_pcs s !! h = Some pc →
  lock_code lk pc [] (on_hart h s) =
    Ok (next_pc pc (lock_get lk (k_mach (smp_k s)))) []
      ((on_hart h s) <| k_mach ::= next_machine lk pc |>).
Proof.
  intros HI Hpc. destruct (hart_inv_on s h pc (li_hart _ _ HI _ _ Hpc)) as (Hm & Hid & Hn).
  destruct (machine_ok_tp _ Hm) as [Ht Ht'].
  assert (Hown : lk_cpu (lock_get lk (k_mach (on_hart h s))) = Some h ↔ pc = PcIn).
  { rewrite (li_cpu _ _ HI h : lk_cpu (lock_get lk (k_mach (on_hart h s))) = Some h ↔ _), Hpc.
    by split; [intros [= ->]|intros ->]. }
  destruct pc; unfold lock_code; rewrite bind_run.
  - unfold acquire_enter. rewrite bind_run, push_off_run by done.
    rewrite bind_run, holding_other; [done|by apply machine_ok_push|].
    change (lk_cpu (lock_get lk (k_mach (on_hart h s))) ≠ Some (hart_id (k_mach (on_hart h s)))).
    rewrite Hid, Hown. done.
  - by rewrite test_and_set_run.
  - unfold set_owner. rewrite bind_run, mycpu_run by done. done.
  - unfold release_enter. rewrite bind_run, holding_owner; [done..| |].
    + apply (li_locked _ _ HI). exists h, PcIn. done.
    + rewrite Hid. by apply Hown.
  - done.
  - rewrite pop_off_run; [done..|]. rewrite Hn. done.
Qed.

(** The registers and cpu of the hart after its transition. *)
Lemma hart_inv_next lk s h pc :
  hart_inv (smp_harts s) (m_cpus (k_mach (smp_k s))) h pc →
  let m' := next_machine lk pc (k_mach (on_hart h s)) in
  let pc' := next_pc pc (lock_get lk (k_mach (smp_k s))) in
  hart_inv (<[h := m_hart m']> (smp_harts s)) (m_cpus m') h pc'.
Proof.
  intros Hh m' pc'. subst m'. destruct (hart_inv_on s h pc Hh) as (Hm & Hid & Hn).
  destruct Hh as (hr & c & Hhr & Hc & Htp & Hlt & Hnoff & Hsie).
  assert (Hlh : (h < length (smp_harts s))%nat) by (by apply lookup_lt_Some in Hhr).
  assert (Hcpu : this_cpu (k_mach (on_hart h s)) = c).
  { unfold this_cpu. rewrite Hid. cbn. by apply list_lookup_total_correct. }
  assert (Hmh : m_hart (k_mach (on_hart h s)) = hr) by (cbn; by rewrite Hhr).
  assert (Hmc : m_cpus (k_mach (on_hart h s)) !! h = Some c) by done.
  generalize dependent (k_mach (on_hart h s)). intros m Hm Hid Hn Hcpu Hmh Hmc.
  destruct pc; subst pc'; cbn [next_machine next_pc].
  - exists (hr <| r_sstatus ::= λ x, Z.land x (Z.lnot SSTATUS_SIE) |>). eexists.
    cbn. rewrite Hmh, Hid, list_lookup_insert_eq, list_lookup_alter_eq, Hmc by done. cbn.
    repeat split; [done..|by rewrite Hnoff|]. intros _. apply sie_off_bit.
  - exists hr, c. cbn. rewrite Hmh, list_lookup_insert_eq by done.
    repeat split; try done; destruct (_ =? 0); auto.
  - exists hr, c. cbn. rewrite Hmh, list_lookup_insert_eq by done. by repeat split; auto.
  - exists hr, c. cbn. rewrite Hmh, list_lookup_insert_eq by done. by repeat split; auto.
  - exists hr, c. cbn. rewrite Hmh, list_lookup_insert_eq by done. by repeat split; auto.
  - change (c_noff c = 1) in Hnoff. unfold pop_offed. rewrite Hcpu, Hnoff. cbn.
    destruct (truthy (c_intena c)); cbn; rewrite Hid, Hmh; cbn;
      (eexists; exists (c <| c_noff ::= λ n, n - 1 |>));
      rewrite list_lookup_insert_eq, list_lookup_alter_eq, Hmc by done; cbn;
      repeat split; try done; by rewrite Hnoff.
Qed.

Lemma lock_step_preserves lk s s' : lock_inv lk s → lock_step lk s s' → lock_inv lk s'.
Proof.
  intros HI [h pc pc' k Hpc Hr]. rewrite (lock_code_run lk s h pc HI Hpc) in Hr.
  injection Hr as <- <-.
  pose proof (li_hart _ _ HI _ _ Hpc) as Hh.
  destruct (hart_inv_on s h pc Hh) as (Hm & Hid & Hn).
  assert (Hown : lk_cpu (lock_get lk (k_mach (smp_k s))) = Some h ↔ pc = PcIn).
  { rewrite (li_cpu _ _ HI h), Hpc. by split; [intros [= ->]|intros ->]. }
  assert (Hlk : owns pc = true → lk_locked (lock_get lk (k_mach (smp_k s))) ≠ 0).
  { intros Ho. apply (li_locked _ _ HI). eauto. }
  assert (Hnext : lock_get lk (next_machine lk pc (k_mach (on_hart h s))) =
    next_lock pc (lock_get lk (k_mach (smp_k s))) h) by (rewrite lock_get_next, Hid; done).
  eapply lock_inv_resume; [done|symmetry; exact Hnext|done|exact Hpc| |by apply hart_inv_next|..].
  - intros j Hj. apply (m_cpus_next lk pc (k_mach (on_hart h s))). by rewrite Hid.
  - intros Ho. destruct pc; auto. cbn in Ho. right.
    by destruct (Z.eqb_spec (lk_locked (lock_get lk (k_mach (smp_k s)))) 0).
  - clear Hnext Hown. revert Hlk. generalize (lock_get lk (k_mach (smp_k s))). clear. intros l Hl.
    destruct pc; cbn in *; try destruct (Z.eqb_spec (lk_locked l) 0); naive_solver.
  - intros j. clear Hnext Hlk.
    assert (Hex : owns pc = true → lk_cpu (lock_get lk (k_mach (smp_k s))) = Some j → j = h).
    { intros Ho Hj. apply (li_cpu _ _ HI) in Hj. by eapply (li_excl _ _ HI). }
    revert Hown Hex. generalize (lock_get lk (k_mach (smp_k s))). clear. intros l Ho Hex.
    case_decide; subst; destruct pc; cbn in *; try destruct (lk_locked l =? 0); naive_solver.
Qed.

Lemma lock_inv_reachable lk s0 s : lock_start lk s0 → rtc (lock_step lk) s0 s → lock_inv lk s.
Proof.
  intros Hs Hr. apply lock_inv_start in Hs.
  induction Hr; eauto using lock_step_preserves.
Qed.


(** Run the harts in the given order. *)
Fixpoint lock_exec (lk : lockid) (hs : list nat) (s : smp) : option smp :=
  match hs with
  | [] => Some s
  | h :: hs' =>
      pc ← smp_pcs s !! h;
      match lock_code lk pc [] (on_hart h s) with
      | Ok pc' [] k => lock_exec lk hs' (resume h k pc' s)
      | _ => None
      end
  end.

Lemma lock_exec_sound lk hs s s' : lock_exec lk hs s = Some s' → rtc (lock_step lk) s s'.
Proof.
  revert s. induction hs as [|h hs IH]; intros s; cbn; [by intros [= ->]|].
  destruct (smp_pcs s !! h) as [pc|] eqn:Hpc; cbn; [|done].
  destruct (lock_code lk pc [] (on_hart h s)) as [pc' [|] k| | | |] eqn:Hc; try done.
  intros H. eapply rtc_l; [by eapply hart_step|by apply IH].
Qed.

Definition two_harts : smp :=
  Smp (zero_kernel <| k_mach ::= λ m, m <| m_locks := {[ L_kmem := Spinlock 0 "kmem" None ]} |> |>)
    [Hart 0 2 0 0 0 0 0 0; Hart 1 2 0 0 0 0 0 0] [PcOut; PcOut].


(** ** Nesting of push_off() and pop_off() *)

Fixpoint repeat_m (n : nat) (m : M kernel unit) : M kernel unit :=
  match n with
  | O => mret tt
  | S n => m ;; repeat_m n m
  end.

Lemma machine_ok_iter n m : machine_ok m → machine_ok (Nat.iter n push_offed m).
Proof. intros Hm. induction n; cbn; auto using machine_ok_push. Qed.

Lemma noff_iter n m :
  machine_ok m → c_noff (this_cpu (Nat.iter n push_offed m)) = c_noff (this_cpu m) + Z.of_nat n.
Proof.
  intros Hm. induction n as [|n IH]; [cbn; lia|].
  rewrite Nat.iter_succ, this_cpu_push by (by apply machine_ok_iter). cbn [c_noff]. lia.
Qed.

Lemma repeat_push_run n ks k :
  machine_ok (k_mach k) →
  repeat_m n push_off ks k = Ok tt ks (k <| k_mach ::= Nat.iter n push_offed |>).
Proof.
  revert k. induction n as [|n IH]; intros k Hm; cbn; [by destruct k|].
  rewrite bind_run, push_off_run by done. rewrite IH by (by apply machine_ok_push).
  cbn. by rewrite <- Nat.iter_succ_r.
Qed.

Lemma repeat_pop_run n ks k m :
  machine_ok m → k_mach k = Nat.iter (S n) push_offed m →
  repeat_m (S n) pop_off ks k = Ok tt ks (k <| k_mach := settle m |>).
Proof.
  revert k. induction n as [|n IH]; intros k Hm Hk.
  - cbn in *. rewrite bind_run, pop_off_run; [|rewrite Hk..].
    + cbn. by rewrite Hk, pop_push.
    + by apply machine_ok_push.
    + rewrite this_cpu_push by done. cbn [c_noff]. pose proof (mo_noff _ Hm). lia.
  - assert (Hm' : machine_ok (Nat.iter (S n) push_offed m)) by (by apply machine_ok_iter).
    pose proof (noff_iter (S n) m Hm) as Hn. pose proof (mo_noff _ Hm).
    change (repeat_m (S (S n)) pop_off) with (pop_off ;; repeat_m (S n) pop_off).
    change (Nat.iter (S (S n)) push_offed m) with (push_offed (Nat.iter (S n) push_offed m)) in Hk.
    rewrite bind_run, pop_off_run; [|rewrite Hk..].
    + rewrite IH; [done..|]. cbn [set_field k_mach]. rewrite Hk, pop_push by done.
      apply settle_nested. lia.
    + by apply machine_ok_push.
    + rewrite this_cpu_push by done. cbn [c_noff]. lia.
Qed.

(** Push_off() and pop_off() are matched: after any number of nested
    push_off()s interrupts are off, and the same number of pop_off()s
    restores the interrupt enable and the nesting depth the hart had. *)
Theorem push_pop_matched n ks k :
  machine_ok (k_mach k) →
  ∃ m, repeat_m (S n) push_off ks k = Ok tt ks (k <| k_mach := m |>) ∧
    intr_enabled m = false ∧
    c_noff (this_cpu m) = c_noff (this_cpu (k_mach k)) + Z.of_nat (S n) ∧
    ∃ m', repeat_m (S n) pop_off ks (k <| k_mach := m |>) = Ok tt ks (k <| k_mach := m' |>) ∧
      m_hart m' = m_hart (k_mach k) ∧ m_locks m' = m_locks (k_mach k) ∧
      c_noff (this_cpu m') = c_noff (this_cpu (k_mach k)).
Proof.
  intros Hm. exists (Nat.iter (S n) push_offed (k_mach k)).
  split; [by rewrite repeat_push_run|]. split; [apply sie_off_bit|].
  split; [by apply noff_iter|]. exists (settle (k_mach k)).
  split; [by rewrite (repeat_pop_run n _ _ (k_mach k))|].
  destruct (settle_fields (k_mach k)) as (? & ? & _). by rewrite noff_settle.
Qed.

Lemma push_pop_matched_witness :
  ∃ m, repeat_m 3 push_off [] zero_kernel = Ok tt [] (zero_kernel <| k_mach := m |>) ∧
    intr_enabled m = false.
Proof.
  destruct (push_pop_matched 2 [] zero_kernel) as (m & H1 & H2 & _); [|by exists m].
  constructor; vm_compute; try done; by split.
Defined.

(** A critical section - acquire(), an update of the data the lock
    protects, release() - performs exactly the update, runs with the lock
    held and interrupts off, and leaves every lock, the interrupt enable and
    the nesting depth as they were. *)
Theorem critical_section lk (f : kernel → kernel) ks k :
  machine_ok (k_mach k) → lock_free lk (k_mach k) →
  (∀ k', k_mach (f k') = k_mach k') →
  acquire lk ks k = Ok tt ks (k <| k_mach ::= take_lock lk |>) ∧
  lock_held lk (take_lock lk (k_mach k)) ∧
  intr_enabled (take_lock lk (k_mach k)) = false ∧
  (acquire lk ;; modify f ;; release lk) ks k =
    Ok tt ks ((f (k <| k_mach ::= take_lock lk |>)) <| k_mach := settle (k_mach k) |>) ∧
  m_locks (settle (k_mach k)) = m_locks (k_mach k) ∧
  m_hart (settle (k_mach k)) = m_hart (k_mach k).
Proof.
  intros Hm Hl Hf. split; [by apply acquire_run|]. split; [by apply lock_held_take|].
  split; [apply sie_off_bit|]. destruct (settle_fields (k_mach k)) as (? & ? & _).
  split; [|done]. rewrite bind_run, acquire_run by done. rewrite bind_run. cbn [modify].
  assert (Hmt : k_mach (f (k <| k_mach ::= take_lock lk |>)) = take_lock lk (k_mach k)) by apply Hf.
  rewrite release_run; [|rewrite Hmt..].
  - cbn in Hmt |- *. by rewrite Hmt, drop_take.
  - by apply machine_ok_take.
  - apply lock_held_take.
  - rewrite noff_take by done. pose proof (mo_noff _ Hm). lia.
Qed.

Lemma critical_section_witness :
  let k := zero_kernel <| k_mach ::= λ m, m <| m_locks := {[ L_kmem := Spinlock 0 "kmem" None ]} |> |> in
  ∃ k', (acquire L_kmem ;; modify (λ k, k <| k_ticks := 7 |>) ;; release L_kmem) [] k = Ok tt [] k' ∧
    k_ticks k' = 7.
Proof.
  intros k.
  destruct (critical_section L_kmem (λ k, k <| k_ticks := 7 |>) [] k) as (_ & _ & _ & H & _).
  - constructor; vm_compute; try done; by split.
  - by exists "kmem".
  - done.
  - eexists. split; [exact H|reflexivity].
Defined.
