(* ===== verification/CString.v ===== *)
(** * Memory and string routines: string.c

    The loops of string.c over byte-addressed memory, and their reference
    descriptions: what the destination holds afterwards, also when source and
    destination overlap, and what the comparisons decide. *)

From S2P Require Import Prelude Memory.

(** [for(i = 0; i < n; i++) cdst[i] = c;] *)
Fixpoint memset_from (m : memory) (cdst c i : Z) (left : nat) : memory :=
  match left with
  | O => m
  | S left' => memset_from (store8 m (cdst + i) c) cdst c (i + 1) left'
  end.

Definition memset (m : memory) (dst c n : Z) : memory := memset_from m dst c 0 (Z.to_nat n).

(** [while(n-- > 0){ if( *s1 != *s2) return *s1 - *s2; s1++, s2++; } return 0;] *)
Fixpoint memcmp_loop (m : memory) (s1 s2 : Z) (n : nat) : Z :=
  match n with
  | O => 0
  | S n' => if m s1 =? m s2 then memcmp_loop m (s1 + 1) (s2 + 1) n' else m s1 - m s2
  end.

Definition memcmp (m : memory) (v1 v2 n : Z) : Z := memcmp_loop m v1 v2 (Z.to_nat n).

(** [while(n-- > 0) *d++ = *s++;] *)
Fixpoint move_up (m : memory) (d s : Z) (n : nat) : memory :=
  match n with
  | O => m
  | S n' => move_up (store8 m d (m s)) (d + 1) (s + 1) n'
  end.

(** [while(n-- > 0) *--d = *--s;] *)
Fixpoint move_down (m : memory) (d s : Z) (n : nat) : memory :=
  match n with
  | O => m
  | S n' => move_down (store8 m (d - 1) (m (s - 1))) (d - 1) (s - 1) n'
  end.

Definition memmove (m : memory) (dst src n : Z) : memory :=
  if n =? 0 then m
  else if (src <? dst) && (dst <? src + n)
  then move_down m (dst + n) (src + n) (Z.to_nat n)
  else move_up m dst src (Z.to_nat n).

Definition memcpy (m : memory) (dst src n : Z) : memory := memmove m dst src n.

(** [while(n > 0 && *p && *p == *q) n--, p++, q++;] *)
Fixpoint strncmp_loop (m : memory) (p q : Z) (n : nat) : Z :=
  match n with
  | O => 0
  | S n' =>
      if negb (m p =? 0) && (m p =? m q) then strncmp_loop m (p + 1) (q + 1) n'
      else m p - m q
  end.

Definition strncmp (m : memory) (p q n : Z) : Z := strncmp_loop m p q (Z.to_nat n).

(** [while(n-- > 0) *s++ = 0;] *)
Fixpoint pad_loop (m : memory) (s : Z) (n : nat) : memory :=
  match n with
  | O => m
  | S n' => pad_loop (store8 m s 0) (s + 1) n'
  end.

(** [while(n-- > 0 && ( *s++ = *t++) != 0) ;] followed by the padding loop. *)
Fixpoint strncpy_loop (m : memory) (s t : Z) (n : nat) : memory :=
  match n with
  | O => m
  | S n' =>
      let c := m t in
      let m' := store8 m s c in
      if c =? 0 then pad_loop m' (s + 1) n' else strncpy_loop m' (s + 1) (t + 1) n'
  end.

Definition strncpy (m : memory) (s t n : Z) : memory := strncpy_loop m s t (Z.to_nat n).

(** [while(--n > 0 && ( *s++ = *t++) != 0) ; *s = 0;], with [left] = n - 1. *)
Fixpoint safestrcpy_loop (m : memory) (s t : Z) (left : nat) : memory :=
  match left with
  | O => store8 m s 0
  | S left' =>
      let c := m t in
      let m' := store8 m s c in
      if c =? 0 then store8 m' (s + 1) 0 else safestrcpy_loop m' (s + 1) (t + 1) left'
  end.

Definition safestrcpy (m : memory) (s t n : Z) : memory :=
  if n <=? 0 then m else safestrcpy_loop m s t (Z.to_nat n - 1).

(** [for(n = 0; s[n]; n++) ;], giving up after [fuel] characters. *)
Fixpoint strlen_loop (m : memory) (s n : Z) (fuel : nat) : option Z :=
  if m (s + n) =? 0 then Some n
  else match fuel with
       | O => None
       | S fuel' => strlen_loop m s (n + 1) fuel'
       end.

Definition strlen (m : memory) (s : Z) (fuel : nat) : option Z := strlen_loop m s 0 fuel.

(** ** Reference notions *)

(** The characters of a buffer up to, not including, the first NUL. *)
Fixpoint until_nul (l : list Z) : list Z :=
  match l with
  | [] => []
  | c :: l' => if c =? 0 then [] else c :: until_nul l'
  end.

Lemma until_nul_length l : (length (until_nul l) ≤ length l)%nat.
Proof. induction l as [|c l IH]; cbn; [lia|]. destruct (c =? 0); cbn; lia. Qed.

Lemma store8_eq m a v : store8 m a v a = u8 v.
Proof. unfold store8. by rewrite Z.eqb_refl. Qed.

Lemma store8_ne m a v x : x ≠ a → store8 m a v x = m x.
Proof. intros H. unfold store8. by destruct (Z.eqb_spec x a). Qed.

Lemma store8_bytes m a v : mem_bytes m → mem_bytes (store8 m a v).
Proof. intros Hm x. unfold store8. destruct (x =? a); [apply u8_range|apply Hm]. Qed.

#[export] Hint Resolve store8_bytes : ints.

(** ** memset *)

Lemma memset_from_spec m cdst c i left x :
  memset_from m cdst c i left x =
    if decide (cdst + i ≤ x < cdst + i + Z.of_nat left) then u8 c else m x.
Proof.
  revert m i. induction left as [|left IH]; intros m i; cbn [memset_from].
  - case_decide; [lia|done].
  - rewrite IH. repeat case_decide; try lia.
    + assert (x = cdst + i) as -> by lia. by rewrite store8_eq.
    + by rewrite store8_ne by lia.
Qed.

Lemma memset_fill m dst c n : 0 ≤ n → mem_eq (memset m dst c n) (fill m dst c n).
Proof.
  intros Hn x. unfold memset. rewrite memset_from_spec. case_decide.
  - by rewrite fill_in by lia.
  - by rewrite fill_out by lia.
Qed.

(** ** memmove *)

Lemma move_up_spec m d s n x :
  mem_bytes m → d ≤ s ∨ s + Z.of_nat n ≤ d →
  move_up m d s n x = if decide (d ≤ x < d + Z.of_nat n) then m (s + (x - d)) else m x.
Proof.
  revert m d s. induction n as [|n IH]; intros m d s Hm Hov; cbn [move_up].
  - case_decide; [lia|done].
  - rewrite IH by (auto with ints; lia). repeat case_decide; try lia.
    + rewrite store8_ne by lia. f_equal. lia.
    + assert (x = d) as -> by lia. rewrite store8_eq, u8_small by apply Hm. f_equal. lia.
    + by rewrite store8_ne by lia.
Qed.

Lemma move_down_spec m d s n x :
  mem_bytes m → s ≤ d →
  move_down m d s n x =
    if decide (d - Z.of_nat n ≤ x < d) then m (s - (d - x)) else m x.
Proof.
  revert m d s. induction n as [|n IH]; intros m d s Hm Hov; cbn [move_down].
  - case_decide; [lia|done].
  - rewrite IH by (auto with ints; lia). repeat case_decide; try lia.
    + rewrite store8_ne by lia. f_equal. lia.
    + assert (x = d - 1) as -> by lia. rewrite store8_eq, u8_small by apply Hm. f_equal. lia.
    + by rewrite store8_ne by lia.
Qed.

Lemma memmove_spec m dst src n :
  mem_bytes m → 0 ≤ n →
  mem_eq (memmove m dst src n) (store_bytes m dst (load_bytes m src (Z.to_nat n))).
Proof.
  intros Hm Hn x.
  assert (Hr : store_bytes m dst (load_bytes m src (Z.to_nat n)) x =
    if decide (dst ≤ x < dst + n) then m (src + (x - dst)) else m x).
  { case_decide.
    - rewrite store_bytes_in by (rewrite load_bytes_length; lia).
      apply list_lookup_total_correct. rewrite load_bytes_lookup by lia. do 2 f_equal. lia.
    - by rewrite store_bytes_out by (rewrite load_bytes_length; lia). }
  rewrite Hr. unfold memmove. destruct (Z.eqb_spec n 0).
  - case_decide; [lia|done].
  - destruct (Z.ltb_spec src dst), (Z.ltb_spec dst (src + n)); cbn [andb].
    1: rewrite move_down_spec by (auto; lia).
    2-4: rewrite move_up_spec by (auto; lia).
    all: repeat case_decide; try lia; f_equal; lia.
Qed.

(** ** Comparisons *)

Lemma memcmp_loop_zero m s1 s2 n :
  memcmp_loop m s1 s2 n = 0 ↔ load_bytes m s1 n = load_bytes m s2 n.
Proof.
  revert s1 s2. induction n as [|n IH]; intros s1 s2; [done|].
  rewrite !load_bytes_cons. cbn [memcmp_loop]. destruct (Z.eqb_spec (m s1) (m s2)) as [E|E].
  - rewrite IH, E. split; [by intros ->|by intros [= ->]].
  - split; [lia|by intros [= ? _]].
Qed.

Lemma strncmp_loop_zero m p q n :
  strncmp_loop m p q n = 0 ↔ until_nul (load_bytes m p n) = until_nul (load_bytes m q n).
Proof.
  revert p q. induction n as [|n IH]; intros p q; [done|].
  rewrite !load_bytes_cons. cbn [strncmp_loop until_nul].
  destruct (Z.eqb_spec (m p) 0) as [E0|E0]; cbn [negb andb].
  - destruct (Z.eqb_spec (m q) 0); [split; [done|lia]|split; [lia|done]].
  - destruct (Z.eqb_spec (m p) (m q)) as [E|E]; cbn [andb].
    + rewrite IH. destruct (Z.eqb_spec (m q) 0); [lia|]. rewrite E.
      split; [by intros ->|by intros [= ->]].
    + destruct (Z.eqb_spec (m q) 0); [split; [lia|done]|split; [lia|by intros [= ? _]]].
Qed.

(** ** Copies *)

Lemma pad_loop_spec m s n x :
  pad_loop m s n x = if decide (s ≤ x < s + Z.of_nat n) then 0 else m x.
Proof.
  revert m s. induction n as [|n IH]; intros m s; cbn [pad_loop].
  - case_decide; [lia|done].
  - rewrite IH. repeat case_decide; try lia.
    + assert (x = s) as -> by lia. by rewrite store8_eq.
    + by rewrite store8_ne by lia.
Qed.

Lemma load_bytes_pad m s n : load_bytes (pad_loop m s n) s n = replicate n 0.
Proof.
  apply list_eq_same_length with n; rewrite ?load_bytes_length, ?length_replicate; [done..|].
  intros i x y Hi. rewrite load_bytes_lookup, pad_loop_spec by done.
  case_decide; [|lia]. intros [= <-] Hy%lookup_replicate. by destruct Hy.
Qed.

Lemma strncpy_loop_out m s t n x : ¬ (s ≤ x < s + Z.of_nat n) → strncpy_loop m s t n x = m x.
Proof.
  revert m s t. induction n as [|n IH]; intros m s t Hx; cbn [strncpy_loop]; [done|].
  destruct (m t =? 0).
  - rewrite pad_loop_spec. case_decide; [lia|]. by rewrite store8_ne by lia.
  - rewrite IH by lia. by rewrite store8_ne by lia.
Qed.

Lemma strncpy_loop_in m s t n :
  mem_bytes m → s + Z.of_nat n ≤ t ∨ t + Z.of_nat n ≤ s →
  load_bytes (strncpy_loop m s t n) s n =
    until_nul (load_bytes m t n) ++ replicate (n - length (until_nul (load_bytes m t n))) 0.
Proof.
  revert m s t. induction n as [|n IH]; intros m s t Hm Hd; [done|].
  rewrite !load_bytes_cons. cbn [strncpy_loop until_nul].
  destruct (Z.eqb_spec (m t) 0) as [E|E].
  - cbn [length app]. rewrite Nat.sub_0_r. cbn [replicate]. f_equal.
    + rewrite pad_loop_spec. case_decide; [lia|]. rewrite store8_eq, u8_small by apply Hm. done.
    + apply load_bytes_pad.
  - cbn [length app Nat.sub]. f_equal.
    + rewrite strncpy_loop_out by lia. by rewrite store8_eq, u8_small by apply Hm.
    + rewrite IH by (auto with ints; lia).
      assert (load_bytes (store8 m s (m t)) (t + 1) n = load_bytes m (t + 1) n) as ->; [|done].
      apply load_bytes_ext. intros x Hx. by rewrite store8_ne by lia.
Qed.

Lemma safestrcpy_loop_out m s t left x :
  ¬ (s ≤ x ≤ s + Z.of_nat left) → safestrcpy_loop m s t left x = m x.
Proof.
  revert m s t. induction left as [|left IH]; intros m s t Hx; cbn [safestrcpy_loop].
  - by rewrite store8_ne by lia.
  - destruct (m t =? 0); [by rewrite !store8_ne by lia|].
    rewrite IH by lia. by rewrite store8_ne by lia.
Qed.

Lemma safestrcpy_loop_in m s t left :
  mem_bytes m → s + Z.of_nat left < t ∨ t + Z.of_nat left ≤ s →
  let str := until_nul (load_bytes m t left) in
  load_bytes (safestrcpy_loop m s t left) s (S (length str)) = str ++ [0].
Proof.
  revert m s t. induction left as [|left IH]; intros m s t Hm Hd.
  - cbn [until_nul length safestrcpy_loop]. rewrite load_bytes_cons. by rewrite store8_eq.
  - rewrite !load_bytes_cons. cbn [safestrcpy_loop until_nul].
    destruct (Z.eqb_spec (m t) 0) as [E|E].
    + cbn [length app]. rewrite load_bytes_cons.
      rewrite store8_ne, store8_eq, u8_small by (lia || apply Hm). by rewrite E.
    + cbn [length app]. rewrite load_bytes_cons. f_equal.
      * rewrite safestrcpy_loop_out by lia. by rewrite store8_eq, u8_small by apply Hm.
      * assert (He : load_bytes (store8 m s (m t)) (t + 1) left = load_bytes m (t + 1) left).
        { apply load_bytes_ext. intros x Hx. by rewrite store8_ne by lia. }
        rewrite <- He. apply IH; [auto with ints|lia].
Qed.

(** ** strlen *)

Lemma strlen_loop_spec m s n fuel r :
  strlen_loop m s n fuel = Some r ↔
  n ≤ r ≤ n + Z.of_nat fuel ∧ m (s + r) = 0 ∧ ∀ i, n ≤ i < r → m (s + i) ≠ 0.
Proof.
  revert n. induction fuel as [|fuel IH]; intros n; cbn [strlen_loop];
    destruct (Z.eqb_spec (m (s + n)) 0) as [E|E].
  - split; [intros [= <-]; repeat split; lia || done|]. intros (? & ? & ?).
    f_equal. lia.
  - split; [done|]. intros (? & H & ?). assert (r = n) by lia. congruence.
  - split; [intros [= <-]; repeat split; lia || done|]. intros (? & H & Hi).
    f_equal. destruct (decide (n = r)); [done|]. by destruct (Hi n ltac:(lia)).
  - rewrite IH. split.
    + intros (? & ? & Hi). repeat split; [lia..|done|]. intros i Hi'.
      destruct (decide (i = n)) as [->|]; [done|]. apply Hi. lia.
    + intros (? & ? & Hi). assert (r ≠ n) by congruence.
      repeat split; [lia..|done|]. intros i Hi'. apply Hi. lia.
Qed.

(** ** Properties *)

(** memmove() leaves in the destination the bytes the source held before
    the call, and changes nothing else, for every placement of the two
    regions, overlapping in either direction included. *)
Theorem memmove_snapshot m dst src n :
  mem_bytes m → 0 ≤ n →
  load_bytes (memmove m dst src n) dst (Z.to_nat n) = load_bytes m src (Z.to_nat n) ∧
  ∀ x, ¬ (dst ≤ x < dst + n) → memmove m dst src n x = m x.
Proof.
  intros Hm Hn. pose proof (memmove_spec m dst src n Hm Hn) as H. split.
  - rewrite H. rewrite <- (load_bytes_length m src (Z.to_nat n)) at 2. apply load_store_bytes.
  - intros x Hx. rewrite H. apply store_bytes_out. rewrite load_bytes_length. lia.
Qed.

Lemma memmove_snapshot_witness :
  load_bytes (memmove (λ a, u8 a) 12 10 8) 12 8 = [10; 11; 12; 13; 14; 15; 16; 17].
Proof.
  destruct (memmove_snapshot (λ a, u8 a) 12 10 8) as [H _]; [intros x; apply u8_range|lia|].
  exact H.
Defined.

(** strncmp() returns 0 exactly when the two strings, cut at n characters
    or at their NUL, are the same; and otherwise the difference of the first
    characters in which they differ. *)
Theorem strncmp_decides m p q n :
  0 ≤ n →
  let s := until_nul (load_bytes m p (Z.to_nat n)) in
  let t := until_nul (load_bytes m q (Z.to_nat n)) in
  (strncmp m p q n = 0 ↔ s = t) ∧
  (s ≠ t → ∃ i, 0 ≤ i < n ∧ strncmp m p q n = m (p + i) - m (q + i) ∧ m (p + i) ≠ m (q + i) ∧
    ∀ j, 0 ≤ j < i → m (p + j) = m (q + j) ∧ m (p + j) ≠ 0).
Proof.
  intros Hn. unfold strncmp. remember (Z.to_nat n) as k eqn:Hk.
  assert (n = Z.of_nat k) as -> by lia. clear Hn Hk. cbn zeta. split; [apply strncmp_loop_zero|]. rewrite <- strncmp_loop_zero.
  revert p q. induction k as [|k IH]; intros p q; cbn [strncmp_loop]; [done|].
  destruct (Z.eqb_spec (m p) 0) as [E0|E0], (Z.eqb_spec (m p) (m q)) as [E|E]; cbn [negb andb]; intros Hne.
  2,4: exists 0; rewrite !Z.add_0_r; repeat split; lia.
  - lia.
  - destruct (IH (p + 1) (q + 1) Hne) as (i & Hi & Hv & Hd & Hj). exists (i + 1).
    replace (p + (i + 1)) with (p + 1 + i) by lia. replace (q + (i + 1)) with (q + 1 + i) by lia.
    repeat split; [lia..|done|done| |]; destruct (decide (j = 0)) as [->|].
    1,3: by rewrite !Z.add_0_r.
    all: destruct (Hj (j - 1)) as [H1 H2]; [lia|].
    + replace (p + j) with (p + 1 + (j - 1)) by lia. by replace (q + j) with (q + 1 + (j - 1)) by lia.
    + by replace (p + j) with (p + 1 + (j - 1)) by lia.
Qed.

Lemma strncmp_decides_witness :
  let m := store_bytes (store_bytes (λ _, 0) 100 [97; 98; 0; 99]) 200 [97; 98; 0; 100] in
  strncmp m 100 200 4 = 0.
Proof.
  intros m. destruct (strncmp_decides m 100 200 4) as [[_ H] _]; [lia|]. apply H. reflexivity.
Defined.

(** safestrcpy() with n > 0 writes only inside the n bytes of the
    destination and always leaves a NUL-terminated string there: the source
    string, cut after n-1 characters. *)
Theorem safestrcpy_terminates m s t n :
  mem_bytes m → 0 < n → s + n ≤ t ∨ t + n ≤ s →
  let str := until_nul (load_bytes m t (Z.to_nat n - 1)) in
  (length str < Z.to_nat n)%nat ∧
  load_bytes (safestrcpy m s t n) s (S (length str)) = str ++ [0] ∧
  ∀ x, ¬ (s ≤ x < s + n) → safestrcpy m s t n x = m x.
Proof.
  intros Hm Hn Hd str. unfold safestrcpy. destruct (Z.leb_spec n 0); [lia|].
  pose proof (until_nul_length (load_bytes m t (Z.to_nat n - 1))) as Hl.
  rewrite load_bytes_length in Hl. split; [unfold str; lia|]. split.
  - apply safestrcpy_loop_in; [done|lia].
  - intros x Hx. apply safestrcpy_loop_out. lia.
Qed.

Lemma safestrcpy_terminates_witness :
  let m := store_bytes (λ _, 7) 100 [105; 110; 105; 116; 0] in
  load_bytes (safestrcpy m 200 100 4) 200 4 = [105; 110; 105; 0] ∧ safestrcpy m 200 100 4 204 = 7.
Proof.
  intros m. destruct (safestrcpy_terminates m 200 100 4) as (_ & H1 & H2).
  - apply store_bytes_bytes; [repeat constructor; lia|intros x; lia].
  - lia.
  - lia.
  - split; [exact H1|]. rewrite H2 by lia. reflexivity.
Defined.

Lemma until_nul_app s t : Forall (λ c, c ≠ 0) s → until_nul (s ++ 0 :: t) = s.
Proof.
  induction s as [|c s IH]; intros H; [done|]. apply Forall_cons in H as [Hc H]. cbn.
  by rewrite (proj2 (Z.eqb_neq c 0) Hc), IH.
Qed.

Lemma until_nul_all s : Forall (λ c, c ≠ 0) s → until_nul s = s.
Proof.
  induction s as [|c s IH]; intros H; [done|]. apply Forall_cons in H as [Hc H]. cbn.
  by rewrite (proj2 (Z.eqb_neq c 0) Hc), IH.
Qed.
