(* ===== verification/Kalloc.v ===== *)
(** * The physical page allocator: kalloc.c

    Free pages form a list threaded through the pages themselves: the first
    word of a free page is the address of the next one.  [freelist_ok]
    relates the raw memory to the list of free pages; every operation
    preserves it and is described by what it does to that list. *)

From S2P Require Import Prelude KMonad Memory Riscv State Spinlock.

(** What the kernel's C code takes from outside: addresses the linker script
    kernel.ld fixes (where the kernel's text and its data end, the trampoline
    page inside the text, entry points in assembly), what the registers of
    the virtio device read, and what the stack holds in the padding of a
    [struct stat]. *)
Class KernelImage := {
  kend : Z;         (* char end[] *)
  etext : Z;        (* char etext[] *)
  trampoline : Z;   (* char trampoline[] *)
  uservec : Z;      (* in trampoline.S *)
  userret : Z;      (* in trampoline.S *)
  kernelvec : Z;    (* in kernelvec.S *)
  usertrap_addr : Z;  (* the address of usertrap() *)
  forkret_addr : Z;   (* the address of forkret() *)
  mmio_read : gmap Z Z → Z → Z;  (* what a virtio register reads, given those written *)
  stat_padding : Z;
  kend_range : KERNBASE ≤ kend ≤ PHYSTOP;
  etext_range : KERNBASE < etext < kend;
  etext_aligned : page_aligned etext;
  trampoline_aligned : page_aligned trampoline;
  trampoline_range : KERNBASE ≤ trampoline < etext;
}.

Section kalloc.
Context `{KI : KernelImage}.

(** [memset(a, c, n)] on kernel memory; see CString.memset_fill. *)
Definition kmemset (a c n : Z) : M kernel unit :=
  modify (λ k, k <| k_mem ::= λ m, fill m a c n |>).

Definition kfree (pa : Z) : M kernel unit :=
  if negb (pa mod PGSIZE =? 0) || (pa <? kend) || (PHYSTOP <=? pa) then panic "kfree" else
  (* Fill with junk to catch dangling refs. *)
  kmemset pa 1 PGSIZE ;;
  acquire L_kmem ;;
  next ← gets k_freelist;
  modify (λ k, k <| k_mem ::= λ m, store64 m pa next |>) ;;
  modify (λ k, k <| k_freelist := pa |>) ;;
  release L_kmem.

Definition kalloc : M kernel Z :=
  acquire L_kmem ;;
  r ← gets k_freelist;
  when (truthy r) (modify (λ k, k <| k_freelist := load64 (k_mem k) r |>)) ;;
  release L_kmem ;;
  when (truthy r) (kmemset r 5 PGSIZE) ;;    (* fill with junk *)
  mret r.

(** [for(; p + PGSIZE <= pa_end; p += PGSIZE) kfree(p);] *)
Fixpoint freerange_loop (fuel : nat) (p pa_end : Z) : M kernel unit :=
  match fuel with
  | O => λ _ _, OutOfFuel
  | S fuel' =>
      if p + PGSIZE <=? pa_end then kfree p ;; freerange_loop fuel' (p + PGSIZE) pa_end
      else mret tt
  end.

Definition freerange (pa_start pa_end : Z) : M kernel unit :=
  let p := PGROUNDUP pa_start in
  freerange_loop (S (Z.to_nat ((pa_end - p) / PGSIZE))) p pa_end.

Definition kinit : M kernel unit :=
  initlock L_kmem "kmem" ;;
  freerange kend PHYSTOP.

(** ** The free list *)

(** A page the allocator may hand out. *)
Definition page_ok (p : Z) : Prop := page_aligned p ∧ kend ≤ p < PHYSTOP.

#[export] Instance page_ok_dec p : Decision (page_ok p).
Proof. unfold page_ok. apply _. Defined.

Lemma page_ok_pos p : page_ok p → 0 < p < 2 ^ 56 ∧ p + PGSIZE ≤ PHYSTOP.
Proof.
  intros [Ha Hr]. pose proof kend_range. unfold page_aligned, PHYSTOP, KERNBASE, PGSIZE in *.
  pose proof (Z.div_mod p 4096). lia.
Qed.

(** Distinct pages do not overlap. *)
Lemma page_ok_disjoint p q : page_ok p → page_ok q → p ≠ q → p + PGSIZE ≤ q ∨ q + PGSIZE ≤ p.
Proof.
  intros [Ha _] [Hb _] Hne. unfold page_aligned, PGSIZE in *.
  pose proof (Z.div_mod p 4096). pose proof (Z.div_mod q 4096). lia.
Qed.

(** The list of pages reached from [head] by following first words. *)
Fixpoint chain (m : memory) (head : Z) (l : list Z) : Prop :=
  match l with
  | [] => head = 0
  | p :: l' => head = p ∧ chain m (load64 m p) l'
  end.

Record freelist_ok (m : memory) (head : Z) (l : list Z) : Prop := {
  fl_chain : chain m head l;
  fl_nodup : NoDup l;
  fl_pages : Forall page_ok l;
}.

Lemma chain_ext m m' head l :
  (∀ p, p ∈ l → load64 m p = load64 m' p) → chain m head l → chain m' head l.
Proof.
  revert head. induction l as [|p l IH]; intros head He; cbn; [done|].
  intros [-> Hc]. split; [done|]. rewrite <- He by constructor.
  apply IH; [|done]. intros q Hq. apply He. by constructor.
Qed.

(** Writes outside the free pages do not disturb the list. *)
Lemma freelist_frame m m' head l :
  (∀ p x, p ∈ l → p ≤ x < p + PGSIZE → m' x = m x) →
  freelist_ok m head l → freelist_ok m' head l.
Proof.
  intros He [Hc Hn Hp]. split; [|done..]. eapply chain_ext; [|done].
  intros p Hin. unfold load64. f_equal. apply load_bytes_ext. intros x Hx.
  symmetry. apply (He p x Hin). unfold PGSIZE. lia.
Qed.

(** The state of the allocator as a component: its lock is free and the
    executing hart can take it. *)
Definition kmem_ready (k : kernel) : Prop :=
  machine_ok (k_mach k) ∧ lock_free L_kmem (k_mach k).

Lemma kmem_ready_settle k k' :
  kmem_ready k → k_mach k' = settle (k_mach k) → kmem_ready k'.
Proof.
  intros [Hm Hl] He. unfold kmem_ready. rewrite He.
  split; [by apply machine_ok_settle|by apply lock_free_settle].
Qed.

(** ** Running the operations *)

Lemma kfree_run pa ks k :
  page_ok pa → kmem_ready k →
  kfree pa ks k = Ok tt ks
    (k <| k_mem := store64 (fill (k_mem k) pa 1 PGSIZE) pa (k_freelist k) |>
       <| k_freelist := pa |> <| k_mach := settle (k_mach k) |>).
Proof.
  intros [Ha Hr] [Hm Hl]. unfold kfree. unfold page_aligned in Ha.
  rewrite Ha. cbn [Z.eqb negb orb].
  destruct (Z.ltb_spec pa kend), (Z.leb_spec PHYSTOP pa); cbn [orb]; try lia.
  rewrite bind_run. cbn. rewrite bind_run, acquire_run by done. ksteps.
  rewrite release_run; cbn.
  - by rewrite drop_take.
  - by apply machine_ok_take.
  - apply lock_held_take.
  - rewrite noff_take by done. pose proof (mo_noff _ Hm). lia.
Qed.

Lemma kalloc_run ks k :
  kmem_ready k →
  kalloc ks k = Ok (k_freelist k) ks
    (if truthy (k_freelist k)
     then k <| k_mem := fill (k_mem k) (k_freelist k) 5 PGSIZE |>
            <| k_freelist := load64 (k_mem k) (k_freelist k) |>
            <| k_mach := settle (k_mach k) |>
     else k <| k_mach := settle (k_mach k) |>).
Proof.
  intros [Hm Hl]. unfold kalloc. rewrite bind_run, acquire_run by done. ksteps.
  pose proof (mo_noff _ Hm).
  destruct (truthy (k_freelist k)) eqn:E; ksteps; (rewrite release_run; cbn;
    [|by apply machine_ok_take|apply lock_held_take|rewrite noff_take by done; lia]);
    ksteps; by rewrite drop_take.
Qed.

Lemma truthy_page p : page_ok p → truthy p = true.
Proof.
  intros Hp. apply page_ok_pos in Hp. unfold truthy. destruct (Z.eqb_spec p 0); [lia|done].
Qed.

Lemma freelist_push m head l pa :
  freelist_ok m head l → page_ok pa → pa ∉ l →
  freelist_ok (store64 (fill m pa 1 PGSIZE) pa head) pa (pa :: l).
Proof.
  intros [Hc Hn Hp] Hpa Hni.
  assert (Hhead : 0 ≤ head < 2 ^ 64).
  { destruct l as [|q l]; cbn in Hc; [subst; lia|]. destruct Hc as [-> _].
    apply Forall_inv, page_ok_pos in Hp. lia. }
  split; [|by constructor|by constructor]. cbn. split; [done|].
  rewrite load64_store64_same by done. eapply chain_ext; [|done].
  intros q Hq. assert (Hqo : page_ok q) by (by eapply Forall_forall).
  destruct (page_ok_disjoint pa q) as [Hd|Hd]; [done..|congruence| |]; unfold PGSIZE in *.
  all: rewrite load64_store64_other, load64_fill_other by lia; done.
Qed.

Lemma freelist_pop m p l :
  freelist_ok m p (p :: l) → freelist_ok (fill m p 5 PGSIZE) (load64 m p) l.
Proof.
  intros [[_ Hc] Hn Hp]. apply NoDup_cons in Hn as [Hni Hn]. apply Forall_cons in Hp as [Hpp Hp].
  apply freelist_frame with m; [|by split].
  intros q x Hq Hx. assert (Hqo : page_ok q) by (by eapply Forall_forall).
  destruct (page_ok_disjoint p q) as [Hd|Hd]; [done..|congruence| |]; apply fill_out; lia.
Qed.

(** ** Building the list at boot *)

(** The pages freerange() walks over, in order. *)
Definition page_range (p : Z) (n : nat) : list Z := (λ i, p + Z.of_nat i * PGSIZE) <$> seq 0 n.

Lemma page_range_S p n : page_range p (S n) = p :: page_range (p + PGSIZE) n.
Proof.
  unfold page_range. cbn [seq fmap list_fmap]. f_equal; [lia|].
  rewrite <- fmap_S_seq, <- list_fmap_compose. apply list_fmap_ext. intros i x _. cbn. lia.
Qed.

Lemma elem_of_page_range p n x :
  x ∈ page_range p n ↔ ∃ i, (i < n)%nat ∧ x = p + Z.of_nat i * PGSIZE.
Proof.
  unfold page_range. rewrite list_elem_of_fmap. setoid_rewrite elem_of_seq.
  split; intros (i & H1 & H2); exists i; split; lia || done.
Qed.

Definition free_pages (k : kernel) (l : list Z) : Prop := freelist_ok (k_mem k) (k_freelist k) l.

Lemma kfree_push pa ks k l :
  page_ok pa → pa ∉ l → kmem_ready k → free_pages k l →
  ∃ k', kfree pa ks k = Ok tt ks k' ∧ kmem_ready k' ∧ free_pages k' (pa :: l) ∧
    (mem_bytes (k_mem k) → mem_bytes (k_mem k')).
Proof.
  intros Hp Hni Hr Hl. eexists. split; [by apply kfree_run|].
  split; [by apply (kmem_ready_settle k)|]. split; [by apply freelist_push|].
  cbn. auto with ints.
Qed.

Lemma freerange_loop_run n fuel p pa_end ks k l :
  (n < fuel)%nat → pa_end - PGSIZE < p + Z.of_nat n * PGSIZE ≤ pa_end →
  Forall page_ok (page_range p n) → (∀ q, q ∈ page_range p n → q ∉ l) →
  kmem_ready k → free_pages k l →
  ∃ k', freerange_loop fuel p pa_end ks k = Ok tt ks k' ∧ kmem_ready k' ∧
    free_pages k' (reverse (page_range p n) ++ l) ∧
    (mem_bytes (k_mem k) → mem_bytes (k_mem k')).
Proof.
  revert fuel p k l. induction n as [|n IH]; intros fuel p k l Hfuel Hend Hpo Hni Hr Hl.
  - destruct fuel as [|fuel]; [lia|]. cbn [freerange_loop].
    destruct (Z.leb_spec (p + PGSIZE) pa_end); [unfold PGSIZE in *; lia|]. by exists k.
  - destruct fuel as [|fuel]; [lia|]. rewrite page_range_S in *. cbn [freerange_loop].
    apply Forall_cons in Hpo as [Hp Hpo].
    destruct (Z.leb_spec (p + PGSIZE) pa_end); [|unfold PGSIZE in *; lia].
    destruct (kfree_push p ks k l) as (k1 & H1 & Hr1 & Hl1 & Hb1); [done| |done..|].
    { apply Hni. constructor. }
    rewrite (bind_ok _ _ _ _ _ _ _ H1).
    destruct (IH fuel (p + PGSIZE) k1 (p :: l)) as (k2 & H2 & Hr2 & Hl2 & Hb2);
      [lia|unfold PGSIZE in *; lia|done| |done..|].
    { intros q Hq. rewrite not_elem_of_cons. split; [|by apply Hni; constructor].
      apply elem_of_page_range in Hq as (i & _ & ->). unfold PGSIZE. lia. }
    exists k2. split; [done|]. split; [done|]. split; [|auto].
    rewrite reverse_cons, <- (assoc_L app). done.
Qed.

(** The pages between PGROUNDUP(end) and PHYSTOP are those that may be free. *)
Lemma elem_of_ram_pages x :
  x ∈ page_range (PGROUNDUP kend) (Z.to_nat ((PHYSTOP - PGROUNDUP kend) / PGSIZE)) ↔ page_ok x.
Proof.
  pose proof kend_range as Hr.
  assert (H1 : 0 ≤ kend) by (unfold KERNBASE in *; lia).
  assert (H2 : kend + PGSIZE - 1 < 2 ^ 64) by (unfold PHYSTOP, KERNBASE, PGSIZE in *; lia).
  pose proof (PGROUNDUP_bounds kend H1 H2) as Hb. pose proof (PGROUNDUP_aligned kend H1 H2) as Ha.
  rewrite elem_of_page_range. unfold page_ok, page_aligned, PHYSTOP, KERNBASE, PGSIZE in *.
  generalize dependent (PGROUNDUP kend). intros p Hb Ha.
  assert (Hp : p = 4096 * (p / 4096)) by (Z.div_mod_to_equations; lia).
  assert (Hd : (0x80000000 + 128 * 1024 * 1024 - p) / 4096 = 0x88000 - p / 4096)
    by (Z.div_mod_to_equations; lia).
  rewrite Hd. split.
  - intros (i & Hi & ->). split; [|lia]. rewrite Hp, <- Z.mul_comm, <- Z.mul_add_distr_r. apply Z.mod_mul. lia.
  - intros [Hx ?]. exists (Z.to_nat ((x - p) / 4096)).
    assert (x = 4096 * (x / 4096)) by (Z.div_mod_to_equations; lia).
    assert ((x - p) / 4096 = x / 4096 - p / 4096) as -> by (Z.div_mod_to_equations; lia). lia.
Qed.

Lemma kinit_spec ks k :
  machine_ok (k_mach k) → k_freelist k = 0 →
  ∃ k' l, kinit ks k = Ok tt ks k' ∧ free_pages k' l ∧
    (mem_bytes (k_mem k) → mem_bytes (k_mem k')) ∧
    (∀ p, p ∈ l ↔ page_ok p) ∧ kmem_ready k'.
Proof.
  intros Hm Hf. unfold kinit, freerange. rewrite bind_run. cbn [initlock lock_set modify].
  set (k1 := _ <| k_mach ::= _ |>). set (n := Z.to_nat ((PHYSTOP - PGROUNDUP kend) / PGSIZE)).
  pose proof kend_range as Hk. assert (H1 : 0 ≤ kend) by (unfold KERNBASE in *; lia).
  assert (H2 : kend + PGSIZE - 1 < 2 ^ 64) by (unfold PHYSTOP, KERNBASE, PGSIZE in *; lia).
  pose proof (PGROUNDUP_bounds kend H1 H2) as Hb. pose proof (PGROUNDUP_aligned kend H1 H2) as Ha.
  destruct (freerange_loop_run n (S n) (PGROUNDUP kend) PHYSTOP ks k1 []) as (k' & Hrun & Hr & Hl & Hb').
  - lia.
  - subst n. clear k1. unfold page_aligned, PHYSTOP, KERNBASE, PGSIZE in *.
    generalize dependent (PGROUNDUP kend). intros p Hb Ha.
    assert (p ≤ 0x80000000 + 128 * 1024 * 1024) by (Z.div_mod_to_equations; lia).
    rewrite Z2Nat.id by (apply Z.div_pos; lia). Z.div_mod_to_equations. lia.
  - apply Forall_forall. intros x Hx. by apply elem_of_ram_pages.
  - intros q _. apply not_elem_of_nil.
  - split; [destruct Hm; by constructor|]. exists "kmem". cbn. apply lookup_insert_eq.
  - split; [done|constructor..].
  - exists k', (reverse (page_range (PGROUNDUP kend) n) ++ []). split; [done|]. split; [done|].
    split; [done|]. split; [|done]. intros p.
    rewrite app_nil_r, elem_of_reverse. apply elem_of_ram_pages.
Qed.

(** ** Properties *)

(** kalloc() takes the first page off the free list: the page it returns
    is not free any more, is filled with 5s, and nothing outside it changes;
    on an empty list it returns 0 and changes nothing.  Locks and interrupt
    state are restored. *)
Theorem kalloc_takes_first ks k p l :
  kmem_ready k →
  (free_pages k (p :: l) →
     ∃ k', kalloc ks k = Ok p ks k' ∧ page_ok p ∧ (p ∉ l) ∧ free_pages k' l ∧
       load_bytes (k_mem k') p 4096 = replicate 4096 5 ∧
       (∀ x, ¬ (p ≤ x < p + PGSIZE) → k_mem k' x = k_mem k x) ∧
       k_mach k' = settle (k_mach k)) ∧
  (free_pages k [] → kalloc ks k = Ok 0 ks (k <| k_mach := settle (k_mach k) |>)).
Proof.
  intros Hr. split.
  - intros Hl. destruct (Hl) as [[Hh Hc] Hn Hp].
    apply NoDup_cons in Hn as [Hni Hn]. apply Forall_cons in Hp as [Hpp Hp].
    eexists. rewrite kalloc_run by done. rewrite Hh, truthy_page by done.
    split; [done|]. split; [done|]. split; [done|]. cbn.
    split; [apply freelist_pop; unfold free_pages in Hl; by rewrite Hh in Hl|].
    split; [apply load_fill; unfold PGSIZE; lia|].
    split; [|done]. intros x Hx. by apply fill_out.
  - intros [Hc _ _]. cbn in Hc. rewrite kalloc_run by done. by rewrite Hc.
Qed.

(** Kfree() panics on exactly the addresses that are not page-aligned
    pages of free RAM; otherwise the page becomes the first free page, every
    other page keeps its contents, and the list stays free of duplicates. *)
Theorem kfree_frees_page ks k pa l :
  kmem_ready k → free_pages k l → pa ∉ l →
  (¬ page_ok pa → kfree pa ks k = Panic "kfree" k) ∧
  (page_ok pa →
     ∃ k', kfree pa ks k = Ok tt ks k' ∧ free_pages k' (pa :: l) ∧
       (∀ x, ¬ (pa ≤ x < pa + PGSIZE) → k_mem k' x = k_mem k x) ∧
       k_mach k' = settle (k_mach k)).
Proof.
  intros Hr Hl Hni. split.
  - intros Hp. unfold kfree. unfold page_ok, page_aligned in Hp.
    destruct (Z.eqb_spec (pa mod PGSIZE) 0), (Z.ltb_spec pa kend), (Z.leb_spec PHYSTOP pa);
      cbn [negb orb]; try done. destruct Hp. split; [done|lia].
  - intros Hp. eexists. split; [by apply kfree_run|].
    split; [by apply freelist_push|]. split; [|done].
    intros x Hx. cbn. unfold PGSIZE in *. by rewrite store64_out, fill_out by lia.
Qed.

(** After kinit() every page of RAM between the end of the kernel and
    PHYSTOP is on the free list, exactly once, and nothing else is; the loop
    of freerange() terminates without a panic. *)
Theorem kinit_frees_all_ram ks k :
  machine_ok (k_mach k) → k_freelist k = 0 →
  ∃ k' l, kinit ks k = Ok tt ks k' ∧ free_pages k' l ∧ NoDup l ∧
    (∀ p, p ∈ l ↔ page_ok p) ∧ kmem_ready k'.
Proof.
  intros Hm Hf. destruct (kinit_spec ks k Hm Hf) as (k' & l & H1 & Hl & _ & Hp & Hr).
  exists k', l. split_and!; [done|done|apply Hl|apply Hp|apply Hr..].
Qed.

End kalloc.

(** A kernel image whose free memory is the last 16 pages of RAM. *)
Lemma sample_image_facts :
  (KERNBASE ≤ PHYSTOP - 16 * PGSIZE - 100 ≤ PHYSTOP ∧
   KERNBASE < KERNBASE + PGSIZE < PHYSTOP - 16 * PGSIZE - 100) ∧
  page_aligned (KERNBASE + PGSIZE) ∧ page_aligned KERNBASE ∧
  KERNBASE ≤ KERNBASE < KERNBASE + PGSIZE.
Proof.
  unfold page_aligned, PHYSTOP, KERNBASE, PGSIZE.
  repeat split; first [lia|reflexivity].
Qed.

Definition sample_image : KernelImage :=
  let H := sample_image_facts in
  {| kend := PHYSTOP - 16 * PGSIZE - 100; etext := KERNBASE + PGSIZE; trampoline := KERNBASE;
     uservec := KERNBASE; userret := KERNBASE + 156; kernelvec := KERNBASE + 2 * PGSIZE;
     usertrap_addr := KERNBASE + 3 * PGSIZE; forkret_addr := KERNBASE + 4 * PGSIZE;
     mmio_read := λ regs r, default 0 (regs !! r); stat_padding := 0;
     kend_range := proj1 (proj1 H); etext_range := proj2 (proj1 H);
     etext_aligned := proj1 (proj2 H); trampoline_aligned := proj1 (proj2 (proj2 H));
     trampoline_range := proj2 (proj2 (proj2 H)) |}.

Section witnesses.
#[local] Existing Instance sample_image.

(** A kernel at power-on with the allocator's lock initialised. *)
Definition boot_kernel : kernel :=
  zero_kernel <| k_mach ::= λ m, m <| m_locks := {[ L_kmem := Spinlock 0 "kmem" None ]} |> |>.

Lemma boot_ready : kmem_ready boot_kernel.
Proof. split; [constructor; vm_compute; try done; by split|by exists "kmem"]. Qed.

(** The kernel kinit() leaves behind, and its free pages. *)
Definition sample_kernel : kernel :=
  match kinit [] zero_kernel with Ok _ _ k => k | _ => zero_kernel end.

Definition sample_pages : list Z := reverse (page_range (PHYSTOP - 16 * PGSIZE) 16).

Lemma sample_pages_ok : NoDup sample_pages ∧ Forall page_ok sample_pages.
Proof. by_eval. Qed.

Lemma sample_ready : kmem_ready sample_kernel.
Proof. split; [constructor; vm_compute; try done; by split|by exists "kmem"]. Qed.

Lemma sample_free : free_pages sample_kernel sample_pages.
Proof.
  destruct sample_pages_ok. split; [|done|done]. vm_compute. repeat split.
Qed.

Lemma sample_bytes : mem_bytes (k_mem sample_kernel).
Proof.
  destruct (kinit_spec [] zero_kernel) as (k' & l & H & _ & Hb & _).
  - constructor; vm_compute; try done; by split.
  - done.
  - unfold sample_kernel. rewrite H. apply Hb. intros x. cbn. lia.
Qed.

Lemma kinit_frees_all_ram_witness :
  ∃ k' l, kinit [] zero_kernel = Ok tt [] k' ∧ free_pages k' l ∧ PHYSTOP - PGSIZE ∈ l.
Proof.
  destruct (kinit_frees_all_ram [] zero_kernel) as (k' & l & H1 & H2 & _ & H3 & _).
  - constructor; vm_compute; try done; by split.
  - done.
  - exists k', l. split; [done|]. split; [done|]. apply H3. by_eval.
Defined.

Lemma kfree_frees_page_witness :
  ∃ k', kfree (PHYSTOP - PGSIZE) [] boot_kernel = Ok tt [] k' ∧ free_pages k' [PHYSTOP - PGSIZE] ∧
    kfree (PHYSTOP - 1) [] boot_kernel = Panic "kfree" boot_kernel.
Proof.
  assert (Hl : free_pages boot_kernel []) by (split; [done|constructor..]).
  destruct (kfree_frees_page [] boot_kernel (PHYSTOP - PGSIZE) []) as [_ H];
    [apply boot_ready|done|apply not_elem_of_nil|].
  destruct H as (k' & H1 & H2 & _); [by_eval|]. exists k'. split; [done|]. split; [done|].
  apply (kfree_frees_page [] boot_kernel (PHYSTOP - 1) []);
    [apply boot_ready|done|apply not_elem_of_nil|by_eval].
Defined.

Lemma kalloc_takes_first_witness :
  ∃ k', kalloc [] boot_kernel = Ok 0 [] k' ∧ k_mem k' = k_mem boot_kernel.
Proof.
  destruct (kalloc_takes_first [] boot_kernel 0 []) as [_ H]; [apply boot_ready|].
  rewrite H; [by eexists|]. split; [done|constructor..].
Defined.
End witnesses.
