(* ===== verification/Vm.v ===== *)
(** * Page tables: vm.c

    The page-table code over raw memory: entries are 64-bit words of pages
    obtained from the allocator.  This file holds the translation of vm.c up
    to the creation of user page tables, the well-formedness of a page-table
    tree, and what [walk] and [mappages] do to it.  VmUser.v continues with
    user memory, VmCopy.v with the copies between user and kernel. *)

From S2P Require Import Prelude KMonad Memory Riscv State Spinlock Kalloc.

Definition load_pte (a : Z) : M kernel Z := gets (λ k, load64 (k_mem k) a).
Definition store_pte (a v : Z) : M kernel unit :=
  modify (λ k, k <| k_mem ::= λ m, store64 m a v |>).

#[global] Arguments load_pte a ks s /.
#[global] Arguments store_pte a v ks s /.

(** Table pages by path; see below. *)
Abbreviation tree := (gmap (list Z) Z).

Section vm.
Context `{KI : KernelImage}.

(** The loop of walk() from [level] down; [level] = 0 after the loop. *)
Fixpoint walk_from (level : nat) (pagetable va : Z) (alloc : bool) : M kernel Z :=
  let pte := pagetable + 8 * PX (Z.of_nat level) va in
  match level with
  | O => mret pte                       (* &pagetable[PX(0, va)] *)
  | S level' =>
      e ← load_pte pte;
      if truthy (Z.land e PTE_V) then walk_from level' (PTE2PA e) va alloc
      else if negb alloc then mret 0
      else
        page ← kalloc;
        if page =? 0 then mret 0
        else
          kmemset page 0 PGSIZE ;;
          store_pte pte (Z.lor (PA2PTE page) PTE_V) ;;
          walk_from level' page va alloc
  end.

Definition walk (pagetable va : Z) (alloc : bool) : M kernel Z :=
  if MAXVA <=? va then panic "walk" else walk_from 2 pagetable va alloc.

Definition walkaddr (pagetable va : Z) : M kernel Z :=
  if MAXVA <=? va then mret 0 else
  pte ← walk pagetable va false;
  if pte =? 0 then mret 0 else
  e ← load_pte pte;
  if Z.land e PTE_V =? 0 then mret 0 else
  if Z.land e PTE_U =? 0 then mret 0 else
  mret (PTE2PA e).

(** The [for(;;)] of mappages(). *)
Fixpoint mappages_loop (fuel : nat) (pagetable a last pa perm : Z) : M kernel Z :=
  match fuel with
  | O => λ _ _, OutOfFuel
  | S fuel' =>
      pte ← walk pagetable a true;
      if pte =? 0 then mret (-1) else
      e ← load_pte pte;
      if truthy (Z.land e PTE_V) then panic "mappages: remap" else
      store_pte pte (Z.lor (Z.lor (PA2PTE pa) perm) PTE_V) ;;
      if a =? last then mret 0
      else mappages_loop fuel' pagetable (u64 (a + PGSIZE)) last (u64 (pa + PGSIZE)) perm
  end.

Definition mappages (pagetable va size pa perm : Z) : M kernel Z :=
  if negb (va mod PGSIZE =? 0) then panic "mappages: va not aligned" else
  if negb (size mod PGSIZE =? 0) then panic "mappages: size not aligned" else
  if size =? 0 then panic "mappages: size" else
  let last := u64 (va + size - PGSIZE) in
  mappages_loop (Z.to_nat (size / PGSIZE)) pagetable va last pa perm.

Definition kvmmap (kpgtbl va pa sz perm : Z) : M kernel unit :=
  r ← mappages kpgtbl va sz pa perm;
  when (negb (r =? 0)) (panic "kvmmap").

(** proc.c: a page for each process's kernel stack, mapped high in memory. *)
Definition proc_mapstacks (kpgtbl : Z) : M kernel unit :=
  for_each (seq 0 NPROC) (λ i,
    pa ← kalloc;
    if pa =? 0 then panic "kalloc" else
    kvmmap kpgtbl (KSTACK (Z.of_nat i)) pa PGSIZE (Z.lor PTE_R PTE_W)).

Definition kvmmake : M kernel Z :=
  kpgtbl ← kalloc;
  kmemset kpgtbl 0 PGSIZE ;;
  kvmmap kpgtbl UART0 UART0 PGSIZE (Z.lor PTE_R PTE_W) ;;
  kvmmap kpgtbl VIRTIO0 VIRTIO0 PGSIZE (Z.lor PTE_R PTE_W) ;;
  kvmmap kpgtbl PLIC PLIC 0x400000 (Z.lor PTE_R PTE_W) ;;
  kvmmap kpgtbl KERNBASE KERNBASE (etext - KERNBASE) (Z.lor PTE_R PTE_X) ;;
  kvmmap kpgtbl etext etext (PHYSTOP - etext) (Z.lor PTE_R PTE_W) ;;
  kvmmap kpgtbl TRAMPOLINE trampoline PGSIZE (Z.lor PTE_R PTE_X) ;;
  proc_mapstacks kpgtbl ;;
  mret kpgtbl.

Definition kvminit : M kernel unit :=
  kpgtbl ← kvmmake;
  modify (λ k, k <| k_pagetable := kpgtbl |>).

(** The two fences order memory accesses of the hart; memory here is
    sequentially consistent. *)
Definition kvminithart : M kernel unit :=
  kpgtbl ← gets k_pagetable;
  modify (λ k, k <| k_mach ::= λ m, m <| m_hart ::= λ h, h <| r_satp := MAKE_SATP kpgtbl |> |> |>).

(** [for(a = va; a < va + npages*PGSIZE; a += PGSIZE)] *)
Fixpoint uvmunmap_loop (fuel : nat) (pagetable a aend : Z) (do_free : bool) : M kernel unit :=
  match fuel with
  | O => λ _ _, OutOfFuel
  | S fuel' =>
      if a <? aend then
        pte ← walk pagetable a false;
        if pte =? 0 then panic "uvmunmap: walk" else
        e ← load_pte pte;
        if Z.land e PTE_V =? 0 then panic "uvmunmap: not mapped" else
        if PTE_FLAGS e =? PTE_V then panic "uvmunmap: not a leaf" else
        when do_free (kfree (PTE2PA e)) ;;
        store_pte pte 0 ;;
        uvmunmap_loop fuel' pagetable (u64 (a + PGSIZE)) aend do_free
      else mret tt
  end.

Definition uvmunmap (pagetable va npages : Z) (do_free : bool) : M kernel unit :=
  if negb (va mod PGSIZE =? 0) then panic "uvmunmap: not aligned" else
  uvmunmap_loop (S (Z.to_nat npages)) pagetable va (u64 (va + u64 (npages * PGSIZE))) do_free.

Definition uvmcreate : M kernel Z :=
  pagetable ← kalloc;
  if pagetable =? 0 then mret 0 else
  kmemset pagetable 0 PGSIZE ;;
  mret pagetable.

(** [src] is the program's bytes, [sz] = their number. *)
Definition uvmfirst (pagetable : Z) (src : list Z) : M kernel unit :=
  if PGSIZE <=? Z.of_nat (length src) then panic "uvmfirst: more than a page" else
  mem ← kalloc;
  kmemset mem 0 PGSIZE ;;
  r ← mappages pagetable 0 PGSIZE mem (Z.lor (Z.lor (Z.lor PTE_W PTE_R) PTE_X) PTE_U);
  modify (λ k, k <| k_mem ::= λ m, store_bytes m mem src |>).

Definition uvmdealloc (pagetable oldsz newsz : Z) : M kernel Z :=
  if oldsz <=? newsz then mret oldsz else
  when (PGROUNDUP newsz <? PGROUNDUP oldsz)
    (let npages := i32 ((PGROUNDUP oldsz - PGROUNDUP newsz) / PGSIZE) in
     uvmunmap pagetable (PGROUNDUP newsz) (u64 npages) true) ;;
  mret newsz.

(** [for(a = oldsz; a < newsz; a += PGSIZE)], [oldsz] already rounded up. *)
Fixpoint uvmalloc_loop (fuel : nat) (pagetable a oldsz newsz xperm : Z) : M kernel Z :=
  match fuel with
  | O => λ _ _, OutOfFuel
  | S fuel' =>
      if a <? newsz then
        mem ← kalloc;
        if mem =? 0 then uvmdealloc pagetable a oldsz ;; mret 0 else
        kmemset mem 0 PGSIZE ;;
        r ← mappages pagetable a PGSIZE mem (Z.lor (Z.lor PTE_R PTE_U) xperm);
        if negb (r =? 0) then kfree mem ;; uvmdealloc pagetable a oldsz ;; mret 0
        else uvmalloc_loop fuel' pagetable (u64 (a + PGSIZE)) oldsz newsz xperm
      else mret newsz
  end.

Definition uvmalloc (pagetable oldsz newsz xperm : Z) : M kernel Z :=
  if newsz <? oldsz then mret oldsz else
  let oldsz := PGROUNDUP oldsz in
  uvmalloc_loop (S (Z.to_nat ((newsz - oldsz + PGSIZE - 1) / PGSIZE))) pagetable oldsz oldsz newsz xperm.

(** [depth] bounds the recursion: an Sv39 table has three levels. *)
Fixpoint freewalk_at (depth : nat) (pagetable : Z) : M kernel unit :=
  match depth with
  | O => λ _ _, OutOfFuel
  | S depth' =>
      for_each (seq 0 512) (λ i,
        let a := pagetable + 8 * Z.of_nat i in
        pte ← load_pte a;
        if truthy (Z.land pte PTE_V) && (Z.land pte (Z.lor (Z.lor PTE_R PTE_W) PTE_X) =? 0) then
          freewalk_at depth' (PTE2PA pte) ;;
          store_pte a 0
        else when (truthy (Z.land pte PTE_V)) (panic "freewalk: leaf")) ;;
      kfree pagetable
  end.

Definition freewalk (pagetable : Z) : M kernel unit := freewalk_at 3 pagetable.

Definition uvmfree (pagetable sz : Z) : M kernel unit :=
  when (0 <? sz) (uvmunmap pagetable 0 (PGROUNDUP sz / PGSIZE) true) ;;
  freewalk pagetable.

(** [memmove(mem, (char* )pa, PGSIZE)] between two pages; see CString.memmove_spec. *)
Definition copy_page (dst src : Z) : M kernel unit :=
  modify (λ k, k <| k_mem ::= λ m, store_bytes m dst (load_bytes m src 4096) |>).

(** [for(i = 0; i < sz; i += PGSIZE)]; the [err] label is in the two failing branches. *)
Fixpoint uvmcopy_loop (fuel : nat) (old new i sz : Z) : M kernel Z :=
  match fuel with
  | O => λ _ _, OutOfFuel
  | S fuel' =>
      if i <? sz then
        pte ← walk old i false;
        if pte =? 0 then panic "uvmcopy: pte should exist" else
        e ← load_pte pte;
        if Z.land e PTE_V =? 0 then panic "uvmcopy: page not present" else
        let pa := PTE2PA e in
        let flags := PTE_FLAGS e in
        mem ← kalloc;
        if mem =? 0 then uvmunmap new 0 (i / PGSIZE) true ;; mret (-1) else
        copy_page mem pa ;;
        r ← mappages new i PGSIZE mem flags;
        if negb (r =? 0) then kfree mem ;; uvmunmap new 0 (i / PGSIZE) true ;; mret (-1)
        else uvmcopy_loop fuel' old new (u64 (i + PGSIZE)) sz
      else mret 0
  end.

Definition uvmcopy (old new sz : Z) : M kernel Z :=
  uvmcopy_loop (S (Z.to_nat ((sz + PGSIZE - 1) / PGSIZE))) old new 0 sz.

Definition uvmclear (pagetable va : Z) : M kernel unit :=
  pte ← walk pagetable va false;
  if pte =? 0 then panic "uvmclear" else
  e ← load_pte pte;
  store_pte pte (Z.land e (Z.lnot PTE_U)).

(** ** Well-formed page-table trees

    [T] maps the path to each table page (the indices from the root, last
    one first) to its physical address: [[]] is the root, [[i]] the level-1
    page under entry [i] of the root, [[j; i]] a level-0 page. *)
Definition ent (m : memory) (p i : Z) : Z := load64 m (p + 8 * i).

(** The table pages of a tree. *)
Definition tables (T : tree) : list Z := (map_to_list T).*2.

(** The entry that points to an optional next-level table. *)
Definition table_pte (q : option Z) : Z :=
  match q with
  | Some q => Z.lor (PA2PTE q) PTE_V
  | None => 0
  end.

Record pt_wf (m : memory) (pt : Z) (T : tree) : Prop := {
  wf_root : T !! [] = Some pt;
  wf_depth : ∀ path p, T !! path = Some p → (length path ≤ 2)%nat;
  wf_child : ∀ i path q, T !! (i :: path) = Some q → 0 ≤ i < 512 ∧ is_Some (T !! path);
  wf_low : ∀ i q, T !! [i] = Some q → i < 256;      (* addresses stay below MAXVA *)
  wf_page : ∀ path p, T !! path = Some p → page_ok p;
  wf_ent : ∀ path p i, T !! path = Some p → (length path < 2)%nat → 0 ≤ i < 512 →
    ent m p i = table_pte (T !! (i :: path));
}.

(** The level-0 entry for [va]: 0 when no table covers it. *)
Definition leaf (m : memory) (T : tree) (va : Z) : Z :=
  match T !! [PX 1 va; PX 2 va] with
  | Some q => ent m q (PX 0 va)
  | None => 0
  end.

(** [m'] agrees with [m] outside the given pages. *)
Definition pages_frame (pages : list Z) (m m' : memory) : Prop :=
  ∀ x, (∀ p, p ∈ pages → ¬ (p ≤ x < p + PGSIZE)) → m' x = m x.

(** A page table and the allocator together: [l] are the free pages. *)
Record vm_ok (k : kernel) (pt : Z) (T : tree) (l : list Z) : Prop := {
  vm_ready : kmem_ready k;
  vm_bytes : mem_bytes (k_mem k);
  vm_free : free_pages k l;
  vm_wf : pt_wf (k_mem k) pt T;
  vm_nodup : NoDup (tables T ++ l);
}.

(** Allocator and page-table code change only memory, the free list, and
    [c->intena] through push_off(). *)
Definition settles (m m' : machine) : Prop := m' = m ∨ m' = settle m.

Definition vm_frame (k k' : kernel) : Prop :=
  settles (k_mach k) (k_mach k') ∧
  k' = k <| k_mem := k_mem k' |> <| k_freelist := k_freelist k' |> <| k_mach := k_mach k' |>.

Lemma settles_trans m1 m2 m3 :
  machine_ok m1 → settles m1 m2 → settles m2 m3 → settles m1 m3.
Proof.
  intros Hm [->| ->] [->| ->]; unfold settles; auto.
  right. by rewrite settle_settle.
Qed.

Lemma vm_frame_refl k : vm_frame k k.
Proof. split; [by left|by destruct k]. Qed.

Lemma vm_frame_trans k1 k2 k3 :
  kmem_ready k1 → vm_frame k1 k2 → vm_frame k2 k3 → vm_frame k1 k3.
Proof.
  intros [Hm _] [Hs12 H12] [Hs23 H23]. split; [by eapply settles_trans|].
  rewrite H23, H12. by destruct k1.
Qed.

Lemma kmem_ready_settles k k' :
  kmem_ready k → settles (k_mach k) (k_mach k') → kmem_ready k'.
Proof.
  intros Hr [He|He]; [|by eapply kmem_ready_settle].
  unfold kmem_ready in *. by rewrite He.
Qed.

Lemma pages_frame_refl ps m : pages_frame ps m m.
Proof. done. Qed.

Lemma pages_frame_trans ps m1 m2 m3 :
  pages_frame ps m1 m2 → pages_frame ps m2 m3 → pages_frame ps m1 m3.
Proof. intros H12 H23 x Hx. by rewrite H23, H12. Qed.

Lemma pages_frame_mono ps qs m m' : ps ⊆ qs → pages_frame ps m m' → pages_frame qs m m'.
Proof. intros Hs Hf x Hx. apply Hf. intros p Hp. apply Hx. by apply Hs. Qed.

Lemma pages_frame_fill ps m p c : p ∈ ps → pages_frame ps m (fill m p c PGSIZE).
Proof. intros Hp x Hx. apply fill_out. by apply Hx. Qed.

Lemma pages_frame_store64 ps m p i v :
  p ∈ ps → 0 ≤ i < 512 → pages_frame ps m (store64 m (p + 8 * i) v).
Proof.
  intros Hp Hi x Hx. apply store64_out. specialize (Hx p Hp). unfold PGSIZE in Hx. lia.
Qed.

(** A page outside the frame keeps its contents. *)
Lemma pages_frame_page ps m m' p x :
  pages_frame ps m m' → Forall page_ok ps → page_ok p → p ∉ ps →
  p ≤ x < p + PGSIZE → m' x = m x.
Proof.
  intros Hf Hps Hp Hni Hx. apply Hf. intros q Hq.
  rewrite Forall_forall in Hps.
  destruct (page_ok_disjoint p q) as [|]; [done|by apply Hps|congruence|lia..].
Qed.

Lemma load_bytes_frame ps m m' p :
  pages_frame ps m m' → Forall page_ok ps → page_ok p → p ∉ ps →
  load_bytes m' p 4096 = load_bytes m p 4096.
Proof.
  intros Hf Hps Hp Hni. apply load_bytes_ext. intros x Hx.
  eapply pages_frame_page; [done..|]. unfold PGSIZE. lia.
Qed.

Lemma ent_ext m m' p i :
  (∀ x, p ≤ x < p + PGSIZE → m' x = m x) → 0 ≤ i < 512 → ent m' p i = ent m p i.
Proof.
  intros He Hi. unfold ent, load64. f_equal. apply load_bytes_ext. intros x Hx.
  apply He. unfold PGSIZE. lia.
Qed.

Lemma ent_store_same m p i v : 0 ≤ v < 2 ^ 64 → ent (store64 m (p + 8 * i) v) p i = v.
Proof. apply load64_store64_same. Qed.

Lemma ent_store_other m p q i j v :
  page_ok p → page_ok q → 0 ≤ i < 512 → 0 ≤ j < 512 → (p, i) ≠ (q, j) →
  ent (store64 m (p + 8 * i) v) q j = ent m q j.
Proof.
  intros Hp Hq Hi Hj Hne. unfold ent. apply load64_store64_other.
  destruct (decide (p = q)) as [->|Hpq].
  - assert (i ≠ j) by congruence. lia.
  - destruct (page_ok_disjoint p q Hp Hq Hpq); unfold PGSIZE in *; lia.
Qed.

Lemma elem_of_tables T p : p ∈ tables T ↔ ∃ path, T !! path = Some p.
Proof.
  unfold tables. rewrite list_elem_of_fmap. split.
  - intros ([path q] & -> & H%elem_of_map_to_list). by exists path.
  - intros [path H]. exists (path, p). by rewrite elem_of_map_to_list.
Qed.

Lemma tables_insert T path p : T !! path = None → tables (<[path := p]> T) ≡ₚ p :: tables T.
Proof. intros H. unfold tables. by rewrite map_to_list_insert. Qed.

Lemma tables_inj T path1 path2 p :
  NoDup (tables T) → T !! path1 = Some p → T !! path2 = Some p → path1 = path2.
Proof.
  intros Hn H1 H2. destruct (decide (path1 = path2)) as [|Hne]; [done|exfalso].
  assert (Hp : tables T ≡ₚ p :: p :: tables (delete path1 (delete path2 T))).
  { rewrite <- (insert_id T path2 p), <- (insert_delete_eq T path2 p) at 1 by done.
    rewrite tables_insert by apply lookup_delete_eq. f_equiv.
    rewrite <- (insert_id (delete path2 T) path1 p) at 1 by (by rewrite lookup_delete_ne).
    rewrite <- insert_delete_eq. by rewrite tables_insert by apply lookup_delete_eq. }
  rewrite Hp in Hn. apply NoDup_cons in Hn as [Hn _]. apply Hn. constructor.
Qed.

(** ** Entries that point to tables *)

Lemma PTE_V_1 : PTE_V = 1.
Proof. reflexivity. Qed.

Lemma page_ok_pa p : page_ok p → 0 ≤ p < 2 ^ 56 ∧ page_aligned p.
Proof. intros Hp. pose proof (page_ok_pos p Hp). split; [lia|apply Hp]. Qed.

Lemma table_pte_pa q : page_ok q → PTE2PA (table_pte (Some q)) = q.
Proof. intros [H1 H2]%page_ok_pa. apply PTE2PA_PA2PTE; [done..|rewrite PTE_V_1; lia]. Qed.

Lemma table_pte_range q : from_option page_ok True q → 0 ≤ table_pte q < 2 ^ 64.
Proof.
  destruct q as [q|]; cbn; [|lia]. intros [H1 H2]%page_ok_pa.
  apply PA2PTE_lor_range; [done..|rewrite PTE_V_1; lia].
Qed.

Lemma lor_V_valid x : truthy (Z.land (Z.lor x PTE_V) PTE_V) = true.
Proof.
  unfold truthy. rewrite Z.land_lor_distr_l, Z.land_diag.
  destruct (Z.eqb_spec (Z.lor (Z.land x PTE_V) PTE_V) 0) as [E|]; [|done].
  by apply Z.lor_eq_0_iff in E as [_ E].
Qed.

(** ** Growing the tree *)

(** Hanging a fresh zeroed page [q] under entry [i] of [p]. *)
Lemma pt_wf_add m m' pt T path p i q :
  pt_wf m pt T → NoDup (q :: tables T) → page_ok q →
  T !! path = Some p → (length path < 2)%nat → 0 ≤ i < 512 → (path = [] → i < 256) →
  T !! (i :: path) = None →
  ent m' p i = table_pte (Some q) →
  (∀ r j, r ∈ tables T → 0 ≤ j < 512 → (p, i) ≠ (r, j) → ent m' r j = ent m r j) →
  (∀ j, 0 ≤ j < 512 → ent m' q j = 0) →
  pt_wf m' pt (<[i :: path := q]> T) ∧
  ∀ va, leaf m' (<[i :: path := q]> T) va = leaf m T va.
Proof.
  intros Hwf [Hq Hn]%NoDup_cons Hqo Hp Hlen Hi Hlow Hnone Hpi Hother Hzero.
  assert (Hnochild : ∀ j, T !! (j :: i :: path) = None).
  { intros j. apply eq_None_not_Some. intros [r Hr]. apply (wf_child _ _ _ Hwf) in Hr as [_ Hr].
    rewrite Hnone in Hr. by destruct Hr. }
  split; [split|].
  - rewrite lookup_insert_ne by done. apply Hwf.
  - intros path' p' [[<- <-]|[_ H]]%lookup_insert_Some; [cbn; lia|by apply (wf_depth _ _ _ Hwf) in H].
  - intros j path' r [[[= <- <-] <-]|[Hne H]]%lookup_insert_Some.
    + split; [done|]. rewrite lookup_insert_ne by (intros E%(f_equal length); cbn in E; lia). eauto.
    + apply (wf_child _ _ _ Hwf) in H as [Hj Hpa]. split; [done|].
      rewrite lookup_insert. case_decide; eauto.
  - intros j r [[[= -> ->] _]|[_ H]]%lookup_insert_Some; [by apply Hlow|by eapply wf_low].
  - intros path' p' [[_ <-]|[_ H]]%lookup_insert_Some; [done|by eapply wf_page].
  - intros path' p' j [[<- <-]|[Hne H]]%lookup_insert_Some Hl Hj.
    + rewrite lookup_insert_ne by (intros E%(f_equal length); cbn in E; lia).
      rewrite Hnochild. by apply Hzero.
    + destruct (decide (i :: path = j :: path')) as [[= -> ->]|Hd].
      * rewrite lookup_insert_eq. congruence.
      * rewrite lookup_insert_ne by done. rewrite <- (wf_ent _ _ _ Hwf path' p') by done.
        apply Hother; [apply elem_of_tables; eauto|done|].
        intros [= <- <-]. apply Hd. f_equal. apply (tables_inj T path path' p Hn Hp H).
  - intros va. unfold leaf. destruct (decide (i :: path = [PX 1 va; PX 2 va])) as [E|E].
    + rewrite E, lookup_insert_eq, Hzero by (apply PX_range; lia).
      rewrite <- E. by rewrite Hnone.
    + rewrite lookup_insert_ne by done. destruct (T !! [PX 1 va; PX 2 va]) as [r|] eqn:Hr; [|done].
      apply Hother; [apply elem_of_tables; eauto|apply PX_range; lia|].
      intros [= <- _]. assert (path = [PX 1 va; PX 2 va]) as -> by apply (tables_inj T _ _ p Hn Hp Hr).
      cbn in Hlen. lia.
Qed.

(** One state of (kernel, tree, free pages) evolves into another: no page is
    lost or duplicated, and only table and free pages were written. *)
Record vm_step (pt : Z) (k : kernel) (T : tree) (l : list Z) (k' : kernel) (T' : tree) (l' : list Z)
    : Prop := {
  vs_ok : vm_ok k' pt T' l';
  vs_pages : tables T' ++ l' ≡ₚ tables T ++ l;
  vs_mem : pages_frame (tables T ++ l) (k_mem k) (k_mem k');
  vs_tree : T ⊆ T';
  vs_kern : vm_frame k k';
}.

Lemma vm_step_refl pt k T l : vm_ok k pt T l → vm_step pt k T l k T l.
Proof. intros H. split; [done|done|done|done|apply vm_frame_refl]. Qed.

Lemma vm_step_trans pt k1 T1 l1 k2 T2 l2 k3 T3 l3 :
  kmem_ready k1 →
  vm_step pt k1 T1 l1 k2 T2 l2 → vm_step pt k2 T2 l2 k3 T3 l3 → vm_step pt k1 T1 l1 k3 T3 l3.
Proof.
  intros Hr [H1 P1 M1 S1 F1] [H2 P2 M2 S2 F2]. split; [done| | | |].
  - by rewrite P2.
  - eapply pages_frame_trans; [done|]. eapply pages_frame_mono; [|done]. by rewrite P1.
  - by etrans.
  - by eapply vm_frame_trans.
Qed.

(** The allocation branch of walk(): a fresh table is hung into the tree. *)
Lemma walk_hang pt k T q l path p i :
  vm_ok k pt T (q :: l) →
  T !! path = Some p → (length path < 2)%nat → 0 ≤ i < 512 → (path = [] → i < 256) →
  T !! (i :: path) = None →
  let m := store64 (fill (fill (k_mem k) q 5 PGSIZE) q 0 PGSIZE) (p + 8 * i)
             (Z.lor (PA2PTE q) PTE_V) in
  let k' := k <| k_mem := m |> <| k_freelist := load64 (k_mem k) q |>
              <| k_mach := settle (k_mach k) |> in
  vm_step pt k T (q :: l) k' (<[i :: path := q]> T) l ∧
  ∀ va, leaf m (<[i :: path := q]> T) va = leaf (k_mem k) T va.
Proof.
  intros [Hr Hb Hf Hwf Hn] Hp Hlen Hi Hlow Hnone m k'.
  assert (Hperm : tables T ++ q :: l ≡ₚ q :: tables T ++ l) by (by rewrite Permutation_middle).
  assert (Hq : page_ok q) by (by eapply Forall_inv, fl_pages).
  assert (Hpo : page_ok p) by (by eapply wf_page).
  pose proof Hn as Hn'. rewrite Hperm in Hn'. apply NoDup_cons in Hn' as [Hqn Hn'].
  rewrite elem_of_app in Hqn.
  assert (Hframe : pages_frame (tables T ++ q :: l) (k_mem k) m).
  { eapply pages_frame_trans; [apply (pages_frame_fill _ _ q 5)|]; [rewrite Hperm; constructor|].
    eapply pages_frame_trans; [apply (pages_frame_fill _ _ q 0)|]; [rewrite Hperm; constructor|].
    apply pages_frame_store64; [|done]. apply elem_of_app. left. apply elem_of_tables. eauto. }
  assert (Hpq : p ≠ q). { intros ->. apply Hqn. left. apply elem_of_tables. eauto. }
  destruct (pt_wf_add (k_mem k) m pt T path p i q) as [Hwf' Hleaf]; try done.
  - apply NoDup_cons. split; [tauto|]. by apply NoDup_app in Hn' as [? _].
  - apply ent_store_same, (table_pte_range (Some q)). done.
  - intros r j Hrt Hj Hne. pose proof Hrt as [path' Hr']%elem_of_tables.
    assert (page_ok r) by (by eapply wf_page).
    unfold m. rewrite ent_store_other by done.
    apply ent_ext; [|done]. intros x Hx.
    assert (r ≠ q) by (intros ->; tauto).
    destruct (page_ok_disjoint r q); [done..| |]; rewrite !fill_out; lia || done.
  - intros j Hj. unfold m. rewrite ent_store_other by (done || congruence).
    unfold ent. unfold PGSIZE. apply load64_fill_zero; lia.
  - split; [|done]. split.
    + split; [|unfold k', m; cbn; auto with ints|..|done|].
      * by apply (kmem_ready_settle k).
      * unfold free_pages, k', m; cbn. apply freelist_frame with (fill (k_mem k) q 5 PGSIZE).
        -- intros r x Hrl Hx.
           assert (page_ok r) by (eapply Forall_forall; [eapply fl_pages, Hf|by constructor]).
           assert (r ≠ q) by (intros ->; tauto).
           assert (r ≠ p).
           { intros ->. apply NoDup_app in Hn' as (_ & Hd & _). apply (Hd p); [|done].
             apply elem_of_tables. eauto. }
           destruct (page_ok_disjoint r p), (page_ok_disjoint r q); try done; unfold PGSIZE in *.
           all: rewrite store64_out, fill_out by lia; done.
        -- apply freelist_pop. pose proof (fl_chain _ _ _ Hf) as [Hh _].
           unfold free_pages in Hf. by rewrite Hh in Hf.
      * rewrite tables_insert by done. cbn. apply NoDup_cons. rewrite elem_of_app. done.
    + by rewrite tables_insert.
    + done.
    + by apply insert_subseteq.
    + split; [by right|done].
Qed.

(** ** What walk() returns *)

(** The path to the level-0 table, from a table at [level]. *)
Fixpoint below (level : nat) (va : Z) (path : list Z) : list Z :=
  match level with
  | O => path
  | S level' => below level' va (PX (Z.of_nat level) va :: path)
  end.

Definition pte_addr (T : tree) (va : Z) : Z :=
  match T !! [PX 1 va; PX 2 va] with
  | Some q => q + 8 * PX 0 va
  | None => 0
  end.

Lemma below_none T level va path m pt :
  pt_wf m pt T → T !! path = None → T !! below level va path = None.
Proof.
  intros Hwf. revert path. induction level as [|level IH]; intros path Hp; [done|].
  cbn [below]. apply IH. apply eq_None_not_Some. intros [q Hq].
  apply (wf_child _ _ _ Hwf) in Hq as [_ [r Hr]]. congruence.
Qed.

Lemma walk_from_lookup level path p va pt T ks k :
  pt_wf (k_mem k) pt T → T !! path = Some p → (level + length path = 2)%nat →
  walk_from level p va false ks k =
    Ok (match T !! below level va path with Some q => q + 8 * PX 0 va | None => 0 end) ks k.
Proof.
  intros Hwf. revert path p. induction level as [|level IH]; intros path p Hp Hl.
  { cbn [below walk_from]. by rewrite Hp. }
  cbn [below walk_from]. rewrite bind_run. cbn [load_pte gets].
  change (load64 _ _) with (ent (k_mem k) p (PX (Z.of_nat (S level)) va)).
  rewrite (wf_ent _ _ _ Hwf path p) by (done || lia || apply PX_range; lia).
  destruct (T !! (PX (Z.of_nat (S level)) va :: path)) as [q|] eqn:Hq.
  - cbn [table_pte]. rewrite lor_V_valid.
    change (Z.lor (PA2PTE q) PTE_V) with (table_pte (Some q)).
    rewrite table_pte_pa by (by eapply wf_page). apply IH; [done|cbn; lia].
  - cbn. by rewrite (below_none T level va _ _ _ Hwf Hq).
Qed.

Lemma walk_lookup va pt T ks k :
  pt_wf (k_mem k) pt T → 0 ≤ va < MAXVA → walk pt va false ks k = Ok (pte_addr T va) ks k.
Proof.
  intros Hwf Hva. unfold walk. destruct (Z.leb_spec MAXVA va); [lia|].
  apply (walk_from_lookup 2 [] pt va pt T); [done|apply Hwf|done].
Qed.

Lemma pte_addr_none m pt T va : pt_wf m pt T → pte_addr T va = 0 → leaf m T va = 0.
Proof.
  intros Hwf. unfold pte_addr, leaf. destruct (T !! _) as [q|] eqn:Hq; [|done].
  apply (wf_page _ _ _ Hwf), page_ok_pos in Hq. pose proof (PX_range 0 va). lia.
Qed.

Lemma pte_addr_some m pt T va :
  pt_wf m pt T → pte_addr T va ≠ 0 →
  ∃ q, T !! [PX 1 va; PX 2 va] = Some q ∧ pte_addr T va = q + 8 * PX 0 va ∧
    load64 m (pte_addr T va) = leaf m T va.
Proof.
  intros Hwf. unfold pte_addr, leaf. destruct (T !! _) as [q|] eqn:Hq; [|done].
  intros _. by exists q.
Qed.

Lemma walk_from_alloc level path p va pt T l ks k :
  vm_ok k pt T l → T !! path = Some p → (level + length path = 2)%nat → 0 ≤ va < MAXVA →
  ∃ r k' T' l', walk_from level p va true ks k = Ok r ks k' ∧
    vm_step pt k T l k' T' l' ∧ (∀ va', leaf (k_mem k') T' va' = leaf (k_mem k) T va') ∧
    (r = 0 ∧ l' = [] ∧ T' !! below level va path = None ∨
     ∃ q, T' !! below level va path = Some q ∧ r = q + 8 * PX 0 va).
Proof.
  revert path p T l k. induction level as [|level IH]; intros path p T l k Hok Hp Hl Hva.
  { exists (p + 8 * PX 0 va), k, T, l. split; [done|]. split; [by apply vm_step_refl|].
    split; [done|]. right. by exists p. }
  pose proof (vm_wf _ _ _ _ Hok) as Hwf.
  assert (Hi : 0 ≤ PX (Z.of_nat (S level)) va < 512) by (apply PX_range; lia).
  assert (Hlow : path = [] → PX (Z.of_nat (S level)) va < 256).
  { intros ->. cbn in Hl. replace (S level) with 2%nat by lia. by apply PX_low. }
  cbn [below walk_from]. rewrite bind_run. cbn [load_pte gets].
  change (load64 _ _) with (ent (k_mem k) p (PX (Z.of_nat (S level)) va)).
  rewrite (wf_ent _ _ _ Hwf path p) by (done || lia).
  generalize dependent (PX (Z.of_nat (S level)) va). intros i Hi Hlow.
  destruct (T !! (i :: path)) as [q|] eqn:Hq.
  - cbn [table_pte]. rewrite lor_V_valid.
    change (Z.lor (PA2PTE q) PTE_V) with (table_pte (Some q)).
    rewrite table_pte_pa by (by eapply wf_page). apply IH; [done|done|cbn; lia|done].
  - cbn [table_pte]. change (truthy (Z.land 0 PTE_V)) with false. cbn [negb].
    rewrite bind_run, kalloc_run by apply Hok.
    destruct l as [|q l].
    + pose proof (fl_chain _ _ _ (vm_free _ _ _ _ Hok)) as Hh. cbn in Hh. rewrite Hh. cbn.
      eexists 0, _, T, []. split; [done|]. split; [|split; [done|left]].
      * split; [|done|done|done|split; [by right|done]].
        destruct Hok as [H1 H2 H3 H4 H5]. split; [by apply (kmem_ready_settle k)|done|done|done|done].
      * split; [done|]. split; [done|]. by apply (below_none _ _ _ _ _ _ Hwf).
    + pose proof (fl_chain _ _ _ (vm_free _ _ _ _ Hok)) as [Hh _]. rewrite Hh.
      assert (Hqo : page_ok q) by (eapply Forall_inv, fl_pages, Hok).
      rewrite truthy_page by done. pose proof (page_ok_pos q Hqo).
      destruct (Z.eqb_spec q 0); [lia|]. ksteps.
      destruct (walk_hang pt k T q l path p i) as [Hst Hlf]; [done|done|lia|done|done|done|].
      cbn in Hst.
      destruct (IH (i :: path) q _ l _ (vs_ok _ _ _ _ _ _ _ Hst)) as (r & k' & T' & l' & H1 & H2 & H3 & H4);
        [apply lookup_insert_eq|cbn; lia|done|].
      exists r, k', T', l'. split; [exact H1|]. split; [by eapply vm_step_trans; [apply Hok|..]|].
      split; [|done]. intros va'. rewrite H3. apply Hlf.
Qed.

Lemma walk_alloc va pt T l ks k :
  vm_ok k pt T l → 0 ≤ va < MAXVA →
  ∃ k' T' l', walk pt va true ks k = Ok (pte_addr T' va) ks k' ∧
    vm_step pt k T l k' T' l' ∧ (∀ va', leaf (k_mem k') T' va' = leaf (k_mem k) T va') ∧
    (pte_addr T' va = 0 → l' = []).
Proof.
  intros Hok Hva. unfold walk. destruct (Z.leb_spec MAXVA va); [lia|].
  destruct (walk_from_alloc 2 [] pt va pt T l ks k) as (r & k' & T' & l' & H1 & H2 & H3 & H4);
    [done|apply Hok|done|done|].
  exists k', T', l'. rewrite H1. cbn [below] in H4. unfold pte_addr.
  change (Z.of_nat 2) with 2 in H4. change (Z.of_nat 1) with 1 in H4.
  destruct H4 as [(-> & -> & ->)|(q & Hq & ->)].
  - by split_and!.
  - rewrite Hq. split; [done|]. split; [done|]. split; [done|].
    apply (wf_page _ _ _ (vm_wf _ _ _ _ (vs_ok _ _ _ _ _ _ _ H2))), page_ok_pos in Hq.
    pose proof (PX_range 0 va). lia.
Qed.

(** ** Writing leaves *)

(** Storing [v] through the address walk() returned changes that leaf only. *)
Lemma leaf_store pt k T l va v :
  vm_ok k pt T l → 0 ≤ va < MAXVA → page_aligned va → 0 ≤ v < 2 ^ 64 → pte_addr T va ≠ 0 →
  let m := store64 (k_mem k) (pte_addr T va) v in
  vm_step pt k T l (k <| k_mem := m |>) T l ∧
  ∀ va', 0 ≤ va' < MAXVA → page_aligned va' →
    leaf m T va' = if decide (va' = va) then v else leaf (k_mem k) T va'.
Proof.
  intros [Hr Hb Hf Hwf Hn] Hva Hal Hv Hnz m.
  destruct (pte_addr_some _ _ _ _ Hwf Hnz) as (q & Hq & Ha & _).
  pose proof (PX_range 0 va ltac:(lia)) as Hi.
  assert (Hqt : q ∈ tables T) by (apply elem_of_tables; eauto).
  assert (Hqo : page_ok q) by (by eapply wf_page).
  pose proof Hn as Hn'. apply NoDup_app in Hn' as (HnT & Hd & _).
  unfold m. rewrite Ha. split.
  - split; [|done| |done|split; [by left|done]].
    + split; [done|cbn; auto with ints| | |done].
      * apply freelist_frame with (k_mem k); [|done]. intros p x Hp Hx.
        assert (page_ok p) by (eapply Forall_forall; [eapply fl_pages, Hf|done]).
        assert (p ≠ q) by (intros ->; by apply (Hd q)).
        cbn. destruct (page_ok_disjoint p q); [done..| |]; unfold PGSIZE in *;
          rewrite store64_out by lia; done.
      * destruct Hwf as [W1 W2 W3 WL W4 W5]. split; [done..|]. intros path p i Hp Hl Hii. cbn.
        rewrite <- (W5 path p i) by done. apply ent_store_other; [done|by eapply W4|done|done|].
        intros [= <- _]. assert (path = [PX 1 va; PX 2 va]) as -> by apply (tables_inj T _ _ q HnT Hp Hq).
        cbn in Hl. lia.
    + apply pages_frame_store64; [|done]. apply elem_of_app. by left.
  - intros va' Hva' Hal'. unfold leaf. case_decide as He.
    + subst va'. rewrite Hq. by apply ent_store_same.
    + destruct (T !! [PX 1 va'; PX 2 va']) as [r|] eqn:Hr'; [|done].
      apply ent_store_other; [done|by eapply wf_page|done|apply PX_range; lia|].
      intros [= <- H0]. pose proof (tables_inj T _ _ q HnT Hq Hr') as [= H1 H2].
      by apply He, PX_inj.
Qed.

(** ** mappages() *)

(** The entry mappages() writes. *)
Definition leaf_pte (pa perm : Z) : Z := Z.lor (Z.lor (PA2PTE pa) perm) PTE_V.

Lemma leaf_pte_range pa perm :
  0 ≤ pa < 2 ^ 56 → page_aligned pa → 0 ≤ perm < 1024 → 0 ≤ leaf_pte pa perm < 2 ^ 64.
Proof.
  intros H1 H2 H3. unfold leaf_pte. rewrite <- Z.lor_assoc.
  apply PA2PTE_lor_range; [done..|]. rewrite PTE_V_1.
  split; [apply Z.lor_nonneg; lia|]. apply (Z.log2_lt_cancel _ 1024).
  rewrite Z.log2_lor by lia. change (Z.log2 1024) with 10. change (Z.log2 1) with 0.
  destruct (decide (perm = 0)) as [->|]; [done|].
  assert (Z.log2 perm < 10) by (apply Z.log2_lt_pow2; lia). lia.
Qed.

Lemma u64_page a n : 0 ≤ a → 0 ≤ n → a + n ≤ 2 ^ 56 → u64 (a + n) = a + n.
Proof. intros. apply u64_small. lia. Qed.

(** The first [j] of the pages from [va] on are mapped to consecutive pages
    from [pa] on; every other leaf is as in [m]. *)
Definition maps_range (m : memory) (T : tree) (m' : memory) (T' : tree) (va pa perm : Z) (j : nat) : Prop :=
  ∀ va', 0 ≤ va' < MAXVA → page_aligned va' →
    leaf m' T' va' =
      if decide (va ≤ va' < va + Z.of_nat j * PGSIZE)
      then leaf_pte (pa + (va' - va)) perm else leaf m T va'.

(** [n] pages from [va] on have no entry. *)
Definition unmapped (m : memory) (T : tree) (va : Z) (n : nat) : Prop :=
  ∀ i, (i < n)%nat → leaf m T (va + Z.of_nat i * PGSIZE) = 0.

Lemma page_aligned_add a i : page_aligned a → page_aligned (a + i * PGSIZE).
Proof. unfold page_aligned. intros H. by rewrite Z.mod_add. Qed.

Lemma page_aligned_gap a b : page_aligned a → page_aligned b → a < b → a + PGSIZE ≤ b.
Proof.
  unfold page_aligned, PGSIZE. intros. Z.div_mod_to_equations. lia.
Qed.


(** One turn of the loop up to the test [a == last], then [cont]. *)
Definition map_body (pt va pa perm : Z) (cont : M kernel Z) : M kernel Z :=
  pte ← walk pt va true;
  if pte =? 0 then mret (-1) else
  e ← load_pte pte;
  if truthy (Z.land e PTE_V) then panic "mappages: remap" else
  store_pte pte (leaf_pte pa perm) ;; cont.

Lemma mappages_loop_S n pt a last pa perm :
  mappages_loop (S n) pt a last pa perm =
  map_body pt a pa perm (if a =? last then mret 0
    else mappages_loop n pt (u64 (a + PGSIZE)) last (u64 (pa + PGSIZE)) perm).
Proof. reflexivity. Qed.

(** Either memory runs out, or the page is mapped and the loop goes on. *)
Lemma map_page pt va pa perm ks k T l (cont : M kernel Z) :
  vm_ok k pt T l → page_aligned va → 0 ≤ va < MAXVA →
  page_aligned pa → 0 ≤ pa < 2 ^ 56 → 0 ≤ perm < 1024 → leaf (k_mem k) T va = 0 →
  ∃ k' T' l', vm_step pt k T l k' T' l' ∧
    (map_body pt va pa perm cont ks k = Ok (-1) ks k' ∧ l' = [] ∧
       maps_range (k_mem k) T (k_mem k') T' va pa perm 0 ∨
     map_body pt va pa perm cont ks k = cont ks k' ∧
       maps_range (k_mem k) T (k_mem k') T' va pa perm 1).
Proof.
  intros Hok Hva Hsmall Hpa Hpas Hperm Hz.
  destruct (walk_alloc va pt T l ks k Hok Hsmall) as (k1 & T1 & l1 & H1 & Hst1 & Hlf1 & Hnil).
  unfold map_body. rewrite bind_run, H1. destruct (Z.eqb_spec (pte_addr T1 va) 0) as [E|E].
  { exists k1, T1, l1. split; [done|]. left. split; [done|]. split; [auto|].
    intros va' ? ?. rewrite decide_False by lia. apply Hlf1. }
  destruct (pte_addr_some _ _ _ _ (vm_wf _ _ _ _ (vs_ok _ _ _ _ _ _ _ Hst1)) E) as (q & _ & _ & Hld).
  rewrite bind_run. cbn [load_pte gets]. rewrite Hld, Hlf1, Hz.
  change (truthy (Z.land 0 PTE_V)) with false. cbn iota.
  rewrite bind_run. cbn [store_pte modify].
  destruct (leaf_store pt k1 T1 l1 va (leaf_pte pa perm) (vs_ok _ _ _ _ _ _ _ Hst1)) as [Hst2 Hlf2];
    [done|done|by apply leaf_pte_range|done|].
  eexists _, T1, l1. split; [eapply vm_step_trans; [apply Hok|done|exact Hst2]|].
  right. split; [done|]. intros va' Hva' Hal'. cbn. rewrite Hlf2, Hlf1 by done.
  repeat case_decide; try done; subst; unfold PGSIZE in *; [f_equal; lia|lia|].
  pose proof (page_aligned_gap va va' Hva Hal'). unfold PGSIZE in *. lia.
Qed.

(** Mapping the first page and then [j] more. *)
Lemma maps_range_S m T m1 T1 m2 T2 va pa perm j :
  page_aligned va → maps_range m T m1 T1 va pa perm 1 →
  maps_range m1 T1 m2 T2 (va + PGSIZE) (pa + PGSIZE) perm j →
  maps_range m T m2 T2 va pa perm (S j).
Proof.
  intros Hva H1 H2 va' Hva' Hal'. rewrite H2, H1 by done.
  pose proof (page_aligned_gap va va' Hva Hal') as Hg.
  unfold PGSIZE in *. repeat case_decide; try lia; try done. f_equal. lia.
Qed.

Lemma unmapped_S m T m1 T1 va pa perm n :
  0 ≤ va → va + Z.of_nat (S n) * PGSIZE ≤ MAXVA → page_aligned va →
  unmapped m T va (S n) → maps_range m T m1 T1 va pa perm 1 → unmapped m1 T1 (va + PGSIZE) n.
Proof.
  intros Hva0 Hva1 Hva Hun H1 i Hi.
  assert (0 < PGSIZE) by (unfold PGSIZE; lia).
  replace (va + PGSIZE + Z.of_nat i * PGSIZE) with (va + Z.of_nat (S i) * PGSIZE) by lia.
  rewrite H1, decide_False.
  - apply Hun. lia.
  - unfold PGSIZE in *. lia.
  - unfold PGSIZE in *. lia.
  - by apply page_aligned_add.
Qed.

Lemma mappages_loop_spec n pt va pa perm ks k T l :
  vm_ok k pt T l → page_aligned va → 0 ≤ va → va + Z.of_nat (S n) * PGSIZE ≤ MAXVA →
  page_aligned pa → 0 ≤ pa → pa + Z.of_nat (S n) * PGSIZE ≤ 2 ^ 56 → 0 ≤ perm < 1024 →
  unmapped (k_mem k) T va (S n) →
  ∃ r j k' T' l',
    mappages_loop (S n) pt va (va + Z.of_nat n * PGSIZE) pa perm ks k = Ok r ks k' ∧
    vm_step pt k T l k' T' l' ∧ maps_range (k_mem k) T (k_mem k') T' va pa perm j ∧
    (r = 0 ∧ j = S n ∨ r = -1 ∧ (j ≤ n)%nat ∧ l' = []).
Proof.
  assert (HM : MAXVA = 274877906944) by reflexivity.
  assert (HP : PGSIZE = 4096) by reflexivity.
  revert va pa k T l. induction n as [|n IH];
    intros va pa k T l Hok Hva Hva0 Hend Hpa Hpa0 Hpaend Hperm Hun; rewrite mappages_loop_S;
    (assert (Hz : leaf (k_mem k) T va = 0) by (rewrite <- (Z.add_0_r va); apply (Hun 0%nat); lia));
    set (cont := if _ =? _ then _ else _);
    destruct (map_page pt va pa perm ks k T l cont) as (k1 & T1 & l1 & Hst & [(H1 & -> & Hm)|[H1 Hm]]);
    try done; try lia.
  1,3: exists (-1), 0%nat, k1, T1, []; split_and!; [done..|right; split_and!; lia || done].
  - exists 0, 1%nat, k1, T1, l1. split_and!; [|done|done|by left].
    rewrite H1. unfold cont. by rewrite Z.add_0_r, Z.eqb_refl.
  - destruct (IH (va + PGSIZE) (pa + PGSIZE) k1 T1 l1) as (r & j & k2 & T2 & l2 & H2 & Hst2 & Hm2 & Hr);
      [apply Hst|by apply (page_aligned_add _ 1)|lia|lia|by apply (page_aligned_add _ 1)|lia..| |].
    { by eapply unmapped_S. }
    exists r, (S j), k2, T2, l2. split_and!.
    + rewrite H1. unfold cont. destruct (Z.eqb_spec va (va + Z.of_nat (S n) * PGSIZE)); [lia|].
      rewrite !u64_page by lia.
      by replace (va + Z.of_nat (S n) * PGSIZE) with (va + PGSIZE + Z.of_nat n * PGSIZE) by lia.
    + eapply vm_step_trans; [apply Hok|done..].
    + by eapply maps_range_S.
    + destruct Hr as [[-> ->]|(-> & ? & ->)]; [by left|right; split_and!; lia || done].
Qed.

Lemma mappages_spec n pt va pa perm ks k T l :
  vm_ok k pt T l → page_aligned va → 0 ≤ va → va + Z.of_nat (S n) * PGSIZE ≤ MAXVA →
  page_aligned pa → 0 ≤ pa → pa + Z.of_nat (S n) * PGSIZE ≤ 2 ^ 56 → 0 ≤ perm < 1024 →
  unmapped (k_mem k) T va (S n) →
  ∃ r j k' T' l',
    mappages pt va (Z.of_nat (S n) * PGSIZE) pa perm ks k = Ok r ks k' ∧
    vm_step pt k T l k' T' l' ∧ maps_range (k_mem k) T (k_mem k') T' va pa perm j ∧
    (r = 0 ∧ j = S n ∨ r = -1 ∧ (j ≤ n)%nat ∧ l' = []).
Proof.
  intros Hok Hva Hva0 Hend Hpa Hpa0 Hpaend Hperm Hun.
  assert (HM : MAXVA = 274877906944) by reflexivity.
  unfold mappages. rewrite Z.mod_mul, Z.div_mul by done. unfold page_aligned in Hva. rewrite Hva.
  cbn [Z.eqb negb]. destruct (Z.eqb_spec (Z.of_nat (S n) * PGSIZE) 0); [unfold PGSIZE in *; lia|].
  rewrite Nat2Z.id.
  replace (u64 (va + Z.of_nat (S n) * PGSIZE - PGSIZE)) with (va + Z.of_nat n * PGSIZE)
    by (unfold PGSIZE in *; rewrite u64_small; lia).
  by apply mappages_loop_spec.
Qed.

(** ** Reading leaves *)

(** Tests of flag bits look at the flags only. *)
Lemma land_flags e f : 0 ≤ f < 1024 → Z.land e f = Z.land (PTE_FLAGS e) f.
Proof.
  intros Hf. unfold PTE_FLAGS. rewrite <- Z.land_assoc. f_equal.
  rewrite (Z.land_comm 0x3FF). change 0x3FF with (Z.ones 10). rewrite Z.land_ones by lia.
  by rewrite Z.mod_small.
Qed.

Lemma lor_perm_V perm : 0 ≤ perm < 1024 → 0 ≤ Z.lor perm PTE_V < 1024.
Proof.
  intros H. rewrite PTE_V_1. split; [apply Z.lor_nonneg; lia|].
  apply (Z.log2_lt_cancel _ 1024).
  rewrite Z.log2_lor by lia. change (Z.log2 1024) with 10. change (Z.log2 1) with 0.
  destruct (decide (perm = 0)) as [->|]; [done|].
  assert (Z.log2 perm < 10) by (apply Z.log2_lt_pow2; lia). lia.
Qed.

Lemma leaf_pte_pa pa perm :
  0 ≤ pa < 2 ^ 56 → page_aligned pa → 0 ≤ perm < 1024 → PTE2PA (leaf_pte pa perm) = pa.
Proof.
  intros. unfold leaf_pte. rewrite <- Z.lor_assoc. apply PTE2PA_PA2PTE; [done..|].
  by apply lor_perm_V.
Qed.

Lemma leaf_pte_flags pa perm :
  0 ≤ pa < 2 ^ 56 → page_aligned pa → 0 ≤ perm < 1024 →
  PTE_FLAGS (leaf_pte pa perm) = Z.lor perm PTE_V.
Proof.
  intros. unfold leaf_pte. rewrite <- Z.lor_assoc. apply PTE_FLAGS_PA2PTE; [done..|].
  by apply lor_perm_V.
Qed.

Lemma leaf_pte_valid pa perm : truthy (Z.land (leaf_pte pa perm) PTE_V) = true.
Proof. apply lor_V_valid. Qed.

(** walkaddr() on an entry. *)
Definition user_pa (e : Z) : Z :=
  if (Z.land e PTE_V =? 0) || (Z.land e PTE_U =? 0) then 0 else PTE2PA e.

Lemma walkaddr_run va pt T ks k :
  pt_wf (k_mem k) pt T → 0 ≤ va →
  walkaddr pt va ks k =
    Ok (if decide (va < MAXVA) then user_pa (leaf (k_mem k) T va) else 0) ks k.
Proof.
  intros Hwf Hva. unfold walkaddr. destruct (Z.leb_spec MAXVA va) as [H|H].
  { by rewrite decide_False by lia. }
  rewrite decide_True, bind_run, (walk_lookup va pt T) by (done || lia).
  destruct (Z.eqb_spec (pte_addr T va) 0) as [E|E].
  { by rewrite (pte_addr_none _ _ _ _ Hwf E). }
  destruct (pte_addr_some _ _ _ _ Hwf E) as (q & _ & _ & Hld).
  rewrite bind_run. cbn [load_pte gets]. rewrite Hld. unfold user_pa.
  destruct (_ =? 0), (_ =? 0); done.
Qed.

Lemma walkaddr_low va pt T ks k :
  pt_wf (k_mem k) pt T → 0 ≤ va < MAXVA →
  walkaddr pt va ks k = Ok (user_pa (leaf (k_mem k) T va)) ks k.
Proof. intros Hwf Hva. by rewrite (walkaddr_run va pt T), decide_True by (done || lia). Qed.

Lemma leaf_PGROUNDDOWN m T a : leaf m T (PGROUNDDOWN a) = leaf m T a.
Proof.
  unfold leaf. pose proof (PGROUNDDOWN_bounds a). pose proof (PGROUNDDOWN_aligned a).
  assert (Hp : ∀ level, 0 ≤ level → PX level a = PX level (PGROUNDDOWN a)).
  { intros level Hl. replace a with (PGROUNDDOWN a + (a - PGROUNDDOWN a)) at 1 by lia.
    apply PX_page_offset; [done..|lia]. }
  by rewrite !Hp by lia.
Qed.

(** ** An empty page table *)

Lemma uvmcreate_spec ks k p l :
  kmem_ready k → mem_bytes (k_mem k) → free_pages k (p :: l) →
  ∃ k', uvmcreate ks k = Ok p ks k' ∧ vm_ok k' p {[ [] := p ]} l ∧
    (∀ va, leaf (k_mem k') {[ [] := p ]} va = 0) ∧ vm_frame k k' ∧
    pages_frame [p] (k_mem k) (k_mem k').
Proof.
  intros Hr Hb Hf. pose proof Hf as [[Hh _] Hn Hpo].
  apply NoDup_cons in Hn as [Hni Hn]. apply Forall_cons in Hpo as [Hp Hpo].
  pose proof (page_ok_pos p Hp).
  unfold uvmcreate. rewrite bind_run, kalloc_run by done. rewrite Hh, truthy_page by done.
  destruct (Z.eqb_spec p 0); [lia|]. ksteps. eexists. split; [done|]. split.
  - split; [by apply (kmem_ready_settle k)|cbn; auto with ints| | |].
    + unfold free_pages. cbn. apply freelist_frame with (fill (k_mem k) p 5 PGSIZE).
      * intros q x Hq Hx. apply fill_out. rewrite Forall_forall in Hpo.
        destruct (page_ok_disjoint p q); [done|by apply Hpo|congruence|lia..].
      * apply freelist_pop. unfold free_pages in Hf. by rewrite Hh in Hf.
    + split; cbn.
      * apply lookup_singleton_eq.
      * intros path q [<- _]%lookup_singleton_Some. cbn. lia.
      * by intros i path q [[=] _]%lookup_singleton_Some.
      * by intros i q [[=] _]%lookup_singleton_Some.
      * by intros path q [_ <-]%lookup_singleton_Some.
      * intros path q i [<- <-]%lookup_singleton_Some _ Hi.
        rewrite lookup_singleton_ne by done. unfold ent. apply load64_fill_zero; unfold PGSIZE; lia.
    + unfold tables. rewrite map_to_list_singleton. cbn. by constructor.
  - split; [intros va; unfold leaf; by rewrite lookup_singleton_ne|].
    split; [split; [by right|done]|].
    eapply pages_frame_trans; apply pages_frame_fill; constructor.
Qed.

(** ** Properties *)

(** C31: mappages() refines the insertion of a range into the address map:
    when it returns 0, walkaddr() afterwards translates each address of the
    range to the corresponding physical page if the permissions include
    PTE_U (and to 0 otherwise), and every address outside the range as
    before.  It returns -1 only when the allocator is exhausted.  In both cases the
    table stays well formed and every page is either a table or still free. *)
Theorem mappages_walkaddr n pt va pa perm ks k T l :
  vm_ok k pt T l → page_aligned va → 0 ≤ va → va + Z.of_nat (S n) * PGSIZE ≤ MAXVA →
  page_aligned pa → 0 < pa → pa + Z.of_nat (S n) * PGSIZE ≤ 2 ^ 56 → 0 ≤ perm < 1024 →
  unmapped (k_mem k) T va (S n) →
  ∃ r k' T' l',
    mappages pt va (Z.of_nat (S n) * PGSIZE) pa perm ks k = Ok r ks k' ∧
    vm_ok k' pt T' l' ∧ tables T' ++ l' ≡ₚ tables T ++ l ∧
    (r = 0 ∨ r = -1 ∧ l' = []) ∧
    (r = 0 → ∀ a, 0 ≤ a < MAXVA →
      if decide (va ≤ a < va + Z.of_nat (S n) * PGSIZE)
      then walkaddr pt a ks k' =
             Ok (if Z.land perm PTE_U =? 0 then 0 else pa + (PGROUNDDOWN a - va)) ks k'
      else ∃ r0, walkaddr pt a ks k' = Ok r0 ks k' ∧ walkaddr pt a ks k = Ok r0 ks k).
Proof.
  intros Hok Hva Hva0 Hend Hpa Hpa0 Hpaend Hperm Hun.
  destruct (mappages_spec n pt va pa perm ks k T l) as (r & j & k' & T' & l' & H1 & Hst & Hm & Hr);
    [done || lia..|].
  exists r, k', T', l'. split; [done|]. split; [apply Hst|]. split; [apply Hst|].
  split; [destruct Hr as [[? _]|(? & _ & ?)]; auto|].
  intros ->. destruct Hr as [[_ ->]|[? _]]; [|done]. intros a Ha.
  pose proof (PGROUNDDOWN_bounds a) as Hb. pose proof (PGROUNDDOWN_aligned a) as Hal.
  assert (Ha0 : 0 ≤ PGROUNDDOWN a).
  { rewrite PGROUNDDOWN_spec. unfold PGSIZE. Z.div_mod_to_equations. lia. }
  specialize (Hm (PGROUNDDOWN a) ltac:(lia) Hal). rewrite !leaf_PGROUNDDOWN in Hm.
  assert (Hin : va ≤ PGROUNDDOWN a < va + Z.of_nat (S n) * PGSIZE ↔
                va ≤ a < va + Z.of_nat (S n) * PGSIZE).
  { split; [intros [? Hlt]|].
    - pose proof (page_aligned_gap _ _ Hal (page_aligned_add va (Z.of_nat (S n)) Hva)). lia.
    - intros [? ?]. split; [|lia]. destruct (decide (va ≤ PGROUNDDOWN a)); [done|].
      pose proof (page_aligned_gap (PGROUNDDOWN a) va Hal Hva). lia. }
  rewrite (walkaddr_low a pt T' ks k'), Hm by (apply Hst || lia).
  case_decide as Hc; rewrite Hin in Hc.
  - rewrite decide_True by done. apply Hin in Hc.
    assert (Hpp : 0 ≤ pa + (PGROUNDDOWN a - va) < 2 ^ 56) by lia.
    assert (Hpal : page_aligned (pa + (PGROUNDDOWN a - va))).
    { unfold page_aligned in *. by rewrite Z.add_mod, Zminus_mod, Hpa, Hal, Hva by done. }
    do 2 f_equal. unfold user_pa.
    pose proof (leaf_pte_valid (pa + (PGROUNDDOWN a - va)) perm) as HV. unfold truthy in HV.
    apply negb_true_iff in HV. rewrite HV. cbn [orb].
    rewrite (land_flags _ PTE_U) by (unfold PTE_U; by split).
    rewrite leaf_pte_flags, leaf_pte_pa, Z.land_lor_distr_l by done.
    change (Z.land PTE_V PTE_U) with 0. by rewrite Z.lor_0_r.
  - rewrite decide_False by done. eexists. split; [done|].
    by rewrite (walkaddr_low a pt T) by (apply Hok || lia).
Qed.
End vm.

Section witnesses.
#[local] Existing Instance sample_image.

(** The kernel after uvmcreate(), with 15 pages free. *)
Definition sample_vm : kernel :=
  match uvmcreate [] sample_kernel with Ok _ _ k => k | _ => sample_kernel end.
Definition sample_root : Z := PHYSTOP - PGSIZE.
Definition sample_tree : gmap (list Z) Z := {[ [] := sample_root ]}.
Definition sample_free_pages : list Z := reverse (page_range (PHYSTOP - 16 * PGSIZE) 15).

Lemma sample_vm_ok :
  vm_ok sample_vm sample_root sample_tree sample_free_pages ∧
  ∀ va, leaf (k_mem sample_vm) sample_tree va = 0.
Proof.
  destruct (uvmcreate_spec [] sample_kernel sample_root sample_free_pages)
    as (k' & H1 & H2 & H3 & _).
  - apply sample_ready.
  - apply sample_bytes.
  - exact sample_free.
  - unfold sample_vm. rewrite H1. by split.
Qed.

Lemma mappages_walkaddr_witness :
  ∃ k', mappages sample_root 0x3000 PGSIZE 0x87650000 (Z.lor PTE_R PTE_U) [] sample_vm = Ok 0 [] k' ∧
    walkaddr sample_root 0x3ABC [] k' = Ok 0x87650000 [] k'.
Proof.
  destruct sample_vm_ok as [Hok Hlf].
  destruct (mappages_walkaddr 0 sample_root 0x3000 0x87650000 (Z.lor PTE_R PTE_U) [] sample_vm
    sample_tree sample_free_pages) as (r & k' & T' & l' & H1 & _ & _ & _ & H2);
    [done|by_eval..|intros i _; apply Hlf|].
  assert (Hr : match mappages sample_root 0x3000 PGSIZE 0x87650000 (Z.lor PTE_R PTE_U) [] sample_vm with
    | Ok r _ _ => r | _ => 1 end = 0) by (vm_compute; reflexivity).
  change (Z.of_nat 1 * PGSIZE) with PGSIZE in *.
  rewrite H1 in Hr. subst r. exists k'. split; [exact H1|].
  exact (H2 eq_refl 0x3ABC ltac:(by_eval)).
Defined.
End witnesses.
