(* ===== verification/VmUser.v ===== *)
(** * User address spaces: the uvm* functions of vm.c

    What growing, shrinking, copying and freeing a user address space do to
    its page table, to the physical pages and to the free list: which
    addresses are mapped afterwards, what the pages contain, and that no page
    is lost or owned twice, on the error paths included. *)

From S2P Require Import Prelude KMonad Memory Riscv State Spinlock Kalloc Vm.

Section vmuser.
Context `{KI : KernelImage}.

(** ** Page tables and writes to other pages *)

Lemma pt_wf_frame ps m m' pt T :
  pages_frame ps m m' → Forall page_ok ps → (∀ p, p ∈ ps → p ∉ tables T) → pt_wf m pt T →
  pt_wf m' pt T ∧ ∀ va, leaf m' T va = leaf m T va.
Proof.
  intros Hf Hps Hd Hwf.
  assert (He : ∀ path q i, T !! path = Some q → 0 ≤ i < 512 → ent m' q i = ent m q i).
  { intros path q i Hq Hi. apply ent_ext; [|done]. intros x Hx.
    eapply pages_frame_page; [done|done|by eapply wf_page| |done].
    intros Hin. apply (Hd q Hin). apply elem_of_tables. eauto. }
  split.
  - destruct Hwf as [W1 W2 W3 WL W4 W5]. split; [done..|]. intros path p i Hp Hl Hi.
    rewrite (He path) by done. by apply W5.
  - intros va. unfold leaf. destruct (T !! _) as [q|] eqn:Hq; [|done].
    apply (He _ _ _ Hq), PX_range. lia.
Qed.

Lemma free_pages_ok k l : free_pages k l → Forall page_ok l.
Proof. apply fl_pages. Qed.

Lemma tables_ok m pt T : pt_wf m pt T → Forall page_ok (tables T).
Proof.
  intros Hwf. apply Forall_forall. intros p [path Hp]%elem_of_tables. by eapply wf_page.
Qed.

Lemma vm_all_ok k pt T l : vm_ok k pt T l → Forall page_ok (tables T ++ l).
Proof.
  intros [_ _ Hf Hwf _]. apply Forall_app. split; [by eapply tables_ok|by eapply free_pages_ok].
Qed.

(** Writing pages that are neither tables nor free. *)
Lemma vm_ok_mem ps m' k pt T l :
  vm_ok k pt T l → mem_bytes m' → pages_frame ps (k_mem k) m' → Forall page_ok ps →
  (∀ p, p ∈ ps → p ∉ tables T ++ l) →
  vm_ok (k <| k_mem := m' |>) pt T l ∧ ∀ va, leaf m' T va = leaf (k_mem k) T va.
Proof.
  intros [Hr Hb Hf Hwf Hn] Hb' Hfr Hps Hd.
  destruct (pt_wf_frame ps (k_mem k) m' pt T) as [Hwf' Hlf]; [done..| |done|].
  { intros p Hp Ht. apply (Hd p Hp), elem_of_app. by left. }
  split; [|done]. split; [done|done| |done|done].
  apply freelist_frame with (k_mem k); [|done]. intros p x Hp Hx.
  eapply pages_frame_page; [done|done| | |done].
  - eapply Forall_forall; [by eapply free_pages_ok|done].
  - intros Hin. apply (Hd p Hin), elem_of_app. by right.
Qed.

Lemma kalloc_vm ks k pt T p l :
  vm_ok k pt T (p :: l) →
  ∃ k', kalloc ks k = Ok p ks k' ∧ vm_ok k' pt T l ∧ page_ok p ∧ (p ∉ tables T ++ l) ∧
    (∀ va, leaf (k_mem k') T va = leaf (k_mem k) T va) ∧
    pages_frame [p] (k_mem k) (k_mem k') ∧ vm_frame k k'.
Proof.
  intros [Hr Hb Hf Hwf Hn]. pose proof Hf as [[Hh _] _ Hpo].
  rewrite <- Permutation_middle in Hn. apply NoDup_cons in Hn as [Hni Hn].
  apply Forall_cons in Hpo as [Hp _].
  assert (Hfr : pages_frame [p] (k_mem k) (fill (k_mem k) p 5 PGSIZE))
    by (apply pages_frame_fill; constructor).
  destruct (pt_wf_frame [p] (k_mem k) (fill (k_mem k) p 5 PGSIZE) pt T) as [Hwf' Hlf];
    [done|by constructor| |done|].
  { intros q ->%list_elem_of_singleton Ht. apply Hni, elem_of_app. by left. }
  eexists. rewrite kalloc_run, Hh, truthy_page by done. split; [done|].
  split; [|split_and!; [done..|split; [by right|done]]].
  split; [by apply (kmem_ready_settle k)|cbn; auto with ints| |done|done].
  apply freelist_pop. unfold free_pages in Hf. by rewrite Hh in Hf.
Qed.

Lemma kalloc_vm_none ks k pt T :
  vm_ok k pt T [] →
  ∃ k', kalloc ks k = Ok 0 ks k' ∧ vm_ok k' pt T [] ∧ k_mem k' = k_mem k ∧ vm_frame k k'.
Proof.
  intros [Hr Hb Hf Hwf Hn]. pose proof (fl_chain _ _ _ Hf) as Hh. cbn in Hh.
  eexists. rewrite kalloc_run, Hh by done. split; [done|].
  split; [|split; [done|split; [by right|done]]].
  split; [by apply (kmem_ready_settle k)|done..].
Qed.

Lemma kfree_vm ks k pt T p l :
  vm_ok k pt T l → page_ok p → p ∉ tables T ++ l →
  ∃ k', kfree p ks k = Ok tt ks k' ∧ vm_ok k' pt T (p :: l) ∧
    (∀ va, leaf (k_mem k') T va = leaf (k_mem k) T va) ∧
    pages_frame [p] (k_mem k) (k_mem k') ∧ vm_frame k k'.
Proof.
  intros [Hr Hb Hf Hwf Hn] Hp Hni.
  set (m' := store64 (fill (k_mem k) p 1 PGSIZE) p (k_freelist k)).
  assert (Hfr : pages_frame [p] (k_mem k) m').
  { eapply pages_frame_trans; [apply (pages_frame_fill _ _ p 1); constructor|].
    pose proof (pages_frame_store64 [p] (fill (k_mem k) p 1 PGSIZE) p 0 (k_freelist k)) as Hs.
    replace (p + 8 * 0) with p in Hs by lia. apply Hs; [constructor|lia]. }
  destruct (pt_wf_frame [p] (k_mem k) m' pt T) as [Hwf' Hlf]; [done|by constructor| |done|].
  { intros q ->%list_elem_of_singleton Ht. apply Hni, elem_of_app. by left. }
  eexists. rewrite kfree_run by done. split; [done|].
  split; [|split_and!; [done..|split; [by right|done]]].
  split; [by apply (kmem_ready_settle k)|unfold m'; cbn; auto with ints| |done|].
  - apply freelist_push; [done|done|]. intros Hin. apply Hni, elem_of_app. by right.
  - rewrite <- Permutation_middle. by apply NoDup_cons.
Qed.

(** ** Removing mappings *)

(** The entries of consecutive pages from [va] on. *)
Definition mapped (m : memory) (T : tree) (va : Z) (es : list Z) : Prop :=
  ∀ i e, es !! i = Some e → leaf m T (va + Z.of_nat i * PGSIZE) = e.

(** An entry uvmunmap() accepts. *)
Definition leaf_entry (e : Z) : Prop := Z.land e PTE_V ≠ 0 ∧ PTE_FLAGS e ≠ PTE_V.

(** The leaves of [m'] are those of [m] with [n] pages from [va] on removed. *)
Definition unmaps_range (m : memory) (m' : memory) (T : tree) (va : Z) (n : nat) : Prop :=
  ∀ va', 0 ≤ va' < MAXVA → page_aligned va' →
    leaf m' T va' = if decide (va ≤ va' < va + Z.of_nat n * PGSIZE) then 0 else leaf m T va'.

Lemma mapped_cons m T va e es :
  mapped m T va (e :: es) ↔ leaf m T va = e ∧ mapped m T (va + PGSIZE) es.
Proof.
  split.
  - intros H. split; [rewrite <- (H 0%nat e eq_refl); f_equal; lia|].
    intros i e' Hi. rewrite <- (H (S i) e' Hi). f_equal. lia.
  - intros [H0 H] [|i] e' Hi; cbn in Hi.
    + injection Hi as <-. rewrite <- H0. f_equal. lia.
    + rewrite <- (H i e' Hi). f_equal. lia.
Qed.

(** One turn of the loop removes one mapping. *)
Lemma unmap_page pt a e ks k T l (do_free : bool) :
  vm_ok k pt T l → page_aligned a → 0 ≤ a < MAXVA → leaf (k_mem k) T a = e → leaf_entry e →
  (if do_free then page_ok (PTE2PA e) ∧ PTE2PA e ∉ tables T ++ l else True) →
  let l' := if do_free then PTE2PA e :: l else l in
  ∃ k1 k', walk pt a false ks k = Ok (pte_addr T a) ks k ∧ pte_addr T a ≠ 0 ∧
    load64 (k_mem k) (pte_addr T a) = e ∧
    when do_free (kfree (PTE2PA e)) ks k = Ok tt ks k1 ∧
    k' = k1 <| k_mem ::= λ m, store64 m (pte_addr T a) 0 |> ∧
    vm_ok k' pt T l' ∧ unmaps_range (k_mem k) (k_mem k') T a 1 ∧
    pages_frame ((if do_free then [PTE2PA e] else []) ++ tables T) (k_mem k) (k_mem k') ∧ vm_frame k k'.
Proof.
  intros Hok Hal Ha Hlf [HV HF] Hfree l'. pose proof (vm_wf _ _ _ _ Hok) as Hwf.
  assert (Hnz : pte_addr T a ≠ 0).
  { intros E. apply (pte_addr_none _ _ _ _ Hwf) in E. by rewrite <- Hlf, E in HV. }
  destruct (pte_addr_some _ _ _ _ Hwf Hnz) as (q & Hq & Hqa & Hld).
  assert (∃ k1, when do_free (kfree (PTE2PA e)) ks k = Ok tt ks k1 ∧ vm_ok k1 pt T l' ∧
    (∀ va, leaf (k_mem k1) T va = leaf (k_mem k) T va) ∧
    pages_frame (if do_free then [PTE2PA e] else []) (k_mem k) (k_mem k1) ∧ vm_frame k k1)
    as (k1 & H1 & Hok1 & Hlf1 & Hfr1 & Hk1).
  { destruct do_free; cbn in *.
    - destruct Hfree as [Hp Hni]. by apply kfree_vm.
    - exists k. split_and!; try done. apply vm_frame_refl. }
  destruct (leaf_store pt k1 T l' a 0) as [Hst Hlf2]; [done|done|done|lia|done|].
  eexists k1, _. split; [by apply walk_lookup|]. split; [done|]. split; [congruence|].
  split; [done|]. split; [done|]. split; [apply Hst|]. split; [|split].
  - intros va' Hva' Hal'. cbn. rewrite Hlf2, Hlf1 by done.
    pose proof (page_aligned_gap a va' Hal Hal') as Hg. unfold PGSIZE in *.
    repeat case_decide; try done; lia.
  - eapply pages_frame_trans; [eapply pages_frame_mono; [|exact Hfr1]; set_solver|].
    cbn. rewrite Hqa. apply pages_frame_store64; [|apply PX_range; lia].
    apply elem_of_app. right. apply elem_of_tables. eauto.
  - eapply vm_frame_trans; [apply Hok|exact Hk1|apply Hst].
Qed.

Lemma unmaps_range_S m m1 m2 T a n :
  page_aligned a → unmaps_range m m1 T a 1 → unmaps_range m1 m2 T (a + PGSIZE) n →
  unmaps_range m m2 T a (S n).
Proof.
  intros Ha H1 H2 va' Hva' Hal'. rewrite H2, H1 by done.
  pose proof (page_aligned_gap a va' Ha Hal') as Hg. unfold PGSIZE in *.
  repeat case_decide; try done; lia.
Qed.

Lemma unmaps_mapped m m1 T a es :
  0 ≤ a → a + Z.of_nat (S (length es)) * PGSIZE ≤ MAXVA → page_aligned a →
  unmaps_range m m1 T a 1 → mapped m T (a + PGSIZE) es → mapped m1 T (a + PGSIZE) es.
Proof.
  intros Ha0 Ha Hal H1 Hm i e Hi. pose proof (lookup_lt_Some _ _ _ Hi).
  rewrite H1; unfold PGSIZE in *; [|lia|].
  - rewrite decide_False by lia. by apply Hm.
  - replace (a + 4096 + Z.of_nat i * 4096) with (a + Z.of_nat (S i) * PGSIZE)
      by (unfold PGSIZE; lia). by apply page_aligned_add.
Qed.

Lemma uvmunmap_loop_spec (do_free : bool) es pt a ks k T l :
  vm_ok k pt T l → page_aligned a → 0 ≤ a → a + Z.of_nat (length es) * PGSIZE ≤ MAXVA →
  mapped (k_mem k) T a es → Forall leaf_entry es →
  (if do_free then Forall page_ok (PTE2PA <$> es) ∧ NoDup ((PTE2PA <$> es) ++ tables T ++ l)
   else True) →
  let l' := if do_free then reverse (PTE2PA <$> es) ++ l else l in
  ∃ k', uvmunmap_loop (S (length es)) pt a (a + Z.of_nat (length es) * PGSIZE) do_free ks k
      = Ok tt ks k' ∧
    vm_ok k' pt T l' ∧ unmaps_range (k_mem k) (k_mem k') T a (length es) ∧
    pages_frame ((if do_free then PTE2PA <$> es else []) ++ tables T) (k_mem k) (k_mem k') ∧ vm_frame k k'.
Proof.
  assert (HM : MAXVA = 274877906944) by reflexivity. assert (HP : PGSIZE = 4096) by reflexivity.
  revert a k l. induction es as [|e es IH]; intros a k l Hok Hal Ha0 Hend Hm Hle Hfree l'.
  - exists k. cbn [uvmunmap_loop length]. destruct (Z.ltb_spec a (a + Z.of_nat 0 * PGSIZE)); [lia|].
    split; [done|]. split; [by destruct do_free|].
    split; [intros va' ? ?; by rewrite decide_False by lia|]. split; [done|apply vm_frame_refl].
  - cbn [length] in *. apply mapped_cons in Hm as [He Hm].
    apply Forall_cons in Hle as [Hle1 Hle].
    assert (Hfree1 : if do_free then page_ok (PTE2PA e) ∧ PTE2PA e ∉ tables T ++ l else True).
    { destruct do_free; [|done]. destruct Hfree as [Hpo Hnd]. cbn in Hpo, Hnd.
      apply Forall_cons in Hpo as [? _]. apply NoDup_cons in Hnd as [Hnd _].
      split; [done|]. intros Hin. apply Hnd, elem_of_app. by right. }
    destruct (unmap_page pt a e ks k T l do_free)
      as (k1 & k2 & Hw & Hnz & Hld & Hkf & Hk2 & Hok2 & Hu & Hfr & Hkf2); [done|done|lia|done..|].
    remember (S (length es)) as n eqn:Hn. cbn [uvmunmap_loop].
    destruct (Z.ltb_spec a (a + Z.of_nat n * PGSIZE)); [|lia].
    rewrite bind_run, Hw. destruct (Z.eqb_spec (pte_addr T a) 0); [done|].
    rewrite bind_run. cbn [load_pte gets]. rewrite Hld. destruct Hle1 as [HV HF].
    destruct (Z.eqb_spec (Z.land e PTE_V) 0); [done|]. destruct (Z.eqb_spec (PTE_FLAGS e) PTE_V); [done|].
    rewrite bind_run, Hkf. rewrite bind_run. cbn [store_pte modify]. rewrite <- Hk2.
    destruct (IH (a + PGSIZE) k2 (if do_free then PTE2PA e :: l else l)) as (k3 & H3 & Hok3 & Hu3 & Hfr3 & Hkf3);
      [done|by apply (page_aligned_add _ 1)|lia|lia| |done| |].
    { subst n. by eapply unmaps_mapped. }
    { destruct do_free; [|done]. destruct Hfree as [Hpo Hnd]. cbn in Hpo, Hnd.
      apply Forall_cons in Hpo as [_ ?]. split; [done|]. by rewrite <- !Permutation_middle. }
    exists k3. split; [|split; [|split; [|split]]].
    + rewrite u64_page by lia. subst n.
      by replace (a + Z.of_nat (S (length es)) * PGSIZE)
        with (a + PGSIZE + Z.of_nat (length es) * PGSIZE) by lia.
    + destruct do_free; [|done]. unfold l'. cbn [fmap list_fmap].
      by rewrite reverse_cons, <- (assoc_L app).
    + subst n. by eapply unmaps_range_S.
    + eapply pages_frame_trans; (eapply pages_frame_mono; [|done]); clear; destruct do_free; set_solver.
    + eapply vm_frame_trans; [apply Hok|done..].
Qed.

Lemma uvmunmap_spec (do_free : bool) es pt a ks k T l :
  vm_ok k pt T l → page_aligned a → 0 ≤ a → a + Z.of_nat (length es) * PGSIZE ≤ MAXVA →
  mapped (k_mem k) T a es → Forall leaf_entry es →
  (if do_free then Forall page_ok (PTE2PA <$> es) ∧ NoDup ((PTE2PA <$> es) ++ tables T ++ l)
   else True) →
  let l' := if do_free then reverse (PTE2PA <$> es) ++ l else l in
  ∃ k', uvmunmap pt a (Z.of_nat (length es)) do_free ks k = Ok tt ks k' ∧
    vm_ok k' pt T l' ∧ unmaps_range (k_mem k) (k_mem k') T a (length es) ∧
    pages_frame ((if do_free then PTE2PA <$> es else []) ++ tables T) (k_mem k) (k_mem k') ∧ vm_frame k k'.
Proof.
  intros Hok Hal Ha0 Hend Hm Hle Hfree l'. assert (HM : MAXVA = 274877906944) by reflexivity.
  unfold uvmunmap. unfold page_aligned in Hal. rewrite Hal, Nat2Z.id. cbn [Z.eqb negb].
  rewrite (u64_small (Z.of_nat (length es) * PGSIZE)), u64_small by (unfold PGSIZE in *; lia).
  by apply uvmunmap_loop_spec.
Qed.

(** ** Growing by single pages

    [grown]: since the state [k0], [T0], [l0], pages [ps] with permissions
    [fs] and contents [cs] have been taken from the free list and mapped from
    [base] on; everything else is as it was. *)
Record grown (pt base : Z) (k0 : kernel) (T0 : tree) (l0 : list Z)
    (ps fs : list Z) (cs : list (list Z)) (k : kernel) (T : tree) (l : list Z) : Prop := {
  gr_ok : vm_ok k pt T l;
  gr_pages : ps ++ tables T ++ l ≡ₚ tables T0 ++ l0;
  gr_leaf_in : mapped (k_mem k) T base (zip_with leaf_pte ps fs);
  gr_leaf_out : ∀ va, 0 ≤ va < MAXVA → page_aligned va →
    ¬ (base ≤ va < base + Z.of_nat (length ps) * PGSIZE) →
    leaf (k_mem k) T va = leaf (k_mem k0) T0 va;
  gr_len : length fs = length ps;
  gr_perm : Forall (λ f, 0 ≤ f < 1024 ∧ Z.lor f PTE_V ≠ PTE_V) fs;
  gr_data : Forall2 (λ p c, load_bytes (k_mem k) p 4096 = c) ps cs;
  gr_mem : pages_frame (tables T0 ++ l0) (k_mem k0) (k_mem k);
  gr_kern : vm_frame k0 k;
}.

Lemma grown_refl pt base k T l : vm_ok k pt T l → grown pt base k T l [] [] [] k T l.
Proof.
  intros Hok. split; try done. apply vm_frame_refl.
Qed.

Lemma grown_nodup pt base k0 T0 l0 ps fs cs k T l :
  vm_ok k0 pt T0 l0 → grown pt base k0 T0 l0 ps fs cs k T l → NoDup (ps ++ tables T ++ l).
Proof. intros H0 G. rewrite (gr_pages _ _ _ _ _ _ _ _ _ _ _ G). apply H0. Qed.

Lemma grown_pages_ok pt base k0 T0 l0 ps fs cs k T l :
  vm_ok k0 pt T0 l0 → grown pt base k0 T0 l0 ps fs cs k T l → Forall page_ok ps.
Proof.
  intros H0 G. apply vm_all_ok in H0. rewrite <- (gr_pages _ _ _ _ _ _ _ _ _ _ _ G) in H0.
  by apply Forall_app in H0 as [? _].
Qed.

Lemma leaf_pte_entry p f :
  page_ok p → 0 ≤ f < 1024 → Z.lor f PTE_V ≠ PTE_V →
  leaf_entry (leaf_pte p f) ∧ PTE2PA (leaf_pte p f) = p.
Proof.
  intros [Hp Ha]%page_ok_pa Hf Hne. split; [split|by apply leaf_pte_pa].
  - pose proof (leaf_pte_valid p f) as H. unfold truthy in H.
    apply negb_true_iff, Z.eqb_neq in H. done.
  - by rewrite leaf_pte_flags.
Qed.

Lemma zip_leaf_pte_pa ps fs :
  Forall page_ok ps → length fs = length ps → Forall (λ f, 0 ≤ f < 1024 ∧ Z.lor f PTE_V ≠ PTE_V) fs →
  Forall leaf_entry (zip_with leaf_pte ps fs) ∧ PTE2PA <$> zip_with leaf_pte ps fs = ps.
Proof.
  intros Hps. revert fs. induction Hps as [|p ps Hp Hps IH]; intros [|f fs] Hl Hfs; try done; cbn.
  apply Forall_cons in Hfs as [[Hf Hne] Hfs]. destruct (IH fs) as [H1 H2]; [cbn in Hl; lia|done|].
  destruct (leaf_pte_entry p f) as [H3 H4]; [done..|].
  split; [by constructor|by rewrite H2, H4].
Qed.

(** Undoing the growth: uvmunmap() over the pages mapped so far. *)
Lemma grown_rollback pt base k0 T0 l0 ps fs cs k T l ks :
  vm_ok k0 pt T0 l0 → grown pt base k0 T0 l0 ps fs cs k T l →
  page_aligned base → 0 ≤ base → base + Z.of_nat (length ps) * PGSIZE ≤ MAXVA →
  unmapped (k_mem k0) T0 base (length ps) →
  ∃ k', uvmunmap pt base (Z.of_nat (length ps)) true ks k = Ok tt ks k' ∧
    grown pt base k0 T0 l0 [] [] [] k' T (reverse ps ++ l).
Proof.
  intros H0 G Hal Hb0 Hend Hun. pose proof G as [Hok Hpg Hin Hout Hlen Hperm _ Hmem Hkern].
  pose proof (grown_pages_ok _ _ _ _ _ _ _ _ _ _ _ H0 G) as Hpo.
  destruct (zip_leaf_pte_pa ps fs) as [Hle Hpas]; [done..|].
  assert (Hlz : length (zip_with leaf_pte ps fs) = length ps) by (rewrite length_zip_with; lia).
  destruct (uvmunmap_spec true (zip_with leaf_pte ps fs) pt base ks k T l)
    as (k' & H1 & Hok' & Hu & Hfr & Hkf); try done.
  - by rewrite Hlz.
  - rewrite Hpas. split; [done|]. exact (grown_nodup _ _ _ _ _ _ _ _ _ _ _ H0 G).
  - rewrite Hlz in *. rewrite Hpas in *. exists k'. split; [done|]. split; try done.
    + rewrite <- Hpg. cbn. rewrite reverse_Permutation. rewrite !(assoc_L app).
      by rewrite (Permutation_app_comm ps (tables T)).
    + intros va Hva Hal' _. rewrite Hu by done. case_decide as Hr.
      * assert (Hi : va = base + Z.of_nat (Z.to_nat ((va - base) / PGSIZE)) * PGSIZE ∧
                     (Z.to_nat ((va - base) / PGSIZE) < length ps)%nat).
        { unfold page_aligned, PGSIZE in *. clear - Hal Hal' Hr. Z.div_mod_to_equations. lia. }
        destruct Hi as [He Hi]. rewrite He. symmetry. by apply Hun.
      * by apply Hout.
    + eapply pages_frame_trans; [done|]. eapply pages_frame_mono; [|done].
      rewrite <- Hpg. clear; set_solver.
    + eapply vm_frame_trans; [apply H0|done..].
Qed.

Lemma mapped_snoc m T va es e :
  mapped m T va es → leaf m T (va + Z.of_nat (length es) * PGSIZE) = e → mapped m T va (es ++ [e]).
Proof.
  intros H1 H2 i e' Hi. apply lookup_app_Some in Hi as [Hi|[Hl Hi]]; [by apply H1|].
  apply list_lookup_singleton_Some in Hi as [Hi <-].
  by replace i with (length es) by lia.
Qed.

Lemma data_frame ps cs qs m m' :
  Forall page_ok ps → Forall page_ok qs → NoDup (ps ++ qs) → pages_frame qs m m' →
  Forall2 (λ p c, load_bytes m p 4096 = c) ps cs → Forall2 (λ p c, load_bytes m' p 4096 = c) ps cs.
Proof.
  intros Hps Hqs Hn Hf H. apply Forall2_same_length_lookup in H as [Hl H].
  apply Forall2_same_length_lookup. split; [done|]. intros i p c Hp Hc. rewrite <- (H i p c) by done.
  apply list_elem_of_lookup_2 in Hp. rewrite Forall_forall in Hps.
  apply load_bytes_frame with qs; [done|done|by apply Hps|].
  apply NoDup_app in Hn as (_ & Hn & _). by apply Hn.
Qed.

(** Steps that keep the leaves and the pages keep [grown]. *)
Lemma grown_step pt base k0 T0 l0 ps fs cs k T l k' T' l' :
  vm_ok k0 pt T0 l0 → grown pt base k0 T0 l0 ps fs cs k T l →
  page_aligned base → 0 ≤ base → base + Z.of_nat (length ps) * PGSIZE ≤ MAXVA →
  vm_ok k' pt T' l' → tables T' ++ l' ≡ₚ tables T ++ l →
  pages_frame (tables T ++ l) (k_mem k) (k_mem k') → vm_frame k k' →
  (∀ va, 0 ≤ va < MAXVA → page_aligned va → leaf (k_mem k') T' va = leaf (k_mem k) T va) →
  grown pt base k0 T0 l0 ps fs cs k' T' l'.
Proof.
  intros H0 G Hal Hb0 Hend Hok' Hpg' Hfr Hkf Hlf. pose proof (grown_nodup _ _ _ _ _ _ _ _ _ _ _ H0 G) as Hnd.
  pose proof (grown_pages_ok _ _ _ _ _ _ _ _ _ _ _ H0 G) as Hpo.
  destruct G as [Hok Hpg Hin Hout Hlen Hperm Hdata Hmem Hkern].
  split; try done.
  - by rewrite Hpg'.
  - intros i e Hi. pose proof (lookup_lt_Some _ _ _ Hi) as Hlt. rewrite length_zip_with in Hlt.
    rewrite Hlf; [by apply Hin|unfold PGSIZE in *; lia|by apply page_aligned_add].
  - intros va Hva Hal' Hni. rewrite Hlf by done. by apply Hout.
  - by apply (data_frame _ _ (tables T ++ l) (k_mem k)); [|eapply vm_all_ok|..].
  - eapply pages_frame_trans; [done|]. eapply pages_frame_mono; [|done].
    rewrite <- Hpg. clear; set_solver.
  - eapply vm_frame_trans; [apply H0|done..].
Qed.

(** Mapping the page [p], taken from the free list, after the others. *)
Lemma grown_snoc pt base k0 T0 l0 ps fs cs k T p l f c k' T' l' :
  vm_ok k0 pt T0 l0 → grown pt base k0 T0 l0 ps fs cs k T (p :: l) →
  page_aligned base → 0 ≤ base → base + Z.of_nat (S (length ps)) * PGSIZE ≤ MAXVA →
  0 ≤ f < 1024 → Z.lor f PTE_V ≠ PTE_V →
  vm_ok k' pt T' l' → tables T' ++ l' ≡ₚ tables T ++ l →
  pages_frame (tables T ++ p :: l) (k_mem k) (k_mem k') → vm_frame k k' →
  maps_range (k_mem k) T (k_mem k') T' (base + Z.of_nat (length ps) * PGSIZE) p f 1 →
  load_bytes (k_mem k') p 4096 = c →
  grown pt base k0 T0 l0 (ps ++ [p]) (fs ++ [f]) (cs ++ [c]) k' T' l'.
Proof.
  intros H0 G Hal Hb0 Hend Hf Hfne Hok' Hpg' Hfr Hkf Hmr Hc.
  pose proof (grown_nodup _ _ _ _ _ _ _ _ _ _ _ H0 G) as Hnd.
  pose proof (grown_pages_ok _ _ _ _ _ _ _ _ _ _ _ H0 G) as Hpo.
  destruct G as [Hok Hpg Hin Hout Hlen Hperm Hdata Hmem Hkern].
  assert (HP : PGSIZE = 4096) by reflexivity.
  split; try done.
  - rewrite <- Hpg, Hpg', <- (assoc_L app). by rewrite <- (Permutation_middle (tables T) l p).
  - rewrite zip_with_app by lia. apply mapped_snoc.
    + intros i e Hi. pose proof (lookup_lt_Some _ _ _ Hi) as Hlt. rewrite length_zip_with in Hlt.
      rewrite Hmr, decide_False; [by apply Hin|lia|lia|by apply page_aligned_add].
    + rewrite length_zip_with, Hlen, Nat.min_id.
      rewrite Hmr, decide_True; [f_equal; lia|lia|lia|by apply page_aligned_add].
  - intros va Hva Hal' Hni. rewrite length_app in Hni. cbn in Hni.
    rewrite Hmr by done. rewrite decide_False by lia. apply Hout; [done|done|lia].
  - rewrite !length_app. cbn. lia.
  - apply Forall_app. by split; [|constructor].
  - apply Forall2_app; [|by constructor].
    by apply (data_frame _ _ (tables T ++ p :: l) (k_mem k)); [|eapply vm_all_ok|..].
  - eapply pages_frame_trans; [done|]. eapply pages_frame_mono; [|done].
    rewrite <- Hpg. clear; set_solver.
  - eapply vm_frame_trans; [apply H0|done..].
Qed.

(** Taking one more page [p], filling it with [c], and mapping it. *)
Lemma grown_page pt base k0 T0 l0 ps fs cs k T p l ks (fill_page : M kernel unit) f c m' :
  vm_ok k0 pt T0 l0 → grown pt base k0 T0 l0 ps fs cs k T (p :: l) →
  page_aligned base → 0 ≤ base → base + Z.of_nat (S (length ps)) * PGSIZE ≤ MAXVA →
  leaf (k_mem k0) T0 (base + Z.of_nat (length ps) * PGSIZE) = 0 →
  0 ≤ f < 1024 → Z.lor f PTE_V ≠ PTE_V →
  ∀ k1, kalloc ks k = Ok p ks k1 →
  fill_page ks k1 = Ok tt ks (k1 <| k_mem := m' |>) →
  pages_frame [p] (k_mem k1) m' → mem_bytes m' → load_bytes m' p 4096 = c →
  ∃ r k' T' l',
    (fill_page ;; mappages pt (base + Z.of_nat (length ps) * PGSIZE) PGSIZE p f) ks k1 = Ok r ks k' ∧
    (r = 0 ∧ grown pt base k0 T0 l0 (ps ++ [p]) (fs ++ [f]) (cs ++ [c]) k' T' l' ∨
     r = -1 ∧ ∃ k'', kfree p ks k' = Ok tt ks k'' ∧ grown pt base k0 T0 l0 ps fs cs k'' T' (p :: l')).
Proof.
  intros H0 G Hal Hb0 Hend Hz Hf Hfne k1 Hka Hfill Hfr2 Hb2 Hc.
  assert (HP : PGSIZE = 4096) by reflexivity.
  destruct (kalloc_vm ks k pt T p l (gr_ok _ _ _ _ _ _ _ _ _ _ _ G))
    as (k1' & Hka' & Hok1 & Hp & Hpn & Hlf1 & Hfr1 & Hkf1).
  rewrite Hka in Hka'. injection Hka' as <-.
  destruct (vm_ok_mem [p] m' k1 pt T l) as [Hok2 Hlf2]; [done..|by constructor| |].
  { by intros q ->%list_elem_of_singleton. }
  pose proof (page_ok_pos p Hp). destruct (page_ok_pa p Hp) as [_ Hpal].
  set (a := base + Z.of_nat (length ps) * PGSIZE).
  assert (Ha : 0 ≤ a ∧ a + PGSIZE ≤ MAXVA) by (unfold a; lia).
  assert (HPS : PHYSTOP = 0x88000000) by reflexivity.
  destruct (mappages_spec 0 pt a p f ks (k1 <| k_mem := m' |>) T l)
    as (r & j & k' & T' & l' & H1 & [Hok3 Hpg3 Hfr3 _ Hkf3] & Hmr & Hr); try done; [by apply page_aligned_add|lia..| |].
  { intros [|i] Hi; [|lia]. cbn. rewrite Z.add_0_r, Hlf2, Hlf1.
    rewrite (gr_leaf_out _ _ _ _ _ _ _ _ _ _ _ G); [done|unfold a; lia|by apply page_aligned_add|unfold a; lia]. }
  exists r, k', T', l'. split; [rewrite bind_run, Hfill; exact H1|].
  assert (Hkf : vm_frame k k').
  { eapply vm_frame_trans; [apply G|exact Hkf1|]. eapply vm_frame_trans; [apply Hok1| |exact Hkf3].
    split; [by left|done]. }
  assert (Hfr : pages_frame (tables T ++ p :: l) (k_mem k) (k_mem k')).
  { repeat (eapply pages_frame_trans; [eapply pages_frame_mono; [|done]; clear; set_solver|]).
    eapply pages_frame_mono; [|done]. clear; set_solver. }
  destruct Hr as [[-> ->]|(-> & Hj & ->)]; [left|right]; (split; [done|]).
  - apply (grown_snoc _ _ _ _ _ _ _ _ k T p l); try done.
    + intros va Hva Hva'. rewrite Hmr by done. cbn. by rewrite Hlf2, Hlf1.
    + rewrite <- Hc. eapply load_bytes_frame; [exact Hfr3|by eapply vm_all_ok|done|done].
  - destruct (kfree_vm ks k' pt T' p []) as (k'' & Hkf' & Hok4 & Hlf4 & Hfr4 & Hkf4);
      [done|done|by rewrite Hpg3|].
    exists k''. split; [done|]. eapply (grown_step _ _ _ _ _ _ _ _ k T (p :: l)); try done.
    + lia.
    + rewrite <- !Permutation_middle. by rewrite Hpg3.
    + eapply pages_frame_trans; [done|]. eapply pages_frame_mono; [|done]. clear; set_solver.
    + eapply vm_frame_trans; [apply G|done..].
    + intros va Hva Hva'. rewrite Hlf4, Hmr by done. rewrite decide_False by lia. cbn.
      by rewrite Hlf2, Hlf1.
Qed.

(** ** uvmdealloc() *)

Lemma PGROUNDUP_low sz : 0 ≤ sz ≤ MAXVA →
  sz ≤ PGROUNDUP sz < sz + PGSIZE ∧ page_aligned (PGROUNDUP sz) ∧ PGROUNDUP sz ≤ MAXVA.
Proof.
  assert (HM : MAXVA = 274877906944) by reflexivity. assert (HP : PGSIZE = 4096) by reflexivity.
  intros Hsz. pose proof (PGROUNDUP_bounds sz ltac:(lia) ltac:(lia)) as Hb.
  pose proof (PGROUNDUP_aligned sz ltac:(lia) ltac:(lia)) as Ha. split_and!; [lia|lia|done|].
  unfold page_aligned in Ha. rewrite HP in *. Z.div_mod_to_equations. lia.
Qed.

Lemma uvmdealloc_run pt oldsz newsz n ks k :
  0 ≤ newsz < oldsz → oldsz ≤ MAXVA → PGROUNDUP oldsz - PGROUNDUP newsz = Z.of_nat n * PGSIZE →
  (0 < n)%nat →
  uvmdealloc pt oldsz newsz ks k =
    (uvmunmap pt (PGROUNDUP newsz) (Z.of_nat n) true ;; mret newsz) ks k.
Proof.
  assert (HM : MAXVA = 274877906944) by reflexivity. assert (HP : PGSIZE = 4096) by reflexivity.
  intros Hsz Hmax Hn Hpos. unfold uvmdealloc. destruct (Z.leb_spec oldsz newsz); [lia|].
  rewrite !bind_run, when_run. destruct (Z.ltb_spec (PGROUNDUP newsz) (PGROUNDUP oldsz)); [|lia].
  cbn zeta. rewrite Hn, Z.div_mul by lia.
  pose proof (PGROUNDUP_low newsz). pose proof (PGROUNDUP_low oldsz).
  rewrite i32_small, u64_small by lia. done.
Qed.

(** uvmdealloc(a, base) after growing from [base] to [a]. *)
Lemma grown_dealloc pt base k0 T0 l0 ps fs cs k T l ks :
  vm_ok k0 pt T0 l0 → grown pt base k0 T0 l0 ps fs cs k T l →
  page_aligned base → 0 ≤ base → base + Z.of_nat (length ps) * PGSIZE ≤ MAXVA →
  unmapped (k_mem k0) T0 base (length ps) →
  ∃ k', uvmdealloc pt (base + Z.of_nat (length ps) * PGSIZE) base ks k = Ok base ks k' ∧
    grown pt base k0 T0 l0 [] [] [] k' T (reverse ps ++ l).
Proof.
  assert (HM : MAXVA = 274877906944) by reflexivity. assert (HP : PGSIZE = 4096) by reflexivity.
  intros H0 G Hal Hb0 Hend Hun. destruct ps as [|p ps].
  - exists k. split.
    + unfold uvmdealloc. destruct (Z.leb_spec (base + Z.of_nat (length (@nil Z)) * PGSIZE) base) as [|H];
        [by rewrite Z.add_0_r|cbn in H; lia].
    + pose proof (gr_data _ _ _ _ _ _ _ _ _ _ _ G) as Hd. apply Forall2_nil_inv_l in Hd as ->.
      pose proof (gr_len _ _ _ _ _ _ _ _ _ _ _ G) as Hl. apply nil_length_inv in Hl as ->. done.
  - destruct (grown_rollback pt base k0 T0 l0 (p :: ps) fs cs k T l ks) as (k' & H1 & G'); [done..|].
    exists k'. split; [|done].
    rewrite (uvmdealloc_run _ _ _ (length (p :: ps))); [|cbn [length]; lia|done| |cbn; lia].
    + rewrite (PGROUNDUP_id base) by (done || lia). by rewrite bind_run, H1.
    + rewrite !PGROUNDUP_id; [lia|lia|lia|done|lia|lia|by apply page_aligned_add].
Qed.

(** ** uvmalloc() *)

Lemma kmemset_zero p k1 :
  mem_bytes (k_mem k1) →
  let m := fill (k_mem k1) p 0 PGSIZE in
  pages_frame [p] (k_mem k1) m ∧ mem_bytes m ∧ load_bytes m p 4096 = replicate 4096 0.
Proof.
  intros Hb. split; [apply pages_frame_fill; constructor|]. split; [auto with ints|].
  apply load_fill; unfold PGSIZE; lia.
Qed.

Section uvmalloc_loop.
Context (pt base newsz xperm perm : Z) (k0 : kernel) (T0 : tree) (l0 : list Z) (n : nat).
Hypothesis Hperm_eq : perm = Z.lor (Z.lor PTE_R PTE_U) xperm.
Hypothesis H0 : vm_ok k0 pt T0 l0.
Hypothesis Hal : page_aligned base.
Hypothesis Hb0 : 0 ≤ base.
Hypothesis Hend : base + Z.of_nat n * PGSIZE ≤ MAXVA.
Hypothesis Hnew : base + Z.of_nat n * PGSIZE - PGSIZE < newsz ≤ base + Z.of_nat n * PGSIZE.
Hypothesis Hun : unmapped (k_mem k0) T0 base n.
Hypothesis Hperm : 0 ≤ perm < 1024.
Hypothesis Hpne : Z.lor perm PTE_V ≠ PTE_V.

(** Zeroed pages [ps], all with permissions [perm]. *)
Definition grown_zero (ps : list Z) (k : kernel) (T : tree) (l : list Z) : Prop :=
  grown pt base k0 T0 l0 ps (replicate (length ps) perm)
    (replicate (length ps) (replicate 4096 0)) k T l.

(** The error path: everything allocated so far is given back. *)
Lemma uvmalloc_undo ps k T l ks :
  (length ps ≤ n)%nat → grown_zero ps k T l →
  ∃ k' l', (uvmdealloc pt (base + Z.of_nat (length ps) * PGSIZE) base ;; mret 0) ks k = Ok 0 ks k' ∧
    grown_zero [] k' T l'.
Proof.
  intros Hlen G.
  destruct (grown_dealloc _ _ _ _ _ _ _ _ _ _ _ ks H0 G) as (k' & H & G'); [done|done| | |].
  - unfold PGSIZE in *. lia.
  - intros i Hi. apply Hun. lia.
  - exists k', (reverse ps ++ l). by rewrite bind_run, H.
Qed.

Lemma uvmalloc_loop_spec rem ps k T l ks :
  (length ps + rem = n)%nat → grown_zero ps k T l →
  ∃ r k' T' l' ps',
    uvmalloc_loop (S rem) pt (base + Z.of_nat (length ps) * PGSIZE) base newsz xperm ks k
      = Ok r ks k' ∧
    grown_zero ps' k' T' l' ∧ (r = newsz ∧ length ps' = n ∨ r = 0 ∧ ps' = []).
Proof.
  assert (HM : MAXVA = 274877906944) by reflexivity. assert (HP : PGSIZE = 4096) by reflexivity.
  revert ps k T l. induction rem as [|rem IH]; intros ps k T l Hn G; [|remember (S rem) as fuel];
    cbn [uvmalloc_loop]; rewrite <- Hperm_eq;
    destruct (Z.ltb_spec (base + Z.of_nat (length ps) * PGSIZE) newsz) as [Hlt|Hge]; try lia.
  { exists newsz, k, T, l, ps. split; [done|]. split; [done|left; split; [done|lia]]. }
  destruct l as [|p l].
  - destruct (kalloc_vm_none ks k pt T) as (k1 & H1 & Hok1 & Hmem1 & Hkf1); [apply G|].
    rewrite bind_run, H1. cbn [Z.eqb].
    destruct (uvmalloc_undo ps k1 T [] ks) as (k2 & l2 & H2 & G2); [lia| |].
    { apply (grown_step _ _ _ _ _ _ _ _ k T []); try done; [lia|by rewrite Hmem1|by rewrite Hmem1]. }
    exists 0, k2, T, l2, []. split; [exact H2|]. split; [exact G2|right; split; reflexivity].
  - destruct (kalloc_vm ks k pt T p l (gr_ok _ _ _ _ _ _ _ _ _ _ _ G)) as (k1 & H1 & Hok1 & Hp & _).
    rewrite bind_run, H1. pose proof (page_ok_pos p Hp). destruct (Z.eqb_spec p 0); [lia|].
    destruct (kmemset_zero p k1) as (Hf1 & Hf2 & Hf3); [apply Hok1|].
    destruct (grown_page pt base k0 T0 l0 ps _ _ k T p l ks (kmemset p 0 PGSIZE) perm
      (replicate 4096 0) (fill (k_mem k1) p 0 PGSIZE) H0 G Hal Hb0 ltac:(lia)
      ltac:(apply Hun; lia) Hperm Hpne k1 H1 eq_refl Hf1 Hf2 Hf3) as (r & k2 & T2 & l2 & H2 & Hr).
    rewrite bind_run in H2 |- *. cbn [kmemset modify] in H2 |- *. rewrite bind_run, H2. clear H2.
    destruct Hr as [[-> G2]|(-> & k3 & H3 & G3)]; cbn [Z.eqb negb].
    + destruct (IH (ps ++ [p]) k2 T2 l2) as (r & k3 & T3 & l3 & ps3 & H3 & G3 & Hr).
      { rewrite length_app. cbn. lia. }
      { unfold grown_zero. by rewrite length_app, !replicate_add. }
      exists r, k3, T3, l3, ps3. split; [|split; [exact G3|exact Hr]]. rewrite length_app in H3. cbn [length] in H3.
      rewrite u64_page by lia.
      replace (base + Z.of_nat (length ps) * PGSIZE + PGSIZE)
        with (base + Z.of_nat (length ps + 1) * PGSIZE) by lia.
      subst fuel. exact H3.
    + rewrite bind_run, H3. destruct (uvmalloc_undo ps k3 T2 (p :: l2) ks) as (k4 & l4 & H4 & G4); [lia|done|].
      exists 0, k4, T2, l4, []. split; [exact H4|]. split; [exact G4|right; split; reflexivity].
Qed.
End uvmalloc_loop.

Lemma perm_RU xperm :
  0 ≤ xperm < 1024 →
  0 ≤ Z.lor (Z.lor PTE_R PTE_U) xperm < 1024 ∧
  Z.lor (Z.lor (Z.lor PTE_R PTE_U) xperm) PTE_V ≠ PTE_V.
Proof.
  intros Hx. split.
  - split; [apply Z.lor_nonneg; split; [done|lia]|]. apply (Z.log2_lt_cancel _ 1024).
    rewrite Z.log2_lor by (done || lia). change (Z.log2 1024) with 10.
    change (Z.log2 (Z.lor PTE_R PTE_U)) with 4.
    destruct (decide (xperm = 0)) as [->|]; [done|].
    assert (Z.log2 xperm < 10) by (apply Z.log2_lt_pow2; lia). lia.
  - intros H%(f_equal (λ z, Z.testbit z 1)). cbn in H. rewrite !Z.lor_spec in H. done.
Qed.

(** The number of pages uvmalloc() adds. *)
Definition pages_between (oldsz newsz : Z) : nat :=
  Z.to_nat ((PGROUNDUP newsz - PGROUNDUP oldsz) / PGSIZE).

Lemma pages_between_spec oldsz newsz :
  0 ≤ oldsz ≤ newsz → newsz ≤ MAXVA →
  PGROUNDUP oldsz + Z.of_nat (pages_between oldsz newsz) * PGSIZE = PGROUNDUP newsz ∧
  Z.to_nat ((newsz - PGROUNDUP oldsz + PGSIZE - 1) / PGSIZE) = pages_between oldsz newsz.
Proof.
  intros H1 H2. destruct (PGROUNDUP_low oldsz ltac:(lia)) as (B1 & A1 & _).
  destruct (PGROUNDUP_low newsz ltac:(lia)) as (B2 & A2 & _). unfold pages_between.
  assert (PGROUNDUP oldsz ≤ PGROUNDUP newsz).
  { unfold page_aligned, PGSIZE in *. Z.div_mod_to_equations. lia. }
  generalize dependent (PGROUNDUP oldsz). generalize dependent (PGROUNDUP newsz). intros b ? ? a ? ? ?.
  unfold page_aligned, PGSIZE in *.
  split; [rewrite Z2Nat.id by (apply Z.div_pos; lia)|f_equal]; Z.div_mod_to_equations; lia.
Qed.

Lemma uvmalloc_spec pt oldsz newsz xperm ks k T l :
  let n := pages_between oldsz newsz in
  let perm := Z.lor (Z.lor PTE_R PTE_U) xperm in
  vm_ok k pt T l → 0 ≤ oldsz ≤ newsz → newsz ≤ MAXVA → 0 ≤ xperm < 1024 →
  unmapped (k_mem k) T (PGROUNDUP oldsz) n →
  ∃ r k' T' l' ps,
    uvmalloc pt oldsz newsz xperm ks k = Ok r ks k' ∧
    grown_zero pt (PGROUNDUP oldsz) perm k T l ps k' T' l' ∧
    (r = newsz ∧ length ps = n ∨ r = 0 ∧ ps = []).
Proof.
  assert (HM : MAXVA = 274877906944) by reflexivity. assert (HP : PGSIZE = 4096) by reflexivity.
  intros n perm Hok Hsz Hmax Hx Hun. destruct (perm_RU xperm Hx) as [Hp1 Hp2].
  destruct (pages_between_spec oldsz newsz Hsz Hmax) as [Hn1 Hn2].
  destruct (PGROUNDUP_low oldsz ltac:(lia)) as (B1 & A1 & _).
  destruct (PGROUNDUP_low newsz ltac:(lia)) as (B2 & A2 & ?).
  unfold uvmalloc. destruct (Z.ltb_spec newsz oldsz); [lia|]. cbn zeta. rewrite Hn2.
  destruct (uvmalloc_loop_spec pt (PGROUNDUP oldsz) newsz xperm perm k T l n eq_refl Hok A1
    ltac:(lia) ltac:(lia) ltac:(lia) Hun Hp1 Hp2 n [] k T l ks eq_refl (grown_refl _ _ _ _ _ Hok))
    as (r & k' & T' & l' & ps' & H1 & G & Hr).
  exists r, k', T', l', ps'. split; [|done]. cbn [length] in H1. rewrite Z.add_0_r in H1. exact H1.
Qed.

(** ** uvmcopy()

    The parent's table [old] with tree [To] maps its first pages by the
    entries [es]; its pages are disjoint from the child's table pages and
    from the free pages. *)
Section uvmcopy_loop.
Context (old new sz : Z) (To : tree) (es : list Z) (k0 : kernel) (T0 : tree) (l0 : list Z).
Hypothesis H0 : vm_ok k0 new T0 l0.
Hypothesis Hold : pt_wf (k_mem k0) old To.
Hypothesis Hes : mapped (k_mem k0) To 0 es.
Hypothesis Hle : Forall leaf_entry es.
Hypothesis Hpo : Forall page_ok (PTE2PA <$> es).
Hypothesis Hdisj : ∀ p, p ∈ tables To ++ (PTE2PA <$> es) → p ∉ tables T0 ++ l0.
Hypothesis Hend : Z.of_nat (length es) * PGSIZE ≤ MAXVA.
Hypothesis Hsz : Z.of_nat (length es) * PGSIZE - PGSIZE < sz ≤ Z.of_nat (length es) * PGSIZE.
Hypothesis Hun : unmapped (k_mem k0) T0 0 (length es).

(** The child's pages [ps] are copies of the parent's first pages. *)
Definition copied (ps : list Z) (k : kernel) (T : tree) (l : list Z) : Prop :=
  grown new 0 k0 T0 l0 ps (PTE_FLAGS <$> take (length ps) es)
    ((λ e, load_bytes (k_mem k0) (PTE2PA e) 4096) <$> take (length ps) es) k T l.

(** The parent's table and pages are not touched. *)
Lemma copied_parent ps k T l :
  copied ps k T l →
  pt_wf (k_mem k) old To ∧ (∀ va, leaf (k_mem k) To va = leaf (k_mem k0) To va) ∧
  ∀ e, e ∈ es → load_bytes (k_mem k) (PTE2PA e) 4096 = load_bytes (k_mem k0) (PTE2PA e) 4096.
Proof.
  intros G. pose proof (gr_mem _ _ _ _ _ _ _ _ _ _ _ G) as Hfr.
  pose proof (vm_all_ok _ _ _ _ H0) as Hall.
  destruct (pt_wf_frame (tables T0 ++ l0) (k_mem k0) (k_mem k) old To) as [Hwf Hlf]; [done..| |done|].
  { intros p Hp Hin. apply (Hdisj p); [|done]. apply elem_of_app. by left. }
  split; [done|]. split; [done|]. intros e He.
  assert (Hq : PTE2PA e ∈ PTE2PA <$> es) by (by apply list_elem_of_fmap_2).
  apply load_bytes_frame with (tables T0 ++ l0); [done|done| |].
  - rewrite Forall_forall in Hpo. by apply Hpo.
  - apply Hdisj, elem_of_app. by right.
Qed.

Lemma uvmcopy_undo ps k T l ks :
  (length ps ≤ length es)%nat → copied ps k T l →
  ∃ k' l', (uvmunmap new 0 (Z.of_nat (length ps) * PGSIZE / PGSIZE) true ;; mret (-1)) ks k
      = Ok (-1) ks k' ∧ copied [] k' T l'.
Proof.
  intros Hlen G. rewrite Z.div_mul by done.
  destruct (grown_rollback _ _ _ _ _ _ _ _ _ _ _ ks H0 G) as (k' & H & G'); [done|done| | |].
  - unfold PGSIZE in *. lia.
  - intros i Hi. apply Hun. lia.
  - exists k', (reverse ps ++ l). by rewrite bind_run, H.
Qed.

(** The lookup and the checks of one turn of the loop. *)
Lemma uvmcopy_pte ps k T l e ks :
  copied ps k T l → es !! length ps = Some e →
  let i := Z.of_nat (length ps) * PGSIZE in
  walk old i false ks k = Ok (pte_addr To i) ks k ∧ pte_addr To i ≠ 0 ∧
  load64 (k_mem k) (pte_addr To i) = e ∧ leaf_entry e ∧
  0 ≤ PTE_FLAGS e < 1024 ∧ Z.lor (PTE_FLAGS e) PTE_V ≠ PTE_V.
Proof.
  intros G He i. destruct (copied_parent _ _ _ _ G) as (Hwf & Hlf & _).
  pose proof (lookup_lt_Some _ _ _ He) as Hlt.
  assert (Hi : 0 ≤ i < MAXVA) by (unfold i, PGSIZE in *; lia).
  assert (Hent : leaf_entry e) by (eapply Forall_forall; [exact Hle|by eapply list_elem_of_lookup_2]).
  assert (Hleaf : leaf (k_mem k) To i = e) by (rewrite Hlf; by apply (Hes (length ps))).
  assert (Hnz : pte_addr To i ≠ 0).
  { intros E. apply (pte_addr_none _ _ _ _ Hwf) in E. destruct Hent as [HV _]. by rewrite <- Hleaf, E in HV. }
  destruct (pte_addr_some _ _ _ _ Hwf Hnz) as (q & _ & _ & Hld).
  destruct Hent as [HV HF].
  split; [by apply walk_lookup|]. split; [done|]. split; [congruence|]. split; [done|].
  assert (Hr : 0 ≤ PTE_FLAGS e < 1024).
  { unfold PTE_FLAGS. change 0x3FF with (Z.ones 10). rewrite Z.land_ones by lia.
    apply Z.mod_pos_bound. lia. }
  split; [done|]. intros E. apply HF. rewrite <- E.
  rewrite (land_flags e PTE_V) in HV by (by split).
  apply Z.bits_inj'. intros b Hb. rewrite Z.lor_spec.
  destruct (decide (b = 0)) as [->|Hb0].
  - destruct (Z.testbit (PTE_FLAGS e) 0) eqn:Hbit; [done|]. destruct HV.
    apply Z.bits_inj'. intros c Hc. rewrite Z.land_spec, Z.bits_0.
    destruct (decide (c = 0)) as [->|Hc0]; [by rewrite Hbit|].
    change PTE_V with (2 ^ 0). rewrite Z.pow2_bits_false by lia. apply andb_false_r.
  - change PTE_V with (2 ^ 0). rewrite Z.pow2_bits_false by lia. by rewrite orb_false_r.
Qed.

Lemma take_snoc_lookup {A} (l : list A) i x : l !! i = Some x → take (S i) l = take i l ++ [x].
Proof. apply take_S_r. Qed.

Lemma copy_page_facts p q k1 :
  mem_bytes (k_mem k1) →
  let m := store_bytes (k_mem k1) p (load_bytes (k_mem k1) q 4096) in
  pages_frame [p] (k_mem k1) m ∧ mem_bytes m ∧
  load_bytes m p 4096 = load_bytes (k_mem k1) q 4096.
Proof.
  intros Hb m. split; [|split].
  - intros x Hx. apply store_bytes_out. rewrite load_bytes_length.
    specialize (Hx p ltac:(constructor)). unfold PGSIZE in Hx. lia.
  - apply store_bytes_bytes; [by apply load_bytes_range|done].
  - unfold m. rewrite <- (load_bytes_length (k_mem k1) q 4096) at 2. apply load_store_bytes.
Qed.

Lemma uvmcopy_loop_spec rem ps k T l ks :
  (length ps + rem = length es)%nat → copied ps k T l →
  ∃ r k' T' l' ps',
    uvmcopy_loop (S rem) old new (Z.of_nat (length ps) * PGSIZE) sz ks k = Ok r ks k' ∧
    copied ps' k' T' l' ∧ (r = 0 ∧ length ps' = length es ∨ r = -1 ∧ ps' = []).
Proof.
  assert (HM : MAXVA = 274877906944) by reflexivity. assert (HP : PGSIZE = 4096) by reflexivity.
  revert ps k T l. induction rem as [|rem IH]; intros ps k T l Hn G; [|remember (S rem) as fuel];
    cbn [uvmcopy_loop]; destruct (Z.ltb_spec (Z.of_nat (length ps) * PGSIZE) sz) as [Hlt|Hge]; try lia.
  { exists 0, k, T, l, ps. split; [done|]. split; [done|left; split; [done|lia]]. }
  destruct (lookup_lt_is_Some_2 es (length ps)) as [e He]; [lia|].
  destruct (uvmcopy_pte ps k T l e ks G He) as (Hw & Hnz & Hld & [HV _] & Hfr & Hfne).
  rewrite bind_run, Hw. destruct (Z.eqb_spec (pte_addr To (Z.of_nat (length ps) * PGSIZE)) 0); [done|].
  rewrite bind_run. cbn [load_pte gets]. rewrite Hld. destruct (Z.eqb_spec (Z.land e PTE_V) 0); [done|].
  cbn zeta. destruct l as [|p l].
  - destruct (kalloc_vm_none ks k new T) as (k1 & H1 & Hok1 & Hmem1 & Hkf1); [apply G|].
    rewrite bind_run, H1. cbn [Z.eqb].
    destruct (uvmcopy_undo ps k1 T [] ks) as (k2 & l2 & H2 & G2); [lia| |].
    { apply (grown_step _ _ _ _ _ _ _ _ k T []); try done; [lia|by rewrite Hmem1|by rewrite Hmem1]. }
    exists (-1), k2, T, l2, []. split; [exact H2|]. split; [exact G2|right; split; reflexivity].
  - destruct (kalloc_vm ks k new T p l (gr_ok _ _ _ _ _ _ _ _ _ _ _ G))
      as (k1 & H1 & Hok1 & Hp & Hpn & _ & Hfr1 & _).
    rewrite bind_run, H1. pose proof (page_ok_pos p Hp). destruct (Z.eqb_spec p 0); [lia|].
    destruct (copy_page_facts p (PTE2PA e) k1) as (Hf1 & Hf2 & Hf3); [apply Hok1|].
    set (m := store_bytes _ _ _) in Hf1, Hf2, Hf3.
    assert (Hdata : load_bytes m p 4096 = load_bytes (k_mem k0) (PTE2PA e) 4096).
    { assert (Hin : e ∈ es) by (by eapply list_elem_of_lookup_2).
      assert (Hq : PTE2PA e ∈ PTE2PA <$> es) by (by apply list_elem_of_fmap_2).
      destruct (copied_parent _ _ _ _ G) as (_ & _ & Hpar).
      rewrite Hf3, <- (Hpar e Hin). apply load_bytes_frame with [p]; [done|by constructor| |].
      - rewrite Forall_forall in Hpo. by apply Hpo.
      - intros <-%list_elem_of_singleton. apply (Hdisj (PTE2PA e)); [apply elem_of_app; by right|].
        rewrite <- (gr_pages _ _ _ _ _ _ _ _ _ _ _ G). clear; set_solver. }
    destruct (grown_page new 0 k0 T0 l0 ps _ _ k T p l ks (copy_page p (PTE2PA e)) (PTE_FLAGS e)
      _ m H0 G eq_refl ltac:(lia) ltac:(lia)
      ltac:(apply Hun; lia) Hfr Hfne k1 H1 eq_refl Hf1 Hf2 Hdata) as (r & k2 & T2 & l2 & H2 & Hr).
    rewrite bind_run in H2 |- *. cbn [copy_page modify] in H2 |- *.
    rewrite bind_run. rewrite Z.add_0_l in H2. rewrite H2. clear H2.
    destruct Hr as [[-> G2]|(-> & k3 & H3 & G3)]; cbn [Z.eqb negb].
    + destruct (IH (ps ++ [p]) k2 T2 l2) as (r & k3 & T3 & l3 & ps3 & H3 & G3 & Hr).
      { rewrite length_app. cbn. lia. }
      { unfold copied. rewrite length_app, Nat.add_1_r, (take_snoc_lookup _ _ e), !fmap_app by done.
        exact G2. }
      exists r, k3, T3, l3, ps3. split; [|split; [exact G3|exact Hr]]. rewrite length_app in H3. cbn [length] in H3.
      rewrite u64_page by lia.
      replace (Z.of_nat (length ps) * PGSIZE + PGSIZE)
        with (Z.of_nat (length ps + 1) * PGSIZE) by lia. subst fuel. exact H3.
    + rewrite bind_run, H3. destruct (uvmcopy_undo ps k3 T2 (p :: l2) ks) as (k4 & l4 & H4 & G4); [lia|done|].
      exists (-1), k4, T2, l4, []. split; [exact H4|]. split; [exact G4|right; split; reflexivity].
Qed.
End uvmcopy_loop.

Lemma uvmcopy_grows old new sz To es ks k T l :
  vm_ok k new T l → pt_wf (k_mem k) old To →
  mapped (k_mem k) To 0 es → Forall leaf_entry es → Forall page_ok (PTE2PA <$> es) →
  (∀ p, p ∈ tables To ++ (PTE2PA <$> es) → p ∉ tables T ++ l) →
  0 ≤ sz ≤ MAXVA → PGROUNDUP sz = Z.of_nat (length es) * PGSIZE →
  unmapped (k_mem k) T 0 (length es) →
  ∃ r k' T' l' ps,
    uvmcopy old new sz ks k = Ok r ks k' ∧
    grown new 0 k T l ps (PTE_FLAGS <$> take (length ps) es)
      ((λ e, load_bytes (k_mem k) (PTE2PA e) 4096) <$> take (length ps) es) k' T' l' ∧
    (r = 0 ∧ length ps = length es ∨ r = -1 ∧ ps = []) ∧
    (∀ va, leaf (k_mem k') To va = leaf (k_mem k) To va) ∧
    (∀ e, e ∈ es → load_bytes (k_mem k') (PTE2PA e) 4096 = load_bytes (k_mem k) (PTE2PA e) 4096).
Proof.
  intros Hok Hold Hes Hle Hpo Hdisj Hsz Hlen Hun.
  destruct (PGROUNDUP_low sz Hsz) as (B & _ & M).
  assert (Hn : Z.to_nat ((sz + PGSIZE - 1) / PGSIZE) = length es).
  { pose proof (PGROUNDUP_spec sz ltac:(lia)) as E. change MAXVA with (2 ^ 38) in *.
    unfold PGSIZE in *. rewrite E in Hlen by lia. lia. }
  destruct (uvmcopy_loop_spec old new sz To es k T l Hok Hold Hes Hle Hpo Hdisj ltac:(lia)
    ltac:(lia) Hun (length es) [] k T l ks eq_refl (grown_refl _ _ _ _ _ Hok))
    as (r & k' & T' & l' & ps & H1 & G & Hr).
  destruct (copied_parent old new To es k T l Hok Hold Hpo Hdisj ps k' T' l' G) as (_ & Hlf & Hpg).
  exists r, k', T', l', ps. split; [unfold uvmcopy; rewrite Hn; exact H1|]. by split_and!.
Qed.

(** ** Properties *)


(** Uvmcopy() gives the child its own copy of the parent's memory: each
    of the first pages of the child is mapped with the parent's flags to a
    fresh page with the parent's contents, and the parent's mappings and
    pages are unchanged.  On failure it returns -1 and every page it had
    taken is a table of the child or free again. *)
Theorem uvmcopy_copies old new sz To es ks k T l :
  vm_ok k new T l → pt_wf (k_mem k) old To →
  mapped (k_mem k) To 0 es → Forall leaf_entry es → Forall page_ok (PTE2PA <$> es) →
  (∀ p, p ∈ tables To ++ (PTE2PA <$> es) → p ∉ tables T ++ l) →
  0 ≤ sz ≤ MAXVA → PGROUNDUP sz = Z.of_nat (length es) * PGSIZE →
  unmapped (k_mem k) T 0 (length es) →
  ∃ r k' T' l' ps,
    uvmcopy old new sz ks k = Ok r ks k' ∧
    (r = 0 ∧ length ps = length es ∨ r = -1 ∧ ps = []) ∧
    (∀ i p e, ps !! i = Some p → es !! i = Some e →
       leaf (k_mem k') T' (Z.of_nat i * PGSIZE) = leaf_pte p (PTE_FLAGS e) ∧
       load_bytes (k_mem k') p 4096 = load_bytes (k_mem k) (PTE2PA e) 4096) ∧
    (∀ va, leaf (k_mem k') To va = leaf (k_mem k) To va) ∧
    (∀ e, e ∈ es → load_bytes (k_mem k') (PTE2PA e) 4096 = load_bytes (k_mem k) (PTE2PA e) 4096) ∧
    vm_ok k' new T' l' ∧ ps ++ tables T' ++ l' ≡ₚ tables T ++ l.
Proof.
  intros Hok Hold Hes Hle Hpo Hdisj Hsz Hlen Hun.
  destruct (uvmcopy_grows old new sz To es ks k T l) as (r & k' & T' & l' & ps & H1 & G & Hr & Hlf & Hpg); [done..|].
  destruct G as [Gok Gp Gin _ _ _ Gd _ _].
  exists r, k', T', l', ps. split; [exact H1|]. split; [exact Hr|].
  split; [|split; [exact Hlf|split; [exact Hpg|split; [exact Gok|exact Gp]]]].
  intros i p e Hi He. pose proof (lookup_lt_Some _ _ _ Hi) as Hlt.
  assert (Ht : take (length ps) es !! i = Some e) by (by rewrite lookup_take_lt).
  split.
  - rewrite <- (Z.add_0_l (Z.of_nat i * PGSIZE)). apply Gin.
    rewrite lookup_zip_with, Hi. cbn. rewrite list_lookup_fmap, Ht. reflexivity.
  - eapply Forall2_lookup_lr in Gd; [exact Gd|exact Hi|]. rewrite list_lookup_fmap, Ht. reflexivity.
Qed.

(** Uvmdealloc() to a smaller size unmaps and frees exactly the pages
    between the two sizes rounded up, and returns the new size; to a larger
    or equal size it changes nothing and returns the old one. *)
Theorem uvmdealloc_frees pt oldsz newsz es ks k T l :
  (newsz < oldsz → pages_between newsz oldsz = length es) →
  vm_ok k pt T l → 0 ≤ newsz → oldsz ≤ MAXVA →
  mapped (k_mem k) T (PGROUNDUP newsz) es → Forall leaf_entry es →
  Forall page_ok (PTE2PA <$> es) → NoDup ((PTE2PA <$> es) ++ tables T ++ l) →
  (oldsz ≤ newsz → uvmdealloc pt oldsz newsz ks k = Ok oldsz ks k) ∧
  (newsz < oldsz → ∃ k',
     uvmdealloc pt oldsz newsz ks k = Ok newsz ks k' ∧
     vm_ok k' pt T (reverse (PTE2PA <$> es) ++ l) ∧
     ∀ va, 0 ≤ va < MAXVA → page_aligned va →
       leaf (k_mem k') T va =
         if decide (PGROUNDUP newsz ≤ va < PGROUNDUP oldsz) then 0 else leaf (k_mem k) T va).
Proof.
  intros Hlen Hok H0 Hmax Hm Hle Hpo Hnd. split.
  { intros Hge. unfold uvmdealloc. by destruct (Z.leb_spec oldsz newsz); [|lia]. }
  intros Hlt. specialize (Hlen Hlt).
  destruct (pages_between_spec newsz oldsz ltac:(lia) Hmax) as [Hn _]. rewrite Hlen in Hn.
  destruct (PGROUNDUP_low newsz ltac:(lia)) as (B1 & A1 & M1).
  destruct (PGROUNDUP_low oldsz ltac:(lia)) as (B2 & A2 & M2).
  destruct es as [|e es].
  - cbn in Hn. exists k. split; [|split; [done|]].
    + unfold uvmdealloc. destruct (Z.leb_spec oldsz newsz); [lia|]. rewrite bind_run, when_run.
      destruct (Z.ltb_spec (PGROUNDUP newsz) (PGROUNDUP oldsz)); [lia|done].
    + intros va Hva Hal. by rewrite decide_False by lia.
  - destruct (uvmunmap_spec true (e :: es) pt (PGROUNDUP newsz) ks k T l)
      as (k' & H1 & Hok' & Hu & _); [done|done|lia|lia|done..|].
    exists k'. split; [|split; [done|]].
    + rewrite (uvmdealloc_run _ _ _ (length (e :: es))) by (lia || cbn; lia).
      by rewrite bind_run, H1.
    + intros va Hva Hal. rewrite Hu by done. by rewrite Hn.
Qed.
End vmuser.

Section witnesses.
#[local] Existing Instance sample_image.


(** A process with one page and an empty table for its child. *)
Definition sample_grown : kernel :=
  match uvmalloc sample_root 0 100 PTE_W [] sample_vm with Ok _ _ k => k | _ => sample_vm end.
Definition sample_forked : kernel :=
  match uvmcreate [] sample_grown with Ok _ _ k => k | _ => sample_grown end.
Definition sample_child : Z :=
  match uvmcreate [] sample_grown with Ok p _ _ => p | _ => 0 end.

Lemma sample_grown_ok : ∃ To p l,
  grown_zero sample_root 0 (Z.lor (Z.lor PTE_R PTE_U) PTE_W) sample_vm sample_tree sample_free_pages
    [p] sample_grown To l.
Proof.
  destruct sample_vm_ok as [Hok Hlf].
  destruct (uvmalloc_spec sample_root 0 100 PTE_W [] sample_vm sample_tree sample_free_pages Hok)
    as (r & k' & T' & l' & ps & H1 & G & Hr); [by_eval..|intros i _; apply Hlf|].
  assert (E : match uvmalloc sample_root 0 100 PTE_W [] sample_vm with
    | Ok r _ _ => r | _ => 0 end = 100) by (vm_compute; reflexivity).
  unfold sample_grown. rewrite H1 in *. subst r. destruct Hr as [[_ Hl]|[Hr _]]; [|discriminate Hr].
  destruct ps as [|p [|? ?]]; [discriminate Hl| |discriminate Hl].
  exists T', p, l'. exact G.
Qed.

(** The facts about that process the theorems ask for. *)
Lemma sample_grown_facts : ∃ To p l,
  let e := leaf_pte p (Z.lor (Z.lor PTE_R PTE_U) PTE_W) in
  vm_ok sample_grown sample_root To l ∧ mapped (k_mem sample_grown) To 0 [e] ∧
  Forall leaf_entry [e] ∧ Forall page_ok (PTE2PA <$> [e]) ∧
  NoDup ((PTE2PA <$> [e]) ++ tables To ++ l) ∧
  (∀ va, PGSIZE ≤ va < MAXVA → page_aligned va → leaf (k_mem sample_grown) To va = 0).
Proof.
  destruct sample_grown_ok as (To & p & l & G). destruct sample_vm_ok as [Hok Hlf].
  pose proof (grown_nodup _ _ _ _ _ _ _ _ _ _ _ Hok G) as Hnd.
  pose proof (grown_pages_ok _ _ _ _ _ _ _ _ _ _ _ Hok G) as Hpo.
  destruct (zip_leaf_pte_pa [p] [Z.lor (Z.lor PTE_R PTE_U) PTE_W]) as [Hle Hpa];
    [exact Hpo|reflexivity|by_eval|].
  cbn [zip_with] in Hle, Hpa. exists To, p, l. cbn zeta. rewrite Hpa. split; [apply G|].
  split; [exact (gr_leaf_in _ _ _ _ _ _ _ _ _ _ _ G)|]. split; [exact Hle|].
  split; [exact Hpo|]. split; [exact Hnd|]. intros va Hva Hal.
  rewrite (gr_leaf_out _ _ _ _ _ _ _ _ _ _ _ G); [apply Hlf|unfold PGSIZE in *; lia|done|].
  cbn [length]. unfold PGSIZE in *. lia.
Qed.

Lemma uvmdealloc_frees_witness :
  ∃ k', uvmdealloc sample_root 100 0 [] sample_grown = Ok 0 [] k'.
Proof.
  destruct sample_grown_facts as (To & p & l & Hok & Hm & Hle & Hpo & Hnd & _).
  destruct (uvmdealloc_frees sample_root 100 0 [leaf_pte p (Z.lor (Z.lor PTE_R PTE_U) PTE_W)] []
    sample_grown To l ltac:(intros _; reflexivity) Hok ltac:(by_eval) ltac:(by_eval) Hm Hle Hpo Hnd) as [_ H].
  destruct H as (k' & H & _); [by_eval|]. exists k'. exact H.
Defined.

Lemma sample_fork_facts : ∃ To p l,
  let e := leaf_pte p (Z.lor (Z.lor PTE_R PTE_U) PTE_W) in
  vm_ok sample_forked sample_child {[ [] := sample_child ]} l ∧
  (∀ va, leaf (k_mem sample_forked) {[ [] := sample_child ]} va = 0) ∧
  pt_wf (k_mem sample_forked) sample_root To ∧
  mapped (k_mem sample_forked) To 0 [e] ∧
  Forall leaf_entry [e] ∧ Forall page_ok (PTE2PA <$> [e]) ∧
  (∀ q, q ∈ tables To ++ (PTE2PA <$> [e]) → q ∉ tables {[ [] := sample_child ]} ++ l).
Proof.
  destruct sample_grown_facts as (To & p & l & Hok & Hm & Hle & Hpo & Hnd & _).
  destruct l as [|c l].
  { exfalso. destruct (kalloc_vm_none [] sample_grown sample_root To Hok) as (k1 & H1 & _).
    assert (E : match kalloc [] sample_grown with Ok p _ _ => p =? 0 | _ => true end = false)
      by (vm_compute; reflexivity). by rewrite H1 in E. }
  destruct (uvmcreate_spec [] sample_grown c l) as (k' & H1 & Hok' & Hlf & _ & Hfr);
    [apply Hok|apply Hok|apply Hok|].
  assert (Hc : sample_child = c) by (unfold sample_child; by rewrite H1).
  assert (Hk : sample_forked = k') by (unfold sample_forked; by rewrite H1).
  rewrite Hc, Hk. exists To, p, l. cbn zeta.
  assert (Htc : tables {[ [] := c ]} = [c]) by (unfold tables; by rewrite map_to_list_singleton).
  assert (Hperm : (PTE2PA <$> [leaf_pte p (Z.lor (Z.lor PTE_R PTE_U) PTE_W)]) ++ tables To ++ c :: l
    ≡ₚ (tables To ++ (PTE2PA <$> [leaf_pte p (Z.lor (Z.lor PTE_R PTE_U) PTE_W)])) ++ c :: l).
  { rewrite (assoc_L app). by rewrite (Permutation_app_comm _ (tables To)). }
  rewrite Hperm in Hnd. apply NoDup_app in Hnd as (_ & Hd & _).
  assert (Hdc : c ∉ tables To).
  { intros Hin. apply (Hd c); [apply elem_of_app; by left|constructor]. }
  assert (Hco : page_ok c).
  { pose proof (vm_all_ok _ _ _ _ Hok') as H. rewrite Htc in H. by apply Forall_cons in H as [? _]. }
  destruct (pt_wf_frame [c] (k_mem sample_grown) (k_mem k') sample_root To) as [Hwf' Hlf'];
    [done|by constructor| |apply Hok|].
  { by intros q ->%list_elem_of_singleton. }
  split; [exact Hok'|]. split; [exact Hlf|]. split; [exact Hwf'|]. split.
  { intros i e He. rewrite Hlf'. by apply Hm. }
  split; [exact Hle|]. split; [exact Hpo|]. rewrite Htc. exact Hd.
Qed.

Lemma uvmcopy_copies_witness :
  ∃ k', uvmcopy sample_root sample_child 100 [] sample_forked = Ok 0 [] k'.
Proof.
  destruct sample_fork_facts as (To & p & l & Hok & Hlf & Hwf & Hm & Hle & Hpo & Hd).
  destruct (uvmcopy_copies sample_root sample_child 100 To _ [] sample_forked _ l
    Hok Hwf Hm Hle Hpo Hd) as (r & k' & T' & l' & ps & H1 & _); [by_eval|reflexivity|intros i _; apply Hlf|].
  assert (E : match uvmcopy sample_root sample_child 100 [] sample_forked with
    | Ok r _ _ => r | _ => 1 end = 0) by (vm_compute; reflexivity).
  rewrite H1 in E. subst r. exists k'. exact H1.
Defined.
End witnesses.
