(* ===== verification/VmFree.v ===== *)
(** * Giving an address space back: freewalk() and uvmfree() of vm.c

    freewalk() recurses over a page table without leaves and returns its
    pages to the allocator; uvmfree() first unmaps and frees user memory.
    Together they return every page of a process, and the recursion needs no
    more than the three levels of an Sv39 table. *)

From S2P Require Import Prelude KMonad Memory Riscv State Spinlock Kalloc Vm VmUser.

Section vmfree.
Context `{KI : KernelImage}.

(** ** freewalk() *)
Section freewalk.
Context (T : tree).
Hypothesis Hdepth : ∀ path p, T !! path = Some p → (length path ≤ 2)%nat.
Hypothesis Hpage : ∀ path p, T !! path = Some p → page_ok p.
Hypothesis Hchild : ∀ i path q, T !! (i :: path) = Some q → 0 ≤ i < 512 ∧ is_Some (T !! path).
Hypothesis Hnodup : NoDup (tables T).

(** The pages of the subtree hanging at [path]. *)
Definition in_subtree (path : list Z) (q : Z) : Prop :=
  ∃ path', path `suffix_of` path' ∧ T !! path' = Some q.

(** Every entry of the subtree points to the table [T] says, or is 0: in
    particular there are no leaves. *)
Definition subtree_ents (m : memory) (path : list Z) : Prop :=
  ∀ path' q i, path `suffix_of` path' → T !! path' = Some q → 0 ≤ i < 512 →
    ent m q i = table_pte (T !! (i :: path')).

(** From free pages [l] to [l'] by giving back the pages satisfying [P],
    writing only on pages satisfying [F]. *)
Definition gives_back (P F : Z → Prop) (k : kernel) (l : list Z) (k' : kernel) (l' : list Z) : Prop :=
  kmem_ready k' ∧ free_pages k' l' ∧ (∀ q, q ∈ l' ↔ q ∈ l ∨ P q) ∧
  (∀ x, (∀ q, F q → ¬ (q ≤ x < q + PGSIZE)) → k_mem k' x = k_mem k x) ∧
  (mem_bytes (k_mem k) → mem_bytes (k_mem k')) ∧ vm_frame k k'.

Lemma kfree_gives_back ks k p l :
  kmem_ready k → free_pages k l → page_ok p → p ∉ l →
  ∃ k', kfree p ks k = Ok tt ks k' ∧ gives_back (λ q, q = p) (λ q, q = p) k l k' (p :: l).
Proof.
  intros Hr Hf Hp Hni. eexists. split; [by apply kfree_run|].
  split; [by apply (kmem_ready_settle k)|]. split; [by apply freelist_push|].
  split; [intros q; rewrite elem_of_cons; tauto|].
  split; [|split; [cbn; auto with ints|split; [by right|done]]].
  intros x Hx. specialize (Hx p eq_refl). cbn. unfold PGSIZE in *.
  by rewrite store64_out, fill_out by lia.
Qed.

Lemma subtree_disjoint i j path q :
  i ≠ j → in_subtree (i :: path) q → ¬ in_subtree (j :: path) q.
Proof.
  intros Hij (p1 & [s1 ->] & H1) (p2 & [s2 ->] & H2).
  pose proof (tables_inj T _ _ q Hnodup H1 H2) as E.
  assert (E' : (s1 ++ [i]) ++ path = (s2 ++ [j]) ++ path) by (by rewrite <- !(assoc_L app)).
  apply (inj (.++ path)), app_inj_2 in E' as [_ [=]]; done.
Qed.

Lemma subtree_root i path p : T !! path = Some p → ¬ in_subtree (i :: path) p.
Proof.
  intros Hp (p1 & [s1 ->] & H1). pose proof (tables_inj T _ _ p Hnodup Hp H1) as E.
  apply (f_equal length) in E. rewrite length_app in E. cbn in E. lia.
Qed.

Lemma subtree_ok path q : in_subtree path q → page_ok q.
Proof. intros (p' & _ & H). by eapply Hpage. Qed.

(** Memory that agrees outside [P] pages has the same entries on a page not in [P]. *)
Lemma ent_outside (P : Z → Prop) m m' q i :
  (∀ x, (∀ r, P r → ¬ (r ≤ x < r + PGSIZE)) → m' x = m x) →
  (∀ r, P r → page_ok r) → page_ok q → ¬ P q → 0 ≤ i < 512 → ent m' q i = ent m q i.
Proof.
  intros Hm HP Hq Hn Hi. apply ent_ext; [|done]. intros x Hx. apply Hm. intros r Hr Hx'.
  destruct (page_ok_disjoint q r) as [|]; [done|by apply HP|congruence|lia..].
Qed.

Lemma subtree_ents_outside (P : Z → Prop) m m' path :
  (∀ x, (∀ r, P r → ¬ (r ≤ x < r + PGSIZE)) → m' x = m x) →
  (∀ r, P r → page_ok r) → (∀ q, in_subtree path q → ¬ P q) →
  subtree_ents m path → subtree_ents m' path.
Proof.
  intros Hm HP Hd He path' q i Hs Hq Hi.
  rewrite (ent_outside P m m') by (eauto; apply Hd; by exists path'). by apply He.
Qed.

Lemma gives_back_trans P1 F1 P2 F2 k1 l1 k2 l2 k3 l3 :
  kmem_ready k1 → gives_back P1 F1 k1 l1 k2 l2 → gives_back P2 F2 k2 l2 k3 l3 →
  gives_back (λ q, P1 q ∨ P2 q) (λ q, F1 q ∨ F2 q) k1 l1 k3 l3.
Proof.
  intros Hr (_ & _ & I1 & M1 & B1 & K1) (R2 & L2 & I2 & M2 & B2 & K2). split_and!; try done.
  - intros q. rewrite I2, I1. tauto.
  - intros x Hx. rewrite M2, M1; [done|intros q Hq; apply Hx; tauto..].
  - auto.
  - by eapply vm_frame_trans.
Qed.

Lemma gives_back_iff P P' F F' k l k' l' :
  (∀ q, P q ↔ P' q) → (∀ q, F q → F' q) → gives_back P F k l k' l' → gives_back P' F' k l k' l'.
Proof.
  intros HP HF (R & L & I & M & B & K). split_and!; try done.
  - intros q. by rewrite I, HP.
  - intros x Hx. apply M. intros q Hq. by apply Hx, HF.
Qed.

(** Clearing entry [i] of a page that is not free. *)
Lemma store_pte_gives_back k p i l :
  kmem_ready k → free_pages k l → page_ok p → 0 ≤ i < 512 → p ∉ l →
  gives_back (λ _, False) (λ q, q = p) k l
    (k <| k_mem ::= λ m, store64 m (p + 8 * i) 0 |>) l.
Proof.
  intros Hr Hf Hp Hi Hni. split; [done|]. split.
  { apply freelist_frame with (k_mem k); [|done]. intros q x Hq Hx. cbn. apply store64_out.
    assert (page_ok q) by (eapply Forall_forall; [by eapply free_pages_ok|done]).
    destruct (page_ok_disjoint p q) as [|]; [done..|congruence| |]; unfold PGSIZE in *; lia. }
  split; [tauto|]. split; [|split; [cbn; auto with ints|split; [by left|done]]].
  intros x Hx. specialize (Hx p eq_refl). cbn. apply store64_out. unfold PGSIZE in Hx. lia.
Qed.

Definition freewalk_body (depth : nat) (pagetable : Z) (i : nat) : M kernel unit :=
  let a := pagetable + 8 * Z.of_nat i in
  pte ← load_pte a;
  if truthy (Z.land pte PTE_V) && (Z.land pte (Z.lor (Z.lor PTE_R PTE_W) PTE_X) =? 0) then
    freewalk_at depth (PTE2PA pte) ;;
    store_pte a 0
  else when (truthy (Z.land pte PTE_V)) (panic "freewalk: leaf").

(** freewalk() of a table at [path] gives back exactly its subtree. *)
Definition freewalk_frees (depth : nat) : Prop :=
  ∀ path p ks k l,
    (depth + length path = 3)%nat → T !! path = Some p → kmem_ready k → free_pages k l →
    subtree_ents (k_mem k) path → (∀ q, in_subtree path q → q ∉ l) →
    ∃ k' l', freewalk_at depth p ks k = Ok tt ks k' ∧
      gives_back (in_subtree path) (in_subtree path) k l k' l'.

Lemma table_pte_not_leaf q :
  page_ok q →
  truthy (Z.land (table_pte (Some q)) PTE_V) &&
    (Z.land (table_pte (Some q)) (Z.lor (Z.lor PTE_R PTE_W) PTE_X) =? 0) = true.
Proof.
  intros [Hq Ha]%page_ok_pa. rewrite andb_true_iff. split; [apply lor_V_valid|].
  apply Z.eqb_eq. rewrite land_flags by (by split). cbn [table_pte].
  rewrite PTE_FLAGS_PA2PTE by (done || rewrite PTE_V_1; lia). reflexivity.
Qed.

Lemma subtree_none path : T !! path = None → ∀ q, ¬ in_subtree path q.
Proof.
  intros Hn q (p' & [s ->] & H). revert q H. induction s as [|i s IH]; intros q H; cbn in H; [congruence|].
  apply Hchild in H as [_ [r Hr]]. by eapply IH.
Qed.

Lemma freewalk_body_spec d path p j ks k l :
  freewalk_frees d → (S d + length path = 3)%nat → T !! path = Some p → (j < 512)%nat →
  kmem_ready k → free_pages k l → subtree_ents (k_mem k) (Z.of_nat j :: path) →
  ent (k_mem k) p (Z.of_nat j) = table_pte (T !! (Z.of_nat j :: path)) → p ∉ l →
  (∀ q, in_subtree (Z.of_nat j :: path) q → q ∉ l) →
  ∃ k' l', freewalk_body d p j ks k = Ok tt ks k' ∧
    (∀ i, 0 ≤ i < 512 → i ≠ Z.of_nat j → ent (k_mem k') p i = ent (k_mem k) p i) ∧
    gives_back (in_subtree (Z.of_nat j :: path))
      (λ q, in_subtree (Z.of_nat j :: path) q ∨ q = p) k l k' l'.
Proof.
  intros Hd Hlen Hp Hj Hr Hf Hse He Hpl Hsl. unfold freewalk_body. cbn zeta.
  rewrite bind_run. cbn [load_pte gets].
  change (load64 _ _) with (ent (k_mem k) p (Z.of_nat j)). rewrite He.
  destruct (T !! (Z.of_nat j :: path)) as [q|] eqn:Hq.
  - pose proof (Hpage _ _ Hq) as Hqo. rewrite table_pte_not_leaf, table_pte_pa by done.
    destruct (Hd (Z.of_nat j :: path) q ks k l) as (k1 & l1 & H1 & G1); [cbn; lia|done..|].
    rewrite bind_run, H1. eexists _, l1. split; [done|].
    assert (Hpl1 : p ∉ l1).
    { destruct G1 as (_ & _ & I & _). rewrite I. intros [|Hin]; [done|].
      by apply (subtree_root (Z.of_nat j) path p). }
    split.
    { intros i Hi Hij. cbn. rewrite ent_store_other by (eauto; lia || congruence).
      destruct G1 as (_ & _ & _ & M1 & _).
      apply (ent_outside (in_subtree (Z.of_nat j :: path))); [exact M1| |by eauto| |done].
      - intros r. apply subtree_ok.
      - by apply subtree_root. }
    eapply gives_back_iff; [| |eapply gives_back_trans; [exact Hr|exact G1|apply store_pte_gives_back]].
    + intros r. cbn. tauto.
    + intros r. cbn. tauto.
    + apply G1.
    + apply G1.
    + by eapply Hpage.
    + lia.
    + done.
  - change (truthy (Z.land (table_pte None) PTE_V)) with false. cbn.
    exists k, l. split; [done|]. split; [done|]. split; [done|]. split; [done|]. split.
    + intros q. split; [by left|]. intros [|Hin]; [done|]. by apply (subtree_none _ Hq) in Hin.
    + split; [done|]. split; [done|apply vm_frame_refl].
Qed.

(** The loop over the entries from [j] on. *)
Lemma freewalk_loop_spec d path p n j ks k l :
  freewalk_frees d → (S d + length path = 3)%nat → T !! path = Some p → (j + n = 512)%nat →
  kmem_ready k → free_pages k l →
  (∀ i, (j ≤ i < 512)%nat → subtree_ents (k_mem k) (Z.of_nat i :: path)) →
  (∀ i, (j ≤ i < 512)%nat → ent (k_mem k) p (Z.of_nat i) = table_pte (T !! (Z.of_nat i :: path))) →
  p ∉ l → (∀ i q, (j ≤ i < 512)%nat → in_subtree (Z.of_nat i :: path) q → q ∉ l) →
  ∃ k' l', for_each (seq j n) (freewalk_body d p) ks k = Ok tt ks k' ∧ (p ∉ l') ∧
    gives_back (λ q, ∃ i, (j ≤ i < 512)%nat ∧ in_subtree (Z.of_nat i :: path) q)
      (λ q, (∃ i, (j ≤ i < 512)%nat ∧ in_subtree (Z.of_nat i :: path) q) ∨ q = p) k l k' l'.
Proof.
  intros Hd Hlen Hp. revert j k l. induction n as [|n IH]; intros j k l Hj Hr Hf Hse He Hpl Hsl.
  { exists k, l. split; [done|]. split; [done|]. split; [done|]. split; [done|]. split.
    - intros q. split; [by left|]. intros [|(i & Hi & _)]; [done|lia].
    - split; [done|]. split; [done|apply vm_frame_refl]. }
  cbn [seq for_each].
  destruct (freewalk_body_spec d path p j ks k l) as (k1 & l1 & H1 & E1 & G1);
    [done..|lia|done|done|apply Hse; lia|apply He; lia|done|intros q; apply Hsl; lia|].
  rewrite bind_run, H1. pose proof G1 as (R1 & L1 & I1 & M1 & _).
  pose proof (subtree_root (Z.of_nat j) path p Hp) as Hroot.
  assert (Hpo : page_ok p) by (by eapply Hpage).
  assert (HFok : ∀ r, in_subtree (Z.of_nat j :: path) r ∨ r = p → page_ok r).
  { intros r [Hin| ->]; [by eapply subtree_ok|done]. }
  destruct (IH (S j) k1 l1) as (k2 & l2 & H2 & Hpl2 & G2); try done.
  - lia.
  - intros i Hi. eapply subtree_ents_outside; [exact M1|exact HFok| |apply Hse; lia].
    intros q Hq [Hin| ->]; [|by eapply subtree_root].
    eapply (subtree_disjoint (Z.of_nat i) (Z.of_nat j)); [lia|done|done].
  - intros i Hi. rewrite <- He by lia.
    apply E1; lia.
  - rewrite I1. intros [|Hin]; done.
  - intros i q Hi Hq. rewrite I1. intros [Hin|Hin]; [by apply (Hsl i q); [lia|..]|].
    eapply (subtree_disjoint (Z.of_nat i) (Z.of_nat j)); [lia|done|done].
  - exists k2, l2. split; [done|]. split; [done|].
    eapply gives_back_iff; [| |eapply gives_back_trans; [exact Hr|exact G1|exact G2]]; intros q; cbn.
    + split.
      * intros [Hin|(i & Hi & Hin)]; [exists j|exists i]; (split; [lia|done]).
      * intros (i & Hi & Hin). destruct (decide (i = j)) as [->|]; [by left|right].
        exists i. split; [lia|done].
    + intros [[Hin|Hin]|[(i & Hi & Hin)|Hin]]; [left; exists j; split; [lia|done]|by right| |by right].
      left. exists i. split; [lia|done].
Qed.

Lemma subtree_split path p q :
  T !! path = Some p →
  in_subtree path q ↔
    q = p ∨ ∃ i, (0 ≤ i < 512)%nat ∧ in_subtree (Z.of_nat i :: path) q.
Proof.
  intros Hp. split.
  - intros (path' & [s ->] & Hq). destruct s as [|i s] using rev_ind.
    + left. cbn in Hq. congruence.
    + right. rewrite <- (assoc_L app) in Hq. cbn in Hq.
      destruct (T !! (i :: path)) as [r|] eqn:Hr.
      * pose proof (Hchild _ _ _ Hr) as [Hi _]. exists (Z.to_nat i). split; [lia|].
        rewrite Z2Nat.id by lia. exists (s ++ i :: path). split; [by exists s|done].
      * exfalso. apply (subtree_none _ Hr q). exists (s ++ i :: path). split; [by exists s|done].
  - intros [->|(i & Hi & path' & Hs & Hq)]; [by exists path|]. exists path'. split; [|done].
    etrans; [|done]. by exists [Z.of_nat i].
Qed.

Lemma freewalk_at_spec d : freewalk_frees d.
Proof.
  induction d as [|d IH]; intros path p ks k l Hlen Hp Hr Hf Hse Hsl.
  { apply Hdepth in Hp. lia. }
  assert (Hsuf : ∀ i, path `suffix_of` (Z.of_nat i :: path)) by (intros i; by exists [Z.of_nat i]).
  destruct (freewalk_loop_spec d path p 512 0 ks k l) as (k1 & l1 & H1 & Hpl & G1); try done.
  - intros i Hi path' q j Hs. apply Hse. etrans; [apply (Hsuf i)|exact Hs].
  - intros i Hi. apply Hse; [done|done|lia].
  - apply Hsl. by exists path.
  - intros i q Hi Hq. apply Hsl. apply (subtree_split path p); [done|]. right. by exists i.
  - destruct (kfree_gives_back ks k1 p l1) as (k2 & H2 & G2); [apply G1|apply G1|by eapply Hpage|done|].
    exists k2, (p :: l1). split.
    + change (freewalk_at (S d) p) with (for_each (seq 0 512) (freewalk_body d p) ;; kfree p).
      by rewrite bind_run, H1.
    + eapply gives_back_iff; [| |eapply gives_back_trans; [exact Hr|exact G1|exact G2]];
        intros q; cbn; rewrite (subtree_split path p q Hp); tauto.
Qed.
End freewalk.

(** A well-formed table without leaves is what freewalk() expects. *)
Lemma no_leaves_subtree m pt T :
  pt_wf m pt T → (∀ va, 0 ≤ va < MAXVA → page_aligned va → leaf m T va = 0) →
  subtree_ents T m [].
Proof.
  intros Hwf Hz path q i _ Hq Hi. destruct (decide (length path < 2)%nat) as [Hl|Hl].
  { by apply (wf_ent _ _ _ Hwf). }
  pose proof (wf_depth _ _ _ Hwf _ _ Hq) as Hd.
  assert (T !! (i :: path) = None) as ->.
  { apply eq_None_not_Some. intros [r Hr%(wf_depth _ _ _ Hwf)]. cbn in Hr. lia. }
  destruct path as [|i1 [|i2 [|? ?]]]; cbn in *; try lia.
  destruct (wf_child _ _ _ Hwf _ _ _ Hq) as [Hi1 [r Hr]].
  destruct (wf_child _ _ _ Hwf _ _ _ Hr) as [Hi2 _].
  pose proof (wf_low _ _ _ Hwf _ _ Hr) as Hlow.
  destruct (PX_compose i2 i1 i ltac:(lia) Hi1 Hi) as (Hva & Hal & H2 & H1 & H0).
  specialize (Hz _ Hva Hal). unfold leaf in Hz. by rewrite H1, H2, H0, Hq in Hz.
Qed.

(** The allocator at rest, with free pages [l]. *)
Record mem_state (k : kernel) (l : list Z) : Prop := {
  ms_ready : kmem_ready k;
  ms_bytes : mem_bytes (k_mem k);
  ms_free : free_pages k l;
}.

Lemma freewalk_spec pt T ks k l :
  vm_ok k pt T l → (∀ va, 0 ≤ va < MAXVA → page_aligned va → leaf (k_mem k) T va = 0) →
  ∃ k' l', freewalk pt ks k = Ok tt ks k' ∧ mem_state k' l' ∧
    l' ≡ₚ tables T ++ l ∧ vm_frame k k' ∧ pages_frame (tables T) (k_mem k) (k_mem k').
Proof.
  intros [Hr Hb Hf Hwf Hn] Hz.
  assert (Hin : ∀ q, in_subtree T [] q ↔ q ∈ tables T).
  { intros q. rewrite elem_of_tables. split; [intros (p & _ & H); eauto|].
    intros [p Hp]. exists p. split; [apply suffix_nil|done]. }
  apply NoDup_app in Hn as Hn'. destruct Hn' as (HnT & Hd & HnL).
  destruct (freewalk_at_spec T (wf_depth _ _ _ Hwf) (wf_page _ _ _ Hwf) (wf_child _ _ _ Hwf) HnT
    3 [] pt ks k l) as (k' & l' & H1 & R & L & I & Fr & B & K); try done.
  - apply Hwf.
  - by eapply no_leaves_subtree.
  - intros q Hq. apply Hd. by apply Hin.
  - exists k', l'. split_and!; try done.
    + split; [exact R|by apply B|exact L].
    + apply NoDup_Permutation; [apply L|done|]. intros q. rewrite I, Hin, elem_of_app. tauto.
    + intros x Hx. apply Fr. intros q Hq. apply Hx. by apply Hin.
Qed.

Lemma uvmfree_spec pt sz es ks k T l :
  vm_ok k pt T l → 0 ≤ sz ≤ MAXVA → PGROUNDUP sz = Z.of_nat (length es) * PGSIZE →
  mapped (k_mem k) T 0 es → Forall leaf_entry es → Forall page_ok (PTE2PA <$> es) →
  NoDup ((PTE2PA <$> es) ++ tables T ++ l) →
  (∀ va, PGROUNDUP sz ≤ va < MAXVA → page_aligned va → leaf (k_mem k) T va = 0) →
  ∃ k' l', uvmfree pt sz ks k = Ok tt ks k' ∧ mem_state k' l' ∧
    l' ≡ₚ (PTE2PA <$> es) ++ tables T ++ l ∧ vm_frame k k' ∧
    pages_frame ((PTE2PA <$> es) ++ tables T) (k_mem k) (k_mem k').
Proof.
  intros Hok Hsz Hlen Hm Hle Hpo Hnd Hz. destruct (PGROUNDUP_low sz Hsz) as (B & A & M).
  assert (∃ k1 l1, when (0 <? sz) (uvmunmap pt 0 (PGROUNDUP sz / PGSIZE) true) ks k = Ok tt ks k1 ∧
    vm_ok k1 pt T l1 ∧ l1 ≡ₚ (PTE2PA <$> es) ++ l ∧ vm_frame k k1 ∧
    pages_frame ((PTE2PA <$> es) ++ tables T) (k_mem k) (k_mem k1) ∧
    (∀ va, 0 ≤ va < MAXVA → page_aligned va → leaf (k_mem k1) T va = 0))
    as (k1 & l1 & H1 & Hok1 & Hl1 & Hf1 & Hp1 & Hz1).
  { destruct (Z.ltb_spec 0 sz).
    - rewrite Hlen, Z.div_mul by done. cbn [when].
      destruct (uvmunmap_spec true es pt 0 ks k T l) as (k1 & H1 & Hok1 & Hu & Hp1 & Hf1); try done; [lia|].
      exists k1, (reverse (PTE2PA <$> es) ++ l). split_and!; [done|done|by rewrite reverse_Permutation|done|done|].
      intros va Hva Hal. rewrite Hu by done. case_decide; [done|]. apply Hz; [lia|done].
    - assert (sz = 0) as -> by lia. rewrite PGROUNDUP_id in Hlen by done.
      destruct es; [|cbn in Hlen; unfold PGSIZE in Hlen; lia].
      exists k, l. split_and!; try done. apply vm_frame_refl. }
  destruct (freewalk_spec pt T ks k1 l1) as (k2 & l2 & H2 & R & P & Hf2 & Hp2); [done..|].
  exists k2, l2. split; [unfold uvmfree; by rewrite bind_run, H1|]. split; [done|].
  split; [rewrite P, Hl1, !(assoc_L app); by rewrite (Permutation_app_comm (tables T))|].
  split; [eapply vm_frame_trans; [apply Hok|done..]|].
  eapply pages_frame_trans; [exact Hp1|]. eapply pages_frame_mono; [|exact Hp2]. set_solver.
Qed.

(** ** Properties *)

(** Uvmfree() of an address space of [sz] bytes, whose pages are mapped
    from address 0 on and nothing else, terminates without a panic and gives
    back to the allocator every user page and every page-table page, each
    exactly once. *)
Theorem uvmfree_frees_all pt sz es ks k T l :
  vm_ok k pt T l → 0 ≤ sz ≤ MAXVA → PGROUNDUP sz = Z.of_nat (length es) * PGSIZE →
  mapped (k_mem k) T 0 es → Forall leaf_entry es → Forall page_ok (PTE2PA <$> es) →
  NoDup ((PTE2PA <$> es) ++ tables T ++ l) →
  (∀ va, PGROUNDUP sz ≤ va < MAXVA → page_aligned va → leaf (k_mem k) T va = 0) →
  ∃ k' l', uvmfree pt sz ks k = Ok tt ks k' ∧ kmem_ready k' ∧ free_pages k' l' ∧
    l' ≡ₚ (PTE2PA <$> es) ++ tables T ++ l.
Proof.
  intros Hok Hsz Hlen Hm Hle Hpo Hnd Hz.
  destruct (uvmfree_spec pt sz es ks k T l) as (k' & l' & H1 & [H2 _ H3] & H4 & _); [done..|].
  by exists k', l'.
Qed.
End vmfree.

Section witnesses.
#[local] Existing Instance sample_image.

Lemma uvmfree_frees_all_witness :
  ∃ k' l', uvmfree sample_root 100 [] sample_grown = Ok tt [] k' ∧ free_pages k' l'.
Proof.
  destruct sample_grown_facts as (To & p & l & Hok & Hm & Hle & Hpo & Hnd & Hz).
  destruct (uvmfree_frees_all sample_root 100 [leaf_pte p (Z.lor (Z.lor PTE_R PTE_U) PTE_W)] []
    sample_grown To l Hok ltac:(by_eval) eq_refl
    Hm Hle Hpo Hnd Hz) as (k' & l' & H1 & _ & H2 & _).
  exists k', l'. split; [exact H1|exact H2].
Defined.
End witnesses.
