(* ===== verification/VmCopy.v ===== *)
(** * Copies between user and kernel memory: copyout(), copyin(), copyinstr() of vm.c

    The kernel side of a copy is the list of bytes at the kernel address; the
    user side is physical memory reached through the page table.  The
    theorems describe the copies by the user's view of memory ([user_byte]),
    and show that they touch only pages the process may access. *)

From S2P Require Import Prelude KMonad Memory Riscv State Spinlock Kalloc Vm VmUser.

Section vmcopy.
Context `{KI : KernelImage}.

(** [while(len > 0)]: [src] is what is left to copy. *)
Fixpoint copyout_loop (fuel : nat) (pagetable dstva : Z) (src : list Z) : M kernel Z :=
  match fuel with
  | O => λ _ _, OutOfFuel
  | S fuel' =>
      let len := Z.of_nat (length src) in
      if len =? 0 then mret 0 else
      let va0 := PGROUNDDOWN dstva in
      if MAXVA <=? va0 then mret (-1) else
      pte ← walk pagetable va0 false;
      if pte =? 0 then mret (-1) else
      e ← load_pte pte;
      if (Z.land e PTE_V =? 0) || (Z.land e PTE_U =? 0) || (Z.land e PTE_W =? 0) then mret (-1) else
      let pa0 := PTE2PA e in
      let n := Z.min (PGSIZE - (dstva - va0)) len in
      modify (λ k, k <| k_mem ::= λ m, store_bytes m (pa0 + (dstva - va0)) (take (Z.to_nat n) src) |>) ;;
      copyout_loop fuel' pagetable (u64 (va0 + PGSIZE)) (drop (Z.to_nat n) src)
  end.

Definition copyout (pagetable dstva : Z) (src : list Z) : M kernel Z :=
  copyout_loop (S (length src)) pagetable dstva src.

(** The result is paired with the bytes written to [dst]. *)
Fixpoint copyin_loop (fuel : nat) (pagetable srcva len : Z) (dst : list Z) : M kernel (Z * list Z) :=
  match fuel with
  | O => λ _ _, OutOfFuel
  | S fuel' =>
      if len =? 0 then mret (0, dst) else
      let va0 := PGROUNDDOWN srcva in
      pa0 ← walkaddr pagetable va0;
      if pa0 =? 0 then mret (-1, dst) else
      let n := Z.min (PGSIZE - (srcva - va0)) len in
      bs ← gets (λ k, load_bytes (k_mem k) (pa0 + (srcva - va0)) (Z.to_nat n));
      copyin_loop fuel' pagetable (u64 (va0 + PGSIZE)) (len - n) (dst ++ bs)
  end.

Definition copyin (pagetable srcva len : Z) : M kernel (Z * list Z) :=
  copyin_loop (S (Z.to_nat len)) pagetable srcva len [].

(** The inner loop of copyinstr(): at most [n] bytes from [p]; the flag is
    [got_null]. *)
Fixpoint copystr_page (m : memory) (p : Z) (n : nat) : list Z * bool :=
  match n with
  | O => ([], false)
  | S n' =>
      if m p =? 0 then ([0], true)
      else let '(bs, got_null) := copystr_page m (p + 1) n' in (m p :: bs, got_null)
  end.

(** [while(got_null == 0 && max > 0)] *)
Fixpoint copyinstr_loop (fuel : nat) (pagetable srcva max : Z) (dst : list Z) : M kernel (Z * list Z) :=
  match fuel with
  | O => λ _ _, OutOfFuel
  | S fuel' =>
      if max =? 0 then mret (-1, dst) else
      let va0 := PGROUNDDOWN srcva in
      pa0 ← walkaddr pagetable va0;
      if pa0 =? 0 then mret (-1, dst) else
      let n := Z.min (PGSIZE - (srcva - va0)) max in
      r ← gets (λ k, copystr_page (k_mem k) (pa0 + (srcva - va0)) (Z.to_nat n));
      let '(bs, got_null) := (r : list Z * bool) in
      if (got_null : bool) then mret (0, dst ++ bs)
      else copyinstr_loop fuel' pagetable (u64 (va0 + PGSIZE)) (max - n) (dst ++ bs)
  end.

Definition copyinstr (pagetable srcva max : Z) : M kernel (Z * list Z) :=
  copyinstr_loop (S (Z.to_nat max)) pagetable srcva max [].

(** ** The user's view of memory *)

Definition user_entry (e : Z) : bool := negb (Z.land e PTE_V =? 0) && negb (Z.land e PTE_U =? 0).
Definition writable_entry (e : Z) : bool := user_entry e && negb (Z.land e PTE_W =? 0).

(** The byte the process reads at [va]. *)
Definition user_byte (m : memory) (T : tree) (va : Z) : option Z :=
  if decide (va < MAXVA) then
    if user_entry (leaf m T va) then Some (m (PTE2PA (leaf m T va) + va mod PGSIZE)) else None
  else None.

Definition user_writable (m : memory) (T : tree) (va : Z) : bool :=
  bool_decide (va < MAXVA) && writable_entry (leaf m T va).

Definition user_bytes (m : memory) (T : tree) (va : Z) (n : nat) : option (list Z) :=
  mapM (user_byte m T) ((λ i, va + Z.of_nat i) <$> seq 0 n).

(** The process owns the pages its user entries name: they are neither page
    tables nor free, and no page is mapped twice. *)
Record user_sep (m : memory) (T : tree) (l : list Z) : Prop := {
  us_page : ∀ va, 0 ≤ va < MAXVA → page_aligned va → user_entry (leaf m T va) = true →
    page_ok (PTE2PA (leaf m T va)) ∧ PTE2PA (leaf m T va) ∉ tables T ++ l;
  us_inj : ∀ va va', 0 ≤ va < MAXVA → 0 ≤ va' < MAXVA → page_aligned va → page_aligned va' →
    user_entry (leaf m T va) = true → user_entry (leaf m T va') = true →
    PTE2PA (leaf m T va) = PTE2PA (leaf m T va') → va = va';
}.

Lemma user_bytes_S m T va n :
  user_bytes m T va (S n) =
    (b ← user_byte m T va; bs ← user_bytes m T (va + 1) n; Some (b :: bs)).
Proof.
  unfold user_bytes. cbn [seq fmap list_fmap mapM]. rewrite Z.add_0_r.
  assert ((λ i, va + Z.of_nat i) <$> seq 1 n = (λ i, va + 1 + Z.of_nat i) <$> seq 0 n) as ->; [|done].
  rewrite <- fmap_S_seq, <- list_fmap_compose. apply list_fmap_ext. intros i x _. cbn. lia.
Qed.

Lemma user_bytes_app m T va n1 n2 :
  user_bytes m T va (n1 + n2) =
    (b1 ← user_bytes m T va n1; b2 ← user_bytes m T (va + Z.of_nat n1) n2; Some (b1 ++ b2)).
Proof.
  revert va. induction n1 as [|n1 IH]; intros va.
  - change (user_bytes m T va 0) with (Some (@nil Z)). cbn [mbind option_bind Nat.add].
    rewrite Z.add_0_r. by destruct (user_bytes m T va n2).
  - cbn [Nat.add]. rewrite !user_bytes_S. destruct (user_byte m T va) as [b|]; [cbn [mbind option_bind]|done].
    rewrite IH. replace (va + 1 + Z.of_nat n1) with (va + Z.of_nat (S n1)) by lia.
    destruct (user_bytes m T (va + 1) n1) as [b1|]; [cbn [mbind option_bind]|done].
    by destruct (user_bytes m T (va + Z.of_nat (S n1)) n2).
Qed.

Lemma user_pa_entry e : user_pa e = if user_entry e then PTE2PA e else 0.
Proof. unfold user_pa, user_entry. by destruct (_ =? 0), (_ =? 0). Qed.

Lemma mod_PGROUNDDOWN a : a mod PGSIZE = a - PGROUNDDOWN a.
Proof. rewrite PGROUNDDOWN_spec. pose proof (Z.div_mod a PGSIZE). unfold PGSIZE in *. lia. Qed.

Lemma PGROUNDDOWN_nonneg a : 0 ≤ a → 0 ≤ PGROUNDDOWN a.
Proof. intros. rewrite PGROUNDDOWN_spec. unfold PGSIZE. Z.div_mod_to_equations. lia. Qed.

(** Addresses of one page share their entry. *)
Lemma same_page a b : PGROUNDDOWN a ≤ b < PGROUNDDOWN a + PGSIZE → PGROUNDDOWN b = PGROUNDDOWN a.
Proof. rewrite !PGROUNDDOWN_spec. unfold PGSIZE. intros H. Z.div_mod_to_equations. lia. Qed.

Lemma PGROUNDDOWN_lt_MAXVA a : PGROUNDDOWN a < MAXVA ↔ a < MAXVA.
Proof.
  rewrite PGROUNDDOWN_spec. change MAXVA with (2 ^ 38). unfold PGSIZE.
  split; intros; Z.div_mod_to_equations; lia.
Qed.

Lemma user_byte_page m T va a :
  PGROUNDDOWN va ≤ a < PGROUNDDOWN va + PGSIZE →
  user_byte m T a =
    if bool_decide (va < MAXVA) && user_entry (leaf m T va)
    then Some (m (PTE2PA (leaf m T va) + (a - PGROUNDDOWN va))) else None.
Proof.
  intros Ha. pose proof (same_page va a Ha) as Hs. unfold user_byte.
  rewrite <- (leaf_PGROUNDDOWN m T a), Hs, (leaf_PGROUNDDOWN m T va).
  assert (a < MAXVA ↔ va < MAXVA) as Hm by (by rewrite <- (PGROUNDDOWN_lt_MAXVA a), <- (PGROUNDDOWN_lt_MAXVA va), Hs).
  rewrite mod_PGROUNDDOWN, Hs. destruct (decide (va < MAXVA)) as [H|H].
  - rewrite decide_True, bool_decide_eq_true_2 by (exact H || exact (proj2 Hm H)). reflexivity.
  - rewrite decide_False, bool_decide_eq_false_2 by (exact H || rewrite Hm; exact H). reflexivity.
Qed.

Lemma user_bytes_page m T va n :
  va < MAXVA → user_entry (leaf m T va) = true →
  va + Z.of_nat n ≤ PGROUNDDOWN va + PGSIZE →
  user_bytes m T va n = Some (load_bytes m (PTE2PA (leaf m T va) + (va - PGROUNDDOWN va)) n).
Proof.
  intros Hlt Hu Hn. unfold user_bytes. apply mapM_Some, Forall2_same_length_lookup.
  split; [by rewrite load_bytes_length, length_fmap, length_seq|].
  intros i a b Hi Hb. pose proof (PGROUNDDOWN_bounds va).
  apply list_lookup_fmap_Some in Hi as (j & -> & Hj). apply lookup_seq in Hj as [-> Hj].
  rewrite load_bytes_lookup in Hb by done. injection Hb as <-.
  rewrite (user_byte_page m T va), Hu, bool_decide_eq_true_2 by lia. cbn. do 2 f_equal. lia.
Qed.

Lemma user_bytes_none m T va n :
  (0 < n)%nat → bool_decide (va < MAXVA) && user_entry (leaf m T va) = false →
  user_bytes m T va n = None.
Proof.
  intros Hn Hu. destruct n as [|n]; [lia|]. rewrite user_bytes_S, (user_byte_page m T va), Hu; [done|].
  pose proof (PGROUNDDOWN_bounds va). lia.
Qed.

(** What walkaddr() returns for the page of [va] in a separated space. *)
Lemma walkaddr_page pt T l va ks k :
  vm_ok k pt T l → user_sep (k_mem k) T l → 0 ≤ va →
  ∃ pa, walkaddr pt (PGROUNDDOWN va) ks k = Ok pa ks k ∧
    (if bool_decide (va < MAXVA) && user_entry (leaf (k_mem k) T va)
     then pa = PTE2PA (leaf (k_mem k) T va) ∧ pa ≠ 0 else pa = 0).
Proof.
  intros Hok Hs Hva. pose proof (PGROUNDDOWN_nonneg va Hva).
  rewrite (walkaddr_run _ pt T) by (done || apply Hok). rewrite leaf_PGROUNDDOWN, user_pa_entry.
  eexists. split; [done|]. destruct (decide (PGROUNDDOWN va < MAXVA)) as [Hlt|Hge].
  - rewrite bool_decide_eq_true_2 by (by apply PGROUNDDOWN_lt_MAXVA). cbn [andb].
    destruct (user_entry _) eqn:Hu; [|done]. split; [done|].
    destruct (us_page _ _ _ Hs (PGROUNDDOWN va)) as [Hp _].
    + lia.
    + apply PGROUNDDOWN_aligned.
    + by rewrite leaf_PGROUNDDOWN.
    + rewrite leaf_PGROUNDDOWN in Hp. apply page_ok_pos in Hp. lia.
  - rewrite bool_decide_eq_false_2; [done|]. by rewrite <- PGROUNDDOWN_lt_MAXVA.
Qed.

(** The bytes one turn of a copy loop handles. *)
Lemma chunk_bounds va len :
  0 ≤ va → 0 < len →
  let n := Z.min (PGSIZE - (va - PGROUNDDOWN va)) len in
  0 < n ≤ len ∧ va + n ≤ PGROUNDDOWN va + PGSIZE ∧
  (n < len → va + n = PGROUNDDOWN va + PGSIZE).
Proof. intros H1 H2. pose proof (PGROUNDDOWN_bounds va). lia. Qed.

Lemma next_page_u64 va : 0 ≤ va < MAXVA → u64 (PGROUNDDOWN va + PGSIZE) = PGROUNDDOWN va + PGSIZE.
Proof.
  intros H. pose proof (PGROUNDDOWN_bounds va). pose proof (PGROUNDDOWN_nonneg va).
  change MAXVA with (2 ^ 38) in H. unfold PGSIZE in *. apply u64_small. lia.
Qed.

Lemma copyin_loop_spec fuel pt va len dst ks k T l :
  vm_ok k pt T l → user_sep (k_mem k) T l → 0 ≤ va → 0 ≤ len → (Z.to_nat len < fuel)%nat →
  ∃ r bs, copyin_loop fuel pt va len dst ks k = Ok (r, dst ++ bs) ks k ∧
    (r = 0 ∧ user_bytes (k_mem k) T va (Z.to_nat len) = Some bs ∨
     r = -1 ∧ user_bytes (k_mem k) T va (Z.to_nat len) = None).
Proof.
  intros Hok Hs. revert va len dst. induction fuel as [|fuel IH]; intros va len dst Hva Hlen Hfuel; [lia|].
  cbn [copyin_loop]. destruct (Z.eqb_spec len 0) as [->|Hne].
  { exists 0, []. rewrite app_nil_r. split; [done|by left]. }
  destruct (walkaddr_page pt T l va ks k Hok Hs Hva) as (pa & Hw & Hpa).
  rewrite bind_run, Hw. destruct (_ && _) eqn:Hu.
  - apply andb_true_iff in Hu as [Hlt%bool_decide_eq_true Hu]. destruct Hpa as [-> Hnz].
    destruct (Z.eqb_spec (PTE2PA (leaf (k_mem k) T va)) 0) as [|_]; [done|].
    destruct (chunk_bounds va len Hva ltac:(lia)) as (Hn1 & Hn2 & Hn3).
    set (n := Z.min _ _) in *. rewrite bind_run. cbn [gets].
    assert (Hsplit : Z.to_nat len = (Z.to_nat n + Z.to_nat (len - n))%nat) by lia.
    rewrite Hsplit, user_bytes_app, (user_bytes_page _ _ va (Z.to_nat n)), Z2Nat.id by (done || lia). cbn [mbind option_bind].
    destruct (decide (n = len)) as [E|Hnl].
    + replace (len - n) with 0 by lia. destruct fuel as [|fuel]; [lia|]. cbn [copyin_loop Z.eqb].
      eexists 0, _. split; [done|]. left. split; [done|].
      change (user_bytes (k_mem k) T (va + n) (Z.to_nat 0)) with (Some (@nil Z)).
      cbn [mbind option_bind]. by rewrite app_nil_r.
    + rewrite next_page_u64, <- Hn3 by lia.
      destruct (IH (va + n) (len - n) (dst ++ load_bytes (k_mem k) (PTE2PA (leaf (k_mem k) T va) +
        (va - PGROUNDDOWN va)) (Z.to_nat n))) as (r & bs & H1 & H2); [lia..|].
      eexists r, (_ ++ bs). rewrite (assoc_L app). split; [exact H1|].
      destruct H2 as [[-> H2]|[-> H2]]; rewrite H2; [by left|by right].
  - subst pa. cbn [Z.eqb]. exists (-1), []. rewrite app_nil_r. split; [done|]. right.
    split; [done|]. apply user_bytes_none; [lia|done].
Qed.

(** ** copyout() *)

Lemma PTE2PA_aligned e : page_aligned (PTE2PA e).
Proof.
  unfold page_aligned, PTE2PA, u64, PGSIZE. rewrite Z.shiftl_mul_pow2 by lia.
  change (2 ^ 64) with (2 ^ 52 * 2 ^ 12). rewrite Z.mul_mod_distr_r by lia. by apply Z.mod_mul.
Qed.

Lemma writable_user e : writable_entry e = true → user_entry e = true.
Proof. unfold writable_entry. by intros [? _]%andb_true_iff. Qed.

(** Writing [bs] into the page that [va] is mapped to. *)
Lemma write_chunk k pt T l va bs :
  vm_ok k pt T l → user_sep (k_mem k) T l → 0 ≤ va < MAXVA →
  user_entry (leaf (k_mem k) T va) = true →
  va + Z.of_nat (length bs) ≤ PGROUNDDOWN va + PGSIZE → Forall (λ b, 0 ≤ b < 256) bs →
  let pa := PTE2PA (leaf (k_mem k) T va) in
  let m' := store_bytes (k_mem k) (pa + (va - PGROUNDDOWN va)) bs in
  vm_ok (k <| k_mem := m' |>) pt T l ∧ user_sep m' T l ∧
  (∀ va', leaf m' T va' = leaf (k_mem k) T va') ∧ pages_frame [pa] (k_mem k) m' ∧
  ∀ a, 0 ≤ a → user_byte m' T a =
    if decide (va ≤ a < va + Z.of_nat (length bs)) then Some (bs !!! Z.to_nat (a - va))
    else user_byte (k_mem k) T a.
Proof.
  intros Hok Hs Hva Hu Hlen Hbs pa m'. pose proof (PGROUNDDOWN_bounds va) as Hb.
  pose proof (PGROUNDDOWN_nonneg va ltac:(lia)) as Hnn.
  assert (Hlt : PGROUNDDOWN va < MAXVA) by lia.
  pose proof (PGROUNDDOWN_aligned va) as Hal.
  rewrite <- leaf_PGROUNDDOWN in Hu.
  destruct (us_page _ _ _ Hs (PGROUNDDOWN va) ltac:(lia) Hal Hu) as [Hp Hni].
  rewrite leaf_PGROUNDDOWN in Hp, Hni, Hu.
  assert (Hfr : pages_frame [pa] (k_mem k) m').
  { intros x Hx. specialize (Hx pa ltac:(constructor)). apply store_bytes_out. lia. }
  destruct (vm_ok_mem [pa] m' k pt T l Hok) as [Hok' Hlf]; [|done|by constructor| |].
  { apply store_bytes_bytes; [done|apply Hok]. }
  { by intros q ->%list_elem_of_singleton. }
  split; [done|]. split.
  { destruct Hs as [S1 S2]. split; intros *; rewrite !Hlf; [apply S1|apply S2]. }
  split; [done|]. split; [done|]. intros a Ha. unfold user_byte. rewrite Hlf.
  destruct (decide (va ≤ a < va + Z.of_nat (length bs))) as [Hin|Hout].
  - assert (Hpg : PGROUNDDOWN va ≤ a < PGROUNDDOWN va + PGSIZE) by lia.
    pose proof (same_page va a Hpg) as Hsp. rewrite decide_True by (apply PGROUNDDOWN_lt_MAXVA; lia).
    rewrite <- (leaf_PGROUNDDOWN _ _ a), Hsp, leaf_PGROUNDDOWN, Hu, mod_PGROUNDDOWN, Hsp.
    unfold m', pa. rewrite store_bytes_in by lia. do 2 f_equal. lia.
  - destruct (decide (a < MAXVA)) as [Ham|]; [|done].
    destruct (user_entry (leaf (k_mem k) T a)) eqn:Hua; [|done]. f_equal.
    pose proof (PGROUNDDOWN_bounds a) as Hba. pose proof (PGROUNDDOWN_nonneg a Ha).
    pose proof (PTE2PA_aligned (leaf (k_mem k) T a)) as Hpal.
    unfold m'. apply store_bytes_out. rewrite mod_PGROUNDDOWN.
    destruct (decide (PTE2PA (leaf (k_mem k) T a) = pa)) as [E|E].
    + assert (PGROUNDDOWN a = PGROUNDDOWN va).
      { apply (us_inj _ _ _ Hs); try lia; [apply PGROUNDDOWN_aligned|done|..]; by rewrite ?leaf_PGROUNDDOWN. }
      rewrite E. unfold pa. lia.
    + destruct (decide (PTE2PA (leaf (k_mem k) T a) < pa)).
      * pose proof (page_aligned_gap _ pa Hpal (proj1 Hp)). lia.
      * pose proof (page_aligned_gap pa _ (proj1 Hp) Hpal). lia.
Qed.

(** The range [va, va+n) is user-writable. *)
Definition range_writable (m : memory) (T : tree) (va : Z) (n : nat) : Prop :=
  ∀ a, va ≤ a < va + Z.of_nat n → user_writable m T a = true.

(** [m'] is [m] with [bs] written at user address [va]. *)
Definition user_written (m m' : memory) (T : tree) (va : Z) (bs : list Z) : Prop :=
  ∀ a, 0 ≤ a → user_byte m' T a =
    if decide (va ≤ a < va + Z.of_nat (length bs)) then Some (bs !!! Z.to_nat (a - va))
    else user_byte m T a.

Lemma user_written_app m m1 m2 T va bs1 bs2 :
  user_written m m1 T va bs1 → user_written m1 m2 T (va + Z.of_nat (length bs1)) bs2 →
  user_written m m2 T va (bs1 ++ bs2).
Proof.
  intros H1 H2 a Ha. rewrite (H2 a Ha), length_app.
  case_decide; [rewrite decide_True by lia|].
  - rewrite lookup_total_app_r by lia. do 2 f_equal. lia.
  - rewrite (H1 a Ha). case_decide; [rewrite decide_True by lia|by rewrite decide_False by lia].
    by rewrite lookup_total_app_l by lia.
Qed.

Lemma user_writable_page m T va a :
  PGROUNDDOWN va ≤ a < PGROUNDDOWN va + PGSIZE → user_writable m T a = user_writable m T va.
Proof.
  intros Ha. pose proof (same_page va a Ha) as Hs. unfold user_writable.
  rewrite <- (leaf_PGROUNDDOWN m T a), Hs, (leaf_PGROUNDDOWN m T va). f_equal.
  apply bool_decide_ext. by rewrite <- (PGROUNDDOWN_lt_MAXVA a), <- (PGROUNDDOWN_lt_MAXVA va), Hs.
Qed.

(** The tests copyout() makes on a page. *)
Lemma copyout_check pt T va ks k :
  pt_wf (k_mem k) pt T → 0 ≤ va < MAXVA →
  ∃ pte, walk pt (PGROUNDDOWN va) false ks k = Ok pte ks k ∧
    (pte = 0 → user_writable (k_mem k) T va = false) ∧
    (pte ≠ 0 → load64 (k_mem k) pte = leaf (k_mem k) T va).
Proof.
  intros Hwf Hva. pose proof (PGROUNDDOWN_nonneg va). pose proof (PGROUNDDOWN_bounds va).
  rewrite (walk_lookup _ pt T) by (done || lia). eexists. split; [done|]. split.
  - intros E. apply (pte_addr_none _ _ _ _ Hwf) in E. rewrite leaf_PGROUNDDOWN in E.
    unfold user_writable. rewrite E. apply andb_false_r.
  - intros E. destruct (pte_addr_some _ _ _ _ Hwf E) as (q & _ & _ & ->).
    apply leaf_PGROUNDDOWN.
Qed.

Lemma writable_tests e :
  (Z.land e PTE_V =? 0) || (Z.land e PTE_U =? 0) || (Z.land e PTE_W =? 0) = negb (writable_entry e).
Proof. unfold writable_entry, user_entry. by destruct (_ =? 0), (_ =? 0), (_ =? 0). Qed.

(** What copyout() of [src] to [va] may do: [r] is its result and [m'] memory
    afterwards. *)
Record copyout_post (k : kernel) (pt : Z) (T : tree) (l : list Z) (va : Z) (src : list Z)
    (r : Z) (m' : memory) : Prop := {
  co_ok : vm_ok (k <| k_mem := m' |>) pt T l;
  co_sep : user_sep m' T l;
  co_leaf : ∀ va', leaf m' T va' = leaf (k_mem k) T va';
  (* only pages the process may write are changed *)
  co_frame : ∀ x,
    (∀ a, va ≤ a < va + Z.of_nat (length src) → user_writable (k_mem k) T a = true →
       ¬ (PTE2PA (leaf (k_mem k) T a) ≤ x < PTE2PA (leaf (k_mem k) T a) + PGSIZE)) →
    m' x = k_mem k x;
  co_result :
    r = 0 ∧ range_writable (k_mem k) T va (length src) ∧ user_written (k_mem k) m' T va src ∨
    r = -1 ∧ ¬ range_writable (k_mem k) T va (length src);
}.

Lemma copyout_post_same k pt T l va src r :
  vm_ok k pt T l → user_sep (k_mem k) T l →
  (r = 0 ∧ src = [] ∨ r = -1 ∧ src ≠ [] ∧ user_writable (k_mem k) T va = false) →
  copyout_post k pt T l va src r (k_mem k).
Proof.
  intros Hok Hs Hr. split; try done; [by destruct k|].
  destruct Hr as [[-> ->]|(-> & Hne & Hw)]; [left|right]; (split; [done|]).
  - split; [intros a Ha; cbn in Ha; lia|]. intros a Ha. cbn. by rewrite decide_False by lia.
  - intros H. rewrite H in Hw; [done|]. destruct src; [done|cbn; lia].
Qed.

(** A written chunk followed by the rest of the copy. *)
Lemma copyout_post_app k pt T l va bs rest r m1 m2 :
  0 ≤ va → va + Z.of_nat (length bs) ≤ PGROUNDDOWN va + PGSIZE → bs ≠ [] →
  user_writable (k_mem k) T va = true →
  (∀ va', leaf m1 T va' = leaf (k_mem k) T va') →
  pages_frame [PTE2PA (leaf (k_mem k) T va)] (k_mem k) m1 →
  user_written (k_mem k) m1 T va bs →
  copyout_post (k <| k_mem := m1 |>) pt T l (va + Z.of_nat (length bs)) rest r m2 →
  copyout_post k pt T l va (bs ++ rest) r m2.
Proof.
  intros Hva Hpg Hne Hw Hlf Hfr Hwr [Cok Csep Clf Cfr Cres]. cbn in *.
  assert (Hws : ∀ a, user_writable m1 T a = user_writable (k_mem k) T a)
    by (intros a; unfold user_writable; by rewrite Hlf).
  assert (Hlen : (0 < length bs)%nat) by (destruct bs; [done|cbn; lia]).
  pose proof (PGROUNDDOWN_bounds va).
  split; try done.
  - intros va'. by rewrite Clf, Hlf.
  - intros x Hx. rewrite length_app in Hx. rewrite Cfr.
    + apply Hfr. intros p ->%list_elem_of_singleton. apply Hx; [lia|done].
    + intros a Ha Hwa. rewrite Hlf. apply Hx; [lia|]. by rewrite <- Hws.
  - destruct Cres as [(-> & Hr1 & Hr2)|[-> Hr]]; [left|right]; (split; [done|]).
    + split; [|by eapply user_written_app]. intros a Ha. rewrite length_app in Ha.
      destruct (decide (a < va + Z.of_nat (length bs))).
      * rewrite (user_writable_page _ _ va) by lia. done.
      * rewrite <- Hws. apply Hr1. lia.
    + intros Hr'. apply Hr. intros a Ha. rewrite Hws. apply Hr'. rewrite length_app. lia.
Qed.

Lemma copyout_loop_spec fuel pt va src ks k T l :
  vm_ok k pt T l → user_sep (k_mem k) T l → 0 ≤ va → Forall (λ b, 0 ≤ b < 256) src →
  (length src < fuel)%nat →
  ∃ r m', copyout_loop fuel pt va src ks k = Ok r ks (k <| k_mem := m' |>) ∧
    copyout_post k pt T l va src r m'.
Proof.
  revert va src k. induction fuel as [|fuel IH]; intros va src k Hok Hs Hva Hb Hfuel; [lia|].
  assert (Hk : k = k <| k_mem := k_mem k |>) by (by destruct k).
  cbn [copyout_loop]. destruct (Z.eqb_spec (Z.of_nat (length src)) 0) as [E|E].
  { destruct src; [|cbn in E; lia]. exists 0, (k_mem k). rewrite <- Hk. split; [done|].
    apply copyout_post_same; [done|done|by left]. }
  assert (Hne : src ≠ []) by (by intros ->).
  destruct (Z.leb_spec MAXVA (PGROUNDDOWN va)) as [Hmax|Hmax].
  { exists (-1), (k_mem k). rewrite <- Hk. split; [done|]. apply copyout_post_same; [done|done|right].
    split; [done|]. split; [done|]. unfold user_writable.
    rewrite bool_decide_eq_false_2; [done|]. rewrite <- PGROUNDDOWN_lt_MAXVA. lia. }
  rewrite PGROUNDDOWN_lt_MAXVA in Hmax.
  destruct (copyout_check pt T va ks k) as (pte & Hw & H0 & H1); [apply Hok|lia|].
  rewrite bind_run, Hw. destruct (Z.eqb_spec pte 0) as [E0|E0].
  { exists (-1), (k_mem k). rewrite <- Hk. split; [done|]. apply copyout_post_same; [done|done|right; auto]. }
  rewrite bind_run. cbn [load_pte gets]. rewrite H1, writable_tests by done.
  destruct (writable_entry (leaf (k_mem k) T va)) eqn:Hwr; cbn [negb].
  2: { exists (-1), (k_mem k). rewrite <- Hk. split; [done|]. apply copyout_post_same; [done|done|right].
       split; [done|]. split; [done|]. unfold user_writable. by rewrite Hwr, andb_false_r. }
  cbn zeta. destruct (chunk_bounds va (Z.of_nat (length src)) Hva ltac:(lia)) as (Hn1 & Hn2 & Hn3).
  set (n := Z.min _ _) in *. set (bs := take (Z.to_nat n) src).
  assert (Hbl : Z.of_nat (length bs) = n) by (unfold bs; rewrite length_take; lia).
  rewrite bind_run. cbn [modify].
  set (m1 := store_bytes (k_mem k) (PTE2PA (leaf (k_mem k) T va) + (va - PGROUNDDOWN va)) bs).
  destruct (write_chunk k pt T l va bs) as (Wok & Wsep & Wlf & Wfr & Wub); try done;
    [by apply writable_user|lia|by apply Forall_take|].
  rewrite next_page_u64 by lia.
  assert (Hnext : ∃ r m', copyout_loop fuel pt (PGROUNDDOWN va + PGSIZE) (drop (Z.to_nat n) src) ks
      (k <| k_mem := m1 |>) = Ok r ks (k <| k_mem := m' |>) ∧
    copyout_post (k <| k_mem := m1 |>) pt T l (va + Z.of_nat (length bs)) (drop (Z.to_nat n) src) r m').
  { destruct (decide (n = Z.of_nat (length src))) as [En|En].
    - rewrite drop_ge by lia. destruct fuel as [|fuel]; [lia|]. exists 0, m1. split; [done|].
      apply copyout_post_same; [done|done|by left].
    - rewrite Hbl, Hn3 by lia.
      destruct (IH (PGROUNDDOWN va + PGSIZE) (drop (Z.to_nat n) src) (k <| k_mem := m1 |>))
        as (r & m' & H & Hp); [done|done|lia|by apply Forall_drop|rewrite length_drop; lia|].
      exists r, m'. split; [exact H|exact Hp]. }
  destruct Hnext as (r & m2 & H2 & Hpost). exists r, m2. split; [exact H2|].
  rewrite <- (take_drop (Z.to_nat n) src). apply (copyout_post_app k pt T l va bs _ r m1 m2); try done.
  - lia.
  - intros E1. rewrite E1 in Hbl. cbn in Hbl. lia.
  - unfold user_writable. rewrite bool_decide_eq_true_2, Hwr by lia. done.
Qed.

(** ** copyinstr() *)

(** The bytes of [l] up to and including the first NUL, if there is one. *)
Fixpoint through_nul (l : list Z) : option (list Z) :=
  match l with
  | [] => None
  | c :: l' => if c =? 0 then Some [0] else (c ::.) <$> through_nul l'
  end.

Lemma copystr_page_spec m p n :
  copystr_page m p n =
    match through_nul (load_bytes m p n) with
    | Some s => (s, true)
    | None => (load_bytes m p n, false)
    end.
Proof.
  revert p. induction n as [|n IH]; intros p; [done|].
  cbn [copystr_page]. rewrite IH.
  rewrite load_bytes_cons.
  cbn [through_nul]. destruct (m p =? 0); [done|].
  by destruct (through_nul (load_bytes m (p + 1) n)).
Qed.

Lemma through_nul_app l1 l2 :
  through_nul (l1 ++ l2) =
    match through_nul l1 with Some s => Some s | None => (l1 ++.) <$> through_nul l2 end.
Proof.
  induction l1 as [|c l1 IH]; cbn.
  - by destruct (through_nul l2).
  - destruct (c =? 0); [done|]. rewrite IH. destruct (through_nul l1); [done|].
    by destruct (through_nul l2).
Qed.

(** The longest mapped prefix of the [n] bytes at [va]. *)
Fixpoint user_prefix (m : memory) (T : tree) (va : Z) (n : nat) : list Z :=
  match n with
  | O => []
  | S n' =>
      match user_byte m T va with
      | Some b => b :: user_prefix m T (va + 1) n'
      | None => []
      end
  end.

Lemma user_prefix_app m T va n1 n2 bs :
  user_bytes m T va n1 = Some bs →
  user_prefix m T va (n1 + n2) = bs ++ user_prefix m T (va + Z.of_nat n1) n2.
Proof.
  revert va bs. induction n1 as [|n1 IH]; intros va bs.
  - intros [= <-]. cbn [Nat.add app]. by rewrite Z.add_0_r.
  - rewrite user_bytes_S. cbn [Nat.add user_prefix].
    destruct (user_byte m T va) as [b|]; [|done]. cbn [mbind option_bind].
    destruct (user_bytes m T (va + 1) n1) as [bs'|] eqn:E; [|done]. intros [= <-].
    rewrite (IH _ _ E). cbn [app]. do 3 f_equal. lia.
Qed.

Lemma user_prefix_none m T va n :
  bool_decide (va < MAXVA) && user_entry (leaf m T va) = false → user_prefix m T va n = [].
Proof.
  intros Hu. destruct n as [|n]; [done|]. cbn [user_prefix].
  rewrite (user_byte_page m T va), Hu; [done|]. pose proof (PGROUNDDOWN_bounds va). lia.
Qed.

Lemma copyinstr_loop_spec fuel pt va max dst ks k T l :
  vm_ok k pt T l → user_sep (k_mem k) T l → 0 ≤ va → 0 ≤ max → (Z.to_nat max < fuel)%nat →
  let s := user_prefix (k_mem k) T va (Z.to_nat max) in
  copyinstr_loop fuel pt va max dst ks k =
    Ok (match through_nul s with
        | Some str => (0, dst ++ str)
        | None => (-1, dst ++ s)
        end) ks k.
Proof.
  intros Hok Hs. revert va max dst. induction fuel as [|fuel IH]; intros va max dst Hva Hmax Hfuel; [lia|].
  cbn zeta. cbn [copyinstr_loop]. destruct (Z.eqb_spec max 0) as [->|Hne].
  { cbn. by rewrite app_nil_r. }
  destruct (walkaddr_page pt T l va ks k Hok Hs Hva) as (pa & Hw & Hpa).
  rewrite bind_run, Hw. destruct (_ && _) eqn:Hu.
  - apply andb_true_iff in Hu as [Hlt%bool_decide_eq_true Hu]. destruct Hpa as [-> Hnz].
    destruct (Z.eqb_spec (PTE2PA (leaf (k_mem k) T va)) 0) as [|_]; [done|].
    destruct (chunk_bounds va max Hva ltac:(lia)) as (Hn1 & Hn2 & Hn3).
    set (n := Z.min _ _) in *. rewrite bind_run. cbn [gets]. rewrite copystr_page_spec.
    assert (Hsplit : Z.to_nat max = (Z.to_nat n + Z.to_nat (max - n))%nat) by lia.
    rewrite Hsplit, (user_prefix_app _ _ _ _ _ _ (user_bytes_page _ _ va (Z.to_nat n) Hlt Hu ltac:(lia))).
    set (bs := load_bytes _ _ _). rewrite through_nul_app.
    destruct (through_nul bs) as [str|]; [done|].
    destruct (decide (n = max)) as [E|Hnl].
    + replace (max - n) with 0 by lia. destruct fuel as [|fuel]; [lia|]. cbn. by rewrite app_nil_r.
    + rewrite next_page_u64, <- Hn3 by lia. rewrite IH by lia. rewrite Z2Nat.id by lia.
      destruct (through_nul (user_prefix _ _ _ _)); cbn; by rewrite (assoc_L app).
  - subst pa. rewrite user_prefix_none by done. cbn. by rewrite app_nil_r.
Qed.

(** ** Properties *)

(** copyin() reads memory as the process sees it: it returns 0 with the
    [len] bytes at [srcva] exactly when every page of the range is mapped for
    the user, and -1 otherwise; nothing is modified. *)
Theorem copyin_reads_user pt srcva len ks k T l :
  vm_ok k pt T l → user_sep (k_mem k) T l → 0 ≤ srcva → 0 ≤ len →
  ∃ r bs, copyin pt srcva len ks k = Ok (r, bs) ks k ∧
    match user_bytes (k_mem k) T srcva (Z.to_nat len) with
    | Some bytes => r = 0 ∧ bs = bytes
    | None => r = -1
    end.
Proof.
  intros Hok Hs Hva Hlen.
  destruct (copyin_loop_spec (S (Z.to_nat len)) pt srcva len [] ks k T l) as (r & bs & H1 & H2);
    [done..|lia|].
  exists r, bs. split; [exact H1|]. destruct H2 as [[-> ->]|[-> ->]]; done.
Qed.

(** C29: copyout() writes only into pages the process may write: every byte
    of physical memory outside the pages that user-writable entries of the
    destination range name keeps its value, on failure too.  It returns 0
    exactly when the whole range is user-writable, and then the process sees
    the new bytes in the range and its old memory elsewhere.  Page tables and
    free pages stay intact. *)
Theorem copyout_writes_user pt dstva src ks k T l :
  vm_ok k pt T l → user_sep (k_mem k) T l → 0 ≤ dstva → Forall (λ b, 0 ≤ b < 256) src →
  ∃ r m', copyout pt dstva src ks k = Ok r ks (k <| k_mem := m' |>) ∧
    (∀ x, (∀ a, dstva ≤ a < dstva + Z.of_nat (length src) → user_writable (k_mem k) T a = true →
             ¬ (PTE2PA (leaf (k_mem k) T a) ≤ x < PTE2PA (leaf (k_mem k) T a) + PGSIZE)) →
          m' x = k_mem k x) ∧
    (r = 0 ↔ range_writable (k_mem k) T dstva (length src)) ∧ (r = 0 ∨ r = -1) ∧
    (r = 0 → user_written (k_mem k) m' T dstva src) ∧
    vm_ok (k <| k_mem := m' |>) pt T l ∧ (∀ va, leaf m' T va = leaf (k_mem k) T va).
Proof.
  intros Hok Hs Hva Hb.
  destruct (copyout_loop_spec (S (length src)) pt dstva src ks k T l) as (r & m' & H1 & [C1 C2 C3 C4 C5]);
    [done..|lia|].
  exists r, m'. split; [exact H1|]. split; [exact C4|].
  destruct C5 as [(-> & Hw & Hu)|[-> Hw]]; (split; [|split; [auto|split; [done|by split]]]); done.
Qed.

(** What copyout() writes copyin() reads back: after a successful
    copyout() of [src] to a user address, copyin() from that address returns
    0 and the same bytes. *)
Theorem copyout_copyin_roundtrip pt va src ks k k' T l :
  vm_ok k pt T l → user_sep (k_mem k) T l → 0 ≤ va → Forall (λ b, 0 ≤ b < 256) src →
  copyout pt va src ks k = Ok 0 ks k' →
  copyin pt va (Z.of_nat (length src)) ks k' = Ok (0, src) ks k'.
Proof.
  intros Hok Hs Hva Hb Hrun.
  destruct (copyout_loop_spec (S (length src)) pt va src ks k T l) as (r & m' & H1 & [C1 C2 C3 C4 C5]);
    [done..|lia|].
  unfold copyout in Hrun. rewrite H1 in Hrun. injection Hrun as -> <-.
  destruct C5 as [(_ & _ & Hu)|[? _]]; [|done].
  destruct (copyin_loop_spec (S (length src)) pt va (Z.of_nat (length src)) [] ks
    (k <| k_mem := m' |>) T l) as (r & bs & H2 & H3); [done|done|lia|lia|lia|].
  assert (Hbytes : user_bytes m' T va (length src) = Some src).
  { apply mapM_Some, Forall2_same_length_lookup. split; [by rewrite length_fmap, length_seq|].
    intros i a b Ha Hbi. apply list_lookup_fmap_Some in Ha as (j & -> & Hj).
    apply lookup_seq in Hj as [-> Hj]. cbn [Nat.add].
    rewrite (Hu (va + Z.of_nat i)), decide_True by lia.
    f_equal. replace (Z.to_nat _) with i by lia. by apply list_lookup_total_correct. }
  rewrite Nat2Z.id in H3. cbn [k_mem] in H3. unfold copyin. rewrite Nat2Z.id.
  etransitivity; [exact H2|].
  destruct H3 as [[-> H3]|[_ H3]]; cbn in H3; rewrite Hbytes in H3; [by injection H3 as <-|done].
Qed.

(** Copyinstr() returns 0 exactly when a NUL occurs among the first
    [max] user bytes at [srcva] before an unmapped page, and then [dst] holds
    those bytes through the NUL; otherwise it returns -1. *)
Theorem copyinstr_reads_string pt srcva max ks k T l :
  vm_ok k pt T l → user_sep (k_mem k) T l → 0 ≤ srcva → 0 ≤ max →
  copyinstr pt srcva max ks k =
    Ok (match through_nul (user_prefix (k_mem k) T srcva (Z.to_nat max)) with
        | Some str => (0, str)
        | None => (-1, user_prefix (k_mem k) T srcva (Z.to_nat max))
        end) ks k.
Proof.
  intros Hok Hs Hva Hmax. unfold copyinstr.
  rewrite (copyinstr_loop_spec _ pt srcva max [] ks k T l) by (done || lia). done.
Qed.
End vmcopy.

Section witnesses.
#[local] Existing Instance sample_image.

(** The process with one writable page. *)
Lemma sample_sep : ∃ To p l,
  vm_ok sample_grown sample_root To l ∧ user_sep (k_mem sample_grown) To l ∧
  leaf (k_mem sample_grown) To 0 = leaf_pte p (Z.lor (Z.lor PTE_R PTE_U) PTE_W).
Proof.
  destruct sample_grown_facts as (To & p & l & Hok & Hm & Hle & Hpo & Hnd & Hz).
  exists To, p, l. split; [done|].
  assert (H0 : leaf (k_mem sample_grown) To 0 = leaf_pte p (Z.lor (Z.lor PTE_R PTE_U) PTE_W))
    by exact (Hm 0%nat _ eq_refl).
  assert (Honly : ∀ va, 0 ≤ va < MAXVA → page_aligned va →
    user_entry (leaf (k_mem sample_grown) To va) = true → va = 0).
  { intros va Hva Hal Hu. destruct (decide (va = 0)) as [|Hne]; [done|].
    pose proof (page_aligned_gap 0 va eq_refl Hal ltac:(lia)).
    rewrite Hz in Hu by (done || lia). discriminate Hu. }
  split; [|done]. split.
  - intros va Hva Hal Hu. rewrite (Honly va Hva Hal Hu), H0. cbn [fmap list_fmap] in Hpo, Hnd.
    apply Forall_cons in Hpo as [Hp _]. apply NoDup_cons in Hnd as [Hn _]. by split.
  - intros va va' Hva Hva' Hal Hal' Hu Hu' _.
    rewrite (Honly va Hva Hal Hu), (Honly va' Hva' Hal' Hu'). reflexivity.
Qed.

Lemma copyin_reads_user_witness :
  ∃ bs, copyin sample_root 10 3 [] sample_grown = Ok (0, bs) [] sample_grown.
Proof.
  destruct sample_sep as (To & p & l & Hok & Hs & _).
  destruct (copyin_reads_user sample_root 10 3 [] sample_grown To l Hok Hs) as (r & bs & H1 & _);
    [by_eval..|].
  assert (E : match copyin sample_root 10 3 [] sample_grown with Ok (r, _) _ _ => r | _ => 1 end = 0)
    by (vm_compute; reflexivity).
  rewrite H1 in E. subst r. exists bs. exact H1.
Defined.

Lemma copyout_writes_user_witness :
  ∃ m', copyout sample_root 10 [1; 2; 3] [] sample_grown = Ok 0 [] (sample_grown <| k_mem := m' |>).
Proof.
  destruct sample_sep as (To & p & l & Hok & Hs & _).
  destruct (copyout_writes_user sample_root 10 [1; 2; 3] [] sample_grown To l Hok Hs)
    as (r & m' & H1 & _); [by_eval..|].
  assert (E : match copyout sample_root 10 [1; 2; 3] [] sample_grown with Ok r _ _ => r | _ => 1 end = 0)
    by (vm_compute; reflexivity).
  rewrite H1 in E. subst r. exists m'. exact H1.
Defined.

Definition sample_written : kernel :=
  match copyout sample_root 10 [1; 2; 3] [] sample_grown with Ok _ _ k => k | _ => sample_grown end.

Lemma copyout_copyin_roundtrip_witness :
  copyin sample_root 10 3 [] sample_written = Ok (0, [1; 2; 3]) [] sample_written.
Proof.
  destruct sample_sep as (To & p & l & Hok & Hs & _).
  destruct (copyout_loop_spec 4 sample_root 10 [1; 2; 3] [] sample_grown To l Hok Hs)
    as (r & m' & H1 & _); [by_eval..|].
  assert (E : match copyout_loop 4 sample_root 10 [1; 2; 3] [] sample_grown with
    Ok r _ _ => r | _ => 1 end = 0) by (vm_compute; reflexivity).
  rewrite H1 in E. subst r.
  apply (copyout_copyin_roundtrip sample_root 10 [1; 2; 3] [] sample_grown sample_written To l Hok Hs);
    [by_eval..|].
  unfold sample_written, copyout. cbn [length]. rewrite H1. reflexivity.
Defined.

Lemma copyinstr_reads_string_witness :
  ∃ str, copyinstr sample_root 10 5 [] sample_grown = Ok (0, str) [] sample_grown.
Proof.
  destruct sample_sep as (To & p & l & Hok & Hs & _).
  pose proof (copyinstr_reads_string sample_root 10 5 [] sample_grown To l Hok Hs
    ltac:(by_eval) ltac:(by_eval)) as H.
  assert (E : match copyinstr sample_root 10 5 [] sample_grown with Ok (r, _) _ _ => r | _ => 1 end = 0)
    by (vm_compute; reflexivity).
  rewrite H in E. rewrite H.
  destruct (through_nul _) as [str|]; [exists str; reflexivity|discriminate E].
Defined.
End witnesses.
