(* ===== verification/Sched.v ===== *)
(** * Sleeping, waking and scheduling: the scheduling half of proc.c

    [swtch] hands the machine to whatever runs until this thread is switched
    to again: the wait of KMonad.v.  The registers a context switch saves are
    those of the C calling convention and appear in Asm.v; the effect on
    the kernel's own data (process states, channels, locks, [struct cpu]) is
    modelled completely.  ProcLife.v has the other half of proc.c. *)

From S2P Require Import Prelude KMonad Memory Riscv State Spinlock Kalloc VmCopy.

(** ** Process table access *)

Definition proc_get (p : nat) : M kernel proc := deref "proc" (λ k, k_procs k !! p).
Definition proc_set (p : nat) (f : proc → proc) : M kernel unit :=
  modify (λ k, k <| k_procs ::= alter f p |>).

(** [struct proc *p = myproc();] followed by a dereference of [p]. *)
Definition nonnull (p : option nat) : M kernel nat :=
  match p with
  | Some p => mret p
  | None => stuck "null proc"
  end.

Definition curproc : M kernel nat := p ← myproc; nonnull p.

#[global] Arguments proc_get p ks s /.
#[global] Arguments proc_set p f ks s /.

(** swtch.S: store this context, load the other. *)
Definition swtch : M kernel unit := wait_env.

Definition procinit : M kernel unit :=
  initlock L_pid "nextpid" ;;
  initlock L_wait "wait_lock" ;;
  for_each (seq 0 NPROC) (λ p,
    initlock (L_proc p) "proc" ;;
    proc_set p (λ x, x <| p_state := UNUSED |>) ;;
    proc_set p (λ x, x <| p_kstack := KSTACK (Z.of_nat p) |>)).

Definition allocpid : M kernel Z :=
  acquire L_pid ;;
  pid ← gets k_nextpid;
  modify (λ k, k <| k_nextpid := i32 (k_nextpid k + 1) |>) ;;
  release L_pid ;;
  mret pid.

Definition sched : M kernel unit :=
  p ← curproc;
  h ← holding (L_proc p);
  if negb h then panic "sched p->lock" else
  c ← mycpu;
  cp ← cpu_get c;
  if negb (c_noff cp =? 1) then panic "sched locks" else
  pr ← proc_get p;
  if decide (p_state pr = RUNNING) then panic "sched running" else
  i ← intr_get;
  if truthy i then panic "sched interruptible" else
  c1 ← mycpu;
  cp1 ← cpu_get c1;
  let intena := c_intena cp1 in
  swtch ;;
  c2 ← mycpu;
  cpu_set c2 (λ x, x <| c_intena := intena |>).

Definition yield : M kernel unit :=
  p ← curproc;
  acquire (L_proc p) ;;
  proc_set p (λ x, x <| p_state := RUNNABLE |>) ;;
  sched ;;
  release (L_proc p).

Definition sleep (chan : channel) (lk : lockid) : M kernel unit :=
  p ← curproc;
  acquire (L_proc p) ;;
  release lk ;;
  proc_set p (λ x, x <| p_chan := Some chan |>) ;;
  proc_set p (λ x, x <| p_state := SLEEPING |>) ;;
  sched ;;
  proc_set p (λ x, x <| p_chan := None |>) ;;
  release (L_proc p) ;;
  acquire lk.

Definition wakeup (chan : channel) : M kernel unit :=
  for_each (seq 0 NPROC) (λ p,
    me ← myproc;
    if decide (me = Some p) then mret tt else
    acquire (L_proc p) ;;
    pr ← proc_get p;
    when (bool_decide (p_state pr = SLEEPING) && bool_decide (p_chan pr = Some chan))
      (proc_set p (λ x, x <| p_state := RUNNABLE |>)) ;;
    release (L_proc p)).

Definition kill (pid : Z) : M kernel Z :=
  r ← for_find (seq 0 NPROC) (λ p,
    acquire (L_proc p) ;;
    pr ← proc_get p;
    if p_pid pr =? pid then
      proc_set p (λ x, x <| p_killed := 1 |>) ;;
      when (bool_decide (p_state pr = SLEEPING)) (proc_set p (λ x, x <| p_state := RUNNABLE |>)) ;;
      release (L_proc p) ;;
      mret (Some 0)
    else
      release (L_proc p) ;;
      mret None);
  mret (default (-1) r).

Definition setkilled (p : nat) : M kernel unit :=
  acquire (L_proc p) ;;
  proc_set p (λ x, x <| p_killed := 1 |>) ;;
  release (L_proc p).

Definition killed (p : nat) : M kernel Z :=
  acquire (L_proc p) ;;
  pr ← proc_get p;
  let k := p_killed pr in
  release (L_proc p) ;;
  mret k.

(** One iteration of [for(p = proc; ...)] in scheduler(), on cpu [c]. *)
Definition scheduler_try (c p : nat) : M kernel unit :=
  acquire (L_proc p) ;;
  pr ← proc_get p;
  when (bool_decide (p_state pr = RUNNABLE))
    (proc_set p (λ x, x <| p_state := RUNNING |>) ;;
     cpu_set c (λ x, x <| c_proc := Some p |>) ;;
     swtch ;;
     cpu_set c (λ x, x <| c_proc := None |>)) ;;
  release (L_proc p).

(** The body of scheduler()'s endless loop. *)
Definition scheduler_round (c : nat) : M kernel unit :=
  intr_on ;;
  for_each (seq 0 NPROC) (scheduler_try c).

(** [rounds] iterations of the endless loop. *)
Definition scheduler (rounds : nat) : M kernel unit :=
  c ← mycpu;
  cpu_set c (λ x, x <| c_proc := None |>) ;;
  for_each (seq 0 rounds) (λ _, scheduler_round c).

(** The kernel address [dst] of the second branch is a place in kernel
    memory. *)
Definition either_copyout `{KernelImage} (user_dst : bool) (dst : Z) (src : list Z) : M kernel Z :=
  me ← myproc;
  if user_dst then
    p ← nonnull me;
    pr ← proc_get p;
    copyout (p_pagetable pr) dst src
  else
    modify (λ k, k <| k_mem ::= λ m, store_bytes m dst src |>) ;;
    mret 0.

Definition either_copyin `{KernelImage} (user_src : bool) (src len : Z) : M kernel (Z * list Z) :=
  me ← myproc;
  if user_src then
    p ← nonnull me;
    pr ← proc_get p;
    copyin (p_pagetable pr) src len
  else
    bs ← gets (λ k, load_bytes (k_mem k) src (Z.to_nat len));
    mret (0, bs).

#[global] Arguments nonnull p ks s /.
#[global] Arguments curproc : simpl never.
#[global] Arguments sched : simpl never.
#[global] Arguments sleep : simpl never.
#[global] Arguments wakeup : simpl never.
#[global] Arguments killed : simpl never.

(** ** Running the operations *)

(** The process table has its [NPROC] entries; locks of processes are free. *)
Definition procs_ok (k : kernel) : Prop := length (k_procs k) = NPROC.
Definition proc_locks_free (me : option nat) (m : machine) : Prop :=
  ∀ p, (p < NPROC)%nat → Some p ≠ me → lock_free (L_proc p) m.

Lemma proc_locks_freeb me m :
  forallb (λ p, lock_freeb (L_proc p) m) (seq 0 NPROC) = true → proc_locks_free me m.
Proof.
  intros H p Hp _. rewrite forallb_forall in H. apply lock_freeb_true, H, in_seq. lia.
Qed.

Lemma curproc_run ks k p :
  machine_ok (k_mach k) → c_proc (this_cpu (k_mach k)) = Some p →
  curproc ks k = Ok p ks (k <| k_mach ::= settle |>).
Proof. intros Hm Hp. unfold curproc. by rewrite bind_run, myproc_run, Hp by done. Qed.

(** Code between acquire() and release() that leaves the machine alone runs
    with the net effect of [settle]. *)
Lemma release_taken lk ks k m :
  machine_ok m → lock_free lk m → k_mach k = take_lock lk m →
  release lk ks k = Ok tt ks (k <| k_mach := settle m |>).
Proof.
  intros Hm Hl Hk. rewrite release_run; rewrite ?Hk.
  - cbn. by rewrite Hk, drop_take.
  - by apply machine_ok_take.
  - apply lock_held_take.
  - rewrite noff_take by done. pose proof (mo_noff _ Hm). lia.
Qed.

Lemma killed_run p pr ks k :
  machine_ok (k_mach k) → lock_free (L_proc p) (k_mach k) → k_procs k !! p = Some pr →
  killed p ks k = Ok (p_killed pr) ks (k <| k_mach ::= settle |>).
Proof.
  intros Hm Hl Hp. unfold killed. rewrite bind_run, acquire_run by done. ksteps. rewrite Hp.
  rewrite bind_run, (release_taken _ _ _ (k_mach k)) by done. reflexivity.
Qed.

Definition wake1 (chan : channel) (pr : proc) : proc :=
  if bool_decide (p_state pr = SLEEPING) && bool_decide (p_chan pr = Some chan)
  then pr <| p_state := RUNNABLE |> else pr.

(** The process table after wakeup(chan) called by [me]. *)
Definition woken (chan : channel) (me : option nat) (ps : list proc) : list proc :=
  imap (λ p pr, if decide (me = Some p) then pr else wake1 chan pr) ps.

(** Contradictory outcomes of two overlapping range tests. *)
Ltac decide_clash :=
  repeat match goal with
  | H : _ ∧ _ |- _ => destruct H
  | H : ¬ (_ ∧ _) |- _ => apply H; split; [lia|congruence]
  | _ => congruence
  | _ => lia
  end.

(** The body of wakeup()'s loop. *)
Definition wakeup_body (chan : channel) (p : nat) : M kernel unit :=
  me ← myproc;
  if decide (me = Some p) then mret tt else
  acquire (L_proc p) ;;
  pr ← proc_get p;
  when (bool_decide (p_state pr = SLEEPING) && bool_decide (p_chan pr = Some chan))
    (proc_set p (λ x, x <| p_state := RUNNABLE |>)) ;;
  release (L_proc p).

Lemma wakeup_body_run chan p me ks k :
  (p < NPROC)%nat → machine_ok (k_mach k) → c_proc (this_cpu (k_mach k)) = me →
  proc_locks_free me (k_mach k) → procs_ok k →
  wakeup_body chan p ks k =
    Ok tt ks (k <| k_procs ::= alter (λ pr, if decide (me = Some p) then pr else wake1 chan pr) p |>
                <| k_mach ::= settle |>).
Proof.
  intros Hp Hm Hme Hl Hlen. unfold wakeup_body. rewrite bind_run, myproc_run by done. rewrite Hme.
  destruct (decide (me = Some p)) as [E|E].
  { rewrite ret_run. cbn. rewrite list_alter_id_at by done. by destruct k. }
  assert (Hf : lock_free (L_proc p) (k_mach k)) by (by apply Hl).
  destruct (lookup_lt_is_Some_2 (k_procs k) p) as [pr Hpr]; [unfold procs_ok in Hlen; lia|].
  rewrite bind_run, acquire_run; [|by apply machine_ok_settle|by apply lock_free_settle].
  ksteps. rewrite Hpr. ksteps. rewrite take_settle by done.
  assert (Hw : alter (λ pr, wake1 chan pr) p (k_procs k) =
    if bool_decide (p_state pr = SLEEPING) && bool_decide (p_chan pr = Some chan)
    then alter (λ x, x <| p_state := RUNNABLE |>) p (k_procs k) else k_procs k).
  { unfold wake1. destruct (_ && _) eqn:Eb.
    - apply list_alter_ext_at. by rewrite (list_lookup_total_correct _ _ _ Hpr), Eb.
    - apply list_alter_id_at. by rewrite (list_lookup_total_correct _ _ _ Hpr), Eb. }
  destruct (_ && _); ksteps; rewrite (release_taken _ _ _ (k_mach k)) by done; cbn; by rewrite Hw.
Qed.

Lemma wakeup_loop j n chan me ks k :
  (j + n ≤ NPROC)%nat → machine_ok (k_mach k) → settle (k_mach k) = k_mach k →
  c_proc (this_cpu (k_mach k)) = me → proc_locks_free me (k_mach k) → procs_ok k →
  for_each (seq j n) (wakeup_body chan) ks k =
  Ok tt ks (k <| k_procs ::= imap (λ p pr,
    if decide ((j ≤ p < j + n)%nat ∧ me ≠ Some p) then wake1 chan pr else pr) |>).
Proof.
  intros Hn Hm Hs Hme Hl Hlen. revert j k Hn Hm Hs Hme Hl Hlen.
  induction n as [|n IH]; intros j k Hn Hm Hs Hme Hl Hlen.
  { cbn. destruct k; cbn. do 2 f_equal. symmetry. apply list_eq. intros i.
    rewrite list_lookup_imap. destruct (_ !! i); [|done]. cbn. by rewrite decide_False by lia. }
  cbn [seq for_each]. rewrite bind_run, (wakeup_body_run chan j me) by (done || lia).
  rewrite IH; cbn; rewrite ?Hs; try done; [|lia|by unfold procs_ok; cbn; rewrite length_alter].
  do 2 f_equal. apply list_eq. intros i. rewrite !list_lookup_imap, list_lookup_alter.
  destruct (decide (j = i)) as [->|Hne].
  - destruct (k_procs k !! i); [|done]. cbn. f_equal. rewrite (decide_False (P := (S i ≤ _ < _)%nat ∧ _)) by lia.
    repeat case_decide; try done; try lia; exfalso; decide_clash.
  - destruct (k_procs k !! i); [|done]. cbn. f_equal. repeat case_decide; try done; exfalso; decide_clash.
Qed.

Lemma wakeup_run chan me ks k :
  machine_ok (k_mach k) → c_proc (this_cpu (k_mach k)) = me →
  proc_locks_free me (k_mach k) → procs_ok k →
  wakeup chan ks k = Ok tt ks (k <| k_procs ::= woken chan me |> <| k_mach ::= settle |>).
Proof.
  intros Hm Hme Hl Hlen. change (wakeup chan) with (for_each (seq 0 NPROC) (wakeup_body chan)).
  assert (NPROC = S 63) as HN by reflexivity. rewrite HN, <- cons_seq. cbn [for_each].
  rewrite bind_run, (wakeup_body_run chan 0 me) by (done || lia).
  rewrite (wakeup_loop 1 63 chan me); cbn.
  - do 2 f_equal. apply list_eq. intros i. unfold woken. rewrite !list_lookup_imap, list_lookup_alter.
    unfold procs_ok in Hlen. rewrite HN in Hlen.
    destruct (decide (0%nat = i)) as [<-|]; destruct (k_procs k !! _) as [pr|] eqn:Hpr; try done;
      apply lookup_lt_Some in Hpr; cbn; f_equal; repeat case_decide; try done; exfalso; decide_clash.
  - lia.
  - by apply machine_ok_settle.
  - by apply settle_settle.
  - by rewrite c_proc_settle.
  - intros p Hp Hne. apply lock_free_settle. by apply Hl.
  - unfold procs_ok in *; cbn. by rewrite length_alter.
Qed.

(** ** sleep()

    [before_sleep]: what every caller guarantees; [lk] is the only lock held. *)
Record before_sleep (lk : lockid) (p : nat) (k : kernel) : Prop := {
  bs_ok : machine_ok (k_mach k);
  bs_proc : c_proc (this_cpu (k_mach k)) = Some p;
  bs_lk : lock_held lk (k_mach k);
  bs_noff : c_noff (this_cpu (k_mach k)) = 1;
  bs_plock : lock_free (L_proc p) (k_mach k);
  bs_ne : lk ≠ L_proc p;
  bs_entry : is_Some (k_procs k !! p);
}.

(** The machine when sleep() reaches swtch(). *)
Definition sleep_machine (lk : lockid) (p : nat) (m : machine) : machine :=
  drop_lock lk (take_lock (L_proc p) m).

Definition sleep_state (chan : channel) (lk : lockid) (p : nat) (k : kernel) : kernel :=
  k <| k_procs ::= alter (λ x, x <| p_chan := Some chan |> <| p_state := SLEEPING |>) p |>
    <| k_mach ::= sleep_machine lk p |>.

(** What the rest of the system leaves behind when it switches back to the
    sleeping process: the process holds its own lock again, on whatever hart,
    and the condition's lock is not taken. *)
Record resumed (lk : lockid) (p : nat) (k : kernel) : Prop := {
  rs_ok : machine_ok (k_mach k);
  rs_held : lock_held (L_proc p) (k_mach k);
  rs_noff : c_noff (this_cpu (k_mach k)) = 1;
  rs_lk : lock_free lk (k_mach k);
}.

(** The state sleep() returns in. *)
Definition awake_state (lk : lockid) (p : nat) (intena : Z) (k : kernel) : kernel :=
  k <| k_procs ::= alter (λ x, x <| p_chan := None |>) p |>
    <| k_mach ::= λ m, take_lock lk (drop_lock (L_proc p)
         (m <| m_cpus ::= alter (λ x, x <| c_intena := intena |>) (hart_id m) |>)) |>.

Lemma sleep_machine_facts lk p k :
  before_sleep lk p k →
  let m := sleep_machine lk p (k_mach k) in
  machine_ok m ∧ c_proc (this_cpu m) = Some p ∧ lock_held (L_proc p) m ∧ lock_free lk m ∧
  c_noff (this_cpu m) = 1 ∧ intr_enabled m = false.
Proof.
  intros [Hm Hp Hlk Hn Hpl Hne _] m.
  pose proof (machine_ok_take (L_proc p) _ Hm) as Hm1.
  assert (Hn1 : c_noff (this_cpu (take_lock (L_proc p) (k_mach k))) = 2) by (rewrite noff_take by done; lia).
  assert (Hm2 : machine_ok m) by (apply machine_ok_drop; [done|lia]).
  assert (Hn2 : c_noff (this_cpu m) = 1) by (unfold m, sleep_machine; rewrite noff_drop by done; lia).
  split; [done|]. split; [unfold m, sleep_machine; by rewrite c_proc_drop, c_proc_take by done|].
  split; [apply lock_held_drop_other; [done|apply lock_held_take]|].
  split; [apply lock_free_drop|]. split; [done|]. apply (mo_off _ Hm2). lia.
Qed.

Lemma intr_get_run ks k : intr_get ks k = Ok (b2z (intr_enabled (k_mach k))) ks k.
Proof. unfold intr_get, intr_enabled. cbn. by rewrite land_SIE. Qed.

(** sched() up to the context switch. *)
Lemma sched_run p pr ks k :
  machine_ok (k_mach k) → c_proc (this_cpu (k_mach k)) = Some p → lock_held (L_proc p) (k_mach k) →
  c_noff (this_cpu (k_mach k)) = 1 → k_procs k !! p = Some pr → p_state pr ≠ RUNNING →
  sched ks k =
    (swtch ;; c2 ← mycpu;
     cpu_set c2 (λ x, x <| c_intena := c_intena (this_cpu (k_mach k)) |>)) ks k.
Proof.
  intros Hm Hp Hh Hn Hpr Hst. destruct (machine_ok_tp _ Hm) as [Ht Ht'].
  assert (Hs : settle (k_mach k) = k_mach k) by (apply settle_nested; lia).
  assert (Hk : k <| k_mach ::= settle |> = k) by (destruct k; cbn in *; by rewrite Hs).
  unfold sched. rewrite bind_run, (curproc_run _ _ p), Hk by done.
  rewrite bind_run, holding_held by done. cbn [negb].
  rewrite bind_run, mycpu_run by done. rewrite bind_run. cbn [cpu_get gets].
  change (m_cpus (k_mach k) !!! hart_id (k_mach k)) with (this_cpu (k_mach k)). rewrite Hn. cbn [Z.eqb negb Pos.eqb].
  rewrite bind_run. cbn [proc_get deref]. rewrite Hpr. rewrite decide_False by done.
  rewrite bind_run, intr_get_run, (mo_off _ Hm) by lia. cbn [b2z truthy Z.eqb negb].
  rewrite bind_run, mycpu_run by done. rewrite bind_run. reflexivity.
Qed.

Lemma sleep_run chan lk p ks k :
  before_sleep lk p k →
  sleep chan lk ks k =
    (swtch ;; c2 ← mycpu;
     cpu_set c2 (λ x, x <| c_intena := c_intena (this_cpu (sleep_machine lk p (k_mach k))) |>) ;;
     proc_set p (λ x, x <| p_chan := None |>) ;; release (L_proc p) ;; acquire lk) ks
    (sleep_state chan lk p k).
Proof.
  intros Hb. pose proof Hb as [Hm Hp Hlk Hn Hpl Hne [pr Hpr]].
  destruct (sleep_machine_facts lk p k Hb) as (Hm2 & Hp2 & Hh2 & _ & Hn2 & _).
  assert (Hs : settle (k_mach k) = k_mach k) by (apply settle_nested; lia).
  assert (Hk : k <| k_mach ::= settle |> = k) by (destruct k; cbn in *; by rewrite Hs).
  unfold sleep. rewrite bind_run, (curproc_run _ _ p), Hk by done.
  rewrite bind_run, acquire_run by done.
  rewrite bind_run, release_run; [|by apply machine_ok_take|by apply lock_held_take_other|cbn; rewrite noff_take by done; lia].
  do 2 (rewrite bind_run; cbn [proc_set modify]).
  rewrite bind_run, (sched_run p (pr <| p_chan := Some chan |> <| p_state := SLEEPING |>)); try done.
  - cbn. rewrite !list_alter_alter. unfold swtch. rewrite !bind_run.
    destruct ks as [|f ks]; [done|]. cbn. rewrite !bind_run.
    destruct (mycpu ks _); reflexivity.
  - cbn. rewrite list_alter_alter, list_lookup_alter_eq, Hpr. done.
Qed.

(** Changing a field of this cpu other than [noff]. *)
Lemma alter_cpu_ok f m :
  machine_ok m → (∀ x, c_noff (f x) = c_noff x) →
  let m' := m <| m_cpus ::= alter f (hart_id m) |> in
  this_cpu m' = f (this_cpu m) ∧ machine_ok m'.
Proof.
  intros Hm Hf m'.
  assert (Hc : this_cpu m' = f (this_cpu m)) by (apply list_alter_total; by apply hart_id_lt).
  split; [done|]. destruct Hm as [O1 O2 O3 O4]. constructor.
  - unfold m'; cbn. by rewrite length_alter.
  - done.
  - by rewrite Hc, Hf.
  - rewrite Hc, Hf. exact O4.
Qed.

Lemma sleep_returns chan lk p f ks k :
  before_sleep lk p k → resumed lk p (f (sleep_state chan lk p k)) → lk ≠ L_proc p →
  sleep chan lk (f :: ks) k =
    Ok tt ks (awake_state lk p (c_intena (this_cpu (sleep_machine lk p (k_mach k))))
                (f (sleep_state chan lk p k))).
Proof.
  intros Hb [Hm Hh Hn Hl] Hne. rewrite (sleep_run chan lk p) by done.
  rewrite bind_run. cbn [swtch wait_env]. set (k2 := f _) in *.
  destruct (machine_ok_tp _ Hm) as [Ht Ht'].
  rewrite bind_run, mycpu_run by done. do 2 (rewrite bind_run; cbn [cpu_set proc_set modify]).
  set (m3 := (k_mach k2) <| m_cpus ::= alter (λ x, x <| c_intena :=
    c_intena (this_cpu (sleep_machine lk p (k_mach k))) |>) (hart_id (k_mach k2)) |>).
  destruct (alter_cpu_ok (λ x, x <| c_intena :=
    c_intena (this_cpu (sleep_machine lk p (k_mach k))) |>) (k_mach k2) Hm ltac:(done)) as [Hc Hm3].
  fold m3 in Hc, Hm3.
  rewrite bind_run, release_run; cbn; change (Machine _ _ _) with m3; try done.
  - rewrite acquire_run; [done| |].
    + apply machine_ok_drop; [done|]. rewrite Hc. cbn [c_noff]. cbn. rewrite Hn. done.
    + apply lock_free_drop_other; [congruence|done].
  - rewrite Hc. cbn. by rewrite Hn.
Qed.

(** ** At most one cpu runs a process

    The parts of scheduler(), sched() and their callers that touch a process's
    state all hold its lock, so one lock-protected section is one step here.
    A cpu is in its scheduler, has picked a process and still holds its lock,
    runs it with the lock released, or has taken the lock again to give the
    process up. *)
Inductive cpu_pc :=
  | Idle                   (* in scheduler(), holding no process lock *)
  | Holding (p : nat)      (* between acquire and release of p->lock around swtch *)
  | Running (p : nat).     (* in the process, p->lock released *)

Record smp_sched := SmpSched {
  ss_pc : nat → cpu_pc;
  ss_state : nat → procstate;
  ss_lock : nat → option nat;    (* which cpu holds p->lock *)
}.

Definition upd {A} (f : nat → A) (i : nat) (a : A) : nat → A :=
  λ j, if decide (j = i) then a else f j.

Inductive sched_step : smp_sched → smp_sched → Prop :=
  (* scheduler(): acquire, state == RUNNABLE, state = RUNNING, swtch *)
  | step_pick c p s :
      ss_pc s c = Idle → ss_lock s p = None → ss_state s p = RUNNABLE →
      sched_step s (SmpSched (upd (ss_pc s) c (Holding p)) (upd (ss_state s) p RUNNING)
                             (upd (ss_lock s) p (Some c)))
  (* scheduler(): acquire and release of a process that is not RUNNABLE *)
  | step_skip c p s :
      ss_pc s c = Idle → ss_lock s p = None → ss_state s p ≠ RUNNABLE → sched_step s s
  (* the process releases the lock it was switched to with: forkret() and the
     ends of yield() and sleep() *)
  | step_enter c p s :
      ss_pc s c = Holding p → ss_state s p = RUNNING →
      sched_step s (SmpSched (upd (ss_pc s) c (Running p)) (ss_state s) (upd (ss_lock s) p None))
  (* yield(), sleep(), exit(): acquire p->lock, change the state, sched() *)
  | step_leave c p st s :
      ss_pc s c = Running p → ss_lock s p = None → st = RUNNABLE ∨ st = SLEEPING ∨ st = ZOMBIE →
      sched_step s (SmpSched (upd (ss_pc s) c (Holding p)) (upd (ss_state s) p st)
                             (upd (ss_lock s) p (Some c)))
  (* scheduler() after swtch returns: c->proc = 0, release *)
  | step_back c p s :
      ss_pc s c = Holding p → ss_state s p ≠ RUNNING →
      sched_step s (SmpSched (upd (ss_pc s) c Idle) (ss_state s) (upd (ss_lock s) p None))
  (* wakeup() and kill(): SLEEPING to RUNNABLE under p->lock, on any cpu *)
  | step_wake p s :
      ss_lock s p = None → ss_state s p = SLEEPING →
      sched_step s (SmpSched (ss_pc s) (upd (ss_state s) p RUNNABLE) (ss_lock s))
  (* allocproc() and fork(): UNUSED to USED to RUNNABLE under p->lock *)
  | step_alloc p s :
      ss_lock s p = None → ss_state s p = UNUSED →
      sched_step s (SmpSched (ss_pc s) (upd (ss_state s) p USED) (ss_lock s))
  | step_ready p s :
      ss_lock s p = None → ss_state s p = USED →
      sched_step s (SmpSched (ss_pc s) (upd (ss_state s) p RUNNABLE) (ss_lock s))
  (* wait() and the error paths of fork(): freeproc() under p->lock *)
  | step_free p s :
      ss_lock s p = None → ss_state s p = ZOMBIE ∨ ss_state s p = USED →
      sched_step s (SmpSched (ss_pc s) (upd (ss_state s) p UNUSED) (ss_lock s)).

(** A cpu is at [p]: it holds its lock around a switch or runs it. *)
Definition at_proc (s : smp_sched) (c p : nat) : Prop :=
  ss_pc s c = Holding p ∨ ss_pc s c = Running p.

Record sched_inv (s : smp_sched) : Prop := {
  si_lock : ∀ c p, ss_pc s c = Holding p ↔ ss_lock s p = Some c;
  si_unique : ∀ c c' p, at_proc s c p → at_proc s c' p → c = c';
  si_running : ∀ c p, ss_pc s c = Running p → ss_state s p = RUNNING;
  si_on_cpu : ∀ p, ss_state s p = RUNNING → ∃ c, at_proc s c p;
}.

Inductive sched_reach (s0 : smp_sched) : smp_sched → Prop :=
  | reach_refl : sched_reach s0 s0
  | reach_step s s' : sched_reach s0 s → sched_step s s' → sched_reach s0 s'.

(** After boot: every cpu idle, every lock free, nothing running. *)
Definition sched_init (s : smp_sched) : Prop :=
  (∀ c, ss_pc s c = Idle) ∧ (∀ p, ss_lock s p = None) ∧ (∀ p, ss_state s p ≠ RUNNING).

Lemma upd_eq {A} (f : nat → A) i a : upd f i a i = a.
Proof. unfold upd. by rewrite decide_True. Qed.

Lemma upd_ne {A} (f : nat → A) i j a : j ≠ i → upd f i a j = f j.
Proof. intros. unfold upd. by rewrite decide_False. Qed.

(** Case analysis on every updated index in the goal and the hypotheses. *)
Ltac upd_cases := unfold at_proc, upd in *; cbn in *; repeat case_decide; subst.

Lemma sched_inv_init s : sched_init s → sched_inv s.
Proof.
  intros (Hpc & Hlk & Hst). split; unfold at_proc.
  - intros c p. rewrite Hpc, Hlk. done.
  - intros c c' p [H|H]; rewrite Hpc in H; done.
  - intros c p H. rewrite Hpc in H. done.
  - intros p H. by apply Hst in H.
Qed.

(** Taking p->lock while at no other process, or while running [p]. *)
Lemma sched_inv_lock s c p st :
  sched_inv s → ss_lock s p = None → (ss_pc s c = Idle ∧ ss_state s p = RUNNABLE ∨ ss_pc s c = Running p) →
  sched_inv (SmpSched (upd (ss_pc s) c (Holding p)) (upd (ss_state s) p st) (upd (ss_lock s) p (Some c))).
Proof.
  intros [IL IU IR IO] Hl Hc.
  assert (Hnone : ∀ c', c' ≠ c → ¬ at_proc s c' p).
  { intros c' Hne Hat. destruct Hc as [[_ Hst]|Hc].
    - destruct Hat as [H|H]; [apply IL in H; congruence|apply IR in H; congruence].
    - apply Hne, (IU _ _ p Hat). by right. }
  split; cbn.
  - intros c' q. unfold upd. destruct (decide (c' = c)) as [->|N], (decide (q = p)) as [->|N'].
    + done.
    + split; [congruence|]. intros H. apply IL in H. destruct Hc as [[Hc _]|Hc]; congruence.
    + split; [|congruence]. intros H. exfalso. apply (Hnone c'); [done|by left].
    + apply IL.
  - intros c1 c2 q H1 H2. unfold at_proc, upd in H1, H2. cbn in H1, H2.
    destruct (decide (c1 = c)) as [->|N1], (decide (c2 = c)) as [->|N2]; try done.
    + assert (p = q) as <- by (destruct H1 as [[=]|[=]]; done). by destruct (Hnone c2 N2).
    + assert (p = q) as <- by (destruct H2 as [[=]|[=]]; done). by destruct (Hnone c1 N1).
    + by apply (IU c1 c2 q).
  - intros c' q. unfold upd. destruct (decide (c' = c)) as [->|N]; [done|]. intros H.
    destruct (decide (q = p)) as [->|]; [|by eapply IR].
    exfalso. apply (Hnone c'); [done|by right].
  - intros q Hq. unfold upd in Hq. case_decide; subst.
    + exists c. left. apply upd_eq.
    + destruct (IO q Hq) as [c' Hat]. exists c'. unfold at_proc, upd. cbn.
      case_decide; [|done]. subst. destruct Hc as [[Hc _]|Hc], Hat; congruence.
Qed.

(** Giving p->lock back, to run [p] or to go on scheduling. *)
Lemma sched_inv_unlock s c p pc :
  sched_inv s → ss_pc s c = Holding p →
  (pc = Running p ∧ ss_state s p = RUNNING ∨ pc = Idle ∧ ss_state s p ≠ RUNNING) →
  sched_inv (SmpSched (upd (ss_pc s) c pc) (ss_state s) (upd (ss_lock s) p None)).
Proof.
  intros [IL IU IR IO] Hc Hpc.
  assert (Hat : at_proc s c p) by (by left).
  assert (Hsub : ∀ c' q, at_proc (SmpSched (upd (ss_pc s) c pc) (ss_state s) (upd (ss_lock s) p None)) c' q →
    at_proc s c' q).
  { intros c' q. unfold at_proc, upd. cbn. case_decide; [|done]. subst.
    destruct Hpc as [[-> _]|[-> _]]; intros [H|H]; try done. injection H as <-. by left. }
  split; cbn.
  - intros c' q. unfold upd. destruct (decide (c' = c)) as [->|N], (decide (q = p)) as [->|N'].
    + destruct Hpc as [[-> _]|[-> _]]; done.
    + split; [destruct Hpc as [[-> _]|[-> _]]; done|]. intros H. apply IL in H. congruence.
    + split; [|done]. intros H. apply IL in H. apply IL in Hc. congruence.
    + apply IL.
  - intros c1 c2 q H1 H2. apply (IU c1 c2 q); by apply Hsub.
  - intros c' q. unfold upd. case_decide; [|by apply IR]. subst.
    destruct Hpc as [[-> Hst]|[-> _]]; [by intros [= <-]|done].
  - intros q Hq. destruct (IO q Hq) as [c' Hat']. exists c'. unfold at_proc, upd. cbn.
    case_decide; [|done]. subst.
    assert (p = q) as <- by (destruct Hat'; congruence).
    destruct Hpc as [[-> _]|[_ Hn]]; [by right|done].
Qed.

(** Changing the state of a process no cpu is at. *)
Lemma sched_inv_state s p st :
  sched_inv s → ss_state s p ≠ RUNNING → st ≠ RUNNING → 
  sched_inv (SmpSched (ss_pc s) (upd (ss_state s) p st) (ss_lock s)).
Proof.
  intros [IL IU IR IO] Hst Hst'. split; cbn; [exact IL|exact IU| |].
  - intros c q H. unfold upd. case_decide; [subst|by eapply IR]. by apply IR in H.
  - intros q Hq. unfold upd in Hq. case_decide; [done|by apply IO].
Qed.

Lemma sched_inv_step s s' : sched_inv s → sched_step s s' → sched_inv s'.
Proof.
  intros HI Hstep. destruct Hstep.
  - apply sched_inv_lock; auto.
  - done.
  - apply sched_inv_unlock; auto.
  - apply sched_inv_lock; auto.
  - apply sched_inv_unlock; auto.
  - apply sched_inv_state; [done|congruence|done].
  - apply sched_inv_state; [done|congruence|done].
  - apply sched_inv_state; [done|congruence|done].
  - apply sched_inv_state; [done| |done]. destruct H0; congruence.
Qed.

(** ** Properties *)



(** Wakeup(chan) makes exactly the processes sleeping on [chan], other
    than the caller, RUNNABLE; every other process and all other kernel state
    is unchanged, and locks and interrupts are as before. *)
Theorem wakeup_wakes_sleepers chan ks k me :
  machine_ok (k_mach k) → c_proc (this_cpu (k_mach k)) = me →
  proc_locks_free me (k_mach k) → procs_ok k →
  ∃ ps, wakeup chan ks k = Ok tt ks (k <| k_procs := ps |> <| k_mach := settle (k_mach k) |>) ∧
    ∀ p, ps !! p =
      match k_procs k !! p with
      | Some pr =>
          if decide (p_state pr = SLEEPING ∧ p_chan pr = Some chan ∧ me ≠ Some p)
          then Some (pr <| p_state := RUNNABLE |>) else Some pr
      | None => None
      end.
Proof.
  intros Hm Hme Hl Hlen. exists (woken chan me (k_procs k)).
  split; [by apply wakeup_run|]. intros p. unfold woken. rewrite list_lookup_imap.
  destruct (k_procs k !! p) as [pr|]; [|done]. cbn. unfold wake1.
  destruct (decide (me = Some p)); [by rewrite decide_False by tauto|].
  destruct (decide (p_state pr = SLEEPING)) as [E1|E1], (decide (p_chan pr = Some chan)) as [E2|E2];
    rewrite ?bool_decide_eq_true_2, ?bool_decide_eq_false_2 by done; cbn [andb].
  1: by rewrite decide_True.
  all: by rewrite decide_False by tauto.
Qed.


(** A kernel in which process 1 runs on hart 0 and holds [tickslock]. *)
Definition sample_sched : kernel :=
  match (procinit ;; initlock L_ticks "time" ;; cpu_set 0 (λ x, x <| c_proc := Some 1%nat |>) ;;
         acquire L_ticks) [] zero_kernel with
  | Ok _ _ k => k | _ => zero_kernel
  end.

Lemma sample_sched_before : before_sleep L_ticks 1 sample_sched.
Proof.
  split.
  - constructor; vm_compute; try reflexivity; try discriminate. split; [discriminate|reflexivity].
  - reflexivity.
  - by exists "time".
  - reflexivity.
  - by exists "proc".
  - discriminate.
  - vm_compute. by eexists.
Qed.


(** The same kernel before tickslock is taken. *)
Definition sample_procs : kernel :=
  match (procinit ;; cpu_set 0 (λ x, x <| c_proc := Some 1%nat |>)) [] zero_kernel with
  | Ok _ _ k => k <| k_procs ::= alter (λ x, x <| p_state := SLEEPING |> <| p_chan := Some Ch_ticks |>) 5%nat |>
  | _ => zero_kernel
  end.

Lemma wakeup_wakes_sleepers_witness :
  ∃ ps pr, wakeup Ch_ticks [] sample_procs =
      Ok tt [] (sample_procs <| k_procs := ps |> <| k_mach := settle (k_mach sample_procs) |>) ∧
    ps !! 5%nat = Some pr ∧ p_state pr = RUNNABLE.
Proof.
  destruct (wakeup_wakes_sleepers Ch_ticks [] sample_procs (Some 1%nat)) as (ps & H1 & H2).
  - constructor; vm_compute; try reflexivity; try discriminate. split; [discriminate|reflexivity].
  - reflexivity.
  - by apply proc_locks_freeb.
  - reflexivity.
  - exists ps. specialize (H2 5%nat). eexists. split; [exact H1|]. split; [exact H2|reflexivity].
Defined.
