(* ===== verification/Uart.v ===== *)
(** * The serial line: uart.c

    The device is seen through its registers: the line status register and
    the receive register deliver the successive values in [uart_lsr] and
    [uart_rhr] (once these run out the line is idle and no input waits), and
    [uart_thr] collects the bytes handed to the transmitter. *)

From S2P Require Import Prelude KMonad Memory Riscv State Spinlock Kalloc Vm Sched.

Definition IER : Z := 1.
Definition IER_RX_ENABLE : Z := Z.shiftl 1 0.
Definition IER_TX_ENABLE : Z := Z.shiftl 1 1.
Definition FCR : Z := 2.
Definition FCR_FIFO_ENABLE : Z := Z.shiftl 1 0.
Definition FCR_FIFO_CLEAR : Z := Z.shiftl 3 1.
Definition LCR : Z := 3.
Definition LCR_EIGHT_BITS : Z := Z.shiftl 3 0.
Definition LCR_BAUD_LATCH : Z := Z.shiftl 1 7.
Definition LSR_RX_READY : Z := Z.shiftl 1 0.
Definition LSR_TX_IDLE : Z := Z.shiftl 1 5.
Definition UART_TX_BUF_SIZE : Z := 32.

Definition uart_set (f : uart_t → uart_t) : M kernel unit := modify (λ k, k <| k_uart ::= f |>).

(** [WriteReg(reg, v)] for the configuration registers *)
Definition WriteReg (reg v : Z) : M kernel unit :=
  uart_set (λ u, u <| uart_regs ::= <[ reg := u8 v ]> |>).

(** [ReadReg(LSR)], [ReadReg(RHR)] and [WriteReg(THR, c)] *)
Definition read_LSR : M kernel Z :=
  l ← gets (λ k, uart_lsr (k_uart k));
  uart_set (λ u, u <| uart_lsr ::= tail |>) ;;
  mret (default LSR_TX_IDLE (head l)).
Definition read_RHR : M kernel Z :=
  l ← gets (λ k, uart_rhr (k_uart k));
  uart_set (λ u, u <| uart_rhr ::= tail |>) ;;
  mret (u8 (default 0 (head l))).
Definition write_THR (c : Z) : M kernel unit :=
  uart_set (λ u, u <| uart_thr ::= λ l, l ++ [u8 c] |>).

Definition uartinit : M kernel unit :=
  WriteReg IER 0x00 ;;                              (* disable interrupts. *)
  WriteReg LCR LCR_BAUD_LATCH ;;                    (* special mode to set baud rate. *)
  WriteReg 0 0x03 ;;                                (* LSB for baud rate of 38.4K. *)
  WriteReg 1 0x00 ;;                                (* MSB for baud rate of 38.4K. *)
  WriteReg LCR LCR_EIGHT_BITS ;;                    (* leave set-baud mode. *)
  WriteReg FCR (Z.lor FCR_FIFO_ENABLE FCR_FIFO_CLEAR) ;;
  WriteReg IER (Z.lor IER_TX_ENABLE IER_RX_ENABLE) ;;
  initlock L_uart_tx "uart".

(** [for(;;) ;] *)
Definition spin_forever {A} : M kernel A := λ _ k, Blocked k.

Definition tx_empty (u : uart_t) : bool := uart_tx_w u =? uart_tx_r u.
Definition tx_full (u : uart_t) : bool := uart_tx_w u =? u64 (uart_tx_r u + UART_TX_BUF_SIZE).

(** The body of uartstart()'s [while(1)]. *)
Definition uartstart_body (_ : unit) : M kernel (unit + unit) :=
  u ← gets k_uart;
  if tx_empty u then mret (inr tt) else
  lsr ← read_LSR;
  if Z.land lsr LSR_TX_IDLE =? 0 then mret (inr tt) else
  let c := uart_tx_buf u !!! Z.to_nat (uart_tx_r u mod UART_TX_BUF_SIZE) in
  uart_set (λ u, u <| uart_tx_r := u64 (uart_tx_r u + 1) |>) ;;
  (* maybe uartputc() is waiting for space in the buffer. *)
  wakeup Ch_uart_tx_r ;;
  write_THR c ;;
  mret (inl tt).

(** Every turn sends one of the buffered characters. *)
Definition uartstart : M kernel unit :=
  u ← gets k_uart;
  while_fuel (S (Z.to_nat (u64 (uart_tx_w u - uart_tx_r u)))) uartstart_body tt.

(** [while(uart_tx_w == uart_tx_r + UART_TX_BUF_SIZE)] *)
Definition uartputc_wait (_ : unit) : M kernel (unit + unit) :=
  u ← gets k_uart;
  if tx_full u then sleep Ch_uart_tx_r L_uart_tx ;; mret (inl tt) else mret (inr tt).

Definition uartputc (c : Z) : M kernel unit :=
  acquire L_uart_tx ;;
  pk ← gets k_panicked;
  if truthy pk then spin_forever else
  w ← waits_left;
  while_fuel (S w) uartputc_wait tt ;;
  uart_set (λ u, u <| uart_tx_buf ::= <[ Z.to_nat (uart_tx_w u mod UART_TX_BUF_SIZE) := u8 c ]> |>) ;;
  uart_set (λ u, u <| uart_tx_w := u64 (uart_tx_w u + 1) |>) ;;
  uartstart ;;
  release L_uart_tx.

(** [while((ReadReg(LSR) & LSR_TX_IDLE) == 0) ;] *)
Definition tx_wait (_ : unit) : M kernel (unit + unit) :=
  lsr ← read_LSR;
  if Z.land lsr LSR_TX_IDLE =? 0 then mret (inl tt) else mret (inr tt).

Definition uartputc_sync (c : Z) : M kernel unit :=
  push_off ;;
  pk ← gets k_panicked;
  if truthy pk then spin_forever else
  n ← gets (λ k, length (uart_lsr (k_uart k)));
  while_fuel (S n) tx_wait tt ;;
  write_THR c ;;
  pop_off.

Definition uartgetc : M kernel Z :=
  lsr ← read_LSR;
  if truthy (Z.land lsr 0x01) then read_RHR else mret (-1).
