(* ===== verification/Printf.v ===== *)
(** * Formatted kernel output: printf.c, and consputc() of console.c *)

From S2P Require Import Prelude KMonad Memory Riscv State Spinlock CString Kalloc Vm Sched Uart.

Definition BACKSPACE : Z := 0x100.

Definition consputc (c : Z) : M kernel unit :=
  if c =? BACKSPACE then
    (* if the user typed backspace, overwrite with a space. *)
    uartputc_sync 8 ;; uartputc_sync 32 ;; uartputc_sync 8
  else uartputc_sync c.

(** The bytes of a string literal. *)
Definition bytes_of (s : string) : list Z :=
  (λ c, Z.of_nat (Ascii.nat_of_ascii c)) <$> String.list_ascii_of_string s.

(** [digits[i]] *)
Definition digit (i : Z) : Z := if i <? 10 then 48 + i else 87 + i.

(** [do { buf[i++] = digits[x % base]; } while((x /= base) != 0);]: the digits
    from the least significant; a 32-bit number has at most 32. *)
Fixpoint digits_loop (fuel : nat) (x base : Z) : list Z :=
  digit (x mod base) ::
  match fuel with
  | O => []
  | S fuel' => if x / base =? 0 then [] else digits_loop fuel' (x / base) base
  end.

(** What printint() puts into buf, in the order it is filled. *)
Definition printint_buf (xx base sign : Z) : list Z :=
  let neg := truthy sign && (xx <? 0) in
  let x := if neg then u32 (- xx) else u32 xx in
  digits_loop 31 x base ++ if neg then [45] else [].

Definition printint (xx base sign : Z) : M kernel unit :=
  for_each (reverse (printint_buf xx base sign)) consputc.

(** The i-th digit printptr() prints. *)
Definition ptr_digit (x i : Z) : Z := digit (Z.shiftr (u64 (Z.shiftl x (4 * i))) 60).

Definition printptr (x : Z) : M kernel unit :=
  consputc 48 ;;
  consputc 120 ;;
  for_each (Z.of_nat <$> seq 0 16) (λ i, consputc (ptr_digit x i)).

(** An argument of printf(): an int, a uint64, or a string with null for none. *)
Inductive varg := A_int (n : Z) | A_ptr (x : Z) | A_str (s : option (list Z)).

(** The loop over the format; the string ends at the end of the list. *)
Fixpoint vprintf (fmt : list Z) (ap : list varg) : M kernel unit :=
  match fmt with
  | [] => mret tt
  | c :: fmt1 =>
      if negb (c =? 37) then consputc c ;; vprintf fmt1 ap else
      match fmt1 with
      | [] => mret tt
      | c1 :: fmt2 =>
          if c1 =? 100 then        (* 'd' *)
            match ap with
            | A_int n :: ap' => printint n 10 1 ;; vprintf fmt2 ap'
            | _ => stuck "va_arg"
            end
          else if c1 =? 120 then   (* 'x' *)
            match ap with
            | A_int n :: ap' => printint n 16 1 ;; vprintf fmt2 ap'
            | _ => stuck "va_arg"
            end
          else if c1 =? 112 then   (* 'p' *)
            match ap with
            | A_ptr x :: ap' => printptr x ;; vprintf fmt2 ap'
            | _ => stuck "va_arg"
            end
          else if c1 =? 115 then   (* 's' *)
            match ap with
            | A_str s :: ap' =>
                for_each (until_nul (default (bytes_of "(null)") s)) consputc ;;
                vprintf fmt2 ap'
            | _ => stuck "va_arg"
            end
          else if c1 =? 37 then consputc 37 ;; vprintf fmt2 ap
          else
            (* Print unknown % sequence to draw attention. *)
            consputc 37 ;; consputc c1 ;; vprintf fmt2 ap
      end
  end.

Definition printf (fmt : list Z) (ap : list varg) : M kernel unit :=
  locking ← gets k_pr_locking;
  when (truthy locking) (acquire L_pr) ;;
  vprintf fmt ap ;;
  when (truthy locking) (release L_pr).

(** The newline character. *)
Definition newline : list Z := [10].

(** What panic() does before it spins for ever; in the monad of this
    development a call of panic() ends the computation with its message. *)
Definition panic_body (s : list Z) : M kernel unit :=
  modify (λ k, k <| k_pr_locking := 0 |>) ;;
  printf (bytes_of "panic: ") [] ;;
  printf s [] ;;
  printf newline [] ;;
  modify (λ k, k <| k_panicked := 1 |>) ;;
  spin_forever.

Definition printfinit : M kernel unit :=
  initlock L_pr "pr" ;;
  modify (λ k, k <| k_pr_locking := 1 |>).
