(* ===== verification/PrintfSpec.v ===== *)
(** * Properties of the kernel's formatted output *)

From S2P Require Import Prelude KMonad Memory Riscv State Spinlock CString Kalloc Vm Sched Uart Printf.

(** A state in which characters can be printed synchronously. *)
Record can_print (k : kernel) : Prop := {
  cp_mach : machine_ok (k_mach k);
  cp_settled : settle (k_mach k) = k_mach k;
  cp_alive : k_panicked k = 0;
}.

(** [k'] is [k] after the bytes [out] went to the transmit register; the
    line status register was read any number of times. *)
Definition sent (out : list Z) (k k' : kernel) : Prop :=
  ∃ lsr, k' = k <| k_uart ::= λ u, u <| uart_lsr := lsr |> <| uart_thr ::= λ l, l ++ out |> |>.

Lemma sent_nil k : sent [] k k.
Proof. exists (uart_lsr (k_uart k)). destruct k as []; cbn. f_equal. destruct k_uart as []; cbn. by rewrite app_nil_r. Qed.

Lemma sent_app o1 o2 k k1 k2 : sent o1 k k1 → sent o2 k1 k2 → sent (o1 ++ o2) k k2.
Proof. intros [l1 ->] [l2 ->]. exists l2. destruct k as [], k_uart as []; cbn. by rewrite app_assoc. Qed.

Lemma sent_can_print out k k' : sent out k k' → can_print k → can_print k'.
Proof. intros [l ->] [H1 H2 H3]. by split. Qed.

(** The state with the machine changed. *)
Lemma sent_mach out k k' m : sent out (k <| k_mach := m |>) k' → sent out k (k' <| k_mach := k_mach k |>).
Proof. intros [l ->]. exists l. by destruct k. Qed.

(** Waiting for the transmitter. *)
Definition lsr_next (k : kernel) : kernel := k <| k_uart ::= λ u, u <| uart_lsr ::= tail |> |>.

Lemma tx_wait_run ks k :
  tx_wait tt ks k =
  Ok (if Z.land (default LSR_TX_IDLE (head (uart_lsr (k_uart k)))) LSR_TX_IDLE =? 0 then inl tt else inr tt) ks (lsr_next k).
Proof. unfold tx_wait, read_LSR. ksteps. unfold default, id. by destruct (_ =? 0). Qed.

Lemma tx_wait_loop ks k n :
  (length (uart_lsr (k_uart k)) ≤ n)%nat →
  ∃ l, while_fuel (S n) tx_wait tt ks k = Ok tt ks (k <| k_uart ::= λ u, u <| uart_lsr := l |> |>).
Proof.
  assert (Hnext : ∀ k, lsr_next k = k <| k_uart ::= λ u, u <| uart_lsr := tail (uart_lsr (k_uart k)) |> |>) by done.
  revert k. induction n as [|n IH]; intros k Hn; cbn [while_fuel]; rewrite bind_run, tx_wait_run.
  - destruct (uart_lsr (k_uart k)) as [|x l] eqn:E; [|cbn in Hn; lia]. cbn. exists []. by rewrite Hnext, E.
  - destruct (_ =? 0).
    + destruct (IH (lsr_next k)) as [l H]; [cbn; destruct (uart_lsr (k_uart k)); cbn in *; lia|].
      exists l. cbn [while_fuel] in H. rewrite H. by destruct k as [], k_uart as [].
    + exists (tail (uart_lsr (k_uart k))). by rewrite <- Hnext.
Qed.

Lemma uartputc_sync_run c ks k :
  can_print k → ∃ k', uartputc_sync c ks k = Ok tt ks k' ∧ sent [u8 c] k k'.
Proof.
  intros [Hm Hs Hp]. unfold uartputc_sync. rewrite bind_run, push_off_run by done. rewrite bind_run. cbn [gets].
  set (k1 := k <| k_mach ::= push_offed |>). change (k_panicked k1) with (k_panicked k). rewrite Hp. cbn [truthy Z.eqb negb].
  rewrite bind_run. cbn [gets]. destruct (tx_wait_loop ks k1 (length (uart_lsr (k_uart k1)))) as [l Hl]; [done|].
  rewrite bind_run, Hl, bind_run. unfold write_THR, uart_set. cbn [modify].
  set (k2 := _ <| k_uart ::= λ u, u <| uart_thr ::= _ |> |>).
  assert (Hk2 : k_mach k2 = push_offed (k_mach k)) by done.
  rewrite pop_off_run; [|rewrite Hk2; by apply machine_ok_push|rewrite Hk2, this_cpu_push by done; cbn; pose proof (mo_noff _ Hm); lia].
  eexists. split; [reflexivity|]. exists l. unfold k2, k1. cbn. rewrite pop_push, Hs by done. by destruct k.
Qed.

(** The bytes consputc(c) sends. *)
Definition cons_bytes (c : Z) : list Z := if c =? BACKSPACE then [8; 32; 8] else [u8 c].

Lemma consputc_run c ks k : can_print k → ∃ k', consputc c ks k = Ok tt ks k' ∧ sent (cons_bytes c) k k'.
Proof.
  intros Hk. unfold consputc, cons_bytes. destruct (c =? BACKSPACE); [|by apply uartputc_sync_run].
  destruct (uartputc_sync_run 8 ks k Hk) as (k1 & H1 & S1). rewrite bind_run, H1.
  pose proof (sent_can_print _ _ _ S1 Hk) as Hk1.
  destruct (uartputc_sync_run 32 ks k1 Hk1) as (k2 & H2 & S2). rewrite bind_run, H2.
  pose proof (sent_can_print _ _ _ S2 Hk1) as Hk2.
  destruct (uartputc_sync_run 8 ks k2 Hk2) as (k3 & H3 & S3). exists k3. split; [done|].
  apply (sent_app [8] [32; 8] _ k1); [done|]. by apply (sent_app [32] [8] _ k2).
Qed.

Lemma consputc_all_run l ks k :
  can_print k → ∃ k', for_each l consputc ks k = Ok tt ks k' ∧ sent (l ≫= cons_bytes) k k'.
Proof.
  revert k. induction l as [|c l IH]; intros k Hk; [exists k; split; [done|apply sent_nil]|]. cbn [for_each].
  destruct (consputc_run c ks k Hk) as (k1 & H1 & S1). rewrite bind_run, H1.
  destruct (IH k1) as (k2 & H2 & S2); [by apply (sent_can_print _ _ _ S1)|].
  exists k2. split; [done|]. by apply (sent_app _ _ _ k1).
Qed.

(** Plain characters are sent as they are. *)
Lemma plain_bytes l : Forall (λ c, 0 ≤ c < 256) l → l ≫= cons_bytes = l.
Proof.
  induction 1 as [|c l Hc _ IH]; [done|]. cbn. rewrite IH. unfold cons_bytes.
  destruct (Z.eqb_spec c BACKSPACE) as [->|]; [by destruct Hc|]. unfold u8. by rewrite Z.mod_small.
Qed.

(** ** Numbers *)

Definition digit_value (c : Z) : Z := if c <? 58 then c - 48 else c - 87.

(** The number a string of digits stands for, most significant digit first. *)
Definition read_digits (base : Z) (l : list Z) : Z := foldl (λ n c, n * base + digit_value c) 0 l.

Definition read_int (base : Z) (l : list Z) : Z :=
  match l with
  | c :: l' => if c =? 45 then - read_digits base l' else read_digits base l
  | [] => 0
  end.

(** Digits without a leading zero. *)
Definition canonical (ds : list Z) : Prop := ds ≠ [] ∧ (head ds = Some 48 → ds = [48]).

Lemma digit_value_digit i : 0 ≤ i < 16 → digit_value (digit i) = i.
Proof. intros H. unfold digit, digit_value. destruct (Z.ltb_spec i 10), (Z.ltb_spec (48 + i) 58), (Z.ltb_spec (87 + i) 58); lia. Qed.

Lemma digit_byte i : 0 ≤ i < 16 → 48 ≤ digit i < 128.
Proof. unfold digit. destruct (Z.ltb_spec i 10); lia. Qed.

Section digits.
Context (base : Z) (Hbase : 2 ≤ base ≤ 16).

Lemma digit_mod x : 0 ≤ x mod base < 16.
Proof. pose proof (Z.mod_pos_bound x base). lia. Qed.

Lemma div_pow x n : 0 ≤ x < base ^ Z.of_nat (S (S n)) → 0 ≤ x / base < base ^ Z.of_nat (S n).
Proof.
  intros Hx. split; [apply Z.div_pos; lia|]. apply Z.div_lt_upper_bound; [lia|].
  replace (Z.of_nat (S (S n))) with (Z.of_nat (S n) + 1) in Hx by lia. rewrite Z.pow_add_r in Hx by lia. lia.
Qed.

Lemma digits_loop_read fuel x :
  0 ≤ x < base ^ Z.of_nat (S fuel) → read_digits base (reverse (digits_loop fuel x base)) = x.
Proof.
  revert x. induction fuel as [|fuel IH]; intros x Hx; cbn [digits_loop]; unfold read_digits.
  - cbn. rewrite digit_value_digit by apply digit_mod. change (Z.of_nat 1) with 1 in Hx. rewrite Z.pow_1_r in Hx. by apply Z.mod_small.
  - rewrite reverse_cons, foldl_snoc, digit_value_digit by apply digit_mod.
    destruct (Z.eqb_spec (x / base) 0) as [E|E]; cbn [reverse].
    + cbn. rewrite (Z.div_mod x base) at 2 by lia. rewrite E. lia.
    + fold (read_digits base (reverse (digits_loop fuel (x / base) base))). rewrite IH.
      * rewrite (Z.div_mod x base) at 3 by lia. lia.
      * by apply div_pow.
Qed.

Lemma digits_loop_bytes fuel x : Forall (λ c, 48 ≤ c < 128) (digits_loop fuel x base).
Proof.
  revert x. induction fuel as [|fuel IH]; intros x; cbn [digits_loop]; (constructor; [apply digit_byte, digit_mod|]); [done|].
  destruct (_ =? 0); [done|apply IH].
Qed.

Lemma digits_loop_length fuel x n : (0 < n)%nat → 0 ≤ x < base ^ Z.of_nat n → (length (digits_loop fuel x base) ≤ n)%nat.
Proof.
  revert x n. induction fuel as [|fuel IH]; intros x n Hn Hx; cbn [digits_loop length]; [lia|].
  destruct (Z.eqb_spec (x / base) 0) as [E|E]; [cbn; lia|].
  destruct n as [|[|n]]; [lia|exfalso; apply E, Z.div_small; by rewrite Z.pow_1_r in Hx|].
  enough (length (digits_loop fuel (x / base) base) ≤ S n)%nat by lia. apply IH; [lia|by apply div_pow].
Qed.

(** The last digit put into the buffer is zero only for the number zero. *)
Lemma digits_loop_last fuel x :
  0 ≤ x < base ^ Z.of_nat (S fuel) → last (digits_loop fuel x base) = Some 48 → digits_loop fuel x base = [48].
Proof.
  assert (Hz : ∀ i, 0 ≤ i < 16 → digit i = 48 → i = 0) by (intros i Hi; unfold digit; destruct (Z.ltb_spec i 10); lia).
  enough (H : ∀ fuel x, 0 ≤ x < base ^ Z.of_nat (S fuel) → last (digits_loop fuel x base) = Some 48 → x = 0).
  { intros Hx Hl. apply H in Hl as ->; [|done]. destruct fuel; cbn [digits_loop]; by rewrite Z.mod_0_l by lia. }
  clear fuel x. induction fuel as [|fuel IH]; intros x Hx; cbn [digits_loop].
  - intros [= H%Hz]; [|apply digit_mod]. change (Z.of_nat 1) with 1 in Hx. rewrite Z.pow_1_r in Hx. by rewrite Z.mod_small in H.
  - pose proof (Z.div_mod x base ltac:(lia)) as Hdm. destruct (Z.eqb_spec (x / base) 0) as [E|E].
    + intros [= H%Hz]; [|apply digit_mod]. lia.
    + intros Hl. exfalso. apply E, IH.
      * by apply div_pow.
      * rewrite last_cons in Hl. destruct (last (digits_loop fuel (x / base) base)) eqn:El; [done|].
        apply last_None in El. by destruct fuel.
Qed.
End digits.

(** C38: printint() prints the number.  The characters it sends to the
    transmit register, and nothing else, read back as its argument - as a
    signed 32-bit integer or an unsigned one, INT_MIN included - without
    leading zeros, and the digits and the sign fit into its buffer of 16
    characters. *)
Theorem printint_prints xx base sign ks k :
  can_print k → base = 10 ∨ base = 16 → - 2 ^ 31 ≤ xx < 2 ^ 31 →
  ∃ k' neg ds, printint xx base sign ks k = Ok tt ks k' ∧
    let out := (if neg : bool then [45] else []) ++ ds in
    sent out k k' ∧ canonical ds ∧ read_int base out = (if truthy sign then xx else u32 xx) ∧
    (length (printint_buf xx base sign) ≤ 16)%nat.
Proof.
  intros Hk Hb Hxx. set (neg := truthy sign && (xx <? 0)). set (x := if neg then u32 (- xx) else u32 xx).
  assert (Hbase : 2 ≤ base ≤ 16) by (destruct Hb; lia).
  assert (Hx32 : 0 ≤ x < 2 ^ 32) by (unfold x, u32; destruct neg; apply Z.mod_pos_bound; lia).
  assert (Hx : 0 ≤ x < base ^ Z.of_nat 32) by (destruct Hb as [-> | ->]; cbn; lia).
  assert (Hx10 : 0 ≤ x < base ^ Z.of_nat 10) by (destruct Hb as [-> | ->]; cbn; lia).
  set (l := digits_loop 31 x base). pose proof (digits_loop_bytes base Hbase 31 x) as Hbytes. fold l in Hbytes.
  set (out := (if neg then [45] else []) ++ reverse l).
  assert (Hbuf : printint_buf xx base sign = l ++ (if neg then [45] else [])) by done.
  assert (Hout : reverse (printint_buf xx base sign) = out) by (rewrite Hbuf, reverse_app; by destruct neg).
  destruct (consputc_all_run out ks k Hk) as (k' & Hrun & Hsent). rewrite plain_bytes in Hsent.
  2:{ apply Forall_app. split; [destruct neg; repeat constructor; lia|]. apply Forall_reverse.
      eapply Forall_impl; [exact Hbytes|]. cbn. lia. }
  exists k', neg, (reverse l). split; [unfold printint; by rewrite Hout|]. split; [done|]. split; [|split].
  - split; [intros E; apply (f_equal length) in E; by rewrite length_reverse in E|]. rewrite head_reverse. intros Hl.
    by rewrite (digits_loop_last base Hbase 31 x Hx Hl : l = [48]).
  - pose proof (digits_loop_read base Hbase 31 x Hx) as Hread. fold l in Hread. unfold read_int.
    destruct neg eqn:En; cbn [app].
    + apply andb_true_iff in En as [-> Hn%Z.ltb_lt]. cbn [Z.eqb Pos.eqb]. rewrite Hread. unfold x, u32. rewrite Z.mod_small; lia.
    + destruct (reverse l) as [|c r] eqn:El; [apply (f_equal length) in El; by rewrite length_reverse in El|].
      assert (48 ≤ c) by (apply Forall_reverse in Hbytes; rewrite El in Hbytes; inversion Hbytes; lia).
      destruct (Z.eqb_spec c 45); [lia|]. cbn [app]. rewrite Hread. unfold x. destruct (truthy sign); [|done].
      apply Z.ltb_ge in En. unfold u32. rewrite Z.mod_small; lia.
  - rewrite Hbuf, length_app. assert (length l ≤ 10)%nat by (apply digits_loop_length; [done|lia|done]). destruct neg; cbn [length]; lia.
Qed.

Lemma printint_prints_witness :
  can_print zero_kernel ∧
  ∃ k' neg ds, printint (- 2 ^ 31) 10 1 [] zero_kernel = Ok tt [] k' ∧
    let out := (if neg : bool then [45] else []) ++ ds in
    sent out zero_kernel k' ∧ canonical ds ∧ read_int 10 out = - 2 ^ 31 ∧
    (length (printint_buf (- 2 ^ 31) 10 1) ≤ 16)%nat.
Proof.
  assert (Hk : can_print zero_kernel) by (split; [constructor; vm_compute; done || by_eval|vm_compute; reflexivity|reflexivity]).
  split; [exact Hk|]. apply (printint_prints (- 2 ^ 31) 10 1 [] zero_kernel Hk); [by left|lia].
Defined.

(** ** Messages without arguments *)

Lemma vprintf_plain_run s ks k :
  can_print k → Forall (λ c, 0 ≤ c < 256 ∧ c ≠ 37) s → ∃ k', vprintf s [] ks k = Ok tt ks k' ∧ sent s k k'.
Proof.
  intros Hk Hs. revert k Hk. induction Hs as [|c s [Hc Hne] _ IH]; intros k Hk; [exists k; split; [done|apply sent_nil]|].
  cbn [vprintf]. destruct (Z.eqb_spec c 37); [done|]. cbn [negb].
  destruct (consputc_run c ks k Hk) as (k1 & H1 & S1). rewrite bind_run, H1.
  destruct (IH k1) as (k2 & H2 & S2); [by apply (sent_can_print _ _ _ S1)|]. exists k2. split; [done|].
  apply (sent_app [c] s _ k1); [|done]. pose proof (plain_bytes [c]) as E. cbn in E. rewrite app_nil_r in E.
  rewrite E in S1; [done|]. by constructor.
Qed.

Lemma printf_plain_run s ks k :
  can_print k → lock_free L_pr (k_mach k) → Forall (λ c, 0 ≤ c < 256 ∧ c ≠ 37) s →
  ∃ k', printf s [] ks k = Ok tt ks k' ∧ sent s k k'.
Proof.
  intros Hk Hf Hs. pose proof Hk as [Hm Hset Hp]. unfold printf. rewrite bind_run. cbn [gets].
  destruct (truthy (k_pr_locking k)) eqn:El; cbn [when].
  - rewrite bind_run, acquire_run by done. set (k1 := k <| k_mach ::= _ |>).
    assert (Hk1 : can_print k1).
    { split; [by apply machine_ok_take| |done]. apply settle_nested. cbn. rewrite noff_take by done.
      pose proof (mo_noff _ Hm). lia. }
    destruct (vprintf_plain_run s ks k1 Hk1 Hs) as (k2 & H2 & S2). rewrite bind_run, H2.
    assert (Hk2 : k_mach k2 = take_lock L_pr (k_mach k)) by (by destruct S2 as [l ->]).
    rewrite (release_taken _ _ _ (k_mach k)) by done. rewrite Hset. eexists. split; [done|].
    by apply (sent_mach s k k2 (take_lock L_pr (k_mach k))).
  - rewrite bind_run. cbn [mret]. destruct (vprintf_plain_run s ks k Hk Hs) as (k2 & H2 & S2).
    exists k2. rewrite ret_run, bind_run, H2. done.
Qed.
