(* ===== verification/Console.v ===== *)
(** * The console: console.c, with procdump() of proc.c and uartintr() of uart.c *)

From S2P Require Import Prelude KMonad Memory Riscv State Spinlock CString Kalloc Vm VmUser.
From S2P Require Import VmCopy Sched Uart Printf.

Definition INPUT_BUF_SIZE : Z := 128.
Definition CONSOLE : Z := 1.

(** [C(x)], Control-x *)
Definition C (x : Z) : Z := x - 64.

Definition cons_set (f : cons_t → cons_t) : M kernel unit := modify (λ k, k <| k_cons ::= f |>).

(** The names procdump() prints. *)
Definition state_name (s : procstate) : list Z :=
  bytes_of match s with
  | UNUSED => "unused" | USED => "used" | SLEEPING => "sleep "
  | RUNNABLE => "runble" | RUNNING => "run   " | ZOMBIE => "zombie"
  end.

Definition procdump : M kernel unit :=
  printf newline [] ;;
  for_each (seq 0 NPROC) (λ p,
    pr ← proc_get p;
    if decide (p_state pr = UNUSED) then mret tt else
    printf (bytes_of "%d %s %s") [A_int (p_pid pr); A_str (Some (state_name (p_state pr))); A_str (Some (p_name pr))] ;;
    printf newline []).

Section console.
Context `{KI : KernelImage}.

(** [for(i = 0; i < n; i++)] of consolewrite() *)
Definition consolewrite_body (user_src : bool) (src n : Z) (i : Z) : M kernel (Z + Z) :=
  if i <? n then
    r ← either_copyin user_src (u64 (src + i)) 1;
    if (r.1 : Z) =? -1 then mret (inr i) else
    uartputc (r.2 !!! 0%nat) ;;
    mret (inl (i + 1))
  else mret (inr i).

Definition consolewrite (user_src : bool) (src n : Z) : M kernel Z :=
  while_fuel (S (Z.to_nat n)) (consolewrite_body user_src src n) 0.

(** [while(cons.r == cons.w)]: [false] when the process is being killed. *)
Definition cons_wait (_ : unit) : M kernel (unit + bool) :=
  c ← gets k_cons;
  if cons_r c =? cons_w c then
    p ← curproc;
    r ← killed p;
    if truthy r then
      release L_cons ;;
      mret (inr false)
    else
      sleep Ch_cons_r L_cons ;;
      mret (inl tt)
  else mret (inr true).

(** One turn of [while(n > 0)], on (dst, n); [inr None] is [return -1]. *)
Definition consoleread_body (user_dst : bool) (target : Z) (s : Z * Z) : M kernel (Z * Z + option Z) :=
  let '(dst, n) := s in
  if 0 <? n then
    w ← waits_left;
    go ← while_fuel (S w) cons_wait tt;
    if negb (go : bool) then mret (inr None) else
    co ← gets k_cons;
    let c := cons_buf co !!! Z.to_nat (cons_r co mod INPUT_BUF_SIZE) in
    cons_set (λ x, x <| cons_r := u32 (cons_r x + 1) |>) ;;
    if c =? C 68 then  (* end-of-file *)
      (* Save ^D for next time, to make sure caller gets a 0-byte result. *)
      when (n <? target) (cons_set (λ x, x <| cons_r := u32 (cons_r x - 1) |>)) ;;
      mret (inr (Some n))
    else
      r ← either_copyout user_dst dst [c];
      if r =? -1 then mret (inr (Some n)) else
      if c =? 10 then mret (inr (Some (n - 1)))   (* a whole line has arrived *)
      else mret (inl (u64 (dst + 1), n - 1))
  else mret (inr (Some n)).

Definition consoleread (user_dst : bool) (dst n : Z) : M kernel Z :=
  let target := u32 n in
  acquire L_cons ;;
  r ← while_fuel (S (Z.to_nat n)) (consoleread_body user_dst target) (dst, n);
  match r with
  | None => mret (-1)
  | Some n' =>
      release L_cons ;;
      mret (i32 (target - n'))
  end.

(** Kill line: [while(cons.e != cons.w && buf[(e-1) % SIZE] != '\n')] *)
Definition kill_line_body (_ : unit) : M kernel (unit + unit) :=
  c ← gets k_cons;
  if negb (cons_e c =? cons_w c) &&
     negb (cons_buf c !!! Z.to_nat (u32 (cons_e c - 1) mod INPUT_BUF_SIZE) =? 10)
  then
    cons_set (λ x, x <| cons_e := u32 (cons_e x - 1) |>) ;;
    consputc BACKSPACE ;;
    mret (inl tt)
  else mret (inr tt).

(** The default case of consoleintr(): an ordinary character. *)
Definition cons_char (c0 : Z) : M kernel unit :=
  co ← gets k_cons;
  when (negb (c0 =? 0) && (u32 (cons_e co - cons_r co) <? INPUT_BUF_SIZE))
    (let c := if c0 =? 13 then 10 else c0 in
     (* echo back to the user. *)
     consputc c ;;
     (* store for consumption by consoleread(). *)
     cons_set (λ x, x <| cons_buf ::= <[ Z.to_nat (cons_e x mod INPUT_BUF_SIZE) := u8 c ]> |>) ;;
     cons_set (λ x, x <| cons_e := u32 (cons_e x + 1) |>) ;;
     co1 ← gets k_cons;
     when ((c =? 10) || (c =? C 68) || (u32 (cons_e co1 - cons_r co1) =? INPUT_BUF_SIZE))
       (* wake up consoleread() if a whole line (or end-of-file) has arrived. *)
       (cons_set (λ x, x <| cons_w := cons_e x |>) ;;
        wakeup Ch_cons_r)).

Definition consoleintr (c : Z) : M kernel unit :=
  acquire L_cons ;;
  (if c =? C 80 then procdump                      (* Print process list. *)
   else if c =? C 85 then                          (* Kill line. *)
     co ← gets k_cons;
     while_fuel (S (Z.to_nat (u32 (cons_e co - cons_w co)))) kill_line_body tt
   else if (c =? C 72) || (c =? 127) then          (* Backspace, Delete key *)
     co ← gets k_cons;
     when (negb (cons_e co =? cons_w co))
       (cons_set (λ x, x <| cons_e := u32 (cons_e x - 1) |>) ;;
        consputc BACKSPACE)
   else cons_char c) ;;
  release L_cons.

Definition consoleinit : M kernel unit :=
  initlock L_cons "cons" ;;
  uartinit ;;
  (* connect read and write system calls to consoleread and consolewrite. *)
  modify (λ k, k <| k_devsw ::= <[ Z.to_nat CONSOLE := Some Dev_console ]> |>).

(** Read and process incoming characters: the body of uartintr()'s [while(1)]. *)
Definition uartintr_body (_ : unit) : M kernel (unit + unit) :=
  c ← uartgetc;
  if c =? -1 then mret (inr tt) else
  consoleintr c ;;
  mret (inl tt).

(** Every character that waits has its own line status. *)
Definition uartintr : M kernel unit :=
  n ← gets (λ k, length (uart_lsr (k_uart k)));
  while_fuel (S n) uartintr_body tt ;;
  (* send buffered characters. *)
  acquire L_uart_tx ;;
  uartstart ;;
  release L_uart_tx.
End console.
