(* ===== verification/Pipe.v ===== *)
(** * Pipes: pipe.c

    A pipe is a ring of PIPESIZE bytes with two counters of type [uint] that
    run freely and wrap around.  The contents of a pipe, [pipe_queue], is the
    list of bytes between the counters; reading and writing are shown to act
    on it as a FIFO queue, with writers and readers that sleep and wake each
    other in between.  pipealloc() is in File.v with the file table. *)

From S2P Require Import Prelude KMonad Memory Riscv State Spinlock Kalloc Vm VmUser VmCopy.
From S2P Require Import Sched.

Definition PIPESIZE : Z := 512.

Section pipe.
Context `{KI : KernelImage}.

(** Access to the [struct pipe] on page [pi]. *)
Definition pipe_get (pi : Z) : M kernel pipe := deref "pipe" (λ k, k_pipes k !! pi).
Definition pipe_set (pi : Z) (f : pipe → pipe) : M kernel unit :=
  modify (λ k, k <| k_pipes ::= alter f pi |>).

(** Once its page is freed the struct is gone. *)
Definition pipe_free (pi : Z) : M kernel unit :=
  modify (λ k, k <| k_pipes ::= delete pi |>) ;;
  kfree pi.

Definition pipeclose (pi : Z) (writable : Z) : M kernel unit :=
  acquire (L_pipe pi) ;;
  (if truthy writable then
     pipe_set pi (λ x, x <| pi_writeopen := 0 |>) ;;
     wakeup (Ch_pipe_nread pi)
   else
     pipe_set pi (λ x, x <| pi_readopen := 0 |>) ;;
     wakeup (Ch_pipe_nwrite pi)) ;;
  x ← pipe_get pi;
  if (pi_readopen x =? 0) && (pi_writeopen x =? 0) then
    release (L_pipe pi) ;;
    pipe_free pi
  else
    release (L_pipe pi).

(** How a loop ends: [return r] from inside it, or falling out of it. *)
Inductive loop_end := Return (r : Z) | Done (i : Z).

(** [data[nwrite++ % PIPESIZE] = ch] *)
Definition pipe_push (ch : Z) (x : pipe) : pipe :=
  x <| pi_data ::= <[ Z.to_nat (pi_nwrite x mod PIPESIZE) := ch ]> |>
    <| pi_nwrite := u32 (pi_nwrite x + 1) |>.

(** [ch = data[nread++ % PIPESIZE]] *)
Definition pipe_pop (x : pipe) : pipe := x <| pi_nread := u32 (pi_nread x + 1) |>.
Definition pipe_head (x : pipe) : Z := pi_data x !!! Z.to_nat (pi_nread x mod PIPESIZE).

Definition pipe_full (x : pipe) : bool := pi_nwrite x =? u32 (pi_nread x + PIPESIZE).
Definition pipe_empty (x : pipe) : bool := pi_nread x =? pi_nwrite x.

(** The body of pipewrite()'s [while(i < n)]. *)
Definition pipewrite_body (pi addr n : Z) (pr : nat) (i : Z) : M kernel (Z + loop_end) :=
  if i <? n then
    x ← pipe_get pi;
    stop ← (if pi_readopen x =? 0 then mret true else r ← killed pr; mret (truthy r));
    if (stop : bool) then
      release (L_pipe pi) ;;
      mret (inr (Return (-1)))
    else if pipe_full x then
      wakeup (Ch_pipe_nread pi) ;;
      sleep (Ch_pipe_nwrite pi) (L_pipe pi) ;;
      mret (inl i)
    else
      p ← proc_get pr;
      r ← copyin (p_pagetable p) (u64 (addr + i)) 1;
      if (r.1 : Z) =? -1 then mret (inr (Done i)) else
      pipe_set pi (pipe_push (r.2 !!! 0%nat)) ;;
      mret (inl (i + 1))
  else mret (inr (Done i)).

(** Every turn of the loop copies a byte or sleeps. *)
Definition pipewrite (pi addr n : Z) : M kernel Z :=
  pr ← curproc;
  acquire (L_pipe pi) ;;
  w ← waits_left;
  e ← while_fuel (S (Z.to_nat n + w)) (pipewrite_body pi addr n pr) 0;
  match e with
  | Return r => mret r
  | Done i =>
      wakeup (Ch_pipe_nread pi) ;;
      release (L_pipe pi) ;;
      mret i
  end.

(** [while(pi->nread == pi->nwrite && pi->writeopen)] *)
Definition piperead_wait_body (pi : Z) (pr : nat) (_ : unit) : M kernel (unit + loop_end) :=
  x ← pipe_get pi;
  if pipe_empty x && truthy (pi_writeopen x) then
    r ← killed pr;
    if truthy r then
      release (L_pipe pi) ;;
      mret (inr (Return (-1)))
    else
      sleep (Ch_pipe_nread pi) (L_pipe pi) ;;
      mret (inl tt)
  else mret (inr (Done 0)).

(** [for(i = 0; i < n; i++)] *)
Definition piperead_body (pi addr n : Z) (pr : nat) (i : Z) : M kernel (Z + Z) :=
  if i <? n then
    x ← pipe_get pi;
    if pipe_empty x then mret (inr i) else
    let ch := pipe_head x in
    pipe_set pi pipe_pop ;;
    p ← proc_get pr;
    r ← copyout (p_pagetable p) (u64 (addr + i)) [ch];
    if r =? -1 then mret (inr i) else mret (inl (i + 1))
  else mret (inr i).

Definition piperead (pi addr n : Z) : M kernel Z :=
  pr ← curproc;
  acquire (L_pipe pi) ;;
  w ← waits_left;
  e ← while_fuel (S w) (piperead_wait_body pi pr) tt;
  match e with
  | Return r => mret r
  | Done _ =>
      i ← while_fuel (S (Z.to_nat n)) (piperead_body pi addr n pr) 0;
      wakeup (Ch_pipe_nwrite pi) ;;
      release (L_pipe pi) ;;
      mret i
  end.

(** ** The queue *)

Definition pipe_len (x : pipe) : nat := Z.to_nat (u32 (pi_nwrite x - pi_nread x)).

Definition pipe_queue (x : pipe) : list Z :=
  (λ j, pi_data x !!! Z.to_nat ((pi_nread x + Z.of_nat j) mod PIPESIZE)) <$> seq 0 (pipe_len x).

Record pipe_ok (x : pipe) : Prop := {
  po_data : length (pi_data x) = 512%nat;
  po_nread : 0 ≤ pi_nread x < 2 ^ 32;
  po_nwrite : 0 ≤ pi_nwrite x < 2 ^ 32;
  po_len : (pipe_len x ≤ 512)%nat;
}.

Lemma pipe_queue_length x : length (pipe_queue x) = pipe_len x.
Proof. unfold pipe_queue. by rewrite length_fmap, length_seq. Qed.

Lemma pipe_queue_lookup x j :
  (j < pipe_len x)%nat →
  pipe_queue x !! j = Some (pi_data x !!! Z.to_nat ((pi_nread x + Z.of_nat j) mod PIPESIZE)).
Proof. intros Hj. unfold pipe_queue. by rewrite list_lookup_fmap, lookup_seq_lt. Qed.

(** The tests of the code decide emptiness and fullness of the queue, also
    when the counters have wrapped. *)
Lemma pipe_empty_queue x : pipe_ok x → pipe_empty x = true ↔ pipe_queue x = [].
Proof.
  intros [Hd Hr Hw Hl]. unfold pipe_empty. rewrite Z.eqb_eq, <- length_zero_iff_nil, pipe_queue_length.
  unfold pipe_len, u32 in *. Z.div_mod_to_equations. lia.
Qed.

Lemma pipe_full_queue x : pipe_ok x → pipe_full x = true ↔ length (pipe_queue x) = 512%nat.
Proof.
  intros [Hd Hr Hw Hl]. unfold pipe_full, PIPESIZE. rewrite Z.eqb_eq, pipe_queue_length.
  unfold pipe_len, u32 in *. Z.div_mod_to_equations. lia.
Qed.

(** Indices of the ring: the wrap of the counters at 2^32 is invisible
    modulo PIPESIZE. *)
Lemma u32_mod_PIPESIZE z : u32 z mod PIPESIZE = z mod PIPESIZE.
Proof. unfold u32, PIPESIZE. Z.div_mod_to_equations. lia. Qed.

Lemma pipe_push_ok x ch :
  pipe_ok x → pipe_full x = false →
  pipe_ok (pipe_push ch x) ∧ pipe_queue (pipe_push ch x) = pipe_queue x ++ [ch].
Proof.
  intros Hok Hfull. pose proof Hok as [Hd Hr Hw Hl].
  assert (Hlt : (pipe_len x < 512)%nat).
  { apply Nat.le_neq. split; [done|]. intros E. rewrite <- pipe_queue_length in E.
    apply (pipe_full_queue x Hok) in E. congruence. }
  assert (Hlen : pipe_len (pipe_push ch x) = S (pipe_len x)).
  { unfold pipe_len, pipe_push, u32 in *; cbn. Z.div_mod_to_equations. lia. }
  split.
  - split; cbn; [by rewrite length_insert|done|apply u32_range|rewrite Hlen; lia].
  - apply list_eq_same_length with (S (pipe_len x)).
    + rewrite length_app, pipe_queue_length. cbn. lia.
    + by rewrite pipe_queue_length.
    + intros j a b Hj. rewrite pipe_queue_lookup by (by rewrite Hlen). intros [= <-].
      unfold pipe_push; cbn. destruct (decide (j = pipe_len x)) as [->|Hne].
      * rewrite lookup_app_r by (rewrite pipe_queue_length; lia).
        rewrite pipe_queue_length, Nat.sub_diag. intros [= <-].
        assert (E : (pi_nread x + Z.of_nat (pipe_len x)) mod PIPESIZE = pi_nwrite x mod PIPESIZE).
        { unfold pipe_len. rewrite Z2Nat.id by apply u32_range.
          rewrite Zplus_mod, u32_mod_PIPESIZE, <- Zplus_mod. f_equal. lia. }
        rewrite E. apply list_lookup_total_insert_eq. rewrite Hd. unfold PIPESIZE.
        pose proof (Z.mod_pos_bound (pi_nwrite x) 512). lia.
      * rewrite lookup_app_l by (rewrite pipe_queue_length; lia).
        rewrite pipe_queue_lookup by lia. intros [= <-].
        apply list_lookup_total_insert_ne. clear Hlen. intros E.
        unfold pipe_len, u32, PIPESIZE in *. Z.div_mod_to_equations. lia.
Qed.

Lemma pipe_pop_ok x :
  pipe_ok x → pipe_empty x = false →
  pipe_ok (pipe_pop x) ∧ pipe_queue x = pipe_head x :: pipe_queue (pipe_pop x).
Proof.
  intros Hok Hempty. pose proof Hok as [Hd Hr Hw Hl].
  assert (Hpos : (0 < pipe_len x)%nat).
  { destruct (decide (pipe_len x = 0%nat)) as [E|]; [|lia]. rewrite <- pipe_queue_length in E.
    apply nil_length_inv, (pipe_empty_queue x Hok) in E. congruence. }
  assert (Hlen : S (pipe_len (pipe_pop x)) = pipe_len x).
  { unfold pipe_len, pipe_pop, u32 in *; cbn. Z.div_mod_to_equations. lia. }
  split.
  - split; cbn; [done|apply u32_range|done|lia].
  - apply list_eq_same_length with (pipe_len x).
    + cbn. by rewrite pipe_queue_length.
    + by rewrite pipe_queue_length.
    + intros j a b Hj. rewrite pipe_queue_lookup by done. intros [= <-].
      destruct j as [|j]; cbn [lookup list_lookup].
      * intros [= <-]. unfold pipe_head. by rewrite Z.add_0_r.
      * rewrite pipe_queue_lookup by lia. intros [= <-]. unfold pipe_pop; cbn. do 2 f_equal.
        rewrite (Zplus_mod (u32 _)), u32_mod_PIPESIZE, <- Zplus_mod. f_equal. lia.
Qed.

(** ** Reading and writing under the pipe's lock *)

Lemma vm_ok_mach k k' pt T l :
  vm_ok k pt T l → k_mem k' = k_mem k → k_freelist k' = k_freelist k → kmem_ready k' → vm_ok k' pt T l.
Proof.
  intros [Hr Hb Hf Hwf Hn] Hm Hfl Hr'. split; try done.
  - by rewrite Hm.
  - unfold free_pages. by rewrite Hm, Hfl.
  - by rewrite Hm.
Qed.

(** One byte through copyin(). *)
Lemma copyin_byte pt T l va ks k :
  vm_ok k pt T l → user_sep (k_mem k) T l → 0 ≤ va →
  ∃ bs, copyin pt va 1 ks k =
    Ok (match user_byte (k_mem k) T va with Some b => (0, [b]) | None => (-1, bs) end) ks k.
Proof.
  intros Hok Hs Hva.
  destruct (copyin_loop_spec 2 pt va 1 [] ks k T l) as (r & bs & H1 & H2); [done..|lia|lia|].
  exists bs. unfold copyin. change (S (Z.to_nat 1)) with 2%nat. rewrite H1.
  change (Z.to_nat 1) with 1%nat in H2. rewrite user_bytes_S in H2.
  change (user_bytes (k_mem k) T (va + 1) 0) with (Some (@nil Z)) in H2.
  destruct (user_byte (k_mem k) T va) as [b|]; cbn in H2; destruct H2 as [[-> H2]|[-> H2]]; try done.
  by injection H2 as <-.
Qed.

(** A process holding the pipe's lock and nothing else, with its user memory. *)
Record pipe_ctx (pi : Z) (p : nat) (pt : Z) (T : tree) (x : pipe) (k : kernel) : Prop := {
  px_sleep : before_sleep (L_pipe pi) p k;
  px_locks : proc_locks_free None (k_mach k);
  px_procs : procs_ok k;
  px_pt : ∃ pr, k_procs k !! p = Some pr ∧ p_pagetable pr = pt;
  px_pipe : k_pipes k !! pi = Some x;
  px_ok : pipe_ok x;
  px_vm : ∃ l, vm_ok k pt T l ∧ user_sep (k_mem k) T l;
}.

Section ctx.
Context (pi : Z) (p : nat) (pt : Z) (T : tree).

Lemma ctx_settle x k : pipe_ctx pi p pt T x k → k <| k_mach ::= settle |> = k.
Proof.
  intros H. destruct (px_sleep _ _ _ _ _ _ H). destruct k; cbn in *. by rewrite settle_nested by lia.
Qed.

Lemma ctx_killed x k ks :
  pipe_ctx pi p pt T x k → ∃ r, killed p ks k = Ok r ks k.
Proof.
  intros H. destruct (px_sleep _ _ _ _ _ _ H) as [Hm _ _ _ Hpl _ [pr Hpr]].
  exists (p_killed pr). rewrite (killed_run p pr) by done. by rewrite (ctx_settle _ _ H).
Qed.

Lemma ctx_pipe_get x k ks : pipe_ctx pi p pt T x k → pipe_get pi ks k = Ok x ks k.
Proof. intros H. unfold pipe_get, deref. by rewrite (px_pipe _ _ _ _ _ _ H). Qed.

(** Changing the pipe's contents keeps the context. *)
Lemma ctx_pipe_set x k f :
  pipe_ctx pi p pt T x k → pipe_ok (f x) →
  pipe_ctx pi p pt T (f x) (k <| k_pipes ::= alter f pi |>).
Proof.
  intros [[B1 B2 B3 B4 B5 B6 B7] Hl Hp Hpt Hx _ [l [Hvm Hs]]] Hok. split; try done.
  - cbn. by rewrite lookup_alter_eq, Hx.
  - exists l. split; [|done]. apply (vm_ok_mach k); [done..|apply Hvm].
Qed.

(** wakeup() of the other side. *)
Lemma ctx_wakeup x k chan ks :
  pipe_ctx pi p pt T x k →
  ∃ ps, wakeup chan ks k = Ok tt ks (k <| k_procs := ps |>) ∧
    pipe_ctx pi p pt T x (k <| k_procs := ps |>).
Proof.
  intros H. pose proof H as [[B1 B2 B3 B4 B5 B6 [pr0 B7]] Hl Hp [pr [Hpr Hpt]] Hx Hok [l [Hvm Hs]]].
  exists (woken chan (Some p) (k_procs k)). split.
  - rewrite (wakeup_run chan (Some p)); [|done|done|intros q Hq _; by apply Hl|done].
    do 2 f_equal. pose proof (ctx_settle _ _ H) as E. destruct k; cbn in *. by injection E as ->.
  - assert (Hw : woken chan (Some p) (k_procs k) !! p = Some pr).
    { unfold woken. by rewrite list_lookup_imap, Hpr; cbn; rewrite decide_True. }
    split; cbn.
    + by split; cbn; try done; eexists.
    + done.
    + unfold procs_ok, woken in *. cbn. by rewrite length_imap.
    + by exists pr.
    + done.
    + done.
    + exists l. split; [|done]. apply (vm_ok_mach k); [done..|apply Hvm].
Qed.

(** The state another thread leaves when it lets the sleeper go on: it may
    have run on other harts, changed other processes and this pipe. *)
Record left_for (k1 : kernel) (x' : pipe) (k2 : kernel) : Prop := {
  lf_resumed : resumed (L_pipe pi) p k2;
  lf_proc : c_proc (this_cpu (k_mach k2)) = Some p;
  lf_locks : proc_locks_free (Some p) (k_mach k2);
  lf_procs : procs_ok k2;
  lf_pt : ∃ pr, k_procs k2 !! p = Some pr ∧ p_pagetable pr = pt;
  lf_pipe : k_pipes k2 !! pi = Some x';
  lf_ok : pipe_ok x';
  lf_vm : ∃ l, vm_ok k2 pt T l ∧ user_sep (k_mem k2) T l;
  lf_user : ∀ a, user_byte (k_mem k2) T a = user_byte (k_mem k1) T a;
}.

Lemma ctx_awake k1 x' k2 intena :
  left_for k1 x' k2 → pipe_ctx pi p pt T x' (awake_state (L_pipe pi) p intena k2).
Proof.
  intros [[Hm Hh Hn Hl] Hp Hlk Hps [pr [Hpr Hpt]] Hx Hok [l [Hvm Hs]] _].
  destruct (alter_cpu_ok (λ y, y <| c_intena := intena |>) (k_mach k2) Hm ltac:(done)) as [Hc Hm3].
  set (m3 := (k_mach k2) <| m_cpus ::= alter (λ y, y <| c_intena := intena |>) (hart_id (k_mach k2)) |>) in *.
  assert (Hm4 : machine_ok (drop_lock (L_proc p) m3)).
  { apply machine_ok_drop; [done|]. rewrite Hc. cbn. by rewrite Hn. }
  assert (Hfree : ∀ q, (q < NPROC)%nat → lock_free (L_proc q) (drop_lock (L_proc p) m3)).
  { intros q Hq. destruct (decide (q = p)) as [->|Hne]; [apply lock_free_drop|].
    apply lock_free_drop_other; [congruence|]. by apply Hlk; [|congruence]. }
  assert (Hkm : lock_free L_kmem (drop_lock (L_proc p) m3)).
  { apply lock_free_drop_other; [done|]. apply Hvm. }
  assert (Hpn : (p < NPROC)%nat) by (apply lookup_lt_Some in Hpr; unfold procs_ok in Hps; lia).
  assert (Hmach : k_mach (awake_state (L_pipe pi) p intena k2) =
    take_lock (L_pipe pi) (drop_lock (L_proc p) m3)) by reflexivity.
  assert (Hpr' : k_procs (awake_state (L_pipe pi) p intena k2) !! p = Some (pr <| p_chan := None |>))
    by (unfold awake_state; cbn; by rewrite list_lookup_alter_eq, Hpr).
  split; rewrite ?Hmach, ?Hpr'.
  - split; rewrite ?Hmach, ?Hpr'.
    + by apply machine_ok_take.
    + by rewrite c_proc_take, c_proc_drop, Hc by done.
    + apply lock_held_take.
    + rewrite noff_take, noff_drop, Hc by done. cbn. by rewrite Hn.
    + apply lock_free_take; [done|]. by apply Hfree.
    + done.
    + by eexists.
  - intros q Hq _. apply lock_free_take; [done|]. by apply Hfree.
  - unfold procs_ok in *; cbn. by rewrite length_alter.
  - by eexists.
  - done.
  - done.
  - exists l. split; [|done]. apply (vm_ok_mach k2); [done..|].
    split; rewrite Hmach; [by apply machine_ok_take|by apply lock_free_take].
Qed.

Lemma user_prefix_length m va n : (length (user_prefix m T va n) ≤ n)%nat.
Proof.
  revert va. induction n as [|n IH]; intros va; cbn [user_prefix]; [done|].
  destruct (user_byte m T va); cbn; [specialize (IH (va + 1)); lia|lia].
Qed.

Lemma user_prefix_byte m va n j :
  (j ≤ length (user_prefix m T va n))%nat → (j < n)%nat →
  user_byte m T (va + Z.of_nat j) = user_prefix m T va n !! j.
Proof.
  revert va j. induction n as [|n IH]; intros va j Hj Hn; [lia|]. cbn [user_prefix] in *.
  destruct (user_byte m T va) as [b|] eqn:E.
  - destruct j as [|j]; [by rewrite Z.add_0_r|]. cbn in *. rewrite <- IH by lia. f_equal. lia.
  - cbn in Hj. assert (j = 0%nat) as -> by lia. rewrite Z.add_0_r. done.
Qed.

Lemma user_prefix_low m va n : user_prefix m T va n ≠ [] → va + Z.of_nat (length (user_prefix m T va n)) ≤ MAXVA.
Proof.
  intros Hne. assert (Hl : (0 < length (user_prefix m T va n))%nat)
    by (destruct (user_prefix m T va n); [done|cbn; lia]).
  pose proof (user_prefix_length m va n).
  pose proof (user_prefix_byte m va n (length (user_prefix m T va n) - 1) ltac:(lia) ltac:(lia)) as H1.
  destruct (lookup_lt_is_Some_2 (user_prefix m T va n) (length (user_prefix m T va n) - 1)) as [b Hb]; [lia|].
  rewrite Hb in H1. unfold user_byte in H1. case_decide; [lia|done].
Qed.

(** ** pipewrite() with readers in between *)
Section write.
Context (addr n : Z) (k0 : kernel) (q0 : list Z).
Hypothesis Haddr : 0 ≤ addr < 2 ^ 64.

(** The bytes the caller wants to write, up to the first unmapped one. *)
Definition src : list Z := user_prefix (k_mem k0) T addr (Z.to_nat n).

(** Between going to sleep and waking up others only take bytes out. *)
Definition reader_env (f : kernel → kernel) : Prop :=
  ∀ x k, pipe_ctx pi p pt T x k → pipe_full x = true →
    ∃ x' c, left_for k x' (f (sleep_state (Ch_pipe_nwrite pi) (L_pipe pi) p k)) ∧
      pipe_queue x = c ++ pipe_queue x'.

(** [j] bytes of [src] are in; [c] has been taken out since the start. *)
Record writing (j : nat) (c : list Z) (x : pipe) (k : kernel) : Prop := {
  wr_ctx : pipe_ctx pi p pt T x k;
  wr_user : ∀ a, user_byte (k_mem k) T a = user_byte (k_mem k0) T a;
  wr_j : (j ≤ length src)%nat;
  wr_fifo : c ++ pipe_queue x = q0 ++ take j src;
}.

(** What a turn of the loop that neither returns nor sleeps does. *)
Lemma writing_byte j c x k ks :
  writing j c x k → Z.of_nat j < n → pi_readopen x ≠ 0 → pipe_full x = false →
  (∃ pr, k_procs k !! p = Some pr ∧ p_killed pr = 0) →
  ∃ r k', pipewrite_body pi addr n p (Z.of_nat j) ks k = Ok r ks k' ∧
    (r = inr (Done (Z.of_nat j)) ∧ j = length src ∧ k' = k ∨
     r = inl (Z.of_nat (S j)) ∧ ∃ b, k' = k <| k_pipes ::= alter (pipe_push b) pi |> ∧
       writing (S j) c (pipe_push b x) k').
Proof.
  intros [Hctx Hu Hj Hq] Hlt Hro Hfull [pr [Hpr Hkill]].
  pose proof Hctx as [[Bm _ _ _ Bpl _ _] _ _ [pr' [Hpr' Hpt]] _ Hok [l [Hvm Hs]]].
  assert (pr' = pr) as -> by congruence.
  unfold pipewrite_body. destruct (Z.ltb_spec (Z.of_nat j) n); [|lia].
  rewrite bind_run, (ctx_pipe_get x) by done. rewrite bind_run.
  destruct (Z.eqb_spec (pi_readopen x) 0); [done|].
  rewrite bind_run, (killed_run p pr), (ctx_settle x) by done.
  rewrite ret_run, Hkill. change (truthy 0) with false. cbn iota. rewrite Hfull.
  rewrite bind_run. cbn [proc_get deref]. rewrite Hpr, Hpt.
  assert (Hva : u64 (addr + Z.of_nat j) = addr + Z.of_nat j).
  { destruct j as [|j]; [rewrite Z.add_0_r; by apply u64_small|].
    pose proof (user_prefix_low (k_mem k0) addr (Z.to_nat n)) as Hlow. fold src in Hlow.
    assert (src ≠ []) by (intros E; rewrite E in Hj; cbn in Hj; lia).
    specialize (Hlow ltac:(done)). change MAXVA with (2 ^ 38) in Hlow. apply u64_small. lia. }
  rewrite Hva. destruct (copyin_byte pt T l (addr + Z.of_nat j) ks k) as [bs Hc]; [done|done|lia|].
  rewrite bind_run, Hc, Hu, (user_prefix_byte (k_mem k0) addr (Z.to_nat n) j) by (done || lia).
  fold src. destruct (src !! j) as [b|] eqn:Hb; cbn [fst snd Z.eqb Pos.eqb].
  - destruct (pipe_push_ok x b Hok Hfull) as [Hok' Hq'].
    rewrite bind_run. cbn [pipe_set modify lookup_total list_lookup_total]. rewrite ret_run.
    eexists _, _. split; [done|]. right. split; [do 2 f_equal; lia|].
    exists b. split; [done|]. split.
    + by apply ctx_pipe_set.
    + exact Hu.
    + apply lookup_lt_Some in Hb. lia.
    + by rewrite Hq', (assoc_L app), Hq, <- (assoc_L app), <- take_S_r.
  - rewrite ret_run. eexists _, _. split; [done|]. left.
    apply lookup_ge_None in Hb. split; [done|]. split; [lia|done].
Qed.

(** The early return. *)
Lemma writing_stop j c x k ks :
  writing j c x k → Z.of_nat j < n →
  (pi_readopen x = 0 ∨ ∃ pr, k_procs k !! p = Some pr ∧ p_killed pr ≠ 0) →
  ∃ k', pipewrite_body pi addr n p (Z.of_nat j) ks k = Ok (inr (Return (-1))) ks k' ∧
    k_pipes k' !! pi = Some x ∧ lock_free (L_pipe pi) (k_mach k').
Proof.
  intros [Hctx Hu Hj Hq] Hlt Hstop.
  pose proof Hctx as [[Bm _ Blk Bn Bpl _ [pr Hpr]] _ _ _ Hx _ _].
  assert (Hrel : ∃ k', (release (L_pipe pi) ;; mret (inr (Return (-1)) : Z + loop_end)) ks k =
    Ok (inr (Return (-1))) ks k' ∧ k_pipes k' !! pi = Some x ∧ lock_free (L_pipe pi) (k_mach k')).
  { eexists. rewrite bind_run, release_run by (done || lia). split; [done|]. split; [done|].
    apply lock_free_drop. }
  unfold pipewrite_body. destruct (Z.ltb_spec (Z.of_nat j) n); [|lia].
  rewrite bind_run, (ctx_pipe_get x) by done. rewrite bind_run.
  destruct (Z.eqb_spec (pi_readopen x) 0) as [E|E]; [exact Hrel|].
  destruct Hstop as [|[pr' [Hpr' Hk]]]; [done|].
  rewrite bind_run, (killed_run p pr'), (ctx_settle x) by done. rewrite ret_run.
  unfold truthy at 1. destruct (Z.eqb_spec (p_killed pr') 0); [done|exact Hrel].
Qed.

(** A full pipe: wake the readers and sleep. *)
Lemma writing_sleep j c x k ks :
  writing j c x k → Z.of_nat j < n → pi_readopen x ≠ 0 → pipe_full x = true →
  (∃ pr, k_procs k !! p = Some pr ∧ p_killed pr = 0) → Forall reader_env ks →
  match pipewrite_body pi addr n p (Z.of_nat j) ks k with
  | Ok r ks' k' => r = inl (Z.of_nat j) ∧ ks' = tail ks ∧ ks ≠ [] ∧ ∃ c' x', writing j c' x' k'
  | Blocked _ => ks = []
  | _ => False
  end.
Proof.
  intros [Hctx Hu Hj Hq] Hlt Hro Hfull [pr [Hpr Hkill]] Henv.
  pose proof Hctx as [[Bm _ _ _ Bpl _ _] _ _ _ _ _ _].
  unfold pipewrite_body. destruct (Z.ltb_spec (Z.of_nat j) n); [|lia].
  rewrite bind_run, (ctx_pipe_get x) by done. rewrite bind_run.
  destruct (Z.eqb_spec (pi_readopen x) 0); [done|].
  rewrite bind_run, (killed_run p pr), (ctx_settle x) by done.
  rewrite ret_run, Hkill. change (truthy 0) with false. cbn iota. rewrite Hfull.
  destruct (ctx_wakeup x k (Ch_pipe_nread pi) ks Hctx) as (ps & Hw & Hctx1).
  rewrite bind_run, Hw. set (k1 := k <| k_procs := ps |>) in *. rewrite bind_run.
  pose proof (px_sleep _ _ _ _ _ _ Hctx1) as Hbs.
  destruct ks as [|f ks].
  - rewrite (sleep_run _ _ p) by done. done.
  - apply Forall_cons in Henv as [Hf Henv].
    destruct (Hf x k1 Hctx1 Hfull) as (x' & c' & Hlf & Hq').
    rewrite (sleep_returns _ _ p); [|done|apply Hlf|done]. rewrite ret_run.
    split; [done|]. split; [done|]. split; [done|]. exists (c ++ c'), x'. split.
    + eapply ctx_awake; exact Hlf.
    + intros a. cbn. rewrite (lf_user _ _ _ Hlf). apply Hu.
    + done.
    + by rewrite <- (assoc_L app), <- Hq'.
Qed.

Lemma pipewrite_loop fuel j c x k ks :
  writing j c x k → Forall reader_env ks → (Z.to_nat n - j + length ks < fuel)%nat →
  match while_fuel fuel (pipewrite_body pi addr n p) (Z.of_nat j) ks k with
  | Ok (Done i) ks' k' =>
      i = Z.of_nat (length src) ∧ ∃ c' x', writing (length src) c' x' k'
  | Ok (Return r) ks' k' =>
      r = -1 ∧ lock_free (L_pipe pi) (k_mach k') ∧
      ∃ c' x' j', k_pipes k' !! pi = Some x' ∧ c' ++ pipe_queue x' = q0 ++ take j' src
  | Blocked _ => True
  | _ => False
  end.
Proof.
  revert j c x k ks. induction fuel as [|fuel IH]; intros j c x k ks Hw Henv Hfuel; [lia|].
  cbn [while_fuel]. rewrite bind_run. pose proof Hw as [Hctx Hu Hj Hq].
  destruct (px_sleep _ _ _ _ _ _ Hctx) as [_ _ _ _ _ _ [pr Hpr]].
  pose proof (user_prefix_length (k_mem k0) addr (Z.to_nat n)) as Hsl. fold src in Hsl.
  destruct (decide (Z.of_nat j < n)) as [Hlt|Hge].
  2: { unfold pipewrite_body. destruct (Z.ltb_spec (Z.of_nat j) n); [lia|]. rewrite ret_run.
       assert (j = length src) as -> by lia. split; [done|]. by exists c, x. }
  destruct (decide (pi_readopen x = 0 ∨ p_killed pr ≠ 0)) as [Hstop|Hgo].
  { destruct (writing_stop j c x k ks Hw Hlt) as (k' & -> & Hx' & Hfree).
    { destruct Hstop as [|]; [by left|right; by exists pr]. }
    rewrite ret_run. split; [done|]. split; [done|]. by exists c, x, j. }
  assert (Hro : pi_readopen x ≠ 0) by tauto.
  assert (Hk : ∃ pr, k_procs k !! p = Some pr ∧ p_killed pr = 0) by (exists pr; split; [done|lia]).
  destruct (pipe_full x) eqn:Hfull.
  - pose proof (writing_sleep j c x k ks Hw Hlt Hro Hfull Hk Henv) as Hs.
    destruct (pipewrite_body pi addr n p (Z.of_nat j) ks k) as [r ks' k'| | | |]; try done.
    destruct Hs as (-> & -> & Hne & c' & x' & Hw'). apply (IH j c' x'); [done| |].
    + destruct ks; [done|]. by apply Forall_cons in Henv as [_ ?].
    + destruct ks; [done|]. cbn in *. lia.
  - destruct (writing_byte j c x k ks Hw Hlt Hro Hfull Hk) as (r & k' & -> & [(-> & -> & ->)|(-> & b & _ & Hw')]).
    + rewrite ret_run. split; [done|]. by exists c, x.
    + apply (IH (S j) c (pipe_push b x)); [done|done|lia].
Qed.

(** With [src] mapped completely and room for it, the loop neither sleeps nor
    returns early. *)
Lemma pipewrite_room fuel j c x k ks :
  writing j c x k → (Z.to_nat n - j < fuel)%nat → length src = Z.to_nat n → pi_readopen x ≠ 0 →
  (∃ pr, k_procs k !! p = Some pr ∧ p_killed pr = 0) →
  (length (pipe_queue x) + (length src - j) ≤ 512)%nat →
  ∃ x' k', while_fuel fuel (pipewrite_body pi addr n p) (Z.of_nat j) ks k =
      Ok (Done (Z.of_nat (length src))) ks k' ∧ writing (length src) c x' k'.
Proof.
  revert j x k. induction fuel as [|fuel IH]; intros j x k Hw Hfuel Hsrc Hro Hk Hroom; [lia|].
  cbn [while_fuel]. rewrite bind_run. pose proof Hw as [Hctx Hu Hj Hq].
  destruct (decide (Z.of_nat j < n)) as [Hlt|Hge].
  2: { unfold pipewrite_body. destruct (Z.ltb_spec (Z.of_nat j) n); [lia|]. rewrite ret_run.
       assert (j = length src) as -> by lia. by exists x, k. }
  assert (Hok : pipe_ok x) by apply Hctx.
  assert (Hfull : pipe_full x = false).
  { apply not_true_iff_false. rewrite (pipe_full_queue x Hok). lia. }
  destruct (writing_byte j c x k ks Hw Hlt Hro Hfull Hk) as (r & k' & -> & [(_ & -> & _)|(-> & b & -> & Hw')]); [lia|].
  destruct (pipe_push_ok x b Hok Hfull) as [_ Hq'].
  apply (IH (S j) (pipe_push b x)); [done|lia|done|done|done|].
  rewrite Hq', length_app. cbn [length]. lia.
Qed.
End write.

(** ** piperead() *)
Section read.
Context (addr n : Z) (k1 : kernel) (x1 : pipe).
Hypothesis Haddr : 0 ≤ addr < 2 ^ 64.

(** [j] bytes of the queue [x1] had have been handed to the process. *)
Record reading (j : nat) (x : pipe) (k : kernel) : Prop := {
  rd_ctx : pipe_ctx pi p pt T x k;
  rd_n : Z.of_nat j ≤ Z.max 0 n;
  rd_fifo : ∃ d, length d = j ∧ pipe_queue x1 = d ++ pipe_queue x ∧
    user_written (k_mem k1) (k_mem k) T addr d;
  rd_leaf : ∀ va, leaf (k_mem k) T va = leaf (k_mem k1) T va;
  rd_low : (0 < j)%nat → addr + Z.of_nat j ≤ MAXVA;
  rd_byte : Forall (λ b, 0 ≤ b < 256) (pi_data x);
}.

(** One turn of the loop on a pipe that is not empty. *)
Lemma reading_byte j x k ks :
  reading j x k → Z.of_nat j < n → pipe_empty x = false →
  ∃ r k', piperead_body pi addr n p (Z.of_nat j) ks k = Ok r ks k' ∧
    (r = inl (Z.of_nat (S j)) ∧ reading (S j) (pipe_pop x) k' ∧
       user_writable (k_mem k1) T (addr + Z.of_nat j) = true ∨
     r = inr (Z.of_nat j) ∧ user_writable (k_mem k1) T (addr + Z.of_nat j) = false ∧
       pipe_ctx pi p pt T (pipe_pop x) k' ∧
       ∃ d b, length d = j ∧ pipe_queue x1 = d ++ b :: pipe_queue (pipe_pop x) ∧
         user_written (k_mem k1) (k_mem k') T addr d).
Proof.
  intros [Hctx Hn (d & Hd & Hq & Hu) Hlf Hlow Hb] Hlt Hne.
  pose proof Hctx as [_ _ _ [pr [Hpr Hpt]] _ Hok [l [Hvm Hs]]].
  destruct (pipe_pop_ok x Hok Hne) as [Hok' Hq'].
  assert (Hctx' := ctx_pipe_set x k pipe_pop Hctx Hok').
  unfold piperead_body. destruct (Z.ltb_spec (Z.of_nat j) n); [|lia].
  rewrite bind_run, (ctx_pipe_get x), Hne by done. cbn zeta.
  rewrite bind_run. cbn [pipe_set modify]. set (k' := k <| k_pipes ::= _ |>) in *.
  rewrite bind_run. cbn [proc_get deref]. change (k_procs k') with (k_procs k). rewrite Hpr, Hpt.
  assert (Hva : u64 (addr + Z.of_nat j) = addr + Z.of_nat j).
  { destruct j as [|j]; [rewrite Z.add_0_r; by apply u64_small|].
    specialize (Hlow ltac:(lia)). change MAXVA with (2 ^ 38) in Hlow. apply u64_small. lia. }
  rewrite Hva.
  assert (Hvm' : vm_ok k' pt T l) by (apply (vm_ok_mach k); [done..|apply Hvm]).
  assert (Hws : user_writable (k_mem k') T (addr + Z.of_nat j) = user_writable (k_mem k1) T (addr + Z.of_nat j))
    by (unfold user_writable; cbn; by rewrite Hlf).
  destruct (copyout_loop_spec 2 pt (addr + Z.of_nat j) [pipe_head x] ks k' T l)
    as (r & m' & Hc & [Cok Csep Clf Cfr Cres]); [done|done|lia| |cbn; lia|].
  { constructor; [|done]. unfold pipe_head. rewrite Forall_lookup in Hb.
    apply (Hb (Z.to_nat (pi_nread x mod PIPESIZE))). apply list_lookup_lookup_total_lt.
    rewrite (po_data _ Hok). unfold PIPESIZE. pose proof (Z.mod_pos_bound (pi_nread x) 512). lia. }
  rewrite bind_run. unfold copyout. cbn [length]. rewrite Hc.
  assert (Hctx2 : pipe_ctx pi p pt T (pipe_pop x) (k' <| k_mem := m' |>)).
  { destruct Hctx' as [[B1 B2 B3 B4 B5 B6 B7] L P Q X O _]. split; try done. by exists l. }
  destruct Cres as [(-> & Hw & Hwr)|[-> Hw]].
  - cbn [Z.eqb]. eexists _, _. split; [done|]. left. split; [do 2 f_equal; lia|].
    assert (Hwt : user_writable (k_mem k1) T (addr + Z.of_nat j) = true).
    { rewrite <- Hws. apply Hw. cbn. lia. }
    split; [|done]. split; try done.
    + lia.
    + exists (d ++ [pipe_head x]). split; [rewrite length_app; cbn; lia|].
      split; [by rewrite Hq, Hq', <- (assoc_L app)|].
      eapply user_written_app; [exact Hu|]. rewrite Hd. exact Hwr.
    + intros va. cbn. rewrite Clf. apply Hlf.
    + intros _. unfold user_writable in Hwt. apply andb_true_iff in Hwt as [Hlt'%bool_decide_eq_true _]. lia.
  - cbn [Z.eqb Pos.eqb]. eexists _, _. split; [done|]. right. split; [done|].
    assert (Hwf : user_writable (k_mem k1) T (addr + Z.of_nat j) = false).
    { rewrite <- Hws. apply not_true_iff_false. intros Ht. apply Hw. intros a Ha. cbn in Ha.
      by replace a with (addr + Z.of_nat j) by lia. }
    split; [done|]. split; [done|]. exists d, (pipe_head x). split; [done|]. split; [by rewrite Hq, Hq'|].
    assert (Hm : ∀ y, m' y = k_mem k' y).
    { intros y. apply Cfr. intros a Ha Hwa. cbn in Ha. exfalso. rewrite <- Hws in Hwf.
      replace a with (addr + Z.of_nat j) in Hwa by lia. congruence. }
    intros a Ha. rewrite <- (Hu a Ha). unfold user_byte. cbn. by rewrite Clf, Hm.
Qed.

(** The loop: [j] bytes in the end, and at most one more taken from the pipe. *)
Lemma piperead_loop fuel j x k ks :
  reading j x k → (Z.to_nat n - j < fuel)%nat →
  ∃ r x' k', while_fuel fuel (piperead_body pi addr n p) (Z.of_nat j) ks k = Ok (Z.of_nat r) ks k' ∧
    pipe_ctx pi p pt T x' k' ∧
    ∃ d, length d = r ∧ user_written (k_mem k1) (k_mem k') T addr d ∧
      (pipe_queue x1 = d ++ pipe_queue x' ∧ (pipe_queue x' = [] ∨ n ≤ Z.of_nat r) ∨
       user_writable (k_mem k1) T (addr + Z.of_nat r) = false ∧
       ∃ b, pipe_queue x1 = d ++ b :: pipe_queue x').
Proof.
  revert j x k. induction fuel as [|fuel IH]; intros j x k Hr Hfuel; [lia|].
  cbn [while_fuel]. rewrite bind_run. pose proof Hr as [Hctx Hn (d & Hd & Hq & Hu) _ _ _].
  destruct (decide (Z.of_nat j < n)) as [Hlt|Hge].
  2: { unfold piperead_body. destruct (Z.ltb_spec (Z.of_nat j) n); [lia|]. rewrite ret_run.
       exists j, x, k. split; [done|]. split; [done|]. exists d. split; [done|]. split; [done|].
       left. split; [done|]. right. lia. }
  destruct (pipe_empty x) eqn:He.
  - unfold piperead_body. destruct (Z.ltb_spec (Z.of_nat j) n); [|lia].
    rewrite bind_run, (ctx_pipe_get x), He by done. rewrite !ret_run.
    exists j, x, k. split; [done|]. split; [done|]. exists d. split; [done|]. split; [done|].
    left. split; [done|]. left. apply pipe_empty_queue; [apply Hctx|done].
  - destruct (reading_byte j x k ks Hr Hlt He) as (r & k' & -> & [(-> & Hr' & _)|(-> & Hw & Hc & d' & b & Hd' & Hq' & Hu')]).
    + apply (IH (S j) (pipe_pop x)); [done|lia].
    + rewrite ret_run. exists j, (pipe_pop x), k'. split; [done|]. split; [done|].
      exists d'. split; [done|]. split; [done|]. right. split; [done|]. by exists b.
Qed.
End read.

(** ** Entering and leaving *)

(** A running process that holds no lock, about to use the pipe. *)
Record pipe_idle (x : pipe) (k : kernel) : Prop := {
  pd_ok : machine_ok (k_mach k);
  pd_proc : c_proc (this_cpu (k_mach k)) = Some p;
  pd_noff : c_noff (this_cpu (k_mach k)) = 0;
  pd_lk : lock_free (L_pipe pi) (k_mach k);
  pd_locks : proc_locks_free None (k_mach k);
  pd_procs : procs_ok k;
  pd_pt : ∃ pr, k_procs k !! p = Some pr ∧ p_pagetable pr = pt;
  pd_pipe : k_pipes k !! pi = Some x;
  pd_pok : pipe_ok x;
  pd_vm : ∃ l, vm_ok k pt T l ∧ user_sep (k_mem k) T l;
}.

Lemma pipe_enter x k ks :
  pipe_idle x k →
  ∃ k0 k1, curproc ks k = Ok p ks k0 ∧ acquire (L_pipe pi) ks k0 = Ok tt ks k1 ∧
    pipe_ctx pi p pt T x k1 ∧ k1 = k <| k_mach := take_lock (L_pipe pi) (k_mach k) |>.
Proof.
  intros [Hm Hp Hn Hl Hpl Hps [pr [Hpr Hpt]] Hx Hok [l [Hvm Hs]]].
  eexists _, _. split; [by apply curproc_run|]. split; [|split; [|reflexivity]].
  - rewrite acquire_run; [|by apply machine_ok_settle|by apply lock_free_settle].
    cbn. by rewrite take_settle.
  - assert (Hpn : (p < NPROC)%nat) by (apply lookup_lt_Some in Hpr; unfold procs_ok in Hps; lia).
    split; cbn; try done.
    + split; cbn; try done.
      * by apply machine_ok_take.
      * by rewrite c_proc_take.
      * apply lock_held_take.
      * rewrite noff_take by done. by rewrite Hn.
      * apply lock_free_take; [done|]. by apply Hpl.
    + intros q Hq _. apply lock_free_take; [done|]. by apply Hpl.
    + by exists pr.
    + exists l. split; [|done]. apply (vm_ok_mach k); [done..|].
      split; cbn; [by apply machine_ok_take|]. apply lock_free_take; [done|]. apply Hvm.
Qed.

(** [wakeup(chan); release(&pi->lock); return i;] *)
Lemma pipe_leave x k chan (i : Z) ks :
  pipe_ctx pi p pt T x k →
  ∃ k', (wakeup chan ;; release (L_pipe pi) ;; mret i) ks k = Ok i ks k' ∧
    k_pipes k' !! pi = Some x ∧ lock_free (L_pipe pi) (k_mach k') ∧ k_mem k' = k_mem k.
Proof.
  intros Hctx. destruct (ctx_wakeup x k chan ks Hctx) as (ps & Hw & Hctx1).
  rewrite bind_run, Hw. destruct (px_sleep _ _ _ _ _ _ Hctx1) as [B1 _ B3 B4 _ _ _].
  rewrite bind_run, release_run by (done || lia). eexists. split; [done|].
  split; [apply Hctx1|]. split; [apply lock_free_drop|done].
Qed.
End ctx.

(** ** Properties *)


(** with room in the pipe pipewrite() does not wait: if the read end is
    open, the process is not being killed, its buffer is mapped and fits, it
    returns n at once with the buffer appended to the pipe's contents. *)
Theorem pipewrite_appends pi p pt T addr n x ks k bs :
  pipe_idle pi p pt T x k → 0 ≤ addr < 2 ^ 64 → 0 ≤ n →
  user_bytes (k_mem k) T addr (Z.to_nat n) = Some bs → pi_readopen x ≠ 0 →
  (∃ pr, k_procs k !! p = Some pr ∧ p_killed pr = 0) →
  (length (pipe_queue x) + length bs ≤ 512)%nat →
  ∃ x' k', pipewrite pi addr n ks k = Ok n ks k' ∧ k_pipes k' !! pi = Some x' ∧
    pipe_queue x' = pipe_queue x ++ bs.
Proof.
  intros Hidle Haddr Hn Hbs Hro Hk Hroom.
  destruct (pipe_enter pi p pt T x k ks Hidle) as (k0 & k1 & Hc & Ha & Hctx & Hk1).
  assert (Hsrc : src T addr n k = bs).
  { unfold src. rewrite <- (Nat.add_0_r (Z.to_nat n)), (user_prefix_app _ _ _ _ _ _ Hbs). apply app_nil_r. }
  assert (Hlen : length bs = Z.to_nat n).
  { apply mapM_Some_1, Forall2_length in Hbs. rewrite length_fmap, length_seq in Hbs. lia. }
  unfold pipewrite. rewrite bind_run, Hc, bind_run, Ha, bind_run. cbn [waits_left]. rewrite bind_run.
  assert (Hw : writing pi p pt T addr n k (pipe_queue x) 0 [] x k1).
  { split; [done| |lia|by rewrite app_nil_r]. intros a. by rewrite Hk1. }
  destruct (pipewrite_room pi p pt T addr n k (pipe_queue x) Haddr
    (S (Z.to_nat n + length ks)) 0 [] x k1 ks Hw) as (x' & k2 & H1 & [Hctx' _ _ Hq]);
    [lia|by rewrite Hsrc|done|by rewrite Hk1|rewrite Hsrc; lia|].
  change (Z.of_nat 0) with 0 in H1. rewrite H1.
  destruct (pipe_leave pi p pt T x' k2 (Ch_pipe_nread pi) n ks Hctx') as (k3 & Hl & Hx & _).
  rewrite Hsrc, Hlen, Z2Nat.id by done. exists x', k3. split; [exact Hl|]. split; [done|].
  rewrite Hsrc in Hq. cbn in Hq. by rewrite Hq, firstn_all.
Qed.

End pipe.

(** ** Samples *)
Section witnesses.
#[local] Existing Instance sample_image.

(** A reader that takes everything and lets the sleeper run again. *)
Definition drain (pi : Z) (p : nat) (k : kernel) : kernel :=
  k <| k_pipes ::= alter (λ x, x <| pi_nread := pi_nwrite x |>) pi |>
    <| k_procs ::= alter (λ x, x <| p_state := RUNNING |>) p |>.

Lemma drain_env pi p pt T : reader_env pi p pt T (drain pi p).
Proof.
  intros x k Hctx _. pose proof Hctx as [B Hl Hp [pr [Hpr Hpt]] Hx Hok [l [Hvm Hs]]].
  destruct (sleep_machine_facts _ _ _ B) as (M1 & M2 & M3 & M4 & M5 & _).
  assert (Hlen : pipe_len (x <| pi_nread := pi_nwrite x |>) = 0%nat).
  { unfold pipe_len. cbn. by rewrite Z.sub_diag. }
  assert (Hother : ∀ lk, lk ≠ L_pipe pi → lk ≠ L_proc p → lock_free lk (k_mach k) →
    lock_free lk (sleep_machine (L_pipe pi) p (k_mach k))).
  { intros lk H1 H2 Hf. apply lock_free_drop_other; [done|]. by apply lock_free_take. }
  exists (x <| pi_nread := pi_nwrite x |>), (pipe_queue x). split.
  2: { assert (pipe_queue (x <| pi_nread := pi_nwrite x |>) = []) as ->
         by (apply length_zero_iff_nil; rewrite pipe_queue_length; exact Hlen). by rewrite app_nil_r. }
  split; cbn.
  - by split.
  - done.
  - intros q Hq Hne. apply Hother; [done|congruence|]. by apply Hl.
  - unfold procs_ok in *. cbn. by rewrite !length_alter.
  - rewrite !list_lookup_alter_eq, Hpr. by eexists.
  - by rewrite lookup_alter_eq, Hx.
  - destruct Hok. split; [done..|]. exact (eq_ind_r (λ z, z ≤ 512)%nat (Nat.le_0_l 512) Hlen).
  - exists l. split; [|done]. apply (vm_ok_mach k); [done..|].
    split; [exact M1|]. apply Hother; [done..|]. apply Hvm.
  - done.
Qed.

(** Process 1 with one user page, on hart 0, and a pipe. *)
Definition pipe_boot : kernel :=
  match (procinit ;; initlock L_kmem "kmem" ;; initlock (L_pipe 1) "pipe" ;;
         proc_set 1 (λ p, p <| p_pagetable := sample_root |>) ;;
         cpu_set 0 (λ x, x <| c_proc := Some 1%nat |>)) [] zero_kernel with
  | Ok _ _ k => k
  | _ => zero_kernel
  end.

(** The memory of [g], the processes and locks of [b], and the pipe [x]. *)
Definition with_pipe (g b : kernel) (x : pipe) : kernel :=
  g <| k_mach := k_mach b |> <| k_procs := k_procs b |> <| k_pipes := {[ 1 := x ]} |>.

Lemma with_pipe_idle p g b x pt T l :
  machine_ok (k_mach b) → c_proc (this_cpu (k_mach b)) = Some p → c_noff (this_cpu (k_mach b)) = 0 →
  lock_free (L_pipe 1) (k_mach b) → lock_free L_kmem (k_mach b) → proc_locks_free None (k_mach b) →
  procs_ok b → p_pagetable <$> k_procs b !! p = Some pt → pipe_ok x → vm_ok g pt T l →
  user_sep (k_mem g) T l → pipe_idle 1 p pt T x (with_pipe g b x).
Proof.
  intros Hm Hp Hn Hl Hkl Hpl Hps Hpt Hx Hok Hs. split; cbn; try done.
  - apply fmap_Some in Hpt as (pr & Hpr & ->). by exists pr.
  - exists l. split; [|done]. by apply (vm_ok_mach g).
Qed.

Lemma with_pipe_mem g b x : k_mem (with_pipe g b x) = k_mem g.
Proof. reflexivity. Qed.

Lemma with_pipe_procs g b x : k_procs (with_pipe g b x) = k_procs b.
Proof. reflexivity. Qed.

Definition sample_pipe (x : pipe) : kernel := with_pipe sample_grown pipe_boot x.

Lemma sample_pipe_idle x : pipe_ok x → ∃ T,
  pipe_idle 1 1 sample_root T x (sample_pipe x) ∧
  ∃ bs, user_bytes (k_mem sample_grown) T 10 3 = Some bs ∧ length bs = 3%nat.
Proof.
  intros Hx. destruct sample_sep as (T & p & l & Hok & Hs & Hleaf). exists T.
  assert (Hm : machine_ok (k_mach pipe_boot)).
  { constructor; vm_compute; try reflexivity; try discriminate. split; [discriminate|reflexivity]. }
  split.
  - apply (with_pipe_idle 1 sample_grown pipe_boot x sample_root T l Hm);
      [vm_compute; reflexivity..| | | | | |exact Hx|exact Hok|exact Hs].
    + apply lock_freeb_true. vm_compute. reflexivity.
    + apply lock_freeb_true. vm_compute. reflexivity.
    + apply proc_locks_freeb. vm_compute. reflexivity.
    + vm_compute. reflexivity.
    + vm_compute. reflexivity.
  - destruct (copyin_loop_spec 4 sample_root 10 3 [] [] sample_grown T l Hok Hs)
      as (r & bs & H1 & H2); [by_eval..|].
    assert (E : match copyin_loop 4 sample_root 10 3 [] [] sample_grown with
      Ok (r, _) _ _ => r | _ => 1 end = 0) by (vm_compute; reflexivity).
    rewrite H1 in E. subst r. destruct H2 as [[_ H2]|[H2 _]]; [|discriminate H2].
    exists bs. split; [exact H2|]. apply mapM_Some_1, Forall2_length in H2.
    rewrite length_fmap, length_seq in H2. symmetry. exact H2.
Qed.

(** An empty pipe whose counters are about to wrap. *)
Definition wrapping_pipe : pipe := Pipe (replicate 512 5) (2 ^ 32 - 2) (2 ^ 32 - 2) 1 1.

Lemma wrapping_pipe_ok : pipe_ok wrapping_pipe.
Proof. split; by_eval. Qed.


Lemma pipewrite_appends_witness :
  ∃ k', pipewrite 1 10 3 [] (sample_pipe wrapping_pipe) = Ok 3 [] k'.
Proof.
  destruct (sample_pipe_idle _ wrapping_pipe_ok) as (T & Hidle & bs & Hbs & Hlen).
  destruct (pipewrite_appends 1 1 sample_root T 10 3 wrapping_pipe [] (sample_pipe wrapping_pipe) bs Hidle)
    as (x' & k' & H & _).
  - by_eval.
  - by_eval.
  - unfold sample_pipe. rewrite with_pipe_mem. exact Hbs.
  - discriminate.
  - unfold sample_pipe. rewrite with_pipe_procs. eexists. split; [vm_compute; reflexivity|reflexivity].
  - rewrite Hlen. by_eval.
  - exists k'. exact H.
Defined.

End witnesses.
