(* ===== verification/ConsoleSpec.v ===== *)
(** * The console as a line editor, the serial line as a queue

    consoleintr() edits the line being typed and hands whole lines to
    consoleread(); the transmit buffer of the serial line is a queue. *)

From S2P Require Import Prelude KMonad Memory Riscv State Spinlock CString Kalloc Vm VmUser.
From S2P Require Import VmCopy Sched Uart Printf PrintfSpec Console Pipe.

(** ** Rings of bytes *)

(** [l] lies in the ring [buf] of [n] bytes from index [r] on. *)
Definition in_ring (n : Z) (buf : list Z) (r : Z) (l : list Z) : Prop :=
  ∀ j x, l !! j = Some x → buf !!! Z.to_nat ((r + Z.of_nat j) mod n) = x.

Lemma in_ring_nil n buf r : in_ring n buf r [].
Proof. by intros j x H. Qed.

Lemma in_ring_app n buf r l l' :
  in_ring n buf r (l ++ l') ↔ in_ring n buf r l ∧ in_ring n buf (r + Z.of_nat (length l)) l'.
Proof.
  split.
  - intros H. split; intros j x Hj; [apply H; by apply lookup_app_l_Some|].
    rewrite <- Z.add_assoc, <- Nat2Z.inj_add. apply H. rewrite lookup_app_r by lia. rewrite <- Hj. f_equal. lia.
  - intros [H1 H2] j x Hj. apply lookup_app_Some in Hj as [Hj|[Hlt Hj]]; [by apply H1|].
    specialize (H2 _ _ Hj). rewrite <- Z.add_assoc, <- Nat2Z.inj_add in H2.
    replace (length l + (j - length l))%nat with j in H2 by lia. done.
Qed.

(** The index matters modulo the size of the ring only. *)
Lemma in_ring_mod n buf r r' l : 0 < n → r mod n = r' mod n → in_ring n buf r l → in_ring n buf r' l.
Proof. intros Hn Hr H j x Hj. rewrite <- Zplus_mod_idemp_l, <- Hr, Zplus_mod_idemp_l by lia. by apply H. Qed.

(** A byte stored after the last one. *)
Lemma in_ring_push n buf r l i c :
  0 < n → length buf = Z.to_nat n → Z.of_nat (length l) < n → i = (r + Z.of_nat (length l)) mod n →
  in_ring n buf r l → in_ring n (<[ Z.to_nat i := c ]> buf) r (l ++ [c]).
Proof.
  intros Hn Hb Hl -> H. apply in_ring_app. split.
  - intros j x Hj. assert (j < length l)%nat by (by eapply lookup_lt_Some).
    rewrite list_lookup_total_insert_ne; [by apply H|]. intros E.
    apply Z2Nat.inj in E; [|apply Z.mod_pos_bound; lia..].
    assert (D : ((r + Z.of_nat (length l)) - (r + Z.of_nat j)) mod n = 0) by (rewrite Zminus_mod, E, Z.sub_diag; apply Z.mod_0_l; lia).
    replace (r + Z.of_nat (length l) - (r + Z.of_nat j)) with (Z.of_nat (length l) - Z.of_nat j) in D by lia.
    rewrite Z.mod_small in D by lia. lia.
  - intros j x Hj. apply list_lookup_singleton_Some in Hj as [-> <-]. rewrite Z.add_0_r.
    apply list_lookup_total_insert_eq. rewrite Hb. apply Z2Nat.inj_lt; [apply Z.mod_pos_bound; lia|lia|apply Z.mod_pos_bound; lia].
Qed.

(** ** The line editor *)

(** The bytes handed over, and the line being typed. *)
Record line_state (c : cons_t) (q ed : list Z) : Prop := {
  ls_buf : length (cons_buf c) = 128%nat;
  ls_r : 0 ≤ cons_r c < 2 ^ 32;
  ls_w : cons_w c = u32 (cons_r c + Z.of_nat (length q));
  ls_e : cons_e c = u32 (cons_r c + Z.of_nat (length q) + Z.of_nat (length ed));
  ls_room : (length q + length ed ≤ 128)%nat;
  ls_data : in_ring 128 (cons_buf c) (cons_r c) (q ++ ed);
  ls_line : Forall (λ x, x ≠ 10) ed;
}.

(** What a typed character does. *)
Definition typed (c : Z) : Z := if c =? 13 then 10 else c.
Definition commits (c : Z) (q ed : list Z) : bool :=
  (typed c =? 10) || (typed c =? C 68) || (length q + length ed =? 127)%nat.

Definition edit (c : Z) (q ed : list Z) : list Z * list Z :=
  if c =? C 85 then (q, [])
  else if (c =? C 72) || (c =? 127) then (q, removelast ed)
  else if (c =? 0) || (128 <=? length q + length ed)%nat then (q, ed)
  else if commits c q ed then (q ++ ed ++ [typed c], [])
  else (q, ed ++ [typed c]).

(** What is echoed. *)
Definition echo (c : Z) (q ed : list Z) : list Z :=
  if c =? C 85 then concat (replicate (length ed) [8; 32; 8])
  else if (c =? C 72) || (c =? 127) then match ed with [] => [] | _ => [8; 32; 8] end
  else if (c =? 0) || (128 <=? length q + length ed)%nat then []
  else [typed c].

(** Does consoleread() have to look again? *)
Definition wakes (c : Z) (q ed : list Z) : bool :=
  negb ((c =? C 85) || (c =? C 72) || (c =? 127) || (c =? 0) || (128 <=? length q + length ed)%nat) && commits c q ed.

Lemma u32_mod_128 z : u32 z mod 128 = z mod 128.
Proof. unfold u32. Z.div_mod_to_equations. lia. Qed.

Lemma u32_len z n : (n ≤ 128)%nat → u32 (u32 (z + Z.of_nat n) - u32 z) = Z.of_nat n.
Proof. intros H. unfold u32. Z.div_mod_to_equations. lia. Qed.

Lemma line_empty c q ed : line_state c q ed → (cons_e c =? cons_w c) = bool_decide (ed = []).
Proof.
  intros [H1 H2 H3 H4 H5 H6 H7]. rewrite H3, H4. destruct ed as [|x ed].
  - cbn. rewrite Z.add_0_r. apply Z.eqb_refl.
  - rewrite bool_decide_false by done. apply Z.eqb_neq. cbn [length] in *. unfold u32. Z.div_mod_to_equations. lia.
Qed.

Lemma line_used c q ed : line_state c q ed → u32 (cons_e c - cons_r c) = Z.of_nat (length q + length ed).
Proof.
  intros [H1 H2 H3 H4 H5 H6 H7]. rewrite H4, <- Z.add_assoc, <- Nat2Z.inj_add.
  rewrite <- (u32_small (cons_r c)) at 2 by done. by apply u32_len.
Qed.

(** The last character typed is removed. *)
Lemma line_back c q ed x :
  line_state c q (ed ++ [x]) →
  cons_buf c !!! Z.to_nat (u32 (cons_e c - 1) mod 128) = x ∧
  line_state (c <| cons_e := u32 (cons_e c - 1) |>) q ed.
Proof.
  intros [H1 H2 H3 H4 H5 H6 H7]. rewrite length_app in H4, H5. cbn [length] in H4, H5.
  assert (E : u32 (cons_e c - 1) = u32 (cons_r c + Z.of_nat (length q) + Z.of_nat (length ed))).
  { rewrite H4. unfold u32. Z.div_mod_to_equations. lia. }
  rewrite app_assoc in H6. apply in_ring_app in H6 as [H6 H8]. apply Forall_app in H7 as [H7 _]. split.
  - rewrite E, u32_mod_128. specialize (H8 0%nat x eq_refl). rewrite length_app, Nat2Z.inj_add, Z.add_0_r, Z.add_assoc in H8. done.
  - split; cbn; [done|done|done|by rewrite E|lia|done|done].
Qed.

(** A character is added to the line. *)
Lemma line_add c q ed x :
  line_state c q ed → (length q + length ed < 128)%nat → x ≠ 10 →
  line_state (c <| cons_buf ::= <[ Z.to_nat (cons_e c mod 128) := x ]> |> <| cons_e := u32 (cons_e c + 1) |>) q (ed ++ [x]).
Proof.
  intros [H1 H2 H3 H4 H5 H6 H7] Hlt Hx. split; cbn; try done.
  - by rewrite length_insert.
  - rewrite H4, length_app. cbn. unfold u32. Z.div_mod_to_equations. lia.
  - rewrite length_app. cbn. lia.
  - rewrite app_assoc. apply in_ring_push; try done; rewrite length_app; [lia|].
    rewrite H4, u32_mod_128. f_equal. lia.
  - apply Forall_app. split; [done|]. by constructor.
Qed.

(** A character is added and the line handed over. *)
Lemma line_commit c q ed x :
  line_state c q ed → (length q + length ed < 128)%nat →
  line_state (c <| cons_buf ::= <[ Z.to_nat (cons_e c mod 128) := x ]> |> <| cons_e := u32 (cons_e c + 1) |>
                <| cons_w := u32 (cons_e c + 1) |>) (q ++ ed ++ [x]) [].
Proof.
  intros [H1 H2 H3 H4 H5 H6 H7] Hlt.
  assert (E : u32 (cons_e c + 1) = u32 (cons_r c + Z.of_nat (length (q ++ ed ++ [x])))).
  { rewrite H4, !length_app. cbn. unfold u32. Z.div_mod_to_equations. lia. }
  split; cbn; try done.
  - by rewrite length_insert.
  - by rewrite E, Z.add_0_r.
  - rewrite !length_app. cbn. lia.
  - rewrite app_nil_r, app_assoc. apply in_ring_push; try done; rewrite length_app; [lia|].
    rewrite H4, u32_mod_128. f_equal. lia.
Qed.

(** A handler that can print and may take the console's lock. *)
Record console_ready (me : option nat) (k : kernel) : Prop := {
  cr_print : can_print k;
  cr_me : c_proc (this_cpu (k_mach k)) = me;
  cr_lock : lock_free L_cons (k_mach k);
  cr_locks : proc_locks_free me (k_mach k);
  cr_procs : procs_ok k;
}.

(** The same inside a critical section. *)
Record console_inside (lk : lockid) (me : option nat) (m : machine) (k : kernel) : Prop := {
  ci_mach : k_mach k = take_lock lk m;
  ci_ok : machine_ok m;
  ci_settled : settle m = m;
  ci_free : lock_free lk m;
  ci_alive : k_panicked k = 0;
  ci_me : c_proc (this_cpu m) = me;
  ci_locks : proc_locks_free me m;
  ci_procs : procs_ok k;
}.

Section inside.
Context (lk : lockid) (Hlk : ∀ p, lk ≠ L_proc p) (me : option nat) (m : machine).

Lemma inside_print k : console_inside lk me m k → can_print k.
Proof.
  intros [H1 H2 H3 H4 H5 H6 H7 H8]. split; rewrite ?H1; [by apply machine_ok_take| |done].
  apply settle_nested. rewrite noff_take by done. pose proof (mo_noff _ H2). lia.
Qed.

Lemma inside_ext k k' : console_inside lk me m k → k_mach k' = k_mach k → k_panicked k' = k_panicked k → k_procs k' = k_procs k →
  console_inside lk me m k'.
Proof. intros [H1 H2 H3 H4 H5 H6 H7 H8] E1 E2 E3. split; try done; [by rewrite E1|by rewrite E2|unfold procs_ok; by rewrite E3]. Qed.

(** consputc() inside the critical section: only the serial line changes. *)
Lemma inside_consputc k c ks :
  console_inside lk me m k → ∃ u, consputc c ks k = Ok tt ks (k <| k_uart := u |>) ∧
    console_inside lk me m (k <| k_uart := u |>) ∧ uart_thr u = uart_thr (k_uart k) ++ cons_bytes c.
Proof.
  intros Hk. destruct (consputc_run c ks k (inside_print k Hk)) as (k' & H1 & lsr & ->).
  eexists. split; [exact H1|]. split; [by eapply inside_ext|done].
Qed.

Lemma inside_wakeup k ch ks :
  console_inside lk me m k → wakeup ch ks k = Ok tt ks (k <| k_procs ::= woken ch me |>).
Proof.
  intros Hk. pose proof (inside_print k Hk) as [P1 P2 P3]. destruct Hk as [H1 H2 H3 H4 H5 H6 H7 H8].
  rewrite (wakeup_run ch me); [|done| |intros p Hp Hne; rewrite H1; apply lock_free_take; [done|by apply H7]|done].
  - do 2 f_equal. cbn. rewrite P2. by destruct k.
  - rewrite H1, c_proc_take by done. done.
Qed.

(** ^U: every character of the line is erased on the screen. *)
Lemma kill_line_run k q ed ks fuel :
  console_inside lk me m k → line_state (k_cons k) q ed → (length ed < fuel)%nat →
  ∃ u, while_fuel fuel kill_line_body tt ks k =
      Ok tt ks (k <| k_uart := u |> <| k_cons ::= λ c, c <| cons_e := cons_w c |> |>) ∧
    uart_thr u = uart_thr (k_uart k) ++ concat (replicate (length ed) [8; 32; 8]).
Proof.
  revert k ed. induction fuel as [|fuel IH]; intros k ed Hk Hl Hf; [lia|]. cbn [while_fuel]. rewrite bind_run.
  unfold kill_line_body at 1. rewrite bind_run. cbn [gets]. rewrite (line_empty _ _ _ Hl).
  destruct ed as [|x ed _] using rev_ind.
  - cbn. exists (k_uart k). rewrite app_nil_r. split; [|done]. do 2 f_equal. pose proof (line_empty _ _ _ Hl) as E. cbn in E.
    apply Z.eqb_eq in E. destruct k as [], k_cons as []; cbn in *. by subst.
  - rewrite bool_decide_false by (by destruct ed). cbn [negb andb]. destruct (line_back _ _ _ _ Hl) as [Hx Hl'].
    change INPUT_BUF_SIZE with 128. rewrite Hx. pose proof (ls_line _ _ _ Hl) as Hne. apply Forall_app in Hne as [_ Hne].
    rewrite Forall_singleton in Hne. rewrite (proj2 (Z.eqb_neq _ _) Hne). cbn [negb].
    rewrite bind_run. cbn [cons_set modify]. set (k1 := k <| k_cons ::= _ |>).
    assert (Hk1 : console_inside lk me m k1) by (by eapply inside_ext).
    destruct (inside_consputc k1 BACKSPACE ks Hk1) as (u & E & Hk2 & Hu). rewrite bind_run, E, ret_run.
    rewrite length_app in Hf. cbn in Hf. destruct (IH (k1 <| k_uart := u |>) ed) as (u' & E' & Hu'); [done|exact Hl'|lia|].
    exists u'. rewrite E'. split; [by destruct k as [], k_cons as []|]. cbn [k_uart set_field] in Hu'. cbn in Hu'. rewrite Hu', Hu.
    rewrite length_app, replicate_add, concat_app. cbn. rewrite <- app_assoc. f_equal.
    clear. induction (length ed) as [|n IH]; [done|]. cbn. by rewrite <- IH.
Qed.

(** After a character was handled inside the critical section. *)
Record handled (c : Z) (q ed : list Z) (k k' : kernel) : Prop := {
  hd_inside : console_inside lk me m k';
  hd_line : line_state (k_cons k') (edit c q ed).1 (edit c q ed).2;
  hd_echo : uart_thr (k_uart k') = uart_thr (k_uart k) ++ echo c q ed;
  hd_procs : k_procs k' = if wakes c q ed then woken Ch_cons_r me (k_procs k) else k_procs k;
}.

Lemma kill_handled c q ed k ks :
  c = C 85 → console_inside lk me m k → line_state (k_cons k) q ed →
  ∃ k', (co ← gets k_cons;
     while_fuel (S (Z.to_nat (u32 (cons_e co - cons_w co)))) kill_line_body tt) ks k = Ok tt ks k' ∧ handled c q ed k k'.
Proof.
  intros -> Hk Hl. rewrite bind_run. cbn [gets]. pose proof Hl as [H1 H2 H3 H4 H5 H6 H7].
  assert (Hn : u32 (cons_e (k_cons k) - cons_w (k_cons k)) = Z.of_nat (length ed)).
  { rewrite H3, H4. apply u32_len. lia. }
  rewrite Hn, Nat2Z.id. destruct (kill_line_run k q ed ks (S (length ed)) Hk Hl) as (u & E & Hu); [lia|].
  eexists. split; [exact E|]. split; [by eapply inside_ext| |done|done]. cbn.
  apply in_ring_app in H6 as [H6 _]. change (edit (C 85) q ed) with (q, @nil Z).
  split; cbn; [done|done|done|by rewrite Z.add_0_r|lia|by rewrite app_nil_r|done].
Qed.

Lemma back_handled c q ed k ks :
  c = C 72 ∨ c = 127 → console_inside lk me m k → line_state (k_cons k) q ed →
  ∃ k', (co ← gets k_cons;
     when (negb (cons_e co =? cons_w co))
       (cons_set (λ x, x <| cons_e := u32 (cons_e x - 1) |>) ;;
        consputc BACKSPACE)) ks k = Ok tt ks k' ∧ handled c q ed k k'.
Proof.
  intros Hc Hk Hl. rewrite bind_run. cbn [gets]. rewrite (line_empty _ _ _ Hl), when_run.
  assert (He : edit c q ed = (q, removelast ed)) by (by destruct Hc as [-> | ->]).
  assert (Hw : wakes c q ed = false) by (by destruct Hc as [-> | ->]).
  assert (Ho : echo c q ed = match ed with [] => [] | _ => [8; 32; 8] end) by (by destruct Hc as [-> | ->]).
  destruct ed as [|x ed _] using rev_ind.
  - exists k. split; [done|]. split; [done|by rewrite He|by rewrite Ho, app_nil_r|by rewrite Hw].
  - rewrite bool_decide_false by (by destruct ed). cbn [negb]. destruct (line_back _ _ _ _ Hl) as [_ Hl'].
    rewrite bind_run. cbn [cons_set modify]. set (k1 := k <| k_cons ::= _ |>).
    assert (Hk1 : console_inside lk me m k1) by (by eapply inside_ext).
    destruct (inside_consputc k1 BACKSPACE ks Hk1) as (u & E & Hk2 & Hu). eexists. split; [exact E|].
    split; [done|rewrite He, removelast_last; exact Hl'| |by rewrite Hw].
    rewrite Ho. assert (Hm : match ed ++ [x] with [] => [] | _ => [8; 32; 8] end = [8; 32; 8]) by (by destruct ed).
    rewrite Hm. exact Hu.
Qed.

Lemma char_handled c q ed k ks :
  0 ≤ c < 256 → c ≠ C 85 → c ≠ C 72 → c ≠ 127 → console_inside lk me m k → line_state (k_cons k) q ed →
  ∃ k', cons_char c ks k = Ok tt ks k' ∧ handled c q ed k k'.
Proof.
  intros Hc H1 H2 H3 Hk Hl. unfold cons_char. rewrite bind_run. cbn [gets]. rewrite (line_used _ _ _ Hl), when_run.
  change INPUT_BUF_SIZE with 128. set (n := (length q + length ed)%nat).
  assert (Hcond : negb (c =? 0) && (Z.of_nat n <? 128) = negb ((c =? 0) || (128 <=? n)%nat)).
  { rewrite negb_orb. f_equal. destruct (Z.ltb_spec (Z.of_nat n) 128), (Nat.leb_spec 128 n); done || lia. }
  rewrite Hcond.
  assert (Hsel : (c =? C 85) = false ∧ (c =? C 72) = false ∧ (c =? 127) = false) by (split_and!; by apply Z.eqb_neq).
  destruct Hsel as (S1 & S2 & S3).
  destruct ((c =? 0) || (128 <=? n)%nat) eqn:Eskip; cbn [negb].
  - exists k. split; [done|].
    assert (Hw : wakes c q ed = false) by (unfold wakes; fold n; by rewrite <- !orb_assoc, Eskip, !orb_true_r).
    split; [done| | |by rewrite Hw]; unfold edit, echo; fold n; rewrite S1, S2, S3, Eskip; cbn; [done|by rewrite app_nil_r].
  - apply orb_false_iff in Eskip as [S4 S5]. apply Nat.leb_gt in S5. fold (typed c).
    rewrite bind_run. destruct (inside_consputc k (typed c) ks Hk) as (u & E & Hk1 & Hu). rewrite E.
    assert (Ht : u8 (typed c) = typed c) by (apply u8_small; unfold typed; destruct (c =? 13); lia).
    assert (Hbytes : cons_bytes (typed c) = [typed c]).
    { unfold cons_bytes. destruct (Z.eqb_spec (typed c) BACKSPACE) as [E'|]; [|by rewrite Ht].
      exfalso. unfold typed, BACKSPACE in E'. destruct (c =? 13); lia. }
    rewrite Hbytes in Hu. rewrite bind_run. cbn [cons_set modify]. rewrite bind_run. cbn [cons_set modify].
    rewrite bind_run. cbn [gets]. rewrite Ht.
    set (k2 := _ <| k_cons ::= λ x, x <| cons_e := _ |> |>).
    assert (Hk2 : console_inside lk me m k2) by (by eapply inside_ext).
    assert (Hused : u32 (cons_e (k_cons k2) - cons_r (k_cons k2)) = Z.of_nat (n + 1)).
    { change (cons_e (k_cons k2)) with (u32 (cons_e (k_cons k) + 1)). change (cons_r (k_cons k2)) with (cons_r (k_cons k)).
      pose proof (line_used _ _ _ Hl) as E2. fold n in E2. unfold u32 in *. Z.div_mod_to_equations. lia. }
    rewrite Hused, when_run. assert (Hcom : (typed c =? 10) || (typed c =? C 68) || (Z.of_nat (n + 1) =? 128) = commits c q ed).
    { unfold commits. fold n. f_equal. destruct (Z.eqb_spec (Z.of_nat (n + 1)) 128), (Nat.eqb_spec n 127); done || lia. }
    rewrite Hcom. assert (Hskip : (c =? 0) || (128 <=? n)%nat = false) by (rewrite S4; by apply Nat.leb_gt).
    destruct (commits c q ed) eqn:Ec.
    + rewrite bind_run. cbn [cons_set modify]. set (k3 := k2 <| k_cons ::= _ |>).
      assert (Hk3 : console_inside lk me m k3) by (by eapply inside_ext). rewrite (inside_wakeup k3 Ch_cons_r ks Hk3).
      eexists. split; [done|].
      split; unfold edit, echo, wakes; fold n; rewrite ?S1, ?S2, ?S3, ?S4, ?(proj2 (Nat.leb_gt _ _) S5), ?Ec; cbn; try done.
      * destruct Hk3 as [K1 K2 K3 K4 K5 K6 K7 K8]. split; try done. unfold procs_ok, woken in *. cbn. by rewrite length_imap.
      * exact (line_commit _ _ _ (typed c) Hl S5).
    + exists k2. split; [done|].
      split; unfold edit, echo, wakes; fold n; rewrite ?S1, ?S2, ?S3, ?S4, ?(proj2 (Nat.leb_gt _ _) S5), ?Ec; cbn; try done.
      apply (line_add _ _ _ (typed c) Hl S5). unfold commits in Ec. apply orb_false_iff in Ec as [Ec _].
      apply orb_false_iff in Ec as [Ec _]. by apply Z.eqb_neq.
Qed.
End inside.


(** A console whose read index is about to wrap, with "ok" being typed. *)
Definition sample_cons : cons_t := Cons (<[ 126%nat := 111 ]> (<[ 127%nat := 107 ]> (replicate 128 0))) (2 ^ 32 - 2) (2 ^ 32 - 2) 0.
Definition sample_console : kernel :=
  match (procinit ;; initlock L_cons "cons" ;; initlock L_uart_tx "uart" ;; cpu_set 0 (λ x, x <| c_proc := Some 1%nat |>)) [] zero_kernel with
  | Ok _ _ k => k <| k_cons := sample_cons |>
  | _ => zero_kernel
  end.

Lemma sample_console_ready : console_ready (Some 1%nat) sample_console.
Proof.
  split.
  - split; [constructor; vm_compute; try reflexivity; try discriminate; split; [discriminate|reflexivity]|vm_compute; reflexivity|reflexivity].
  - reflexivity.
  - by exists "cons".
  - by apply proc_locks_freeb.
  - reflexivity.
Qed.

Lemma sample_cons_line : line_state sample_cons [] [111; 107].
Proof.
  split; [reflexivity|by_eval|reflexivity|reflexivity|by_eval| |by_eval].
  intros [|[|j]] x Hj; [by injection Hj as <-|by injection Hj as <-|done].
Qed.


(** ** The transmit buffer of the serial line *)

Record tx_state (u : uart_t) (pend : list Z) : Prop := {
  tx_buf : length (uart_tx_buf u) = 32%nat;
  tx_r : 0 ≤ uart_tx_r u < 2 ^ 64;
  tx_w : uart_tx_w u = u64 (uart_tx_r u + Z.of_nat (length pend));
  tx_room : (length pend ≤ 32)%nat;
  tx_data : in_ring 32 (uart_tx_buf u) (uart_tx_r u) pend;
}.

Lemma u64_mod_32 z : u64 z mod 32 = z mod 32.
Proof. unfold u64. Z.div_mod_to_equations. lia. Qed.

Lemma tx_empty_pend u pend : tx_state u pend → tx_empty u = bool_decide (pend = []).
Proof.
  intros [H1 H2 H3 H4 H5]. unfold tx_empty. rewrite H3. destruct pend as [|x pend].
  - cbn. rewrite Z.add_0_r. unfold u64. rewrite Z.mod_small by done. apply Z.eqb_refl.
  - rewrite bool_decide_false by done. apply Z.eqb_neq. cbn [length] in *. unfold u64. Z.div_mod_to_equations. lia.
Qed.

Lemma tx_full_pend u pend : tx_state u pend → tx_full u = (length pend =? 32)%nat.
Proof.
  intros [H1 H2 H3 H4 H5]. unfold tx_full, UART_TX_BUF_SIZE. rewrite H3.
  destruct (Nat.eqb_spec (length pend) 32) as [->|Hne]; [apply Z.eqb_refl|].
  apply Z.eqb_neq. unfold u64. Z.div_mod_to_equations. lia.
Qed.

Lemma tx_pop u x pend :
  tx_state u (x :: pend) →
  uart_tx_buf u !!! Z.to_nat (uart_tx_r u mod 32) = x ∧ tx_state (u <| uart_tx_r := u64 (uart_tx_r u + 1) |>) pend.
Proof.
  intros [H1 H2 H3 H4 H5]. change (x :: pend) with ([x] ++ pend) in H5. apply in_ring_app in H5 as [H5 H6].
  split; [specialize (H5 0%nat x eq_refl); by rewrite Z.add_0_r in H5|].
  split; cbn; [done|unfold u64; apply Z.mod_pos_bound; lia| |cbn in H4; lia|].
  - rewrite H3. cbn [length]. unfold u64. Z.div_mod_to_equations. lia.
  - eapply in_ring_mod; [lia| |exact H6]. cbn. by rewrite u64_mod_32.
Qed.

Lemma tx_push u pend c :
  tx_state u pend → (length pend < 32)%nat →
  tx_state (u <| uart_tx_buf ::= <[ Z.to_nat (uart_tx_w u mod 32) := c ]> |> <| uart_tx_w := u64 (uart_tx_w u + 1) |>) (pend ++ [c]).
Proof.
  intros [H1 H2 H3 H4 H5] Hlt. split; cbn; [by rewrite length_insert|done| |rewrite length_app; cbn; lia|].
  - rewrite H3, length_app. cbn. unfold u64. Z.div_mod_to_equations. lia.
  - apply in_ring_push; [lia|done|lia|by rewrite H3, u64_mod_32|done].
Qed.

Section tx.
Context (me : option nat) (m : machine).
#[local] Abbreviation inside := (console_inside L_uart_tx me m).

(** From [k] to [k'] the bytes [l] left the buffer for the line. *)
Record transmitted (l : list Z) (pend : list Z) (k k' : kernel) : Prop := {
  tr_inside : inside k';
  tr_tx : tx_state (k_uart k') pend;
  tr_thr : uart_thr (k_uart k') = uart_thr (k_uart k) ++ l;
  tr_cons : k_cons k' = k_cons k;
}.

Lemma read_LSR_run ks k :
  read_LSR ks k = Ok (default LSR_TX_IDLE (head (uart_lsr (k_uart k)))) ks (lsr_next k).
Proof. reflexivity. Qed.

(** One byte is handed to the transmitter. *)
Lemma uartstart_send k x pend ks :
  inside k → tx_state (k_uart k) (x :: pend) →
  ∃ k', uartstart_body tt ks k = Ok (inl tt) ks k' ∧ transmitted [u8 x] pend k k' ∨
        uartstart_body tt ks k = Ok (inr tt) ks k' ∧ transmitted [] (x :: pend) k k'.
Proof.
  intros Hk Ht. destruct (tx_pop _ _ _ Ht) as [Hx Hp].
  set (k1 := lsr_next k). assert (Hk1 : inside k1) by (by eapply inside_ext).
  set (k2 := k1 <| k_uart ::= λ u, u <| uart_tx_r := u64 (uart_tx_r u + 1) |> |>).
  assert (Hk2 : inside k2) by (by eapply inside_ext).
  set (k3 := k2 <| k_procs ::= woken Ch_uart_tx_r me |> <| k_uart ::= λ u, u <| uart_thr ::= λ l, l ++ [u8 x] |> |>).
  assert (E : uartstart_body tt ks k = if Z.land (default LSR_TX_IDLE (head (uart_lsr (k_uart k)))) LSR_TX_IDLE =? 0
              then Ok (inr tt) ks k1 else Ok (inl tt) ks k3).
  { unfold uartstart_body. rewrite bind_run. cbn [gets]. rewrite (tx_empty_pend _ _ Ht), bool_decide_false by done.
    rewrite bind_run, read_LSR_run. destruct (Z.land _ LSR_TX_IDLE =? 0); [done|].
    change UART_TX_BUF_SIZE with 32. rewrite Hx, bind_run. unfold uart_set at 1. cbn [modify]. fold k1. fold k2.
    rewrite bind_run, (inside_wakeup L_uart_tx ltac:(done) me m k2 _ ks Hk2), bind_run. done. }
  rewrite E. destruct (Z.land _ LSR_TX_IDLE =? 0).
  - exists k1. right. split; [done|]. split; [done| |by rewrite app_nil_r|done]. destruct Ht. by split.
  - exists k3. left. split; [done|]. split; [| |done|done].
    + destruct Hk2 as [K1 K2 K3 K4 K5 K6 K7 K8]. split; try done. unfold procs_ok, woken in *. cbn. by rewrite length_imap.
    + destruct Hp. by split.
Qed.

(** uartstart() sends a part of the buffer, first in first out. *)
Lemma uartstart_run k pend ks :
  inside k → tx_state (k_uart k) pend → Forall (λ x, 0 ≤ x < 256) pend →
  ∃ l pend' k', pend = l ++ pend' ∧ uartstart ks k = Ok tt ks k' ∧ transmitted l pend' k k'.
Proof.
  intros Hk Ht Hb. unfold uartstart. rewrite bind_run. cbn [gets].
  assert (Hn : u64 (uart_tx_w (k_uart k) - uart_tx_r (k_uart k)) = Z.of_nat (length pend)).
  { destruct Ht as [H1 H2 H3 H4 H5]. rewrite H3. unfold u64. Z.div_mod_to_equations. lia. }
  rewrite Hn, Nat2Z.id. clear Hn. revert k Hk Ht. induction pend as [|x pend IH]; intros k Hk Ht.
  - exists [], [], k. split; [done|]. cbn [while_fuel length]. rewrite bind_run. unfold uartstart_body. rewrite bind_run. cbn [gets].
    rewrite (tx_empty_pend _ _ Ht). split; [done|]. by split; [| |rewrite app_nil_r|].
  - apply Forall_cons in Hb as [Hx Hb]. set (n := length pend) in *. change (length (x :: pend)) with (S n).
    change (while_fuel (S (S n)) uartstart_body tt) with
      (uartstart_body tt ≫= λ r, match r with inl a => while_fuel (S n) uartstart_body a | inr b => mret b end). rewrite bind_run.
    destruct (uartstart_send k x pend ks Hk Ht) as (k1 & [[-> [T1 T2 T3 T4]]|[-> T]]).
    + destruct (IH Hb k1 T1 T2) as (l & pend' & k' & -> & E & [R1 R2 R3 R4]). rewrite E.
      exists (x :: l), pend', k'. split; [done|]. split; [done|]. split; [done|done| |congruence].
      rewrite R3, T3, u8_small by done. by rewrite <- app_assoc.
    + exists [], (x :: pend), k1. by split.
Qed.
End tx.

(** C37: the transmit side of the serial line is a queue.  With room in the
    buffer uartputc(c) does not wait, and what has gone to the transmitter
    followed by what is still in the buffer is afterwards what it was before
    followed by [c]: bytes are sent once each and in order, however many of
    them the device accepts at once and also when the indices have wrapped. *)
Theorem uartputc_fifo me c pend ks k :
  can_print k → c_proc (this_cpu (k_mach k)) = me → lock_free L_uart_tx (k_mach k) → proc_locks_free me (k_mach k) →
  procs_ok k → tx_state (k_uart k) pend → (length pend < 32)%nat → Forall (λ x, 0 ≤ x < 256) pend →
  ∃ pend' k', uartputc c ks k = Ok tt ks k' ∧ tx_state (k_uart k') pend' ∧
    uart_thr (k_uart k') ++ pend' = uart_thr (k_uart k) ++ pend ++ [u8 c] ∧ k_mach k' = k_mach k.
Proof.
  intros [P1 P2 P3] Hme Hf Hl Hps Ht Hlt Hb. set (m := k_mach k). unfold uartputc. rewrite bind_run, acquire_run by done.
  rewrite bind_run. cbn [gets]. change (k_panicked (k <| k_mach ::= take_lock L_uart_tx |>)) with (k_panicked k). rewrite P3.
  cbn [truthy Z.eqb negb]. rewrite bind_run. cbn [waits_left]. rewrite bind_run. cbn [while_fuel]. rewrite bind_run.
  unfold uartputc_wait at 1. rewrite bind_run. cbn [gets].
  match goal with |- context [tx_full ?u] => change u with (k_uart k) end. rewrite (tx_full_pend _ _ Ht).
  rewrite (proj2 (Nat.eqb_neq _ _)) by lia. rewrite !ret_run, bind_run. unfold uart_set at 1. cbn [modify]. rewrite bind_run.
  unfold uart_set at 1. cbn [modify]. rewrite bind_run.
  set (k1 := _ <| k_uart ::= λ u, u <| uart_tx_w := _ |> |>).
  assert (Hk1 : console_inside L_uart_tx me m k1) by done.
  assert (Ht1 : tx_state (k_uart k1) (pend ++ [u8 c])) by exact (tx_push _ _ _ Ht Hlt).
  destruct (uartstart_run me m k1 (pend ++ [u8 c]) ks Hk1 Ht1) as (l & pend' & k2 & Hp & E & [R1 R2 R3 R4]).
  { apply Forall_app. split; [done|]. constructor; [apply u8_range|done]. }
  rewrite E, (release_taken L_uart_tx ks k2 m) by (done || apply R1).
  exists pend'. eexists. split; [done|]. split; [done|]. split; [|exact P2].
  cbn. rewrite R3, <- app_assoc, <- Hp. done.
Qed.

Lemma uartputc_fifo_witness :
  ∃ pend' k', uartputc 65 [] sample_console = Ok tt [] k' ∧ uart_thr (k_uart k') ++ pend' = [65].
Proof.
  destruct (uartputc_fifo (Some 1%nat) 65 [] [] sample_console) as (pend' & k' & H1 & _ & H3 & _).
  - apply sample_console_ready.
  - reflexivity.
  - by exists "uart".
  - by apply proc_locks_freeb.
  - reflexivity.
  - split; [reflexivity|by_eval|reflexivity|by_eval|apply in_ring_nil].
  - by_eval.
  - done.
  - exists pend', k'. split; [exact H1|exact H3].
Defined.

(** ** consoleread() *)

(** The line consoleread() delivers when [n] bytes are wanted and [q] has been
    handed over, and what remains; [None] when it has to wait.  A ^D ends the
    input; it is left for the next call unless it comes [first]. *)
Fixpoint take_line (n : nat) (first : bool) (q : list Z) : option (list Z * list Z) :=
  match n, q with
  | 0%nat, _ => Some ([], q)
  | S _, [] => None
  | S n, c :: q' =>
      if c =? C 68 then Some ([], if first then q' else q)
      else if c =? 10 then Some ([c], q')
      else match take_line n false q' with
           | Some (d, rest) => Some (c :: d, rest)
           | None => None
           end
  end.

Lemma line_pop c x q ed :
  line_state c (x :: q) ed →
  (cons_r c =? cons_w c) = false ∧ cons_buf c !!! Z.to_nat (cons_r c mod 128) = x ∧
  line_state (c <| cons_r := u32 (cons_r c + 1) |>) q ed ∧ u32 (u32 (cons_r c + 1) - 1) = cons_r c.
Proof.
  intros [H1 H2 H3 H4 H5 H6 H7]. cbn [length] in *. split; [|split; [|split]].
  - apply Z.eqb_neq. rewrite H3. unfold u32. Z.div_mod_to_equations. lia.
  - specialize (H6 0%nat x eq_refl). by rewrite Z.add_0_r in H6.
  - change ((x :: q) ++ ed) with ([x] ++ (q ++ ed)) in H6. apply in_ring_app in H6 as [_ H6].
    split; cbn; [done|apply u32_range| | |lia| |done].
    + rewrite H3. unfold u32. Z.div_mod_to_equations. lia.
    + rewrite H4. unfold u32. Z.div_mod_to_equations. lia.
    + eapply in_ring_mod; [lia| |exact H6]. cbn. by rewrite u32_mod_128.
  - unfold u32. Z.div_mod_to_equations. lia.
Qed.

Section read.
Context `{KI : KernelImage} (p : nat) (pt : Z) (T : tree) (m : machine).

(** Process [p] with its user memory, holding the console's lock. *)
Record reader (k : kernel) : Prop := {
  re_mach : k_mach k = take_lock L_cons m;
  re_ok : machine_ok m;
  re_proc : c_proc (this_cpu m) = Some p;
  re_free : lock_free L_cons m;
  re_pt : ∃ pr, k_procs k !! p = Some pr ∧ p_pagetable pr = pt;
  re_vm : ∃ l, vm_ok k pt T l ∧ user_sep (k_mem k) T l;
}.

Lemma reader_myproc k ks : reader k → myproc ks k = Ok (Some p) ks k.
Proof.
  intros [H1 H2 H3 H4 H5 H6]. rewrite myproc_run by (rewrite H1; by apply machine_ok_take).
  rewrite H1, c_proc_take, H3 by done. do 2 f_equal.
  destruct k. cbn in *. subst. f_equal. apply settle_nested. rewrite noff_take by done. pose proof (mo_noff _ H2). lia.
Qed.

Lemma reader_cons k f : reader k → reader (k <| k_cons ::= f |>).
Proof.
  intros [H1 H2 H3 H4 H5 [l [Hvm Hs]]]. split; try done. exists l. split; [|done].
  apply (vm_ok_mach k); [done..|apply Hvm].
Qed.

(** One byte is delivered to a writable place. *)
Lemma reader_copyout k dst x ks :
  reader k → 0 ≤ dst < 2 ^ 64 → 0 ≤ x < 256 → user_writable (k_mem k) T dst = true →
  ∃ m', either_copyout true dst [x] ks k = Ok 0 ks (k <| k_mem := m' |>) ∧ reader (k <| k_mem := m' |>) ∧
    (∀ va, leaf m' T va = leaf (k_mem k) T va) ∧ user_written (k_mem k) m' T dst [x].
Proof.
  intros Hk Hdst Hx Hw. pose proof Hk as [H1 H2 H3 H4 [pr [Hpr Hpt]] [l [Hvm Hs]]].
  destruct (copyout_loop_spec 2 pt dst [x] ks k T l) as (r & m' & Hc & [Cok Csep Clf Cfr Cres]); [done|done|lia| |cbn; lia|].
  { by constructor. }
  exists m'. unfold either_copyout. rewrite bind_run, reader_myproc by done. cbn iota. rewrite bind_run. cbn [nonnull mret].
  rewrite ret_run, bind_run. cbn [proc_get deref]. rewrite Hpr, Hpt. unfold copyout. cbn [length]. rewrite Hc.
  destruct Cres as [(-> & _ & Hwr)|[-> Hn]].
  - split; [done|]. split; [|done]. split; try done; [by exists pr|by exists l].
  - exfalso. apply Hn. intros a Ha. cbn in Ha. by replace a with dst by lia.
Qed.

(** With input to read nothing is waited for. *)
Lemma cons_wait_run k ks w : (cons_r (k_cons k) =? cons_w (k_cons k)) = false → while_fuel (S w) cons_wait tt ks k = Ok true ks k.
Proof. intros H. cbn [while_fuel]. rewrite bind_run. unfold cons_wait at 1. rewrite bind_run. cbn [gets]. by rewrite H. Qed.

Lemma writable_low mm va : user_writable mm T va = true → va < MAXVA.
Proof. unfold user_writable. intros H. apply andb_true_iff in H as [H _]. apply bool_decide_eq_true in H. lia. Qed.

Lemma consoleread_loop fuel n target first dst d rest q ed k ks :
  reader k → line_state (k_cons k) q ed → take_line (Z.to_nat n) first q = Some (d, rest) → Forall (λ x, 0 ≤ x < 256) q →
  (∀ a, dst ≤ a < dst + Z.of_nat (length d) → user_writable (k_mem k) T a = true) →
  (n <? target) = negb first → 0 ≤ n ≤ target → (Z.to_nat n < fuel)%nat → 0 ≤ dst < 2 ^ 64 →
  ∃ k', while_fuel fuel (consoleread_body true target) (dst, n) ks k = Ok (Some (n - Z.of_nat (length d))) ks k' ∧
    reader k' ∧ line_state (k_cons k') rest ed ∧ user_written (k_mem k) (k_mem k') T dst d.
Proof.
  revert n first dst d q k. induction fuel as [|fuel IH]; intros n first dst d q k Hk Hl Ht Hb Hw Hfirst Hn Hf Hdst; [lia|].
  cbn [while_fuel]. rewrite bind_run. unfold consoleread_body at 1. destruct (Z.ltb_spec 0 n) as [Hpos|Hz].
  2: { assert (n = 0) as -> by lia. injection Ht as <- <-. exists k. rewrite !ret_run. split; [done|]. split; [done|]. split; [done|].
       intros a Ha. cbn. by rewrite decide_False by lia. }
  replace (Z.to_nat n) with (S (Z.to_nat (n - 1))) in Ht by lia. destruct q as [|x q]; [done|]. cbn [take_line] in Ht.
  destruct (line_pop _ _ _ _ Hl) as (Hne & Hx & Hl' & Hback). apply Forall_cons in Hb as [Hbx Hb].
  rewrite bind_run. cbn [waits_left]. rewrite bind_run, cons_wait_run by done. cbn [negb]. rewrite bind_run. cbn [gets].
  change INPUT_BUF_SIZE with 128. rewrite Hx, bind_run. cbn [cons_set modify].
  set (k1 := k <| k_cons ::= _ |>). assert (Hk1 : reader k1) by (by apply reader_cons).
  destruct (Z.eqb_spec x (C 68)) as [E|E].
  - rewrite bind_run, when_run, Hfirst. destruct first; cbn [negb]; injection Ht as <- <-.
    + rewrite !ret_run. exists k1. split; [by rewrite Z.sub_0_r|]. split; [done|]. split; [done|].
      intros a Ha. cbn. by rewrite decide_False by lia.
    + cbn [cons_set modify]. rewrite !ret_run. eexists. split; [by rewrite Z.sub_0_r|]. split; [by apply reader_cons|]. split.
      * cbn. rewrite Hback. destruct (k_cons k) eqn:Ec. exact Hl.
      * intros a Ha. cbn. by rewrite decide_False by lia.
  - assert (Hd : ∃ d', d = x :: d') by (destruct (x =? 10); [|destruct (take_line _ _ _) as [[]|]]; simplify_eq; by eexists).
    destruct Hd as [d' ->]. cbn [length] in Hw.
    destruct (reader_copyout k1 dst x ks Hk1 Hdst Hbx) as (m' & Hc & Hk2 & Hlf & Hu); [apply Hw; lia|].
    rewrite bind_run, Hc. cbn [Z.eqb]. destruct (Z.eqb_spec x 10) as [E'|E'].
    + injection Ht as <- <-. rewrite !ret_run. eexists. split; [done|]. split; [done|]. split; [exact Hl'|exact Hu].
    + destruct (take_line (Z.to_nat (n - 1)) false q) as [[d1 rest1]|] eqn:Ht'; [|done]. injection Ht as -> ->. rewrite ret_run.
      assert (Hlow := writable_low _ _ (Hw dst ltac:(lia))). change MAXVA with (2 ^ 38) in Hlow. rewrite u64_small by lia.
      destruct (IH (n - 1) false (dst + 1) d' q (k1 <| k_mem := m' |>)) as (k3 & E3 & R3 & L3 & U3); try done; try lia.
      * intros a Ha. unfold user_writable. cbn. rewrite Hlf. apply Hw. lia.
      * exists k3. rewrite E3. split; [do 2 f_equal; cbn [length]; lia|]. split; [done|]. split; [done|].
        change (x :: d') with ([x] ++ d'). eapply user_written_app; [exact Hu|exact U3].
Qed.

(** A process that runs with no lock held. *)
Record reader_idle (k : kernel) : Prop := {
  ri_mach : k_mach k = m;
  ri_ok : machine_ok m;
  ri_settled : settle m = m;
  ri_proc : c_proc (this_cpu m) = Some p;
  ri_free : lock_free L_cons m;
  ri_pt : ∃ pr, k_procs k !! p = Some pr ∧ p_pagetable pr = pt;
  ri_vm : ∃ l, vm_ok k pt T l ∧ user_sep (k_mem k) T l;
}.
End read.

(** C27: consoleread() delivers lines.  When what has been handed over holds a
    newline or a ^D, or at least the [n] bytes wanted, and the destination is
    writable, read() does not wait: it returns the bytes up to and including
    the first newline, at most [n] of them and those before a ^D only, and has
    copied exactly these to the process; the rest, and the line being typed,
    stay for later, and a ^D that comes after other bytes is kept so that the
    next call returns 0. *)
Theorem consoleread_delivers `{KI : KernelImage} p pt T m dst n d rest q ed ks k :
  reader_idle p pt T m k → line_state (k_cons k) q ed → Forall (λ x, 0 ≤ x < 256) q → 0 ≤ n < 2 ^ 31 → 0 ≤ dst < 2 ^ 64 →
  take_line (Z.to_nat n) true q = Some (d, rest) →
  (∀ a, dst ≤ a < dst + Z.of_nat (length d) → user_writable (k_mem k) T a = true) →
  ∃ k', consoleread true dst n ks k = Ok (Z.of_nat (length d)) ks k' ∧ line_state (k_cons k') rest ed ∧
    user_written (k_mem k) (k_mem k') T dst d ∧ k_mach k' = m.
Proof.
  intros [H1 H2 H3 H4 H5 H6 [l [Hvm Hs]]] Hl Hb Hn Hdst Ht Hw. unfold consoleread. rewrite bind_run, acquire_run by (by rewrite H1).
  set (k1 := k <| k_mach ::= take_lock L_cons |>).
  assert (Hk1 : reader p pt T m k1).
  { split; try done; [cbn; by rewrite H1|]. exists l. split; [|done]. apply (vm_ok_mach k); [done..|].
    split; cbn; rewrite H1; [by apply machine_ok_take|]. apply lock_free_take; [done|]. rewrite <- H1. apply Hvm. }
  rewrite u32_small by lia.
  destruct (consoleread_loop p pt T m (S (Z.to_nat n)) n n true dst d rest q ed k1 ks) as (k2 & E & R & L & U); try done; try lia.
  rewrite bind_run, E, bind_run, (release_taken L_cons ks k2 m) by (done || apply R). rewrite ret_run.
  eexists. split; [f_equal|split; [done|split; [done|exact H3]]].
  replace (n - (n - Z.of_nat (length d))) with (Z.of_nat (length d)) by lia. apply i32_small.
  assert (Hlen : ∀ n f q d r, take_line n f q = Some (d, r) → (length d ≤ n)%nat).
  { clear. induction n as [|n IH]; intros f q d r Ht; [by injection Ht as <- <-|]. destruct q as [|c q]; [done|]. cbn in Ht.
    destruct (c =? C 68); [injection Ht as <- <-; cbn; lia|]. destruct (c =? 10); [injection Ht as <- <-; cbn; lia|].
    destruct (take_line n false q) as [[d' r']|] eqn:E; [|done]. injection Ht as <- <-. apply IH in E. cbn. lia. }
  apply Hlen in Ht. lia.
Qed.

Section witness.
#[local] Existing Instance sample_image.

(** Process 1 with one user page, and "ok" and a newline handed over. *)
Definition reader_boot : kernel :=
  match (procinit ;; initlock L_kmem "kmem" ;; initlock L_cons "cons" ;;
         proc_set 1 (λ p, p <| p_pagetable := sample_root |>) ;;
         cpu_set 0 (λ x, x <| c_proc := Some 1%nat |>)) [] zero_kernel with
  | Ok _ _ k => k
  | _ => zero_kernel
  end.

Definition with_console (g b : kernel) (c : cons_t) : kernel :=
  g <| k_mach := k_mach b |> <| k_procs := k_procs b |> <| k_cons := c |>.

Definition line_cons : cons_t := Cons (<[ 0%nat := 111 ]> (<[ 1%nat := 107 ]> (<[ 2%nat := 10 ]> (replicate 128 0)))) 0 3 3.

Lemma with_console_mem g b c : k_mem (with_console g b c) = k_mem g.
Proof. reflexivity. Qed.

Lemma with_console_idle g b c p pt T l :
  machine_ok (k_mach b) → settle (k_mach b) = k_mach b → c_proc (this_cpu (k_mach b)) = Some p →
  lock_free L_cons (k_mach b) → lock_free L_kmem (k_mach b) → p_pagetable <$> k_procs b !! p = Some pt →
  vm_ok g pt T l → user_sep (k_mem g) T l → reader_idle p pt T (k_mach b) (with_console g b c).
Proof.
  intros Hm Hs Hp Hl Hkl Hpt Hok Hu. split; try done.
  - apply fmap_Some in Hpt as (pr & Hpr & ->). by exists pr.
  - exists l. split; [|done]. by apply (vm_ok_mach g).
Qed.

Lemma sample_writable : ∃ T l, vm_ok sample_grown sample_root T l ∧ user_sep (k_mem sample_grown) T l ∧
  ∀ a, 10 ≤ a < 13 → user_writable (k_mem sample_grown) T a = true.
Proof.
  destruct sample_sep as (T & p & l & Hok & Hs & _). exists T, l. split; [done|]. split; [done|].
  destruct (copyout_loop_spec 4 sample_root 10 [1; 2; 3] [] sample_grown T l Hok Hs) as (r & m' & H1 & [_ _ _ _ H2]);
    [by_eval|by_eval|cbn; lia|].
  assert (E : match copyout_loop 4 sample_root 10 [1; 2; 3] [] sample_grown with Ok r _ _ => r | _ => 1 end = 0) by (vm_compute; reflexivity).
  rewrite H1 in E. subst r. destruct H2 as [(_ & H2 & _)|[H2 _]]; [|discriminate H2].
  intros a Ha. apply H2. cbn [length]. lia.
Qed.

Lemma consoleread_delivers_witness :
  ∃ k k', consoleread true 10 8 [] k = Ok 3 [] k' ∧ line_state (k_cons k') [] [].
Proof.
  destruct sample_writable as (T & l & Hok & Hs & Hw). exists (with_console sample_grown reader_boot line_cons).
  destruct (consoleread_delivers 1 sample_root T (k_mach reader_boot) 10 8 [111; 107; 10] [] [111; 107; 10] [] []
    (with_console sample_grown reader_boot line_cons)) as (k' & H1 & H2 & _).
  - apply (with_console_idle _ _ _ _ _ _ l); [|vm_compute; reflexivity|reflexivity| | |vm_compute; reflexivity|exact Hok|exact Hs].
    + constructor; vm_compute; try reflexivity; try discriminate. split; [discriminate|reflexivity].
    + apply lock_freeb_true. vm_compute. reflexivity.
    + apply lock_freeb_true. vm_compute. reflexivity.
  - split; [reflexivity|by_eval|reflexivity|reflexivity|by_eval| |done].
    intros [|[|[|j]]] x Hj; [by injection Hj as <-..|done].
  - by_eval.
  - by_eval.
  - by_eval.
  - reflexivity.
  - intros a Ha. rewrite with_console_mem. apply Hw. cbn [length] in Ha. lia.
  - exists k'. split; [exact H1|exact H2].
Defined.
End witness.
