(* ===== verification/Sleeplock.v ===== *)
(** * Sleep locks: sleeplock.c

    A sleep lock lives in a buffer or an inode and is named by the identifier
    of the spinlock embedded in it.  [kernel_thread] describes a process that
    executes kernel code holding no spinlock; between two calls of a lock
    operation the rest of the file system is run in such states, in which
    each operation has an equation that says exactly what it changes. *)

From S2P Require Import Prelude KMonad Memory Riscv State Spinlock Kalloc Vm Sched.

(** Access to the [struct sleeplock] whose spinlock is [l]. *)
Definition sleeplock_of (l : lockid) (k : kernel) : option sleeplock :=
  match l with
  | L_buf b => b_lock <$> k_bufs k !! b
  | L_inode i => i_lock <$> k_itable k !! i
  | _ => None
  end.

Definition sl_update (l : lockid) (f : sleeplock → sleeplock) (k : kernel) : kernel :=
  match l with
  | L_buf b => k <| k_bufs ::= alter (λ x, x <| b_lock ::= f |>) b |>
  | L_inode i => k <| k_itable ::= alter (λ x, x <| i_lock ::= f |>) i |>
  | _ => k
  end.

Definition sl_get (l : lockid) : M kernel sleeplock := deref "sleeplock" (sleeplock_of l).
Definition sl_set (l : lockid) (f : sleeplock → sleeplock) : M kernel unit := modify (sl_update l f).

Definition initsleeplock (l : lockid) (name : string) : M kernel unit :=
  initlock l "sleep lock" ;;
  sl_set l (λ x, x <| sl_name := name |>) ;;
  sl_set l (λ x, x <| sl_locked := 0 |>) ;;
  sl_set l (λ x, x <| sl_pid := 0 |>).

(** [while (lk->locked)] *)
Definition acquiresleep_body (l : lockid) (_ : unit) : M kernel (unit + unit) :=
  x ← sl_get l;
  if truthy (sl_locked x) then
    sleep (Ch_sleeplock l) l ;;
    mret (inl tt)
  else mret (inr tt).

Definition acquiresleep (l : lockid) : M kernel unit :=
  acquire l ;;
  w ← waits_left;
  while_fuel (S w) (acquiresleep_body l) tt ;;
  sl_set l (λ x, x <| sl_locked := 1 |>) ;;
  p ← curproc;
  pr ← proc_get p;
  sl_set l (λ x, x <| sl_pid := p_pid pr |>) ;;
  release l.

Definition releasesleep (l : lockid) : M kernel unit :=
  acquire l ;;
  sl_set l (λ x, x <| sl_locked := 0 |>) ;;
  sl_set l (λ x, x <| sl_pid := 0 |>) ;;
  wakeup (Ch_sleeplock l) ;;
  release l.

Definition holdingsleep (l : lockid) : M kernel bool :=
  acquire l ;;
  x ← sl_get l;
  r ← (if truthy (sl_locked x) then
         p ← curproc;
         pr ← proc_get p;
         mret (sl_pid x =? p_pid pr)
       else mret false);
  release l ;;
  mret r.

#[global] Arguments acquiresleep : simpl never.
#[global] Arguments releasesleep : simpl never.
#[global] Arguments holdingsleep : simpl never.

(** ** Kernel code of a process *)

(** The locks that exist once the kernel has booted. *)
Definition static_lock (lk : lockid) : bool :=
  match lk with
  | L_proc p => bool_decide (p < NPROC)%nat
  | L_buf b => bool_decide (b < NBUF)%nat
  | L_inode i => bool_decide (i < NINODE)%nat
  | L_pipe _ => false
  | _ => true
  end.

Record kernel_thread (p : nat) (pid : Z) (k : kernel) : Prop := {
  kt_ok : machine_ok (k_mach k);
  kt_proc : c_proc (this_cpu (k_mach k)) = Some p;
  kt_noff : c_noff (this_cpu (k_mach k)) = 0;
  kt_settled : settle (k_mach k) = k_mach k;
  kt_locks : ∀ lk, static_lock lk → lock_free lk (k_mach k);
  kt_procs : procs_ok k;
  kt_pid : p_pid <$> k_procs k !! p = Some pid;
}.

Section thread.
Context (p : nat) (pid : Z).

(** Fields a thread's state does not depend on can be changed freely. *)
Lemma kernel_thread_ext k k' :
  kernel_thread p pid k → k_mach k' = k_mach k → k_procs k' = k_procs k → kernel_thread p pid k'.
Proof.
  intros [H1 H2 H3 H4 H5 H6 H7] Hm Hp. split; unfold procs_ok in *; rewrite ?Hm, ?Hp; done.
Qed.

Lemma kernel_thread_woken k chan :
  kernel_thread p pid k → kernel_thread p pid (k <| k_procs ::= woken chan (Some p) |>).
Proof.
  intros [H1 H2 H3 H4 H5 H6 H7]. split; cbn; try done.
  - unfold procs_ok, woken in *. cbn. by rewrite length_imap.
  - unfold woken. rewrite list_lookup_imap. destruct (k_procs k !! p); [|done]. cbn in *.
    by rewrite decide_True by done.
Qed.

(** Entering a critical section. *)
Lemma thread_acquire lk k ks :
  kernel_thread p pid k → static_lock lk →
  acquire lk ks k = Ok tt ks (k <| k_mach := take_lock lk (k_mach k) |>).
Proof.
  intros [H1 H2 H3 H4 H5 H6 H7] Hs. rewrite acquire_run by auto. reflexivity.
Qed.

(** Leaving one: whatever was changed inside, the machine is as before. *)
Lemma thread_release lk k k1 ks :
  kernel_thread p pid k → static_lock lk → k_mach k1 = take_lock lk (k_mach k) →
  release lk ks k1 = Ok tt ks (k1 <| k_mach := k_mach k |>).
Proof.
  intros [H1 H2 H3 H4 H5 H6 H7] Hs Hm. rewrite (release_taken _ _ _ (k_mach k)) by auto.
  by rewrite H4.
Qed.

(** Inside a critical section on [lk]. *)
Definition holding_only (lk : lockid) (k k1 : kernel) : Prop :=
  kernel_thread p pid k ∧ static_lock lk ∧ k_mach k1 = take_lock lk (k_mach k) ∧
  k_procs k1 = k_procs k.

Lemma holding_settle lk k k1 : holding_only lk k k1 → settle (k_mach k1) = k_mach k1.
Proof.
  intros [[H1 H2 H3 H4 H5 H6 H7] [Hs [-> _]]]. apply settle_nested. rewrite noff_take by done. lia.
Qed.

Lemma holding_curproc lk k k1 ks : holding_only lk k k1 → curproc ks k1 = Ok p ks k1.
Proof.
  intros H. pose proof (holding_settle _ _ _ H) as Hset. destruct H as [[H1 H2 H3 H4 H5 H6 H7] [Hs [Hm Hp]]].
  rewrite (curproc_run _ _ p).
  - destruct k1; cbn in *. by rewrite Hset.
  - rewrite Hm. by apply machine_ok_take.
  - by rewrite Hm, c_proc_take.
Qed.

Lemma holding_wakeup lk k k1 chan ks :
  holding_only lk k k1 → (∀ q, lk ≠ L_proc q) →
  wakeup chan ks k1 = Ok tt ks (k1 <| k_procs ::= woken chan (Some p) |>).
Proof.
  intros H Hne. pose proof (holding_settle _ _ _ H) as Hset.
  destruct H as [[H1 H2 H3 H4 H5 H6 H7] [Hs [Hm Hp]]]. rewrite (wakeup_run chan (Some p)).
  - do 2 f_equal. destruct k1; cbn in *. by rewrite Hset.
  - rewrite Hm. by apply machine_ok_take.
  - by rewrite Hm, c_proc_take.
  - intros q Hq _. rewrite Hm. apply lock_free_take; [done|]. apply H5. cbn. by rewrite bool_decide_eq_true_2.
  - unfold procs_ok in *. by rewrite Hp.
Qed.

Lemma holding_proc_get lk k k1 ks :
  holding_only lk k k1 → ∃ pr, k_procs k !! p = Some pr ∧ p_pid pr = pid ∧ proc_get p ks k1 = Ok pr ks k1.
Proof.
  intros [[H1 H2 H3 H4 H5 H6 H7] [Hs [Hm Hp]]]. apply fmap_Some in H7 as (pr & Hpr & ->).
  exists pr. unfold proc_get. cbn. by rewrite Hp, Hpr.
Qed.

(** A second lock, taken and released inside a critical section on [lk]. *)
Lemma holding_acquire lk lk' k k1 ks :
  holding_only lk k k1 → static_lock lk' → lk ≠ lk' →
  acquire lk' ks k1 = Ok tt ks (k1 <| k_mach := take_lock lk' (take_lock lk (k_mach k)) |>).
Proof.
  intros [[H1 H2 H3 H4 H5 H6 H7] [Hs [Hm Hp]]] Hs' Hne. rewrite acquire_run.
  - by rewrite <- Hm.
  - rewrite Hm. by apply machine_ok_take.
  - rewrite Hm. apply lock_free_take; auto.
Qed.

Lemma holding_release lk lk' k k1 ks :
  kernel_thread p pid k → static_lock lk' → lk ≠ lk' →
  k_mach k1 = take_lock lk' (take_lock lk (k_mach k)) →
  release lk' ks k1 = Ok tt ks (k1 <| k_mach := take_lock lk (k_mach k) |>).
Proof.
  intros [H1 H2 H3 H4 H5 H6 H7] Hs' Hne Hm. rewrite (release_taken _ _ _ (take_lock lk (k_mach k))).
  - rewrite settle_nested; [done|]. rewrite noff_take by done. lia.
  - by apply machine_ok_take.
  - apply lock_free_take; auto.
  - done.
Qed.
End thread.

(** ** The operations *)

Lemma sl_update_mach l f k : k_mach (sl_update l f k) = k_mach k.
Proof. by destruct l. Qed.

Lemma sl_update_procs l f k : k_procs (sl_update l f k) = k_procs k.
Proof. by destruct l. Qed.

Lemma sl_update_with_mach l f k m : sl_update l f (k <| k_mach := m |>) = (sl_update l f k) <| k_mach := m |>.
Proof. by destruct l. Qed.

Lemma sl_update_with_procs l f k g :
  sl_update l f (k <| k_procs ::= g |>) = (sl_update l f k) <| k_procs ::= g |>.
Proof. by destruct l. Qed.

Lemma sl_update_update l f g k : sl_update l g (sl_update l f k) = sl_update l (λ x, g (f x)) k.
Proof.
  destruct l; try done; destruct k; cbn; by rewrite list_alter_alter.
Qed.

Lemma sl_update_ext l f g k x :
  sleeplock_of l k = Some x → f x = g x → sl_update l f k = sl_update l g k.
Proof.
  destruct l; cbn; try done; intros Hx Hfg; apply fmap_Some in Hx as (y & Hy & ->);
    destruct k; cbn in *; f_equal; apply list_alter_ext_at;
    rewrite (list_lookup_total_correct _ _ _ Hy); by rewrite Hfg.
Qed.

Lemma sleeplock_of_update l f k x :
  sleeplock_of l k = Some x → sleeplock_of l (sl_update l f k) = Some (f x).
Proof.
  destruct l; cbn; try done; intros Hx; apply fmap_Some in Hx as (y & Hy & ->);
    by rewrite list_lookup_alter_eq, Hy.
Qed.

Lemma sleeplock_of_mach l k m : sleeplock_of l (k <| k_mach := m |>) = sleeplock_of l k.
Proof. by destruct l. Qed.

Lemma with_mach_id (k : kernel) : k <| k_mach := k_mach k |> = k.
Proof. by destruct k. Qed.

Section runs.
Context (p : nat) (pid : Z) (l : lockid).

Lemma sleeplock_of_static k x : sleeplock_of l k = Some x → ∀ q, l ≠ L_proc q.
Proof. by destruct l. Qed.

(** An unlocked sleep lock is taken at once. *)
Lemma acquiresleep_run k x ks :
  kernel_thread p pid k → static_lock l → sleeplock_of l k = Some x → sl_locked x = 0 →
  acquiresleep l ks k = Ok tt ks (sl_update l (λ x, x <| sl_locked := 1 |> <| sl_pid := pid |>) k).
Proof.
  intros Hk Hs Hx H0. unfold acquiresleep. rewrite bind_run, (thread_acquire p pid) by done.
  rewrite bind_run. cbn [waits_left]. rewrite bind_run.
  set (k1 := k <| k_mach := take_lock l (k_mach k) |>).
  assert (Hbody : while_fuel (S (length ks)) (acquiresleep_body l) tt ks k1 = Ok tt ks k1).
  { cbn [while_fuel]. unfold acquiresleep_body, sl_get. rewrite !bind_run. cbn [deref].
    unfold k1. by rewrite sleeplock_of_mach, Hx, H0. }
  rewrite Hbody, bind_run. cbn [sl_set modify].
  assert (Hh : holding_only p pid l k (sl_update l (λ x, x <| sl_locked := 1 |>) k1)).
  { split; [done|]. split; [done|]. by rewrite sl_update_mach, sl_update_procs. }
  rewrite bind_run, (holding_curproc p pid l k) by done.
  destruct (holding_proc_get p pid l k _ ks Hh) as (pr & Hpr & Hpid & Hget).
  rewrite bind_run, Hget, bind_run. cbn [sl_set modify].
  rewrite (thread_release p pid l k); [|done|done|by rewrite !sl_update_mach].
  rewrite sl_update_update. unfold k1.
  rewrite (sl_update_with_mach l _ k), Hpid.
  do 2 f_equal. transitivity ((sl_update l (λ x, x <| sl_locked := 1 |> <| sl_pid := pid |>) k)
    <| k_mach := k_mach (sl_update l (λ x, x <| sl_locked := 1 |> <| sl_pid := pid |>) k) |>).
  - by rewrite sl_update_mach.
  - apply with_mach_id.
Qed.

(** releasesleep() frees the lock and makes its sleepers runnable. *)
Lemma releasesleep_run k x ks :
  kernel_thread p pid k → static_lock l → sleeplock_of l k = Some x →
  releasesleep l ks k = Ok tt ks ((sl_update l (λ x, x <| sl_locked := 0 |> <| sl_pid := 0 |>) k)
                                    <| k_procs ::= woken (Ch_sleeplock l) (Some p) |>).
Proof.
  intros Hk Hs Hx. unfold releasesleep. rewrite bind_run, (thread_acquire p pid) by done.
  rewrite bind_run. cbn [sl_set modify]. rewrite bind_run. cbn [sl_set modify].
  rewrite sl_update_update, (sl_update_with_mach l _ k).
  assert (Hh : holding_only p pid l k ((sl_update l (λ x, x <| sl_locked := 0 |> <| sl_pid := 0 |>) k)
    <| k_mach := take_lock l (k_mach k) |>)).
  { split; [done|]. split; [done|]. split; [done|]. cbn. by rewrite sl_update_procs. }
  rewrite bind_run, (holding_wakeup p pid l k); [|done|by apply (sleeplock_of_static k x)].
  rewrite (thread_release p pid l k); [|done..]. do 2 f_equal.
  destruct l; try done; by destruct k.
Qed.

Lemma holdingsleep_run k x ks :
  kernel_thread p pid k → static_lock l → sleeplock_of l k = Some x →
  holdingsleep l ks k = Ok (truthy (sl_locked x) && (sl_pid x =? pid)) ks k.
Proof.
  intros Hk Hs Hx. unfold holdingsleep. rewrite bind_run, (thread_acquire p pid) by done.
  unfold sl_get. rewrite bind_run. cbn [deref]. rewrite sleeplock_of_mach, Hx, bind_run.
  set (k1 := k <| k_mach := take_lock l (k_mach k) |>).
  assert (Hh : holding_only p pid l k k1) by done.
  assert (E : (if truthy (sl_locked x) then p ← curproc; pr ← proc_get p; mret (sl_pid x =? p_pid pr)
               else mret false) ks k1 = Ok (truthy (sl_locked x) && (sl_pid x =? pid)) ks k1).
  { destruct (truthy _); [|done]. rewrite bind_run, (holding_curproc p pid l k) by done.
    destruct (holding_proc_get p pid l k k1 ks Hh) as (pr & Hpr & <- & Hget).
    by rewrite bind_run, Hget. }
  rewrite E, bind_run, (thread_release p pid l k) by done. unfold k1. by destruct k.
Qed.
End runs.

(** ** A process in the kernel of a booted machine *)

Definition static_locks : list lockid :=
  [L_kmem; L_pid; L_wait; L_bcache; L_log; L_itable; L_ftable; L_cons; L_uart_tx; L_ticks; L_vdisk; L_pr] ++
  (L_proc <$> seq 0 NPROC) ++ (L_buf <$> seq 0 NBUF) ++ (L_inode <$> seq 0 NINODE).

Lemma static_locks_complete lk : static_lock lk → lk ∈ static_locks.
Proof.
  unfold static_locks. rewrite !elem_of_app. destruct lk; cbn [static_lock]; intros H;
    try (left; rewrite ?elem_of_cons; tauto); try (by destruct H); right;
    apply bool_decide_unpack in H.
  - left. apply list_elem_of_fmap. exists p. split; [done|]. apply elem_of_seq. lia.
  - right. left. apply list_elem_of_fmap. exists b. split; [done|]. apply elem_of_seq. lia.
  - right. right. apply list_elem_of_fmap. exists i. split; [done|]. apply elem_of_seq. lia.
Qed.

Definition thread_kernel : kernel :=
  zero_kernel <| k_mach ::= λ m, m
    <| m_locks := list_to_map ((λ l, (l, Spinlock 0 "lock" None)) <$> static_locks) |>
    <| m_cpus ::= alter (λ x, x <| c_proc := Some 1%nat |>) 0%nat |> |>.

Lemma settle_same m : c_intena (this_cpu m) = b2z (intr_enabled m) → settle m = m.
Proof.
  intros H. unfold settle. destruct (_ =? 0); [|done].
  assert (E : alter (λ x, x <| c_intena := b2z (intr_enabled m) |>) (hart_id m) (m_cpus m) = m_cpus m).
  { apply list_alter_id_at. change (m_cpus m !!! hart_id m) with (this_cpu m). rewrite <- H. by destruct (this_cpu m). }
  destruct m. cbn in *. by rewrite E.
Qed.

Lemma thread_kernel_ok : kernel_thread 1 0 thread_kernel.
Proof.
  assert (Hall : forallb (λ lk, lock_freeb lk (k_mach thread_kernel)) static_locks = true) by (vm_compute; reflexivity).
  split.
  - split; [split; [by_eval|by_eval]|by_eval|by_eval|by_eval].
  - by_eval.
  - by_eval.
  - apply settle_same. by_eval.
  - intros lk Hs. apply lock_freeb_true. apply (proj1 (forallb_forall _ _) Hall), list_elem_of_In.
    by apply static_locks_complete.
  - by_eval.
  - by_eval.
Qed.
