(* ===== verification/Bio.v ===== *)
(** * The buffer cache: bio.c

    The cache is an array of NBUF buffers threaded on a doubly linked list in
    order of use; the list head is one more element of the array.  The disk
    driver below it is used through the interface [Disk]. *)

From S2P Require Import Prelude KMonad Memory Riscv State Spinlock Kalloc Vm Sched Sleeplock.

(** ** Fields of a block's data *)

Definition byte_at (l : list Z) (off : Z) : Z := l !!! Z.to_nat off.
Definition bytes_at (l : list Z) (off n : Z) : list Z := take (Z.to_nat n) (drop (Z.to_nat off) l).
Definition put_bytes (l : list Z) (off : Z) (bs : list Z) : list Z :=
  list_inserts (Z.to_nat off) bs l.
Definition get16 (l : list Z) (off : Z) : Z := bytes_to_Z (bytes_at l off 2).
Definition get32 (l : list Z) (off : Z) : Z := bytes_to_Z (bytes_at l off 4).
Definition get64 (l : list Z) (off : Z) : Z := bytes_to_Z (bytes_at l off 8).
Definition put16 (l : list Z) (off v : Z) : list Z := put_bytes l off (Z_to_bytes 2 (u16 v)).
Definition put32 (l : list Z) (off v : Z) : list Z := put_bytes l off (Z_to_bytes 4 (u32 v)).

Lemma bytes_at_lookup l off n i :
  0 ≤ off → bytes_at l off n !! i = if decide (i < Z.to_nat n)%nat then l !! (Z.to_nat off + i)%nat else None.
Proof.
  intros Ho. unfold bytes_at. case_decide as H.
  - by rewrite lookup_take_lt, lookup_drop.
  - rewrite lookup_take_ge by lia. done.
Qed.

Lemma bytes_at_length l off n :
  0 ≤ off → 0 ≤ n → off + n ≤ Z.of_nat (length l) → length (bytes_at l off n) = Z.to_nat n.
Proof. intros. unfold bytes_at. rewrite length_take, length_drop. lia. Qed.

Lemma put_bytes_length l off bs : length (put_bytes l off bs) = length l.
Proof. apply length_inserts. Qed.

Lemma put_bytes_lookup l off bs i :
  0 ≤ off → off + Z.of_nat (length bs) ≤ Z.of_nat (length l) →
  put_bytes l off bs !! i =
    if decide (Z.to_nat off ≤ i < Z.to_nat off + length bs)%nat then bs !! (i - Z.to_nat off)%nat else l !! i.
Proof.
  intros Ho Hl. unfold put_bytes. case_decide as H.
  - by rewrite list_lookup_inserts by lia.
  - destruct (decide (i < Z.to_nat off)%nat); [by apply list_lookup_inserts_lt|].
    apply list_lookup_inserts_ge. lia.
Qed.

Lemma put_bytes_front l bs : (length bs ≤ length l)%nat → put_bytes l 0 bs = bs ++ drop (length bs) l.
Proof.
  intros H. apply list_eq. intros i. rewrite put_bytes_lookup by lia. change (Z.to_nat 0) with 0%nat.
  case_decide as Hi.
  - rewrite lookup_app_l by lia. f_equal. lia.
  - rewrite lookup_app_r, lookup_drop by lia. f_equal. lia.
Qed.

Lemma bytes_at_put l off bs :
  0 ≤ off → off + Z.of_nat (length bs) ≤ Z.of_nat (length l) →
  bytes_at (put_bytes l off bs) off (Z.of_nat (length bs)) = bs.
Proof.
  intros Ho Hl. apply list_eq. intros i. rewrite bytes_at_lookup by done. case_decide as H.
  - rewrite put_bytes_lookup by done. rewrite decide_True by lia. f_equal. lia.
  - symmetry. apply lookup_ge_None_2. lia.
Qed.

Lemma bytes_at_put_other l off bs off' n :
  0 ≤ off → 0 ≤ off' → off + Z.of_nat (length bs) ≤ Z.of_nat (length l) →
  off' + n ≤ off ∨ off + Z.of_nat (length bs) ≤ off' →
  bytes_at (put_bytes l off bs) off' n = bytes_at l off' n.
Proof.
  intros Ho Ho' Hl Hd. apply list_eq. intros i. rewrite !bytes_at_lookup by done. case_decide as H; [|done].
  rewrite put_bytes_lookup by done. by rewrite decide_False by lia.
Qed.

Lemma put32_length l off v : length (put32 l off v) = length l.
Proof. apply put_bytes_length. Qed.

Lemma get32_put32 l off v :
  0 ≤ off → off + 4 ≤ Z.of_nat (length l) → get32 (put32 l off v) off = u32 v.
Proof.
  intros Ho Hl. unfold get32, put32. pose proof (bytes_at_put l off (Z_to_bytes 4 (u32 v))) as H.
  rewrite Z_to_bytes_length in H. change (Z.of_nat 4) with 4 in H. rewrite H by done.
  apply bytes_to_Z_to_bytes. apply u32_range.
Qed.

Lemma get32_put32_other l off off' v :
  0 ≤ off → 0 ≤ off' → off + 4 ≤ Z.of_nat (length l) → off' + 4 ≤ off ∨ off + 4 ≤ off' →
  get32 (put32 l off v) off' = get32 l off'.
Proof.
  intros Ho Ho' Hl Hd. unfold get32, put32. rewrite bytes_at_put_other; rewrite ?Z_to_bytes_length; done.
Qed.

Lemma put16_length l off v : length (put16 l off v) = length l.
Proof. apply put_bytes_length. Qed.

Lemma get16_put16 l off v :
  0 ≤ off → off + 2 ≤ Z.of_nat (length l) → get16 (put16 l off v) off = u16 v.
Proof.
  intros Ho Hl. unfold get16, put16. pose proof (bytes_at_put l off (Z_to_bytes 2 (u16 v))) as H.
  rewrite Z_to_bytes_length in H. change (Z.of_nat 2) with 2 in H. rewrite H by done.
  apply bytes_to_Z_to_bytes. unfold u16. apply Z.mod_pos_bound. lia.
Qed.

(** A part of what was put. *)
Lemma bytes_at_put_part l off bs j n :
  0 ≤ off → off + Z.of_nat (length bs) ≤ Z.of_nat (length l) → 0 ≤ j → 0 ≤ n → j + n ≤ Z.of_nat (length bs) →
  bytes_at (put_bytes l off bs) (off + j) n = bytes_at bs j n.
Proof.
  intros Ho Hl Hj Hn Hjn. apply list_eq. intros i. rewrite !bytes_at_lookup by lia. case_decide as Hi; [|done].
  rewrite put_bytes_lookup by done. rewrite decide_True by lia. f_equal. lia.
Qed.

(** Fields apart from what is put. *)
Definition apart (off n off' n' : Z) : Prop := off' + n' ≤ off ∨ off + n ≤ off'.

Lemma get16_put_other l off bs off' :
  0 ≤ off → 0 ≤ off' → off + Z.of_nat (length bs) ≤ Z.of_nat (length l) → apart off (Z.of_nat (length bs)) off' 2 →
  get16 (put_bytes l off bs) off' = get16 l off'.
Proof. intros. unfold get16. by rewrite bytes_at_put_other. Qed.

Lemma get32_put_other l off bs off' :
  0 ≤ off → 0 ≤ off' → off + Z.of_nat (length bs) ≤ Z.of_nat (length l) → apart off (Z.of_nat (length bs)) off' 4 →
  get32 (put_bytes l off bs) off' = get32 l off'.
Proof. intros. unfold get32. by rewrite bytes_at_put_other. Qed.

Lemma get16_put16_ne l off v off' :
  0 ≤ off → 0 ≤ off' → off + 2 ≤ Z.of_nat (length l) → apart off 2 off' 2 →
  get16 (put16 l off v) off' = get16 l off'.
Proof. intros. apply get16_put_other; rewrite ?Z_to_bytes_length; done. Qed.

Lemma get32_put16_ne l off v off' :
  0 ≤ off → 0 ≤ off' → off + 2 ≤ Z.of_nat (length l) → apart off 2 off' 4 →
  get32 (put16 l off v) off' = get32 l off'.
Proof. intros. apply get32_put_other; rewrite ?Z_to_bytes_length; done. Qed.

Lemma get16_put32_ne l off v off' :
  0 ≤ off → 0 ≤ off' → off + 4 ≤ Z.of_nat (length l) → apart off 4 off' 2 →
  get16 (put32 l off v) off' = get16 l off'.
Proof. intros. apply get16_put_other; rewrite ?Z_to_bytes_length; done. Qed.

(** The contents of block [bno] of the disk. *)
Definition disk_block (k : kernel) (bno : Z) : list Z := default zero_block (k_disk k !! bno).

(** What the buffer cache needs of the disk driver: move one block between a
    buffer and the disk. *)
Class Disk := disk_rw : nat → bool → M kernel unit.

Definition buf_get (b : nat) : M kernel buf := deref "buf" (λ k, k_bufs k !! b).
Definition buf_set (b : nat) (f : buf → buf) : M kernel unit :=
  modify (λ k, k <| k_bufs ::= alter f b |>).

(** [&bcache.head] *)
Definition bhead : nat := NBUF.

(** Put [b] right after the head. *)
Definition link_front (b : nat) : M kernel unit :=
  h ← buf_get bhead;
  buf_set b (λ x, x <| b_next := b_next h |>) ;;
  buf_set b (λ x, x <| b_prev := bhead |>) ;;
  buf_set (b_next h) (λ x, x <| b_prev := b |>) ;;
  buf_set bhead (λ x, x <| b_next := b |>).

Definition binit : M kernel unit :=
  initlock L_bcache "bcache" ;;
  buf_set bhead (λ x, x <| b_prev := bhead |>) ;;
  buf_set bhead (λ x, x <| b_next := bhead |>) ;;
  for_each (seq 0 NBUF) (λ b,
    h ← buf_get bhead;
    buf_set b (λ x, x <| b_next := b_next h |>) ;;
    buf_set b (λ x, x <| b_prev := bhead |>) ;;
    initsleeplock (L_buf b) "buffer" ;;
    h1 ← buf_get bhead;
    buf_set (b_next h1) (λ x, x <| b_prev := b |>) ;;
    buf_set bhead (λ x, x <| b_next := b |>)).

(** [for(b = head.next; b != &head; b = b->next)]: is the block cached? *)
Definition bget_cached (dev blockno : Z) (b : nat) : M kernel (nat + option nat) :=
  if decide (b = bhead) then mret (inr None) else
  x ← buf_get b;
  if (b_dev x =? dev) && (b_blockno x =? blockno) then mret (inr (Some b)) else mret (inl (b_next x)).

(** [for(b = head.prev; b != &head; b = b->prev)]: the least recently used
    unused buffer. *)
Definition bget_unused (b : nat) : M kernel (nat + option nat) :=
  if decide (b = bhead) then mret (inr None) else
  x ← buf_get b;
  if b_refcnt x =? 0 then mret (inr (Some b)) else mret (inl (b_prev x)).

(** The list has NBUF elements besides its head. *)
Definition bget (dev blockno : Z) : M kernel nat :=
  acquire L_bcache ;;
  h ← buf_get bhead;
  r ← while_fuel (S NBUF) (bget_cached dev blockno) (b_next h);
  match r with
  | Some b =>
      buf_set b (λ x, x <| b_refcnt := u32 (b_refcnt x + 1) |>) ;;
      release L_bcache ;;
      acquiresleep (L_buf b) ;;
      mret b
  | None =>
      h1 ← buf_get bhead;
      r1 ← while_fuel (S NBUF) bget_unused (b_prev h1);
      match r1 with
      | Some b =>
          buf_set b (λ x, x <| b_dev := dev |>) ;;
          buf_set b (λ x, x <| b_blockno := blockno |>) ;;
          buf_set b (λ x, x <| b_valid := 0 |>) ;;
          buf_set b (λ x, x <| b_refcnt := 1 |>) ;;
          release L_bcache ;;
          acquiresleep (L_buf b) ;;
          mret b
      | None => panic "bget: no buffers"
      end
  end.

Section bio.
Context `{D : Disk}.

Definition bread (dev blockno : Z) : M kernel nat :=
  b ← bget dev blockno;
  x ← buf_get b;
  when (b_valid x =? 0)
    (disk_rw b false ;;
     buf_set b (λ x, x <| b_valid := 1 |>)) ;;
  mret b.

Definition bwrite (b : nat) : M kernel unit :=
  h ← holdingsleep (L_buf b);
  if negb h then panic "bwrite" else
  disk_rw b true.
End bio.

Definition brelse (b : nat) : M kernel unit :=
  h ← holdingsleep (L_buf b);
  if negb h then panic "brelse" else
  releasesleep (L_buf b) ;;
  acquire L_bcache ;;
  buf_set b (λ x, x <| b_refcnt := u32 (b_refcnt x - 1) |>) ;;
  x ← buf_get b;
  when (b_refcnt x =? 0)
    (* no one is waiting for it. *)
    (buf_set (b_next x) (λ y, y <| b_prev := b_prev x |>) ;;
     x1 ← buf_get b;
     buf_set (b_prev x1) (λ y, y <| b_next := b_next x1 |>) ;;
     link_front b) ;;
  release L_bcache.

Definition bpin (b : nat) : M kernel unit :=
  acquire L_bcache ;;
  buf_set b (λ x, x <| b_refcnt := u32 (b_refcnt x + 1) |>) ;;
  release L_bcache.

Definition bunpin (b : nat) : M kernel unit :=
  acquire L_bcache ;;
  buf_set b (λ x, x <| b_refcnt := u32 (b_refcnt x - 1) |>) ;;
  release L_bcache.

(** The caller of bread() works on the data of its locked buffer. *)
Definition buf_data (b : nat) : M kernel (list Z) :=
  x ← buf_get b;
  mret (b_data x).
Definition set_data (b : nat) (f : list Z → list Z) : M kernel unit :=
  buf_set b (λ x, x <| b_data ::= f |>).
