(* ===== verification/Virtio.v ===== *)
(** * The disk driver: virtio_disk.c and virtio.h

    Requests go to the device through a table of NUM descriptors and two
    rings.  The descriptor table, the rings and the driver's own bookkeeping
    are the record [vdisk]; the addresses put into descriptors are names of
    the objects they point to.  What the device's registers read is given by
    [mmio_read]; the device itself acts between the steps of the driver. *)

From S2P Require Import Prelude KMonad Memory Riscv State Spinlock Kalloc Vm Sched Sleeplock.
From S2P Require Import Bio.

Definition VIRTIO_MMIO_MAGIC_VALUE : Z := 0x000.
Definition VIRTIO_MMIO_VERSION : Z := 0x004.
Definition VIRTIO_MMIO_DEVICE_ID : Z := 0x008.
Definition VIRTIO_MMIO_VENDOR_ID : Z := 0x00c.
Definition VIRTIO_MMIO_DEVICE_FEATURES : Z := 0x010.
Definition VIRTIO_MMIO_DRIVER_FEATURES : Z := 0x020.
Definition VIRTIO_MMIO_QUEUE_SEL : Z := 0x030.
Definition VIRTIO_MMIO_QUEUE_NUM_MAX : Z := 0x034.
Definition VIRTIO_MMIO_QUEUE_NUM : Z := 0x038.
Definition VIRTIO_MMIO_QUEUE_READY : Z := 0x044.
Definition VIRTIO_MMIO_QUEUE_NOTIFY : Z := 0x050.
Definition VIRTIO_MMIO_INTERRUPT_STATUS : Z := 0x060.
Definition VIRTIO_MMIO_INTERRUPT_ACK : Z := 0x064.
Definition VIRTIO_MMIO_STATUS : Z := 0x070.
Definition VIRTIO_MMIO_QUEUE_DESC_LOW : Z := 0x080.
Definition VIRTIO_MMIO_QUEUE_DESC_HIGH : Z := 0x084.
Definition VIRTIO_MMIO_DRIVER_DESC_LOW : Z := 0x090.
Definition VIRTIO_MMIO_DRIVER_DESC_HIGH : Z := 0x094.
Definition VIRTIO_MMIO_DEVICE_DESC_LOW : Z := 0x0a0.
Definition VIRTIO_MMIO_DEVICE_DESC_HIGH : Z := 0x0a4.

Definition VIRTIO_CONFIG_S_ACKNOWLEDGE : Z := 1.
Definition VIRTIO_CONFIG_S_DRIVER : Z := 2.
Definition VIRTIO_CONFIG_S_DRIVER_OK : Z := 4.
Definition VIRTIO_CONFIG_S_FEATURES_OK : Z := 8.

Definition VIRTIO_BLK_F_RO : Z := 5.
Definition VIRTIO_BLK_F_SCSI : Z := 7.
Definition VIRTIO_BLK_F_CONFIG_WCE : Z := 11.
Definition VIRTIO_BLK_F_MQ : Z := 12.
Definition VIRTIO_F_ANY_LAYOUT : Z := 27.
Definition VIRTIO_RING_F_INDIRECT_DESC : Z := 28.
Definition VIRTIO_RING_F_EVENT_IDX : Z := 29.

Definition VRING_DESC_F_NEXT : Z := 1.
Definition VRING_DESC_F_WRITE : Z := 2.
Definition VIRTIO_BLK_T_IN : Z := 0.
Definition VIRTIO_BLK_T_OUT : Z := 1.

Definition vd_set (f : vdisk → vdisk) : M kernel unit := modify (λ k, k <| k_vdisk ::= f |>).

Section virtio.
Context `{KI : KernelImage}.

(** [*R(r)] and [*R(r) = v] *)
Definition read_reg (r : Z) : M kernel Z := gets (λ k, u32 (mmio_read (vd_regs (k_vdisk k)) r)).
Definition write_reg (r v : Z) : M kernel unit :=
  vd_set (λ d, d <| vd_regs ::= <[ r := u32 v ]> |>).

(** [features &= ~(1 << bit)] *)
Definition clear_feature (features bit : Z) : Z := Z.land features (Z.lnot (Z.shiftl 1 bit)).

Definition virtio_disk_init : M kernel unit :=
  initlock L_vdisk "virtio_disk" ;;
  magic ← read_reg VIRTIO_MMIO_MAGIC_VALUE;
  version ← read_reg VIRTIO_MMIO_VERSION;
  device ← read_reg VIRTIO_MMIO_DEVICE_ID;
  vendor ← read_reg VIRTIO_MMIO_VENDOR_ID;
  if negb (magic =? 0x74726976) || negb (version =? 2) || negb (device =? 2) ||
     negb (vendor =? 0x554d4551)
  then panic "could not find virtio disk" else
  (* reset device *)
  write_reg VIRTIO_MMIO_STATUS 0 ;;
  let status := VIRTIO_CONFIG_S_ACKNOWLEDGE in
  write_reg VIRTIO_MMIO_STATUS status ;;
  let status := Z.lor status VIRTIO_CONFIG_S_DRIVER in
  write_reg VIRTIO_MMIO_STATUS status ;;
  (* negotiate features *)
  features ← read_reg VIRTIO_MMIO_DEVICE_FEATURES;
  let features := clear_feature features VIRTIO_BLK_F_RO in
  let features := clear_feature features VIRTIO_BLK_F_SCSI in
  let features := clear_feature features VIRTIO_BLK_F_CONFIG_WCE in
  let features := clear_feature features VIRTIO_BLK_F_MQ in
  let features := clear_feature features VIRTIO_F_ANY_LAYOUT in
  let features := clear_feature features VIRTIO_RING_F_EVENT_IDX in
  let features := clear_feature features VIRTIO_RING_F_INDIRECT_DESC in
  write_reg VIRTIO_MMIO_DRIVER_FEATURES features ;;
  (* tell device that feature negotiation is complete. *)
  write_reg VIRTIO_MMIO_STATUS (Z.lor status VIRTIO_CONFIG_S_FEATURES_OK) ;;
  (* re-read status to ensure FEATURES_OK is set. *)
  status ← read_reg VIRTIO_MMIO_STATUS;
  if Z.land status VIRTIO_CONFIG_S_FEATURES_OK =? 0 then panic "virtio disk FEATURES_OK unset" else
  (* initialize queue 0. *)
  write_reg VIRTIO_MMIO_QUEUE_SEL 0 ;;
  ready ← read_reg VIRTIO_MMIO_QUEUE_READY;
  if truthy ready then panic "virtio disk should not be ready" else
  max ← read_reg VIRTIO_MMIO_QUEUE_NUM_MAX;
  if max =? 0 then panic "virtio disk has no queue 0" else
  if max <? NUM then panic "virtio disk max queue too short" else
  (* allocate and zero queue memory. *)
  desc ← kalloc;
  avail ← kalloc;
  used ← kalloc;
  vd_set (λ d, d <| vd_pages := (desc, avail, used) |>) ;;
  if (desc =? 0) || (avail =? 0) || (used =? 0) then panic "virtio disk kalloc" else
  kmemset desc 0 PGSIZE ;;
  kmemset avail 0 PGSIZE ;;
  kmemset used 0 PGSIZE ;;
  vd_set (λ d, d <| vd_desc := replicate 8 zero_desc |>
                 <| vd_avail_idx := 0 |> <| vd_avail_ring := replicate 8 0 |>
                 <| vd_used_idx_dev := 0 |> <| vd_used_ring := replicate 8 0 |>) ;;
  (* set queue size. *)
  write_reg VIRTIO_MMIO_QUEUE_NUM NUM ;;
  (* write physical addresses. *)
  write_reg VIRTIO_MMIO_QUEUE_DESC_LOW desc ;;
  write_reg VIRTIO_MMIO_QUEUE_DESC_HIGH (Z.shiftr desc 32) ;;
  write_reg VIRTIO_MMIO_DRIVER_DESC_LOW avail ;;
  write_reg VIRTIO_MMIO_DRIVER_DESC_HIGH (Z.shiftr avail 32) ;;
  write_reg VIRTIO_MMIO_DEVICE_DESC_LOW used ;;
  write_reg VIRTIO_MMIO_DEVICE_DESC_HIGH (Z.shiftr used 32) ;;
  (* queue is ready. *)
  write_reg VIRTIO_MMIO_QUEUE_READY 1 ;;
  (* all NUM descriptors start out unused. *)
  for_each (seq 0 8) (λ i, vd_set (λ d, d <| vd_free ::= <[ i := 1 ]> |>)) ;;
  (* tell device we're completely ready. *)
  write_reg VIRTIO_MMIO_STATUS (Z.lor status VIRTIO_CONFIG_S_DRIVER_OK).

(** Find a free descriptor, mark it non-free, return its index. *)
Definition alloc_desc : M kernel Z :=
  r ← for_find (seq 0 8) (λ i,
    f ← gets (λ k, vd_free (k_vdisk k) !!! i);
    if truthy f then
      vd_set (λ d, d <| vd_free ::= <[ i := 0 ]> |>) ;;
      mret (Some (Z.of_nat i))
    else mret None);
  mret (default (-1) r).

Definition desc_set (i : Z) (f : virtq_desc → virtq_desc) : M kernel unit :=
  vd_set (λ d, d <| vd_desc ::= alter f (Z.to_nat i) |>).

(** Mark a descriptor as free. *)
Definition free_desc (i : Z) : M kernel unit :=
  if NUM <=? i then panic "free_desc 1" else
  f ← deref "disk.free" (λ k, if i <? 0 then None else vd_free (k_vdisk k) !! Z.to_nat i);
  if truthy f then panic "free_desc 2" else
  desc_set i (λ d, d <| d_addr := Dma_null |>) ;;
  desc_set i (λ d, d <| d_len := 0 |>) ;;
  desc_set i (λ d, d <| d_flags := 0 |>) ;;
  desc_set i (λ d, d <| d_next := 0 |>) ;;
  vd_set (λ d, d <| vd_free ::= <[ Z.to_nat i := 1 ]> |>) ;;
  wakeup Ch_disk_free.

(** The body of free_chain()'s [while(1)]. *)
Definition free_chain_body (i : Z) : M kernel (Z + unit) :=
  d ← deref "disk.desc" (λ k, vd_desc (k_vdisk k) !! Z.to_nat i);
  let flag := d_flags d in
  let nxt := d_next d in
  free_desc i ;;
  if truthy (Z.land flag VRING_DESC_F_NEXT) then mret (inl nxt) else mret (inr tt).

(** A chain has at most NUM descriptors: a descriptor freed twice panics. *)
Definition free_chain (i : Z) : M kernel unit := while_fuel 9 free_chain_body i.

(** Allocate three descriptors (they need not be contiguous). *)
Definition alloc3_desc : M kernel (option (Z * Z * Z)) :=
  i0 ← alloc_desc;
  if i0 <? 0 then mret None else
  i1 ← alloc_desc;
  if i1 <? 0 then free_desc i0 ;; mret None else
  i2 ← alloc_desc;
  if i2 <? 0 then free_desc i0 ;; free_desc i1 ;; mret None else
  mret (Some (i0, i1, i2)).

(** [while(1)] around alloc3_desc(). *)
Definition alloc3_wait (_ : unit) : M kernel (unit + Z * Z * Z) :=
  r ← alloc3_desc;
  match r with
  | Some idx => mret (inr idx)
  | None => sleep Ch_disk_free L_vdisk ;; mret (inl tt)
  end.

(** [while(b->disk == 1)] *)
Definition disk_wait (b : nat) (_ : unit) : M kernel (unit + unit) :=
  x ← buf_get b;
  if b_disk x =? 1 then sleep (Ch_buf b) L_vdisk ;; mret (inl tt) else mret (inr tt).

(** Format the three descriptors of a request. *)
Definition format_request (b : nat) (write : bool) (sector i0 i1 i2 : Z) : M kernel unit :=
  vd_set (λ d, d <| vd_ops ::= <[ Z.to_nat i0 :=
    BlkReq (if write then VIRTIO_BLK_T_OUT else VIRTIO_BLK_T_IN) 0 sector ]> |>) ;;
  desc_set i0 (λ d, d <| d_addr := Dma_op i0 |>) ;;
  desc_set i0 (λ d, d <| d_len := 16 |>) ;;
  desc_set i0 (λ d, d <| d_flags := VRING_DESC_F_NEXT |>) ;;
  desc_set i0 (λ d, d <| d_next := u16 i1 |>) ;;
  desc_set i1 (λ d, d <| d_addr := Dma_data b |>) ;;
  desc_set i1 (λ d, d <| d_len := BSIZE |>) ;;
  desc_set i1 (λ d, d <| d_flags := if write then 0 else VRING_DESC_F_WRITE |>) ;;
  desc_set i1 (λ d, d <| d_flags ::= Z.lor VRING_DESC_F_NEXT |>) ;;
  desc_set i1 (λ d, d <| d_next := u16 i2 |>) ;;
  vd_set (λ d, d <| vd_info ::= alter (λ x, x <| in_status := 0xff |>) (Z.to_nat i0) |>) ;;
  desc_set i2 (λ d, d <| d_addr := Dma_status i0 |>) ;;
  desc_set i2 (λ d, d <| d_len := 1 |>) ;;
  desc_set i2 (λ d, d <| d_flags := VRING_DESC_F_WRITE |>) ;;
  desc_set i2 (λ d, d <| d_next := 0 |>).

Definition virtio_disk_rw (b : nat) (write : bool) : M kernel unit :=
  x ← buf_get b;
  let sector := u32 (b_blockno x * (BSIZE / 512)) in
  acquire L_vdisk ;;
  w ← waits_left;
  idx ← while_fuel (S w) alloc3_wait tt;
  let '(i0, i1, i2) := idx in
  format_request b write sector i0 i1 i2 ;;
  (* record struct buf for virtio_disk_intr(). *)
  buf_set b (λ x, x <| b_disk := 1 |>) ;;
  vd_set (λ d, d <| vd_info ::= alter (λ x, x <| in_b := Some b |>) (Z.to_nat i0) |>) ;;
  (* tell the device the first index in our chain of descriptors. *)
  vd_set (λ d, d <| vd_avail_ring ::= <[ Z.to_nat (vd_avail_idx d mod NUM) := i0 ]> |>) ;;
  (* tell the device another avail ring entry is available. *)
  vd_set (λ d, d <| vd_avail_idx := u16 (vd_avail_idx d + 1) |>) ;;
  write_reg VIRTIO_MMIO_QUEUE_NOTIFY 0 ;;
  (* Wait for virtio_disk_intr() to say request has finished. *)
  w1 ← waits_left;
  while_fuel (S w1) (disk_wait b) tt ;;
  vd_set (λ d, d <| vd_info ::= alter (λ x, x <| in_b := None |>) (Z.to_nat i0) |>) ;;
  free_chain i0 ;;
  release L_vdisk.

(** [while(disk.used_idx != disk.used->idx)] *)
Definition intr_body (_ : unit) : M kernel (unit + unit) :=
  d ← gets k_vdisk;
  if vd_used_idx d =? vd_used_idx_dev d then mret (inr tt) else
  let id := vd_used_ring d !!! Z.to_nat (vd_used_idx d mod NUM) in
  info ← deref "disk.info" (λ k, vd_info (k_vdisk k) !! Z.to_nat id);
  if truthy (in_status info) then panic "virtio_disk_intr status" else
  b ← deref "null" (λ _, in_b info);
  buf_set b (λ x, x <| b_disk := 0 |>) ;;
  wakeup (Ch_buf b) ;;
  vd_set (λ d, d <| vd_used_idx := u16 (vd_used_idx d + 1) |>) ;;
  mret (inl tt).

(** The number of entries the device has added since the last look is
    [used->idx - used_idx], in 16 bits. *)
Definition virtio_disk_intr : M kernel unit :=
  acquire L_vdisk ;;
  st ← read_reg VIRTIO_MMIO_INTERRUPT_STATUS;
  write_reg VIRTIO_MMIO_INTERRUPT_ACK (Z.land st 0x3) ;;
  n ← gets (λ k, Z.to_nat (u16 (vd_used_idx_dev (k_vdisk k) - vd_used_idx (k_vdisk k))));
  while_fuel (S n) intr_body tt ;;
  release L_vdisk.

#[global] Instance virtio_disk : Disk := virtio_disk_rw.
End virtio.
