(* ===== verification/Crash.v ===== *)
(** * Reasoning about code that waits for the disk

    File system code of one process waits only for the disk.  [runs n P m Q C]
    is a total-correctness triple with a crash condition, in a schedule whose
    every step serves the disk: from a state satisfying [P], [m] returns a
    result satisfying [Q] after at most [n] waits, and if the machine stops
    while it waits, the state it is left in satisfies [C].  Since a
    computation whose schedule ends early is left waiting, the states [C]
    speaks of are exactly those in which power can fail between two disk
    requests.

    [DiskSpec] is what the layers above rely on in the disk driver. *)

From S2P Require Import Prelude KMonad Memory Riscv State Spinlock Kalloc Vm Sched Sleeplock.
From S2P Require Import Bio.

(** Two states that differ in other processes and the driver's bookkeeping only. *)
Definition env_forget (k : kernel) : kernel := k <| k_procs := [] |> <| k_vdisk := zero_vdisk |>.
Definition env_eq (k k' : kernel) : Prop := env_forget k = env_forget k'.

#[export] Instance env_eq_equivalence : Equivalence env_eq.
Proof. unfold env_eq. split; congruence. Qed.

(** What one request does: the block at the buffer's number is written from
    the buffer, or read into it. *)
Definition rw_effect (b : nat) (write : bool) (k : kernel) : kernel :=
  match k_bufs k !! b with
  | None => k
  | Some x =>
      if write then k <| k_disk ::= <[ b_blockno x := b_data x ]> |>
      else k <| k_bufs ::= alter (λ x, x <| b_data := disk_block k (b_blockno x) |>) b |>
  end.

#[export] Instance rw_effect_proper b w : Proper (env_eq ==> env_eq) (rw_effect b w).
Proof.
  assert (Hf : ∀ k, env_forget (rw_effect b w k) = rw_effect b w (env_forget k)).
  { intros k. unfold rw_effect. cbn. destruct (k_bufs k !! b); [|done]. by destruct w. }
  intros k k' H. unfold env_eq in *. by rewrite !Hf, H.
Qed.

(** A request the driver accepts. *)
Record rw_ok (p : nat) (pid : Z) (b : nat) (k : kernel) : Prop := {
  rw_thread : kernel_thread p pid k;
  rw_b : (b < NBUF)%nat;
  rw_buf : ∃ x, k_bufs k !! b = Some x ∧ b_disk x = 0 ∧ 0 ≤ b_blockno x < 2 ^ 31;
}.

Class DiskSpec (D : Disk) (p : nat) (pid : Z) := {
  (** the driver has no request outstanding *)
  disk_ready : kernel → Prop;
  (** a step of the rest of the machine during which the disk serves the
      request of process [p] and the process is scheduled again *)
  disk_env : (kernel → kernel) → Prop;
  disk_ready_ext : ∀ k k', disk_ready k → k_vdisk k' = k_vdisk k → disk_ready k';
  disk_rw_spec : ∀ b w ks k,
    rw_ok p pid b k → disk_ready k → Forall disk_env ks →
    match disk_rw b w ks k with
    | Ok _ ks' k' => ∃ f, ks = f :: ks' ∧ env_eq (rw_effect b w k) k' ∧ kernel_thread p pid k' ∧
        disk_ready k'
    | Blocked k' => ks = [] ∧ k_disk k' = k_disk k
    | _ => False
    end;
}.

Section triple.
Context {D : Disk} {p : nat} {pid : Z} {DS : DiskSpec D p pid}.

Definition runs {A} (n : nat) (P : kernel → Prop) (m : M kernel A) (Q : A → kernel → Prop)
    (C : kernel → Prop) : Prop :=
  ∀ ks k, Forall disk_env ks → P k →
  match m ks k with
  | Ok a ks' k' => Q a k' ∧ Forall disk_env ks' ∧ (length ks ≤ length ks' + n)%nat
  | Blocked k' => C k' ∧ (length ks < n)%nat
  | _ => False
  end.

Lemma runs_bind {A B} n1 n2 P (m : M kernel A) Q (f : A → M kernel B) R C :
  runs n1 P m Q C → (∀ a, runs n2 (Q a) (f a) R C) → runs (n1 + n2) P (m ≫= f) R C.
Proof.
  intros Hm Hf ks k Hks HP. specialize (Hm ks k Hks HP). rewrite bind_run.
  destruct (m ks k) as [a ks' k'| | |k'|]; try done.
  - destruct Hm as (HQ & Hks' & Hl). specialize (Hf a ks' k' Hks' HQ).
    destruct (f a ks' k') as [b ks2 k2| | |k2|]; try done.
    + destruct Hf as (HR & Hks2 & Hl2). split; [done|]. split; [done|]. lia.
    + destruct Hf as [HC Hl2]. split; [done|]. lia.
  - destruct Hm as [HC Hl]. split; [done|]. lia.
Qed.

Lemma runs_conseq {A} n n' P P' (m : M kernel A) Q Q' C C' :
  runs n P m Q C → (n ≤ n')%nat → (∀ k, P' k → P k) → (∀ a k, Q a k → Q' a k) →
  (∀ k, C k → C' k) → runs n' P' m Q' C'.
Proof.
  intros Hm Hn HP HQ HC ks k Hks Hk. specialize (Hm ks k Hks (HP k Hk)).
  destruct (m ks k); try done; [destruct Hm as (?&?&?)|destruct Hm as (?&?)];
    repeat split; auto; lia.
Qed.

Lemma runs_pre {A} n P P' (m : M kernel A) Q C :
  (∀ k, P' k → P k) → runs n P m Q C → runs n P' m Q C.
Proof. intros HP Hm ks k Hks Hk. exact (Hm ks k Hks (HP k Hk)). Qed.

(** What the precondition implies may be used. *)
Lemma runs_know {A} (φ : Prop) n P (m : M kernel A) Q C :
  (∀ k, P k → φ) → (φ → runs n P m Q C) → runs n P m Q C.
Proof. intros HP Hm ks k Hks Hk. exact (Hm (HP k Hk) ks k Hks Hk). Qed.

(** Code that does not wait. *)
Lemma runs_step {A} (P : kernel → Prop) (m : M kernel A) (Q : A → kernel → Prop) C :
  (∀ ks k, P k → ∃ a k', m ks k = Ok a ks k' ∧ Q a k') → runs 0 P m Q C.
Proof.
  intros H ks k Hks HP. destruct (H ks k HP) as (a & k' & -> & HQ).
  split; [done|]. split; [done|]. lia.
Qed.

Lemma runs_ret {A} (a : A) (Q : A → kernel → Prop) C : runs 0 (Q a) (mret a) Q C.
Proof. apply runs_step. intros ks k HQ. by exists a, k. Qed.

(** A precondition may be taken apart. *)
Lemma runs_exists {A X} n (P : X → kernel → Prop) (m : M kernel A) Q C :
  (∀ x, runs n (P x) m Q C) → runs n (λ k, ∃ x, P x k) m Q C.
Proof. intros H ks k Hks [x Hx]. by apply (H x). Qed.

Lemma runs_or {A} n P1 P2 (m : M kernel A) Q C :
  runs n P1 m Q C → runs n P2 m Q C → runs n (λ k, P1 k ∨ P2 k) m Q C.
Proof. intros H1 H2 ks k Hks [Hk|Hk]; [by apply H1|by apply H2]. Qed.

Lemma runs_pure {A} n (φ : Prop) P (m : M kernel A) Q C :
  (φ → runs n P m Q C) → runs n (λ k, φ ∧ P k) m Q C.
Proof. intros H ks k Hks [Hφ Hk]. by apply (H Hφ). Qed.

(** The crash condition may use that nothing has happened yet. *)
Lemma runs_when n b P (m : M kernel unit) Q C :
  (b = true → runs n P m (λ _, Q) C) → (b = false → ∀ k, P k → Q k) → runs n P (when b m) (λ _, Q) C.
Proof.
  intros H1 H2. destruct b; [by apply H1|]. cbn.
  apply (runs_conseq 0 n Q P (mret tt) (λ _, Q) (λ _, Q) C C); try done; [|lia|auto].
  apply (runs_ret tt (λ _, Q)).
Qed.

(** Loops: [I j] holds when the first [j] elements are done. *)
Lemma runs_for_each {X} n (l : list X) (body : X → M kernel unit) (I : nat → kernel → Prop) C :
  (∀ j x, l !! j = Some x → runs n (I j) (body x) (λ _, I (S j)) C) →
  runs (length l * n) (I 0%nat) (for_each l body) (λ _, I (length l)) C.
Proof.
  revert I. induction l as [|x l IH]; intros I H.
  - apply (runs_ret tt (λ _, I 0%nat)).
  - cbn [for_each length Nat.mul]. apply (runs_bind n (length l * n) _ _ (λ _, I 1%nat)).
    + by apply (H 0%nat).
    + intros _. apply (IH (λ j, I (S j))). intros j y Hy. by apply (H (S j)).
Qed.

(** Searches: [I j] holds when the first [j] elements have not returned. *)
Lemma runs_for_find {X A} n (l : list X) (body : X → M kernel (option A)) (I : nat → kernel → Prop)
    (Q : A → kernel → Prop) C :
  (∀ j x, l !! j = Some x →
     runs n (I j) (body x) (λ r k, match r with Some a => Q a k | None => I (S j) k end) C) →
  runs (length l * n) (I 0%nat) (for_find l body)
    (λ r k, match r with Some a => Q a k | None => I (length l) k end) C.
Proof.
  revert I. induction l as [|x l IH]; intros I H.
  - apply (runs_ret None (λ r k, match r with Some a => Q a k | None => I 0%nat k end)).
  - cbn [for_find length Nat.mul].
    apply (runs_bind n (length l * n) _ _ (λ r k, match r with Some a => Q a k | None => I 1%nat k end)).
    + by apply (H 0%nat).
    + intros [a|]; [|apply (IH (λ j, I (S j))); intros j y Hy; by apply (H (S j))].
      eapply (runs_conseq 0); [apply (runs_ret (Some a) (λ r k, match r with Some a => Q a k | None => False end))|lia|done| |].
      * by intros [b|] k Hk.
      * intros k Hk. exact Hk.
Qed.

(** Loops with a condition: [I a] holds before each turn, and [meas a] bounds
    the turns left. *)
Lemma runs_while {A B} n (meas : A → nat) (body : A → M kernel (A + B)) (I : A → kernel → Prop)
    (Q : B → kernel → Prop) C :
  (∀ a, runs n (I a) (body a) (λ r k, match r with
     | inl a' => (meas a' < meas a)%nat ∧ I a' k
     | inr b => Q b k
     end) C) →
  ∀ fuel a, (meas a < fuel)%nat → runs (fuel * n) (I a) (while_fuel fuel body a) Q C.
Proof.
  intros Hbody. induction fuel as [|fuel IH]; intros a Ha; [lia|]. cbn [while_fuel Nat.mul].
  eapply runs_bind; [apply Hbody|]. intros [a'|b]; cbn beta iota.
  - apply runs_pure. intros Hlt. apply IH. lia.
  - eapply (runs_conseq 0); [apply (runs_ret b Q)|lia|done|done|]. intros k Hk. exact Hk.
Qed.
End triple.
