(* ===== verification/VirtioSpec.v ===== *)
(** * The disk driver implements the interface of the buffer cache

    [rest_of_machine] is what happens while a process waits in
    virtio_disk_rw(): the scheduler gives up the process, the device serves
    the request it finds in the available ring, virtio_disk_intr() runs, and
    the scheduler picks the process again.  With it, a request is exactly the
    transfer of one block ([disk_rw_spec] of [DiskSpec]). *)

From S2P Require Import Prelude KMonad Memory Riscv State Spinlock Kalloc Vm Sched Sleeplock.
From S2P Require Import Bio Virtio Crash.

(** ** The machine across sleep() *)

Lemma pop_offed_locks m L : pop_offed (m <| m_locks := L |>) = (pop_offed m) <| m_locks := L |>.
Proof. unfold pop_offed. cbn. change (this_cpu (m <| m_locks := L |>)) with (this_cpu m). by destruct (_ && _). Qed.

Lemma push_offed_locks m L : push_offed (m <| m_locks := L |>) = (push_offed m) <| m_locks := L |>.
Proof. done. Qed.

Section machine.
Context (m : machine) (Hm : machine_ok m) (Hn : c_noff (this_cpu m) = 0) (Hs : settle m = m).

Lemma sleep_machine_thread lk p :
  lock_free lk m → lock_free (L_proc p) m → lk ≠ L_proc p →
  sleep_machine lk p (take_lock lk m) = take_lock (L_proc p) m.
Proof.
  intros [n1 H1] [n2 H2] Hne. unfold sleep_machine, drop_lock, take_lock.
  match goal with |- pop_offed ?M = ?T =>
    set (M1 := M); transitivity ((pop_offed (push_offed (push_offed m))) <| m_locks := m_locks M1 |>) end.
  - rewrite <- pop_offed_locks. done.
  - rewrite pop_push by (by apply machine_ok_push).
    rewrite settle_nested by (rewrite this_cpu_push by done; cbn; lia).
    unfold M1. cbn. unfold lock_get. cbn. rewrite H1. cbn. f_equal.
    rewrite (lookup_insert_ne _ (L_proc p) lk) by done. rewrite lookup_insert_eq. cbn.
    rewrite (lookup_insert_ne _ lk (L_proc p)) by done. rewrite H2. cbn.
    rewrite insert_insert_ne by done. rewrite insert_insert_eq.
    rewrite (insert_id (m_locks m) lk (Spinlock 0 n1 None)) by done.
    reflexivity.
Qed.
End machine.

(** ** The current process of a cpu *)

Definition with_proc (o : option nat) (m : machine) : machine :=
  m <| m_cpus ::= alter (λ x, x <| c_proc := o |>) (hart_id m) |>.

Section with_proc.
Context (m : machine) (Hm : machine_ok m).

Lemma this_cpu_with_proc o : this_cpu (with_proc o m) = (this_cpu m) <| c_proc := o |>.
Proof. apply list_alter_total. by apply hart_id_lt. Qed.

Lemma machine_ok_with_proc o : machine_ok (with_proc o m).
Proof. by apply (alter_cpu_ok (λ x, x <| c_proc := o |>) m Hm). Qed.

Lemma with_proc_take o lk : take_lock lk (with_proc o m) = with_proc o (take_lock lk m).
Proof.
  unfold take_lock, with_proc, push_offed. cbn. f_equal. rewrite !list_alter_alter.
  apply list_alter_ext_at. done.
Qed.

Lemma with_proc_settle o : settle (with_proc o m) = with_proc o (settle m).
Proof.
  unfold settle. rewrite this_cpu_with_proc. cbn. destruct (_ =? 0); [|done].
  unfold with_proc. cbn. f_equal. rewrite !list_alter_alter. by apply list_alter_ext_at.
Qed.

Lemma with_proc_with_proc o o' : with_proc o (with_proc o' m) = with_proc o m.
Proof. unfold with_proc. cbn. change (hart_id _) with (hart_id m). by rewrite list_alter_alter. Qed.

Lemma with_proc_id : with_proc (c_proc (this_cpu m)) m = m.
Proof.
  assert (E : alter (λ x, x <| c_proc := c_proc (this_cpu m) |>) (hart_id m) (m_cpus m) = m_cpus m).
  { apply list_alter_id_at. change (m_cpus m !!! hart_id m) with (this_cpu m). by destruct (this_cpu m). }
  unfold with_proc. destruct m. cbn in *. by rewrite E.
Qed.
End with_proc.

(** ** The device and the rest of the machine *)

(** The device serves the oldest available request it has not served yet. *)
Definition device_step (k : kernel) : kernel :=
  let d := k_vdisk k in
  if vd_avail_idx d =? vd_used_idx_dev d then k else
  let slot := Z.to_nat (vd_used_idx_dev d mod NUM) in
  let head := vd_avail_ring d !!! slot in
  let d0 := vd_desc d !!! Z.to_nat head in
  let d1 := vd_desc d !!! Z.to_nat (d_next d0) in
  let d2 := vd_desc d !!! Z.to_nat (d_next d1) in
  match d_addr d0, d_addr d1, d_addr d2 with
  | Dma_op i, Dma_data b, Dma_status j =>
      let op := vd_ops d !!! Z.to_nat i in
      let bno := q_sector op / (BSIZE / 512) in
      let k1 :=
        if q_type op =? VIRTIO_BLK_T_OUT
        then k <| k_disk ::= <[ bno := b_data (k_bufs k !!! b) ]> |>
        else k <| k_bufs ::= alter (λ x, x <| b_data := disk_block k bno |>) b |> in
      k1 <| k_vdisk ::= λ d, d
        <| vd_info ::= alter (λ x, x <| in_status := 0 |>) (Z.to_nat j) |>
        <| vd_used_ring ::= <[ slot := head ]> |>
        <| vd_used_idx_dev := u16 (vd_used_idx_dev d + 1) |> |>
  | _, _, _ => k
  end.

Section rest.
Context `{KI : KernelImage} (p : nat).

Definition rest_of_machine : M kernel unit :=
  (* scheduler() after swtch() *)
  c ← mycpu;
  cpu_set c (λ x, x <| c_proc := None |>) ;;
  release (L_proc p) ;;
  (* the device, and its interrupt *)
  modify device_step ;;
  virtio_disk_intr ;;
  (* scheduler() up to swtch() *)
  acquire (L_proc p) ;;
  pr ← proc_get p;
  when (bool_decide (p_state pr = RUNNABLE))
    (proc_set p (λ x, x <| p_state := RUNNING |>) ;;
     cpu_set c (λ x, x <| c_proc := Some p |>)).

Definition serve (k : kernel) : kernel :=
  match rest_of_machine [] k with
  | Ok _ _ k' => k'
  | _ => k
  end.
End rest.

(** ** Submitting a request *)

Record vd_ready (d : vdisk) : Prop := {
  vr_free : vd_free d = replicate 8 1;
  vr_desc : length (vd_desc d) = 8%nat;
  vr_info : length (vd_info d) = 8%nat;
  vr_ops : length (vd_ops d) = 8%nat;
  vr_avail : length (vd_avail_ring d) = 8%nat;
  vr_used : length (vd_used_ring d) = 8%nat;
  vr_idx : vd_avail_idx d = vd_used_idx_dev d ∧ vd_used_idx d = vd_used_idx_dev d;
  vr_range : 0 ≤ vd_used_idx_dev d < 2 ^ 16;
}.

(** The first [i] descriptors are in use. *)
Definition free_after (i : nat) : list Z := replicate i 0 ++ replicate (8 - i) 1.

Lemma alloc_desc_run i ks k :
  (i ≤ 2)%nat → vd_free (k_vdisk k) = free_after i →
  alloc_desc ks k = Ok (Z.of_nat i) ks (k <| k_vdisk ::= λ d, d <| vd_free := free_after (S i) |> |>).
Proof.
  intros Hi Hf. unfold alloc_desc. rewrite bind_run.
  assert (Hseq : seq 0 8 = seq 0 i ++ i :: seq (S i) (7 - i)) by (by destruct i as [|[|[|]]]; [..|lia]).
  rewrite Hseq, (for_find_at _ _ _ _ _ _ (Z.of_nat i) (k <| k_vdisk ::= λ d, d <| vd_free := free_after (S i) |> |>)); [done| |].
  - intros j Hj. apply elem_of_seq in Hj. rewrite bind_run. cbn [gets]. rewrite Hf.
    assert (free_after i !!! j = 0) as ->; [|done].
    by destruct i as [|[|[|]]], j as [|[|]]; cbn in *; lia || done.
  - rewrite bind_run. cbn [gets]. rewrite Hf. assert (free_after i !!! i = 1) as ->.
    { by destruct i as [|[|[|]]]; [..|lia]. }
    cbn [truthy Z.eqb negb]. rewrite bind_run. unfold vd_set, modify. rewrite ret_run. f_equal.
    destruct k, k_vdisk. cbn in *. subst. by destruct i as [|[|[|]]]; [..|lia].
Qed.

Lemma alloc3_run ks k :
  vd_free (k_vdisk k) = free_after 0 →
  alloc3_desc ks k = Ok (Some (0, 1, 2)) ks (k <| k_vdisk ::= λ d, d <| vd_free := free_after 3 |> |>).
Proof.
  intros Hf. unfold alloc3_desc. rewrite bind_run, (alloc_desc_run 0) by (done || lia). change (Z.of_nat 0 <? 0) with false. cbv beta iota.
  rewrite bind_run, (alloc_desc_run 1) by (done || lia). change (Z.of_nat 1 <? 0) with false. cbv beta iota.
  rewrite bind_run, (alloc_desc_run 2) by (done || lia). done.
Qed.

(** The request in the descriptor table and the available ring. *)
Definition submitted (b : nat) (write : bool) (sector : Z) (d : vdisk) : vdisk :=
  Vdisk
    ([Desc (Dma_op 0) 16 VRING_DESC_F_NEXT 1;
      Desc (Dma_data b) BSIZE (Z.lor VRING_DESC_F_NEXT (if write then 0 else VRING_DESC_F_WRITE)) 2;
      Desc (Dma_status 0) 1 VRING_DESC_F_WRITE 0] ++ drop 3 (vd_desc d))
    (u16 (vd_avail_idx d + 1))
    (<[ Z.to_nat (vd_avail_idx d mod NUM) := 0 ]> (vd_avail_ring d))
    (vd_used_idx_dev d) (vd_used_ring d) (free_after 3) (vd_used_idx d)
    (DiskInfo (Some b) 0xff :: drop 1 (vd_info d))
    (BlkReq (if write then VIRTIO_BLK_T_OUT else VIRTIO_BLK_T_IN) 0 sector :: drop 1 (vd_ops d))
    (vd_pages d) (<[ VIRTIO_MMIO_QUEUE_NOTIFY := u32 0 ]> (vd_regs d)).

Lemma submit_run `{KI : KernelImage} {A} b w sector (m : M kernel A) ks k d :
  vd_ready d → k_vdisk k = d <| vd_free := free_after 3 |> →
  (format_request b w sector 0 1 2 ;;
   buf_set b (λ x, x <| b_disk := 1 |>) ;;
   vd_set (λ d, d <| vd_info ::= alter (λ x, x <| in_b := Some b |>) (Z.to_nat 0) |>) ;;
   vd_set (λ d, d <| vd_avail_ring ::= <[ Z.to_nat (vd_avail_idx d mod NUM) := 0 ]> |>) ;;
   vd_set (λ d, d <| vd_avail_idx := u16 (vd_avail_idx d + 1) |>) ;;
   write_reg VIRTIO_MMIO_QUEUE_NOTIFY 0 ;; m) ks k =
  m ks (k <| k_bufs ::= alter (λ x, x <| b_disk := 1 |>) b |> <| k_vdisk := submitted b w sector d |>).
Proof.
  intros [H1 H2 H3 H4 _ _ _ _] Hk. destruct d as [ds ai ar uid ur fr ui inf ops pg rg]. cbn in *.
  destruct ds as [|d0 [|d1 [|d2 ds]]]; try done. destruct inf as [|i0 inf]; [done|]. destruct ops as [|o0 ops]; [done|].
  destruct k. cbn in *. subst. destruct d0, d1, d2, i0, o0, w; reflexivity.
Qed.

(** ** Serving it *)

(** The driver's data when the device is done. *)
Definition device_done (b : nat) (write : bool) (sector : Z) (d : vdisk) : vdisk :=
  (submitted b write sector d)
    <| vd_info := DiskInfo (Some b) 0 :: drop 1 (vd_info d) |>
    <| vd_used_ring ::= <[ Z.to_nat (vd_used_idx_dev d mod NUM) := 0 ]> |>
    <| vd_used_idx_dev := u16 (vd_used_idx_dev d + 1) |>.

Lemma u16_next_ne z : 0 ≤ z < 2 ^ 16 → u16 (z + 1) ≠ z.
Proof.
  intros H. unfold u16. destruct (decide (z = 2 ^ 16 - 1)) as [->|]; [by vm_compute|].
  rewrite Z.mod_small by lia. lia.
Qed.

Lemma alter_buf_ext b x (f g : buf → buf) k :
  k_bufs k !! b = Some x → f x = g x → k <| k_bufs ::= alter f b |> = k <| k_bufs ::= alter g b |>.
Proof.
  intros Hx E. destruct k. cbn in *. f_equal. apply list_alter_ext_at.
  by rewrite (list_lookup_total_correct _ _ _ Hx).
Qed.

Lemma device_step_run b w x k d :
  vd_ready d → k_bufs k !! b = Some x → 0 ≤ b_blockno x < 2 ^ 31 →
  k_vdisk k = submitted b w (u32 (b_blockno x * (BSIZE / 512))) d →
  device_step k = (rw_effect b w k) <| k_vdisk := device_done b w (u32 (b_blockno x * (BSIZE / 512))) d |>.
Proof.
  intros Hr Hx Hb Hk. destruct (vr_idx _ Hr) as [Ha Hu]. pose proof (vr_range _ Hr) as Hrange.
  unfold device_step. rewrite Hk. cbn [submitted vd_avail_idx vd_used_idx_dev vd_avail_ring]. rewrite Ha.
  destruct (Z.eqb_spec (u16 (vd_used_idx_dev d + 1)) (vd_used_idx_dev d)) as [E|_]; [by apply u16_next_ne in E|].
  rewrite list_lookup_total_insert_eq.
  2:{ rewrite (vr_avail _ Hr). change NUM with 8. pose proof (Z.mod_pos_bound (vd_used_idx_dev d) 8). lia. }
  set (sector := u32 (b_blockno x * (BSIZE / 512))) in *.
  assert (Hsec : sector / (BSIZE / 512) = b_blockno x).
  { unfold sector. change (BSIZE / 512) with 2. rewrite u32_small by lia. apply Z.div_mul. lia. }
  assert (Hvd : ∀ k', k_vdisk k' = k_vdisk k →
    k' <| k_vdisk ::= λ d', d' <| vd_info ::= alter (λ x, x <| in_status := 0 |>) 0%nat |>
      <| vd_used_ring ::= <[ Z.to_nat (vd_used_idx_dev d mod NUM) := 0 ]> |>
      <| vd_used_idx_dev := u16 (vd_used_idx_dev d' + 1) |> |> =
    k' <| k_vdisk := device_done b w sector d |>).
  { intros k' Hk'. rewrite Hk in Hk'. destruct k'. cbn in *. by subst. }
  unfold rw_effect. rewrite Hx. destruct w.
  - rewrite <- Hvd by done. rewrite <- (list_lookup_total_correct _ _ _ Hx) at 2. rewrite <- Hsec. reflexivity.
  - rewrite <- Hvd by done. rewrite (alter_buf_ext b x _ (λ y, y <| b_data := disk_block k (sector / (BSIZE / 512)) |>) k Hx);
      [reflexivity|by rewrite Hsec].
Qed.

(** A cpu in its scheduler, holding no lock. *)
Record idle_cpu (m : machine) : Prop := {
  ic_ok : machine_ok m;
  ic_proc : c_proc (this_cpu m) = None;
  ic_noff : c_noff (this_cpu m) = 0;
  ic_settled : settle m = m;
  ic_locks : ∀ lk, static_lock lk → lock_free lk m;
}.

Lemma idle_locks m lk q : idle_cpu m → (∀ p, lk ≠ L_proc p) → (q < NPROC)%nat → lock_free (L_proc q) (take_lock lk m).
Proof.
  intros Hi Hne Hq. apply lock_free_take; [done|]. apply (ic_locks _ Hi). cbn. by rewrite bool_decide_eq_true_2.
Qed.

Section intr.
Context `{KI : KernelImage}.

(** One entry of the used ring. *)
Lemma intr_body_one b ks k m d :
  idle_cpu m → k_mach k = take_lock L_vdisk m → procs_ok k → k_vdisk k = d →
  vd_used_idx d ≠ vd_used_idx_dev d → vd_used_ring d !!! Z.to_nat (vd_used_idx d mod NUM) = 0 →
  vd_info d !! 0%nat = Some (DiskInfo (Some b) 0) →
  intr_body tt ks k = Ok (inl tt) ks (k <| k_bufs ::= alter (λ x, x <| b_disk := 0 |>) b |>
    <| k_procs ::= woken (Ch_buf b) None |> <| k_vdisk := d <| vd_used_idx := u16 (vd_used_idx d + 1) |> |>).
Proof.
  intros Hi Hm Hp Hd Hne Hring Hinfo. unfold intr_body. rewrite bind_run. cbn [gets]. rewrite Hd.
  rewrite (proj2 (Z.eqb_neq _ _)) by done. cbv zeta. rewrite Hring, bind_run. cbn [deref]. rewrite Hd.
  change (Z.to_nat 0) with 0%nat. rewrite Hinfo. cbn [truthy in_status Z.eqb negb]. rewrite bind_run. cbn [deref in_b].
  rewrite bind_run. cbn [buf_set modify]. rewrite bind_run.
  set (k1 := k <| k_bufs ::= alter (λ x, x <| b_disk := 0 |>) b |>).
  assert (Hm1 : machine_ok (k_mach k1)) by (cbn; rewrite Hm; by apply machine_ok_take, Hi).
  assert (Hset : settle (k_mach k1) = k_mach k1).
  { cbn. rewrite Hm. apply settle_nested. rewrite noff_take by apply Hi. rewrite (ic_noff _ Hi). lia. }
  rewrite (wakeup_run (Ch_buf b) None ks k1); [|done|cbn; rewrite Hm, c_proc_take by apply Hi; apply Hi| |done].
  - rewrite bind_run. unfold vd_set, modify. rewrite ret_run. f_equal.
    transitivity (k1 <| k_procs ::= woken (Ch_buf b) None |> <| k_vdisk := d <| vd_used_idx := u16 (vd_used_idx d + 1) |> |>
      <| k_mach := settle (k_mach k1) |>); [unfold k1; by rewrite <- Hd|]. rewrite Hset. unfold k1. by destruct k.
  - intros q Hq _. cbn. rewrite Hm. by apply idle_locks.
Qed.

Lemma u16_diff_one z : 0 ≤ z < 2 ^ 16 → u16 (u16 (z + 1) - z) = 1.
Proof.
  intros H. unfold u16. destruct (decide (z = 2 ^ 16 - 1)) as [->|]; [by vm_compute|].
  rewrite (Z.mod_small (z + 1)) by lia. replace (z + 1 - z) with 1 by lia. done.
Qed.

(** virtio_disk_intr() after the device has finished one request. *)
Lemma virtio_disk_intr_run b ks k d :
  idle_cpu (k_mach k) → procs_ok k → k_vdisk k = d →
  0 ≤ vd_used_idx d < 2 ^ 16 → vd_used_idx_dev d = u16 (vd_used_idx d + 1) →
  vd_used_ring d !!! Z.to_nat (vd_used_idx d mod NUM) = 0 → vd_info d !! 0%nat = Some (DiskInfo (Some b) 0) →
  ∃ regs, virtio_disk_intr ks k = Ok tt ks (k <| k_bufs ::= alter (λ x, x <| b_disk := 0 |>) b |>
    <| k_procs ::= woken (Ch_buf b) None |>
    <| k_vdisk := d <| vd_regs := regs |> <| vd_used_idx := vd_used_idx_dev d |> |>).
Proof.
  intros Hi Hp Hd Hr Hdev Hring Hinfo. unfold virtio_disk_intr.
  rewrite bind_run, acquire_run by (apply Hi; done || apply Hi). rewrite bind_run. unfold read_reg at 1. cbn [gets].
  set (v := u32 (mmio_read _ _)). rewrite bind_run. unfold write_reg at 1, vd_set at 1, modify at 1.
  set (regs := <[ VIRTIO_MMIO_INTERRUPT_ACK := u32 (Z.land v 3) ]> (vd_regs d)). exists regs.
  set (k1 := (k <| k_mach ::= take_lock L_vdisk |>) <| k_vdisk := d <| vd_regs := regs |> |>).
  replace (_ <| k_vdisk ::= _ |>) with k1 by (unfold k1, regs; by rewrite <- Hd).
  rewrite bind_run. cbn [gets].
  change (vd_used_idx_dev (k_vdisk k1)) with (vd_used_idx_dev d). change (vd_used_idx (k_vdisk k1)) with (vd_used_idx d).
  rewrite Hdev, u16_diff_one by done. change (Z.to_nat 1) with 1%nat. rewrite bind_run.
  set (d1 := d <| vd_regs := regs |>).
  cbn [while_fuel]. rewrite bind_run, (intr_body_one b ks k1 (k_mach k) d1); try done.
  - rewrite bind_run. unfold intr_body at 1. rewrite bind_run. cbn [gets].
    set (k2 := k1 <| k_bufs ::= _ |> <| k_procs ::= _ |> <| k_vdisk := _ |>).
    change (vd_used_idx (k_vdisk k2)) with (u16 (vd_used_idx d + 1)).
    change (vd_used_idx_dev (k_vdisk k2)) with (vd_used_idx_dev d). rewrite Hdev, Z.eqb_refl, !ret_run.
    rewrite (release_taken L_vdisk ks k2 (k_mach k)); [|apply Hi|by apply Hi|done].
    rewrite (ic_settled _ Hi). reflexivity.
  - change (vd_used_idx d ≠ vd_used_idx_dev d). rewrite Hdev. intros E. symmetry in E. by apply u16_next_ne in E.
Qed.

Lemma idle_with_proc p pid k : kernel_thread p pid k → idle_cpu (with_proc None (k_mach k)).
Proof.
  intros [H1 H2 H3 H4 H5 H6 H7]. split.
  - by apply machine_ok_with_proc.
  - by rewrite this_cpu_with_proc.
  - by rewrite this_cpu_with_proc.
  - by rewrite with_proc_settle, H4.
  - exact H5.
Qed.

(** What the waiting process finds when it is scheduled again. *)
Definition rested (b : nat) (w : bool) (k : kernel) (procs : list proc) (d : vdisk) : kernel :=
  (rw_effect b w k) <| k_bufs ::= alter (λ x, x <| b_disk := 0 |>) b |> <| k_procs := procs |> <| k_vdisk := d |>.

(** The scheduler picks the process again. *)
Lemma reschedule_run p m k pr ks :
  machine_ok m → c_proc (this_cpu m) = Some p → k_mach k = with_proc None m → idle_cpu (with_proc None m) →
  (p < NPROC)%nat → k_procs k !! p = Some pr → p_state pr = RUNNABLE →
  (acquire (L_proc p) ;;
   pr0 ← proc_get p;
   when (bool_decide (p_state pr0 = RUNNABLE))
     (proc_set p (λ x, x <| p_state := RUNNING |>) ;;
      cpu_set (hart_id m) (λ x, x <| c_proc := Some p |>))) ks k =
  Ok tt ks (k <| k_procs ::= alter (λ x, x <| p_state := RUNNING |>) p |> <| k_mach := take_lock (L_proc p) m |>).
Proof.
  intros Hm Hc Hk Hi Hp Hpr Hst. rewrite bind_run, acquire_run.
  - rewrite bind_run. unfold proc_get. cbn [deref]. cbn. rewrite Hpr, Hst. rewrite bool_decide_eq_true_2 by done. cbn [when].
    rewrite bind_run. cbn [proc_set cpu_set modify]. f_equal.
    assert (E : take_lock (L_proc p) m = with_proc (Some p) (take_lock (L_proc p) (k_mach k))).
    { rewrite Hk, <- with_proc_take by (by apply machine_ok_with_proc). rewrite with_proc_with_proc, <- Hc, with_proc_id by done. done. }
    rewrite E, Hk. done.
  - rewrite Hk. apply Hi.
  - rewrite Hk. apply Hi. cbn. by rewrite bool_decide_eq_true_2.
Qed.

Lemma serve_run p pid b w x k kS d sector :
  sector = u32 (b_blockno x * (BSIZE / 512)) → kernel_thread p pid k → (p < NPROC)%nat → vd_ready d →
  k_mach kS = take_lock (L_proc p) (k_mach k) → procs_ok kS → k_vdisk kS = submitted b w sector d →
  k_bufs kS !! b = Some x → 0 ≤ b_blockno x < 2 ^ 31 →
  (∃ pr, k_procs kS !! p = Some pr ∧ p_pid pr = pid ∧ p_state pr = SLEEPING ∧ p_chan pr = Some (Ch_buf b)) →
  ∃ procs regs, serve p kS = rested b w kS procs ((device_done b w sector d) <| vd_regs := regs |>
      <| vd_used_idx := u16 (vd_used_idx_dev d + 1) |>) ∧
    length procs = NPROC ∧ ∃ pr, procs !! p = Some pr ∧ p_pid pr = pid.
Proof.
  intros Hsec Ht Hp Hr Hm Hpr Hd Hx Hb (pr & Hpp & Hpid & Hst & Hch).
  pose proof (idle_with_proc p pid k Ht) as Hi. pose proof Ht as [T1 T2 T3 T4 T5 T6 T7].
  set (m0 := with_proc None (k_mach k)) in *.
  assert (Hlp : lock_free (L_proc p) m0) by (apply Hi; cbn; by rewrite bool_decide_eq_true_2).
  unfold serve, rest_of_machine.
  destruct (machine_ok_tp (k_mach kS)) as [Ht1 Ht2]; [rewrite Hm; by apply machine_ok_take|].
  rewrite bind_run, mycpu_run by done. rewrite bind_run. cbn [cpu_set modify].
  set (k1 := kS <| k_mach := take_lock (L_proc p) m0 |>).
  replace (_ <| k_mach ::= _ |>) with k1.
  2:{ unfold k1, m0. rewrite with_proc_take by done. rewrite <- Hm. done. }
  rewrite bind_run, (release_taken (L_proc p) [] k1 m0) by (try done; apply Hi). rewrite (ic_settled _ Hi).
  rewrite bind_run. cbn [modify]. set (k2 := k1 <| k_mach := m0 |>).
  rewrite (device_step_run b w x k2 d), <- Hsec by (done || by rewrite <- Hsec).
  set (k3 := (rw_effect b w k2) <| k_vdisk := device_done b w sector d |>).
  assert (Hk3 : k_mach k3 = m0 ∧ k_procs k3 = k_procs kS).
  { unfold k3, rw_effect. destruct (k_bufs k2 !! b); [|done]. by destruct w. }
  destruct Hk3 as [Hm3 Hp3]. destruct (vr_idx _ Hr) as [Ha Hu].
  destruct (virtio_disk_intr_run b [] k3 (device_done b w sector d)) as (regs & Hint).
  { by rewrite Hm3. }
  { unfold procs_ok in *. by rewrite Hp3. }
  { done. }
  { cbn. rewrite Hu. apply Hr. }
  { cbn. by rewrite Hu. }
  { cbn. rewrite Hu. apply list_lookup_total_insert_eq. rewrite (vr_used _ Hr). change NUM with 8.
    pose proof (Z.mod_pos_bound (vd_used_idx_dev d) 8). lia. }
  { done. }
  rewrite bind_run, Hint. clear Hint.
  assert (Hwk : woken (Ch_buf b) None (k_procs kS) !! p = Some (pr <| p_state := RUNNABLE |>)).
  { unfold woken. rewrite list_lookup_imap, Hpp. cbn. unfold wake1.
    by rewrite decide_False, !bool_decide_eq_true_2. }
  assert (Hhart : hart_id (k_mach kS) = hart_id (k_mach k)) by (by rewrite Hm). rewrite Hhart.
  assert (Hwk3 : woken (Ch_buf b) None (k_procs k3) !! p = Some (pr <| p_state := RUNNABLE |>)) by (by rewrite Hp3).
  rewrite (reschedule_run p (k_mach k) _ (pr <| p_state := RUNNABLE |>)) by done.
  exists (alter (λ x, x <| p_state := RUNNING |>) p (woken (Ch_buf b) None (k_procs kS))), regs. split; [|split].
  - unfold rested, k3, k2, k1, rw_effect. cbn. rewrite Hx, <- Hm. destruct w; cbn; rewrite ?Hp3; by destruct kS.
  - rewrite length_alter. unfold woken. by rewrite length_imap.
  - exists (pr <| p_state := RUNNING |>). by rewrite list_lookup_alter_eq, Hwk.
Qed.
End intr.

(** ** Completing the request *)

Section complete.
Context `{KI : KernelImage} (p : nat) (pid : Z) (k : kernel) (Hk : kernel_thread p pid k).

(** Inside the driver's critical section. *)
Definition in_driver (k1 : kernel) : Prop :=
  k_mach k1 = take_lock L_vdisk (k_mach k) ∧ length (k_procs k1) = NPROC ∧ p_pid <$> k_procs k1 !! p = Some pid.

Lemma woken_pid chan ps : p_pid <$> woken chan (Some p) ps !! p = p_pid <$> ps !! p.
Proof. unfold woken. rewrite list_lookup_imap. destruct (ps !! p); [|done]. cbn. by rewrite decide_True. Qed.

Lemma driver_wakeup chan ks k1 :
  in_driver k1 → wakeup chan ks k1 = Ok tt ks (k1 <| k_procs ::= woken chan (Some p) |>) ∧
  in_driver (k1 <| k_procs ::= woken chan (Some p) |>).
Proof.
  intros (Hm & Hl & Hp). pose proof Hk as [T1 T2 T3 T4 T5 T6 T7]. split.
  - rewrite (wakeup_run chan (Some p) ks k1).
    + f_equal. transitivity (k1 <| k_procs ::= woken chan (Some p) |> <| k_mach := settle (k_mach k1) |>); [done|].
      rewrite settle_nested by (rewrite Hm, noff_take by done; lia). by destruct k1.
    + rewrite Hm. by apply machine_ok_take.
    + by rewrite Hm, c_proc_take.
    + intros q Hq _. rewrite Hm. apply lock_free_take; [done|]. apply T5. cbn. by rewrite bool_decide_eq_true_2.
    + done.
  - split; [done|]. cbn. split; [unfold woken; by rewrite length_imap|by rewrite woken_pid].
Qed.

Definition cleared (i : nat) (d : vdisk) : vdisk :=
  d <| vd_desc ::= alter (λ _, Desc Dma_null 0 0 0) i |> <| vd_free ::= <[ i := 1 ]> |>.

Lemma free_desc_run i ks k1 :
  in_driver k1 → (i < 8)%nat → vd_free (k_vdisk k1) !! i = Some 0 →
  free_desc (Z.of_nat i) ks k1 =
    Ok tt ks (k1 <| k_vdisk ::= cleared i |> <| k_procs ::= woken Ch_disk_free (Some p) |>).
Proof.
  intros Hin Hi Hf. unfold free_desc. replace (NUM <=? Z.of_nat i) with false by (symmetry; apply Z.leb_gt; change NUM with 8; lia).
  rewrite bind_run. cbn [deref]. replace (Z.of_nat i <? 0) with false by (symmetry; apply Z.ltb_ge; lia).
  rewrite Nat2Z.id, Hf. cbn [truthy Z.eqb negb].
  unfold desc_set. rewrite Nat2Z.id.
  set (k2 := k1 <| k_vdisk ::= cleared i |>).
  assert (E : ∀ m : M kernel unit,
    (vd_set (λ d, d <| vd_desc ::= alter (λ d, d <| d_addr := Dma_null |>) i |>) ;;
     vd_set (λ d, d <| vd_desc ::= alter (λ d, d <| d_len := 0 |>) i |>) ;;
     vd_set (λ d, d <| vd_desc ::= alter (λ d, d <| d_flags := 0 |>) i |>) ;;
     vd_set (λ d, d <| vd_desc ::= alter (λ d, d <| d_next := 0 |>) i |>) ;;
     vd_set (λ d, d <| vd_free ::= <[ i := 1 ]> |>) ;; m) ks k1 = m ks k2).
  { intros m. do 5 (rewrite bind_run; cbn [vd_set modify]). f_equal. unfold k2, cleared. destruct k1; cbn. f_equal.
    destruct k_vdisk; cbn. f_equal. rewrite !list_alter_alter. by apply list_alter_ext. }
  rewrite E. by apply driver_wakeup.
Qed.

(** One descriptor of the chain. *)
Lemma free_chain_step i ks k1 dsc :
  in_driver k1 → (i < 8)%nat → vd_desc (k_vdisk k1) !! i = Some dsc → vd_free (k_vdisk k1) !! i = Some 0 →
  let k2 := k1 <| k_vdisk ::= cleared i |> <| k_procs ::= woken Ch_disk_free (Some p) |> in
  free_chain_body (Z.of_nat i) ks k1 =
    Ok (if truthy (Z.land (d_flags dsc) VRING_DESC_F_NEXT) then inl (d_next dsc) else inr tt) ks k2 ∧ in_driver k2.
Proof.
  intros Hin Hi Hd Hf k2. split.
  - unfold free_chain_body. rewrite bind_run. cbn [deref]. rewrite Nat2Z.id, Hd. cbv zeta.
    rewrite bind_run, free_desc_run by done. by destruct (truthy _).
  - apply (driver_wakeup Ch_disk_free ks (k1 <| k_vdisk ::= cleared i |>)). exact Hin.
Qed.

Definition chain_of (b : nat) (w : bool) (rest : list virtq_desc) : list virtq_desc :=
  [Desc (Dma_op 0) 16 VRING_DESC_F_NEXT 1;
   Desc (Dma_data b) BSIZE (Z.lor VRING_DESC_F_NEXT (if w then 0 else VRING_DESC_F_WRITE)) 2;
   Desc (Dma_status 0) 1 VRING_DESC_F_WRITE 0] ++ rest.

Lemma free_chain_run b w rest ks k1 d :
  in_driver k1 → k_vdisk k1 = d → vd_desc d = chain_of b w rest → vd_free d = free_after 3 →
  ∃ procs, free_chain 0 ks k1 = Ok tt ks (k1 <| k_vdisk := d
      <| vd_desc := replicate 3 (Desc Dma_null 0 0 0) ++ rest |> <| vd_free := free_after 0 |> |> <| k_procs := procs |>) ∧
    length procs = NPROC ∧ p_pid <$> procs !! p = Some pid.
Proof.
  intros Hin Hd Hdesc Hfree. unfold free_chain. cbn [while_fuel].
  destruct (free_chain_step 0 ks k1 (Desc (Dma_op 0) 16 VRING_DESC_F_NEXT 1)) as [E1 I1];
    [done|lia|by rewrite Hd, Hdesc|by rewrite Hd, Hfree|].
  rewrite bind_run. change (free_chain_body 0 ks k1) with (free_chain_body (Z.of_nat 0) ks k1). rewrite E1.
  change (truthy (Z.land _ _)) with true. cbv iota beta. cbn [d_next]. clear E1.
  match type of I1 with in_driver ?K => set (k2 := K) in * end.
  destruct (free_chain_step 1 ks k2 (Desc (Dma_data b) BSIZE (Z.lor VRING_DESC_F_NEXT (if w then 0 else VRING_DESC_F_WRITE)) 2)) as [E2 I2];
    [done|lia|unfold k2; cbn; by rewrite Hd, Hdesc|unfold k2; cbn; by rewrite Hd, Hfree|].
  rewrite bind_run. change (free_chain_body 1 ks k2) with (free_chain_body (Z.of_nat 1) ks k2). rewrite E2.
  assert (truthy (Z.land (d_flags (Desc (Dma_data b) BSIZE (Z.lor VRING_DESC_F_NEXT (if w then 0 else VRING_DESC_F_WRITE)) 2)) VRING_DESC_F_NEXT) = true)
    as -> by (by destruct w). cbn [d_next]. clear E2.
  match type of I2 with in_driver ?K => set (k3 := K) in * end.
  destruct (free_chain_step 2 ks k3 (Desc (Dma_status 0) 1 VRING_DESC_F_WRITE 0)) as [E3 I3];
    [done|lia|unfold k3, k2; cbn; by rewrite Hd, Hdesc|unfold k3, k2; cbn; by rewrite Hd, Hfree|].
  rewrite bind_run. change (free_chain_body 2 ks k3) with (free_chain_body (Z.of_nat 2) ks k3). rewrite E3.
  change (truthy (Z.land _ _)) with false. cbv iota beta. rewrite ret_run. clear E3.
  match type of I3 with in_driver ?K => set (k4 := K) in * end.
  exists (k_procs k4). split; [|apply I3]. f_equal. unfold k4, k3, k2. destruct k1. cbn in *. subst k_vdisk.
  destruct d. cbn in *. by subst.
Qed.

(** ** Waiting for it *)

Lemma driver_before_sleep k1 : in_driver k1 → (p < NPROC)%nat → before_sleep L_vdisk p k1.
Proof.
  intros (Hm & Hl & Hp) Hlt. pose proof Hk as [T1 T2 T3 T4 T5 T6 T7]. split; rewrite ?Hm.
  - by apply machine_ok_take.
  - by rewrite c_proc_take.
  - apply lock_held_take.
  - rewrite noff_take by done. lia.
  - apply lock_free_take; [done|]. apply T5. cbn. by rewrite bool_decide_eq_true_2.
  - done.
  - destruct (k_procs k1 !! p); [by eexists|done].
Qed.

Lemma driver_sleep_machine : (p < NPROC)%nat →
  sleep_machine L_vdisk p (take_lock L_vdisk (k_mach k)) = take_lock (L_proc p) (k_mach k).
Proof.
  intros Hlt. pose proof Hk as [T1 T2 T3 T4 T5 T6 T7].
  apply sleep_machine_thread; try done; apply T5; cbn; by rewrite ?bool_decide_eq_true_2.
Qed.

Lemma driver_awake : (p < NPROC)%nat →
  let m := take_lock (L_proc p) (k_mach k) in
  take_lock L_vdisk (drop_lock (L_proc p)
    (m <| m_cpus ::= alter (λ x, x <| c_intena := c_intena (this_cpu m) |>) (hart_id m) |>)) =
  take_lock L_vdisk (k_mach k).
Proof.
  intros Hlt m. pose proof Hk as [T1 T2 T3 T4 T5 T6 T7].
  assert (E : alter (λ x, x <| c_intena := c_intena (this_cpu m) |>) (hart_id m) (m_cpus m) = m_cpus m).
  { apply list_alter_id_at. change (m_cpus m !!! hart_id m) with (this_cpu m). by destruct (this_cpu m). }
  assert (E2 : m <| m_cpus ::= alter (λ x, x <| c_intena := c_intena (this_cpu m) |>) (hart_id m) |> = m).
  { clearbody m. destruct m. cbn in *. by rewrite E. }
  rewrite E2. unfold m. rewrite drop_take; [by rewrite T4|done|].
  apply T5. cbn. by rewrite bool_decide_eq_true_2.
Qed.

Lemma rested_resumed b w kS procs d : (p < NPROC)%nat →
  k_mach kS = take_lock (L_proc p) (k_mach k) → resumed L_vdisk p (rested b w kS procs d).
Proof.
  intros Hlt Hm. pose proof Hk as [T1 T2 T3 T4 T5 T6 T7].
  assert (E : k_mach (rested b w kS procs d) = take_lock (L_proc p) (k_mach k)).
  { rewrite <- Hm. unfold rested, rw_effect. destruct (k_bufs kS !! b); [|done]. by destruct w. }
  split; rewrite E.
  - by apply machine_ok_take.
  - apply lock_held_take.
  - rewrite noff_take by done. lia.
  - apply lock_free_take; [done|]. by apply T5.
Qed.

(** The loop at the end of virtio_disk_rw(): it sleeps exactly once. *)
Lemma disk_wait_run b w x k1 kS d f ks procs :
  (p < NPROC)%nat → in_driver k1 → k_bufs k1 !! b = Some x → b_disk x = 1 →
  kS = sleep_state (Ch_buf b) L_vdisk p k1 → f kS = rested b w kS procs d →
  while_fuel (S (length (f :: ks))) (disk_wait b) tt (f :: ks) k1 =
    Ok tt ks ((rested b w kS (alter (λ x, x <| p_chan := None |>) p procs) d) <| k_mach := take_lock L_vdisk (k_mach k) |>).
Proof.
  intros Hlt Hin Hx Hdisk HkS Hf. pose proof (driver_before_sleep k1 Hin Hlt) as Hbs.
  assert (Hsm : k_mach kS = take_lock (L_proc p) (k_mach k)).
  { rewrite HkS. cbn. destruct Hin as (-> & _). by apply driver_sleep_machine. }
  assert (Hm1 : k_mach k1 = take_lock L_vdisk (k_mach k)) by apply Hin.
  cbn [length while_fuel]. rewrite bind_run. unfold disk_wait at 1. rewrite bind_run. unfold buf_get. cbn [deref].
  rewrite Hx, Hdisk. cbn [Z.eqb Pos.eqb]. rewrite bind_run, (sleep_returns _ _ p) by
    (try done; rewrite <- HkS, Hf; by apply rested_resumed).
  rewrite ret_run. rewrite <- HkS, Hf, Hm1, driver_sleep_machine by done.
  match goal with |- context [awake_state _ _ _ ?K] => set (k2 := K) end.
  assert (Hm2 : k_mach k2 = take_lock (L_proc p) (k_mach k)).
  { unfold k2. rewrite <- Hsm. unfold rested, rw_effect. destruct (k_bufs kS !! b); [|done]. by destruct w. }
  set (k3 := _ <| k_mach := take_lock L_vdisk (k_mach k) |>).
  assert (Haw : awake_state L_vdisk p (c_intena (this_cpu (take_lock (L_proc p) (k_mach k)))) k2 = k3).
  { unfold awake_state, k3. pose proof (driver_awake Hlt) as Hda. cbv zeta in Hda. rewrite <- Hda.
    clear - Hm2. unfold k2, rested in *. destruct (rw_effect b w kS). cbn in *. by rewrite Hm2. }
  assert (Hb3 : ∃ y, k_bufs k3 !! b = Some y ∧ b_disk y = 0).
  { unfold k3, rested. cbn. rewrite list_lookup_alter_eq. unfold rw_effect. change (k_bufs kS) with (k_bufs kS).
    assert (HxS : k_bufs kS !! b = Some x) by (by rewrite HkS). rewrite HxS.
    destruct w; cbn; [rewrite HxS|rewrite list_lookup_alter_eq, HxS]; by eexists. }
  destruct Hb3 as (y & Hy & Hy0). rewrite Haw. destruct (length ks); cbn [while_fuel]; rewrite bind_run;
    unfold disk_wait at 1; rewrite bind_run; unfold buf_get; cbn [deref]; by rewrite Hy, Hy0.
Qed.

Lemma disk_wait_blocked b x k1 :
  (p < NPROC)%nat → in_driver k1 → k_bufs k1 !! b = Some x → b_disk x = 1 →
  while_fuel 1 (disk_wait b) tt [] k1 = Blocked (sleep_state (Ch_buf b) L_vdisk p k1).
Proof.
  intros Hlt Hin Hx Hdisk. pose proof (driver_before_sleep k1 Hin Hlt) as Hbs.
  cbn [while_fuel]. rewrite bind_run. unfold disk_wait. rewrite bind_run. unfold buf_get. cbn [deref].
  rewrite Hx, Hdisk. cbn [Z.eqb Pos.eqb]. by rewrite bind_run, (sleep_run _ _ p) by done.
Qed.
End complete.

(** ** virtio_disk_rw() *)

Section spec.
Context `{KI : KernelImage} (p : nat) (pid : Z).

Definition in_request (b : nat) (w : bool) (sector : Z) (k : kernel) : kernel :=
  k <| k_mach := take_lock L_vdisk (k_mach k) |> <| k_bufs ::= alter (λ x, x <| b_disk := 1 |>) b |>
    <| k_vdisk := submitted b w sector (k_vdisk k) |>.

(** Up to the loop that waits for the interrupt. *)
Lemma virtio_submit_run b w ks k x :
  kernel_thread p pid k → k_bufs k !! b = Some x → vd_ready (k_vdisk k) →
  virtio_disk_rw b w ks k =
    (w1 ← waits_left;
     while_fuel (S w1) (disk_wait b) tt ;;
     vd_set (λ d, d <| vd_info ::= alter (λ x, x <| in_b := None |>) (Z.to_nat 0) |>) ;;
     free_chain 0 ;;
     release L_vdisk) ks (in_request b w (u32 (b_blockno x * (BSIZE / 512))) k).
Proof.
  intros Hk Hx Hr. unfold virtio_disk_rw. rewrite bind_run. unfold buf_get at 1. cbn [deref]. rewrite Hx. cbv zeta.
  rewrite bind_run, (thread_acquire p pid) by done. rewrite bind_run. cbn [waits_left].
  rewrite bind_run. cbn [while_fuel]. rewrite bind_run. unfold alloc3_wait at 1. rewrite bind_run, alloc3_run by apply Hr.
  rewrite !ret_run. by rewrite (submit_run _ _ _ _ _ _ (k_vdisk k)).
Qed.

Definition finished (b : nat) (w : bool) (sector : Z) (d : vdisk) (regs : gmap Z Z) : vdisk :=
  (device_done b w sector d) <| vd_regs := regs |> <| vd_used_idx := u16 (vd_used_idx_dev d + 1) |>
    <| vd_info := DiskInfo None 0 :: drop 1 (vd_info d) |>
    <| vd_desc := replicate 3 (Desc Dma_null 0 0 0) ++ drop 3 (vd_desc d) |> <| vd_free := free_after 0 |>.

Lemma finished_ready b w sector d regs : vd_ready d → vd_ready (finished b w sector d regs).
Proof.
  intros [H1 H2 H3 H4 H5 H6 [H7 H7'] H8]. split; cbn; try done.
  - rewrite length_drop, H2. done.
  - rewrite length_drop, H3. done.
  - rewrite length_drop, H4. done.
  - by rewrite length_insert.
  - by rewrite length_insert.
  - by rewrite H7.
  - unfold u16. apply Z.mod_pos_bound. lia.
Qed.

Lemma kernel_thread_lt k : kernel_thread p pid k → (p < NPROC)%nat.
Proof.
  intros [_ _ _ _ _ H6 H7]. apply fmap_Some in H7 as (pr & Hpr & _). apply lookup_lt_Some in Hpr.
  unfold procs_ok in H6. lia.
Qed.

Lemma in_request_driver b w sector k : kernel_thread p pid k → in_driver p pid k (in_request b w sector k).
Proof. intros [_ _ _ _ _ H6 H7]. by split_and!. Qed.

(** The effect of a request on the buffer: its [disk] flag is back at 0. *)
Lemma rested_buffers b w k x d procs sector m v q :
  k_bufs k !! b = Some x → b_disk x = 0 →
  env_eq (rw_effect b w k) ((rested b w (sleep_state (Ch_buf b) L_vdisk p (in_request b w sector k)) procs d)
    <| k_mach := m |> <| k_vdisk := v |> <| k_procs := q |> <| k_mach := k_mach k |>).
Proof.
  intros Hx H0. unfold env_eq, env_forget, rested, rw_effect. cbn.
  rewrite list_lookup_alter_eq, Hx. cbn.
  destruct w; cbn.
  - rewrite list_alter_alter, list_alter_id_at; [done|]. rewrite (list_lookup_total_correct _ _ _ Hx). by destruct x; cbn in *; subst.
  - rewrite !list_alter_alter. f_equal. apply list_alter_ext_at. rewrite (list_lookup_total_correct _ _ _ Hx).
    by destruct x; cbn in *; subst.
Qed.

(** After the wait: the descriptors are freed and the lock released. *)
Lemma virtio_finish_run b w sector k k2 d regs ks :
  kernel_thread p pid k → in_driver p pid k k2 →
  k_vdisk k2 = (device_done b w sector d) <| vd_regs := regs |> <| vd_used_idx := u16 (vd_used_idx_dev d + 1) |> →
  ∃ procs, (vd_set (λ d, d <| vd_info ::= alter (λ x, x <| in_b := None |>) (Z.to_nat 0) |>) ;;
     free_chain 0 ;; release L_vdisk) ks k2 =
    Ok tt ks (k2 <| k_vdisk := finished b w sector d regs |> <| k_procs := procs |> <| k_mach := k_mach k |>) ∧
    length procs = NPROC ∧ p_pid <$> procs !! p = Some pid.
Proof.
  intros Hk Hin Hd. rewrite bind_run. cbn [vd_set modify].
  set (k3 := k2 <| k_vdisk ::= λ d, d <| vd_info ::= alter (λ x, x <| in_b := None |>) (Z.to_nat 0) |> |>).
  assert (Hin3 : in_driver p pid k k3) by exact Hin.
  destruct (free_chain_run p pid k Hk b w (drop 3 (vd_desc d)) ks k3 (k_vdisk k3) Hin3 eq_refl) as (procs & Hfc & Hl & Hpid).
  { unfold k3. cbn. by rewrite Hd. }
  { unfold k3. cbn. by rewrite Hd. }
  exists procs. split; [|done]. rewrite bind_run, Hfc.
  rewrite (thread_release p pid L_vdisk k) by (try done; apply Hin). f_equal.
  unfold k3. destruct k2. cbn in *. by rewrite Hd.
Qed.

Lemma virtio_disk_rw_spec b w ks k :
  rw_ok p pid b k → vd_ready (k_vdisk k) → Forall (λ f, ∀ k, f k = serve p k) ks →
  match virtio_disk_rw b w ks k with
  | Ok _ ks' k' => ∃ f, ks = f :: ks' ∧ env_eq (rw_effect b w k) k' ∧ kernel_thread p pid k' ∧ vd_ready (k_vdisk k')
  | Blocked k' => ks = [] ∧ k_disk k' = k_disk k
  | _ => False
  end.
Proof.
  intros [Hk Hb (x & Hx & H0 & Hbno)] Hr Hks. pose proof (kernel_thread_lt k Hk) as Hlt.
  set (sector := u32 (b_blockno x * (BSIZE / 512))).
  rewrite (virtio_submit_run b w ks k x) by done. fold sector. set (k1 := in_request b w sector k).
  assert (Hin : in_driver p pid k k1) by (by apply in_request_driver).
  set (x1 := x <| b_disk := 1 |>). assert (Hx1 : k_bufs k1 !! b = Some x1) by (cbn; by rewrite list_lookup_alter_eq, Hx).
  rewrite bind_run. cbn [waits_left]. rewrite bind_run. destruct ks as [|f ks].
  { cbn [length]. by rewrite (disk_wait_blocked p pid k Hk b x1 k1). }
  inversion Hks as [|? ? Hf _]; subst. set (kS := sleep_state (Ch_buf b) L_vdisk p k1).
  assert (HmS : k_mach kS = take_lock (L_proc p) (k_mach k)) by (by apply (driver_sleep_machine p pid k Hk)).
  pose proof Hin as (_ & Hl1 & Hp1). apply fmap_Some in Hp1 as (pr & Hpr & Hpidr).
  destruct (serve_run p pid b w x1 k kS (k_vdisk k) sector) as (procs & regs & Hsv & Hlen & pr' & Hpr' & Hpid'); try done.
  { unfold procs_ok, kS. cbn. by rewrite length_alter. }
  { exists (pr <| p_chan := Some (Ch_buf b) |> <| p_state := SLEEPING |>). split; [|done].
    unfold kS. cbn. unfold k1 in Hpr. cbn in Hpr. by rewrite list_lookup_alter_eq, Hpr. }
  rewrite (disk_wait_run p pid k Hk b w x1 k1 kS _ f ks procs Hlt Hin Hx1 eq_refl eq_refl (eq_trans (Hf kS) Hsv)).
  set (d' := _ <| vd_used_idx := _ |>).
  set (k2 := (rested b w kS _ d') <| k_mach := take_lock L_vdisk (k_mach k) |>).
  destruct (virtio_finish_run b w sector k k2 (k_vdisk k) regs ks) as (procs2 & Hfin & Hlen2 & Hpid2).
  { done. }
  { split; [done|]. unfold k2. cbn. split; [by rewrite length_alter|]. by rewrite list_lookup_alter_eq, Hpr', <- Hpid'. }
  { done. }
  rewrite Hfin. exists f. split; [done|]. split; [|split].
  - by apply (rested_buffers b w k x).
  - split; cbn; try done; apply Hk.
  - cbn. by apply finished_ready.
Qed.

#[global] Instance virtio_DiskSpec : DiskSpec virtio_disk p pid.
Proof.
  refine {| disk_ready := λ k, vd_ready (k_vdisk k); disk_env := λ f, ∀ k, f k = serve p k |}.
  - intros k k' H E. by rewrite E.
  - intros b w ks k Hrw Hr Hks. by apply virtio_disk_rw_spec.
Defined.
End spec.

(** ** Properties *)


Section witnesses.
#[local] Existing Instance sample_image.

Definition sample_disk_kernel : kernel :=
  thread_kernel <| k_vdisk := zero_vdisk <| vd_free := replicate 8 1 |> |>.

Lemma sample_disk_ready : vd_ready (k_vdisk sample_disk_kernel).
Proof. by split. Qed.

Lemma sample_disk_thread : kernel_thread 1 0 sample_disk_kernel.
Proof. by apply (kernel_thread_ext 1 0 thread_kernel); [apply thread_kernel_ok|..]. Qed.

End witnesses.
