(* ===== verification/BioSpec.v ===== *)
(** * The buffer cache refines a map of pinned blocks

    The pointers of the LRU list and the reuse of buffers are hidden behind
    [cache_rel]: a cache is a finite map from the numbers of the blocks in use
    to their buffer, contents, number of references and whether the block is
    locked.  A block not in the map has its contents on the disk, whether or
    not a buffer still holds a copy of it. *)

From S2P Require Import Prelude KMonad Memory Riscv State Spinlock Kalloc Vm Sched Sleeplock.
From S2P Require Import Bio Virtio Crash VirtioSpec.

(** ** Doubly linked lists *)

(** From [x] through the elements of [l] to [z], in both directions. *)
Fixpoint linked (nx pv : nat → nat) (x : nat) (l : list nat) (z : nat) : Prop :=
  match l with
  | [] => nx x = z ∧ pv z = x
  | y :: l' => (nx x = y ∧ pv y = x) ∧ linked nx pv y l' z
  end.

Lemma linked_app nx pv x l1 y l2 z :
  linked nx pv x (l1 ++ y :: l2) z ↔ linked nx pv x l1 y ∧ linked nx pv y l2 z.
Proof.
  revert x. induction l1 as [|a l1 IH]; intros x; cbn; [done|].
  rewrite IH. tauto.
Qed.

Lemma linked_reverse nx pv x l z : linked nx pv x l z → linked pv nx z (reverse l) x.
Proof.
  revert x. induction l as [|a l IH]; intros x; cbn [linked]; [cbn; tauto|].
  intros [[H1 H2] H]. rewrite reverse_cons. apply linked_app. split; [by apply IH|done].
Qed.

Lemma linked_ext nx pv nx' pv' x l z :
  (∀ i, i ∈ x :: l → nx' i = nx i) → (∀ i, i ∈ l ++ [z] → pv' i = pv i) →
  linked nx pv x l z → linked nx' pv' x l z.
Proof.
  revert x. induction l as [|a l IH]; intros x Hn Hp; cbn.
  - intros [H1 H2]. rewrite Hn, Hp by set_solver. done.
  - intros [[H1 H2] H]. rewrite Hn, Hp by set_solver. split; [done|].
    apply IH; [set_solver..|done].
Qed.

(** Only following one direction, to the end [e]. *)
Fixpoint chain (next : nat → nat) (e x : nat) (l : list nat) : Prop :=
  match l with
  | [] => next x = e
  | y :: l' => next x = y ∧ chain next e y l'
  end.

Lemma linked_chain nx pv x l z : linked nx pv x l z → chain nx z x l.
Proof. revert x. induction l as [|a l IH]; intros x; cbn; [tauto|]. intros [[? ?] ?]. split; auto. Qed.

Definition buf_next (B : list buf) (i : nat) : nat := b_next (B !!! i).
Definition buf_prev (B : list buf) (i : nat) : nat := b_prev (B !!! i).

(** The list of all buffers in some order of use. *)
Definition lru_list (B : list buf) (l : list nat) : Prop :=
  l ≡ₚ seq 0 NBUF ∧ linked (buf_next B) (buf_prev B) bhead l bhead.

Lemma lru_elem B l b : lru_list B l → b ∈ l ↔ (b < NBUF)%nat.
Proof. intros [Hl _]. rewrite Hl. rewrite elem_of_seq. lia. Qed.

Lemma lru_nodup B l : lru_list B l → NoDup (bhead :: l).
Proof.
  intros H. apply NoDup_cons. split.
  - rewrite (lru_elem B) by done. unfold bhead. lia.
  - destruct H as [H _]. rewrite H. apply NoDup_seq.
Qed.

(** Changing fields other than the links. *)
Lemma lru_list_ext B B' l :
  (∀ i, buf_next B' i = buf_next B i) → (∀ i, buf_prev B' i = buf_prev B i) →
  lru_list B l → lru_list B' l.
Proof. intros Hn Hp [H1 H2]. split; [done|]. by apply (linked_ext (buf_next B) (buf_prev B)). Qed.

Lemma buf_next_alter B b f i :
  (∀ x, b_next (f x) = b_next x) → buf_next (alter f b B) i = buf_next B i.
Proof.
  intros Hf. unfold buf_next. destruct (decide (b = i)) as [->|Hne].
  - destruct (decide (i < length B)%nat) as [Hlt|Hge]; [by rewrite list_alter_total, Hf|].
    rewrite !list_lookup_total_alt, list_lookup_alter_eq. rewrite lookup_ge_None_2 by lia. done.
  - by rewrite list_alter_total_ne.
Qed.

Lemma buf_prev_alter B b f i :
  (∀ x, b_prev (f x) = b_prev x) → buf_prev (alter f b B) i = buf_prev B i.
Proof.
  intros Hf. unfold buf_prev. destruct (decide (b = i)) as [->|Hne].
  - destruct (decide (i < length B)%nat) as [Hlt|Hge]; [by rewrite list_alter_total, Hf|].
    rewrite !list_lookup_total_alt, list_lookup_alter_eq. rewrite lookup_ge_None_2 by lia. done.
  - by rewrite list_alter_total_ne.
Qed.

Lemma lru_list_alter B b f l :
  (∀ x, b_next (f x) = b_next x) → (∀ x, b_prev (f x) = b_prev x) →
  lru_list B l → lru_list (alter f b B) l.
Proof.
  intros Hn Hp. apply lru_list_ext; intros i; [by apply buf_next_alter|by apply buf_prev_alter].
Qed.

(** ** The searches of bget() *)

(** Both loops of bget() follow one direction until a buffer passes a test. *)
Definition walk_body (test : buf → bool) (step : buf → nat) (b : nat) : M kernel (nat + option nat) :=
  if decide (b = bhead) then mret (inr None) else
  x ← buf_get b;
  if test x then mret (inr (Some b)) else mret (inl (step x)).

Lemma walk_body_head test step ks k : walk_body test step bhead ks k = Ok (inr None) ks k.
Proof. unfold walk_body. by rewrite decide_True. Qed.

Lemma walk_body_at test step b x ks k :
  (b < NBUF)%nat → k_bufs k !! b = Some x →
  walk_body test step b ks k = Ok (if test x then inr (Some b) else inl (step x)) ks k.
Proof.
  intros Hb Hx. unfold walk_body. rewrite decide_False by (unfold bhead; lia).
  rewrite bind_run. unfold buf_get, deref. rewrite Hx. by destruct (test x).
Qed.

Lemma walk_loop test step l y fuel ks k :
  (length l < fuel)%nat → (∀ b, b ∈ l → (b < NBUF)%nat) → length (k_bufs k) = S NBUF →
  chain (λ i, step (k_bufs k !!! i)) bhead y l →
  while_fuel fuel (walk_body test step) (step (k_bufs k !!! y)) ks k =
  Ok (find (λ b, test (k_bufs k !!! b)) l) ks k.
Proof.
  intros Hf Hl Hlen. revert y fuel Hf. induction l as [|z l IH]; intros y fuel Hf Hc;
    (destruct fuel as [|fuel]; [cbn in Hf; lia|]); cbn in Hc; cbn [while_fuel]; rewrite bind_run.
  - by rewrite Hc, walk_body_head.
  - destruct Hc as [Hz Hc]. assert (Hzlt : (z < NBUF)%nat) by (apply Hl; set_solver).
    destruct (lookup_lt_is_Some_2 (k_bufs k) z) as [x Hx]; [lia|].
    rewrite Hz, (walk_body_at _ _ _ x) by done.
    cbn [find]. rewrite (list_lookup_total_correct _ _ _ Hx).
    destruct (test x) eqn:Et; [done|].
    rewrite <- (IH ltac:(set_solver) z fuel); [|cbn in Hf; lia|done].
    by rewrite (list_lookup_total_correct _ _ _ Hx).
Qed.

Lemma bget_cached_loop dev bno l ks k :
  lru_list (k_bufs k) l → length (k_bufs k) = S NBUF →
  while_fuel (S NBUF) (bget_cached dev bno) (buf_next (k_bufs k) bhead) ks k =
  Ok (find (λ b, (b_dev (k_bufs k !!! b) =? dev) && (b_blockno (k_bufs k !!! b) =? bno)) l) ks k.
Proof.
  intros Hl Hlen.
  apply (walk_loop (λ x, (b_dev x =? dev) && (b_blockno x =? bno)) b_next l bhead).
  - destruct Hl as [Hl _]. rewrite Hl, length_seq. lia.
  - intros b. by apply (lru_elem (k_bufs k)).
  - done.
  - by apply (linked_chain _ (buf_prev (k_bufs k))), Hl.
Qed.

Lemma bget_unused_loop l ks k :
  lru_list (k_bufs k) l → length (k_bufs k) = S NBUF →
  while_fuel (S NBUF) bget_unused (buf_prev (k_bufs k) bhead) ks k =
  Ok (find (λ b, b_refcnt (k_bufs k !!! b) =? 0) (reverse l)) ks k.
Proof.
  intros Hl Hlen. apply (walk_loop (λ x, b_refcnt x =? 0) b_prev (reverse l) bhead).
  - rewrite length_reverse. destruct Hl as [Hl _]. rewrite Hl, length_seq. lia.
  - intros b Hb. apply (lru_elem (k_bufs k) l); [done|]. by rewrite elem_of_reverse in Hb.
  - done.
  - apply (linked_chain _ (buf_next (k_bufs k))), linked_reverse, Hl.
Qed.

(** ** Moving a buffer to the front of the list *)

Definition set_at (f : nat → nat) (x v : nat) (i : nat) : nat := if decide (i = x) then v else f i.

Lemma set_at_eq f x v : set_at f x v x = v.
Proof. unfold set_at. by rewrite decide_True. Qed.

Lemma set_at_ne f x v i : i ≠ x → set_at f x v i = f i.
Proof. intros. unfold set_at. by rewrite decide_False. Qed.

Lemma linked_prev_last nx pv x l z : linked nx pv x l z → pv z ∈ x :: l.
Proof.
  revert x. induction l as [|a l IH]; intros x; cbn; [intros [_ ->]; set_solver|].
  intros [_ H]. specialize (IH a H). set_solver.
Qed.

Lemma linked_next_first nx pv x l z : linked nx pv x l z → nx x ∈ l ++ [z].
Proof. destruct l as [|a l]; cbn; [intros [-> _]; set_solver|]. intros [[-> _] _]. set_solver. Qed.

(** Unlinking [b]. *)
Lemma linked_remove nx pv x l1 b l2 z :
  linked nx pv x l1 b → linked nx pv b l2 z →
  NoDup (x :: l1) → (∀ i, i ∈ x :: l1 → i ∉ l2) → NoDup (l2 ++ [z]) → z ∉ l1 →
  linked (set_at nx (pv b) (nx b)) (set_at pv (nx b) (pv b)) x (l1 ++ l2) z.
Proof.
  revert x. induction l1 as [|a l1 IH]; intros x H1 H2 Hd Hdis Hd2 Hz; cbn [app].
  - cbn in H1. destruct H1 as [Hx Hp]. rewrite Hp. destruct l2 as [|c l2]; cbn in H2 |- *.
    + destruct H2 as [-> _]. by rewrite !set_at_eq.
    + destruct H2 as [[-> _] H2]. rewrite !set_at_eq. split; [done|].
      cbn in Hd2. apply NoDup_cons in Hd2 as [Hc Hd2].
      revert H2. apply linked_ext; intros i Hi; rewrite set_at_ne; [done| |done|].
      * intros ->. apply (Hdis x); set_solver.
      * intros ->. done.
  - cbn in H1. destruct H1 as [[Hx Hp] H1]. apply NoDup_cons in Hd as [Hxn Hd].
    cbn [linked]. split.
    + pose proof (linked_prev_last _ _ _ _ _ H1) as Hlast. pose proof (linked_next_first _ _ _ _ _ H2) as Hfirst.
      rewrite !set_at_ne; [done| |].
      * intros E. rewrite elem_of_app in Hfirst. destruct Hfirst as [Hf|Hf].
        -- apply (Hdis a); [set_solver|by rewrite E].
        -- apply list_elem_of_singleton in Hf. set_solver.
      * intros ->. done.
    + apply IH; try done; set_solver.
Qed.

(** Linking [b] in after the head. *)
Lemma linked_insert nx pv h l b :
  linked nx pv h l h → NoDup (h :: l) → b ∉ h :: l →
  linked (set_at (set_at nx b (nx h)) h b) (set_at (set_at pv b h) (nx h) b) h (b :: l) h.
Proof.
  intros H Hd Hb. cbn [linked]. rewrite set_at_eq.
  assert (Hne : b ≠ nx h).
  { intros ->. apply linked_next_first in H. set_solver. }
  rewrite (set_at_ne _ (nx h)), set_at_eq by done. split; [done|].
  destruct l as [|a l]; cbn [linked] in *.
  - destruct H as [H1 H2]. rewrite (set_at_ne _ h), set_at_eq, H1, set_at_eq by set_solver. done.
  - destruct H as [[H1 H2] H]. rewrite (set_at_ne _ h), set_at_eq, H1, set_at_eq by set_solver. split; [done|].
    apply NoDup_cons in Hd as [Hh Hd]. apply NoDup_cons in Hd as [Ha Hd].
    revert H. apply linked_ext; intros i Hi.
    + rewrite !set_at_ne; set_solver.
    + rewrite !set_at_ne; set_solver.
Qed.

(** The surgery of brelse() on the array of buffers. *)
Definition unlink (b : nat) (B : list buf) : list buf :=
  alter (λ y, y <| b_next := buf_next B b |>) (buf_prev B b)
    (alter (λ y, y <| b_prev := buf_prev B b |>) (buf_next B b) B).

Definition front (b : nat) (B : list buf) : list buf :=
  alter (λ y, y <| b_next := b |>) bhead
    (alter (λ y, y <| b_prev := b |>) (buf_next B bhead)
       (alter (λ y, y <| b_next := buf_next B bhead |> <| b_prev := bhead |>) b B)).

Lemma buf_next_set B j v i :
  (j < length B)%nat → buf_next (alter (λ y, y <| b_next := v |>) j B) i = set_at (buf_next B) j v i.
Proof.
  intros Hj. unfold buf_next, set_at. case_decide as Hd; [subst|].
  - by rewrite list_alter_total.
  - by rewrite list_alter_total_ne.
Qed.

Lemma buf_prev_set B j v i :
  (j < length B)%nat → buf_prev (alter (λ y, y <| b_prev := v |>) j B) i = set_at (buf_prev B) j v i.
Proof.
  intros Hj. unfold buf_prev, set_at. case_decide as Hd; [subst|].
  - by rewrite list_alter_total.
  - by rewrite list_alter_total_ne.
Qed.

Lemma buf_links_set B j v w i :
  (j < length B)%nat →
  buf_next (alter (λ y, y <| b_next := v |> <| b_prev := w |>) j B) i = set_at (buf_next B) j v i ∧
  buf_prev (alter (λ y, y <| b_next := v |> <| b_prev := w |>) j B) i = set_at (buf_prev B) j w i.
Proof.
  intros Hj. unfold buf_prev, buf_next, set_at. case_decide as Hd; [subst|].
  - by rewrite list_alter_total.
  - by rewrite list_alter_total_ne.
Qed.

Lemma lru_links B l b : lru_list B l → length B = S NBUF → (b ≤ NBUF)%nat →
  (buf_next B b < length B)%nat ∧ (buf_prev B b < length B)%nat.
Proof.
  intros Hl Hlen Hb. assert (Hin : b ∈ bhead :: l).
  { destruct (decide (b = NBUF)) as [->|]; [set_solver|]. apply elem_of_cons. right.
    apply (lru_elem B); [done|lia]. }
  assert (Hbound : ∀ i, i ∈ bhead :: l → (i < length B)%nat).
  { intros i [->|Hi]%elem_of_cons; [unfold bhead; lia|]. apply (lru_elem B l) in Hi; [lia|done]. }
  destruct Hl as [_ Hl]. split; apply Hbound.
  - apply elem_of_cons in Hin as [->|Hin]; [apply linked_next_first in Hl; set_solver|].
    apply list_elem_of_split in Hin as (l1 & l2 & ->). apply linked_app in Hl as [_ Hl].
    apply linked_next_first in Hl. set_solver.
  - apply elem_of_cons in Hin as [->|Hin]; [by apply linked_prev_last in Hl|].
    apply list_elem_of_split in Hin as (l1 & l2 & ->). apply linked_app in Hl as [Hl _].
    apply linked_prev_last in Hl. set_solver.
Qed.

Lemma unlink_front B l b :
  lru_list B l → length B = S NBUF → (b < NBUF)%nat →
  ∃ l', lru_list (front b (unlink b B)) l'.
Proof.
  intros Hl Hlen Hb. pose proof (lru_nodup _ _ Hl) as Hnd.
  assert (Hin : b ∈ l) by (by apply (lru_elem B)).
  destruct (lru_links B l b Hl Hlen ltac:(lia)) as [Hnx Hpv].
  apply list_elem_of_split in Hin as (l1 & l2 & ->). exists (b :: l1 ++ l2).
  assert (Hb1 : NoDup (b :: bhead :: l1 ++ l2)).
  { assert (Hperm : b :: bhead :: l1 ++ l2 ≡ₚ bhead :: l1 ++ b :: l2)
      by (rewrite <- Permutation_middle; apply perm_swap). by rewrite Hperm. }
  set (B1 := unlink b B).
  assert (Hlen1 : length B1 = S NBUF) by (unfold B1, unlink; by rewrite !length_alter).
  assert (Hn1 : ∀ i, buf_next B1 i = set_at (buf_next B) (buf_prev B b) (buf_next B b) i).
  { intros i. unfold B1, unlink. rewrite buf_next_set by (by rewrite length_alter).
    unfold set_at. case_decide; [done|]. by apply buf_next_alter. }
  assert (Hp1 : ∀ i, buf_prev B1 i = set_at (buf_prev B) (buf_next B b) (buf_prev B b) i).
  { intros i. unfold B1, unlink. rewrite buf_prev_alter by done. by apply buf_prev_set. }
  assert (Hr : linked (buf_next B1) (buf_prev B1) bhead (l1 ++ l2) bhead).
  { destruct Hl as [_ Hl]. apply linked_app in Hl as [H1 H2].
    apply (linked_ext (set_at (buf_next B) (buf_prev B b) (buf_next B b))
             (set_at (buf_prev B) (buf_next B b) (buf_prev B b))); [intros; apply Hn1|intros; apply Hp1|].
    apply NoDup_cons in Hb1 as [Hbn Hd]. apply NoDup_cons in Hd as [Hh Hd].
    apply NoDup_app in Hd as (Hd1 & Hdis & Hd2).
    apply linked_remove; try done.
    - apply NoDup_cons. split; [set_solver|done].
    - intros i [->|Hi]%elem_of_cons; [set_solver|by apply Hdis].
    - apply NoDup_app. split; [done|]. split; [set_solver|apply NoDup_singleton].
    - set_solver. }
  apply NoDup_cons in Hb1 as [Hbn Hd]. pose proof (linked_insert _ _ _ _ b Hr Hd Hbn) as Hi.
  assert (Hhn : (buf_next B1 bhead < length B1)%nat).
  { apply linked_next_first in Hr. rewrite Hlen1. destruct Hl as [Hl _].
    assert (Hall : ∀ i, i ∈ (l1 ++ l2) ++ [bhead] → (i < S NBUF)%nat).
    { intros i Hi'. apply elem_of_app in Hi' as [Hi'| ->%list_elem_of_singleton]; [|unfold bhead; lia].
      assert (Hi2 : i ∈ l1 ++ b :: l2) by set_solver. rewrite Hl, elem_of_seq in Hi2. lia. }
    by apply Hall. }
  split.
  - destruct Hl as [Hl _]. rewrite <- Hl. apply Permutation_middle.
  - revert Hi. apply linked_ext; intros i _; unfold front; fold B1.
    + rewrite buf_next_set by (rewrite !length_alter, Hlen1; unfold bhead; lia).
      destruct (decide (i = bhead)) as [->|Hne]; [by rewrite !set_at_eq|rewrite !(set_at_ne _ bhead) by done].
      rewrite buf_next_alter by done. apply buf_links_set. lia.
    + rewrite buf_prev_alter by done. rewrite buf_prev_set by (by rewrite length_alter).
      destruct (decide (i = buf_next B1 bhead)) as [->|Hne]; [by rewrite !set_at_eq|].
      rewrite !(set_at_ne _ (buf_next B1 bhead)) by done. apply buf_links_set. lia.
Qed.

(** ** The cache as a map *)

(** A block in use: its buffer, contents, number of references, and whether
    it is locked. *)
Record pin := Pin { pin_buf : nat; pin_data : list Z; pin_refs : Z; pin_locked : bool }.
Abbreviation cache := (gmap Z pin).

Definition dblock (D : gmap Z (list Z)) (bno : Z) : list Z := default zero_block (D !! bno).

Definition buf_locked (x : buf) : bool := truthy (sl_locked (b_lock x)).
Definition buf_pin (b : nat) (x : buf) : pin := Pin b (b_data x) (b_refcnt x) (buf_locked x).

Section cache.
Context (pid : Z).

(** What holds of every buffer, of one without references, and of one in use. *)
Record buf_shape (x : buf) : Prop := {
  bs_disk : b_disk x = 0;
  bs_data : length (b_data x) = 1024%nat;
  bs_refs : 0 ≤ b_refcnt x < 2 ^ 32;
}.

Record buf_idle (D : gmap Z (list Z)) (x : buf) : Prop := {
  bi_refs : b_refcnt x = 0;
  bi_lock : sl_locked (b_lock x) = 0;
  bi_clean : b_dev x = ROOTDEV → b_valid x ≠ 0 → b_data x = dblock D (b_blockno x);
}.

Record buf_used (x : buf) : Prop := {
  bu_refs : b_refcnt x ≠ 0;
  bu_dev : b_dev x = ROOTDEV;
  bu_valid : b_valid x ≠ 0;
  bu_bno : 0 ≤ b_blockno x < 2 ^ 31;
  bu_lock : sl_locked (b_lock x) = 0 ∨ sl_locked (b_lock x) = 1 ∧ sl_pid (b_lock x) = pid;
}.

Record cache_bufs (B : list buf) (D : gmap Z (list Z)) (C : cache) : Prop := {
  cb_len : length B = S NBUF;
  cb_shape : ∀ b x, (b < NBUF)%nat → B !! b = Some x → buf_shape x;
  cb_buf : ∀ b x, (b < NBUF)%nat → B !! b = Some x →
    buf_idle D x ∨ buf_used x ∧ C !! b_blockno x = Some (buf_pin b x);
  cb_pin : ∀ bno pn, C !! bno = Some pn →
    ∃ b x, (b < NBUF)%nat ∧ B !! b = Some x ∧ b_blockno x = bno ∧ buf_used x ∧ pn = buf_pin b x;
  cb_uniq : ∀ b b' x x', (b < NBUF)%nat → (b' < NBUF)%nat → B !! b = Some x → B !! b' = Some x' →
    b_dev x = ROOTDEV → b_dev x' = ROOTDEV → b_blockno x = b_blockno x' → b = b';
}.

(** Changing one buffer to one in use. *)
Lemma cache_bufs_use B D C b x y :
  cache_bufs B D C → (b < NBUF)%nat → B !! b = Some x →
  buf_shape y → buf_used y → (b_refcnt x ≠ 0 → b_blockno x = b_blockno y) →
  (∀ b' x', b' ≠ b → (b' < NBUF)%nat → B !! b' = Some x' → b_dev x' = ROOTDEV → b_blockno x' ≠ b_blockno y) →
  cache_bufs (<[ b := y ]> B) D (<[ b_blockno y := buf_pin b y ]> C).
Proof.
  intros [Hlen Hsh Hb Hp Hu] Hlt Hx Hy Huy Hsame Hother.
  assert (Hbl : (b < length B)%nat) by lia.
  split.
  - by rewrite length_insert.
  - intros b' x' Hlt' [[<- [<- _]]|[_ Hx']]%list_lookup_insert_Some; [done|by apply (Hsh b')].
  - intros b' x' Hlt' [[<- [<- _]]|[Hne Hx']]%list_lookup_insert_Some.
    + right. split; [done|]. apply lookup_insert_eq.
    + destruct (Hb b' x' Hlt' Hx') as [Hi|[Hu' HC]]; [by left|]. right. split; [done|].
      rewrite lookup_insert_ne; [done|]. intros E. apply (Hother b' x'); try done. apply Hu'.
  - intros bno pn [[<- <-]|[Hne HC]]%lookup_insert_Some.
    + exists b, y. split; [done|]. rewrite list_lookup_insert_eq by done. done.
    + destruct (Hp bno pn HC) as (b' & x' & Hlt' & Hx' & Hbno & Hu' & Hpn). exists b', x'.
      split; [done|]. split; [|done]. rewrite list_lookup_insert_ne; [done|]. intros ->.
      rewrite Hx in Hx'. injection Hx' as ->. rewrite <- Hsame in Hne; [done|apply Hu'].
  - intros b1 b2 x1 x2 H1 H2 [[<- [<- _]]|[Hn1 Hx1]]%list_lookup_insert_Some
      [[<- [<- _]]|[Hn2 Hx2]]%list_lookup_insert_Some Hd1 Hd2 E; [done| | |by apply (Hu b1 b2 x1 x2)].
    + exfalso. by apply (Hother b2 x2).
    + exfalso. by apply (Hother b1 x1).
Qed.

(** A used buffer that keeps its block. *)
Lemma cache_bufs_modify B D C b x y :
  cache_bufs B D C → (b < NBUF)%nat → B !! b = Some x → buf_used x →
  buf_shape y → buf_used y → b_blockno y = b_blockno x →
  cache_bufs (<[ b := y ]> B) D (<[ b_blockno x := buf_pin b y ]> C).
Proof.
  intros HB Hlt Hx Hux Hy Huy E. rewrite <- E. apply (cache_bufs_use B D C b x y); try done.
  intros b' x' Hne Hlt' Hx' Hd E'. apply Hne. apply (cb_uniq _ _ _ HB b' b x' x); try done.
  - apply Hux.
  - congruence.
Qed.

(** A used buffer that loses its last reference. *)
Lemma cache_bufs_drop B D C b x y :
  cache_bufs B D C → (b < NBUF)%nat → B !! b = Some x → buf_used x →
  buf_shape y → buf_idle D y → b_blockno y = b_blockno x → b_dev y = b_dev x →
  cache_bufs (<[ b := y ]> B) D (delete (b_blockno x) C).
Proof.
  intros HB Hlt Hx Hux Hy Hiy E Ed. pose proof HB as [Hlen Hsh Hb Hp Hu].
  assert (Hbl : (b < length B)%nat) by lia.
  split.
  - by rewrite length_insert.
  - intros b' x' Hlt' [[<- [<- _]]|[_ Hx']]%list_lookup_insert_Some; [done|by apply (Hsh b')].
  - intros b' x' Hlt' [[<- [<- _]]|[Hne Hx']]%list_lookup_insert_Some; [by left|].
    destruct (Hb b' x' Hlt' Hx') as [Hi|[Hu' HC]]; [by left|]. right. split; [done|].
    rewrite lookup_delete_ne; [done|]. intros E'. apply Hne.
    apply (Hu b b' x x'); try done; [apply Hux|apply Hu'].
  - intros bno pn [Hne HC]%lookup_delete_Some.
    destruct (Hp bno pn HC) as (b' & x' & Hlt' & Hx' & Hbno & Hu' & Hpn). exists b', x'.
    split; [done|]. split; [|done]. rewrite list_lookup_insert_ne; [done|]. intros ->.
    rewrite Hx in Hx'. injection Hx' as ->. done.
  - intros b1 b2 x1 x2 H1 H2 [[<- [<- _]]|[Hn1 Hx1]]%list_lookup_insert_Some
      [[<- [<- _]]|[Hn2 Hx2]]%list_lookup_insert_Some Hd1 Hd2 E'; [done| | |by apply (Hu b1 b2 x1 x2)].
    + apply (Hu b b2 x x2); try done; congruence.
    + apply (Hu b1 b x1 x); try done; congruence.
Qed.

(** Writing a block that is in use to the disk. *)
Lemma cache_bufs_disk B D C bno pn d :
  cache_bufs B D C → C !! bno = Some pn → cache_bufs B (<[ bno := d ]> D) C.
Proof.
  intros [Hlen Hsh Hb Hp Hu] HC. split; try done.
  intros b x Hlt Hx. destruct (Hb b x Hlt Hx) as [[H1 H2 H3]|H]; [left|by right].
  split; [done..|]. intros Hd Hv. rewrite H3 by done. unfold dblock. rewrite lookup_insert_ne; [done|].
  intros ->. destruct (Hp _ _ HC) as (b' & x' & Hlt' & Hx' & Hbno & Hu' & _).
  assert (b' = b) as -> by (apply (Hu b' b x' x); try done; apply Hu').
  rewrite Hx in Hx'. injection Hx' as ->. by apply Hu'.
Qed.

(** The links do not matter. *)
Definition core (x : buf) : buf := x <| b_next := 0%nat |> <| b_prev := 0%nat |>.

Lemma cache_bufs_core B B' D C : core <$> B' = core <$> B → cache_bufs B D C → cache_bufs B' D C.
Proof.
  intros E [Hlen Hsh Hb Hp Hu].
  assert (Hof : ∀ b x', B' !! b = Some x' → ∃ x, B !! b = Some x ∧ core x' = core x).
  { intros b x' Hx'. assert (H : (core <$> B') !! b = Some (core x')) by (by rewrite list_lookup_fmap, Hx').
    rewrite E, list_lookup_fmap in H. apply fmap_Some in H as (x & Hx & Hc). by exists x. }
  assert (Hto : ∀ b x, B !! b = Some x → ∃ x', B' !! b = Some x' ∧ core x' = core x).
  { intros b x Hx. assert (H : (core <$> B) !! b = Some (core x)) by (by rewrite list_lookup_fmap, Hx).
    rewrite <- E, list_lookup_fmap in H. apply fmap_Some in H as (x' & Hx' & Hc). by exists x'. }
  assert (Hcore : ∀ x x', core x' = core x → b_disk x' = b_disk x ∧ b_data x' = b_data x ∧ b_refcnt x' = b_refcnt x ∧
    b_lock x' = b_lock x ∧ b_dev x' = b_dev x ∧ b_valid x' = b_valid x ∧ b_blockno x' = b_blockno x).
  { intros [] []. cbn. intros [=]. by subst. }
  assert (Hpin : ∀ b x x', core x' = core x → buf_pin b x' = buf_pin b x).
  { intros b x x' Hc. destruct (Hcore _ _ Hc) as (_ & H2 & H3 & H4 & _).
    unfold buf_pin, buf_locked. by rewrite H2, H3, H4. }
  assert (Hused : ∀ x x', core x' = core x → buf_used x → buf_used x').
  { intros x x' Hc [U1 U2 U3 U4 U5]. destruct (Hcore _ _ Hc) as (E1 & E2 & E3 & E4 & E5 & E6 & E7).
    split; congruence. }
  split.
  - rewrite <- Hlen, <- (length_fmap core B), <- E. by rewrite length_fmap.
  - intros b x' Hlt Hx'. destruct (Hof b x' Hx') as (x & Hx & Hc). destruct (Hsh b x Hlt Hx).
    destruct (Hcore _ _ Hc) as (E1 & E2 & E3 & _). split; congruence.
  - intros b x' Hlt Hx'. destruct (Hof b x' Hx') as (x & Hx & Hc).
    destruct (Hcore _ _ Hc) as (E1 & E2 & E3 & E4 & E5 & E6 & E7).
    destruct (Hb b x Hlt Hx) as [[I1 I2 I3]|[U HC]]; [left|right].
    + split; [congruence..|]. rewrite E5, E6, E2, E7. done.
    + split; [by apply (Hused x)|]. by rewrite E7, (Hpin b x).
  - intros bno pn HC. destruct (Hp bno pn HC) as (b & x & Hlt & Hx & Hbno & U & Hpn).
    destruct (Hto b x Hx) as (x' & Hx' & Hc). destruct (Hcore _ _ Hc) as (_ & _ & _ & _ & _ & _ & E7).
    exists b, x'. split; [done|]. split; [done|]. split; [congruence|]. split; [by apply (Hused x)|].
    by rewrite (Hpin b x).
  - intros b1 b2 y1 y2 H1 H2 Hy1 Hy2. destruct (Hof b1 y1 Hy1) as (x1 & Hx1 & Hc1).
    destruct (Hof b2 y2 Hy2) as (x2 & Hx2 & Hc2).
    destruct (Hcore _ _ Hc1) as (_ & _ & _ & _ & -> & _ & ->).
    destruct (Hcore _ _ Hc2) as (_ & _ & _ & _ & -> & _ & ->). by apply (Hu b1 b2 x1 x2).
Qed.

(** With fewer than NBUF blocks in use some buffer is idle. *)
Lemma cache_bufs_spare B D C :
  cache_bufs B D C → (size C < NBUF)%nat →
  ∃ b x, (b < NBUF)%nat ∧ B !! b = Some x ∧ b_refcnt x = 0.
Proof.
  intros [Hlen Hsh Hb Hp Hu] Hsz.
  destruct (decide (Exists (λ b, b_refcnt (B !!! b) = 0) (seq 0 NBUF))) as [He|Hn].
  { apply Exists_exists in He as (b & Hin & H0). apply elem_of_seq in Hin.
    exists b, (B !!! b). split; [lia|]. split; [|done]. apply list_lookup_lookup_total_lt. lia. }
  exfalso. apply Forall_not_Exists in Hn || apply not_Exists_Forall in Hn; [|solve_decision].
  rewrite Forall_forall in Hn.
  set (bnos := (λ b, b_blockno (B !!! b)) <$> seq 0 NBUF).
  assert (Hlook : ∀ b, (b < NBUF)%nat → B !! b = Some (B !!! b))
    by (intros b Hlt; apply list_lookup_lookup_total_lt; lia).
  assert (Hused : ∀ b, (b < NBUF)%nat → buf_used (B !!! b) ∧ C !! b_blockno (B !!! b) = Some (buf_pin b (B !!! b))).
  { intros b Hlt. destruct (Hb b _ Hlt (Hlook b Hlt)) as [Hi|Hu']; [|done].
    exfalso. apply (Hn b); [apply elem_of_seq; lia|apply Hi]. }
  assert (Hnd : NoDup bnos).
  { apply NoDup_fmap_2_strong; [|apply NoDup_seq]. intros b1 b2 H1 H2 E.
    apply elem_of_seq in H1. apply elem_of_seq in H2.
    apply (Hu b1 b2 (B !!! b1) (B !!! b2)); try done; try lia;
      try (apply Hlook; lia); apply Hused; lia. }
  assert (Hsub : list_to_set bnos ⊆ dom C).
  { intros bno Hin. apply elem_of_list_to_set in Hin. unfold bnos in Hin.
    apply list_elem_of_fmap in Hin as (b & -> & Hin). apply elem_of_seq in Hin.
    apply elem_of_dom. rewrite (proj2 (Hused b ltac:(lia))). done. }
  apply subseteq_size in Hsub. rewrite size_list_to_set, size_dom in Hsub by done.
  unfold bnos in Hsub. rewrite length_fmap, length_seq in Hsub. lia.
Qed.
End cache.

(** ** The operations of the cache *)

(** Everything the block layer does not touch. *)
Definition fs_forget (k : kernel) : kernel :=
  k <| k_procs := [] |> <| k_vdisk := zero_vdisk |> <| k_bufs := [] |> <| k_disk := ∅ |> <| k_log := zero_log |>.

Section ops.
Context {D : Disk} {p : nat} {pid : Z} {DS : DiskSpec D p pid}.

(** A process running file system code: [R] is the untouched part of the
    state, [dk] the disk, [ca] the cache and [lg] the log. *)
Record fs_state (R : kernel) (dk : gmap Z (list Z)) (ca : cache) (lg : log_t) (k : kernel) : Prop := {
  fs_rest : fs_forget k = R;
  fs_thread : kernel_thread p pid k;
  fs_ready : disk_ready k;
  fs_lru : ∃ l, lru_list (k_bufs k) l;
  fs_bufs : cache_bufs pid (k_bufs k) dk ca;
  fs_disk : k_disk k = dk;
  fs_log : k_log k = lg;
}.

(** Replacing the array of buffers. *)
Lemma fs_state_bufs R dk ca ca' lg k B :
  fs_state R dk ca lg k → (∃ l, lru_list B l) → cache_bufs pid B dk ca' →
  fs_state R dk ca' lg (k <| k_bufs := B |>).
Proof.
  intros [H1 H2 H3 H4 H5 H6 H7] Hl HB. split; try done.
  - by apply (kernel_thread_ext p pid k).
  - by apply (disk_ready_ext k).
Qed.

(** wakeup() changes other processes only. *)
Lemma fs_state_woken R dk ca lg k chan :
  fs_state R dk ca lg k → fs_state R dk ca lg (k <| k_procs ::= woken chan (Some p) |>).
Proof.
  intros [H1 H2 H3 H4 H5 H6 H7]. split; try done.
  - by apply kernel_thread_woken.
  - by apply (disk_ready_ext k).
Qed.

Lemma fs_state_pin R dk ca lg k bno pn :
  fs_state R dk ca lg k → ca !! bno = Some pn →
  ∃ x, (pin_buf pn < NBUF)%nat ∧ k_bufs k !! pin_buf pn = Some x ∧ b_blockno x = bno ∧
    buf_used pid x ∧ buf_shape x ∧ pn = buf_pin (pin_buf pn) x.
Proof.
  intros Hfs HC. destruct (cb_pin _ _ _ _ (fs_bufs _ _ _ _ _ Hfs) bno pn HC) as (b & x & Hlt & Hx & Hbno & Hu & ->).
  exists x. cbn. split; [done|]. split; [done|]. split; [done|]. split; [done|]. split; [|done].
  by apply (cb_shape _ _ _ _ (fs_bufs _ _ _ _ _ Hfs) b x).
Qed.

Lemma alter_insert_at {A} (f : A → A) (i : nat) (l : list A) x : l !! i = Some x → alter f i l = <[ i := f x ]> l.
Proof.
  intros Hx. apply list_eq. intros j. destruct (decide (i = j)) as [->|Hne].
  - rewrite list_lookup_alter_eq, Hx, list_lookup_insert_eq by (by eapply lookup_lt_Some). done.
  - by rewrite list_lookup_alter_ne, list_lookup_insert_ne.
Qed.

(** An update of one buffer that keeps the list links. *)
Lemma lru_list_set B l b x y :
  lru_list B l → B !! b = Some x → b_next y = b_next x → b_prev y = b_prev x → lru_list (<[ b := y ]> B) l.
Proof.
  intros Hl Hx Hn Hp. assert (Hlt : (b < length B)%nat) by (by eapply lookup_lt_Some).
  revert Hl. apply lru_list_ext; intros i; unfold buf_next, buf_prev;
    (destruct (decide (b = i)) as [->|Hne];
     [rewrite list_lookup_total_insert_eq by done; by rewrite (list_lookup_total_correct _ _ _ Hx)
     |by rewrite list_lookup_total_insert_ne]).
Qed.

(** set_data(), the assignments to a locked buffer's contents. *)
Lemma set_data_run R dk ca lg bno pn f ks k :
  fs_state R dk ca lg k → ca !! bno = Some pn → length (f (pin_data pn)) = 1024%nat →
  ∃ k', set_data (pin_buf pn) f ks k = Ok tt ks k' ∧
    fs_state R dk (<[ bno := Pin (pin_buf pn) (f (pin_data pn)) (pin_refs pn) (pin_locked pn) ]> ca) lg k'.
Proof.
  intros Hfs HC Hlen. destruct (fs_state_pin _ _ _ _ _ _ _ Hfs HC) as (x & Hlt & Hx & Hbno & Hu & Hsh & Hpn).
  eexists. split; [reflexivity|].
  change (fs_state R dk (<[ bno := Pin (pin_buf pn) (f (pin_data pn)) (pin_refs pn) (pin_locked pn) ]> ca) lg
    (k <| k_bufs := alter (λ x, x <| b_data ::= f |>) (pin_buf pn) (k_bufs k) |>)).
  rewrite (alter_insert_at _ _ _ x) by done. rewrite Hpn in Hlen |- *. cbn in Hlen |- *.
  rewrite Hpn in Hlt, Hx. cbn in Hlt, Hx.
  apply (fs_state_bufs R dk ca); [done| |].
  - destruct (fs_lru _ _ _ _ _ Hfs) as [l Hl]. exists l. by apply (lru_list_set _ _ _ x).
  - rewrite <- Hbno.
    assert (Hsh' : buf_shape (x <| b_data ::= f |>)) by (destruct Hsh; by split).
    assert (Hu' : buf_used pid (x <| b_data ::= f |>)) by (destruct Hu; by split).
    exact (cache_bufs_modify pid _ dk ca _ x _ (fs_bufs _ _ _ _ _ Hfs) Hlt Hx Hu Hsh' Hu' eq_refl).
Qed.

Lemma buf_data_run R dk ca lg bno pn ks k :
  fs_state R dk ca lg k → ca !! bno = Some pn → buf_data (pin_buf pn) ks k = Ok (pin_data pn) ks k.
Proof.
  intros Hfs HC. destruct (fs_state_pin _ _ _ _ _ _ _ Hfs HC) as (x & Hlt & Hx & Hbno & Hu & Hsh & Hpn).
  unfold buf_data, buf_get. rewrite bind_run. cbn [deref]. rewrite Hx, Hpn. done.
Qed.

(** *** bget() *)

(** The contents of a block, wherever they are, and its references. *)
Definition contents (dk : gmap Z (list Z)) (ca : cache) (bno : Z) : list Z :=
  match ca !! bno with Some pn => pin_data pn | None => dblock dk bno end.
Definition refs (ca : cache) (bno : Z) : Z :=
  match ca !! bno with Some pn => pin_refs pn | None => 0 end.

(** A block bread() can return at once: not locked, with room in the cache. *)
Record available (dk : gmap Z (list Z)) (ca : cache) (bno : Z) : Prop := {
  av_bno : 0 ≤ bno < 2 ^ 31;
  av_lock : ∀ pn, ca !! bno = Some pn → pin_locked pn = false;
  av_refs : refs ca bno + 1 < 2 ^ 32;
  av_room : ca !! bno = None → (size ca < NBUF)%nat ∧ length (dblock dk bno) = 1024%nat;
}.

(** What bget() leaves in the buffer it returns. *)
Record bgot (dk : gmap Z (list Z)) (ca : cache) (bno : Z) (b : nat) (y : buf) : Prop := {
  bg_disk : b_disk y = 0;
  bg_len : length (b_data y) = 1024%nat;
  bg_refs : b_refcnt y = refs ca bno + 1;
  bg_dev : b_dev y = ROOTDEV;
  bg_bno : b_blockno y = bno;
  bg_lock : sl_locked (b_lock y) = 1 ∧ sl_pid (b_lock y) = pid;
  bg_data : b_valid y ≠ 0 → b_data y = contents dk ca bno;
  bg_pin : ∀ pn, ca !! bno = Some pn → b = pin_buf pn ∧ b_valid y ≠ 0;
}.

(** No other buffer holds the block, and [b] held no other block in use. *)
Definition free_for (B : list buf) (bno : Z) (b : nat) (x : buf) : Prop :=
  (b_refcnt x ≠ 0 → b_blockno x = bno) ∧
  ∀ b' x', b' ≠ b → (b' < NBUF)%nat → B !! b' = Some x' → b_dev x' = ROOTDEV → b_blockno x' ≠ bno.

(** The common end of both branches of bget(): the buffer is changed by [f],
    the cache is unlocked and the buffer locked. *)
Lemma bget_finish k k1 b x f ks :
  kernel_thread p pid k → k1 = k <| k_mach := take_lock L_bcache (k_mach k) |>
    <| k_bufs := alter f b (k_bufs k) |> →
  (b < NBUF)%nat → k_bufs k !! b = Some x → b_lock (f x) = b_lock x → sl_locked (b_lock x) = 0 →
  (release L_bcache ;; acquiresleep (L_buf b) ;; mret b) ks k1 =
  Ok b ks (k <| k_bufs := <[ b := (f x) <| b_lock ::= λ s, s <| sl_locked := 1 |> <| sl_pid := pid |> |> ]> (k_bufs k) |>).
Proof.
  intros Hk -> Hlt Hx Hl Hu. assert (Hbl : (b < length (k_bufs k))%nat) by (by eapply lookup_lt_Some).
  rewrite (alter_insert_at _ _ _ x) by done.
  rewrite bind_run, (thread_release p pid L_bcache k) by done.
  set (k2 := k <| k_bufs := <[ b := f x ]> (k_bufs k) |>).
  change (_ <| k_mach := k_mach k |>) with (k2 <| k_mach := k_mach k2 |>). rewrite with_mach_id.
  rewrite bind_run, (acquiresleep_run p pid (L_buf b) k2 (b_lock x)).
  - cbn [sl_update]. unfold k2. f_equal.
    change (k <| k_bufs := alter (λ x0, x0 <| b_lock ::= λ s, s <| sl_locked := 1 |> <| sl_pid := pid |> |>) b
      (<[ b := f x ]> (k_bufs k)) |> = k <| k_bufs := <[ b := (f x) <| b_lock ::= λ s, s <| sl_locked := 1 |> <| sl_pid := pid |> |> ]> (k_bufs k) |>).
    rewrite (alter_insert_at _ _ _ (f x)) by (by apply list_lookup_insert_eq).
    by rewrite list_insert_insert_eq.
  - by apply (kernel_thread_ext p pid k).
  - cbn. by rewrite bool_decide_eq_true_2.
  - cbn. rewrite list_lookup_insert_eq by done. cbn. by rewrite Hl.
  - done.
Qed.

(** Unlocked buffers have their lock free. *)
Lemma unlocked_buf R dk ca lg k bno b x :
  fs_state R dk ca lg k → available dk ca bno → (b < NBUF)%nat → k_bufs k !! b = Some x →
  (b_refcnt x ≠ 0 → b_blockno x = bno) → sl_locked (b_lock x) = 0.
Proof.
  intros Hfs Hav Hlt Hx Hbno.
  destruct (cb_buf _ _ _ _ (fs_bufs _ _ _ _ _ Hfs) b x Hlt Hx) as [Hi|[Hu HC]]; [apply Hi|].
  rewrite Hbno in HC by apply Hu. apply (av_lock _ _ _ Hav) in HC. cbn in HC. unfold buf_locked in HC.
  destruct (bu_lock _ _ Hu) as [H0|[H1 _]]; [done|]. by rewrite H1 in HC.
Qed.

(** The first search of bget() finds the buffer of the block. *)
Lemma bget_hit R dk ca lg k bno b x :
  fs_state R dk ca lg k → available dk ca bno → (b < NBUF)%nat → k_bufs k !! b = Some x →
  b_dev x = ROOTDEV → b_blockno x = bno →
  free_for (k_bufs k) bno b x ∧
  bgot dk ca bno b (x <| b_refcnt := u32 (b_refcnt x + 1) |>
    <| b_lock ::= λ s, s <| sl_locked := 1 |> <| sl_pid := pid |> |>).
Proof.
  intros Hfs Hav Hlt Hx Hdev Hbno. pose proof (fs_bufs _ _ _ _ _ Hfs) as HB.
  destruct (cb_shape _ _ _ _ HB b x Hlt Hx) as [Hd Hlen Hr].
  assert (Hrefs : b_refcnt x = refs ca bno).
  { unfold refs. destruct (cb_buf _ _ _ _ HB b x Hlt Hx) as [Hi|[Hu HC]].
    - destruct (ca !! bno) as [pn|] eqn:E; [|apply Hi].
      destruct (cb_pin _ _ _ _ HB bno pn E) as (b' & x' & Hlt' & Hx' & Hbno' & Hu' & ->).
      assert (b = b') as <- by (apply (cb_uniq _ _ _ _ HB b b' x x'); try done; [apply Hu'|congruence]).
      rewrite Hx in Hx'. by injection Hx' as ->.
    - rewrite <- Hbno, HC. done. }
  split; [split; [done|]|].
  { intros b' x' Hne Hlt' Hx' Hd' E. apply Hne. apply (cb_uniq _ _ _ _ HB b' b x' x); try done. congruence. }
  pose proof (av_refs _ _ _ Hav) as Hmax.
  split; cbn; try done.
  - rewrite u32_small, Hrefs by lia. done.
  - intros Hv. unfold contents. destruct (cb_buf _ _ _ _ HB b x Hlt Hx) as [Hi|[Hu HC]].
    + rewrite (bi_clean _ _ Hi) by done. rewrite Hbno. destruct (ca !! bno) as [pn|] eqn:E; [|done].
      unfold refs in Hrefs. rewrite E in Hrefs.
      destruct (cb_pin _ _ _ _ HB bno pn E) as (b' & x' & Hlt' & Hx' & Hbno' & Hu' & ->).
      exfalso. apply (bu_refs _ _ Hu'). rewrite (bi_refs _ _ Hi) in Hrefs. done.
    + by rewrite <- Hbno, HC.
  - intros pn HC. destruct (cb_pin _ _ _ _ HB bno pn HC) as (b' & x' & Hlt' & Hx' & Hbno' & Hu' & ->).
    assert (b = b') as <- by (apply (cb_uniq _ _ _ _ HB b b' x x'); try done; [apply Hu'|congruence]).
    rewrite Hx in Hx'. injection Hx' as ->. split; [done|apply Hu'].
Qed.

(** The second search reuses a buffer without references. *)
Lemma bget_miss R dk ca lg k bno b x :
  fs_state R dk ca lg k → (b < NBUF)%nat → k_bufs k !! b = Some x → b_refcnt x = 0 →
  (∀ b' x', (b' < NBUF)%nat → k_bufs k !! b' = Some x' → ¬ (b_dev x' = ROOTDEV ∧ b_blockno x' = bno)) →
  free_for (k_bufs k) bno b x ∧
  bgot dk ca bno b (x <| b_dev := ROOTDEV |> <| b_blockno := bno |> <| b_valid := 0 |> <| b_refcnt := 1 |>
    <| b_lock ::= λ s, s <| sl_locked := 1 |> <| sl_pid := pid |> |>).
Proof.
  intros Hfs Hlt Hx H0 Hno. pose proof (fs_bufs _ _ _ _ _ Hfs) as HB.
  assert (HC : ca !! bno = None).
  { destruct (ca !! bno) as [pn|] eqn:E; [|done].
    destruct (cb_pin _ _ _ _ HB bno pn E) as (b' & x' & Hlt' & Hx' & Hbno' & Hu' & _).
    exfalso. apply (Hno b' x'); try done. split; [apply Hu'|done]. }
  split; [split; [done|]|].
  { intros b' x' _ Hlt' Hx' Hd' E. by apply (Hno b' x'). }
  destruct (cb_shape _ _ _ _ HB b x Hlt Hx) as [Hd Hlen Hr].
  split; cbn; try done.
  - unfold refs. by rewrite HC.
  - intros pn. by rewrite HC.
Qed.

Lemma buf_head_run R dk ca lg k k1 ks :
  fs_state R dk ca lg k → k_bufs k1 = k_bufs k →
  ∃ h, buf_get bhead ks k1 = Ok h ks k1 ∧ b_next h = buf_next (k_bufs k1) bhead ∧ b_prev h = buf_prev (k_bufs k1) bhead.
Proof.
  intros Hfs HB. destruct (lookup_lt_is_Some_2 (k_bufs k) bhead) as [h Hh].
  { rewrite (cb_len _ _ _ _ (fs_bufs _ _ _ _ _ Hfs)). unfold bhead. lia. }
  exists h. unfold buf_get, deref, buf_next, buf_prev. rewrite HB, Hh.
  by rewrite (list_lookup_total_correct _ _ _ Hh).
Qed.

Lemma find_buf_some R dk ca lg k l t b :
  fs_state R dk ca lg k → (∀ i, i ∈ l → (i < NBUF)%nat) → find (λ b, t (k_bufs k !!! b)) l = Some b →
  ∃ x, (b < NBUF)%nat ∧ k_bufs k !! b = Some x ∧ t x = true.
Proof.
  intros Hfs Hl Hf. apply find_some in Hf as [Hin Ht]. apply list_elem_of_In in Hin.
  exists (k_bufs k !!! b). split; [by apply Hl|]. split; [|done]. apply list_lookup_lookup_total_lt.
  rewrite (cb_len _ _ _ _ (fs_bufs _ _ _ _ _ Hfs)). specialize (Hl b Hin). lia.
Qed.

Lemma find_buf_none (k : kernel) l t b x :
  find (λ b, t (k_bufs k !!! b)) l = None → b ∈ l → k_bufs k !! b = Some x → t x = false.
Proof.
  intros Hf Hin Hx. rewrite list_elem_of_In in Hin. pose proof (find_none _ _ Hf b Hin) as H.
  cbn in H. by rewrite (list_lookup_total_correct _ _ _ Hx) in H.
Qed.

Lemma bget_run R dk ca lg bno ks k :
  fs_state R dk ca lg k → available dk ca bno →
  ∃ b x y, bget ROOTDEV bno ks k = Ok b ks (k <| k_bufs := <[ b := y ]> (k_bufs k) |>) ∧
    (b < NBUF)%nat ∧ k_bufs k !! b = Some x ∧ b_next y = b_next x ∧ b_prev y = b_prev x ∧
    free_for (k_bufs k) bno b x ∧ bgot dk ca bno b y.
Proof.
  intros Hfs Hav. pose proof (fs_thread _ _ _ _ _ Hfs) as Hk. pose proof (fs_bufs _ _ _ _ _ Hfs) as HB.
  destruct (fs_lru _ _ _ _ _ Hfs) as [l Hl].
  unfold bget. rewrite bind_run, (thread_acquire p pid) by done.
  set (k1 := k <| k_mach := take_lock L_bcache (k_mach k) |>).
  destruct (buf_head_run R dk ca lg k k1 ks Hfs eq_refl) as (h & Hh & Hn & Hp).
  rewrite bind_run, Hh, bind_run, Hn, (bget_cached_loop _ _ l) by (try done; apply HB).
  destruct (find _ l) as [b|] eqn:Ef.
  - apply (find_buf_some R dk ca lg k l (λ x, (b_dev x =? ROOTDEV) && (b_blockno x =? bno))) in Ef
      as (x & Hlt & Hx & Ht); [|done|intros i; by apply (lru_elem (k_bufs k))].
    apply andb_prop in Ht as [Hd%Z.eqb_eq Hb%Z.eqb_eq].
    destruct (bget_hit R dk ca lg k bno b x) as [Hff Hbg]; try done.
    exists b, x, (x <| b_refcnt := u32 (b_refcnt x + 1) |>
      <| b_lock ::= λ s, s <| sl_locked := 1 |> <| sl_pid := pid |> |>).
    split; [|done]. rewrite bind_run. cbn [buf_set modify].
    apply (bget_finish k _ b x (λ x, x <| b_refcnt := u32 (b_refcnt x + 1) |>)); try done.
    by apply (unlocked_buf R dk ca lg k bno b).
  - assert (Hno : ∀ b' x', (b' < NBUF)%nat → k_bufs k !! b' = Some x' → ¬ (b_dev x' = ROOTDEV ∧ b_blockno x' = bno)).
    { intros b' x' Hlt' Hx' [Hd' Hb']. apply (find_buf_none k l (λ x, (b_dev x =? ROOTDEV) && (b_blockno x =? bno)) b' x') in Ef;
        [|by apply (lru_elem (k_bufs k))|done]. by rewrite Hd', Hb', !Z.eqb_refl in Ef. }
    rewrite bind_run, Hh, bind_run, Hp, (bget_unused_loop l) by (try done; apply HB).
    assert (HC : ca !! bno = None).
    { destruct (ca !! bno) as [pn|] eqn:E; [|done].
      destruct (cb_pin _ _ _ _ HB bno pn E) as (b' & x' & Hlt' & Hx' & Hbno' & Hu' & _).
      exfalso. apply (Hno b' x'); try done. split; [apply Hu'|done]. }
    destruct (find _ (reverse l)) as [b|] eqn:Ef2.
    + apply (find_buf_some R dk ca lg k (reverse l) (λ x, b_refcnt x =? 0)) in Ef2 as (x & Hlt & Hx & H0%Z.eqb_eq);
        [|done|intros i Hi; apply (lru_elem (k_bufs k) l); [done|by rewrite elem_of_reverse in Hi]].
      destruct (bget_miss R dk ca lg k bno b x) as [Hff Hbg]; try done.
      exists b, x, (x <| b_dev := ROOTDEV |> <| b_blockno := bno |> <| b_valid := 0 |> <| b_refcnt := 1 |>
        <| b_lock ::= λ s, s <| sl_locked := 1 |> <| sl_pid := pid |> |>).
      split; [|done]. rewrite bind_run. cbn [buf_set modify]. do 3 (rewrite bind_run; cbn [buf_set modify]).
      apply (bget_finish k _ b x (λ x, x <| b_dev := ROOTDEV |> <| b_blockno := bno |> <| b_valid := 0 |> <| b_refcnt := 1 |>)); try done.
      * unfold k1. cbn. by rewrite !list_alter_alter.
      * by apply (unlocked_buf R dk ca lg k bno b).
    + exfalso. destruct (cache_bufs_spare _ _ _ _ HB) as (b & x & Hlt & Hx & H0); [by apply Hav|].
      apply (find_buf_none k (reverse l) (λ x, b_refcnt x =? 0) b x) in Ef2; [|by apply elem_of_reverse, (lru_elem (k_bufs k))|done].
      by rewrite H0 in Ef2.
Qed.

(** *** bread() *)

(** After a request to the disk the state is again one of the cache. *)
Lemma fs_state_env R dk ca lg k k' :
  env_eq k k' → fs_forget k = R → (∃ l, lru_list (k_bufs k) l) → cache_bufs pid (k_bufs k) dk ca →
  k_disk k = dk → k_log k = lg → kernel_thread p pid k' → disk_ready k' →
  fs_state R dk ca lg k'.
Proof.
  intros He <- Hl HB <- <- Hk Hr.
  assert (Hf : ∀ k, fs_forget (env_forget k) = fs_forget k) by done.
  assert (k_bufs (env_forget k) = k_bufs (env_forget k')) as Eb by (by rewrite He). cbn in Eb.
  assert (k_disk (env_forget k) = k_disk (env_forget k')) as Ed by (by rewrite He). cbn in Ed.
  assert (k_log (env_forget k) = k_log (env_forget k')) as El by (by rewrite He). cbn in El.
  rewrite Eb in Hl, HB. rewrite Ed in HB |- *. rewrite El. split; try done.
  rewrite <- (Hf k'), <- (Hf k). by rewrite He.
Qed.

(** The state of the buffer, valid at last. *)
Lemma bgot_use R dk ca lg k bno b x y :
  fs_state R dk ca lg k → 0 ≤ bno < 2 ^ 31 → (b < NBUF)%nat → k_bufs k !! b = Some x →
  refs ca bno + 1 < 2 ^ 32 → 0 ≤ refs ca bno →
  b_next y = b_next x → b_prev y = b_prev x → free_for (k_bufs k) bno b x → bgot dk ca bno b y → b_valid y ≠ 0 →
  (∃ l, lru_list (<[ b := y ]> (k_bufs k)) l) ∧
  cache_bufs pid (<[ b := y ]> (k_bufs k)) dk (<[ bno := Pin b (contents dk ca bno) (refs ca bno + 1) true ]> ca).
Proof.
  intros Hfs Hbno Hlt Hx Hmax H0 Hn Hp [Hf1 Hf2] [G1 G2 G3 G4 G5 [G6 G6'] G7 G8] Hv. split.
  - destruct (fs_lru _ _ _ _ _ Hfs) as [l Hl]. exists l. by apply (lru_list_set _ _ _ x).
  - assert (Hpin : Pin b (contents dk ca bno) (refs ca bno + 1) true = buf_pin b y).
    { unfold buf_pin, buf_locked. rewrite G7, G3, G6 by done. done. }
    rewrite Hpin, <- G5. apply (cache_bufs_use pid _ dk ca b x); try done.
    + apply (fs_bufs _ _ _ _ _ Hfs).
    + split; [done..|]. rewrite G3. lia.
    + split; try done; [rewrite G3; lia|by rewrite G5|by right].
    + intros Hr. rewrite G5. by apply Hf1.
    + intros b' x' Hne Hlt' Hx' Hd'. rewrite G5. by apply (Hf2 b').
Qed.

Lemma refs_nonneg R dk ca lg k bno : fs_state R dk ca lg k → 0 ≤ refs ca bno.
Proof.
  intros Hfs. unfold refs. destruct (ca !! bno) as [pn|] eqn:E; [|done].
  destruct (fs_state_pin _ _ _ _ _ _ _ Hfs E) as (x & _ & _ & _ & _ & Hsh & ->). apply Hsh.
Qed.

(** bread() returns the buffer of the block, locked and with its contents; it
    waits for the disk at most once, and not at all for a block in use. *)
Lemma bread_runs R dk ca lg bno :
  available dk ca bno →
  runs (match ca !! bno with Some _ => 0 | None => 1 end) (fs_state R dk ca lg) (bread ROOTDEV bno)
    (λ b k, (∀ pn, ca !! bno = Some pn → b = pin_buf pn) ∧
       fs_state R dk (<[ bno := Pin b (contents dk ca bno) (refs ca bno + 1) true ]> ca) lg k)
    (λ k, k_disk k = dk).
Proof.
  intros Hav ks k Hks Hfs. unfold bread.
  destruct (bget_run R dk ca lg bno ks k Hfs Hav) as (b & x & y & Hget & Hlt & Hx & Hn & Hp & Hff & Hbg).
  assert (Hbl : (b < length (k_bufs k))%nat) by (by eapply lookup_lt_Some).
  pose proof (refs_nonneg R dk ca lg k bno Hfs) as Hr0.
  rewrite bind_run, Hget. set (k1 := k <| k_bufs := <[ b := y ]> (k_bufs k) |>).
  assert (Hk1 : k_bufs k1 !! b = Some y) by (by apply list_lookup_insert_eq).
  rewrite bind_run. unfold buf_get at 1. unfold deref. rewrite Hk1.
  destruct (Z.eqb_spec (b_valid y) 0) as [Hv|Hv]; cbn [when].
  - assert (HC : ca !! bno = None).
    { destruct (ca !! bno) as [pn|] eqn:E; [|done]. by destruct (bg_pin _ _ _ _ _ Hbg pn E). }
    rewrite HC. rewrite !bind_run.
    assert (Hrw : rw_ok p pid b k1).
    { split; [apply (kernel_thread_ext p pid k); [apply Hfs|done..]|done|].
      exists y. split; [done|]. rewrite (bg_bno _ _ _ _ _ Hbg). split; [apply Hbg|apply Hav]. }
    pose proof (disk_rw_spec b false ks k1 Hrw ltac:(apply (disk_ready_ext k); [apply Hfs|done]) Hks) as Hs.
    destruct (disk_rw b false ks k1) as [[] ks2 k2| | |k2|]; try done.
    + destruct Hs as (f & -> & He & Hk2 & Hr2). cbn [buf_set modify].
      split; [|split; [by inversion Hks|cbn; lia]]. split; [done|].
      set (y2 := y <| b_data := dblock dk bno |> <| b_valid := 1 |>).
      assert (Hbg2 : bgot dk ca bno b y2).
      { destruct Hbg as [G1 G2 G3 G4 G5 G6 G7 G8]. split; cbn; try done; [by apply Hav| |].
        - intros _. unfold contents. by rewrite HC.
        - intros pn. by rewrite HC. }
      destruct (bgot_use R dk ca lg k bno b x y2) as [Hl2 HB2]; try done; [apply Hav..|].
      apply (fs_state_env R dk _ lg (k1 <| k_bufs := <[ b := y2 ]> (k_bufs k) |>)); try done.
      * transitivity ((rw_effect b false k1) <| k_bufs ::= alter (λ x, x <| b_valid := 1 |>) b |>).
        -- unfold rw_effect. rewrite Hk1. unfold env_eq, env_forget. cbn.
           rewrite list_alter_alter, (alter_insert_at _ _ _ y) by done.
           rewrite list_insert_insert_eq. unfold y2, disk_block. cbn.
           rewrite (fs_disk _ _ _ _ _ Hfs), (bg_bno _ _ _ _ _ Hbg). done.
        -- assert (Hc : ∀ k, env_forget (k <| k_bufs ::= alter (λ x, x <| b_valid := 1 |>) b |>) =
             (env_forget k) <| k_bufs ::= alter (λ x, x <| b_valid := 1 |>) b |>) by done.
           unfold env_eq. by rewrite !Hc, He.
      * apply Hfs.
      * apply Hfs.
      * apply Hfs.
      * by apply (kernel_thread_ext p pid k2).
      * by apply (disk_ready_ext k2).
    + destruct Hs as [-> Hd]. split; [|cbn; lia]. rewrite Hd. apply Hfs.
  - cbn. split; [|split; [done|lia]]. split.
    { intros pn E. by apply (bg_pin _ _ _ _ _ Hbg pn E). }
    destruct (bgot_use R dk ca lg k bno b x y) as [Hl2 HB2]; try done; [apply Hav..|].
    by apply (fs_state_bufs R dk ca).
Qed.

(** *** bwrite() *)

(** The caller holds the lock of the buffer. *)
Lemma locked_holding R dk ca lg bno b d r ks k :
  fs_state R dk ca lg k → ca !! bno = Some (Pin b d r true) →
  holdingsleep (L_buf b) ks k = Ok true ks k.
Proof.
  intros Hfs HC. destruct (fs_state_pin _ _ _ _ _ _ _ Hfs HC) as (x & Hlt & Hx & Hbno & Hu & Hsh & Hpn).
  cbn in Hlt, Hx. injection Hpn as -> -> Hlk.
  rewrite (holdingsleep_run p pid _ _ (b_lock x)); [|apply Hfs|by cbn; rewrite bool_decide_eq_true_2|by cbn; rewrite Hx].
  destruct (bu_lock _ _ Hu) as [H0|[H1 ->]]; unfold buf_locked in Hlk; [by rewrite H0 in Hlk|].
  by rewrite H1, Z.eqb_refl.
Qed.

(** bwrite() makes the disk hold the contents of the locked buffer. *)
Lemma bwrite_runs R dk ca lg bno b d r :
  ca !! bno = Some (Pin b d r true) →
  runs 1 (fs_state R dk ca lg) (bwrite b) (λ _, fs_state R (<[ bno := d ]> dk) ca lg) (λ k, k_disk k = dk).
Proof.
  intros HC ks k Hks Hfs. destruct (fs_state_pin _ _ _ _ _ _ _ Hfs HC) as (x & Hlt & Hx & Hbno & Hu & Hsh & Hpn).
  cbn in Hlt, Hx. injection Hpn as Hd Hr Hlk.
  unfold bwrite. rewrite bind_run, (locked_holding R dk ca lg bno b d r) by done. cbn [negb].
  assert (Hrw : rw_ok p pid b k).
  { split; [apply Hfs|done|]. exists x. split; [done|]. split; [apply Hsh|apply Hu]. }
  pose proof (disk_rw_spec b true ks k Hrw (fs_ready _ _ _ _ _ Hfs) Hks) as Hs.
  destruct (disk_rw b true ks k) as [[] ks2 k2| | |k2|]; try done.
  - destruct Hs as (f & -> & He & Hk2 & Hr2). split; [|split; [by inversion Hks|cbn; lia]].
    unfold rw_effect in He. rewrite Hx in He.
    apply (fs_state_env R _ _ lg (k <| k_disk := <[ bno := d ]> dk |>)); try done; try apply Hfs.
    + rewrite <- He, Hbno, Hd, <- (fs_disk _ _ _ _ _ Hfs). done.
    + cbn. apply (cache_bufs_disk pid _ _ _ _ (Pin b d r true)); [apply Hfs|done].
  - destruct Hs as [-> Hdk]. split; [|cbn; lia]. rewrite Hdk. apply Hfs.
Qed.

(** *** bpin() and bunpin() *)

Definition re_ref (r : Z) (pn : pin) : pin := Pin (pin_buf pn) (pin_data pn) r (pin_locked pn).

(** Changing the number of references, in a state in which other spinlocks
    may be held. *)
Lemma fs_state_refs R dk ca lg bno pn r k :
  fs_state R dk ca lg k → ca !! bno = Some pn → 0 < r < 2 ^ 32 →
  fs_state R dk (<[ bno := re_ref r pn ]> ca) lg (k <| k_bufs ::= alter (λ x, x <| b_refcnt := r |>) (pin_buf pn) |>).
Proof.
  intros Hfs HC Hr. destruct (fs_state_pin _ _ _ _ _ _ _ Hfs HC) as (x & Hlt & Hx & Hbno & Hu & Hsh & Hpn).
  change (fs_state R dk (<[ bno := re_ref r pn ]> ca) lg
    (k <| k_bufs := alter (λ x, x <| b_refcnt := r |>) (pin_buf pn) (k_bufs k) |>)).
  rewrite (alter_insert_at _ _ _ x) by done.
  apply (fs_state_bufs R dk ca); [done| |].
  - destruct (fs_lru _ _ _ _ _ Hfs) as [l Hl]. exists l. by apply (lru_list_set _ _ _ x).
  - assert (Hsh' : buf_shape (x <| b_refcnt := r |>)) by (destruct Hsh; split; cbn; [done..|lia]).
    assert (Hu' : buf_used pid (x <| b_refcnt := r |>)) by (destruct Hu; split; cbn; [lia|done..]).
    assert (Hp' : re_ref r pn = buf_pin (pin_buf pn) (x <| b_refcnt := r |>)) by (by rewrite Hpn).
    rewrite Hp', <- Hbno.
    exact (cache_bufs_modify pid _ dk ca _ x _ (fs_bufs _ _ _ _ _ Hfs) Hlt Hx Hu Hsh' Hu' eq_refl).
Qed.

Lemma bunpin_run R dk ca lg bno pn ks k :
  fs_state R dk ca lg k → ca !! bno = Some pn → 1 < pin_refs pn →
  ∃ k', bunpin (pin_buf pn) ks k = Ok tt ks k' ∧
    fs_state R dk (<[ bno := re_ref (pin_refs pn - 1) pn ]> ca) lg k'.
Proof.
  intros Hfs HC Hr. destruct (fs_state_pin _ _ _ _ _ _ _ Hfs HC) as (x & Hlt & Hx & Hbno & Hu & Hsh & Hpn).
  assert (Hrx : pin_refs pn = b_refcnt x) by (by rewrite Hpn). pose proof (bs_refs _ Hsh) as Hb.
  eexists. split; [|apply (fs_state_refs R dk ca lg bno pn _ k); [done|done|lia]].
  unfold bunpin. rewrite bind_run, (thread_acquire p pid) by (try done; apply Hfs).
  rewrite bind_run. cbn [buf_set modify].
  rewrite (thread_release p pid L_bcache k) by (try done; apply Hfs). f_equal. cbn.
  rewrite !(alter_insert_at _ _ _ x) by done. rewrite u32_small, Hrx by lia. done.
Qed.

(** bpin() as log_write() calls it, under the log's lock. *)
Lemma bpin_nested R dk ca lg bno pn k k1 ks :
  fs_state R dk ca lg k → holding_only p pid L_log k k1 → k_bufs k1 = k_bufs k →
  ca !! bno = Some pn → pin_refs pn + 1 < 2 ^ 32 →
  bpin (pin_buf pn) ks k1 =
    Ok tt ks (k1 <| k_bufs ::= alter (λ x, x <| b_refcnt := pin_refs pn + 1 |>) (pin_buf pn) |>).
Proof.
  intros Hfs Hh HB HC Hr. destruct (fs_state_pin _ _ _ _ _ _ _ Hfs HC) as (x & Hlt & Hx & Hbno & Hu & Hsh & Hpn).
  assert (Hrx : pin_refs pn = b_refcnt x) by (by rewrite Hpn). pose proof (bs_refs _ Hsh) as Hb.
  unfold bpin. rewrite bind_run, (holding_acquire p pid L_log _ k) by done.
  rewrite bind_run. cbn [buf_set modify].
  rewrite (holding_release p pid L_log L_bcache k) by (try done; apply Hfs). f_equal. cbn.
  rewrite !(alter_insert_at _ _ _ x) by (by rewrite HB). rewrite u32_small, Hrx by lia.
  destruct Hh as (_ & _ & <- & _). by destruct k1.
Qed.

(** *** brelse() *)

Lemma lru_next_ne B l b : lru_list B l → (b < NBUF)%nat → buf_next B b ≠ b.
Proof.
  intros Hl Hb. pose proof (lru_nodup _ _ Hl) as Hnd. apply (lru_elem B l b Hl) in Hb.
  apply list_elem_of_split in Hb as (l1 & l2 & ->). destruct Hl as [_ Hl].
  apply linked_app in Hl as [_ Hl]. apply linked_next_first in Hl. intros E. rewrite E in Hl.
  apply NoDup_cons in Hnd as [Hh Hnd]. apply NoDup_app in Hnd as (_ & _ & Hnd).
  apply NoDup_cons in Hnd as [Hn _]. set_solver.
Qed.

(** The list surgery of brelse(). *)
Lemma relink_run b ks k l :
  lru_list (k_bufs k) l → length (k_bufs k) = S NBUF → (b < NBUF)%nat →
  (x ← buf_get b;
   buf_set (b_next x) (λ y, y <| b_prev := b_prev x |>) ;;
   x1 ← buf_get b;
   buf_set (b_prev x1) (λ y, y <| b_next := b_next x1 |>) ;;
   link_front b) ks k =
  Ok tt ks (k <| k_bufs := front b (unlink b (k_bufs k)) |>).
Proof.
  intros Hl Hlen Hb.
  assert (Hget : ∀ i k', length (k_bufs k') = S NBUF → (i ≤ NBUF)%nat → buf_get i ks k' = Ok (k_bufs k' !!! i) ks k').
  { intros i k' Hlen' Hi. unfold buf_get, deref.
    by rewrite (list_lookup_lookup_total_lt (k_bufs k') i) by lia. }
  rewrite bind_run, Hget by (try done; lia). rewrite bind_run. cbn [buf_set modify].
  set (k1 := k <| k_bufs ::= alter (λ y, y <| b_prev := b_prev (k_bufs k !!! b) |>) (b_next (k_bufs k !!! b)) |>).
  rewrite bind_run, (Hget b k1) by (try (by unfold k1; cbn; rewrite length_alter); lia). rewrite bind_run. cbn [buf_set modify].
  assert (E1 : b_prev (k_bufs k1 !!! b) = buf_prev (k_bufs k) b).
  { change (buf_prev (alter (λ y, y <| b_prev := buf_prev (k_bufs k) b |>) (buf_next (k_bufs k) b) (k_bufs k)) b =
      buf_prev (k_bufs k) b).
    rewrite buf_prev_set by (apply (lru_links _ l); [done..|lia]).
    rewrite set_at_ne; [done|]. intros E. symmetry in E. by apply (lru_next_ne _ l) in E. }
  assert (E2 : b_next (k_bufs k1 !!! b) = buf_next (k_bufs k) b).
  { by apply (buf_next_alter (k_bufs k) (buf_next (k_bufs k) b) (λ y, y <| b_prev := buf_prev (k_bufs k) b |>)). }
  rewrite E1, E2. clear Hget E1 E2. unfold link_front.
  set (k2 := k1 <| k_bufs ::= alter (λ y, y <| b_next := buf_next (k_bufs k) b |>) (buf_prev (k_bufs k) b) |>).
  assert (Hk2 : k2 = k <| k_bufs := unlink b (k_bufs k) |>) by done.
  clearbody k2. subst k2. clear k1.
  destruct (lookup_lt_is_Some_2 (unlink b (k_bufs k)) bhead) as [h Hh].
  { unfold unlink. rewrite !length_alter, Hlen. unfold bhead. lia. }
  rewrite bind_run. unfold buf_get at 1. cbn [deref]. cbn [k_bufs set_field]. 
  change (k_bufs (k <| k_bufs := unlink b (k_bufs k) |>)) with (unlink b (k_bufs k)). rewrite Hh.
  set (B := unlink b (k_bufs k)). assert (En : buf_next B bhead = b_next h).
  { unfold buf_next, B. by rewrite (list_lookup_total_correct _ _ _ Hh). }
  unfold front. rewrite En, <- (list_alter_alter (λ y, y <| b_next := b_next h |>) (λ y, y <| b_prev := bhead |>)).
  reflexivity.
Qed.

Lemma core_alter (f : buf → buf) (b : nat) (B : list buf) : (∀ x, core (f x) = core x) → core <$> alter f b B = core <$> B.
Proof.
  intros Hf. apply list_eq. intros i. rewrite !list_lookup_fmap. destruct (decide (b = i)) as [->|Hne].
  - rewrite list_lookup_alter_eq. destruct (B !! i); [|done]. cbn. by rewrite Hf.
  - by rewrite list_lookup_alter_ne.
Qed.

Lemma core_relink b B : core <$> front b (unlink b B) = core <$> B.
Proof. unfold front, unlink. by rewrite !core_alter. Qed.

(** releasesleep() of a buffer held by the caller. *)
Lemma brelse_unlock R dk ca lg bno b d r ks k :
  fs_state R dk ca lg k → ca !! bno = Some (Pin b d r true) →
  ∃ k', releasesleep (L_buf b) ks k = Ok tt ks k' ∧ fs_state R dk (<[ bno := Pin b d r false ]> ca) lg k'.
Proof.
  intros Hfs HC. destruct (fs_state_pin _ _ _ _ _ _ _ Hfs HC) as (x & Hlt & Hx & Hbno & Hu & Hsh & Hpn).
  cbn in Hlt, Hx. injection Hpn as Hd Hr Hlk.
  eexists. split.
  { apply (releasesleep_run p pid (L_buf b) k (b_lock x)); [apply Hfs|by cbn; rewrite bool_decide_eq_true_2|by cbn; rewrite Hx]. }
  apply fs_state_woken. cbn [sl_update].
  set (y := x <| b_lock ::= λ s, s <| sl_locked := 0 |> <| sl_pid := 0 |> |>).
  change (fs_state R dk (<[ bno := Pin b d r false ]> ca) lg (k <| k_bufs :=
    alter (λ x, x <| b_lock ::= λ s, s <| sl_locked := 0 |> <| sl_pid := 0 |> |>) b (k_bufs k) |>)).
  rewrite (alter_insert_at _ _ _ x) by done.
  apply (fs_state_bufs R dk ca); [done| |].
  - destruct (fs_lru _ _ _ _ _ Hfs) as [l Hl]. exists l. by apply (lru_list_set _ _ _ x).
  - assert (Hsh' : buf_shape y) by (by destruct Hsh).
    assert (Hu' : buf_used pid y) by (destruct Hu; split; cbn; try done; by left).
    assert (Hp' : Pin b d r false = buf_pin b y) by (by rewrite Hd, Hr).
    rewrite Hp', <- Hbno.
    exact (cache_bufs_modify pid _ dk ca _ x _ (fs_bufs _ _ _ _ _ Hfs) Hlt Hx Hu Hsh' Hu' eq_refl).
Qed.

(** The buffer that loses its last reference moves to the front of the list. *)
Lemma fs_state_drop R dk ca lg bno b d x k :
  fs_state R dk ca lg k → ca !! bno = Some (Pin b d 1 false) → d = dblock dk bno → k_bufs k !! b = Some x →
  fs_state R dk (delete bno ca) lg (k <| k_bufs := front b (unlink b (<[ b := x <| b_refcnt := 1 - 1 |> ]> (k_bufs k))) |>).
Proof.
  intros Hfs HC Hclean Hx. destruct (fs_state_pin _ _ _ _ _ _ _ Hfs HC) as (x' & Hlt & Hx' & Hbno & Hu & Hsh & Hpn).
  cbn in Hlt, Hx'. rewrite Hx in Hx'. injection Hx' as <-. injection Hpn as Hd Hr Hlk.
  destruct (fs_lru _ _ _ _ _ Hfs) as [l Hl]. apply (fs_state_bufs R dk ca); [done| |].
  - apply (unlink_front _ l); [by apply (lru_list_set _ _ _ x)| |done]. rewrite length_insert. apply Hfs.
  - apply (cache_bufs_core pid (<[ b := x <| b_refcnt := 1 - 1 |> ]> (k_bufs k))); [apply core_relink|]. rewrite <- Hbno.
    assert (Hsh' : buf_shape (x <| b_refcnt := 1 - 1 |>)) by (destruct Hsh; split; cbn; [done..|lia]).
    assert (Hi : buf_idle dk (x <| b_refcnt := 1 - 1 |>)).
    { split; cbn; [lia| |].
      - unfold buf_locked in Hlk. destruct (bu_lock _ _ Hu) as [H0|[H1 _]]; [done|by rewrite H1 in Hlk].
      - intros _ _. by rewrite <- Hd, Hbno. }
    exact (cache_bufs_drop pid _ dk ca b x _ (fs_bufs _ _ _ _ _ Hfs) Hlt Hx Hu Hsh' Hi eq_refl eq_refl).
Qed.

(** brelse() gives back the lock and one reference.  With the last reference
    the block leaves the cache, which loses nothing if the disk has it. *)
Definition released (bno : Z) (b : nat) (d : list Z) (r : Z) (ca : cache) : cache :=
  if decide (r = 1) then delete bno ca else <[ bno := Pin b d (r - 1) false ]> ca.

Lemma brelse_run R dk ca lg bno b d r ks k :
  fs_state R dk ca lg k → ca !! bno = Some (Pin b d r true) → (r = 1 → d = dblock dk bno) →
  ∃ k', brelse b ks k = Ok tt ks k' ∧ fs_state R dk (released bno b d r ca) lg k'.
Proof.
  intros Hfs0 HC0 Hclean. unfold brelse. rewrite bind_run, (locked_holding R dk ca lg bno b d r) by done. cbn [negb].
  destruct (brelse_unlock R dk ca lg bno b d r ks k Hfs0 HC0) as (k1 & Hrel & Hfs). rewrite bind_run, Hrel.
  set (ca1 := <[ bno := Pin b d r false ]> ca) in *.
  assert (HC : ca1 !! bno = Some (Pin b d r false)) by apply lookup_insert_eq.
  destruct (fs_state_pin _ _ _ _ _ _ _ Hfs HC) as (x & Hlt & Hx & Hbno & Hu & Hsh & Hpn).
  cbn in Hlt, Hx. injection Hpn as Hd Hr Hlk. pose proof (bs_refs _ Hsh) as Hrr. pose proof (bu_refs _ _ Hu) as Hr0.
  destruct (fs_lru _ _ _ _ _ Hfs) as [l Hl].
  assert (Hbl : (b < length (k_bufs k1))%nat) by (by eapply lookup_lt_Some).
  rewrite bind_run, (thread_acquire p pid) by (try done; apply Hfs). rewrite bind_run. cbn [buf_set modify].
  set (y := x <| b_refcnt := r - 1 |>).
  set (k2 := k1 <| k_mach := take_lock L_bcache (k_mach k1) |> <| k_bufs := <[ b := y ]> (k_bufs k1) |>).
  assert (Hk2 : (k1 <| k_mach := take_lock L_bcache (k_mach k1) |>)
    <| k_bufs ::= alter (λ x, x <| b_refcnt := u32 (b_refcnt x - 1) |>) b |> = k2).
  { unfold k2. cbn. rewrite (alter_insert_at _ _ _ x) by done. rewrite u32_small by lia. unfold y. by rewrite Hr. }
  rewrite Hk2. assert (Hy : k_bufs k2 !! b = Some y) by (by apply list_lookup_insert_eq).
  assert (Hl2 : lru_list (k_bufs k2) l) by (by apply (lru_list_set _ _ _ x)).
  rewrite bind_run. unfold buf_get at 1. cbn [deref]. rewrite Hy, bind_run. cbn [b_refcnt].
  change (b_refcnt y) with (r - 1). unfold released. destruct (decide (r = 1)) as [E1|E1].
  - replace (r - 1 =? 0) with true by (symmetry; apply Z.eqb_eq; lia). cbn [when].
    pose proof (relink_run b ks k2 l Hl2) as Hrl. rewrite bind_run in Hrl. unfold buf_get at 1 in Hrl. cbn [deref] in Hrl.
    rewrite Hy in Hrl. rewrite Hrl; [|unfold k2; cbn; rewrite length_insert; apply Hfs|done].
    rewrite (thread_release p pid L_bcache k1) by (try done; apply Hfs). eexists. split; [reflexivity|].
    replace (delete bno ca) with (delete bno ca1) by (unfold ca1; apply delete_insert_eq).
    set (B := front b (unlink b (k_bufs k2))).
    change (fs_state R dk (delete bno ca1) lg ((k1 <| k_bufs := B |>) <| k_mach := k_mach (k1 <| k_bufs := B |>) |>)).
    rewrite with_mach_id. unfold B, k2, y. rewrite E1 in HC |- *. apply (fs_state_drop R dk ca1 lg bno b d); auto.
  - replace (r - 1 =? 0) with false by (symmetry; apply Z.eqb_neq; lia). cbn [when].
    rewrite ret_run.
    rewrite (thread_release p pid L_bcache k1) by (try done; apply Hfs). eexists. split; [reflexivity|].
    replace (<[ bno := Pin b d (r - 1) false ]> ca) with (<[ bno := re_ref (r - 1) (Pin b d r false) ]> ca1)
      by (unfold ca1; apply insert_insert_eq).
    pose proof (fs_state_refs R dk ca1 lg bno (Pin b d r false) (r - 1) k1 Hfs HC ltac:(lia)) as Hfin. cbn in Hfin.
    rewrite (alter_insert_at _ _ _ x) in Hfin by done. exact Hfin.
Qed.
End ops.

(** ** The operations of the cache as triples *)

Section steps.
Context {D : Disk} {p : nat} {pid : Z} {DS : DiskSpec D p pid}.
Context (R : kernel) (C : kernel → Prop).

Abbreviation st := (fs_state (p:=p) (pid:=pid) R).

Lemma runs_mono {A} n n' P (m : M kernel A) Q : (n ≤ n')%nat → runs n P m Q C → runs n' P m Q C.
Proof. intros Hn H. by apply (runs_conseq n n' P P m Q Q C C). Qed.

Lemma runs_post {A} n P (m : M kernel A) (Q Q' : A → kernel → Prop) :
  runs n P m Q C → (∀ a k, Q a k → Q' a k) → runs n P m Q' C.
Proof. intros H HQ. by apply (runs_conseq n n P P m Q Q' C C). Qed.

Lemma bread_new dk ca lg bno :
  ca !! bno = None → (size ca < NBUF)%nat → 0 ≤ bno < 2 ^ 31 → length (dblock dk bno) = 1024%nat →
  (∀ k, k_disk k = dk → C k) →
  runs 1 (st dk ca lg) (bread ROOTDEV bno) (λ b, st dk (<[ bno := Pin b (dblock dk bno) 1 true ]> ca) lg) C.
Proof.
  intros HC Hsz Hb Hlen Hcr.
  assert (Hav : available dk ca bno).
  { split; [done|by rewrite HC|by unfold refs; rewrite HC|done]. }
  pose proof (bread_runs R dk ca lg bno Hav) as H. unfold contents, refs in H. rewrite HC in H.
  refine (runs_conseq _ _ _ _ _ _ _ _ _ H _ _ _ _); auto. by intros b k [_ Hk].
Qed.

Lemma bread_pinned dk ca lg bno b d r :
  ca !! bno = Some (Pin b d r false) → r + 1 < 2 ^ 32 → 0 ≤ bno < 2 ^ 31 →
  runs 0 (st dk ca lg) (bread ROOTDEV bno)
    (λ b' k, b' = b ∧ st dk (<[ bno := Pin b d (r + 1) true ]> ca) lg k) C.
Proof.
  intros HC Hr Hb.
  assert (Hav : available dk ca bno).
  { split; [done| | |by rewrite HC]; [|by unfold refs; rewrite HC]. intros pn. rewrite HC. by intros [= <-]. }
  pose proof (bread_runs R dk ca lg bno Hav) as H. unfold contents, refs in H. rewrite HC in H.
  intros ks k Hks Hk. specialize (H ks k Hks Hk). cbn in H.
  destruct (bread ROOTDEV bno ks k) as [b' ks' k'| | |k'|]; try done; [|lia].
  destruct H as ((Hb' & Hfs) & H). specialize (Hb' _ eq_refl). cbn in Hb'. by subst b'.
Qed.

Lemma bwrite_step dk ca lg bno b d r :
  ca !! bno = Some (Pin b d r true) → (∀ k, k_disk k = dk → C k) →
  runs 1 (st dk ca lg) (bwrite b) (λ _, st (<[ bno := d ]> dk) ca lg) C.
Proof.
  intros HC Hcr. pose proof (bwrite_runs R dk ca lg bno b d r HC) as H.
  by refine (runs_conseq _ _ _ _ _ _ _ _ _ H _ _ _ _).
Qed.

Lemma set_data_step dk ca lg bno b d r l f :
  ca !! bno = Some (Pin b d r l) → length (f d) = 1024%nat →
  runs 0 (st dk ca lg) (set_data b f) (λ _, st dk (<[ bno := Pin b (f d) r l ]> ca) lg) C.
Proof.
  intros HC Hl. apply runs_step. intros ks k Hk.
  destruct (set_data_run R dk ca lg bno _ f ks k Hk HC Hl) as (k' & H1 & H2). by exists tt, k'.
Qed.

Lemma buf_data_step dk ca lg bno b d r l :
  ca !! bno = Some (Pin b d r l) →
  runs 0 (st dk ca lg) (buf_data b) (λ d' k, d' = d ∧ st dk ca lg k) C.
Proof.
  intros HC. apply runs_step. intros ks k Hk. exists d, k.
  by rewrite (buf_data_run R dk ca lg bno (Pin b d r l) ks k Hk HC : buf_data b ks k = _).
Qed.

Lemma brelse_step dk ca lg bno b d r :
  ca !! bno = Some (Pin b d r true) → (r = 1 → d = dblock dk bno) →
  runs 0 (st dk ca lg) (brelse b) (λ _, st dk (released bno b d r ca) lg) C.
Proof.
  intros HC Hd. apply runs_step. intros ks k Hk.
  destruct (brelse_run R dk ca lg bno b d r ks k Hk HC Hd) as (k' & H1 & H2). by exists tt, k'.
Qed.

Lemma bunpin_step dk ca lg bno b d r l :
  ca !! bno = Some (Pin b d r l) → 1 < r →
  runs 0 (st dk ca lg) (bunpin b) (λ _, st dk (<[ bno := Pin b d (r - 1) l ]> ca) lg) C.
Proof.
  intros HC Hr. apply runs_step. intros ks k Hk.
  destruct (bunpin_run R dk ca lg bno _ ks k Hk HC Hr) as (k' & H1 & H2). by exists tt, k'.
Qed.

(** Sequencing after a step whose postcondition fixes its result. *)
Lemma runs_bind_eq {A B} n1 n2 P (m : M kernel A) a Q (f : A → M kernel B) Q' :
  runs n1 P m (λ x k, x = a ∧ Q k) C → runs n2 Q (f a) Q' C → runs (n1 + n2) P (m ≫= f) Q' C.
Proof.
  intros Hm Hf. apply (runs_bind _ _ _ _ (λ x k, x = a ∧ Q k)); [done|].
  intros x. apply runs_pure. by intros ->.
Qed.
End steps.

(** ** Properties *)

Section properties.
Context {D : Disk} {p : nat} {pid : Z} {DS : DiskSpec D p pid}.

(** Read a block, change it by [f], write it back. *)
Definition rewrite_block (bno : Z) (f : list Z → list Z) : M kernel unit :=
  b ← bread ROOTDEV bno;
  set_data b f ;;
  bwrite b ;;
  brelse b.

Definition kept (bno : Z) (d : list Z) (ca : cache) : cache :=
  match ca !! bno with
  | Some pn => <[ bno := Pin (pin_buf pn) d (pin_refs pn) false ]> ca
  | None => ca
  end.

Lemma rewrite_block_runs R dk ca lg bno f :
  available dk ca bno → (∀ d, length d = 1024%nat → length (f d) = 1024%nat) →
  length (contents dk ca bno) = 1024%nat → 0 ≤ refs ca bno →
  (∀ pn, ca !! bno = Some pn → 0 < pin_refs pn) →
  runs 2 (fs_state R dk ca lg) (rewrite_block bno f)
    (λ _, fs_state R (<[ bno := f (contents dk ca bno) ]> dk) (kept bno (f (contents dk ca bno)) ca) lg)
    (λ k, k_disk k = dk).
Proof.
  intros Hav Hf Hlen Hr Hpos. set (d := contents dk ca bno) in *. set (r := refs ca bno) in *.
  apply (runs_bind 1 1 _ _ (λ b k, (∀ pn, ca !! bno = Some pn → b = pin_buf pn) ∧
       fs_state R dk (<[ bno := Pin b d (r + 1) true ]> ca) lg k)).
  { eapply runs_conseq; [by apply (bread_runs R dk ca lg bno)|by destruct (ca !! bno); lia|done..]. }
  intros b. apply runs_pure. intros Hb. eapply (runs_bind 0 1).
  { apply (set_data_step R _ _ _ _ bno b d (r + 1) true); [apply lookup_insert_eq|by apply Hf]. }
  intros []; cbn beta. rewrite insert_insert_eq. eapply (runs_bind 1 0).
  { apply (bwrite_step R _ _ _ _ bno b (f d) (r + 1)); [apply lookup_insert_eq|done]. }
  intros []; cbn beta. eapply runs_post; [apply (brelse_step R _ _ _ _ bno b (f d) (r + 1)); [apply lookup_insert_eq|]|].
  - intros _. unfold dblock. by rewrite lookup_insert_eq.
  - cbn beta. intros _ k Hk. unfold released, kept, r, refs in *. destruct (ca !! bno) as [pn|] eqn:E.
    + specialize (Hpos pn eq_refl). rewrite decide_False in Hk by lia. rewrite insert_insert_eq in Hk.
      rewrite <- (Hb pn eq_refl). by replace (pin_refs pn + 1 - 1) with (pin_refs pn) in Hk by lia.
    + rewrite decide_True, delete_insert_id in Hk by done. done.
Qed.

(** C13: the buffer cache behaves like the disk itself.  Whether or not the
    block is cached, and whichever buffer is recycled for it, bread(), a
    change of the data, bwrite() and brelse() change exactly this block of
    the disk, to the result of the change applied to the block's current
    contents; the set of blocks in use, their contents, locks and reference
    counts are as before, nothing else of the kernel's state is touched, there
    are at most two waits for the disk, and a crash during either leaves the
    disk as it was. *)
Theorem bcache_update R dk ca lg bno f :
  available dk ca bno → (∀ d, length d = 1024%nat → length (f d) = 1024%nat) →
  runs 2 (fs_state R dk ca lg) (rewrite_block bno f)
    (λ _, fs_state R (<[ bno := f (contents dk ca bno) ]> dk) (kept bno (f (contents dk ca bno)) ca) lg)
    (λ k, k_disk k = dk).
Proof.
  intros Hav Hf ks k Hks Hk.
  assert (Hpin : ∀ pn, ca !! bno = Some pn → length (pin_data pn) = 1024%nat ∧ 0 < pin_refs pn).
  { intros pn HC. destruct (fs_state_pin _ _ _ _ _ _ _ Hk HC) as (x & _ & _ & _ & Hu & Hsh & ->).
    split; [apply Hsh|]. pose proof (bs_refs _ Hsh). pose proof (bu_refs _ _ Hu). cbn. lia. }
  apply (rewrite_block_runs R dk ca lg bno f); try done.
  - unfold contents. destruct (ca !! bno) as [pn|] eqn:E; [by apply Hpin|by apply Hav].
  - by apply (refs_nonneg R dk ca lg k).
  - intros pn HC. by apply Hpin.
Qed.
End properties.

(** A cache as binit() leaves it. *)
Section witnesses.
#[local] Existing Instance sample_image.

Definition sample_bufs : list buf :=
  match binit [] zero_kernel with Ok _ _ k => k_bufs k | _ => [] end.

Definition sample_fs_kernel : kernel := sample_disk_kernel <| k_bufs := sample_bufs |>.

Lemma sample_lru : lru_list sample_bufs (reverse (seq 0 NBUF)).
Proof. split; [apply reverse_Permutation|]. vm_compute. repeat split. Qed.

Definition fresh_buf (x : buf) : bool :=
  (b_disk x =? 0) && (b_refcnt x =? 0) && (b_dev x =? 0) && (sl_locked (b_lock x) =? 0) && (length (b_data x) =? 1024)%nat.

Lemma sample_fresh b x : sample_bufs !! b = Some x → fresh_buf x = true.
Proof.
  intros Hx. assert (H : forallb fresh_buf sample_bufs = true) by (vm_compute; reflexivity).
  apply (proj1 (forallb_forall _ _) H), list_elem_of_In. by eapply list_elem_of_lookup_2.
Qed.

Lemma fresh_idle dk x : fresh_buf x = true → buf_shape x ∧ buf_idle dk x ∧ b_dev x ≠ ROOTDEV.
Proof.
  unfold fresh_buf. rewrite !andb_true_iff, !Z.eqb_eq, Nat.eqb_eq. intros ((((H1 & H2) & H3) & H4) & H5).
  split; [split; [done|done|lia]|]. split; [split; [done|done|]|]; by rewrite H3.
Qed.

Lemma sample_cache dk : cache_bufs 0 sample_bufs dk ∅.
Proof.
  split.
  - by_eval.
  - intros b x _ Hx. by apply (fresh_idle dk), (sample_fresh b).
  - intros b x _ Hx. left. by apply (fresh_idle dk), (sample_fresh b).
  - intros bno pn. by rewrite lookup_empty.
  - intros b b' x x' _ _ Hx _ Hd. exfalso. by apply (fresh_idle dk x (sample_fresh b x Hx)).
Qed.

Lemma sample_fs_state : fs_state (p:=1) (pid:=0) (fs_forget sample_fs_kernel) ∅ ∅ zero_log sample_fs_kernel.
Proof.
  split; [reflexivity|apply (kernel_thread_ext 1 0 sample_disk_kernel); [apply sample_disk_thread|reflexivity..]| | | |reflexivity..].
  - apply sample_disk_ready.
  - eexists. apply sample_lru.
  - apply sample_cache.
Qed.

Lemma bcache_update_witness :
  match rewrite_block 7 (λ d, 1 :: tail d) [serve 1; serve 1] sample_fs_kernel with
  | Ok _ _ k => dblock (k_disk k) 7 = 1 :: replicate 1023 0
  | _ => False
  end.
Proof.
  pose proof (bcache_update (p:=1) (pid:=0) (fs_forget sample_fs_kernel) ∅ ∅ zero_log 7 (λ d, 1 :: tail d)) as H.
  specialize (H ltac:(split; [by_eval|done|by_eval|intros _; by split; by_eval])).
  specialize (H ltac:(intros [|? ?]; cbn; lia)).
  specialize (H [serve 1; serve 1] sample_fs_kernel ltac:(repeat constructor) sample_fs_state).
  destruct (rewrite_block _ _ _ _) as [[] ks k| | |k|]; try done.
  - destruct H as [H _]. by rewrite (fs_disk _ _ _ _ _ H).
  - destruct H as [_ H]. cbn in H. lia.
Defined.
End witnesses.
