(* ===== verification/Log.v ===== *)
(** * The log: log.c *)

From S2P Require Import Prelude KMonad Memory Riscv State Spinlock Kalloc Vm Sched Sleeplock.
From S2P Require Import Bio.

(** [sizeof(struct logheader)] *)
Definition logheader_size : Z := 4 + 4 * LOGSIZE.

Definition log_set (f : log_t → log_t) : M kernel unit := modify (λ k, k <| k_log ::= f |>).

Section log.
Context `{D : Disk}.

(** [log.lh.block[i]] *)
Definition log_block (i : Z) : M kernel Z :=
  deref "log.lh.block" (λ k, lh_block (lg_lh (k_log k)) !! Z.to_nat i).
Definition set_log_block (i v : Z) : M kernel unit :=
  _ ← log_block i;
  log_set (λ l, l <| lg_lh ::= λ h, h <| lh_block ::= <[ Z.to_nat i := v ]> |> |>).
Definition set_log_n (n : Z) : M kernel unit :=
  log_set (λ l, l <| lg_lh ::= λ h, h <| lh_n := n |> |>).

(** The numbers 0, ..., n-1 a counting loop goes through. *)
Definition upto (n : Z) : list Z := Z.of_nat <$> seq 0 (Z.to_nat n).

(** Copy committed blocks from log to their home location. *)
Definition install_trans (recovering : Z) : M kernel unit :=
  lg ← gets k_log;
  for_each (upto (lh_n (lg_lh lg))) (λ tail,
    lbuf ← bread (u32 (lg_dev lg)) (u32 (lg_start lg + tail + 1));
    bno ← log_block tail;
    dbuf ← bread (u32 (lg_dev lg)) (u32 bno);
    d ← buf_data lbuf;
    set_data dbuf (λ _, d) ;;
    bwrite dbuf ;;
    when (recovering =? 0) (bunpin dbuf) ;;
    brelse lbuf ;;
    brelse dbuf).

(** Read the log header from disk into the in-memory log header. *)
Definition read_head : M kernel unit :=
  lg ← gets k_log;
  b ← bread (u32 (lg_dev lg)) (u32 (lg_start lg));
  d ← buf_data b;
  set_log_n (i32 (get32 d 0)) ;;
  for_each (upto (i32 (get32 d 0))) (λ i, set_log_block i (i32 (get32 d (4 + 4 * i)))) ;;
  brelse b.

(** Write in-memory log header to disk: the point at which the current
    transaction commits. *)
Definition write_head : M kernel unit :=
  lg ← gets k_log;
  b ← bread (u32 (lg_dev lg)) (u32 (lg_start lg));
  set_data b (λ d, put32 d 0 (lh_n (lg_lh lg))) ;;
  for_each (upto (lh_n (lg_lh lg))) (λ i,
    bno ← log_block i;
    set_data b (λ d, put32 d (4 + 4 * i) bno)) ;;
  bwrite b ;;
  brelse b.

Definition recover_from_log : M kernel unit :=
  read_head ;;
  install_trans 1 ;;
  set_log_n 0 ;;
  write_head.

Definition initlog (dev : Z) (sb : superblock) : M kernel unit :=
  if BSIZE <=? logheader_size then panic "initlog: too big logheader" else
  initlock L_log "log" ;;
  log_set (λ l, l <| lg_start := i32 (sb_logstart sb) |>) ;;
  log_set (λ l, l <| lg_size := i32 (sb_nlog sb) |>) ;;
  log_set (λ l, l <| lg_dev := dev |>) ;;
  recover_from_log.

(** The body of begin_op()'s [while(1)]. *)
Definition begin_op_body (_ : unit) : M kernel (unit + unit) :=
  lg ← gets k_log;
  if truthy (lg_committing lg) then
    sleep Ch_log L_log ;; mret (inl tt)
  else if LOGSIZE <? lh_n (lg_lh lg) + (lg_outstanding lg + 1) * MAXOPBLOCKS then
    (* this op might exhaust log space; wait for commit. *)
    sleep Ch_log L_log ;; mret (inl tt)
  else
    log_set (λ l, l <| lg_outstanding := lg_outstanding l + 1 |>) ;;
    release L_log ;;
    mret (inr tt).

Definition begin_op : M kernel unit :=
  acquire L_log ;;
  w ← waits_left;
  while_fuel (S w) begin_op_body tt.

(** Copy modified blocks from cache to log. *)
Definition write_log : M kernel unit :=
  lg ← gets k_log;
  for_each (upto (lh_n (lg_lh lg))) (λ tail,
    to ← bread (u32 (lg_dev lg)) (u32 (lg_start lg + tail + 1));
    bno ← log_block tail;
    from ← bread (u32 (lg_dev lg)) (u32 bno);
    d ← buf_data from;
    set_data to (λ _, d) ;;
    bwrite to ;;
    brelse from ;;
    brelse to).

Definition commit : M kernel unit :=
  lg ← gets k_log;
  when (0 <? lh_n (lg_lh lg))
    (write_log ;;
     write_head ;;
     install_trans 0 ;;
     set_log_n 0 ;;
     write_head).

Definition end_op : M kernel unit :=
  acquire L_log ;;
  log_set (λ l, l <| lg_outstanding := lg_outstanding l - 1 |>) ;;
  lg ← gets k_log;
  if truthy (lg_committing lg) then panic "log.committing" else
  do_commit ← (if lg_outstanding lg =? 0 then
                 log_set (λ l, l <| lg_committing := 1 |>) ;; mret true
               else wakeup Ch_log ;; mret false);
  release L_log ;;
  when do_commit
    (commit ;;
     acquire L_log ;;
     log_set (λ l, l <| lg_committing := 0 |>) ;;
     wakeup Ch_log ;;
     release L_log).

(** [for (i = 0; i < n; i++) if (block[i] == bno) break;]: the final i. *)
Fixpoint find_block (bno i n : Z) (blocks : list Z) : Z :=
  if i <? n then
    match blocks with
    | [] => i
    | x :: blocks' => if u32 x =? bno then i else find_block bno (i + 1) n blocks'
    end
  else i.

Definition log_write (b : nat) : M kernel unit :=
  acquire L_log ;;
  lg ← gets k_log;
  let n := lh_n (lg_lh lg) in
  if (LOGSIZE <=? n) || (lg_size lg - 1 <=? n) then panic "too big a transaction" else
  if lg_outstanding lg <? 1 then panic "log_write outside of trans" else
  x ← buf_get b;
  let i := find_block (b_blockno x) 0 n (lh_block (lg_lh lg)) in
  set_log_block i (i32 (b_blockno x)) ;;
  when (i =? n)
    (bpin b ;;
     set_log_n (n + 1)) ;;
  release L_log.
End log.
