(* ===== verification/LogSpec.v ===== *)
(** * The log makes a group of block writes atomic

    [recovered] is the disk a reboot will see: the committed transaction in
    the log area, if any, copied to the home locations of its blocks.  The
    theorems say that a crash at any point of commit() leaves a disk whose
    recovered contents are either all of the old blocks or all of the new
    ones, and that recovery at boot computes exactly the recovered contents,
    also when it is itself interrupted by crashes. *)

From S2P Require Import Prelude KMonad Memory Riscv State Spinlock Kalloc Vm Sched Sleeplock.
From S2P Require Import Bio Virtio Crash VirtioSpec BioSpec Log.

(** ** Disks *)

Abbreviation disk := (gmap Z (list Z)).

Definition stored (l : list (Z * list Z)) (dk : disk) : disk := foldl (λ m x, <[ x.1 := x.2 ]> m) dk l.

Lemma stored_snoc l a d dk : stored (l ++ [(a, d)]) dk = <[ a := d ]> (stored l dk).
Proof. unfold stored. by rewrite foldl_app. Qed.

Lemma stored_notin l dk a : a ∉ l.*1 → stored l dk !! a = dk !! a.
Proof.
  induction l as [|[b d] l IH] using rev_ind; [done|]. rewrite fmap_app, elem_of_app, stored_snoc. cbn.
  intros H. rewrite lookup_insert_ne by set_solver. apply IH. set_solver.
Qed.

(** The last write to an address decides, whatever was there before. *)
Lemma stored_in l a : a ∈ l.*1 → ∃ d, (a, d) ∈ l ∧ ∀ dk, stored l dk !! a = Some d.
Proof.
  induction l as [|[b d] l IH] using rev_ind; [by intros ?%not_elem_of_nil|].
  rewrite fmap_app, elem_of_app. cbn. intros Ha. destruct (decide (a = b)) as [->|Hne].
  - exists d. split; [set_solver|]. intros dk. rewrite stored_snoc. apply lookup_insert_eq.
  - destruct IH as (d' & Hin & Hd'); [set_solver|]. exists d'. split; [set_solver|].
    intros dk. rewrite stored_snoc, lookup_insert_ne by done. apply Hd'.
Qed.

(** Writing again what a prefix of the writes has written. *)
Lemma stored_again l i dk a : stored l (stored (take i l) dk) !! a = stored l dk !! a.
Proof.
  destruct (decide (a ∈ l.*1)) as [Hin|Hn].
  - destruct (stored_in l a Hin) as (d & _ & Hd). by rewrite !Hd.
  - rewrite !(stored_notin l) by done. apply stored_notin. intros H. apply Hn.
    apply list_elem_of_fmap in H as (x & -> & Hx). apply list_elem_of_fmap. exists x. split; [done|].
    by apply elem_of_take in Hx as (j & Hj & _); apply list_elem_of_lookup_2 in Hj.
Qed.

Lemma stored_nodup l dk a d : NoDup l.*1 → (a, d) ∈ l → stored l dk !! a = Some d.
Proof.
  intros Hnd Hin. destruct (stored_in l a) as (d' & Hin' & ->).
  { apply list_elem_of_fmap. by exists (a, d). }
  f_equal. apply list_elem_of_lookup in Hin as [i Hi]. apply list_elem_of_lookup in Hin' as [j Hj].
  assert (i = j) as ->.
  { apply (NoDup_lookup l.*1 i j a); [done| |]; rewrite list_lookup_fmap; [by rewrite Hi|by rewrite Hj]. }
  rewrite Hi in Hj. by injection Hj as ->.
Qed.

(** The number of blocks the log area has room for after its header. *)
Class LogArea := { log_cap : Z; log_cap_ok : 0 ≤ log_cap ≤ LOGSIZE }.

(** Arithmetic with the size of the log. *)
Ltac cap_lia := pose proof log_cap_ok; change LOGSIZE with 30 in *; lia.

Section area.
Context {LA : LogArea} (start : Z).

(** The log area: the header block and [log_cap] blocks. *)
Definition in_log (bno : Z) : Prop := start ≤ bno ≤ start + log_cap.
Definition home (bno : Z) : Prop := 0 ≤ bno < 2 ^ 31 ∧ ¬ in_log bno.
Definition same_home (dk dk' : disk) : Prop := ∀ bno, home bno → dblock dk bno = dblock dk' bno.

#[export] Instance same_home_equivalence : Equivalence same_home.
Proof.
  split.
  - by intros dk bno _.
  - intros dk dk' H bno Hb. by rewrite H.
  - intros d1 d2 d3 H1 H2 bno Hb. by rewrite H1, H2.
Qed.

(** The header block, and the transaction it commits. *)
Definition head_n (d : list Z) : Z := i32 (get32 d 0).
Definition head_blocks (d : list Z) : list Z := (λ i, i32 (get32 d (4 + 4 * i))) <$> upto (head_n d).
Definition log_image (dk : disk) : list (Z * list Z) :=
  imap (λ i bno, (bno, dblock dk (start + Z.of_nat i + 1))) (head_blocks (dblock dk start)).

(** The disk after recovery. *)
Definition recovered (dk : disk) : disk := stored (log_image dk) dk.

Record disk_ok (dk : disk) : Prop := {
  do_len : ∀ bno, length (dblock dk bno) = 1024%nat;
  do_n : 0 ≤ head_n (dblock dk start) ≤ log_cap;
  do_home : Forall home (head_blocks (dblock dk start));
}.

Lemma upto_length n : length (upto n) = Z.to_nat n.
Proof. unfold upto. by rewrite length_fmap, length_seq. Qed.

Lemma upto_lookup n j i : upto n !! j = Some i → i = Z.of_nat j ∧ (j < Z.to_nat n)%nat.
Proof.
  unfold upto. rewrite list_lookup_fmap. intros (k & Hk & ->)%fmap_Some.
  apply lookup_seq in Hk as [-> Hk]. done.
Qed.

Lemma head_blocks_length d : length (head_blocks d) = Z.to_nat (head_n d).
Proof. unfold head_blocks. by rewrite length_fmap, upto_length. Qed.

Lemma log_image_length dk : length (log_image dk) = Z.to_nat (head_n (dblock dk start)).
Proof. unfold log_image. by rewrite length_imap, head_blocks_length. Qed.

Lemma log_image_fst dk : (log_image dk).*1 = head_blocks (dblock dk start).
Proof.
  apply list_eq. intros i. unfold log_image. rewrite list_lookup_fmap, list_lookup_imap.
  by destruct (head_blocks _ !! i).
Qed.

Lemma recovered_idle dk : head_n (dblock dk start) = 0 → recovered dk = dk.
Proof.
  intros H. unfold recovered. assert (log_image dk = []) as -> by (apply nil_length_inv; by rewrite log_image_length, H).
  done.
Qed.

(** The transaction depends on the log area only. *)
Lemma log_image_ext dk dk' :
  disk_ok dk → (∀ bno, in_log bno → dblock dk' bno = dblock dk bno) → log_image dk' = log_image dk.
Proof.
  intros Hok H. assert (Hs : in_log start) by (unfold in_log; cap_lia).
  unfold log_image. rewrite (H start Hs). apply imap_ext. intros i x Hx. f_equal. apply H.
  apply lookup_lt_Some in Hx. rewrite head_blocks_length in Hx. pose proof (do_n _ Hok). unfold in_log. lia.
Qed.

Lemma dblock_stored_notin l dk bno : bno ∉ l.*1 → dblock (stored l dk) bno = dblock dk bno.
Proof. intros H. unfold dblock. by rewrite stored_notin. Qed.

Lemma dblock_insert_ne (dk : disk) a d bno : a ≠ bno → dblock (<[ a := d ]> dk) bno = dblock dk bno.
Proof. intros H. unfold dblock. by rewrite lookup_insert_ne. Qed.

Lemma dblock_insert_eq (dk : disk) a d : dblock (<[ a := d ]> dk) a = d.
Proof. unfold dblock. by rewrite lookup_insert_eq. Qed.

Lemma elem_of_take_fst {A B} (l : list (A * B)) i a : a ∈ (take i l).*1 → a ∈ l.*1.
Proof.
  rewrite !list_elem_of_fmap. intros (x & -> & Hx). exists x. split; [done|].
  by apply elem_of_take in Hx as (j & Hj & _); apply list_elem_of_lookup_2 in Hj.
Qed.

(** While the transaction is being installed the log area stays as it is. *)
Lemma install_in_log dk i bno :
  disk_ok dk → in_log bno → dblock (stored (take i (log_image dk)) dk) bno = dblock dk bno.
Proof.
  intros [_ _ Hh] Hb. apply dblock_stored_notin. intros Hin.
  apply elem_of_take_fst in Hin. rewrite log_image_fst in Hin. rewrite Forall_forall in Hh.
  by destruct (Hh bno Hin).
Qed.

Lemma install_log_image dk i :
  disk_ok dk → log_image (stored (take i (log_image dk)) dk) = log_image dk.
Proof. intros Hok. apply log_image_ext; [done|]. intros bno. by apply install_in_log. Qed.

Lemma install_recovered dk i bno :
  disk_ok dk → recovered (stored (take i (log_image dk)) dk) !! bno = recovered dk !! bno.
Proof. intros Hok. unfold recovered. rewrite install_log_image by done. apply stored_again. Qed.

(** Filling the log area while it holds no transaction. *)
Lemma filling_recovered dk l :
  0 ≤ start → head_n (dblock dk start) = 0 → Forall (λ x, start < x.1 ≤ start + log_cap) l →
  same_home (recovered (stored l dk)) dk.
Proof.
  intros Hs H0 Hl. rewrite Forall_forall in Hl.
  assert (Hn : ∀ bno, ¬ (start < bno ≤ start + log_cap) → dblock (stored l dk) bno = dblock dk bno).
  { intros bno Hb. apply dblock_stored_notin. intros Hin. apply list_elem_of_fmap in Hin as (x & -> & Hx).
    by apply Hb, Hl. }
  rewrite recovered_idle by (rewrite Hn by lia; done). intros bno [_ Hb]. apply Hn. unfold in_log in Hb. lia.
Qed.
End area.

(** ** Accesses to the log as triples *)

Section log_steps.
Context {D : Disk} {p : nat} {pid : Z} {DS : DiskSpec D p pid}.
Context (R : kernel) (C : kernel → Prop).

Abbreviation st := (fs_state (p:=p) (pid:=pid) R).

Lemma gets_log_runs dk ca lg :
  runs 0 (st dk ca lg) (gets k_log) (λ x k, x = lg ∧ st dk ca lg k) C.
Proof. apply runs_step. intros ks k H. exists (k_log k), k. split; [done|]. split; [apply H|done]. Qed.

Lemma log_block_step dk ca lg i bno :
  lh_block (lg_lh lg) !! Z.to_nat i = Some bno →
  runs 0 (st dk ca lg) (log_block i) (λ x k, x = bno ∧ st dk ca lg k) C.
Proof.
  intros Hi. apply runs_step. intros ks k Hk. exists bno, k. unfold log_block, deref.
  by rewrite (fs_log _ _ _ _ _ Hk), Hi.
Qed.

Lemma log_set_step dk ca lg f :
  runs 0 (st dk ca lg) (log_set f) (λ _, st dk ca (f lg)) C.
Proof.
  apply runs_step. intros ks k [H1 H2 H3 H4 H5 H6 H7]. eexists tt, _. split; [reflexivity|].
  split; try done; [by apply (kernel_thread_ext p pid k)|by apply (disk_ready_ext k)|]. cbn. by rewrite H7.
Qed.
End log_steps.

(** ** write_log(), write_head(), install_trans() *)

Section phases.
Context {D : Disk} {p : nat} {pid : Z} {DS : DiskSpec D p pid}.
Context {LA : LogArea} (R : kernel) (start : Z).

Abbreviation st := (fs_state (p:=p) (pid:=pid) R).

(** A log that has been initialised. *)
Record log_at (lg : log_t) : Prop := {
  la_dev : lg_dev lg = ROOTDEV;
  la_start : lg_start lg = start;
  la_area : 0 ≤ start ∧ start + log_cap < 2 ^ 31;
  la_len : length (lh_block (lg_lh lg)) = Z.to_nat LOGSIZE;
}.

Lemma log_at_block lg i :
  log_at lg → 0 ≤ i < log_cap → u32 (lg_start lg + i + 1) = start + i + 1 ∧ 0 ≤ start + i + 1 < 2 ^ 31.
Proof. intros [_ -> [? ?] _] Hi. split; [apply u32_small; lia|lia]. Qed.

Lemma log_at_dev lg : log_at lg → u32 (lg_dev lg) = ROOTDEV.
Proof. by intros [-> _ _ _]. Qed.

Lemma log_at_start lg : log_at lg → u32 (lg_start lg) = start ∧ 0 ≤ start < 2 ^ 31.
Proof. intros [_ -> [? ?] _]. split; [apply u32_small; cap_lia|cap_lia]. Qed.

Lemma u32_home bno : home start bno → u32 bno = bno.
Proof. intros [? _]. apply u32_small. lia. Qed.

(** The cache entries an iteration uses are put back. *)
Ltac same_cache := apply map_eq; intros ?; rewrite ?lookup_delete, ?lookup_insert, ?lookup_delete;
  repeat case_decide; congruence.

Lemma write_log_step lg dk ca i bno b d r :
  log_at lg → 0 ≤ i < log_cap → lh_block (lg_lh lg) !! Z.to_nat i = Some bno → home start bno →
  ca !! bno = Some (Pin b d r false) → 0 < r < 2 ^ 31 → length d = 1024%nat → ca !! (start + i + 1) = None →
  (size ca < NBUF)%nat → length (dblock dk (start + i + 1)) = 1024%nat →
  runs 2 (st dk ca lg)
    (to ← bread (u32 (lg_dev lg)) (u32 (lg_start lg + i + 1));
     bno ← log_block i;
     from ← bread (u32 (lg_dev lg)) (u32 bno);
     d ← buf_data from;
     set_data to (λ _, d) ;;
     bwrite to ;;
     brelse from ;;
     brelse to)
    (λ _, st (<[ start + i + 1 := d ]> dk) ca lg) (λ k, k_disk k = dk).
Proof.
  intros Hla Hi Hbno Hh HC Hr Hd HN Hsz Hlen.
  destruct (log_at_block lg i Hla Hi) as [-> Hla1]. rewrite (log_at_dev lg Hla).
  set (la := start + i + 1) in *. assert (Hne : la ≠ bno) by congruence.
  apply (runs_bind 1 1 _ _ (λ to, st dk (<[ la := Pin to (dblock dk la) 1 true ]> ca) lg)).
  { by apply bread_new. }
  intros to. apply (runs_bind_eq _ 0 1 _ _ bno _ _ _ (log_block_step R _ _ _ _ _ _ Hbno)).
  rewrite (u32_home bno Hh).
  eapply (runs_bind_eq _ 0 1).
  { apply (bread_pinned R _ _ _ _ bno b d r); [by rewrite lookup_insert_ne|lia|apply Hh]. }
  eapply (runs_bind_eq _ 0 1).
  { eapply (buf_data_step R _ _ _ _ bno). apply lookup_insert_eq. }
  eapply (runs_bind 0 1).
  { apply (set_data_step R _ _ _ _ la to (dblock dk la) 1 true); [by rewrite lookup_insert_ne, lookup_insert_eq by done|done]. }
  intros []; cbn beta. eapply (runs_bind 1 0).
  { apply (bwrite_step R _ _ _ _ la to d 1); [apply lookup_insert_eq|done]. }
  intros []; cbn beta. eapply (runs_bind 0 0).
  { apply (brelse_step R _ _ _ _ bno b d (r + 1)); [by rewrite lookup_insert_ne, lookup_insert_eq by done|lia]. }
  intros []; cbn beta. unfold released. rewrite decide_False by lia.
  eapply runs_post; [apply (brelse_step R _ _ _ _ la to d 1)|].
  - by rewrite lookup_insert_ne, lookup_insert_eq by done.
  - intros _. by rewrite dblock_insert_eq.
  - cbn beta. intros _ k Hk. unfold released in Hk. rewrite decide_True in Hk by done.
    replace ca with (delete la (<[ bno := Pin b d (r + 1 - 1) false ]> (<[ la := Pin to d 1 true ]>
      (<[ bno := Pin b d (r + 1) true ]> (<[ la := Pin to (dblock dk la) 1 true ]> ca))))) at 1; [done|].
    replace (r + 1 - 1) with r by lia. same_cache.
Qed.

(** A transaction: the block numbers recorded in the header in memory, each
    pinned in the cache, with the contents to be written. *)
Record tx_ok (lg : log_t) (ca : cache) (tx : list (Z * list Z)) : Prop := {
  tx_n : lh_n (lg_lh lg) = Z.of_nat (length tx);
  tx_max : Z.of_nat (length tx) ≤ log_cap;
  tx_blocks : ∀ i x, tx !! i = Some x → lh_block (lg_lh lg) !! i = Some x.1;
  tx_home : Forall (home start) tx.*1;
  tx_nodup : NoDup tx.*1;
  tx_pins : ∀ bno d, (bno, d) ∈ tx → length d = 1024%nat ∧ ∃ b, ca !! bno = Some (Pin b d 1 false);
}.

(** The cache leaves the log area alone. *)
Record room (ca : cache) : Prop := {
  rm_size : (S (size ca) < NBUF)%nat;
  rm_log : ∀ bno, in_log start bno → ca !! bno = None;
}.

Definition log_writes (tx : list (Z * list Z)) : list (Z * list Z) :=
  imap (λ i x, (start + Z.of_nat i + 1, x.2)) tx.

Definition lens (dk : disk) : Prop := ∀ bno, length (dblock dk bno) = 1024%nat.

Lemma lens_insert dk a d : lens dk → length d = 1024%nat → lens (<[ a := d ]> dk).
Proof.
  intros H Hd bno. destruct (decide (a = bno)) as [->|]; [by rewrite dblock_insert_eq|by rewrite dblock_insert_ne].
Qed.

Lemma lens_stored l dk : lens dk → Forall (λ x, length x.2 = 1024%nat) l → lens (stored l dk).
Proof.
  revert dk. induction l as [|[a d] l IH]; intros dk H Hl; [done|]. inversion Hl; subst.
  cbn. apply IH; [|done]. by apply lens_insert.
Qed.

Lemma log_writes_lens lg ca tx : tx_ok lg ca tx → Forall (λ x, length x.2 = 1024%nat) (log_writes tx).
Proof.
  intros Htx. apply Forall_lookup. intros i x. unfold log_writes. rewrite list_lookup_imap.
  intros ([bno d] & Hy & ->)%fmap_Some. cbn. by apply list_elem_of_lookup_2, (tx_pins _ _ _ Htx) in Hy as [? _].
Qed.

Lemma write_log_runs lg dk ca tx :
  log_at lg → tx_ok lg ca tx → room ca → lens dk →
  runs (length tx * 2) (st dk ca lg) write_log (λ _, st (stored (log_writes tx) dk) ca lg)
    (λ k, ∃ i, k_disk k = stored (take i (log_writes tx)) dk).
Proof.
  intros Hla Htx Hrm Hlen. unfold write_log.
  apply (runs_bind_eq _ 0 (length tx * 2) _ _ lg _ _ _ (gets_log_runs R _ dk ca lg)).
  set (I := λ j, st (stored (take j (log_writes tx)) dk) ca lg).
  assert (Hn : Z.to_nat (lh_n (lg_lh lg)) = length tx) by (rewrite (tx_n _ _ _ Htx); lia).
  assert (Hll : length (log_writes tx) = length tx) by apply length_imap.
  eapply runs_mono; [|eapply runs_post; [apply (runs_for_each 2 (upto (lh_n (lg_lh lg))) _ I)|]].
  - rewrite upto_length, Hn. lia.
  - intros j i Hj. apply upto_lookup in Hj as [-> Hj]. rewrite Hn in Hj.
    destruct (lookup_lt_is_Some_2 tx j Hj) as [[bno d] Htj].
    pose proof (tx_max _ _ _ Htx) as Hmax.
    destruct (tx_pins _ _ _ Htx bno d) as [Hd [b Hb]]; [by eapply list_elem_of_lookup_2|].
    assert (Hhome : home start bno).
    { pose proof (tx_home _ _ _ Htx) as Hf. rewrite Forall_forall in Hf. apply Hf.
      apply list_elem_of_fmap. exists (bno, d). split; [done|]. by eapply list_elem_of_lookup_2. }
    eapply runs_conseq; [apply (write_log_step lg (stored (take j (log_writes tx)) dk) ca (Z.of_nat j) bno b d 1)|lia|done| |].
    + done.
    + lia.
    + rewrite Nat2Z.id. by apply (tx_blocks _ _ _ Htx j (bno, d)).
    + done.
    + done.
    + lia.
    + done.
    + apply Hrm. unfold in_log. lia.
    + pose proof (rm_size _ Hrm). lia.
    + apply lens_stored; [done|]. apply Forall_take. by eapply log_writes_lens.
    + cbn beta. intros _ k Hk. unfold I. rewrite (take_S_r _ _ (start + Z.of_nat j + 1, d)); [by rewrite stored_snoc|].
      unfold log_writes. by rewrite list_lookup_imap, Htj.
    + cbn beta. intros k Hk. by exists j.
  - cbn beta. intros _ k. unfold I. rewrite upto_length, Hn, take_ge by lia. done.
Qed.

(** A header block under construction: the count and the first [j] numbers. *)
Record head_prefix (n : Z) (bs : list Z) (j : nat) (d : list Z) : Prop := {
  hp_len : length d = 1024%nat;
  hp_n : i32 (get32 d 0) = n;
  hp_blocks : ∀ i, (i < j)%nat → i32 (get32 d (4 + 4 * Z.of_nat i)) = bs !!! i;
}.

Lemma i32_u32 v : 0 ≤ v < 2 ^ 31 → i32 (u32 v) = v.
Proof. intros H. rewrite u32_small by lia. apply i32_small. lia. Qed.

Lemma head_prefix_0 n bs d : length d = 1024%nat → 0 ≤ n < 2 ^ 31 → head_prefix n bs 0 (put32 d 0 n).
Proof.
  intros Hd Hn. split; [by rewrite put32_length| |lia].
  rewrite get32_put32 by (rewrite ?Hd; lia). by apply i32_u32.
Qed.

Lemma head_prefix_S n bs j d bno :
  head_prefix n bs j d → bs !! j = Some bno → 0 ≤ bno < 2 ^ 31 → (j < 30)%nat →
  head_prefix n bs (S j) (put32 d (4 + 4 * Z.of_nat j) bno).
Proof.
  intros [H1 H2 H3] Hb Hr Hj. split; [by rewrite put32_length|rewrite get32_put32_other by (rewrite ?H1; lia); done|].
  intros i Hi. destruct (decide (i = j)) as [->|Hne].
  - rewrite get32_put32 by (rewrite ?H1; lia). rewrite i32_u32 by done. by rewrite (list_lookup_total_correct _ _ _ Hb).
  - rewrite get32_put32_other by (rewrite ?H1; lia). apply H3. lia.
Qed.

Lemma head_prefix_done n bs d :
  head_prefix n bs (Z.to_nat n) d → 0 ≤ n ≤ Z.of_nat (length bs) →
  head_n d = n ∧ head_blocks d = take (Z.to_nat n) bs.
Proof.
  intros [H1 H2 H3] Hn. assert (Hh : head_n d = n) by done. split; [done|].
  apply list_eq. intros i. unfold head_blocks, upto. rewrite Hh, !list_lookup_fmap.
  destruct (decide (i < Z.to_nat n)%nat) as [Hi|Hi].
  - rewrite lookup_seq_lt by done. cbn. rewrite H3 by done. rewrite lookup_take_lt by done.
    symmetry. apply list_lookup_lookup_total_lt. lia.
  - rewrite lookup_seq_ge, lookup_take_ge by lia. done.
Qed.

Lemma write_head_runs lg dk ca :
  log_at lg → room ca → lens dk → 0 ≤ lh_n (lg_lh lg) ≤ log_cap →
  (∀ i bno, (Z.of_nat i < lh_n (lg_lh lg)) → lh_block (lg_lh lg) !! i = Some bno → 0 ≤ bno < 2 ^ 31) →
  runs 2 (st dk ca lg) write_head
    (λ _ k, ∃ d, (length d = 1024%nat ∧ head_n d = lh_n (lg_lh lg) ∧
       head_blocks d = take (Z.to_nat (lh_n (lg_lh lg))) (lh_block (lg_lh lg))) ∧
       st (<[ start := d ]> dk) ca lg k)
    (λ k, k_disk k = dk).
Proof.
  intros Hla Hrm Hlen Hn Hbs. unfold write_head. assert (HLS : LOGSIZE = 30) by done. pose proof log_cap_ok as Hcap. set (n := lh_n (lg_lh lg)) in *. set (bs := lh_block (lg_lh lg)) in *.
  apply (runs_bind_eq _ 0 2 _ _ lg _ _ _ (gets_log_runs R _ dk ca lg)). rewrite (log_at_dev lg Hla).
  destruct (log_at_start lg Hla) as [-> Hs].
  assert (Hnone : ca !! start = None) by (apply Hrm; unfold in_log; cap_lia).
  apply (runs_bind 1 1 _ _ (λ b, st dk (<[ start := Pin b (dblock dk start) 1 true ]> ca) lg)).
  { apply bread_new; try done. pose proof (rm_size _ Hrm). lia. }
  intros b. fold n.
  set (I := λ j k, ∃ d, head_prefix n bs j d ∧ st dk (<[ start := Pin b d 1 true ]> ca) lg k).
  assert (Hset : ∀ d f P, length (f d) = 1024%nat → P (f d) →
    runs 0 (st dk (<[ start := Pin b d 1 true ]> ca) lg) (set_data b f)
      (λ _ k, ∃ d', P d' ∧ st dk (<[ start := Pin b d' 1 true ]> ca) lg k) (λ k, k_disk k = dk)).
  { intros d f P Hd HP. eapply runs_post; [apply (set_data_step R _ _ _ _ start b d 1 true); [apply lookup_insert_eq|done]|].
    cbn beta. intros _ k Hk. exists (f d). split; [done|]. by rewrite insert_insert_eq in Hk. }
  apply (runs_bind 0 1 _ _ (λ _, I 0%nat)).
  { apply Hset; [by rewrite put32_length|]. apply head_prefix_0; [done|lia]. }
  intros []. apply (runs_bind 0 1 _ _ (λ _, I (Z.to_nat n))).
  - eapply runs_mono; [|eapply runs_post; [apply (runs_for_each 0 (upto n) _ I)|]].
    + lia.
    + intros j i Hj. apply upto_lookup in Hj as [-> Hj]. unfold I at 1. apply runs_exists. intros d. apply runs_pure. intros Hp.
      destruct (lookup_lt_is_Some_2 bs j) as [bno Hb]; [unfold bs; rewrite (la_len _ Hla); lia|].
      eapply (runs_bind_eq _ 0 0); [apply (log_block_step R _ _ _ _ _ bno); by rewrite Nat2Z.id|].
      pose proof (head_prefix_S n bs j d bno Hp Hb ltac:(by apply (Hbs j); [lia|]) ltac:(lia)) as HpS.
      apply (Hset d _ (head_prefix n bs (S j))); [|done]. rewrite put32_length. apply Hp.
    + cbn beta. intros _ k. by rewrite upto_length.
  - intros []. unfold I. apply runs_exists. intros d. apply runs_pure. intros Hp.
    eapply (runs_bind 1 0); [by apply (bwrite_step R _ _ _ _ start b d 1); [apply lookup_insert_eq|]|].
    intros []. eapply runs_post; [apply (brelse_step R _ _ _ _ start b d 1); [apply lookup_insert_eq|by rewrite dblock_insert_eq]|].
    cbn beta. intros _ k Hk. exists d. split.
    + split; [apply Hp|]. apply head_prefix_done; [done|]. unfold bs. rewrite (la_len _ Hla). lia.
    + unfold released in Hk. rewrite decide_True, delete_insert_id in Hk by done. done.
Qed.

(** The home block of a logged one: pinned during a commit, not in use during
    recovery. *)
Definition home_entry (rec : Z) (ca : cache) (bno : Z) : Prop :=
  if rec =? 0 then ∃ b d, ca !! bno = Some (Pin b d 1 false) else ca !! bno = None.

Lemma bread_home rec lg dk ca bno :
  home_entry rec ca bno → (size ca < NBUF)%nat → home start bno → lens dk →
  runs 1 (st dk ca lg) (bread ROOTDEV bno)
    (λ b k, ∃ d, st dk (<[ bno := Pin b d (if rec =? 0 then 2 else 1) true ]> ca) lg k) (λ k, k_disk k = dk).
Proof.
  unfold home_entry. intros He Hsz Hh Hl. destruct (rec =? 0).
  - destruct He as (b & d & HC). eapply (runs_mono _ 0 1); [lia|].
    eapply runs_post; [apply (bread_pinned R _ _ _ _ bno b d 1); [done|lia|apply Hh]|].
    cbn beta. intros b' k [-> Hk]. by exists d.
  - eapply runs_post; [apply bread_new; try done; apply Hh|]. cbn beta. intros b k Hk. by exists (dblock dk bno).
Qed.

Lemma install_step rec lg dk ca i bno :
  log_at lg → 0 ≤ i < log_cap → lh_block (lg_lh lg) !! Z.to_nat i = Some bno → home start bno →
  home_entry rec ca bno → room ca → lens dk →
  runs 3 (st dk ca lg)
    (lbuf ← bread (u32 (lg_dev lg)) (u32 (lg_start lg + i + 1));
     bno ← log_block i;
     dbuf ← bread (u32 (lg_dev lg)) (u32 bno);
     d ← buf_data lbuf;
     set_data dbuf (λ _, d) ;;
     bwrite dbuf ;;
     when (rec =? 0) (bunpin dbuf) ;;
     brelse lbuf ;;
     brelse dbuf)
    (λ _, st (<[ bno := dblock dk (start + i + 1) ]> dk) (delete bno ca) lg) (λ k, k_disk k = dk).
Proof.
  intros Hla Hi Hbno Hh He Hrm Hlen.
  destruct (log_at_block lg i Hla Hi) as [-> Hla1]. rewrite (log_at_dev lg Hla).
  set (la := start + i + 1) in *. assert (Hin : in_log start la) by (unfold in_log, la; lia).
  pose proof (rm_log _ Hrm la Hin) as HN. pose proof (rm_size _ Hrm) as Hsz.
  assert (Hne : la ≠ bno) by (intros E; apply Hh; by rewrite <- E).
  set (d := dblock dk la).
  apply (runs_bind 1 2 _ _ (λ lb, st dk (<[ la := Pin lb d 1 true ]> ca) lg)).
  { apply bread_new; try done. lia. }
  intros lb. apply (runs_bind_eq _ 0 2 _ _ bno _ _ _ (log_block_step R _ _ _ _ _ _ Hbno)).
  rewrite (u32_home bno Hh).
  eapply (runs_bind 1 1).
  { apply (bread_home rec); [|rewrite map_size_insert_None by done; lia|done|done].
    unfold home_entry in *. by rewrite lookup_insert_ne. }
  intros b. apply runs_exists. intros d0. set (r := if rec =? 0 then 2 else 1).
  eapply (runs_bind_eq _ 0 1).
  { eapply (buf_data_step R _ _ _ _ la). by rewrite lookup_insert_ne, lookup_insert_eq by done. }
  eapply (runs_bind 0 1).
  { apply (set_data_step R _ _ _ _ bno b d0 r true); [apply lookup_insert_eq|apply Hlen]. }
  intros []; cbn beta. rewrite insert_insert_eq. eapply (runs_bind 1 0).
  { apply (bwrite_step R _ _ _ _ bno b d r); [apply lookup_insert_eq|done]. }
  intros []. eapply (runs_bind 0 0 _ _ (λ _, st (<[ bno := d ]> dk) (<[ bno := Pin b d 1 true ]> (<[ la := Pin lb d 1 true ]> ca)) lg)).
  { apply runs_when; unfold r; intros ->; [|done].
    eapply runs_post; [by apply (bunpin_step R _ _ _ _ bno b d 2 true); [apply lookup_insert_eq|]|].
    cbn beta. intros _ k Hk. by rewrite insert_insert_eq in Hk. }
  intros []. eapply (runs_bind 0 0).
  { apply (brelse_step R _ _ _ _ la lb d 1); [by rewrite lookup_insert_ne, lookup_insert_eq by done|].
    intros _. by rewrite dblock_insert_ne by done. }
  intros []; cbn beta. unfold released. rewrite decide_True by done.
  eapply runs_post; [apply (brelse_step R _ _ _ _ bno b d 1)|].
  - by rewrite lookup_delete_ne, lookup_insert_eq by done.
  - intros _. by rewrite dblock_insert_eq.
  - cbn beta. intros _ k Hk. unfold released in Hk. rewrite decide_True in Hk by done.
    replace (delete bno ca) with (delete bno (delete la (<[ bno := Pin b d 1 true ]> (<[ la := Pin lb d 1 true ]> ca)))); [done|].
    same_cache.
Qed.

Definition unpinned (bs : list Z) (ca : cache) : cache := foldl (λ c b, delete b c) ca bs.

Lemma unpinned_lookup bs ca a : unpinned bs ca !! a = if decide (a ∈ bs) then None else ca !! a.
Proof.
  revert ca. induction bs as [|b bs IH]; intros ca; [by rewrite decide_False by apply not_elem_of_nil|].
  change (unpinned (b :: bs) ca) with (unpinned bs (delete b ca)). rewrite IH. destruct (decide (a ∈ bs)), (decide (a ∈ b :: bs)); try done; [set_solver| |].
  - assert (a = b) as -> by set_solver. apply lookup_delete_eq.
  - apply lookup_delete_ne. set_solver.
Qed.

Lemma room_unpinned bs ca : room ca → room (unpinned bs ca).
Proof.
  revert ca. induction bs as [|b bs IH]; intros ca H; [done|]. apply (IH (delete b ca)). destruct H as [H1 H2]. split.
  - rewrite map_size_delete. destruct (ca !! b); cbn; lia.
  - intros bno Hb. rewrite lookup_delete. case_decide; [done|by apply H2].
Qed.

(** The header in memory is that of the disk. *)
Definition head_read (dk : disk) (lg : log_t) : Prop :=
  lh_n (lg_lh lg) = head_n (dblock dk start) ∧
  take (Z.to_nat (lh_n (lg_lh lg))) (lh_block (lg_lh lg)) = head_blocks (dblock dk start).

Lemma install_lens dk j : disk_ok start dk → lens (stored (take j (log_image start dk)) dk).
Proof.
  intros Hok. apply lens_stored; [exact (do_len _ _ Hok)|]. apply Forall_take, Forall_lookup.
  intros i x. unfold log_image. rewrite list_lookup_imap. intros (y & Hy & ->)%fmap_Some. apply Hok.
Qed.

Lemma install_trans_runs rec lg dk ca :
  let bs := head_blocks (dblock dk start) in
  log_at lg → disk_ok start dk → head_read dk lg → room ca →
  (rec = 0 → NoDup bs) → (∀ bno, bno ∈ bs → home_entry rec ca bno) →
  runs (length bs * 3) (st dk ca lg) (install_trans rec) (λ _, st (recovered start dk) (unpinned bs ca) lg)
    (λ k, ∃ i, k_disk k = stored (take i (log_image start dk)) dk).
Proof.
  intros bs Hla Hok [Hn Hbs] Hrm Hnd Hent. unfold install_trans.
  apply (runs_bind_eq _ 0 (length bs * 3) _ _ lg _ _ _ (gets_log_runs R _ dk ca lg)).
  set (dj := λ j, stored (take j (log_image start dk)) dk).
  set (I := λ j, st (dj j) (unpinned (take j bs) ca) lg).
  assert (Hln : length bs = Z.to_nat (lh_n (lg_lh lg))) by (unfold bs; by rewrite head_blocks_length, Hn).
  eapply runs_mono; [|eapply runs_post; [apply (runs_for_each 3 (upto (lh_n (lg_lh lg))) _ I)|]].
  - rewrite upto_length, Hln. lia.
  - intros j i Hj. apply upto_lookup in Hj as [-> Hj].
    destruct (lookup_lt_is_Some_2 bs j) as [bno Hb]; [lia|].
    assert (Hbin : bno ∈ bs) by (by eapply list_elem_of_lookup_2).
    assert (Hlk : lh_block (lg_lh lg) !! j = Some bno).
    { rewrite <- Hb. unfold bs. rewrite <- Hbs, lookup_take_lt by done. done. }
    pose proof (do_n _ _ Hok) as Hmax.
    assert (Hhome : home start bno) by (pose proof (do_home _ _ Hok) as Hf; rewrite Forall_forall in Hf; by apply Hf).
    assert (Hd : dblock (dj j) (start + Z.of_nat j + 1) = dblock dk (start + Z.of_nat j + 1)).
    { apply install_in_log; [done|]. unfold in_log. lia. }
    assert (Hlens : lens (dj j)) by (by apply install_lens).
    eapply runs_conseq; [apply (install_step rec lg (dj j) (unpinned (take j bs) ca) (Z.of_nat j) bno)|lia|done| |].
    + done.
    + lia.
    + by rewrite Nat2Z.id.
    + done.
    + specialize (Hent bno Hbin). unfold home_entry in *. rewrite unpinned_lookup.
      destruct (Z.eqb_spec rec 0) as [->|]; [|by case_decide]. rewrite decide_False; [done|].
      intros Hin. apply list_elem_of_lookup in Hin as [i Hi]. apply lookup_take_Some in Hi as [Hi Hlt].
      pose proof (NoDup_lookup _ _ _ _ (Hnd eq_refl) Hi Hb). lia.
    + by apply room_unpinned.
    + done.
    + cbn beta. intros _ k Hk. unfold I, dj. rewrite (take_S_r bs _ bno), (take_S_r (log_image start dk) _ (bno, dblock dk (start + Z.of_nat j + 1))).
      * rewrite stored_snoc. unfold unpinned. rewrite foldl_app. cbn. rewrite <- Hd. done.
      * unfold log_image. rewrite list_lookup_imap. fold bs. by rewrite Hb.
      * done.
    + cbn beta. intros k Hk. by exists j.
  - cbn beta. intros _ k. unfold I, dj, recovered. rewrite upto_length, !take_ge; [done|lia|].
    rewrite log_image_length. lia.
Qed.

(** ** Committing *)

(** What the log area holds once commit() has written the header. *)
Lemma committed_image lg ca tx dk d :
  tx_ok lg ca tx → lens dk → 0 ≤ start → length d = 1024%nat → head_n d = Z.of_nat (length tx) → head_blocks d = tx.*1 →
  let dk1 := <[ start := d ]> (stored (log_writes tx) dk) in
  log_image start dk1 = tx ∧ disk_ok start dk1 ∧ same_home start dk1 dk.
Proof.
  intros Htx Hlen Hs Hd Hn Hb dk1. assert (HLS : LOGSIZE = 30) by done. pose proof log_cap_ok as Hcap. pose proof (tx_max _ _ _ Htx) as Hmax.
  assert (Hst : dblock dk1 start = d) by apply dblock_insert_eq.
  assert (Hw : (log_writes tx).*1 = imap (λ i _, start + Z.of_nat i + 1) tx).
  { unfold log_writes. by rewrite fmap_imap. }
  assert (Hnd : NoDup (log_writes tx).*1).
  { rewrite Hw. apply NoDup_alt. intros i j a Hi Hj. rewrite list_lookup_imap in Hi, Hj.
    apply fmap_Some in Hi as (? & _ & ->). apply fmap_Some in Hj as (? & _ & E). lia. }
  split_and!.
  - unfold log_image. rewrite Hst, Hb. apply list_eq. intros i. rewrite list_lookup_imap, list_lookup_fmap.
    destruct (tx !! i) as [[bno e]|] eqn:Ei; [|done]. cbn. do 2 f_equal.
    unfold dk1. rewrite dblock_insert_ne by lia. unfold dblock.
    rewrite (stored_nodup _ _ _ e); [done|done|]. apply (list_elem_of_lookup_2 _ i). unfold log_writes.
    by rewrite list_lookup_imap, Ei.
  - split; [|rewrite Hst; lia|rewrite Hst, Hb; apply Htx].
    apply lens_insert; [|done]. apply lens_stored; [done|]. by eapply log_writes_lens.
  - intros bno [_ Hno]. unfold in_log in Hno. unfold dk1. rewrite dblock_insert_ne by lia. apply dblock_stored_notin.
    rewrite Hw. intros Hin. apply list_elem_of_lookup in Hin as [i Hi]. rewrite list_lookup_imap in Hi.
    apply fmap_Some in Hi as (x & Hx & ->). apply lookup_lt_Some in Hx. lia.
Qed.

Lemma same_home_stored l dk dk' : same_home start dk dk' → same_home start (stored l dk) (stored l dk').
Proof.
  intros H bno Hb. unfold dblock. destruct (decide (bno ∈ l.*1)) as [Hin|Hn].
  - destruct (stored_in l bno Hin) as (d & _ & Hd). by rewrite !Hd.
  - rewrite !stored_notin by done. by apply H.
Qed.

Lemma same_home_head d dk : same_home start (<[ start := d ]> dk) dk.
Proof.
  intros bno [_ Hb]. apply dblock_insert_ne. intros ->. apply Hb. unfold in_log. cap_lia.
Qed.

Lemma same_home_ext dk dk' : (∀ bno, dk !! bno = dk' !! bno) → same_home start dk dk'.
Proof. intros H bno _. unfold dblock. by rewrite H. Qed.

(** Any point of an installation recovers to the same disk. *)
Lemma installing_same dk i :
  disk_ok start dk → same_home start (recovered start (stored (take i (log_image start dk)) dk)) (recovered start dk).
Proof. intros Hok. apply same_home_ext. intros bno. by apply install_recovered. Qed.

Lemma installed_same dk : disk_ok start dk → same_home start (recovered start (recovered start dk)) (recovered start dk).
Proof.
  intros Hok. pose proof (installing_same dk (length (log_image start dk)) Hok) as H.
  by rewrite take_ge in H.
Qed.

(** The second half of commit() and of recovery: install, then clear the
    header. *)
Lemma install_clear_runs rec lg dk ca :
  let bs := head_blocks (dblock dk start) in
  log_at lg → disk_ok start dk → head_read dk lg → room ca →
  (rec = 0 → NoDup bs) → (∀ bno, bno ∈ bs → home_entry rec ca bno) →
  runs (length bs * 3 + 2) (st dk ca lg) (install_trans rec ;; set_log_n 0 ;; write_head)
    (λ _ k, ∃ dk', (head_n (dblock dk' start) = 0 ∧ lens dk' ∧ same_home start dk' (recovered start dk)) ∧
       st dk' (unpinned bs ca) (lg <| lg_lh ::= λ h, h <| lh_n := 0 |> |>) k)
    (λ k, same_home start (recovered start (k_disk k)) (recovered start dk)).
Proof.
  intros bs Hla Hok Hhr Hrm Hnd Hent.
  assert (Hlens : lens (recovered start dk)).
  { pose proof (install_lens dk (length (log_image start dk)) Hok) as H. by rewrite take_ge in H. }
  apply (runs_bind (length bs * 3) 2 _ _ (λ _, st (recovered start dk) (unpinned bs ca) lg)).
  { eapply runs_conseq; [by apply (install_trans_runs rec lg dk ca)|done|done|done|].
    cbn beta. intros k [i ->]. by apply installing_same. }
  intros _. eapply (runs_bind 0 2); [apply (log_set_step R)|]. intros []; cbn beta.
  eapply runs_conseq; [apply write_head_runs|done|done| |].
  - by destruct Hla.
  - by apply room_unpinned.
  - done.
  - cbn. cap_lia.
  - cbn. lia.
  - cbn beta. intros _ k (d & (Hd & Hn & _) & Hk). exists (<[ start := d ]> (recovered start dk)). split; [|done].
    rewrite dblock_insert_eq. split; [done|]. split; [by apply lens_insert|]. apply same_home_head.
  - cbn beta. intros k ->. by apply installed_same.
Qed.

Lemma tx_head lg ca tx : tx_ok lg ca tx → take (Z.to_nat (lh_n (lg_lh lg))) (lh_block (lg_lh lg)) = tx.*1.
Proof.
  intros Htx. rewrite (tx_n _ _ _ Htx), Nat2Z.id. apply list_eq. intros i. rewrite list_lookup_fmap.
  destruct (tx !! i) as [x|] eqn:Ei.
  - rewrite lookup_take_lt by (by eapply lookup_lt_Some). by apply (tx_blocks _ _ _ Htx i x).
  - apply lookup_ge_None in Ei. by rewrite lookup_take_ge.
Qed.

(** With no block recorded there is nothing to do. *)
Lemma commit_empty lg dk ca C :
  tx_ok lg ca [] → lens dk → head_n (dblock dk start) = 0 →
  runs 4 (st dk ca lg) commit
    (λ _ k, ∃ dk', (head_n (dblock dk' start) = 0 ∧ lens dk' ∧ same_home start dk' dk) ∧
       st dk' ca (lg <| lg_lh ::= λ h, h <| lh_n := 0 |> |>) k) C.
Proof.
  intros Htx Hlen H0. unfold commit. apply (runs_bind_eq _ 0 4 _ _ lg _ _ _ (gets_log_runs R _ dk ca lg)).
  pose proof (tx_n _ _ _ Htx) as Hn. cbn in Hn. rewrite Hn. cbn [when Z.ltb Z.compare].
  apply runs_mono with 0%nat; [lia|]. apply runs_step. intros ks k Hk. exists tt, k. split; [done|]. exists dk. split; [done|].
  assert (lg <| lg_lh ::= λ h, h <| lh_n := 0 |> |> = lg) as ->; [|done]. destruct lg as [? ? ? ? ? []]. cbn in Hn |- *. by subst.
Qed.

Lemma commit_runs lg dk ca tx :
  log_at lg → tx_ok lg ca tx → room ca → lens dk → head_n (dblock dk start) = 0 →
  runs (length tx * 5 + 4) (st dk ca lg) commit
    (λ _ k, ∃ dk', (head_n (dblock dk' start) = 0 ∧ lens dk' ∧ same_home start dk' (stored tx dk)) ∧
       st dk' (unpinned tx.*1 ca) (lg <| lg_lh ::= λ h, h <| lh_n := 0 |> |>) k)
    (λ k, same_home start (recovered start (k_disk k)) dk ∨
          same_home start (recovered start (k_disk k)) (stored tx dk)).
Proof.
  intros Hla Htx Hrm Hlen H0. destruct (decide (tx = [])) as [->|Hne].
  { by apply commit_empty. }
  unfold commit.
  assert (Hs : 0 ≤ start) by apply (la_area _ Hla).
  pose proof (tx_n _ _ _ Htx) as Hn. pose proof (tx_max _ _ _ Htx) as Hmax.
  apply (runs_bind_eq _ 0 (length tx * 5 + 4) _ _ lg _ _ _ (gets_log_runs R _ dk ca lg)).
  assert ((0 <? lh_n (lg_lh lg)) = true) as ->.
  { apply Z.ltb_lt. rewrite Hn. destruct tx; [done|]. cbn. lia. }
  cbn [when]. set (dw := stored (log_writes tx) dk).
  assert (Hfill : ∀ i, same_home start (recovered start (stored (take i (log_writes tx)) dk)) dk).
  { intros i. apply filling_recovered; [done|done|]. apply Forall_take, Forall_lookup. intros j x. unfold log_writes.
    rewrite list_lookup_imap. intros (y & Hy & ->)%fmap_Some. apply lookup_lt_Some in Hy. cbn. lia. }
  apply (runs_mono _ (length tx * 2 + (2 + (length tx * 3 + 2)))); [lia|].
  apply (runs_bind _ _ _ _ (λ _, st dw ca lg)).
  { eapply runs_conseq; [by apply (write_log_runs lg dk ca tx)|done|done|done|].
    cbn beta. intros k [i ->]. left. apply Hfill. }
  intros []. eapply runs_bind.
  { eapply runs_conseq; [apply (write_head_runs lg dw ca)|done|done|intros ? ? Hq; exact Hq|]; try done.
    - apply lens_stored; [done|]. by eapply log_writes_lens.
    - lia.
    - intros i bno Hi Hb. destruct (lookup_lt_is_Some_2 tx i) as [x Hx]; [lia|].
      pose proof (tx_blocks _ _ _ Htx i x Hx) as Hb'. rewrite Hb in Hb'. injection Hb' as ->.
      pose proof (tx_home _ _ _ Htx) as Hf. rewrite Forall_forall in Hf. apply Hf, list_elem_of_fmap.
      exists x. split; [done|]. by eapply list_elem_of_lookup_2.
    - cbn beta. intros k ->. left. specialize (Hfill (length (log_writes tx))). by rewrite take_ge in Hfill. }
  intros []; cbn beta. apply runs_exists. intros d. apply runs_pure. intros (Hd & Hdn & Hdb).
  rewrite (tx_head lg ca tx Htx) in Hdb. rewrite Hn in Hdn.
  destruct (committed_image lg ca tx dk d Htx Hlen Hs Hd Hdn Hdb) as (Himg & Hok & Hsame). fold dw in Himg, Hok, Hsame.
  set (dk1 := <[ start := d ]> dw) in *.
  assert (Hhd : dblock dk1 start = d) by apply dblock_insert_eq.
  assert (Hrec : same_home start (recovered start dk1) (stored tx dk)).
  { unfold recovered. rewrite Himg. by apply same_home_stored. }
  pose proof (install_clear_runs 0 lg dk1 ca Hla Hok) as Hic. cbv zeta in Hic.
  rewrite Hhd, Hdb in Hic. rewrite length_fmap in Hic.
  eapply runs_conseq; [apply Hic|lia|done| |].
  - split; [by rewrite Hhd, Hdn|]. by rewrite Hhd, Hdb, (tx_head lg ca tx Htx).
  - done.
  - intros _. apply Htx.
  - intros bno Hin. apply list_elem_of_fmap in Hin as ([bno' e] & -> & Hin).
    destruct (tx_pins _ _ _ Htx bno' e Hin) as [_ [b Hb]]. cbn. by exists b, e.
  - cbn beta. intros _ k (dk' & (H1 & H2 & H3) & Hk). exists dk'. split; [|done].
    split; [done|]. split; [done|]. by rewrite H3.
  - cbn beta. intros k Hk. right. by rewrite Hk.
Qed.

(** ** Recovery *)

(** A header in memory that agrees with a header block in its first [j] numbers. *)
Record reading (lg : log_t) (d : list Z) (j : nat) (lg' : log_t) : Prop := {
  rd_at : log_at lg';
  rd_n : lh_n (lg_lh lg') = head_n d;
  rd_blocks : ∀ i, (i < j)%nat → lh_block (lg_lh lg') !! i = Some (i32 (get32 d (4 + 4 * Z.of_nat i)));
  rd_rest : lg_outstanding lg' = lg_outstanding lg ∧ lg_committing lg' = lg_committing lg ∧ lg_size lg' = lg_size lg;
}.

Lemma reading_done lg dk lg' :
  reading lg (dblock dk start) (Z.to_nat (head_n (dblock dk start))) lg' → head_read dk lg'.
Proof.
  intros [Ha Hn Hb _]. split; [done|]. rewrite Hn. apply list_eq. intros i. unfold head_blocks, upto.
  rewrite !list_lookup_fmap. destruct (decide (i < Z.to_nat (head_n (dblock dk start)))%nat) as [Hi|Hi].
  - rewrite lookup_take_lt, lookup_seq_lt, Hb by done. done.
  - rewrite lookup_take_ge, lookup_seq_ge by lia. done.
Qed.

Lemma reading_S lg d j lg' :
  reading lg d j lg' → (j < Z.to_nat LOGSIZE)%nat →
  reading lg d (S j) (lg' <| lg_lh ::= λ h, h <| lh_block ::= <[ j := i32 (get32 d (4 + 4 * Z.of_nat j)) ]> |> |>).
Proof.
  intros [[A1 A2 A3 A4] Hn Hb Hr] Hj. split; [split; cbn; try done; by rewrite length_insert|done| |done].
  intros i Hi. cbn. destruct (decide (i = j)) as [->|Hne]; [by rewrite list_lookup_insert_eq by lia|].
  rewrite list_lookup_insert_ne by done. apply Hb. lia.
Qed.

Lemma read_head_runs lg dk ca :
  log_at lg → disk_ok start dk → room ca →
  runs 1 (st dk ca lg) read_head
    (λ _ k, ∃ lg', reading lg (dblock dk start) (Z.to_nat (head_n (dblock dk start))) lg' ∧ st dk ca lg' k)
    (λ k, k_disk k = dk).
Proof.
  intros Hla Hok Hrm. unfold read_head. set (d := dblock dk start).
  apply (runs_bind_eq _ 0 1 _ _ lg _ _ _ (gets_log_runs R _ dk ca lg)). rewrite (log_at_dev lg Hla).
  destruct (log_at_start lg Hla) as [-> Hs]. pose proof (do_n _ _ Hok) as Hmax. fold d in Hmax.
  assert (Hnone : ca !! start = None) by (apply Hrm; unfold in_log; cap_lia).
  apply (runs_bind 1 0 _ _ (λ b, st dk (<[ start := Pin b d 1 true ]> ca) lg)).
  { apply bread_new; try done; [pose proof (rm_size _ Hrm); lia|apply Hok]. }
  intros b. eapply (runs_bind_eq _ 0 0); [eapply (buf_data_step R _ _ _ _ start); apply lookup_insert_eq|].
  set (I := λ j k, ∃ lg', reading lg d j lg' ∧ st dk (<[ start := Pin b d 1 true ]> ca) lg' k).
  apply (runs_bind 0 0 _ _ (λ _, I 0%nat)).
  { eapply runs_post; [apply (log_set_step R)|]. cbn beta. intros _ k Hk. eexists. split; [|exact Hk].
    destruct Hla. split; [by split|done|lia|done]. }
  intros []. apply (runs_bind 0 0 _ _ (λ _, I (Z.to_nat (head_n d)))).
  - fold (head_n d). eapply runs_mono; [|eapply runs_post; [apply (runs_for_each 0 (upto (head_n d)) _ I)|]].
    + lia.
    + intros j i Hj. apply upto_lookup in Hj as [-> Hj]. unfold I at 1. apply runs_exists. intros lg'. apply runs_pure. intros Hrd.
      destruct (lookup_lt_is_Some_2 (lh_block (lg_lh lg')) j) as [x Hx]; [rewrite (la_len _ (rd_at _ _ _ _ Hrd)); cap_lia|].
      unfold set_log_block. eapply (runs_bind_eq _ 0 0); [apply (log_block_step R _ _ _ _ _ x); by rewrite Nat2Z.id|].
      eapply runs_post; [apply (log_set_step R)|]. cbn beta. intros _ k Hk. eexists. split; [|exact Hk].
      rewrite Nat2Z.id. apply reading_S; [done|cap_lia].
    + cbn beta. intros _ k. by rewrite upto_length.
  - intros []. unfold I. apply runs_exists. intros lg'. apply runs_pure. intros Hrd.
    eapply runs_post; [by apply (brelse_step R _ _ _ _ start b d 1); [apply lookup_insert_eq|]|].
    cbn beta. intros _ k Hk. exists lg'. split; [done|].
    unfold released in Hk. by rewrite decide_True, delete_insert_id in Hk by done.
Qed.

(** Recovery of a disk with nothing in the cache that the transaction needs. *)
Lemma recover_runs lg dk ca :
  log_at lg → disk_ok start dk → room ca →
  (∀ bno, bno ∈ head_blocks (dblock dk start) → ca !! bno = None) →
  runs (Z.to_nat (head_n (dblock dk start)) * 3 + 3) (st dk ca lg) recover_from_log
    (λ _ k, ∃ dk' lg', (head_n (dblock dk' start) = 0 ∧ lens dk' ∧ same_home start dk' (recovered start dk) ∧
       log_at lg' ∧ lh_n (lg_lh lg') = 0 ∧ lg_outstanding lg' = lg_outstanding lg ∧ lg_committing lg' = lg_committing lg ∧
       lg_size lg' = lg_size lg) ∧ st dk' ca lg' k)
    (λ k, same_home start (recovered start (k_disk k)) (recovered start dk)).
Proof.
  intros Hla Hok Hrm Hnone. unfold recover_from_log.
  apply (runs_mono _ (1 + (length (head_blocks (dblock dk start)) * 3 + 2))); [rewrite head_blocks_length; lia|].
  apply (runs_bind _ _ _ _ (λ _ k, ∃ lg', reading lg (dblock dk start) (Z.to_nat (head_n (dblock dk start))) lg' ∧ st dk ca lg' k)).
  { eapply runs_conseq; [by apply read_head_runs|done|done|done|]. cbn beta. by intros k ->. }
  intros []. apply runs_exists. intros lg'. apply runs_pure. intros Hrd.
  eapply runs_post; [apply (install_clear_runs 1 lg' dk ca)|]; try done.
  - apply Hrd.
  - by apply (reading_done lg).
  - cbn beta. intros _ k (dk' & (H1 & H2 & H3) & Hk). exists dk', (lg' <| lg_lh ::= λ h, h <| lh_n := 0 |> |>).
    destruct Hrd as [[A1 A2 A3 A4] Hn Hb (R1 & R2 & R3)]. split; [split_and!; try done; by split|].
    replace ca with (unpinned (head_blocks (dblock dk start)) ca); [done|]. apply map_eq. intros a.
    rewrite unpinned_lookup. case_decide; [|done]. symmetry. by apply Hnone.
Qed.

(** ** begin_op() and end_op() *)

(** A critical section on the log's lock that changes the log only. *)
Lemma log_section dk ca lg lg' k :
  st dk ca lg k → st dk ca lg' (k <| k_log := lg' |>).
Proof.
  intros [H1 H2 H3 H4 H5 H6 H7]. split; try done; [by apply (kernel_thread_ext p pid k)|by apply (disk_ready_ext k)].
Qed.

Lemma log_holding k lg' : kernel_thread p pid k →
  holding_only p pid L_log k (k <| k_mach := take_lock L_log (k_mach k) |> <| k_log := lg' |>).
Proof. by intros Hk. Qed.

(** The end of end_op() after a commit. *)
Lemma end_op_done dk ca lg :
  runs 0 (st dk ca lg)
    (acquire L_log ;; log_set (λ l, l <| lg_committing := 0 |>) ;; wakeup Ch_log ;; release L_log)
    (λ _, st dk ca (lg <| lg_committing := 0 |>)) (λ _, False).
Proof.
  apply runs_step. intros ks k Hk. pose proof (fs_thread _ _ _ _ _ Hk) as Ht.
  exists tt, ((k <| k_log := lg <| lg_committing := 0 |> |>) <| k_procs ::= woken Ch_log (Some p) |>).
  split; [|by apply fs_state_woken, (log_section dk ca lg)].
  rewrite bind_run, (thread_acquire p pid) by done. rewrite bind_run. cbn [log_set modify].
  set (k1 := (k <| k_mach := take_lock L_log (k_mach k) |>) <| k_log ::= λ l, l <| lg_committing := 0 |> |>).
  assert (Hk1 : k1 = k <| k_mach := take_lock L_log (k_mach k) |> <| k_log := lg <| lg_committing := 0 |> |>).
  { unfold k1. by rewrite <- (fs_log _ _ _ _ _ Hk). }
  rewrite Hk1, bind_run, (holding_wakeup p pid L_log k) by (by try apply log_holding).
  rewrite (thread_release p pid L_log k) by done. done.
Qed.

Lemma end_op_tail lg dk ca tx :
  log_at lg → tx_ok lg ca tx → room ca → lens dk → head_n (dblock dk start) = 0 → lg_committing lg = 0 →
  runs (length tx * 5 + 4) (st dk ca (lg <| lg_outstanding := 0 |> <| lg_committing := 1 |>))
    (commit ;; acquire L_log ;; log_set (λ l, l <| lg_committing := 0 |>) ;; wakeup Ch_log ;; release L_log)
    (λ _ k, ∃ dk', (head_n (dblock dk' start) = 0 ∧ lens dk' ∧ same_home start dk' (stored tx dk)) ∧
       st dk' (unpinned tx.*1 ca) (lg <| lg_outstanding := 0 |> <| lg_lh ::= λ h, h <| lh_n := 0 |> |>) k)
    (λ k, same_home start (recovered start (k_disk k)) dk ∨
          same_home start (recovered start (k_disk k)) (stored tx dk)).
Proof.
  intros Hla Htx Hrm Hlen H0 Hc. set (lg2 := lg <| lg_outstanding := 0 |> <| lg_committing := 1 |>).
  assert (Hla2 : log_at lg2) by (by destruct Hla). assert (Htx2 : tx_ok lg2 ca tx) by (by destruct Htx).
  apply (runs_mono _ (length tx * 5 + 4 + 0)); [lia|].
  eapply runs_bind; [by apply (commit_runs lg2 dk ca tx)|]. intros []; cbn beta. apply runs_exists. intros dk'.
  apply runs_pure. intros Hdk'. eapply runs_conseq; [apply end_op_done|done|done| |done].
  cbn beta. intros _ k Hk. exists dk'. split; [done|]. revert Hk. clear -Hc. unfold lg2. destruct lg. cbn in *. by subst.
Qed.

(** end_op() of the last outstanding operation commits the transaction. *)
Lemma end_op_runs lg dk ca tx :
  log_at lg → tx_ok lg ca tx → room ca → lens dk → head_n (dblock dk start) = 0 →
  lg_outstanding lg = 1 → lg_committing lg = 0 →
  runs (length tx * 5 + 4) (st dk ca lg) end_op
    (λ _ k, ∃ dk', (head_n (dblock dk' start) = 0 ∧ lens dk' ∧ same_home start dk' (stored tx dk)) ∧
       st dk' (unpinned tx.*1 ca) (lg <| lg_outstanding := 0 |> <| lg_lh ::= λ h, h <| lh_n := 0 |> |>) k)
    (λ k, same_home start (recovered start (k_disk k)) dk ∨
          same_home start (recovered start (k_disk k)) (stored tx dk)).
Proof.
  intros Hla Htx Hrm Hlen H0 Ho Hc ks k Hks Hk. pose proof (fs_thread _ _ _ _ _ Hk) as Ht.
  unfold end_op. rewrite bind_run, (thread_acquire p pid) by done. rewrite bind_run. cbn [log_set modify].
  set (lg1 := lg <| lg_outstanding := 0 |>). set (lg2 := lg1 <| lg_committing := 1 |>).
  set (k1 := (k <| k_mach := take_lock L_log (k_mach k) |>) <| k_log ::= λ l, l <| lg_outstanding := lg_outstanding l - 1 |> |>).
  assert (Hk1 : k1 = k <| k_mach := take_lock L_log (k_mach k) |> <| k_log := lg1 |>).
  { unfold k1, lg1. cbn. by rewrite (fs_log _ _ _ _ _ Hk), Ho. }
  rewrite Hk1. clear k1 Hk1. rewrite bind_run.
  change (gets k_log ks (k <| k_mach := take_lock L_log (k_mach k) |> <| k_log := lg1 |>))
    with (Ok lg1 ks (k <| k_mach := take_lock L_log (k_mach k) |> <| k_log := lg1 |>)). cbv beta iota.
  change (lg_committing lg1) with (lg_committing lg). change (lg_outstanding lg1) with 0. rewrite Hc. cbn [truthy Z.eqb negb].
  rewrite bind_run.
  set (k2 := k <| k_mach := take_lock L_log (k_mach k) |> <| k_log := lg2 |>).
  assert (E : (log_set (λ l, l <| lg_committing := 1 |>) ;; mret true) ks
    (k <| k_mach := take_lock L_log (k_mach k) |> <| k_log := lg1 |>) = Ok true ks k2) by done.
  rewrite E, bind_run. unfold k2. rewrite (thread_release p pid L_log k) by done. cbn [when].
  set (k3 := k <| k_log := lg2 |>).
  assert (Hk3 : st dk ca lg2 k3) by (by apply (log_section dk ca lg)).
  change (_ <| k_mach := k_mach k |>) with k3.
  exact (end_op_tail lg dk ca tx Hla Htx Hrm Hlen H0 Hc ks k3 Hks Hk3).
Qed.

(** ** log_write() *)

Lemma find_block_spec bno i n blocks :
  0 ≤ i ≤ n → n - i ≤ Z.of_nat (length blocks) → Forall (λ x, 0 ≤ x < 2 ^ 31) (take (Z.to_nat (n - i)) blocks) →
  match list_find (eq bno) (take (Z.to_nat (n - i)) blocks) with
  | Some (j, _) => find_block bno i n blocks = i + Z.of_nat j
  | None => find_block bno i n blocks = n
  end.
Proof.
  revert i. induction blocks as [|x blocks IH]; intros i Hi Hl Hf; cbn [find_block].
  - rewrite take_nil. cbn [list_find]. cbn in Hl. destruct (Z.ltb_spec i n); lia.
  - destruct (Z.ltb_spec i n) as [Hlt|Hge].
    + replace (Z.to_nat (n - i)) with (S (Z.to_nat (n - (i + 1)))) in Hf |- * by lia. cbn [take list_find] in Hf |- *.
      inversion Hf as [|? ? Hx Hf']; subst. rewrite u32_small by lia.
      destruct (Z.eqb_spec x bno) as [->|Hne]; [rewrite decide_True by done; lia|].
      rewrite decide_False by congruence. cbn [length] in Hl. specialize (IH (i + 1) ltac:(lia) ltac:(lia) Hf').
      destruct (list_find _ _) as [[j y]|]; cbn; [rewrite IH; lia|done].
    + replace (Z.to_nat (n - i)) with 0%nat by lia. cbn. lia.
Qed.

(** The state of the log after log_write(): the block is recorded and pinned
    once, however often it is written. *)
Definition recorded (bno : Z) (lg : log_t) : Prop :=
  bno ∈ take (Z.to_nat (lh_n (lg_lh lg))) (lh_block (lg_lh lg)).

Definition with_block (bno : Z) (lg : log_t) : log_t :=
  lg <| lg_lh ::= λ h, h <| lh_block ::= <[ Z.to_nat (lh_n h) := bno ]> |> <| lh_n := lh_n h + 1 |> |>.

Lemma set_log_block_run i v ks k :
  (Z.to_nat i < length (lh_block (lg_lh (k_log k))))%nat →
  set_log_block i v ks k =
    Ok tt ks (k <| k_log ::= λ l, l <| lg_lh ::= λ h, h <| lh_block ::= <[ Z.to_nat i := v ]> |> |> |>).
Proof.
  intros Hi. unfold set_log_block, log_block, deref. rewrite bind_run.
  destruct (lookup_lt_is_Some_2 _ _ Hi) as [x ->]. done.
Qed.

Lemma log_block_same k j v :
  lh_block (lg_lh (k_log k)) !! j = Some v →
  k <| k_log ::= λ l, l <| lg_lh ::= λ h, h <| lh_block ::= <[ j := v ]> |> |> |> = k.
Proof.
  intros H. assert (E : (k_log k) <| lg_lh ::= λ h, h <| lh_block ::= <[ j := v ]> |> |> = k_log k).
  { destruct (k_log k) as [? ? ? ? ? [? bs]]. cbn in *. by rewrite list_insert_id. }
  transitivity (k <| k_log := (k_log k) <| lg_lh ::= λ h, h <| lh_block ::= <[ j := v ]> |> |> |>); [done|].
  rewrite E. by destruct k.
Qed.

Lemma log_unlock k ks : kernel_thread p pid k →
  release L_log ks (k <| k_mach := take_lock L_log (k_mach k) |>) = Ok tt ks k.
Proof. intros Hk. rewrite (thread_release p pid L_log k) by done. by destruct k. Qed.

(** log_write() of a block that is not recorded yet. *)
Lemma log_record_run lg dk ca bno b d r ks k :
  st dk ca lg k → log_at lg → 0 ≤ lh_n (lg_lh lg) < LOGSIZE →
  ca !! bno = Some (Pin b d r true) → r + 1 < 2 ^ 32 →
  (set_log_block (lh_n (lg_lh lg)) bno ;;
   when (lh_n (lg_lh lg) =? lh_n (lg_lh lg)) (bpin b ;; set_log_n (lh_n (lg_lh lg) + 1)) ;;
   release L_log) ks (k <| k_mach := take_lock L_log (k_mach k) |>) =
  Ok tt ks (k <| k_bufs ::= alter (λ x, x <| b_refcnt := r + 1 |>) b |> <| k_log := with_block bno lg |>).
Proof.
  intros Hk Hla Hn HC Hr. pose proof (fs_thread _ _ _ _ _ Hk) as Ht. pose proof (fs_log _ _ _ _ _ Hk) as Hlg.
  rewrite bind_run, set_log_block_run by (cbn; rewrite Hlg, (la_len _ Hla); lia).
  rewrite Z.eqb_refl, bind_run. cbn [when]. rewrite bind_run.
  set (n := lh_n (lg_lh lg)). set (lg1 := lg <| lg_lh ::= λ h, h <| lh_block ::= <[ Z.to_nat n := bno ]> |> |>).
  set (k2 := k <| k_mach := take_lock L_log (k_mach k) |> <| k_log := lg1 |>).
  replace (_ <| k_log ::= _ |>) with k2 by (unfold k2, lg1; by rewrite <- Hlg).
  pose proof (bpin_nested R dk ca lg bno (Pin b d r true) k k2 ks Hk (log_holding k lg1 Ht) eq_refl HC Hr) as Hpin.
  cbn [pin_buf pin_refs] in Hpin. rewrite Hpin.
  cbn [set_log_n log_set modify]. rewrite (thread_release p pid L_log k) by done. done.
Qed.

Lemma log_write_run lg dk ca bno b d r ks k :
  st dk ca lg k → log_at lg → 0 ≤ lh_n (lg_lh lg) < LOGSIZE → lh_n (lg_lh lg) < lg_size lg - 1 →
  1 ≤ lg_outstanding lg → Forall (λ x, 0 ≤ x < 2 ^ 31) (take (Z.to_nat (lh_n (lg_lh lg))) (lh_block (lg_lh lg))) →
  ca !! bno = Some (Pin b d r true) → r + 1 < 2 ^ 32 →
  ∃ k', log_write b ks k = Ok tt ks k' ∧
    (recorded bno lg → st dk ca lg k') ∧
    (¬ recorded bno lg → st dk (<[ bno := Pin b d (r + 1) true ]> ca) (with_block bno lg) k').
Proof.
  intros Hk Hla Hn Hsz Ho Hf HC Hr. pose proof (fs_thread _ _ _ _ _ Hk) as Ht.
  destruct (fs_state_pin _ _ _ _ _ _ _ Hk HC) as (x & Hlt & Hx & Hbno & Hu & Hsh & Hpn). cbn in Hlt, Hx.
  unfold log_write. rewrite bind_run, (thread_acquire p pid) by done.
  set (k1 := k <| k_mach := take_lock L_log (k_mach k) |>).
  assert (Hlg1 : k_log k1 = lg) by apply Hk.
  rewrite bind_run. change (gets k_log ks k1) with (Ok (k_log k1) ks k1). rewrite Hlg1. cbv beta iota zeta.
  set (n := lh_n (lg_lh lg)) in *. set (bs := lh_block (lg_lh lg)) in *.
  replace (LOGSIZE <=? n) with false by (symmetry; apply Z.leb_gt; lia).
  replace (lg_size lg - 1 <=? n) with false by (symmetry; apply Z.leb_gt; lia). cbn [orb].
  replace (lg_outstanding lg <? 1) with false by (symmetry; apply Z.ltb_ge; lia).
  rewrite bind_run. unfold buf_get. cbn [deref]. change (k_bufs k1) with (k_bufs k). rewrite Hx, Hbno. cbv beta iota.
  pose proof (find_block_spec bno 0 n bs ltac:(lia) ltac:(unfold bs; rewrite (la_len _ Hla); lia)) as Hfind.
  rewrite Z.sub_0_r in Hfind. specialize (Hfind Hf). assert (Hbr : 0 ≤ bno < 2 ^ 31) by (rewrite <- Hbno; apply Hu).
  rewrite i32_small by lia.
  destruct (list_find (eq bno) (take (Z.to_nat n) bs)) as [[j y]|] eqn:El; rewrite Hfind.
  - apply list_find_Some in El as (Hj & <- & _). apply lookup_take_Some in Hj as [Hj Hjn].
    exists k. split; [|split; [done|]].
    + rewrite bind_run, set_log_block_run by (rewrite Hlg1; fold bs; apply lookup_lt_Some in Hj; lia).
      rewrite Z.add_0_l, Nat2Z.id. replace (Z.of_nat j =? n) with false by (symmetry; apply Z.eqb_neq; lia).
      replace (_ <| k_log ::= _ |>) with k1.
      * rewrite bind_run. cbn [when]. rewrite ret_run. by apply log_unlock.
      * symmetry. apply log_block_same. by rewrite Hlg1.
    + intros Hno. exfalso. apply Hno. unfold recorded. apply (list_elem_of_lookup_2 _ j).
      fold n bs. by rewrite lookup_take_lt by lia.
  - eexists. split; [by apply (log_record_run lg dk ca bno b d r)|]. split; [|intros _].
    + intros Hrec. exfalso. apply list_find_None in El. rewrite Forall_forall in El. by apply (El bno).
    + apply (log_section _ _ lg). exact (fs_state_refs R dk ca lg bno (Pin b d r true) (r + 1) k Hk HC ltac:(pose proof (bs_refs _ Hsh); injection Hpn; lia)).
Qed.

(** begin_op() with room for another operation does not wait. *)
Lemma begin_op_run lg dk ca ks k :
  st dk ca lg k → lg_committing lg = 0 → lh_n (lg_lh lg) + (lg_outstanding lg + 1) * MAXOPBLOCKS ≤ LOGSIZE →
  ∃ k', begin_op ks k = Ok tt ks k' ∧ st dk ca (lg <| lg_outstanding := lg_outstanding lg + 1 |>) k'.
Proof.
  intros Hk Hc Hroom. pose proof (fs_thread _ _ _ _ _ Hk) as Ht. pose proof (fs_log _ _ _ _ _ Hk) as Hlg.
  exists (k <| k_log := lg <| lg_outstanding := lg_outstanding lg + 1 |> |>).
  split; [|by apply (log_section _ _ lg)].
  unfold begin_op. rewrite bind_run, (thread_acquire p pid) by done. rewrite bind_run. cbn [waits_left].
  cbn [while_fuel]. rewrite bind_run. unfold begin_op_body at 1. rewrite bind_run.
  set (k1 := k <| k_mach := take_lock L_log (k_mach k) |>).
  change (gets k_log ks k1) with (Ok (k_log k) ks k1). rewrite Hlg, Hc. cbn [truthy Z.eqb negb].
  replace (LOGSIZE <? _) with false by (symmetry; apply Z.ltb_ge; lia).
  rewrite bind_run. cbn [log_set modify]. rewrite bind_run, (thread_release p pid L_log k) by done.
  rewrite ret_run. unfold k1. rewrite <- Hlg. done.
Qed.

(** ** Transactions *)

(** The typical use of log_write(): change a block by [f]. *)
Definition log_update (bno : Z) (f : list Z → list Z) : M kernel unit :=
  bp ← bread ROOTDEV bno;
  set_data bp f ;;
  log_write bp ;;
  brelse bp.

(** What it means: a change of one block of the disk. *)
Definition updated (bno : Z) (f : list Z → list Z) (dk : disk) : disk := <[ bno := f (dblock dk bno) ]> dk.

(** In the middle of a transaction that has changed the blocks [tx]; the rest
    of the cache is still [ca0]. *)
Record in_tx (ca0 : cache) (size : Z) (lg : log_t) (ca : cache) (tx : list (Z * list Z)) : Prop := {
  it_at : log_at lg;
  it_tx : tx_ok lg ca tx;
  it_rest : ∀ bno, bno ∉ tx.*1 → ca !! bno = ca0 !! bno;
  it_new : ∀ bno, bno ∈ tx.*1 → ca0 !! bno = None;
  it_size : (base.size ca ≤ base.size ca0 + length tx)%nat;
  it_log : lg_size lg = size ∧ lg_outstanding lg = 1 ∧ lg_committing lg = 0;
}.

Lemma tx_lookup_fst (tx : list (Z * list Z)) bno : bno ∈ tx.*1 → ∃ j d, tx !! j = Some (bno, d).
Proof.
  intros ([b d] & -> & Hin)%list_elem_of_fmap. apply list_elem_of_lookup in Hin as [j Hj]. by exists j, d.
Qed.

Lemma recorded_iff lg ca tx bno : tx_ok lg ca tx → recorded bno lg ↔ bno ∈ tx.*1.
Proof. intros Htx. unfold recorded. by rewrite (tx_head lg ca tx Htx). Qed.

(** Changing the contents of a block already recorded. *)
Definition rewrite_tx (j : nat) (bno : Z) (d : list Z) (tx : list (Z * list Z)) : list (Z * list Z) :=
  <[ j := (bno, d) ]> tx.

Lemma rewrite_tx_fst j bno d e tx : tx !! j = Some (bno, e) → (rewrite_tx j bno d tx).*1 = tx.*1.
Proof.
  intros Hj. unfold rewrite_tx. rewrite list_fmap_insert. apply list_insert_id. by rewrite list_lookup_fmap, Hj.
Qed.

Lemma rewrite_tx_stored j bno d e tx dk a :
  NoDup tx.*1 → tx !! j = Some (bno, e) →
  stored (rewrite_tx j bno d tx) dk !! a = <[ bno := d ]> (stored tx dk) !! a.
Proof.
  intros Hnd Hj. assert (Hlt : (j < length tx)%nat) by (by eapply lookup_lt_Some).
  assert (Hnd' : NoDup (rewrite_tx j bno d tx).*1) by (by rewrite (rewrite_tx_fst j bno d e)).
  rewrite lookup_insert. case_decide as E; [subst a|].
  - apply stored_nodup; [done|]. apply (list_elem_of_lookup_2 _ j). by apply list_lookup_insert_eq.
  - destruct (decide (a ∈ tx.*1)) as [Hin|Hn].
    + destruct (tx_lookup_fst tx a Hin) as (i & d' & Hi).
      assert (i ≠ j) by (intros ->; rewrite Hj in Hi; by injection Hi).
      rewrite (stored_nodup tx _ a d') by (try done; by eapply list_elem_of_lookup_2).
      apply stored_nodup; [done|]. apply (list_elem_of_lookup_2 _ i). unfold rewrite_tx. by rewrite list_lookup_insert_ne.
    + rewrite !stored_notin; [done|done|]. by rewrite (rewrite_tx_fst j bno d e).
Qed.

Lemma rewrite_tx_ok lg ca tx j bno b d e :
  tx_ok lg ca tx → tx !! j = Some (bno, e) → length d = 1024%nat →
  tx_ok lg (<[ bno := Pin b d 1 false ]> ca) (rewrite_tx j bno d tx).
Proof.
  intros Htx Hj Hd. pose proof (rewrite_tx_fst j bno d e tx Hj) as Hfst. destruct Htx as [H1 H2 H3 H4 H5 H6].
  assert (Hlt : (j < length tx)%nat) by (by eapply lookup_lt_Some).
  split; rewrite ?Hfst; try done.
  - by unfold rewrite_tx; rewrite length_insert.
  - by unfold rewrite_tx; rewrite length_insert.
  - intros i x Hx. assert (Hi : (rewrite_tx j bno d tx).*1 !! i = Some x.1) by (by rewrite list_lookup_fmap, Hx).
    rewrite Hfst, list_lookup_fmap in Hi. apply fmap_Some in Hi as (y & Hy & ->). by apply H3.
  - intros a c Hin. apply list_elem_of_lookup in Hin as [i Hi]. unfold rewrite_tx in Hi.
    apply list_lookup_insert_Some in Hi as [(<- & [= <- <-] & _)|[Hne Hi]].
    + split; [done|]. exists b. by rewrite lookup_insert_eq.
    + rewrite lookup_insert_ne; [by apply H6, (list_elem_of_lookup_2 _ i)|]. intros ->.
      apply Hne. apply (NoDup_lookup tx.*1 j i a); [done| |]; rewrite list_lookup_fmap; [by rewrite Hj|by rewrite Hi].
Qed.

(** Recording one more block. *)
Lemma extend_tx_ok lg ca tx bno b d :
  log_at lg → tx_ok lg ca tx → bno ∉ tx.*1 → home start bno → Z.of_nat (length tx) < log_cap → length d = 1024%nat →
  tx_ok (with_block bno lg) (<[ bno := Pin b d 1 false ]> ca) (tx ++ [(bno, d)]).
Proof.
  intros Hla [H1 H2 H3 H4 H5 H6] Hn Hh Hmax Hd.
  assert (Hlen : (length tx < length (lh_block (lg_lh lg)))%nat) by (rewrite (la_len _ Hla); cap_lia).
  split.
  - cbn. rewrite H1, length_app. cbn. lia.
  - rewrite length_app. cbn. lia.
  - intros i x Hx. cbn. rewrite H1, Nat2Z.id. apply lookup_snoc_Some in Hx as [[Hi Hx]|[-> <-]].
    + rewrite list_lookup_insert_ne by lia. by apply H3.
    + by rewrite list_lookup_insert_eq.
  - rewrite fmap_app. apply Forall_app. split; [done|]. by apply Forall_singleton.
  - rewrite fmap_app. apply NoDup_app. split; [done|]. split; [set_solver|apply NoDup_singleton].
  - intros a c Hin. apply elem_of_app in Hin as [Hin|[= -> ->]%list_elem_of_singleton].
    + rewrite lookup_insert_ne; [by apply H6|]. intros ->. apply Hn, list_elem_of_fmap. by exists (a, c).
    + split; [done|]. exists b. by rewrite lookup_insert_eq.
Qed.

(** The transaction after a new value of a recorded block, and after one more
    block. *)
Lemma in_tx_rewrite ca0 sz lg ca tx j bno b d e :
  in_tx ca0 sz lg ca tx → tx !! j = Some (bno, e) → length d = 1024%nat →
  in_tx ca0 sz lg (<[ bno := Pin b d 1 false ]> ca) (rewrite_tx j bno d tx).
Proof.
  intros [Hat Hok Hrest Hnew Hcs Hlog] Hj Hd. pose proof (rewrite_tx_fst j bno d e tx Hj) as Hfst.
  assert (Hin : bno ∈ tx.*1) by (apply (list_elem_of_lookup_2 _ j); by rewrite list_lookup_fmap, Hj).
  destruct (tx_pins _ _ _ Hok bno e) as [_ [b0 Hb0]]; [by eapply list_elem_of_lookup_2|].
  split; [done|by apply (rewrite_tx_ok lg ca tx j bno b d e)| |by rewrite Hfst| |done].
  - intros a. rewrite Hfst. intros Ha. rewrite lookup_insert_ne by (intros ->; done). by apply Hrest.
  - rewrite map_size_insert_Some by (by eexists). unfold rewrite_tx. by rewrite length_insert.
Qed.

Lemma in_tx_extend ca0 sz lg ca tx bno b d :
  in_tx ca0 sz lg ca tx → bno ∉ tx.*1 → ca0 !! bno = None → home start bno →
  Z.of_nat (length tx) < log_cap → length d = 1024%nat →
  in_tx ca0 sz (with_block bno lg) (<[ bno := Pin b d 1 false ]> ca) (tx ++ [(bno, d)]).
Proof.
  intros [Hat Hok Hrest Hnew Hcs Hlog] Hnin Hnone Hhome Hmax Hd.
  assert (HC : ca !! bno = None) by (by rewrite Hrest). split.
  - destruct Hat as [A1 A2 A3 A4]. split; try done. cbn. by rewrite length_insert.
  - by apply extend_tx_ok.
  - intros a. rewrite fmap_app, elem_of_app. cbn. intros Ha. rewrite lookup_insert_ne by set_solver. apply Hrest. set_solver.
  - intros a. rewrite fmap_app, elem_of_app. cbn. intros [Ha| ->%list_elem_of_singleton]; auto.
  - rewrite map_size_insert_None by done. rewrite length_app. cbn. lia.
  - done.
Qed.

Section update.
Context (ca0 : cache) (sz : Z) (lg : log_t) (ca : cache) (tx : list (Z * list Z)) (dk : disk) (bno : Z) (f : list Z → list Z).
Hypothesis Htx : in_tx ca0 sz lg ca tx.
Hypothesis Hmax : Z.of_nat (length tx) < log_cap.
Hypothesis Hsz : Z.of_nat (length tx) < sz - 1.
Hypothesis Hhome : home start bno.
Hypothesis Hf : ∀ d, length d = 1024%nat → length (f d) = 1024%nat.

Definition after_update (k : kernel) : Prop :=
  ∃ lg' ca' tx', (in_tx ca0 sz lg' ca' tx' ∧ (length tx' ≤ S (length tx))%nat ∧ tx' ≠ [] ∧
    stored tx' dk = updated bno f (stored tx dk)) ∧ st dk ca' lg' k.

Lemma log_write_step C ca1 b d r :
  ca1 !! bno = Some (Pin b d r true) → r + 1 < 2 ^ 32 →
  runs 0 (st dk ca1 lg) (log_write b)
    (λ _ k, (recorded bno lg → st dk ca1 lg k) ∧
            (¬ recorded bno lg → st dk (<[ bno := Pin b d (r + 1) true ]> ca1) (with_block bno lg) k)) C.
Proof.
  intros HC Hr. apply runs_step. intros ks k Hk. destruct Htx as [Hat Hok _ _ _ (L1 & L2 & L3)].
  destruct (log_write_run lg dk ca1 bno b d r ks k Hk Hat) as (k' & H1 & H2); try done.
  - rewrite (tx_n _ _ _ Hok). cap_lia.
  - rewrite (tx_n _ _ _ Hok), L1. lia.
  - lia.
  - rewrite (tx_head _ _ _ Hok). apply (Forall_impl (home start)); [apply Hok|]. by intros x [Hx _].
  - by exists tt, k'.
Qed.

Lemma update_recorded C : bno ∈ tx.*1 →
  runs 0 (st dk ca lg) (log_update bno f) (λ _, after_update) C.
Proof.
  intros Hin. destruct (tx_lookup_fst tx bno Hin) as (j & d & Hj). destruct Htx as [Hat Hok Hrest Hnew Hcs Hlog].
  destruct (tx_pins _ _ _ Hok bno d) as [Hd [b Hb]]; [by eapply list_elem_of_lookup_2|].
  unfold log_update. eapply (runs_bind_eq _ 0 0).
  { apply (bread_pinned R _ _ _ _ bno b d 1); [done|lia|apply Hhome]. }
  eapply (runs_bind 0 0).
  { apply (set_data_step R _ _ _ _ bno b d (1 + 1) true); [apply lookup_insert_eq|by apply Hf]. }
  intros []; cbn beta. rewrite insert_insert_eq.
  eapply (runs_bind 0 0); [apply (log_write_step _ _ b (f d) (1 + 1)); [apply lookup_insert_eq|lia]|].
  intros []; cbn beta.
  apply (runs_conseq 0 0 (st dk (<[ bno := Pin b (f d) (1 + 1) true ]> ca) lg) _ _
    (λ _, st dk (released bno b (f d) (1 + 1) (<[ bno := Pin b (f d) (1 + 1) true ]> ca)) lg) _ (λ _, False) _).
  - apply (brelse_step R _ _ _ _ bno b (f d) (1 + 1)); [apply lookup_insert_eq|lia].
  - lia.
  - intros k [Hk _]. apply Hk. by apply (recorded_iff lg ca tx).
  - intros _ k Hk. unfold released in Hk. rewrite decide_False, insert_insert_eq in Hk by done.
    exists lg, (<[ bno := Pin b (f d) 1 false ]> ca), (rewrite_tx j bno (f d) tx). split; [|done].
    pose proof (rewrite_tx_fst j bno (f d) d tx Hj) as Hfst.
    assert (Hl : length (rewrite_tx j bno (f d) tx) = length tx) by apply length_insert.
    split_and!.
    + apply (in_tx_rewrite ca0 sz lg ca tx j bno b (f d) d); [done|done|by apply Hf].
    + lia.
    + intros E. rewrite E in Hl. apply lookup_lt_Some in Hj. cbn in Hl. lia.
    + apply map_eq. intros a. rewrite (rewrite_tx_stored j bno (f d) d) by (try done; apply Hok). unfold updated.
      unfold dblock. rewrite (stored_nodup tx dk bno d); [done|apply Hok|by eapply list_elem_of_lookup_2].
  - done.
Qed.

Lemma update_new : bno ∉ tx.*1 → ca0 !! bno = None → (size ca0 + length tx < NBUF)%nat → lens dk →
  runs 1 (st dk ca lg) (log_update bno f) (λ _, after_update) (λ k, k_disk k = dk).
Proof.
  intros Hnin Hnone Hroom Hlen. destruct Htx as [Hat Hok Hrest Hnew Hcs Hlog].
  assert (HC : ca !! bno = None) by (by rewrite Hrest). set (d := f (dblock dk bno)).
  assert (Hd : length d = 1024%nat) by (apply Hf, Hlen).
  unfold log_update. apply (runs_bind 1 0 _ _ (λ b, st dk (<[ bno := Pin b (dblock dk bno) 1 true ]> ca) lg)).
  { apply bread_new; try done; [lia|apply Hhome]. }
  intros b. eapply (runs_bind 0 0).
  { apply (set_data_step R _ _ _ _ bno b (dblock dk bno) 1 true); [apply lookup_insert_eq|done]. }
  intros []; cbn beta. rewrite insert_insert_eq. fold d.
  eapply (runs_bind 0 0).
  { apply (log_write_step _ _ b d 1); [apply lookup_insert_eq|lia]. }
  intros []; cbn beta. rewrite insert_insert_eq.
  apply (runs_conseq 0 0 (st dk (<[ bno := Pin b d (1 + 1) true ]> ca) (with_block bno lg)) _ _
    (λ _, st dk (released bno b d (1 + 1) (<[ bno := Pin b d (1 + 1) true ]> ca)) (with_block bno lg)) _ (λ _, False) _).
  - apply (brelse_step R _ _ _ _ bno b d (1 + 1)); [apply lookup_insert_eq|lia].
  - lia.
  - intros k [_ Hk]. apply Hk. intros Hrec. by apply (recorded_iff lg ca tx) in Hrec.
  - intros _ k Hk. unfold released in Hk. rewrite decide_False, insert_insert_eq in Hk by done.
    exists (with_block bno lg), (<[ bno := Pin b d 1 false ]> ca), (tx ++ [(bno, d)]). split; [|done]. split_and!.
    + by apply in_tx_extend.
    + rewrite length_app. cbn. lia.
    + by destruct tx.
    + rewrite stored_snoc. unfold updated. by rewrite (dblock_stored_notin tx dk bno).
  - done.
Qed.
End update.

(** A system call that changes blocks: all its updates between begin_op() and
    end_op(). *)
Definition transaction (ups : list (Z * (list Z → list Z))) : M kernel unit :=
  begin_op ;;
  for_each ups (λ u, log_update u.1 u.2) ;;
  end_op.

(** What it means. *)
Definition updates (ups : list (Z * (list Z → list Z))) (dk : disk) : disk := foldl (λ m u, updated u.1 u.2 m) dk ups.

(** A transaction that fits into the log and the cache. *)
Record ups_ok (ca : cache) (sz : Z) (ups : list (Z * (list Z → list Z))) : Prop := {
  up_some : ups ≠ [];
  up_log : Z.of_nat (length ups) ≤ log_cap ∧ Z.of_nat (length ups) ≤ sz - 1;
  up_cache : (S (size ca + length ups) < NBUF)%nat;
  up_each : ∀ bno f, (bno, f) ∈ ups →
    home start bno ∧ ca !! bno = None ∧ ∀ d, length d = 1024%nat → length (f d) = 1024%nat;
}.

(** Between transactions. *)
Record quiet (lg : log_t) (dk : disk) (ca : cache) : Prop := {
  qu_at : log_at lg;
  qu_n : lh_n (lg_lh lg) = 0;
  qu_out : lg_outstanding lg = 0;
  qu_com : lg_committing lg = 0;
  qu_head : head_n (dblock dk start) = 0;
  qu_lens : lens dk;
  qu_log : ∀ bno, in_log start bno → ca !! bno = None;
}.

Lemma in_tx_start lg ca0 dk :
  quiet lg dk ca0 → in_tx ca0 (lg_size lg) (lg <| lg_outstanding := lg_outstanding lg + 1 |>) ca0 [].
Proof.
  intros [Q1 Q2 Q3 Q4 Q5 Q6 Q7]. split; cbn; try done; [by destruct Q1| |set_solver|lia|by rewrite Q3].
  split; cbn; try done; [cap_lia|apply NoDup_nil_2|set_solver].
Qed.

Lemma updates_runs lg ca0 dk ups :
  quiet lg dk ca0 → ups_ok ca0 (lg_size lg) ups →
  runs (length ups) (st dk ca0 (lg <| lg_outstanding := lg_outstanding lg + 1 |>))
    (for_each ups (λ u, log_update u.1 u.2))
    (λ _ k, ∃ lg' ca' tx, (in_tx ca0 (lg_size lg) lg' ca' tx ∧ (length tx ≤ length ups)%nat ∧ tx ≠ [] ∧
       stored tx dk = updates ups dk) ∧ st dk ca' lg' k)
    (λ k, k_disk k = dk).
Proof.
  intros Hq [U1 [U2 U2'] U3 U4]. pose proof (qu_lens _ _ _ Hq) as Hlens.
  set (I := λ j k, ∃ lg' ca' tx, (in_tx ca0 (lg_size lg) lg' ca' tx ∧ (length tx ≤ j)%nat ∧ ((0 < j)%nat → tx ≠ []) ∧
       stored tx dk = updates (take j ups) dk) ∧ st dk ca' lg' k).
  apply (runs_mono _ (length ups * 1)); [lia|].
  apply (runs_conseq (length ups * 1) _ (I 0%nat) _ _ (λ _, I (length ups)) _ (λ k, k_disk k = dk) _); try done.
  - apply (runs_for_each 1 ups _ I). intros j [bno f] Hj. cbn [fst snd].
    destruct (U4 bno f) as (Hh & Hnone & Hf); [by eapply list_elem_of_lookup_2|].
    assert (Hlt : (j < length ups)%nat) by (by eapply lookup_lt_Some).
    unfold I at 1. apply runs_exists. intros lg'. apply runs_exists. intros ca'. apply runs_exists. intros tx.
    apply runs_pure. intros (Hin & Hl & Hne & Hst).
    eapply runs_post.
    + destruct (decide (bno ∈ tx.*1)) as [Hrec|Hrec].
      * apply (runs_mono _ 0); [lia|]. apply (update_recorded ca0 (lg_size lg) lg' ca' tx dk bno f); try done; lia.
      * apply (update_new ca0 (lg_size lg) lg' ca' tx dk bno f); try done; lia.
    + cbn beta. intros _ k (lg2 & ca2 & tx2 & (H1 & H2 & H3 & H4) & Hk). exists lg2, ca2, tx2. split; [|done].
      split_and!; [done|lia|done|]. rewrite (take_S_r _ _ _ Hj), H4, Hst. unfold updates. by rewrite foldl_app.
  - intros k Hk. eexists _, ca0, []. split; [|exact Hk]. split_and!; [|done|lia|done].
    by apply (in_tx_start lg ca0 dk).
  - intros _ k (lg' & ca' & tx & (H1 & H2 & H3 & H4) & Hk). exists lg', ca', tx. split; [|done].
    rewrite take_ge in H4 by lia. split_and!; try done. apply H3. by destruct ups; [|cbn; lia].
Qed.

(** The cache once the transaction's pins are gone. *)
Lemma in_tx_unpinned ca0 sz lg ca tx : in_tx ca0 sz lg ca tx → unpinned tx.*1 ca = ca0.
Proof.
  intros H. apply map_eq. intros a. rewrite unpinned_lookup. case_decide as Ha.
  - symmetry. by apply (it_new _ _ _ _ _ H).
  - by apply (it_rest _ _ _ _ _ H).
Qed.

Lemma transaction_runs lg ca dk ups :
  quiet lg dk ca → ups_ok ca (lg_size lg) ups →
  runs (length ups * 6 + 4) (st dk ca lg) (transaction ups)
    (λ _ k, ∃ dk' lg', (quiet lg' dk' ca ∧ lg_size lg' = lg_size lg ∧ same_home start dk' (updates ups dk)) ∧ st dk' ca lg' k)
    (λ k, same_home start (recovered start (k_disk k)) dk ∨
          same_home start (recovered start (k_disk k)) (updates ups dk)).
Proof.
  intros Hq Hu. assert (HLS : LOGSIZE = 30) by done. pose proof log_cap_ok as Hcap.
  assert (Hold : ∀ k, k_disk k = dk → same_home start (recovered start (k_disk k)) dk).
  { intros k ->. by rewrite recovered_idle by apply Hq. }
  apply (runs_mono _ (0 + (length ups + (length ups * 5 + 4)))); [lia|]. unfold transaction.
  apply (runs_bind _ _ _ _ (λ _, st dk ca (lg <| lg_outstanding := lg_outstanding lg + 1 |>))).
  { apply runs_step. intros ks k Hk. destruct (begin_op_run lg dk ca ks k Hk) as (k' & H1 & H2); [apply Hq| |by exists tt, k'].
    rewrite (qu_n _ _ _ Hq), (qu_out _ _ _ Hq). done. }
  intros []. eapply runs_bind.
  { eapply runs_conseq; [by apply (updates_runs lg ca dk ups)|done|done|intros ? ? H; exact H|].
    cbn beta. intros k Hk. left. by apply Hold. }
  intros []; cbn beta. apply runs_exists. intros lg'. apply runs_exists. intros ca'. apply runs_exists. intros tx.
  apply runs_pure. intros (Htx & Hl & Hne & <-). pose proof Htx as [Hat Hok Hrest Hnew Hsz (L1 & L2 & L3)].
  pose proof (up_cache _ _ _ Hu) as Hroom.
  eapply runs_conseq; [apply (end_op_runs lg' dk ca' tx)|lia|done| |]; try done; [|apply Hq|apply Hq| ].
  - split; [lia|]. intros bno Hb. rewrite Hrest; [by apply (qu_log _ _ _ Hq)|]. intros Hin.
    pose proof (tx_home _ _ _ Hok) as Hf. rewrite Forall_forall in Hf. by destruct (Hf bno Hin).
  - cbn beta. intros _ k (dk' & (H1 & H2 & H3) & Hk). eexists dk', _. split; [|rewrite <- (in_tx_unpinned _ _ _ _ _ Htx); exact Hk].
    split; [|done]. destruct Hat. split; cbn; try done; try apply Hq.
Qed.
End phases.

(** ** Properties *)

Section properties.
Context {D : Disk} {p : nat} {pid : Z} {DS : DiskSpec D p pid}.
Context {LA : LogArea} (R : kernel) (start : Z).

(** C2: a transaction is atomic with respect to crashes.  A group of block
    updates, each done by bread(), a change of the data, log_write() and
    brelse(), between begin_op() and end_op(), runs to completion within a
    bounded number of waits for the disk and then all its updates are on the
    disk; and if the machine stops at any of these waits, what recovery will
    make of the disk is, block for block outside the log area, either the
    disk before the transaction or the disk after it. *)
Theorem transaction_atomic lg ca dk ups :
  quiet start lg dk ca → ups_ok start ca (lg_size lg) ups →
  runs (length ups * 6 + 4) (fs_state (p:=p) (pid:=pid) R dk ca lg) (transaction ups)
    (λ _ k, ∃ dk' lg', (quiet start lg' dk' ca ∧ lg_size lg' = lg_size lg ∧ same_home start dk' (updates ups dk)) ∧
       fs_state (p:=p) (pid:=pid) R dk' ca lg' k)
    (λ k, same_home start (recovered start (k_disk k)) dk ∨
          same_home start (recovered start (k_disk k)) (updates ups dk)).
Proof. intros Hq Hu. by apply transaction_runs. Qed.

(** C3: recovery at boot finishes what a crash interrupted.  Whatever
    transaction the log area of a well-formed disk holds, recover_from_log()
    ends with an empty log and the home blocks as [recovered] says; and if
    the machine crashes again at any wait of the recovery, the disk still
    recovers to the same contents, so that recovery can be repeated until it
    succeeds. *)
Theorem recovery_idempotent lg dk ca :
  log_at start lg → disk_ok start dk → room start ca →
  (∀ bno, bno ∈ head_blocks (dblock dk start) → ca !! bno = None) →
  runs (Z.to_nat (head_n (dblock dk start)) * 3 + 3) (fs_state (p:=p) (pid:=pid) R dk ca lg) recover_from_log
    (λ _ k, ∃ dk' lg', (head_n (dblock dk' start) = 0 ∧ lh_n (lg_lh lg') = 0 ∧ log_at start lg' ∧
       same_home start dk' (recovered start dk)) ∧ fs_state (p:=p) (pid:=pid) R dk' ca lg' k)
    (λ k, same_home start (recovered start (k_disk k)) (recovered start dk)).
Proof.
  intros Hla Hok Hrm Hnone. eapply runs_post; [by apply (recover_runs R start lg dk ca)|].
  cbn beta. intros _ k (dk' & lg' & (H1 & H2 & H3 & H4 & H5 & _) & Hk). by exists dk', lg'.
Qed.

(** C39: log_write() records a block once and pins it once, however often it
    is written in a transaction; it panics when the log has no room, that is
    with [lg_size - 1] blocks recorded, and outside a transaction. *)
Theorem log_write_outcomes lg dk ca bno b d r ks k :
  fs_state (p:=p) (pid:=pid) R dk ca lg k → log_at start lg → 0 ≤ lh_n (lg_lh lg) →
  Forall (λ x, 0 ≤ x < 2 ^ 31) (take (Z.to_nat (lh_n (lg_lh lg))) (lh_block (lg_lh lg))) →
  ca !! bno = Some (Pin b d r true) → r + 1 < 2 ^ 32 →
  if (LOGSIZE <=? lh_n (lg_lh lg)) || (lg_size lg - 1 <=? lh_n (lg_lh lg))
  then ∃ k', log_write b ks k = Panic "too big a transaction" k'
  else if lg_outstanding lg <? 1
  then ∃ k', log_write b ks k = Panic "log_write outside of trans" k'
  else ∃ k', log_write b ks k = Ok tt ks k' ∧
    (recorded bno lg → fs_state (p:=p) (pid:=pid) R dk ca lg k') ∧
    (¬ recorded bno lg →
       fs_state (p:=p) (pid:=pid) R dk (<[ bno := Pin b d (r + 1) true ]> ca) (with_block bno lg) k').
Proof.
  intros Hk Hla Hn Hf HC Hr. pose proof (fs_thread _ _ _ _ _ Hk) as Ht.
  destruct (Z.leb_spec LOGSIZE (lh_n (lg_lh lg))) as [H1|H1]; cbn [orb];
    [|destruct (Z.leb_spec (lg_size lg - 1) (lh_n (lg_lh lg))) as [H2|H2]];
    [..|destruct (Z.ltb_spec (lg_outstanding lg) 1) as [H3|H3]].
  4: by apply (log_write_run R start lg dk ca bno b d r).
  all: eexists; unfold log_write; rewrite bind_run, (thread_acquire p pid) by done;
    rewrite bind_run; cbn [gets]; cbn [k_log set_field]; rewrite (fs_log _ _ _ _ _ Hk); cbv zeta.
  - rewrite (proj2 (Z.leb_le _ _) H1). done.
  - rewrite (proj2 (Z.leb_gt _ _) H1), (proj2 (Z.leb_le _ _) H2). done.
  - rewrite (proj2 (Z.leb_gt _ _) H1), (proj2 (Z.leb_gt _ _) H2), (proj2 (Z.ltb_lt _ _) H3). done.
Qed.
End properties.

(** A log of 30 blocks that starts at block 2, as mkfs makes it. *)
Section witnesses.
#[local] Existing Instance sample_image.

#[local] Instance sample_area : LogArea.
Proof. refine {| log_cap := 29 |}. by_eval. Defined.

Definition sample_log : log_t := Log 2 30 0 0 1 (Logheader 0 (replicate 30 0)).

Definition sample_log_kernel (dk : disk) : kernel := sample_fs_kernel <| k_log := sample_log |> <| k_disk := dk |>.

Lemma sample_log_state lg dk :
  fs_state (p:=1) (pid:=0) (fs_forget sample_fs_kernel) dk ∅ lg (sample_fs_kernel <| k_log := lg |> <| k_disk := dk |>).
Proof.
  destruct sample_fs_state as [H1 H2 H3 H4 H5 H6 H7]. split; [reflexivity| | |exact H4| |reflexivity..].
  - apply (kernel_thread_ext 1 0 sample_fs_kernel); [exact H2|reflexivity..].
  - exact H3.
  - apply sample_cache.
Qed.

Lemma sample_log_at : log_at 2 sample_log.
Proof. split; by_eval. Qed.

Definition sample_ups : list (Z * (list Z → list Z)) := [(50, λ d, 1 :: tail d); (51, λ d, 2 :: tail d)].

Lemma transaction_atomic_witness :
  match transaction sample_ups (replicate 16 (serve 1)) (sample_log_kernel ∅) with
  | Ok _ _ k => dblock (k_disk k) 50 = 1 :: replicate 1023 0
  | _ => False
  end.
Proof.
  assert (Hz : ∀ bno, dblock ∅ bno = zero_block) by (intros bno; unfold dblock; by rewrite lookup_empty).
  pose proof (transaction_atomic (p:=1) (pid:=0) (fs_forget sample_fs_kernel) 2 sample_log ∅ ∅ sample_ups) as H.
  specialize (H ltac:(split; [apply sample_log_at|by_eval..|intros bno; rewrite Hz; by_eval|done])).
  specialize (H ltac:(split; [done|by_eval|by_eval|
    intros bno f Hin; repeat (apply elem_of_cons in Hin as [[= -> ->]|Hin]; [split; [split; [by_eval|unfold in_log; change log_cap with 29; lia]|split; [done|intros [|? ?]; cbn; lia]]|]);
    by apply not_elem_of_nil in Hin])).
  specialize (H (replicate 16 (serve 1)) (sample_log_kernel ∅) ltac:(by apply Forall_replicate) (sample_log_state _ _)).
  destruct (transaction _ _ _) as [[] ks k| | |k|]; try done.
  - destruct H as ((dk' & lg' & (_ & _ & Hs) & Hk) & _). rewrite (fs_disk _ _ _ _ _ Hk), (Hs 50); [reflexivity|].
    split; [by_eval|]. unfold in_log; change log_cap with 29; lia.
  - destruct H as [_ H]. rewrite length_replicate in H. cbn in H. lia.
Defined.

(** A disk with a committed transaction of one block. *)
Definition sample_crashed : disk :=
  {[ 2 := put32 (put32 zero_block 0 1) 4 50 ]} ∪ {[ 3 := 7 :: replicate 1023 0 ]}.

Lemma sample_crashed_ok : disk_ok 2 sample_crashed.
Proof.
  assert (Hn : head_n (dblock sample_crashed 2) = 1) by (vm_compute; reflexivity).
  split.
  - intros bno. unfold dblock, sample_crashed. rewrite lookup_union. rewrite !lookup_singleton.
    repeat case_decide; by vm_compute.
  - by rewrite Hn.
  - assert (head_blocks (dblock sample_crashed 2) = [50]) as -> by (vm_compute; reflexivity).
    apply Forall_singleton. split; [by_eval|]. unfold in_log; change log_cap with 29; lia.
Qed.

Lemma recovery_idempotent_witness :
  match recover_from_log (replicate 6 (serve 1)) (sample_log_kernel sample_crashed) with
  | Ok _ _ k => dblock (k_disk k) 50 = 7 :: replicate 1023 0
  | _ => False
  end.
Proof.
  pose proof (recovery_idempotent (p:=1) (pid:=0) (fs_forget sample_fs_kernel) 2 sample_log sample_crashed ∅) as H.
  specialize (H sample_log_at sample_crashed_ok ltac:(split; [by_eval|done]) ltac:(done)).
  specialize (H (replicate 6 (serve 1)) (sample_log_kernel sample_crashed) ltac:(by apply Forall_replicate) (sample_log_state _ _)).
  assert (Hn : head_n (dblock sample_crashed 2) = 1) by (vm_compute; reflexivity). rewrite Hn in H.
  destruct (recover_from_log _ _) as [[] ks k| | |k|]; try done.
  - destruct H as ((dk' & lg' & (_ & _ & _ & Hs) & Hk) & _). rewrite (fs_disk _ _ _ _ _ Hk), (Hs 50).
    + vm_compute. reflexivity.
    + split; [by_eval|]. unfold in_log; change log_cap with 29; lia.
  - destruct H as [_ H]. rewrite length_replicate in H. vm_compute in H. lia.
Defined.

Lemma log_write_outcomes_witness :
  ∃ b k k', log_write b [] k = Ok tt [] k'.
Proof.
  set (lg := sample_log <| lg_outstanding := 1 |>).
  assert (Hav : available ∅ ∅ 50) by (split; [by_eval|done|by_eval|intros _; split; by_eval]).
  pose proof (bread_runs (p:=1) (pid:=0) (fs_forget sample_fs_kernel) ∅ ∅ lg 50 Hav [serve 1]
    (sample_fs_kernel <| k_log := lg |> <| k_disk := ∅ |>) ltac:(repeat constructor) (sample_log_state lg ∅)) as H.
  destruct (bread _ _ _ _) as [b ks k| | |k|]; try done; [|destruct H as [_ H]; rewrite lookup_empty in H; cbn in H; lia].
  destruct H as [[_ Hk] _].
  pose proof (log_write_outcomes (p:=1) (pid:=0) (fs_forget sample_fs_kernel) 2 lg ∅ _ 50 b (contents ∅ ∅ 50) (refs ∅ 50 + 1) [] k Hk) as H.
  specialize (H ltac:(split; by_eval) ltac:(by_eval) ltac:(by_eval) (lookup_insert_eq _ _ _) ltac:(by_eval)).
  change (_ || _) with false in H. change (lg_outstanding lg <? 1) with false in H. cbv iota in H.
  destruct H as (k' & H & _). exists b, k, k'. exact H.
Defined.
End witnesses.
