(* ===== verification/Fs.v ===== *)
(** * The file system: fs.c

    Blocks, inodes, file contents, directories and path names, on top of the
    log and the buffer cache.  A destination or source inside the kernel that
    is a local variable is a list of bytes; one in memory is an address. *)

From S2P Require Import Prelude KMonad Memory Riscv State Spinlock CString Kalloc Vm VmUser.
From S2P Require Import VmCopy Sched Uart Printf Sleeplock Bio Log.

Definition T_DIR : Z := 1.
Definition T_FILE : Z := 2.
Definition T_DEVICE : Z := 3.

(** [sizeof(struct dinode)], [sizeof(struct dirent)] *)
Definition dinode_size : Z := 2 + 2 + 2 + 2 + 4 + 4 * (NDIRECT + 1).
Definition dirent_size : Z := 2 + DIRSIZ.

Definition IPB : Z := BSIZE / dinode_size.
Definition IBLOCK (i : Z) (sb : superblock) : Z := u32 (i / IPB + sb_inodestart sb).
Definition BPB : Z := BSIZE * 8.
Definition BBLOCK (b : Z) (sb : superblock) : Z := u32 (b / BPB + sb_bmapstart sb).

(** The fields of an on-disk inode, at [(struct dinode* )data + inum%IPB]. *)
Definition dinode_off (inum : Z) : Z := inum mod IPB * dinode_size.

Definition dinode_type (d : list Z) (inum : Z) : Z := i16 (get16 d (dinode_off inum)).

Definition dinode_addrs (d : list Z) (inum : Z) : list Z :=
  (λ i, get32 d (dinode_off inum + 12 + 4 * Z.of_nat i)) <$> seq 0 13.

Definition read_dinode (d : list Z) (x : inode) : inode :=
  let o := dinode_off (i_inum x) in
  x <| i_type := i16 (get16 d o) |>
    <| i_major := i16 (get16 d (o + 2)) |>
    <| i_minor := i16 (get16 d (o + 4)) |>
    <| i_nlink := i16 (get16 d (o + 6)) |>
    <| i_size := get32 d (o + 8) |>
    <| i_addrs := dinode_addrs d (i_inum x) |>.

Definition write_dinode (x : inode) (d : list Z) : list Z :=
  let o := dinode_off (i_inum x) in
  let d := put16 d o (i_type x) in
  let d := put16 d (o + 2) (i_major x) in
  let d := put16 d (o + 4) (i_minor x) in
  let d := put16 d (o + 6) (i_nlink x) in
  let d := put32 d (o + 8) (i_size x) in
  put_bytes d (o + 12) (i_addrs x ≫= Z_to_bytes 4).

(** The superblock as it lies on disk. *)
Definition decode_sb (d : list Z) : superblock :=
  Superblock (get32 d 0) (get32 d 4) (get32 d 8) (get32 d 12)
             (get32 d 16) (get32 d 20) (get32 d 24) (get32 d 28).

Definition inode_get (i : nat) : M kernel inode := deref "inode" (λ k, k_itable k !! i).
Definition inode_set (i : nat) (f : inode → inode) : M kernel unit :=
  modify (λ k, k <| k_itable ::= alter f i |>).

(** [for(bi = 0; bi < BPB && b + bi < sb.size; bi++) if((data[bi/8] & m) == 0)]:
    the first free block of the group that starts at [b]. *)
Fixpoint scan_bitmap (d : list Z) (b size bi : Z) (left : nat) : option Z :=
  match left with
  | O => None
  | S left' =>
      if b + bi <? size then
        if Z.land (byte_at d (bi / 8)) (Z.shiftl 1 (bi mod 8)) =? 0 then Some bi
        else scan_bitmap d b size (bi + 1) left'
      else None
  end.

(** The first blocks of the groups one bitmap block describes:
    [for(b = 0; b < sb.size; b += BPB)]. *)
Definition block_groups (size : Z) : list Z :=
  (λ i, Z.of_nat i * BPB) <$> seq 0 (Z.to_nat ((size + BPB - 1) / BPB)).

(** The search of iget(): the entry in use for (dev, inum), or the first
    empty one. *)
Fixpoint iget_scan (l : list inode) (i : nat) (dev inum : Z) (empty : option nat) : nat + option nat :=
  match l with
  | [] => inr empty
  | x :: l' =>
      if (0 <? i_ref x) && (i_dev x =? dev) && (i_inum x =? inum) then inl i
      else
        let empty' := if bool_decide (empty = None) && (i_ref x =? 0) then Some i else empty in
        iget_scan l' (S i) dev inum empty'
  end.

(** Offsets of the entries of a directory: [for(off = 0; off < size; off += sizeof(de))]. *)
Definition dir_offsets (from size : Z) : list Z :=
  (λ i, from + Z.of_nat i * dirent_size) <$>
    seq 0 (Z.to_nat ((size - from + dirent_size - 1) / dirent_size)).

(** Two strings of local variables, side by side in memory. *)
Definition side_by_side (s t : list Z) : memory := store_bytes (store_bytes (λ _, 0) 0 s) PGSIZE t.

Definition namecmp (s t : list Z) : Z := strncmp (side_by_side s t) 0 PGSIZE DIRSIZ.

(** [strncpy(de.name, name, DIRSIZ); de.inum = inum;] *)
Definition make_dirent (name : list Z) (inum : Z) : list Z :=
  Z_to_bytes 2 (u16 inum) ++ load_bytes (strncpy (side_by_side [] name) 0 PGSIZE DIRSIZ) 0 14.

(** [while( *path == '/') path++;] *)
Fixpoint skip_slashes (path : list Z) : list Z :=
  match path with
  | c :: path' => if c =? 47 then skip_slashes path' else path
  | [] => []
  end.

(** [while( *path != '/' && *path != 0) path++;]: the element and the rest. *)
Fixpoint split_elem (path : list Z) : list Z * list Z :=
  match path with
  | [] => ([], [])
  | c :: path' =>
      if (c =? 47) || (c =? 0) then ([], path)
      else let '(e, rest) := split_elem path' in (c :: e, rest)
  end.

(** A path is the list of its characters; the end of the list is its NUL. *)
Definition at_end (path : list Z) : bool :=
  match path with [] => true | c :: _ => c =? 0 end.

(** The rest of the path and the new contents of [name]. *)
Definition skipelem (path name : list Z) : option (list Z * list Z) :=
  let path := skip_slashes path in
  if at_end path then None else
  let '(s, rest) := split_elem path in
  let len := Z.of_nat (length s) in
  let name := if DIRSIZ <=? len then put_bytes name 0 (take (Z.to_nat DIRSIZ) s)
              else put_bytes name 0 (s ++ [0]) in
  Some (skip_slashes rest, name).

(** Where readi() puts the data and writei() takes it from. *)
Inductive place :=
  | User (va : Z)        (* user_dst == 1 *)
  | Kernel_at (a : Z)    (* a kernel address *)
  | Local (bs : list Z). (* a local variable *)

Record stat := Stat { st_dev : Z; st_ino : Z; st_type : Z; st_nlink : Z; st_size : Z }.

Section fs.
Context `{KI : KernelImage} `{D : Disk}.

Definition readsb (dev : Z) : M kernel unit :=
  bp ← bread dev 1;
  d ← buf_data bp;
  modify (λ k, k <| k_sb := decode_sb d |>) ;;
  brelse bp.

Definition fsinit (dev : Z) : M kernel unit :=
  readsb dev ;;
  sb ← gets k_sb;
  if negb (sb_magic sb =? FSMAGIC) then panic "invalid file system" else
  initlog dev sb.

Definition bzero (dev bno : Z) : M kernel unit :=
  bp ← bread dev bno;
  set_data bp (λ _, zero_block) ;;
  log_write bp ;;
  brelse bp.

Definition balloc (dev : Z) : M kernel Z :=
  sb ← gets k_sb;
  r ← for_find (block_groups (sb_size sb)) (λ b,
    bp ← bread dev (BBLOCK b sb);
    d ← buf_data bp;
    match scan_bitmap d b (sb_size sb) 0 (Z.to_nat BPB) with
    | Some bi =>
        (* Mark block in use. *)
        set_data bp (alter (λ x, Z.lor x (Z.shiftl 1 (bi mod 8))) (Z.to_nat (bi / 8))) ;;
        log_write bp ;;
        brelse bp ;;
        bzero dev (b + bi) ;;
        mret (Some (b + bi))
    | None =>
        brelse bp ;;
        mret None
    end);
  match r with
  | Some b => mret b
  | None => printf (bytes_of "balloc: out of blocks" ++ newline) [] ;; mret 0
  end.

Definition bfree (dev b : Z) : M kernel unit :=
  sb ← gets k_sb;
  bp ← bread dev (BBLOCK b sb);
  d ← buf_data bp;
  let bi := b mod BPB in
  let m := Z.shiftl 1 (bi mod 8) in
  if Z.land (byte_at d (bi / 8)) m =? 0 then panic "freeing free block" else
  set_data bp (alter (λ x, Z.land x (Z.lnot m)) (Z.to_nat (bi / 8))) ;;
  log_write bp ;;
  brelse bp.

Definition iinit : M kernel unit :=
  initlock L_itable "itable" ;;
  for_each (seq 0 NINODE) (λ i, initsleeplock (L_inode i) "inode").

(** Find the inode with number inum on device dev and return the in-memory
    copy. *)
Definition iget (dev inum : Z) : M kernel nat :=
  acquire L_itable ;;
  t ← gets k_itable;
  match iget_scan t 0 dev inum None with
  | inl i =>
      inode_set i (λ x, x <| i_ref := i_ref x + 1 |>) ;;
      release L_itable ;;
      mret i
  | inr None => panic "iget: no inodes"
  | inr (Some i) =>
      inode_set i (λ x, x <| i_dev := dev |>) ;;
      inode_set i (λ x, x <| i_inum := inum |>) ;;
      inode_set i (λ x, x <| i_ref := 1 |>) ;;
      inode_set i (λ x, x <| i_valid := 0 |>) ;;
      release L_itable ;;
      mret i
  end.

Definition ialloc (dev type : Z) : M kernel (option nat) :=
  sb ← gets k_sb;
  r ← for_find (Z.of_nat <$> seq 1 (Z.to_nat (sb_ninodes sb) - 1)) (λ inum,
    bp ← bread dev (IBLOCK inum sb);
    d ← buf_data bp;
    if dinode_type d inum =? 0 then  (* a free inode *)
      set_data bp (λ d, put_bytes d (dinode_off inum) (replicate (Z.to_nat dinode_size) 0)) ;;
      set_data bp (λ d, put16 d (dinode_off inum) type) ;;
      log_write bp ;;                (* mark it allocated on the disk *)
      brelse bp ;;
      i ← iget dev inum;
      mret (Some i)
    else
      brelse bp ;;
      mret None);
  match r with
  | Some i => mret (Some i)
  | None => printf (bytes_of "ialloc: no inodes" ++ newline) [] ;; mret None
  end.

(** Copy a modified in-memory inode to disk. *)
Definition iupdate (i : nat) : M kernel unit :=
  x ← inode_get i;
  sb ← gets k_sb;
  bp ← bread (i_dev x) (IBLOCK (i_inum x) sb);
  set_data bp (write_dinode x) ;;
  log_write bp ;;
  brelse bp.

Definition idup (i : nat) : M kernel nat :=
  acquire L_itable ;;
  inode_set i (λ x, x <| i_ref := i_ref x + 1 |>) ;;
  release L_itable ;;
  mret i.

(** Lock the given inode; reads the inode from disk if necessary. *)
Definition ilock (ip : option nat) : M kernel unit :=
  match ip with
  | None => panic "ilock"
  | Some i =>
      x ← inode_get i;
      if i_ref x <? 1 then panic "ilock" else
      acquiresleep (L_inode i) ;;
      x1 ← inode_get i;
      when (i_valid x1 =? 0)
        (sb ← gets k_sb;
         bp ← bread (i_dev x1) (IBLOCK (i_inum x1) sb);
         d ← buf_data bp;
         inode_set i (read_dinode d) ;;
         brelse bp ;;
         inode_set i (λ x, x <| i_valid := 1 |>) ;;
         x2 ← inode_get i;
         when (i_type x2 =? 0) (panic "ilock: no type"))
  end.

Definition iunlock (ip : option nat) : M kernel unit :=
  match ip with
  | None => panic "iunlock"
  | Some i =>
      h ← holdingsleep (L_inode i);
      x ← inode_get i;
      if negb h || (i_ref x <? 1) then panic "iunlock" else
      releasesleep (L_inode i)
  end.

(** Truncate inode (discard contents). *)
Definition itrunc (i : nat) : M kernel unit :=
  for_each (seq 0 12) (λ j,
    x ← inode_get i;
    let a := i_addrs x !!! j in
    when (truthy a)
      (bfree (i_dev x) a ;;
       inode_set i (λ x, x <| i_addrs ::= <[ j := 0 ]> |>))) ;;
  x ← inode_get i;
  let ind := i_addrs x !!! Z.to_nat NDIRECT in
  when (truthy ind)
    (bp ← bread (i_dev x) ind;
     for_each (Z.of_nat <$> seq 0 (Z.to_nat NINDIRECT)) (λ j,
       d ← buf_data bp;
       when (truthy (get32 d (4 * j))) (bfree (i_dev x) (get32 d (4 * j)))) ;;
     brelse bp ;;
     bfree (i_dev x) ind ;;
     inode_set i (λ x, x <| i_addrs ::= <[ Z.to_nat NDIRECT := 0 ]> |>)) ;;
  inode_set i (λ x, x <| i_size := 0 |>) ;;
  iupdate i.

(** Drop a reference to an in-memory inode. *)
Definition iput (i : nat) : M kernel unit :=
  acquire L_itable ;;
  x ← inode_get i;
  when ((i_ref x =? 1) && truthy (i_valid x) && (i_nlink x =? 0))
    (* inode has no links and no other references: truncate and free. *)
    (acquiresleep (L_inode i) ;;
     release L_itable ;;
     itrunc i ;;
     inode_set i (λ x, x <| i_type := 0 |>) ;;
     iupdate i ;;
     inode_set i (λ x, x <| i_valid := 0 |>) ;;
     releasesleep (L_inode i) ;;
     acquire L_itable) ;;
  inode_set i (λ x, x <| i_ref := i_ref x - 1 |>) ;;
  release L_itable.

Definition iunlockput (i : nat) : M kernel unit :=
  iunlock (Some i) ;;
  iput i.

(** The disk block address of the nth block in inode ip, allocating it if
    there is none. *)
Definition bmap (i : nat) (bn : Z) : M kernel Z :=
  x ← inode_get i;
  if bn <? NDIRECT then
    let addr := i_addrs x !!! Z.to_nat bn in
    if addr =? 0 then
      addr ← balloc (i_dev x);
      if addr =? 0 then mret 0 else
      inode_set i (λ x, x <| i_addrs ::= <[ Z.to_nat bn := addr ]> |>) ;;
      mret addr
    else mret addr
  else
  let bn := bn - NDIRECT in
  if bn <? NINDIRECT then
    (* Load indirect block, allocating if necessary. *)
    let addr := i_addrs x !!! Z.to_nat NDIRECT in
    addr ← (if addr =? 0 then
              addr ← balloc (i_dev x);
              when (truthy addr) (inode_set i (λ x, x <| i_addrs ::= <[ Z.to_nat NDIRECT := addr ]> |>)) ;;
              mret addr
            else mret addr);
    if addr =? 0 then mret 0 else
    bp ← bread (i_dev x) addr;
    d ← buf_data bp;
    let a := get32 d (4 * bn) in
    a ← (if a =? 0 then
           a ← balloc (i_dev x);
           when (truthy a)
             (set_data bp (λ d, put32 d (4 * bn) a) ;;
              log_write bp) ;;
           mret a
         else mret a);
    brelse bp ;;
    mret a
  else panic "bmap: out of range".

(** Copy stat information from inode. *)
Definition stati (i : nat) : M kernel stat :=
  x ← inode_get i;
  mret (Stat (i_dev x) (i_inum x) (i_type x) (i_nlink x) (i_size x)).

(** [either_copyout] to, and [either_copyin] from, a place. *)
Definition copy_to (dst : place) (tot : Z) (src : list Z) : M kernel Z :=
  match dst with
  | User va => either_copyout true (u64 (va + tot)) src
  | Kernel_at a => either_copyout false (u64 (a + tot)) src
  | Local _ => mret 0
  end.
Definition copy_from (src : place) (tot len : Z) : M kernel (Z * list Z) :=
  match src with
  | User va => either_copyin true (u64 (va + tot)) len
  | Kernel_at a => either_copyin false (u64 (a + tot)) len
  | Local bs => mret (0, bytes_at bs tot len)
  end.

(** How readi() and writei() leave their loops: with [tot], or [tot = -1]. *)
Definition io_min (n tot off : Z) : Z := Z.min (n - tot) (BSIZE - off mod BSIZE).

(** One turn of readi()'s loop, on [tot] and the bytes read so far. *)
Definition readi_body (i : nat) (dst : place) (off n : Z) (s : Z * list Z)
    : M kernel (Z * list Z + Z * list Z) :=
  let '(tot, acc) := s in
  if tot <? n then
    let o := off + tot in
    addr ← bmap i (o / BSIZE);
    if addr =? 0 then mret (inr (tot, acc)) else
    x ← inode_get i;
    bp ← bread (i_dev x) addr;
    d ← buf_data bp;
    let m := io_min n tot o in
    let src := bytes_at d (o mod BSIZE) m in
    r ← copy_to dst tot src;
    brelse bp ;;
    if r =? -1 then mret (inr (-1, acc)) else
    mret (inl (tot + m, acc ++ src))
  else mret (inr (tot, acc)).

(** Every turn but the first and the last moves a whole block. *)
Definition io_fuel (n : Z) : nat := Z.to_nat (n / BSIZE + 3).

(** Returns the number of bytes and, for a local destination, the bytes. *)
Definition readi (i : nat) (dst : place) (off n : Z) : M kernel (Z * list Z) :=
  x ← inode_get i;
  if (i_size x <? off) || (u32 (off + n) <? off) then mret (0, []) else
  let n := if i_size x <? off + n then i_size x - off else n in
  while_fuel (io_fuel n) (readi_body i dst off n) (0, []).

(** One turn of writei()'s loop, on [tot]. *)
Definition writei_body (i : nat) (src : place) (off n : Z) (tot : Z) : M kernel (Z + Z) :=
  if tot <? n then
    let o := off + tot in
    addr ← bmap i (o / BSIZE);
    if addr =? 0 then mret (inr tot) else
    x ← inode_get i;
    bp ← bread (i_dev x) addr;
    let m := io_min n tot o in
    r ← copy_from src tot m;
    set_data bp (λ d, put_bytes d (o mod BSIZE) r.2) ;;
    if (r.1 : Z) =? -1 then
      brelse bp ;;
      mret (inr tot)
    else
      log_write bp ;;
      brelse bp ;;
      mret (inl (tot + m))
  else mret (inr tot).

Definition writei (i : nat) (src : place) (off n : Z) : M kernel Z :=
  x ← inode_get i;
  if (i_size x <? off) || (u32 (off + n) <? off) then mret (-1) else
  if MAXFILE * BSIZE <? u32 (off + n) then mret (-1) else
  tot ← while_fuel (io_fuel n) (writei_body i src off n) 0;
  x1 ← inode_get i;
  when (i_size x1 <? off + tot) (inode_set i (λ x, x <| i_size := off + tot |>)) ;;
  (* write the i-node back to disk even if the size didn't change because the
     loop above might have called bmap() and added a new block. *)
  iupdate i ;;
  mret tot.

(** Look for a directory entry in a directory; the entry and its offset. *)
Definition dirlookup (dp : nat) (name : list Z) : M kernel (option (nat * Z)) :=
  x ← inode_get dp;
  if negb (i_type x =? T_DIR) then panic "dirlookup not DIR" else
  for_find (dir_offsets 0 (i_size x)) (λ off,
    r ← readi dp (Local []) off dirent_size;
    if negb (r.1 =? dirent_size) then panic "dirlookup read" else
    let inum := get16 r.2 0 in
    if inum =? 0 then mret None else
    if namecmp name (bytes_at r.2 2 DIRSIZ) =? 0 then
      (* entry matches path element *)
      i ← iget (i_dev x) inum;
      mret (Some (i, off))
    else mret None).

(** Write a new directory entry (name, inum) into the directory dp. *)
Definition dirlink (dp : nat) (name : list Z) (inum : Z) : M kernel Z :=
  (* Check that name is not present. *)
  r ← dirlookup dp name;
  match r with
  | Some (ip, _) => iput ip ;; mret (-1)
  | None =>
      (* Look for an empty dirent. *)
      x ← inode_get dp;
      e ← for_find (dir_offsets 0 (i_size x)) (λ off,
        r ← readi dp (Local []) off dirent_size;
        if negb (r.1 =? dirent_size) then panic "dirlink read" else
        if get16 r.2 0 =? 0 then mret (Some off) else mret None);
      let off := default (Z.of_nat (length (dir_offsets 0 (i_size x))) * dirent_size) e in
      w ← writei dp (Local (make_dirent name inum)) off dirent_size;
      if negb (w =? dirent_size) then mret (-1) else mret 0
  end.

(** One turn of namex()'s loop, on (path, name, ip); the result carries the
    final contents of [name]. *)
Definition namex_body (nameiparent : bool) (s : list Z * list Z * nat)
    : M kernel (list Z * list Z * nat + option nat * list Z) :=
  let '(path, name, ip) := s in
  match skipelem path name with
  | None =>
      if nameiparent then iput ip ;; mret (inr (None, name))
      else mret (inr (Some ip, name))
  | Some (path', name') =>
      ilock (Some ip) ;;
      x ← inode_get ip;
      if negb (i_type x =? T_DIR) then
        iunlockput ip ;;
        mret (inr (None, name'))
      else if nameiparent && at_end path' then
        (* Stop one level early. *)
        iunlock (Some ip) ;;
        mret (inr (Some ip, name'))
      else
        next ← dirlookup ip name';
        match next with
        | None => iunlockput ip ;; mret (inr (None, name'))
        | Some (nx, _) => iunlockput ip ;; mret (inl (path', name', nx))
        end
  end.

Definition namex (path : list Z) (nameiparent : bool) : M kernel (option nat * list Z) :=
  ip ← (if byte_at path 0 =? 47 then iget ROOTDEV ROOTINO
        else
          p ← curproc;
          pr ← proc_get p;
          cwd ← deref "cwd" (λ _, p_cwd pr);
          idup cwd);
  while_fuel (S (length path)) (namex_body nameiparent) (path, replicate (Z.to_nat DIRSIZ) 0, ip).

Definition namei (path : list Z) : M kernel (option nat) :=
  r ← namex path false;
  mret r.1.

Definition nameiparent (path : list Z) : M kernel (option nat * list Z) := namex path true.
End fs.
