(* ===== verification/FsSpec.v ===== *)
(** * Properties of the file system *)

From S2P Require Import Prelude KMonad Memory Riscv State Spinlock CString Kalloc Vm VmUser.
From S2P Require Import VmCopy Sched Uart Printf Sleeplock Bio Virtio Crash VirtioSpec BioSpec.
From S2P Require Import Log LogSpec Fs.

(** ** Path names *)

(** The elements of a path: the maximal runs of characters other than '/'. *)
Fixpoint elements_from (cur path : list Z) : list (list Z) :=
  match path with
  | [] => if decide (cur = []) then [] else [cur]
  | c :: path' =>
      if c =? 47 then (if decide (cur = []) then [] else [cur]) ++ elements_from [] path'
      else elements_from (cur ++ [c]) path'
  end.
Definition elements (path : list Z) : list (list Z) := elements_from [] path.

Lemma elements_skip path : elements (skip_slashes path) = elements path.
Proof.
  unfold elements. induction path as [|c path IH]; [done|]. cbn. destruct (Z.eqb_spec c 47); [|cbn].
  - by rewrite IH.
  - by destruct (Z.eqb_spec c 47).
Qed.

Lemma elements_split cur path s rest :
  split_elem path = (s, rest) → Forall (λ c, c ≠ 0) path → cur ++ s ≠ [] →
  elements_from cur path = (cur ++ s) :: elements rest.
Proof.
  revert cur s rest. induction path as [|c path IH]; intros cur s rest Hs Hnz Hne.
  - cbn in Hs. injection Hs as <- <-. rewrite app_nil_r in *. cbn. by rewrite decide_False.
  - apply Forall_cons in Hnz as [Hc Hnz]. cbn in Hs. rewrite (proj2 (Z.eqb_neq c 0) Hc), orb_false_r in Hs.
    cbn [elements_from]. destruct (Z.eqb_spec c 47) as [->|H47].
    + injection Hs as <- <-. rewrite app_nil_r in *. by rewrite decide_False by done.
    + destruct (split_elem path) as [e r] eqn:E. injection Hs as <- <-.
      rewrite (IH (cur ++ [c]) e r) by (done || by rewrite <- app_assoc; destruct cur). by rewrite <- app_assoc.
Qed.

Lemma split_elem_app path s rest : split_elem path = (s, rest) → path = s ++ rest ∧ Forall (λ c, c ≠ 0) s.
Proof.
  revert s rest. induction path as [|c path IH]; intros s rest; cbn; [by intros [= <- <-]|].
  destruct (Z.eqb_spec c 47), (Z.eqb_spec c 0); cbn; try (by intros [= <- <-]).
  destruct (split_elem path) as [e r]. intros [= <- <-]. destruct (IH e r eq_refl) as [-> H].
  split; [done|]. by constructor.
Qed.

Lemma skip_slashes_suffix path : ∃ n, skip_slashes path = drop n path.
Proof.
  induction path as [|c path IH]; [by exists 0%nat|]. cbn. destruct (c =? 47); [|by exists 0%nat].
  destruct IH as [n Hn]. by exists (S n).
Qed.

Lemma skip_slashes_head path c rest : skip_slashes path = c :: rest → c ≠ 47.
Proof.
  induction path as [|d path IH]; [done|]. cbn. destruct (Z.eqb_spec d 47) as [->|]; [done|]. by intros [= -> _].
Qed.

(** The name a directory entry of DIRSIZ bytes holds. *)
Definition dirent_name (name : list Z) : list Z := until_nul (take 14 name).

Lemma skipelem_name name s :
  length name = 14%nat → Forall (λ c, c ≠ 0) s →
  let name' := if DIRSIZ <=? Z.of_nat (length s) then put_bytes name 0 (take (Z.to_nat DIRSIZ) s)
               else put_bytes name 0 (s ++ [0]) in
  length name' = 14%nat ∧ dirent_name name' = take 14 s.
Proof.
  intros Hl Hs. change DIRSIZ with 14. change (Z.to_nat 14) with 14%nat. cbv zeta.
  destruct (Z.leb_spec 14 (Z.of_nat (length s))) as [H|H]; rewrite put_bytes_length; split; try done; unfold dirent_name.
  - rewrite put_bytes_front by (rewrite length_take; lia). rewrite length_take, Nat.min_l by lia.
    rewrite take_app_length' by (rewrite length_take; lia). apply until_nul_all. by apply Forall_take.
  - rewrite put_bytes_front by (rewrite length_app; cbn; lia). rewrite length_app. cbn [length].
    rewrite <- app_assoc, take_ge by (rewrite !length_app, length_drop; cbn; lia). cbn [app].
    rewrite until_nul_app by done. by rewrite take_ge by lia.
Qed.

(** One call of skipelem() takes the first element off the path. *)
Lemma skipelem_spec path name :
  Forall (λ c, c ≠ 0) path → length name = 14%nat →
  match elements path with
  | [] => skipelem path name = None
  | e :: es => ∃ rest name', skipelem path name = Some (rest, name') ∧ elements rest = es ∧
      Forall (λ c, c ≠ 0) rest ∧ (length rest < length path)%nat ∧ length name' = 14%nat ∧
      dirent_name name' = take 14 e
  end.
Proof.
  intros Hnz Hl. rewrite <- elements_skip. unfold skipelem. cbv zeta. destruct (skip_slashes_suffix path) as [n Hn].
  assert (Hsk : Forall (λ c, c ≠ 0) (skip_slashes path)) by (rewrite Hn; by apply Forall_drop).
  destruct (skip_slashes path) as [|c p1] eqn:E; [done|]. pose proof (skip_slashes_head _ _ _ E) as Hc.
  pose proof Hsk as [Hc0 _]%Forall_cons. cbn [at_end]. rewrite (proj2 (Z.eqb_neq c 0) Hc0).
  destruct (split_elem (c :: p1)) as [s rest] eqn:Es. pose proof (split_elem_app _ _ _ Es) as [Happ Hs].
  assert (Hne : s ≠ []).
  { intros ->. cbn in Es. rewrite (proj2 (Z.eqb_neq c 47) Hc), (proj2 (Z.eqb_neq c 0) Hc0) in Es. cbn in Es.
    by destruct (split_elem p1). }
  unfold elements at 1. rewrite (elements_split [] _ s rest Es Hsk Hne). cbn [app].
  destruct (skipelem_name name s Hl Hs) as [Hl' Hname].
  eexists _, _. split; [reflexivity|]. rewrite elements_skip. destruct (skip_slashes_suffix rest) as [n' Hn'].
  assert (Hr : Forall (λ c, c ≠ 0) rest) by (rewrite Happ in Hsk; by apply Forall_app in Hsk as [_ ?]).
  split; [done|]. split; [rewrite Hn'; by apply Forall_drop|]. split; [|done].
  rewrite Hn', length_drop. assert (length (c :: p1) = length (s ++ rest)) as Hlen by (by rewrite Happ).
  rewrite Hn, length_drop, length_app in Hlen. destruct s; [done|]. cbn in Hlen. lia.
Qed.

(** The names namex() looks up, one per turn of its loop. *)
Fixpoint path_names (fuel : nat) (path name : list Z) : option (list (list Z)) :=
  match fuel with
  | O => None
  | S fuel' =>
      match skipelem path name with
      | None => Some []
      | Some (path', name') => cons (dirent_name name') <$> path_names fuel' path' name'
      end
  end.



(** ** Inodes on disk *)

(** An in-memory inode whose fields fit their C types. *)
Record inode_fits (x : inode) : Prop := {
  if_inum : 0 ≤ i_inum x;
  if_type : - 2 ^ 15 ≤ i_type x < 2 ^ 15;
  if_major : - 2 ^ 15 ≤ i_major x < 2 ^ 15;
  if_minor : - 2 ^ 15 ≤ i_minor x < 2 ^ 15;
  if_nlink : - 2 ^ 15 ≤ i_nlink x < 2 ^ 15;
  if_size : 0 ≤ i_size x < 2 ^ 32;
  if_addrs : length (i_addrs x) = 13%nat ∧ Forall (λ a, 0 ≤ a < 2 ^ 32) (i_addrs x);
}.

Lemma dinode_off_bounds inum : 0 ≤ inum → 0 ≤ dinode_off inum ∧ dinode_off inum + 64 ≤ 1024.
Proof.
  intros H. unfold dinode_off. change IPB with 16. change dinode_size with 64.
  pose proof (Z.mod_pos_bound inum 16). lia.
Qed.

Lemma addrs_bytes_length l : length (l ≫= Z_to_bytes 4) = (4 * length l)%nat.
Proof. induction l as [|a l IH]; [done|]. rewrite bind_cons, length_app, Z_to_bytes_length, IH. cbn. lia. Qed.

Lemma addrs_bytes_at l i a :
  l !! i = Some a → bytes_at (l ≫= Z_to_bytes 4) (4 * Z.of_nat i) 4 = Z_to_bytes 4 a.
Proof.
  revert i. induction l as [|b l IH]; intros i Hi; [done|]. unfold bytes_at. rewrite bind_cons.
  destruct i as [|i]; cbn in Hi.
  - injection Hi as ->. change (Z.to_nat (4 * Z.of_nat 0)) with 0%nat. rewrite drop_0.
    by rewrite take_app_length' by (by rewrite Z_to_bytes_length).
  - rewrite <- (IH i Hi). unfold bytes_at. f_equal.
    replace (Z.to_nat (4 * Z.of_nat (S i))) with (4 + Z.to_nat (4 * Z.of_nat i))%nat by lia.
    rewrite <- drop_drop, drop_app_length' by (by rewrite Z_to_bytes_length). done.
Qed.

Lemma i16_u16 v : - 2 ^ 15 ≤ v < 2 ^ 15 → i16 (u16 v) = v.
Proof.
  intros H. unfold i16, signed, u16. rewrite Z.mod_mod by lia. by apply (signed_small 16).
Qed.

(** Each field of the record written is read back. *)
Lemma write_dinode_length x d : length (write_dinode x d) = length d.
Proof. unfold write_dinode. by rewrite put_bytes_length, put32_length, !put16_length. Qed.

(** Reading inside the addresses, and before them. *)
Lemma write_dinode_addr x d i a :
  inode_fits x → length d = 1024%nat → i_addrs x !! i = Some a →
  get32 (write_dinode x d) (dinode_off (i_inum x) + 12 + 4 * Z.of_nat i) = a.
Proof.
  intros [H1 _ _ _ _ _ [Hl Ha]] Hd Hi. destruct (dinode_off_bounds _ H1) as [Ho1 Ho2].
  assert (Hlt : (i < 13)%nat) by (rewrite <- Hl; by eapply lookup_lt_Some).
  unfold get32, write_dinode. rewrite bytes_at_put_part by (rewrite ?addrs_bytes_length, ?Hl, ?put32_length, ?put16_length, ?Hd; lia).
  rewrite (addrs_bytes_at _ _ a) by done. apply bytes_to_Z_to_bytes.
  rewrite Forall_lookup in Ha. by apply (Ha i a).
Qed.

(** Read back a field of a block under construction. *)
Ltac field_side := repeat (rewrite put16_length || rewrite put32_length); unfold apart; lia.
Ltac fields := repeat first
  [ rewrite get16_put16 by field_side | rewrite get32_put32 by field_side
  | rewrite get16_put16_ne by field_side | rewrite get32_put16_ne by field_side
  | rewrite get16_put32_ne by field_side | rewrite get32_put32_other by field_side ].

Lemma write_dinode_fields x d :
  inode_fits x → length d = 1024%nat →
  let o := dinode_off (i_inum x) in let e := write_dinode x d in
  get16 e o = u16 (i_type x) ∧ get16 e (o + 2) = u16 (i_major x) ∧ get16 e (o + 4) = u16 (i_minor x) ∧
  get16 e (o + 6) = u16 (i_nlink x) ∧ get32 e (o + 8) = u32 (i_size x).
Proof.
  intros Hx Hd o e. destruct (dinode_off_bounds _ (if_inum _ Hx)) as [Ho1 Ho2]. fold o in Ho1, Ho2.
  pose proof (if_addrs _ Hx) as [Hl _].
  unfold e, write_dinode. fold o.
  rewrite !(get16_put_other _ (o + 12)), (get32_put_other _ (o + 12)) by (rewrite ?addrs_bytes_length, ?Hl; field_side).
  split_and!; fields; done.
Qed.

Lemma write_dinode_other x d a n :
  inode_fits x → length d = 1024%nat → 0 ≤ a → apart (dinode_off (i_inum x)) 64 a n →
  bytes_at (write_dinode x d) a n = bytes_at d a n.
Proof.
  intros Hx Hd Ha Hap. destruct (dinode_off_bounds _ (if_inum _ Hx)) as [Ho1 Ho2].
  pose proof (if_addrs _ Hx) as [Hl _]. unfold write_dinode. set (o := dinode_off (i_inum x)) in *. unfold apart in Hap.
  rewrite bytes_at_put_other by (rewrite ?addrs_bytes_length, ?Hl; field_side).
  unfold put32. rewrite bytes_at_put_other by (rewrite ?Z_to_bytes_length; field_side).
  unfold put16. by rewrite !bytes_at_put_other by (rewrite ?put_bytes_length, ?Z_to_bytes_length; lia).
Qed.

(** iupdate()'s encoding of an inode and ilock()'s decoding are inverse:
    every field of an inode whose values fit the on-disk types, with its sign,
    is read back unchanged from the block it was written to, the block keeps
    its size, and the other inodes of the block are unaffected. *)
Theorem dinode_roundtrip x d :
  inode_fits x → length d = 1024%nat →
  length (write_dinode x d) = 1024%nat ∧
  (∀ y, i_inum y = i_inum x → read_dinode (write_dinode x d) y =
     y <| i_type := i_type x |> <| i_major := i_major x |> <| i_minor := i_minor x |>
       <| i_nlink := i_nlink x |> <| i_size := i_size x |> <| i_addrs := i_addrs x |>) ∧
  (∀ y, 0 ≤ i_inum y → i_inum y mod IPB ≠ i_inum x mod IPB →
     read_dinode (write_dinode x d) y = read_dinode d y).
Proof.
  intros Hx Hd. split; [by rewrite write_dinode_length|]. split.
  - intros y Hy. destruct (write_dinode_fields x d Hx Hd) as (F1 & F2 & F3 & F4 & F5).
    unfold read_dinode, dinode_addrs. rewrite Hy, F1, F2, F3, F4, F5.
    destruct Hx as [X1 X2 X3 X4 X5 X6 [X7 X8]]. rewrite !i16_u16, u32_small by done.
    assert (Haddr : (λ i : nat, get32 (write_dinode x d) (dinode_off (i_inum x) + 12 + 4 * Z.of_nat i)) <$> seq 0 13 = i_addrs x).
    { apply list_eq. intros i. rewrite list_lookup_fmap. destruct (decide (i < 13)%nat) as [Hi|Hi].
      - destruct (lookup_lt_is_Some_2 (i_addrs x) i) as [a Ha]; [lia|]. rewrite lookup_seq_lt, Ha by done. cbn. f_equal.
        by apply write_dinode_addr.
      - rewrite lookup_seq_ge by lia. symmetry. apply lookup_ge_None_2. lia. }
    by rewrite Haddr.
  - intros y Hy Hne. pose proof (if_inum _ Hx) as Hxi. unfold read_dinode, dinode_addrs, get16, get32.
    assert (Hap : ∀ a n, 0 ≤ a → 0 ≤ n → a + n ≤ 64 →
      bytes_at (write_dinode x d) (dinode_off (i_inum y) + a) n = bytes_at d (dinode_off (i_inum y) + a) n).
    { intros a n Ha Hn Han. pose proof (dinode_off_bounds _ Hy). apply write_dinode_other; try done; [lia|].
      unfold apart, dinode_off. change dinode_size with 64. lia. }
    pose proof (Hap 0 2) as H0. rewrite Z.add_0_r in H0. rewrite H0, !Hap by lia.
    assert (Haddr : ∀ e f, (∀ a n, 0 ≤ a → 0 ≤ n → a + n ≤ 64 → bytes_at e (dinode_off (i_inum y) + a) n = bytes_at f (dinode_off (i_inum y) + a) n) →
      (λ i : nat, bytes_to_Z (bytes_at e (dinode_off (i_inum y) + 12 + 4 * Z.of_nat i) 4)) <$> seq 0 13 =
      (λ i : nat, bytes_to_Z (bytes_at f (dinode_off (i_inum y) + 12 + 4 * Z.of_nat i) 4)) <$> seq 0 13).
    { intros e f He. apply list_fmap_ext. intros i j [-> Hj]%lookup_seq. rewrite <- !Z.add_assoc. by rewrite He by lia. }
    by rewrite (Haddr _ _ Hap).
Qed.

Definition sample_inode : inode :=
  Inode 1 5 1 zero_sleeplock 1 T_FILE (-1) 3 1 4096 (replicate 13 700).

Lemma dinode_roundtrip_witness :
  i_major (read_dinode (write_dinode sample_inode zero_block) (zero_inode <| i_inum := 5 |>)) = -1.
Proof.
  destruct (dinode_roundtrip sample_inode zero_block) as (_ & H & _); [split; by_eval|by_eval|].
  assert (E : i_inum (zero_inode <| i_inum := 5 |>) = i_inum sample_inode) by reflexivity.
  by rewrite (H _ E).
Defined.

(** ** The table of in-memory inodes *)

Definition holds (dev inum : Z) (x : inode) : Prop := 0 < i_ref x ∧ i_dev x = dev ∧ i_inum x = inum.
#[export] Instance holds_dec dev inum x : Decision (holds dev inum x) := _.
Definition unused (x : inode) : Prop := i_ref x = 0.
#[export] Instance unused_dec x : Decision (unused x) := _.

(** At most one entry in use for each inode. *)
Definition itable_unique (t : list inode) : Prop :=
  ∀ i j x y dev inum, t !! i = Some x → t !! j = Some y → holds dev inum x → holds dev inum y → i = j.

(** The number of references to an inode. *)
Definition itable_refs (t : list inode) (dev inum : Z) : Z :=
  match list_find (holds dev inum) t with Some (_, x) => i_ref x | None => 0 end.

Lemma iget_scan_spec l i dev inum empty :
  iget_scan l i dev inum empty =
  match list_find (holds dev inum) l with
  | Some (j, _) => inl (i + j)%nat
  | None => inr (match empty with
                 | Some e => Some e
                 | None => (λ p, (i + p.1)%nat) <$> list_find unused l
                 end)
  end.
Proof.
  revert i empty. induction l as [|x l IH]; intros i empty; [by destruct empty|]. cbn [iget_scan list_find].
  assert (Hh : (0 <? i_ref x) && (i_dev x =? dev) && (i_inum x =? inum) = bool_decide (holds dev inum x)).
  { unfold holds. destruct (Z.ltb_spec 0 (i_ref x)), (Z.eqb_spec (i_dev x) dev), (Z.eqb_spec (i_inum x) inum);
      symmetry; (apply bool_decide_eq_true_2; done) || (apply bool_decide_eq_false_2; lia || tauto). }
  rewrite Hh. case_bool_decide as Hx; [rewrite decide_True by done; f_equal; lia|].
  rewrite decide_False by done. cbv zeta. rewrite IH.
  destruct (list_find (holds dev inum) l) as [[j y]|]; cbn; [f_equal; lia|].
  destruct empty as [e|]; [done|]. cbn. destruct (Z.eqb_spec (i_ref x) 0) as [H0|H0].
  - rewrite decide_True by done. cbn. do 2 f_equal. lia.
  - rewrite decide_False by done. destruct (list_find unused l) as [[j y]|]; cbn; [do 2 f_equal; lia|done].
Qed.

Lemma itable_unique_take t i x y dev inum :
  itable_unique t → t !! i = Some x → holds dev inum y →
  (∀ j z, j ≠ i → t !! j = Some z → ¬ holds dev inum z) → itable_unique (<[ i := y ]> t).
Proof.
  intros Hu Hx Hy Hno j1 j2 x1 x2 d n [[<- [<- _]]|[Hn1 H1]]%list_lookup_insert_Some
    [[<- [<- _]]|[Hn2 H2]]%list_lookup_insert_Some G1 G2; [done| | |by apply (Hu j1 j2 x1 x2 d n)].
  - destruct Hy as (_ & <- & <-), G1 as (_ & <- & <-). exfalso. by apply (Hno j2 x2).
  - destruct Hy as (_ & <- & <-), G2 as (_ & <- & <-). exfalso. by apply (Hno j1 x1).
Qed.

Section itable.
Context (p : nat) (pid : Z).

(** Leaving the critical section of the table with the table [t]. *)
Lemma itable_release k t ks :
  kernel_thread p pid k →
  release L_itable ks (k <| k_mach := take_lock L_itable (k_mach k) |> <| k_itable := t |>) =
  Ok tt ks (k <| k_itable := t |>).
Proof. intros Hk. rewrite (thread_release p pid L_itable k) by done. by destruct k. Qed.

(** iget() is the search over the whole table. *)
Lemma iget_run dev inum ks k :
  kernel_thread p pid k →
  iget dev inum ks k =
  match list_find (holds dev inum) (k_itable k) with
  | Some (i, x) => Ok i ks (k <| k_itable := <[ i := x <| i_ref := i_ref x + 1 |> ]> (k_itable k) |>)
  | None =>
      match list_find unused (k_itable k) with
      | Some (i, x) =>
          Ok i ks (k <| k_itable := <[ i := x <| i_dev := dev |> <| i_inum := inum |> <| i_ref := 1 |>
                                                <| i_valid := 0 |> ]> (k_itable k) |>)
      | None => Panic "iget: no inodes" (k <| k_mach := take_lock L_itable (k_mach k) |>)
      end
  end.
Proof.
  intros Hk. unfold iget. rewrite bind_run, (thread_acquire p pid) by done. rewrite bind_run.
  cbn [gets]. set (k1 := k <| k_mach := _ |>). change (k_itable k1) with (k_itable k).
  rewrite iget_scan_spec. destruct (list_find (holds dev inum) (k_itable k)) as [[i x]|] eqn:F.
  - apply list_find_Some in F as (Hx & _ & _). rewrite bind_run. cbn [inode_set modify Nat.add].
    assert (E : k1 <| k_itable ::= alter (λ y, y <| i_ref := i_ref y + 1 |>) i |> =
                k1 <| k_itable := <[ i := x <| i_ref := i_ref x + 1 |> ]> (k_itable k) |>).
    { cbn. by rewrite (alter_insert_at _ _ _ x). }
    rewrite E, bind_run. unfold k1. by rewrite itable_release.
  - destruct (list_find unused (k_itable k)) as [[i x]|] eqn:G; [|done]. cbn [fmap option_fmap option_map fst Nat.add].
    apply list_find_Some in G as (Hx & _ & _). rewrite bind_run. cbn [inode_set modify].
    do 3 (rewrite bind_run; cbn [inode_set modify]). rewrite bind_run.
    match goal with |- context [release _ ks ?k2] => assert (E : k2 =
      k1 <| k_itable := <[ i := x <| i_dev := dev |> <| i_inum := inum |> <| i_ref := 1 |>
                                  <| i_valid := 0 |> ]> (k_itable k) |>) end.
    { cbn. by rewrite !list_alter_alter, (alter_insert_at _ _ _ x). }
    rewrite E. unfold k1. by rewrite itable_release.
Qed.
End itable.

Lemma itable_refs_at t i x dev inum :
  itable_unique t → t !! i = Some x → holds dev inum x → itable_refs t dev inum = i_ref x.
Proof.
  intros Hu Hx Hh. unfold itable_refs. destruct (list_find (holds dev inum) t) as [[j y]|] eqn:F.
  - apply list_find_Some in F as (Hy & Hhy & _). assert (i = j) as -> by (by eapply Hu). congruence.
  - apply list_find_None in F. exfalso. eapply Forall_lookup_1 in F; [|done]. by apply F.
Qed.

Lemma itable_refs_none t dev inum :
  (∀ i x, t !! i = Some x → ¬ holds dev inum x) → itable_refs t dev inum = 0.
Proof.
  intros Hno. unfold itable_refs. destruct (list_find (holds dev inum) t) as [[j y]|] eqn:F; [|done].
  apply list_find_Some in F as (Hy & Hhy & _). by destruct (Hno j y).
Qed.

(** Replacing an entry changes the count of no inode that neither the old
    nor the new entry holds. *)
Lemma itable_refs_other t i x y dev inum :
  itable_unique t → itable_unique (<[ i := y ]> t) → t !! i = Some x →
  ¬ holds dev inum x → ¬ holds dev inum y → itable_refs (<[ i := y ]> t) dev inum = itable_refs t dev inum.
Proof.
  intros Hu Hu' Hx Hnx Hny. destruct (list_find (holds dev inum) t) as [[j z]|] eqn:F.
  - apply list_find_Some in F as (Hz & Hhz & _). assert (i ≠ j) by (intros ->; congruence).
    rewrite (itable_refs_at t j z), (itable_refs_at (<[ i := y ]> t) j z); [done|done| |done..].
    by rewrite list_lookup_insert_ne.
  - apply list_find_None in F. rewrite !itable_refs_none; [done| |].
    + intros j z Hz. by eapply Forall_lookup_1 in F.
    + intros j z [[<- [<- _]]|[_ Hz]]%list_lookup_insert_Some; [done|]. by eapply Forall_lookup_1 in F.
Qed.

(** The table after one more reference to (dev, inum) was taken at entry
    [i]. *)
Definition itable_took (t t' : list inode) (i : nat) (dev inum : Z) : Prop :=
  itable_unique t' ∧ (∃ x, t' !! i = Some x ∧ holds dev inum x) ∧
  (∀ d n, itable_refs t' d n = itable_refs t d n + (if decide (d = dev ∧ n = inum) then 1 else 0)) ∧
  (∀ j, j ≠ i → t' !! j = t !! j).

Lemma itable_take t i x y dev inum :
  itable_unique t → t !! i = Some x → holds dev inum y → i_ref y = itable_refs t dev inum + 1 →
  (holds dev inum x ∨ unused x) → (∀ j z, j ≠ i → t !! j = Some z → ¬ holds dev inum z) →
  itable_took t (<[ i := y ]> t) i dev inum.
Proof.
  intros Hu Hx Hy Href Hold Hno. assert (Hu' : itable_unique (<[ i := y ]> t)) by (by eapply itable_unique_take).
  assert (Hi : <[ i := y ]> t !! i = Some y) by (apply list_lookup_insert_eq; by eapply lookup_lt_Some).
  repeat split; [done|by exists y| |by intros j Hj; rewrite list_lookup_insert_ne].
  intros d n. case_decide as Hd.
  - destruct Hd as [-> ->]. by rewrite (itable_refs_at _ i y).
  - rewrite Z.add_0_r. apply (itable_refs_other t i x y); [done..| |].
    + unfold holds, unused in *. lia.
    + unfold holds in *. lia.
Qed.

(** iget(dev, inum) finds or claims the one table entry of an inode.
    From a table with at most one entry in use per inode it returns an entry
    that holds (dev, inum), the table again has at most one entry per inode,
    the inode has exactly one reference more and every other inode as many
    as before, no other entry changes, and an entry that was not in use is
    marked invalid, so that ilock() will read it from disk.  It panics only
    when every entry is in use and none is for this inode. *)
Theorem iget_takes_reference p pid dev inum ks k :
  kernel_thread p pid k → itable_unique (k_itable k) →
  match iget dev inum ks k with
  | Ok i ks' k' =>
      ks' = ks ∧ kernel_thread p pid k' ∧ itable_took (k_itable k) (k_itable k') i dev inum ∧
      (itable_refs (k_itable k) dev inum = 0 → i_valid <$> k_itable k' !! i = Some 0)
  | Panic _ _ => Forall (λ x, i_ref x ≠ 0 ∧ ¬ holds dev inum x) (k_itable k)
  | _ => False
  end.
Proof.
  intros Hk Hu. rewrite (iget_run p pid) by done.
  destruct (list_find (holds dev inum) (k_itable k)) as [[i x]|] eqn:F.
  - apply list_find_Some in F as (Hx & Hh & _).
    assert (Hr : itable_refs (k_itable k) dev inum = i_ref x) by (by apply itable_refs_at with i).
    split; [done|]. split; [by apply (kernel_thread_ext p pid k)|]. split.
    + apply (itable_take _ _ x); [done..| |by rewrite Hr|by left|].
      * unfold holds in *. cbn. lia.
      * intros j z Hj Hz Hhz. apply Hj. by apply (Hu j i z x dev inum).
    + unfold holds in Hh. lia.
  - apply list_find_None in F. destruct (list_find unused (k_itable k)) as [[i x]|] eqn:G.
    + apply list_find_Some in G as (Hx & Hun & _).
      split; [done|]. split; [by apply (kernel_thread_ext p pid k)|]. split.
      * apply (itable_take _ _ x); [done..| | |by right|].
        -- unfold holds. cbn. lia.
        -- rewrite itable_refs_none; [done|]. intros j z Hz. by eapply Forall_lookup_1 in F.
        -- intros j z _ Hz. by eapply Forall_lookup_1 in F.
      * intros _. cbn. rewrite list_lookup_insert_eq; [done|]. by eapply lookup_lt_Some.
    + apply list_find_None in G. by apply Forall_and.
Qed.

(** A table with one inode in use. *)
Definition sample_itable : list inode := sample_inode :: replicate 2 (sample_inode <| i_ref := 0 |>).

Lemma sample_itable_unique : itable_unique sample_itable.
Proof.
  intros [|[|[|i]]] [|[|[|j]]] x y d n Hx Hy Hh1 Hh2; try done; cbn in Hx, Hy; simplify_eq;
    unfold holds in Hh1, Hh2; cbn in Hh1, Hh2; lia.
Qed.

Definition sample_itable_kernel : kernel := thread_kernel <| k_itable := sample_itable |>.

Lemma sample_itable_thread : kernel_thread 1 0 sample_itable_kernel.
Proof. apply (kernel_thread_ext 1 0 thread_kernel); [exact thread_kernel_ok|exact eq_refl|exact eq_refl]. Qed.

Lemma iget_takes_reference_witness :
  kernel_thread 1 0 sample_itable_kernel ∧ itable_unique (k_itable sample_itable_kernel) ∧
  match iget 1 9 [] sample_itable_kernel with
  | Ok i ks' k' =>
      ks' = [] ∧ kernel_thread 1 0 k' ∧ itable_took (k_itable sample_itable_kernel) (k_itable k') i 1 9 ∧
      (itable_refs (k_itable sample_itable_kernel) 1 9 = 0 → i_valid <$> k_itable k' !! i = Some 0)
  | Panic _ _ => Forall (λ x, i_ref x ≠ 0 ∧ ¬ holds 1 9 x) (k_itable sample_itable_kernel)
  | _ => False
  end.
Proof.
  split; [exact sample_itable_thread|]. split; [exact sample_itable_unique|].
  exact (iget_takes_reference 1 0 1 9 [] sample_itable_kernel sample_itable_thread sample_itable_unique).
Defined.
