(* ===== verification/FsTx.v ===== *)
(** * The file system inside a transaction

    Between begin_op() and end_op() file system code sees the disk as its
    own transaction has changed it.  [tx_state R V W op k] is a process in the
    middle of a transaction that sees the disk as [V], has written at most the
    blocks of [W] and holds the buffers of [op]; bread(), buffer accesses,
    log_write() and brelse() are steps between such states. *)

From stdpp Require Import gmap.
From S2P Require Import Prelude KMonad Memory Riscv State Spinlock CString Kalloc Vm VmUser.
From S2P Require Import VmCopy Sched Uart Printf Sleeplock Bio Virtio Crash VirtioSpec BioSpec.
From S2P Require Import Log LogSpec Fs.

(** The buffers the process has open: the buffer and its contents. *)
Abbreviation open_bufs := (gmap Z (nat * list Z)).

(** The cache with the open buffers locked; a block of the transaction is
    pinned by the log as well. *)
Definition open_pin (tx : list (Z * list Z)) (bno : Z) (x : nat * list Z) : pin :=
  Pin x.1 x.2 (if decide (bno ∈ tx.*1) then 2 else 1) true.

Definition opened (tx : list (Z * list Z)) (op : open_bufs) (ca : cache) : cache :=
  map_imap (λ bno x, Some (open_pin tx bno x)) op ∪ ca.

Lemma opened_lookup tx op ca a :
  opened tx op ca !! a = match op !! a with Some x => Some (open_pin tx a x) | None => ca !! a end.
Proof.
  unfold opened. destruct (op !! a) as [x|] eqn:E.
  - apply lookup_union_Some_l. by rewrite map_lookup_imap, E.
  - rewrite lookup_union_r; [done|]. by rewrite map_lookup_imap, E.
Qed.

Lemma opened_size tx op ca : (size (opened tx op ca) ≤ size ca + size op)%nat.
Proof.
  assert (Hd : dom (map_imap (λ bno x, Some (open_pin tx bno x)) op) = dom op).
  { apply set_eq. intros a. rewrite !elem_of_dom, map_lookup_imap. destruct (op !! a); cbn; [|done]. split; by eexists. }
  rewrite <- !size_dom, <- Hd. unfold opened. rewrite dom_union, size_union_alt.
  assert (size (dom ca ∖ dom (map_imap (λ bno x, Some (open_pin tx bno x)) op)) ≤ size (dom ca))%nat; [|lia].
  apply subseteq_size. set_solver.
Qed.

(** Equality of caches, one block at a time. *)
Ltac opened_eq :=
  apply map_eq; let a := fresh "a" in intros a;
  rewrite ?opened_lookup, ?lookup_insert, ?lookup_delete, ?opened_lookup, ?lookup_insert, ?lookup_delete;
  repeat case_decide; subst; try done.

Lemma opened_insert tx op ca bno b d :
  <[ bno := open_pin tx bno (b, d) ]> (opened tx op ca) = opened tx (<[ bno := (b, d) ]> op) ca.
Proof. opened_eq. Qed.

Lemma opened_delete tx op ca bno :
  ca !! bno = None → delete bno (opened tx op ca) = opened tx (delete bno op) ca.
Proof. intros H. opened_eq. Qed.

Lemma opened_close tx op ca bno pn :
  <[ bno := pn ]> (opened tx op ca) = opened tx (delete bno op) (<[ bno := pn ]> ca).
Proof. opened_eq. Qed.

Lemma opened_shadow tx op ca bno pn :
  is_Some (op !! bno) → opened tx op (<[ bno := pn ]> ca) = opened tx op ca.
Proof.
  intros [x Hx]. opened_eq. by rewrite Hx.
Qed.

Lemma opened_extend tx op ca bno b d e :
  op !! bno = Some (b, d) →
  opened (tx ++ [(bno, e)]) op ca = <[ bno := Pin b d 2 true ]> (opened tx op ca).
Proof.
  intros Hx. opened_eq.
  - rewrite Hx. unfold open_pin. rewrite decide_True; [done|]. rewrite fmap_app. set_solver.
  - destruct (op !! a) as [y|]; [|done]. unfold open_pin. do 2 f_equal.
    assert (a ∈ (tx ++ [(bno, e)]).*1 ↔ a ∈ tx.*1) as Hiff by (rewrite fmap_app; set_solver).
    do 2 case_decide; tauto.
Qed.

Lemma opened_fst tx tx' op ca : tx.*1 = tx'.*1 → opened tx op ca = opened tx' op ca.
Proof. intros H. opened_eq. destruct (op !! a); [|done]. unfold open_pin. by rewrite H. Qed.

Section tx.
Context {D : Disk} {p : nat} {pid : Z} {DS : DiskSpec D p pid}.
(** The log's area, with room for a whole operation, and the disk at the start
    of the transaction. *)
Context {LA : LogArea} (start : Z) (dk : disk).
#[local] Abbreviation sz := (log_cap + 1).

Record tx_facts (V : disk) (W : gset Z) (op : open_bufs) (lg : log_t) (ca : cache) (tx : list (Z * list Z)) : Prop := {
  tf_tx : in_tx start ∅ sz lg ca tx;
  tf_in : ∀ bno, bno ∈ tx.*1 → bno ∈ W;
  tf_view : stored tx dk = V;
  tf_open : ∀ bno x, op !! bno = Some x → home start bno ∧ length x.2 = 1024%nat;
}.

Definition tx_state (R : kernel) (V : disk) (W : gset Z) (op : open_bufs) (k : kernel) : Prop :=
  ∃ lg ca tx, tx_facts V W op lg ca tx ∧ fs_state R dk (opened tx op ca) lg k.

Hypothesis Hlens : lens dk.
Hypothesis Hsz : MAXOPBLOCKS < log_cap.

Lemma tx_length V W op lg ca tx : tx_facts V W op lg ca tx → (length tx ≤ size W)%nat.
Proof.
  intros H. pose proof (tx_nodup _ _ _ _ (it_tx _ _ _ _ _ _ (tf_tx _ _ _ _ _ _ H))) as Hnd.
  rewrite <- (length_fmap fst), <- (size_list_to_set (C := gset Z)) by done.
  apply subseteq_size. intros a Ha%elem_of_list_to_set. by apply (tf_in _ _ _ _ _ _ H).
Qed.

(** A block of the transaction is pinned with the contents the transaction
    sees; any other is as on the disk. *)
Lemma tx_seen V W op lg ca tx bno :
  tx_facts V W op lg ca tx →
  match decide (bno ∈ tx.*1) with
  | left _ => ∃ j b, tx !! j = Some (bno, dblock V bno) ∧ length (dblock V bno) = 1024%nat ∧
                     ca !! bno = Some (Pin b (dblock V bno) 1 false)
  | right _ => ca !! bno = None ∧ dblock V bno = dblock dk bno
  end.
Proof.
  intros [[Hat Hok Hrest Hnew Hcs Hlog] Hin Hview Hop]. destruct (decide (bno ∈ tx.*1)) as [Hb|Hb].
  - destruct (tx_lookup_fst tx bno Hb) as (j & d & Hj).
    assert (Hd : dblock V bno = d).
    { unfold dblock. rewrite <- Hview, (stored_nodup tx dk bno d); [done|apply Hok|by eapply list_elem_of_lookup_2]. }
    destruct (tx_pins _ _ _ _ Hok bno d) as [Hl [b Hpin]]; [by eapply list_elem_of_lookup_2|].
    exists j, b. by rewrite Hd.
  - split; [by rewrite Hrest|]. by rewrite <- Hview, dblock_stored_notin.
Qed.

Lemma tx_lens R V W op k : tx_state R V W op k → lens V.
Proof.
  intros (lg & ca & tx & Hf & _) bno. pose proof (tx_seen _ _ _ _ _ _ bno Hf) as H.
  case_decide; [by destruct H as (j & b & _ & H & _)|]. destruct H as [_ ->]. apply Hlens.
Qed.

Lemma tx_bread R V W op bno :
  op !! bno = None → home start bno → (size W + size op < NBUF)%nat →
  runs 1 (tx_state R V W op) (bread ROOTDEV bno)
    (λ b, tx_state R V W (<[ bno := (b, dblock V bno) ]> op)) (λ k, k_disk k = dk).
Proof.
  intros Hop Hh Hroom. unfold tx_state at 1. do 3 (apply runs_exists; intros ?). apply runs_pure. intros Hf.
  rename x into lg, x0 into ca, x1 into tx. pose proof (tx_length _ _ _ _ _ _ Hf) as Hlen.
  pose proof (opened_size tx op ca) as Hos. pose proof (it_size _ _ _ _ _ _ (tf_tx _ _ _ _ _ _ Hf)) as Hcs.
  rewrite map_size_empty in Hcs. pose proof (tx_seen _ _ _ _ _ _ bno Hf) as Hseen.
  assert (Hopen : ∀ b, length (dblock V bno) = 1024%nat → tx_facts V W (<[ bno := (b, dblock V bno) ]> op) lg ca tx).
  { intros b Hl. destruct Hf as [F1 F2 F3 F4]. split; try done. intros a x [[<- <-]|[_ Hx]]%lookup_insert_Some; [done|by apply F4]. }
  assert (HC : opened tx op ca !! bno = ca !! bno) by (by rewrite opened_lookup, Hop).
  destruct (decide (bno ∈ tx.*1)) as [Hb|Hb].
  - destruct Hseen as (j & b & Hj & Hl & Hca). apply (runs_mono _ 0); [lia|].
    eapply runs_post; [apply (bread_pinned R _ _ _ _ bno b (dblock V bno) 1); [by rewrite HC|lia|apply Hh]|].
    cbn beta. intros b' k [-> Hk]. exists lg, ca, tx. split; [by apply Hopen|]. rewrite <- opened_insert.
    unfold open_pin. by rewrite decide_True.
  - destruct Hseen as [Hca HV].
    eapply runs_post; [apply bread_new; [by rewrite HC|lia|apply Hh|apply Hlens|done]|].
    cbn beta. intros b k Hk. exists lg, ca, tx. split; [apply Hopen; rewrite HV; apply Hlens|]. rewrite <- opened_insert.
    unfold open_pin. by rewrite decide_False, HV.
Qed.

(** Open the existentials of a transaction's state. *)
Ltac tx_intro Hf :=
  unfold tx_state at 1; apply runs_exists; intros lg; apply runs_exists; intros ca;
  apply runs_exists; intros tx; apply runs_pure; intros Hf.

Lemma tx_buf_data C R V W op bno b d :
  op !! bno = Some (b, d) →
  runs 0 (tx_state R V W op) (buf_data b) (λ d' k, d' = d ∧ tx_state R V W op k) C.
Proof.
  intros Hop. tx_intro Hf.
  eapply runs_post; [apply (buf_data_step R _ _ _ _ bno b d (pin_refs (open_pin tx bno (b, d))) true)|].
  - by rewrite opened_lookup, Hop.
  - cbn beta. intros d' k [-> Hk]. split; [done|]. by exists lg, ca, tx.
Qed.

Lemma tx_set_data C R V W op bno b d f :
  op !! bno = Some (b, d) → length (f d) = 1024%nat →
  runs 0 (tx_state R V W op) (set_data b f) (λ _, tx_state R V W (<[ bno := (b, f d) ]> op)) C.
Proof.
  intros Hop Hl. tx_intro Hf.
  eapply runs_post; [apply (set_data_step R _ _ _ _ bno b d (pin_refs (open_pin tx bno (b, d))) true); [|done]|].
  - by rewrite opened_lookup, Hop.
  - cbn beta. intros _ k Hk. exists lg, ca, tx. split; [|by rewrite <- opened_insert].
    destruct Hf as [F1 F2 F3 F4]. split; try done.
    intros a x [[<- <-]|[_ Hx]]%lookup_insert_Some; [|by apply F4]. by destruct (F4 _ _ Hop).
Qed.

(** log_write() makes the buffer's contents what the transaction sees. *)
Lemma tx_log_write C R V W op bno b d :
  op !! bno = Some (b, d) → (size ({[ bno ]} ∪ W) ≤ Z.to_nat MAXOPBLOCKS)%nat →
  runs 0 (tx_state R V W op) (log_write b) (λ _, tx_state R (<[ bno := d ]> V) ({[ bno ]} ∪ W) op) C.
Proof.
  intros Hop Hroom. tx_intro Hf. pose proof (tx_length _ _ _ _ _ _ Hf) as Hlen.
  assert (HM : MAXOPBLOCKS = 10) by done. change (Z.to_nat MAXOPBLOCKS) with 10%nat in Hroom. assert (HLS : LOGSIZE = 30) by done.
  assert (HW : (size W ≤ size ({[ bno ]} ∪ W))%nat) by (apply subseteq_size; set_solver).
  destruct (tf_open _ _ _ _ _ _ Hf bno _ Hop) as [Hh Hd]. cbn in Hd.
  pose proof (tx_seen _ _ _ _ _ _ bno Hf) as Hseen. pose proof Hf as [F1 F2 F3 F4].
  eapply runs_post; [apply (log_write_step R start ∅ sz lg ca tx dk bno F1) with
    (b := b) (d := d) (r := pin_refs (open_pin tx bno (b, d))); [lia|lia| |]|].
  - by rewrite opened_lookup, Hop.
  - cbn. case_decide; lia.
  - cbn beta. intros _ k [Hrec Hnew]. rewrite (recorded_iff start lg ca tx bno) in Hrec, Hnew by apply F1.
    destruct (decide (bno ∈ tx.*1)) as [Hb|Hb].
    + destruct Hseen as (j & b0 & Hj & Hl & Hca). pose proof (rewrite_tx_fst j bno d _ tx Hj) as Hfst.
      exists lg, (<[ bno := Pin b d 1 false ]> ca), (rewrite_tx j bno d tx). split.
      * split; [by eapply in_tx_rewrite|rewrite Hfst; set_solver| |done].
        apply map_eq. intros a. rewrite <- F3. eapply rewrite_tx_stored; [apply F1|done].
      * rewrite opened_shadow by (by eexists). rewrite (opened_fst _ tx) by done. auto.
    + exists (with_block bno lg), (<[ bno := Pin b d 1 false ]> ca), (tx ++ [(bno, d)]). split.
      * split; [apply in_tx_extend; try done; lia|rewrite fmap_app; set_solver|by rewrite stored_snoc, F3|done].
      * rewrite (opened_extend _ _ _ _ b d), opened_shadow by (done || by eexists).
        unfold open_pin in Hnew. rewrite decide_False in Hnew by done. auto.
Qed.

(** brelse() of a buffer whose contents are what the transaction sees. *)
Lemma tx_brelse C R V W op bno b :
  op !! bno = Some (b, dblock V bno) →
  runs 0 (tx_state R V W op) (brelse b) (λ _, tx_state R V W (delete bno op)) C.
Proof.
  intros Hop. tx_intro Hf. pose proof (tx_seen _ _ _ _ _ _ bno Hf) as Hseen.
  destruct (tf_open _ _ _ _ _ _ Hf bno _ Hop) as [Hh Hd]. cbn in Hd. pose proof Hf as [F1 F2 F3 F4].
  assert (Hop' : ∀ a x, delete bno op !! a = Some x → home start a ∧ length x.2 = 1024%nat).
  { intros a x [_ Hx]%lookup_delete_Some. by apply F4. }
  eapply runs_post; [apply (brelse_step R _ _ _ _ bno b (dblock V bno) (pin_refs (open_pin tx bno (b, dblock V bno))))|].
  - by rewrite opened_lookup, Hop.
  - cbn. intros E. destruct (decide (bno ∈ tx.*1)); [lia|]. by destruct Hseen.
  - cbn beta. intros _ k Hk. unfold released, open_pin in Hk. cbn in Hk. destruct (decide (bno ∈ tx.*1)) as [Hb|Hb].
    + destruct Hseen as (j & b0 & Hj & Hl & Hca). rewrite decide_False, opened_close in Hk by done.
      eexists lg, _, tx. split; [|exact Hk]. split; [|done..].
      pose proof (in_tx_rewrite _ _ _ _ _ _ j bno b (dblock V bno) _ F1 Hj Hl) as F1'. unfold rewrite_tx in F1'.
      by rewrite list_insert_id in F1'.
    + destruct Hseen as [Hca HV]. rewrite decide_True, opened_delete in Hk by done.
      exists lg, ca, tx. split; [|exact Hk]. by split.
Qed.

(** Entering and leaving. *)
Lemma tx_begin C R lg :
  quiet start lg dk ∅ → lg_size lg = sz →
  runs 0 (fs_state R dk ∅ lg) begin_op (λ _, tx_state R dk ∅ ∅) C.
Proof.
  intros Hq Hl. apply runs_step. intros ks k Hk.
  destruct (begin_op_run R lg dk ∅ ks k Hk) as (k' & H1 & H2); [apply Hq|by rewrite (qu_n _ _ _ _ Hq), (qu_out _ _ _ _ Hq)|].
  exists tt, k'. split; [done|]. eexists _, ∅, []. split; [|exact H2].
  split; [|set_solver|done|done]. rewrite <- Hl. by apply (in_tx_start start lg ∅ dk).
Qed.

Lemma tx_end R V W :
  (size W ≤ Z.to_nat MAXOPBLOCKS)%nat → head_n (dblock dk start) = 0 →
  runs (size W * 5 + 4) (tx_state R V W ∅) end_op
    (λ _ k, ∃ dk' lg, (quiet start lg dk' ∅ ∧ lg_size lg = sz ∧ same_home start dk' V) ∧ fs_state R dk' ∅ lg k)
    (λ k, same_home start (recovered start (k_disk k)) dk ∨ same_home start (recovered start (k_disk k)) V).
Proof.
  intros HW H0. change (Z.to_nat MAXOPBLOCKS) with 10%nat in HW. tx_intro Hf.
  pose proof (tx_length _ _ _ _ _ _ Hf) as Hlen. pose proof Hf as [F1 F2 <- F4].
  pose proof F1 as [Hat Hok Hrest Hnew Hcs (L1 & L2 & L3)]. rewrite map_size_empty in Hcs.
  assert (opened tx ∅ ca = ca) as -> by (apply map_eq; intros a; by rewrite opened_lookup).
  eapply runs_conseq; [apply (end_op_runs R start lg dk ca tx); try done|lia|done| |done].
  - split; [change NBUF with 30%nat; lia|]. intros bno Hb. rewrite Hrest; [done|]. intros Hin.
    pose proof (tx_home _ _ _ _ Hok) as Hall. rewrite Forall_forall in Hall. by destruct (Hall bno Hin).
  - cbn beta. intros _ k (dk' & (H1 & H2 & H3) & Hk). eexists dk', _.
    split; [|rewrite <- (in_tx_unpinned _ _ _ _ _ _ F1); exact Hk].
    split; [|done]. destruct Hat. split; cbn; try done.
Qed.
End tx.

(** A file system operation that changes the disk: its body inside a
    transaction. *)
Definition fs_op {D : Disk} {A} (m : M kernel A) : M kernel A :=
  begin_op ;;
  a ← m;
  end_op ;;
  mret a.

Section fs_op.
Context {D : Disk} {p : nat} {pid : Z} {DS : DiskSpec D p pid}.
Context {LA : LogArea} (start : Z).

(** Whatever the body makes of the disk as its transaction sees it, the
    operation as a whole does to the disk, at once as far as crashes are
    concerned. *)
Lemma fs_op_runs {A} n w R lg dk (m : M kernel A) (φ : A → kernel → disk → Prop) :
  quiet start lg dk ∅ → lg_size lg = log_cap + 1 → MAXOPBLOCKS < log_cap → (w ≤ Z.to_nat MAXOPBLOCKS)%nat →
  runs n (tx_state start dk R dk ∅ ∅) m
    (λ a k, ∃ R' V W, (φ a R' V ∧ (size W ≤ w)%nat) ∧ tx_state start dk R' V W ∅ k) (λ k, k_disk k = dk) →
  runs (n + (w * 5 + 4)) (fs_state R dk ∅ lg) (fs_op m)
    (λ a k, ∃ R' V dk' lg', (φ a R' V ∧ quiet start lg' dk' ∅ ∧ lg_size lg' = log_cap + 1 ∧ same_home start dk' V) ∧
       fs_state R' dk' ∅ lg' k)
    (λ k, same_home start (recovered start (k_disk k)) dk ∨
          ∃ a R' V, φ a R' V ∧ same_home start (recovered start (k_disk k)) V).
Proof.
  intros Hq Hl Hcap Hw Hm. unfold fs_op.
  apply (runs_bind 0 (n + (w * 5 + 4)) _ _ (λ _, tx_state start dk R dk ∅ ∅)); [apply tx_begin; try done; apply Hq|].
  intros []. eapply runs_bind.
  { eapply runs_conseq; [exact Hm|done|done|intros ? ? H; exact H|]. cbn beta. intros k ->. left.
    by rewrite recovered_idle by apply Hq. }
  intros a; cbn beta. apply runs_exists. intros R'. apply runs_exists. intros V. apply runs_exists. intros W.
  apply runs_pure. intros [Hφ HW].
  apply (runs_conseq (size W * 5 + 4 + 0) _ (tx_state start dk R' V W ∅) _ _ (λ a' k, a' = a ∧ ∃ dk' lg', (quiet start lg' dk' ∅ ∧
    lg_size lg' = log_cap + 1 ∧ same_home start dk' V) ∧ fs_state R' dk' ∅ lg' k) _
    (λ k, same_home start (recovered start (k_disk k)) dk ∨ same_home start (recovered start (k_disk k)) V) _); [|lia|done| |].
  - eapply runs_bind; [apply tx_end; [apply Hq..|lia|apply Hq]|]. intros []; cbn beta.
    apply runs_step. intros ks k Hk. by exists a, k.
  - intros a' k [-> (dk' & lg' & (H1 & H2 & H3) & Hk)]. by exists R', V, dk', lg'.
  - intros k [H|H]; [by left|right; by exists a, R', V].
Qed.
End fs_op.
