(* ===== verification/FsMount.v ===== *)
(** * Mounting the file system

    fsinit(), which the first process runs: the superblock is read, the log
    initialised, and what a crash left in it installed. *)

From stdpp Require Import gmap.
From S2P Require Import Prelude KMonad Memory Riscv State Spinlock CString Kalloc Vm VmUser.
From S2P Require Import VmCopy Sched Uart Printf PrintfSpec Sleeplock Bio Virtio Crash VirtioSpec BioSpec.
From S2P Require Import Log LogSpec Fs FsTx.

Lemma kernel_thread_initlock p pid lk name k :
  kernel_thread p pid k →
  kernel_thread p pid (k <| k_mach ::= λ m, m <| m_locks ::= insert lk (Spinlock 0 name None) |> |>).
Proof.
  intros [H1 H2 H3 H4 H5 H6 H7]. split; try done.
  - destruct H1 as [M1 M2 M3 M4]. by split.
  - set (f := λ m, m <| m_locks ::= insert lk (Spinlock 0 name None) |>).
    change (settle (f (k_mach k)) = f (k_mach k)). rewrite <- H4 at 2. unfold settle, f.
    change (this_cpu (?m <| m_locks ::= ?g |>)) with (this_cpu m). by destruct (_ =? 0).
  - intros lk' Hlk. unfold lock_free. cbn. destruct (decide (lk = lk')) as [->|Hne].
    + rewrite lookup_insert_eq. by eexists.
    + rewrite lookup_insert_ne by done. by apply H5.
Qed.

Section mount.
Context {D : Disk} {p : nat} {pid : Z} {DS : DiskSpec D p pid} {LA : LogArea}.
#[local] Abbreviation st := (fs_state (p:=p) (pid:=pid)).

Definition with_sb (sb : superblock) (R : kernel) : kernel := R <| k_sb := sb |>.
Definition with_log_lock (R : kernel) : kernel :=
  R <| k_mach ::= λ m, m <| m_locks ::= insert L_log (Spinlock 0 "log" None) |> |>.

(** The rest of the kernel after mounting a disk with superblock [sb]. *)
Definition mounted (sb : superblock) (R : kernel) : kernel := with_log_lock (with_sb sb R).

Lemma set_sb_step R C dk ca lg sb :
  runs 0 (st R dk ca lg) (modify (λ k, k <| k_sb := sb |>)) (λ _, st (with_sb sb R) dk ca lg) C.
Proof.
  apply runs_step. intros ks k [H1 H2 H3 H4 H5 H6 H7]. eexists tt, _. split; [reflexivity|].
  split; try done; [by rewrite <- H1|by apply (kernel_thread_ext p pid k)|by apply (disk_ready_ext k)].
Qed.

Lemma initlock_step R C dk ca lg :
  runs 0 (st R dk ca lg) (initlock L_log "log") (λ _, st (with_log_lock R) dk ca lg) C.
Proof.
  apply runs_step. intros ks k [H1 H2 H3 H4 H5 H6 H7]. eexists tt, _. split; [reflexivity|].
  split; try done; [by rewrite <- H1|by apply kernel_thread_initlock|by apply (disk_ready_ext k)].
Qed.

(** readsb() reads block 1. *)
Lemma readsb_runs R C dk lg :
  lens dk → (∀ k, k_disk k = dk → C k) →
  runs 1 (st R dk ∅ lg) (readsb ROOTDEV) (λ _, st (with_sb (decode_sb (dblock dk 1)) R) dk ∅ lg) C.
Proof.
  intros Hl HC. unfold readsb. set (d := dblock dk 1).
  apply (runs_bind 1 0 _ _ (λ b, st R dk (<[ 1 := Pin b d 1 true ]> ∅) lg)).
  { apply bread_new; [done|by_eval|by_eval|apply Hl|done]. }
  intros b. eapply (runs_bind_eq _ 0 0); [eapply (buf_data_step R _ _ _ _ 1); apply lookup_insert_eq|].
  apply (runs_bind 0 0 _ _ (λ _, st (with_sb (decode_sb d) R) dk (<[ 1 := Pin b d 1 true ]> ∅) lg)); [apply set_sb_step|].
  intros []. eapply runs_post; [apply (brelse_step _ _ dk _ lg 1 b d 1); [apply lookup_insert_eq|done]|].
  cbn beta. intros _ k Hk. unfold released in Hk. by rewrite decide_True, delete_insert_id in Hk by done.
Qed.

Lemma initlog_runs R start sb lg dk :
  sb_logstart sb = start → 0 ≤ start → start + log_cap < 2 ^ 31 → length (lh_block (lg_lh lg)) = Z.to_nat LOGSIZE →
  lg_outstanding lg = 0 → lg_committing lg = 0 → disk_ok start dk →
  runs (Z.to_nat (head_n (dblock dk start)) * 3 + 3) (st R dk ∅ lg) (initlog ROOTDEV sb)
    (λ _ k, ∃ dk' lg', (quiet start lg' dk' ∅ ∧ lg_size lg' = i32 (sb_nlog sb) ∧ same_home start dk' (recovered start dk)) ∧
       st (with_log_lock R) dk' ∅ lg' k)
    (λ k, same_home start (recovered start (k_disk k)) (recovered start dk)).
Proof.
  intros Hst Hs0 Hs1 Hlen Ho Hc Hok. unfold initlog. change (BSIZE <=? logheader_size) with false. cbn iota.
  eapply (runs_bind 0 _); [apply initlock_step|]. intros []; cbn beta.
  do 3 (eapply (runs_bind 0 _); [apply (log_set_step (with_log_lock R))|]; intros []; cbn beta).
  set (lg1 := _ <| lg_dev := ROOTDEV |>).
  assert (Hla : log_at start lg1).
  { split; [done|cbn|split; [done|done]|done]. rewrite Hst. apply i32_small. cap_lia. }
  eapply runs_post; [apply (recover_runs (with_log_lock R) start lg1 dk ∅); [done|done| |done]|].
  - split; [by_eval|done].
  - cbn beta. intros _ k (dk' & lg' & (H1 & H2 & H3 & H4 & H5 & H6 & H7 & H8) & Hk). exists dk', lg'.
    split; [|done]. split; [|done]. split; try done; [by rewrite H6|by rewrite H7].
Qed.

Lemma fsinit_runs R start lg dk :
  let sb := decode_sb (dblock dk 1) in
  sb_magic sb = FSMAGIC → sb_logstart sb = start → 0 ≤ start → start + log_cap < 2 ^ 31 →
  length (lh_block (lg_lh lg)) = Z.to_nat LOGSIZE → lg_outstanding lg = 0 → lg_committing lg = 0 → disk_ok start dk →
  runs (Z.to_nat (head_n (dblock dk start)) * 3 + 4) (st R dk ∅ lg) (fsinit ROOTDEV)
    (λ _ k, ∃ dk' lg', (quiet start lg' dk' ∅ ∧ lg_size lg' = i32 (sb_nlog sb) ∧ same_home start dk' (recovered start dk)) ∧
       st (mounted sb R) dk' ∅ lg' k)
    (λ k, same_home start (recovered start (k_disk k)) (recovered start dk)).
Proof.
  intros sb Hm Hst Hs0 Hs1 Hlen Ho Hc Hok. unfold fsinit.
  apply (runs_mono _ (1 + (0 + (Z.to_nat (head_n (dblock dk start)) * 3 + 3)))); [lia|].
  eapply runs_bind; [apply readsb_runs; [exact (do_len _ _ Hok)|by intros k ->]|]. intros []; cbn beta.
  eapply (runs_bind_eq _ 0 _ _ _ sb).
  { apply runs_step. intros ks k Hk. exists sb, k. split; [|done]. unfold gets. f_equal.
    change (k_sb k) with (k_sb (fs_forget k)). by rewrite (fs_rest _ _ _ _ _ Hk). }
  rewrite Hm. change (negb (FSMAGIC =? FSMAGIC)) with false. cbn iota. by apply initlog_runs.
Qed.

(** C7: mounting.  On a disk whose superblock has the magic number and whose
    log area is well formed, whatever committed transaction the log holds,
    fsinit() ends within a bounded number of waits for the disk with the
    superblock in memory, the log empty and idle, and the home blocks as the
    recovery of that transaction leaves them; and if the machine stops at any
    wait, the disk still recovers to the same contents. *)
Theorem fsinit_mounts R start lg dk :
  let sb := decode_sb (dblock dk 1) in
  sb_magic sb = FSMAGIC → sb_logstart sb = start → 0 ≤ start → start + log_cap < 2 ^ 31 →
  length (lh_block (lg_lh lg)) = Z.to_nat LOGSIZE → lg_outstanding lg = 0 → lg_committing lg = 0 → disk_ok start dk →
  runs (Z.to_nat (head_n (dblock dk start)) * 3 + 4) (st R dk ∅ lg) (fsinit ROOTDEV)
    (λ _ k, ∃ dk' lg', (quiet start lg' dk' ∅ ∧ lg_size lg' = i32 (sb_nlog sb) ∧ same_home start dk' (recovered start dk)) ∧
       st (mounted sb R) dk' ∅ lg' k)
    (λ k, same_home start (recovered start (k_disk k)) (recovered start dk)).
Proof. apply fsinit_runs. Qed.
End mount.

Section witness.
#[local] Existing Instance sample_image.
#[local] Existing Instance sample_area.

(** A disk with a superblock and a committed transaction. *)
Definition boot_disk : disk :=
  <[ 1 := put32 (put32 (put32 zero_block 0 FSMAGIC) 16 30) 20 2 ]> sample_crashed.

Lemma boot_disk_ok : disk_ok 2 boot_disk.
Proof.
  destruct sample_crashed_ok as [H1 H2 H3]. assert (E : dblock boot_disk 2 = dblock sample_crashed 2) by (by apply dblock_insert_ne).
  split; [|by rewrite E..]. by apply lens_insert; [|vm_compute].
Qed.

Lemma fsinit_mounts_witness :
  match fsinit ROOTDEV (replicate 7 (serve 1)) (sample_log_kernel boot_disk) with
  | Ok _ _ k => dblock (k_disk k) 50 = 7 :: replicate 1023 0 ∧ sb_nlog (k_sb k) = 30
  | _ => False
  end.
Proof.
  pose proof (fsinit_mounts (p:=1) (pid:=0) (fs_forget sample_fs_kernel) 2 sample_log boot_disk) as H. cbv zeta in H.
  specialize (H ltac:(by vm_compute) ltac:(by vm_compute) ltac:(lia) ltac:(by_eval) ltac:(done) ltac:(done) ltac:(done) boot_disk_ok).
  specialize (H (replicate 7 (serve 1)) (sample_log_kernel boot_disk) ltac:(by apply Forall_replicate) (sample_log_state _ _)).
  assert (Hn : head_n (dblock boot_disk 2) = 1) by (vm_compute; reflexivity). rewrite Hn in H.
  destruct (fsinit _ _ _) as [[] ks k| | |k|]; try done.
  - destruct H as ((dk' & lg' & (_ & _ & Hs) & Hk) & _). split.
    + rewrite (fs_disk _ _ _ _ _ Hk), (Hs 50); [vm_compute; reflexivity|].
      split; [by_eval|]. unfold in_log; change log_cap with 29; lia.
    + change (k_sb k) with (k_sb (fs_forget k)). rewrite (fs_rest _ _ _ _ _ Hk). by vm_compute.
  - destruct H as [_ H]. rewrite length_replicate in H. vm_compute in H. lia.
Defined.
End witness.
