(* ===== verification/FsBlock.v ===== *)
(** * Disk blocks: the free bitmap

    balloc() and bfree() inside a transaction, as operations on the set of
    blocks in use that the bitmap stands for. *)

From stdpp Require Import gmap.
From S2P Require Import Prelude KMonad Memory Riscv State Spinlock CString Kalloc Vm VmUser.
From S2P Require Import VmCopy Sched Uart Printf PrintfSpec Sleeplock Bio Virtio Crash VirtioSpec BioSpec.
From S2P Require Import Log LogSpec Fs FsTx.

(** ** Bits *)

Lemma bit_clear x m : 0 ≤ m → (Z.land x (Z.shiftl 1 m) =? 0) = negb (Z.testbit x m).
Proof.
  intros Hm. destruct (Z.testbit x m) eqn:E; cbn.
  - apply Z.eqb_neq. intros H. assert (Z.testbit (Z.land x (Z.shiftl 1 m)) m = false) as Hf by (by rewrite H, Z.bits_0).
    by rewrite Z.land_spec, E, Z.shiftl_spec, Z.sub_diag in Hf by done.
  - apply Z.eqb_eq, Z.bits_inj'. intros i Hi. rewrite Z.land_spec, Z.bits_0, Z.shiftl_spec by done.
    destruct (decide (i = m)) as [->|Hne]; [by rewrite E|].
    destruct (decide (i < m)) as [|]; [by rewrite (Z.testbit_neg_r 1), andb_false_r by lia|].
    rewrite andb_comm, (Z.bits_above_log2 1) by (cbn; lia). done.
Qed.

Lemma testbit_mask m i : 0 ≤ m → 0 ≤ i → Z.testbit (Z.shiftl 1 m) i = (i =? m).
Proof.
  intros Hm Hi. rewrite Z.shiftl_spec by done. destruct (Z.eqb_spec i m) as [->|Hne]; [by rewrite Z.sub_diag|].
  destruct (decide (i < m)); [by apply Z.testbit_neg_r; lia|]. apply Z.bits_above_log2; cbn; lia.
Qed.

Lemma testbit_set x m i : 0 ≤ m → 0 ≤ i → Z.testbit (Z.lor x (Z.shiftl 1 m)) i = (i =? m) || Z.testbit x i.
Proof. intros Hm Hi. rewrite Z.lor_spec, testbit_mask by done. by rewrite orb_comm. Qed.

Lemma testbit_clear x m i :
  0 ≤ m → 0 ≤ i → Z.testbit (Z.land x (Z.lnot (Z.shiftl 1 m))) i = negb (i =? m) && Z.testbit x i.
Proof. intros Hm Hi. rewrite Z.land_spec, Z.lnot_spec, testbit_mask by done. by rewrite andb_comm. Qed.

(** The bit of the [bi]th block of a bitmap block. *)
Definition bit_at (d : list Z) (bi : Z) : bool := Z.testbit (byte_at d (bi / 8)) (bi mod 8).

Lemma bit_at_alter d bi bj f (g : bool → bool) :
  0 ≤ bi < 8 * Z.of_nat (length d) → 0 ≤ bj → 
  (∀ x i, 0 ≤ i < 8 → Z.testbit (f x) i = if i =? bi mod 8 then g (Z.testbit x i) else Z.testbit x i) →
  bit_at (alter f (Z.to_nat (bi / 8)) d) bj = if bj =? bi then g (bit_at d bj) else bit_at d bj.
Proof.
  intros Hi Hj Hf. unfold bit_at, byte_at.
  pose proof (Z.div_mod bi 8) as Di. pose proof (Z.div_mod bj 8) as Dj.
  pose proof (Z.mod_pos_bound bi 8) as Mi. pose proof (Z.mod_pos_bound bj 8) as Mj.
  destruct (decide (bj / 8 = bi / 8)) as [E|E].
  - rewrite E. rewrite list_lookup_total_alter_eq by (apply Nat2Z.inj_lt; rewrite Z2Nat.id by (apply Z.div_pos; lia); apply Z.div_lt_upper_bound; lia).
    rewrite Hf by lia. destruct (Z.eqb_spec (bj mod 8) (bi mod 8)), (Z.eqb_spec bj bi); try done; lia.
  - rewrite list_lookup_total_alter_ne by (intros H; apply E; lia).
    destruct (Z.eqb_spec bj bi) as [->|]; done.
Qed.

(** The search of balloc() finds the first clear bit. *)
Lemma scan_bitmap_spec d b size bi left :
  0 ≤ bi →
  match scan_bitmap d b size bi left with
  | Some r => bi ≤ r < bi + Z.of_nat left ∧ b + r < size ∧ bit_at d r = false ∧ ∀ x, bi ≤ x < r → bit_at d x = true
  | None => ∀ x, bi ≤ x < bi + Z.of_nat left → b + x < size → bit_at d x = true
  end.
Proof.
  revert bi. induction left as [|left IH]; intros bi Hbi; cbn [scan_bitmap]; [intros; lia|].
  destruct (Z.ltb_spec (b + bi) size) as [Hlt|Hge]; [|intros; lia].
  rewrite bit_clear by (apply Z.mod_pos_bound; lia). change (Z.testbit _ _) with (bit_at d bi).
  destruct (bit_at d bi) eqn:E; cbn [negb].
  - specialize (IH (bi + 1) ltac:(lia)). destruct (scan_bitmap d b size (bi + 1) left) as [r|].
    + destruct IH as (H1 & H2 & H3 & H4). split_and!; try done; [lia|lia|].
      intros x Hx. destruct (decide (x = bi)) as [->|]; [done|]. apply H4. lia.
    + intros x Hx1 Hx2. destruct (decide (x = bi)) as [->|]; [done|]. apply IH; lia.
  - split_and!; try done; lia.
Qed.

(** ** The blocks in use *)

(** Whether block [b] is in use, according to the bitmap of the disk. *)
Definition block_used (sb : superblock) (V : disk) (b : Z) : bool := bit_at (dblock V (BBLOCK b sb)) (b mod BPB).

(** The disk after block [b] is marked in use and zeroed, and after it is
    marked free. *)
Definition mark_used (sb : superblock) (b : Z) (V : disk) : disk :=
  <[ BBLOCK b sb := alter (λ x, Z.lor x (Z.shiftl 1 (b mod BPB mod 8))) (Z.to_nat (b mod BPB / 8)) (dblock V (BBLOCK b sb)) ]> V.
Definition mark_free (sb : superblock) (b : Z) (V : disk) : disk :=
  <[ BBLOCK b sb := alter (λ x, Z.land x (Z.lnot (Z.shiftl 1 (b mod BPB mod 8)))) (Z.to_nat (b mod BPB / 8)) (dblock V (BBLOCK b sb)) ]> V.

Lemma BBLOCK_group i bi sb : 0 ≤ bi < BPB → BBLOCK (i * BPB + bi) sb = BBLOCK (i * BPB) sb.
Proof.
  intros H. unfold BBLOCK. rewrite Z.div_add_l, Z.div_mul by (change BPB with 8192; lia).
  by rewrite (Z.div_small bi) by done; rewrite Z.add_0_r.
Qed.

Lemma BBLOCK_inj sb b b' :
  0 ≤ b / BPB + sb_bmapstart sb < 2 ^ 32 → 0 ≤ b' / BPB + sb_bmapstart sb < 2 ^ 32 →
  BBLOCK b sb = BBLOCK b' sb → b / BPB = b' / BPB.
Proof. intros H1 H2. unfold BBLOCK. rewrite !u32_small by lia. lia. Qed.

(** The layout of a disk, as mkfs makes it: the log, the inodes, the bitmap
    and the data blocks, in this order. *)
Record sb_ok {LA : LogArea} (start : Z) (sb : superblock) : Prop := {
  so_size : 0 < sb_size sb < 2 ^ 31;
  so_log : 0 ≤ start ∧ start + log_cap < sb_inodestart sb;
  so_inodes : 0 < sb_ninodes sb ∧ sb_inodestart sb + sb_ninodes sb / IPB + 1 ≤ sb_bmapstart sb;
  so_bmap : sb_bmapstart sb < 2 ^ 31 - 2 ^ 20;
}.

(** The first data block. *)
Definition data_start (sb : superblock) : Z := sb_bmapstart sb + (sb_size sb - 1) / BPB + 1.
Definition data_block (sb : superblock) (b : Z) : Prop := data_start sb ≤ b < sb_size sb.

Section layout.
Context {LA : LogArea} (start : Z) (sb : superblock) (Hsb : sb_ok start sb).

Lemma sb_ok_group b : 0 ≤ b < sb_size sb → 0 ≤ b / BPB < 2 ^ 20 ∧ 0 ≤ b / BPB + sb_bmapstart sb < 2 ^ 32.
Proof.
  destruct Hsb as [? ? ? ?]. intros Hb. change BPB with 8192. change IPB with 16 in *.
  assert (0 ≤ sb_ninodes sb / 16) by (apply Z.div_pos; lia). pose proof log_cap_ok.
  assert (0 ≤ b / 8192) by (apply Z.div_pos; lia). assert (b / 8192 < 2 ^ 20) by (apply Z.div_lt_upper_bound; lia). lia.
Qed.

Lemma BBLOCK_range b : 0 ≤ b < sb_size sb → sb_bmapstart sb ≤ BBLOCK b sb < data_start sb.
Proof.
  intros Hb. pose proof (sb_ok_group b Hb). unfold BBLOCK, data_start. rewrite u32_small by lia.
  assert (b / BPB ≤ (sb_size sb - 1) / BPB) by (apply Z.div_le_mono; [done|lia]). lia.
Qed.

Lemma IBLOCK_range inum : 0 ≤ inum < sb_ninodes sb → sb_inodestart sb ≤ IBLOCK inum sb < sb_bmapstart sb.
Proof.
  intros Hi. destruct Hsb as [? ? ? ?]. unfold IBLOCK. change IPB with 16 in *. pose proof log_cap_ok.
  assert (0 ≤ inum / 16) by (apply Z.div_pos; lia).
  assert (inum / 16 ≤ sb_ninodes sb / 16) by (apply Z.div_le_mono; lia). rewrite u32_small by lia. lia.
Qed.

Lemma home_from b : sb_inodestart sb ≤ b < 2 ^ 31 → home start b.
Proof. intros Hb. destruct Hsb as [? ? ? ?]. pose proof log_cap_ok. split; [lia|]. unfold in_log. lia. Qed.

Lemma data_start_bound : sb_inodestart sb < sb_bmapstart sb < data_start sb ∧ data_start sb < 2 ^ 31.
Proof.
  pose proof (sb_ok_group (sb_size sb - 1)) as H. pose proof log_cap_ok. destruct Hsb as [? ? ? ?]. specialize (H ltac:(lia)).
  change IPB with 16 in *. assert (0 ≤ sb_ninodes sb / 16) by (apply Z.div_pos; lia). unfold data_start. lia.
Qed.

Lemma home_BBLOCK b : 0 ≤ b < sb_size sb → home start (BBLOCK b sb).
Proof. intros Hb. apply home_from. pose proof (BBLOCK_range b Hb). pose proof data_start_bound. lia. Qed.

Lemma home_IBLOCK inum : 0 ≤ inum < sb_ninodes sb → home start (IBLOCK inum sb).
Proof. intros Hi. apply home_from. pose proof (IBLOCK_range inum Hi). pose proof data_start_bound. lia. Qed.

Lemma home_data b : data_block sb b → home start b.
Proof. intros Hb. apply home_from. pose proof data_start_bound. destruct (so_size _ _ Hsb). unfold data_block in Hb. lia. Qed.

Lemma data_not_bitmap b b' : data_block sb b → 0 ≤ b' < sb_size sb → BBLOCK b' sb ≠ b.
Proof. intros Hb Hb'. pose proof (BBLOCK_range b' Hb'). unfold data_block in Hb. lia. Qed.
End layout.

(** Changing one bit of the bitmap. *)
Lemma used_alter {LA : LogArea} start sb V b b' f (g : bool → bool) :
  sb_ok start sb → lens V → 0 ≤ b < sb_size sb → 0 ≤ b' < sb_size sb →
  (∀ x i, 0 ≤ i → Z.testbit (f x) i = if i =? b mod BPB mod 8 then g (Z.testbit x i) else Z.testbit x i) →
  block_used sb (<[ BBLOCK b sb := alter f (Z.to_nat (b mod BPB / 8)) (dblock V (BBLOCK b sb)) ]> V) b' =
  if b' =? b then g (block_used sb V b') else block_used sb V b'.
Proof.
  intros Hs Hl Hb Hb' Hf. unfold block_used.
  pose proof (Z.mod_pos_bound b BPB ltac:(done)). pose proof (Z.mod_pos_bound b' BPB ltac:(done)).
  destruct (decide (BBLOCK b' sb = BBLOCK b sb)) as [E|E].
  - rewrite E, dblock_insert_eq, (bit_at_alter _ _ _ _ g)
      by (done || (intros; apply Hf; lia) || rewrite ?Hl; change BPB with 8192 in *; lia).
    apply BBLOCK_inj in E; try by apply (sb_ok_group start).
    pose proof (Z.div_mod b BPB ltac:(done)). pose proof (Z.div_mod b' BPB ltac:(done)). rewrite <- E in *.
    destruct (Z.eqb_spec (b' mod BPB) (b mod BPB)), (Z.eqb_spec b' b); try done; lia.
  - rewrite dblock_insert_ne by done. destruct (Z.eqb_spec b' b) as [->|]; done.
Qed.

Lemma used_marked {LA : LogArea} start sb V b b' :
  sb_ok start sb → lens V → 0 ≤ b < sb_size sb → 0 ≤ b' < sb_size sb →
  block_used sb (mark_used sb b V) b' = (b' =? b) || block_used sb V b'.
Proof.
  intros Hs Hl Hb Hb'. unfold mark_used. rewrite (used_alter start sb V b b' _ (λ _, true)); try done.
  intros x i Hi. rewrite testbit_set by (apply Z.mod_pos_bound || done; lia). by destruct (i =? _).
Qed.

Lemma used_freed {LA : LogArea} start sb V b b' :
  sb_ok start sb → lens V → 0 ≤ b < sb_size sb → 0 ≤ b' < sb_size sb →
  block_used sb (mark_free sb b V) b' = negb (b' =? b) && block_used sb V b'.
Proof.
  intros Hs Hl Hb Hb'. unfold mark_free. rewrite (used_alter start sb V b b' _ (λ _, false)); try done; [by destruct (b' =? b)|].
  intros x i Hi. rewrite testbit_clear by (apply Z.mod_pos_bound || done; lia). by destruct (i =? _).
Qed.

(** The contents of a data block do not matter for the use of blocks. *)
Lemma used_data {LA : LogArea} start sb V b d b' :
  sb_ok start sb → data_block sb b → 0 ≤ b' < sb_size sb → block_used sb (<[ b := d ]> V) b' = block_used sb V b'.
Proof.
  intros Hs Hd Hb'. unfold block_used. rewrite dblock_insert_ne; [done|]. intros E.
  by apply (data_not_bitmap start sb Hs b b' Hd Hb').
Qed.

(** The blocks the file system itself occupies are marked in use. *)
Definition bitmap_ok (sb : superblock) (V : disk) : Prop :=
  ∀ b, 0 ≤ b < sb_size sb → block_used sb V b = false → data_block sb b.

(** The disk after balloc() returned [b]. *)
Definition allocated (sb : superblock) (b : Z) (V : disk) : disk := <[ b := zero_block ]> (mark_used sb b V).

Section allocated.
Context {LA : LogArea} (start : Z) (sb : superblock) (Hsb : sb_ok start sb).
Context (V : disk) (b : Z) (HV : lens V) (Hb : data_block sb b).

Lemma data_range : 0 ≤ b < sb_size sb.
Proof.
  pose proof (data_start_bound start sb Hsb). pose proof (so_log _ _ Hsb). pose proof log_cap_ok.
  unfold data_block in Hb. lia.
Qed.

Lemma used_allocated b' : 0 ≤ b' < sb_size sb → block_used sb (allocated sb b V) b' = (b' =? b) || block_used sb V b'.
Proof.
  intros Hb'. unfold allocated. rewrite (used_data start) by done. apply (used_marked start); try done. apply data_range.
Qed.

Lemma bitmap_ok_allocated : bitmap_ok sb V → bitmap_ok sb (allocated sb b V).
Proof. intros H b' Hb'. rewrite used_allocated by done. intros [_ Hf]%orb_false_iff. by apply H. Qed.

Lemma allocated_other bno : bno ≠ b → bno ≠ BBLOCK b sb → dblock (allocated sb b V) bno = dblock V bno.
Proof. intros H1 H2. unfold allocated, mark_used. by rewrite !dblock_insert_ne. Qed.

Lemma allocated_data bno : data_block sb bno → bno ≠ b → dblock (allocated sb b V) bno = dblock V bno.
Proof.
  intros Hd Hne. apply allocated_other; [done|]. intros ->. by apply (data_not_bitmap start sb Hsb _ b Hd data_range).
Qed.

Lemma allocated_meta bno : bno < sb_bmapstart sb → dblock (allocated sb b V) bno = dblock V bno.
Proof.
  intros Hlt. pose proof (BBLOCK_range start sb Hsb b data_range). pose proof (data_start_bound start sb Hsb).
  unfold data_block in Hb. apply allocated_other; lia.
Qed.

Lemma allocated_lens : lens (allocated sb b V).
Proof.
  intros bno. unfold allocated, mark_used. destruct (decide (bno = b)) as [->|H1]; [by rewrite dblock_insert_eq|].
  rewrite dblock_insert_ne by done. destruct (decide (bno = BBLOCK b sb)) as [->|H2].
  - rewrite dblock_insert_eq, length_alter. apply HV.
  - rewrite dblock_insert_ne by done. apply HV.
Qed.
End allocated.

(** ** Inside a transaction *)

Section blocks.
Context `{KI : KernelImage} {D : Disk} {p : nat} {pid : Z} {DS : DiskSpec D p pid}.
Context {LA : LogArea} (start : Z) (dk : disk).
Hypothesis Hlens : lens dk.
Hypothesis Hcap : MAXOPBLOCKS < log_cap.
#[local] Abbreviation tx := (tx_state start dk).
#[local] Abbreviation crash := (λ k, k_disk k = dk).

Lemma tx_gets {A} C R V W op (f : kernel → A) :
  (∀ k, f (fs_forget k) = f k) → runs 0 (tx R V W op) (gets f) (λ a k, a = f R ∧ tx R V W op k) C.
Proof.
  intros Hf. apply runs_step. intros ks k Hk. exists (f k), k. split; [done|]. split; [|done].
  destruct Hk as (lg & ca & l & _ & Hk). by rewrite <- (fs_rest _ _ _ _ _ Hk), Hf.
Qed.

(** A message on the console. *)
Lemma tx_printf s C R V W op :
  k_panicked R = 0 → Forall (λ c, 0 ≤ c < 256 ∧ c ≠ 37) s →
  runs 0 (tx R V W op) (printf s []) (λ _ k, ∃ R', sent s R R' ∧ tx R' V W op k) C.
Proof.
  intros Hp Hs. apply runs_step. intros ks k (lg & ca & l & Hf & [F1 F2 F3 F4 F5 F6 F7]).
  destruct (printf_plain_run s ks k) as (k' & H1 & H2); [|by apply F2|done|].
  { split; [apply F2|apply F2|]. rewrite <- Hp, <- F1. done. }
  exists tt, k'. split; [done|]. destruct H2 as [lsr ->]. exists (R <| k_uart ::= λ u, u <| uart_lsr := lsr |> <| uart_thr ::= λ l, l ++ s |> |>).
  split; [by exists lsr|]. exists lg, ca, l. split; [done|]. split; try done.
  - by rewrite <- F1.
  - by apply (kernel_thread_ext p pid k).
  - by apply (disk_ready_ext k).
Qed.

(** Read a block, change it, log the change and release the buffer. *)
Lemma tx_update R V W op bno f :
  op !! bno = None → home start bno → (size W + size op < NBUF)%nat →
  (size ({[ bno ]} ∪ W) ≤ Z.to_nat MAXOPBLOCKS)%nat → length (f (dblock V bno)) = 1024%nat →
  runs 1 (tx R V W op) (log_update bno f) (λ _, tx R (<[ bno := f (dblock V bno) ]> V) ({[ bno ]} ∪ W) op) crash.
Proof.
  intros Hop Hh Hroom HW Hl. unfold log_update. apply (runs_bind 1 0 _ _ (λ b, tx R V W (<[ bno := (b, dblock V bno) ]> op))).
  { by apply tx_bread. }
  intros b. eapply (runs_bind 0 0); [eapply tx_set_data; [apply lookup_insert_eq|done]|]. intros []; cbn beta.
  rewrite insert_insert_eq.
  eapply (runs_bind 0 0); [eapply tx_log_write; try done; by rewrite lookup_insert_eq|]. intros []; cbn beta.
  eapply runs_post; [eapply (tx_brelse _ _ _ _ _ _ _ bno b)|].
  - by rewrite lookup_insert_eq, dblock_insert_eq.
  - cbn beta. intros _ k Hk. by rewrite delete_insert_id in Hk.
Qed.

(** Release a buffer that was only read. *)
Lemma tx_release C R V W op bno b :
  op !! bno = None → runs 0 (tx R V W (<[ bno := (b, dblock V bno) ]> op)) (brelse b) (λ _, tx R V W op) C.
Proof.
  intros Hop. eapply runs_post; [eapply (tx_brelse _ _ _ _ _ _ _ bno b); by rewrite lookup_insert_eq|].
  cbn beta. intros _ k Hk. by rewrite delete_insert_id in Hk.
Qed.

Lemma bzero_runs R V W op bno :
  op !! bno = None → home start bno → (size W + size op < NBUF)%nat →
  (size ({[ bno ]} ∪ W) ≤ Z.to_nat MAXOPBLOCKS)%nat →
  runs 1 (tx R V W op) (bzero ROOTDEV bno) (λ _, tx R (<[ bno := zero_block ]> V) ({[ bno ]} ∪ W) op) crash.
Proof. intros. apply (tx_update R V W op bno (λ _, zero_block)); done. Qed.

(** The first free block, found by balloc(). *)
Definition first_free (sb : superblock) (V : disk) (b : Z) : Prop :=
  0 ≤ b < sb_size sb ∧ block_used sb V b = false ∧ ∀ b', 0 ≤ b' < b → block_used sb V b' = true.

(** The buffers held while balloc() runs are of blocks in use, and not of the
    bitmap. *)
Definition op_apart (sb : superblock) (V : disk) (op : open_bufs) : Prop :=
  ∀ bno, is_Some (op !! bno) →
  (∀ b, 0 ≤ b < sb_size sb → BBLOCK b sb ≠ bno) ∧ (0 ≤ bno < sb_size sb → block_used sb V bno = true).

Lemma op_apart_empty sb V : op_apart sb V ∅.
Proof. intros bno [x Hx]. by rewrite lookup_empty in Hx. Qed.

Lemma op_apart_bitmap sb V op b : op_apart sb V op → 0 ≤ b < sb_size sb → op !! BBLOCK b sb = None.
Proof. intros H Hb. apply eq_None_not_Some. intros Hop. by destruct (proj1 (H _ Hop) b Hb). Qed.

Lemma op_apart_free sb V op b : op_apart sb V op → 0 ≤ b < sb_size sb → block_used sb V b = false → op !! b = None.
Proof. intros H Hb Hf. apply eq_None_not_Some. intros Hop. rewrite (proj2 (H _ Hop) Hb) in Hf. done. Qed.

Section balloc.
Context (R : kernel) (V : disk) (W : gset Z) (op : open_bufs).
#[local] Abbreviation sb := (k_sb R).
Hypothesis Hsb : sb_ok start sb.
Hypothesis HV : lens V.
Hypothesis Hbm : bitmap_ok sb V.
Hypothesis Hop : op_apart sb V op.
Hypothesis Hroom : (size op ≤ 5)%nat.
Hypothesis HW : ∀ b, 0 ≤ b < sb_size sb → (size ({[ b ]} ∪ ({[ BBLOCK b sb ]} ∪ W)) ≤ Z.to_nat MAXOPBLOCKS)%nat.

(** All blocks below [n] are in use. *)
Definition all_used (n : Z) : Prop := ∀ b', 0 ≤ b' < n → b' < sb_size sb → block_used sb V b' = true.

Definition balloc_found (b : Z) (k : kernel) : Prop :=
  first_free sb V b ∧ tx R (allocated sb b V) ({[ b ]} ∪ ({[ BBLOCK b sb ]} ∪ W)) op k.

(** What balloc() does with one block of the bitmap. *)
Definition balloc_group (b : Z) : M kernel (option Z) :=
  bp ← bread ROOTDEV (BBLOCK b sb);
  d ← buf_data bp;
  match scan_bitmap d b (sb_size sb) 0 (Z.to_nat BPB) with
  | Some bi =>
      set_data bp (alter (λ x, Z.lor x (Z.shiftl 1 (bi mod 8))) (Z.to_nat (bi / 8))) ;;
      log_write bp ;;
      brelse bp ;;
      bzero ROOTDEV (b + bi) ;;
      mret (Some (b + bi))
  | None =>
      brelse bp ;;
      mret None
  end.

Lemma room_write b : 0 ≤ b < sb_size sb → (size W + size op < NBUF)%nat ∧
  (size ({[ BBLOCK b sb ]} ∪ W) ≤ Z.to_nat MAXOPBLOCKS)%nat ∧ (size ({[ BBLOCK b sb ]} ∪ W) + size op < NBUF)%nat.
Proof.
  intros Hb. pose proof (HW b Hb) as H. change (Z.to_nat MAXOPBLOCKS) with 10%nat in *. change NBUF with 30%nat.
  assert (size W ≤ size ({[ b ]} ∪ ({[ BBLOCK b sb ]} ∪ W)))%nat by (apply subseteq_size; set_solver).
  assert (size ({[ BBLOCK b sb ]} ∪ W) ≤ size ({[ b ]} ∪ ({[ BBLOCK b sb ]} ∪ W)))%nat by (apply subseteq_size; set_solver).
  lia.
Qed.

Lemma balloc_take i bi :
  (0 ≤ i * BPB)%Z → 0 ≤ bi < BPB → i * BPB + bi < sb_size sb → first_free sb V (i * BPB + bi) → ∀ bp,
  runs 1 (tx R V W (<[ BBLOCK (i * BPB) sb := (bp, dblock V (BBLOCK (i * BPB) sb)) ]> op))
    (set_data bp (alter (λ x, Z.lor x (Z.shiftl 1 (bi mod 8))) (Z.to_nat (bi / 8))) ;;
     log_write bp ;;
     brelse bp ;;
     bzero ROOTDEV (i * BPB + bi) ;;
     mret (Some (i * BPB + bi)))
    (λ r k, match r with Some b => balloc_found b k | None => False end) crash.
Proof.
  intros Hi Hbi Hlt Hff bp. set (b := i * BPB + bi) in *. assert (Hb : 0 ≤ b < sb_size sb) by (unfold b; lia).
  destruct (room_write b Hb) as (Hr1 & Hr2 & Hr3). pose proof (home_data start sb Hsb b (Hbm b Hb (proj1 (proj2 Hff)))) as Hh.
  assert (Hmod : b mod BPB = bi) by (unfold b; rewrite Z.add_comm, Z.mod_add by done; by apply Z.mod_small).
  rewrite <- (BBLOCK_group i bi sb Hbi). fold b. set (bb := BBLOCK b sb) in *.
  assert (Hnone : op !! bb = None) by (by apply (op_apart_bitmap sb V)).
  set (d' := alter (λ x, Z.lor x (Z.shiftl 1 (bi mod 8))) (Z.to_nat (bi / 8)) (dblock V bb)).
  assert (Hm : <[ bb := d' ]> V = mark_used sb b V) by (unfold mark_used; by rewrite Hmod).
  eapply (runs_bind 0 1); [eapply tx_set_data; [apply lookup_insert_eq|rewrite length_alter; apply HV]|]. intros []; cbn beta.
  rewrite insert_insert_eq. fold d'.
  eapply (runs_bind 0 1); [eapply tx_log_write; [done..|by rewrite lookup_insert_eq|done]|]. intros []; cbn beta. rewrite Hm.
  assert (Hd' : d' = dblock (mark_used sb b V) bb) by (rewrite <- Hm; by rewrite dblock_insert_eq).
  rewrite Hd'. eapply (runs_bind 0 1); [by apply tx_release|]. intros []; cbn beta.
  eapply (runs_bind 1 0); [apply bzero_runs; try done; [by apply (op_apart_free sb V); [..|apply Hff]|by apply HW]|].
  intros []; cbn beta. apply runs_step. intros ks k Hk. by exists (Some b), k.
Qed.

Lemma balloc_group_runs i :
  (0 ≤ i)%Z → i * BPB < sb_size sb → all_used (i * BPB) →
  runs 2 (tx R V W op) (balloc_group (i * BPB))
    (λ r k, match r with Some b => balloc_found b k | None => all_used ((i + 1) * BPB) ∧ tx R V W op k end) crash.
Proof.
  intros Hi Hlt Hu. assert (Hb0 : 0 ≤ i * BPB < sb_size sb) by (change BPB with 8192 in *; lia).
  destruct (room_write _ Hb0) as (Hr1 & _ & _). unfold balloc_group. set (bb := BBLOCK (i * BPB) sb).
  assert (Hnone : op !! bb = None) by (by apply (op_apart_bitmap sb V)).
  apply (runs_bind 1 1 _ _ (λ b, tx R V W (<[ bb := (b, dblock V bb) ]> op))).
  { apply tx_bread; try done. by apply home_BBLOCK. }
  intros bp. eapply (runs_bind_eq _ 0 1); [eapply tx_buf_data; apply lookup_insert_eq|].
  pose proof (scan_bitmap_spec (dblock V bb) (i * BPB) (sb_size sb) 0 (Z.to_nat BPB) ltac:(done)) as Hscan.
  change (Z.of_nat (Z.to_nat BPB)) with BPB in Hscan.
  assert (Hbit : ∀ x, 0 ≤ x < BPB → block_used sb V (i * BPB + x) = bit_at (dblock V bb) x).
  { intros x Hx. unfold block_used. rewrite BBLOCK_group by done. f_equal. rewrite Z.add_comm, Z.mod_add by done.
    by apply Z.mod_small. }
  assert (Hsplit : ∀ b' n, 0 ≤ n ≤ BPB → (∀ x, 0 ≤ x < n → i * BPB + x < sb_size sb → bit_at (dblock V bb) x = true) →
    0 ≤ b' < i * BPB + n → b' < sb_size sb → block_used sb V b' = true).
  { intros b' n Hn Hall Hb' Hbs. destruct (decide (b' < i * BPB)); [apply Hu; lia|].
    replace b' with (i * BPB + (b' - i * BPB)) by lia. rewrite Hbit by lia. apply Hall; lia. }
  destruct (scan_bitmap _ _ _ _ _) as [bi|].
  - destruct Hscan as (H1 & H2 & H3 & H4). eapply runs_post; [apply (balloc_take i bi); [lia|lia|lia|]|by intros [b|] k].
    split; [lia|]. split; [by rewrite Hbit by lia|]. intros b' Hb'. apply (Hsplit b' bi); [lia| |lia|lia]. intros; by apply H4.
  - apply (runs_mono _ 0); [lia|]. eapply (runs_bind 0 0); [by apply tx_release|]. intros []; cbn beta.
    apply runs_step. intros ks k Hk. exists None, k. split; [done|]. split; [|done].
    intros b' Hb' Hbs. apply (Hsplit b' BPB); [done| |lia|done]. intros x Hx. apply Hscan. lia.
Qed.

Lemma block_groups_lookup size j b :
  block_groups size !! j = Some b → 0 < size → b = Z.of_nat j * BPB ∧ b < size.
Proof.
  unfold block_groups. rewrite list_lookup_fmap. intros (n & Hn & ->)%fmap_Some Hs. apply lookup_seq in Hn as [-> Hn].
  split; [done|]. change BPB with 8192 in *. cbn [Nat.add].
  assert (Z.of_nat j < (size + 8192 - 1) / 8192) by lia. assert (8192 * (Z.of_nat j + 1) ≤ size + 8192 - 1); [|lia].
  transitivity (8192 * ((size + 8192 - 1) / 8192)); [lia|]. apply Z.mul_div_le. lia.
Qed.

Lemma block_groups_cover size : 0 < size → size ≤ Z.of_nat (length (block_groups size)) * BPB.
Proof.
  intros Hs. unfold block_groups. rewrite length_fmap, length_seq. change BPB with 8192.
  rewrite Z2Nat.id by (apply Z.div_pos; lia). pose proof (Z.div_mod (size + 8192 - 1) 8192 ltac:(done)).
  pose proof (Z.mod_pos_bound (size + 8192 - 1) 8192). lia.
Qed.

(** What balloc() prints when the bitmap is full. *)
Definition out_of_blocks : list Z := bytes_of "balloc: out of blocks" ++ newline.

Definition balloc_failed (b : Z) (k : kernel) : Prop :=
  (b = 0 ∧ all_used (sb_size sb)) ∧ ∃ R', sent out_of_blocks R R' ∧ tx R' V W op k.

(** balloc() takes the first free block, if there is one. *)
Lemma balloc_runs :
  k_panicked R = 0 →
  runs (length (block_groups (sb_size sb)) * 2) (tx R V W op) (balloc ROOTDEV)
    (λ b k, balloc_found b k ∨ balloc_failed b k) crash.
Proof.
  intros Hp. unfold balloc. set (n := length (block_groups (sb_size sb))).
  apply (runs_bind_eq _ 0 (n * 2) _ _ sb _ _ _ (tx_gets _ R V W op k_sb ltac:(done))).
  apply (runs_mono _ (n * 2 + 0)); [lia|]. eapply runs_bind.
  - eapply runs_pre; [|apply (runs_for_find 2 (block_groups (sb_size sb)) balloc_group
      (λ j k, all_used (Z.of_nat j * BPB) ∧ tx R V W op k) balloc_found)].
    { intros k Hk. split; [|done]. intros b' Hb'. lia. }
    intros j b Hj. apply runs_pure. intros Hu. apply block_groups_lookup in Hj as [-> Hlt]; [|apply Hsb].
    replace (Z.of_nat (S j)) with (Z.of_nat j + 1) by lia. apply balloc_group_runs; [lia|done|done].
  - intros [b|]; cbn beta iota.
    + apply runs_step. intros ks k Hk. exists b, k. by split; [|left].
    + apply runs_pure. intros Hall. eapply (runs_bind 0 0); [by apply (tx_printf out_of_blocks); [|repeat constructor]|].
      intros []; cbn beta. apply runs_step. intros ks k Hk. exists 0, k. split; [done|]. right. split; [|done]. split; [done|].
      intros b Hb Hbs. apply Hall; [|done]. pose proof (block_groups_cover (sb_size sb) (proj1 (so_size _ _ Hsb))). lia.
Qed.
End balloc.

(** bfree() marks a block in use free again. *)
Lemma bfree_runs R V W op b :
  sb_ok start (k_sb R) → lens V → 0 ≤ b < sb_size (k_sb R) → block_used (k_sb R) V b = true →
  op !! BBLOCK b (k_sb R) = None → (size op ≤ 5)%nat →
  (size ({[ BBLOCK b (k_sb R) ]} ∪ W) ≤ Z.to_nat MAXOPBLOCKS)%nat →
  runs 1 (tx R V W op) (bfree ROOTDEV b) (λ _, tx R (mark_free (k_sb R) b V) ({[ BBLOCK b (k_sb R) ]} ∪ W) op) crash.
Proof.
  intros Hsb HV Hb Hu Hop Hroom HW. unfold bfree. set (sb := k_sb R) in *. set (bb := BBLOCK b sb) in *.
  assert (Hr : (size W + size op < NBUF)%nat).
  { change (Z.to_nat MAXOPBLOCKS) with 10%nat in *. change NBUF with 30%nat.
    assert (size W ≤ size ({[ bb ]} ∪ W))%nat by (apply subseteq_size; set_solver). lia. }
  apply (runs_bind_eq _ 0 1 _ _ sb _ _ _ (tx_gets _ R V W op k_sb ltac:(done))). fold bb.
  apply (runs_bind 1 0 _ _ (λ bp, tx R V W (<[ bb := (bp, dblock V bb) ]> op))).
  { apply tx_bread; try done. by apply home_BBLOCK. }
  intros bp. eapply (runs_bind_eq _ 0 0); [eapply tx_buf_data; apply lookup_insert_eq|]. cbv zeta.
  rewrite bit_clear by (apply Z.mod_pos_bound; lia). change (Z.testbit _ _) with (block_used sb V b). rewrite Hu. cbn [negb].
  eapply (runs_bind 0 0); [eapply tx_set_data; [apply lookup_insert_eq|rewrite length_alter; apply HV]|].
  intros []; cbn beta. rewrite insert_insert_eq.
  eapply (runs_bind 0 0); [eapply tx_log_write; [done..|by rewrite lookup_insert_eq|done]|]. intros []; cbn beta.
  change (<[ bb := _ ]> V) with (mark_free sb b V).
  eapply runs_post; [eapply (tx_brelse _ _ _ _ _ _ _ bb bp)|].
  - rewrite lookup_insert_eq. unfold mark_free. by rewrite dblock_insert_eq.
  - cbn beta. intros _ k Hk. by rewrite delete_insert_id in Hk.
Qed.
End blocks.

(** ** Properties *)

Section properties.
Context `{KI : KernelImage} {D : Disk} {p : nat} {pid : Z} {DS : DiskSpec D p pid}.
Context {LA : LogArea} (start : Z) (dk : disk).

(** C5: balloc() inside a transaction.  If the bitmap has a clear bit, it
    returns the block of the first one, which is then marked in use and
    zeroed as the transaction sees the disk; the use of every other block and
    the contents of every block but that one and its bitmap block are
    unchanged, and no block of the file system's own metadata is returned.
    Otherwise it prints a message, returns 0 and changes nothing.  It writes
    at most two blocks and always returns. *)
Theorem balloc_takes_first_free R V W op :
  let sb := k_sb R in
  lens dk → MAXOPBLOCKS < log_cap → sb_ok start sb → lens V → bitmap_ok sb V → k_panicked R = 0 →
  op_apart sb V op → (size op ≤ 5)%nat →
  (∀ b, 0 ≤ b < sb_size sb → (size ({[ b ]} ∪ ({[ BBLOCK b sb ]} ∪ W)) ≤ Z.to_nat MAXOPBLOCKS)%nat) →
  runs (length (block_groups (sb_size sb)) * 2) (tx_state (p:=p) (pid:=pid) start dk R V W op) (balloc ROOTDEV)
    (λ b k,
      (∃ V', (first_free sb V b ∧ data_block sb b ∧ bitmap_ok sb V' ∧ dblock V' b = zero_block ∧
          (∀ b', 0 ≤ b' < sb_size sb → block_used sb V' b' = (b' =? b) || block_used sb V b') ∧
          (∀ bno, bno ≠ b → bno ≠ BBLOCK b sb → dblock V' bno = dblock V bno)) ∧
        tx_state (p:=p) (pid:=pid) start dk R V' ({[ b ]} ∪ ({[ BBLOCK b sb ]} ∪ W)) op k) ∨
      ((b = 0 ∧ ∀ b', 0 ≤ b' < sb_size sb → block_used sb V b' = true) ∧
        ∃ R', sent out_of_blocks R R' ∧ tx_state (p:=p) (pid:=pid) start dk R' V W op k))
    (λ k, k_disk k = dk).
Proof.
  intros sb Hlens Hcap Hsb HV Hbm Hp Hop Hroom HW. eapply runs_post; [by apply balloc_runs|]. cbn beta. fold sb.
  intros b k [[Hff Hk]|[[-> Hall] Hk]]; [left|right].
  - pose proof Hff as (Hb & Hfree & _). pose proof (Hbm b Hb Hfree) as Hdb. exists (allocated sb b V). split; [|done].
    split_and!; try done.
    + by apply (bitmap_ok_allocated start).
    + unfold allocated. by rewrite dblock_insert_eq.
    + by apply (used_allocated start).
    + by apply (allocated_other sb V b).
  - split; [|done]. split; [done|]. intros b' Hb'. by apply (Hall b' Hb'); destruct Hb'.
Qed.
End properties.

(** A file system of 64 blocks, with the log at block 2, the bitmap in block
    45 and the first 48 blocks in use. *)
Section witnesses.
#[local] Existing Instance sample_image.

#[local] Instance small_area : LogArea.
Proof. refine {| log_cap := 29 |}. by_eval. Defined.

Definition small_sb : superblock := Superblock FSMAGIC 64 16 200 30 2 32 45.
Definition small_disk : disk := {[ 45 := replicate 6 255 ++ replicate 1018 0 ]}.
Definition small_rest : kernel := fs_forget (sample_fs_kernel <| k_sb := small_sb |>).

Lemma small_lens : lens small_disk.
Proof.
  intros bno. unfold dblock, small_disk. rewrite lookup_singleton. case_decide; by vm_compute.
Qed.

Lemma small_sb_ok : sb_ok 2 small_sb.
Proof. split; by_eval. Qed.

Lemma small_used b : 0 ≤ b < 48 → block_used small_sb small_disk b = true.
Proof.
  intros Hb. assert (Hall : forallb (λ n, block_used small_sb small_disk (Z.of_nat n)) (seq 0 48) = true) by (vm_compute; reflexivity).
  rewrite forallb_forall in Hall. specialize (Hall (Z.to_nat b)). rewrite Z2Nat.id in Hall by lia. apply Hall, in_seq. lia.
Qed.

Lemma small_bitmap_ok : bitmap_ok small_sb small_disk.
Proof.
  intros b Hb Hf. change (sb_size small_sb) with 64 in Hb. destruct (decide (b < 48)) as [Hlt|Hge].
  - by rewrite small_used in Hf by lia.
  - unfold data_block. change (data_start small_sb) with 46. change (sb_size small_sb) with 64. lia.
Qed.

Lemma balloc_takes_first_free_witness :
  runs (p:=1) (pid:=0) 2 (tx_state (p:=1) (pid:=0) 2 small_disk small_rest small_disk ∅ ∅) (balloc ROOTDEV)
    (λ b k, b = 48 ∨ b = 0) (λ k, k_disk k = small_disk).
Proof.
  pose proof (balloc_takes_first_free (p:=1) (pid:=0) 2 small_disk small_rest small_disk ∅ ∅ small_lens ltac:(by_eval)
    small_sb_ok small_lens small_bitmap_ok eq_refl ltac:(intros bno [x Hx]; done) ltac:(by_eval)) as H.
  eapply runs_post; [apply H|].
  - intros b Hb. rewrite union_empty_r_L. rewrite size_union_alt, size_singleton.
    transitivity (1 + size ({[ BBLOCK b small_sb ]} : gset Z))%nat; [|rewrite size_singleton; by_eval].
    apply Nat.add_le_mono_l, subseteq_size. set_solver.
  - cbn beta. intros b k [(V' & ((Hb & Hf & Hlow) & _) & _)|[[-> _] _]]; [left|by right].
    destruct (decide (b = 48)); [done|]. change (sb_size small_sb) with 64 in Hb. destruct (decide (b < 48)).
    + by rewrite small_used in Hf by lia.
    + specialize (Hlow 48 ltac:(lia)). vm_compute in Hlow. done.
Defined.
End witnesses.
