(* ===== verification/FsFile.v ===== *)
(** * File contents

    bmap(), writei() and readi() inside a transaction, as operations on the
    bytes of a file. *)

From stdpp Require Import gmap.
From S2P Require Import Prelude KMonad Memory Riscv State Spinlock CString Kalloc Vm VmUser.
From S2P Require Import VmCopy Sched Uart Printf PrintfSpec Sleeplock Bio Virtio Crash VirtioSpec BioSpec.
From S2P Require Import Log LogSpec Fs FsSpec FsTx FsBlock.

Lemma size_add (b : Z) (X : gset Z) : (size ({[ b ]} ∪ X) ≤ S (size X))%nat.
Proof.
  rewrite size_union_alt, size_singleton. enough (size (X ∖ {[ b ]}) ≤ size X)%nat by lia. apply subseteq_size. set_solver.
Qed.

(** [0 ∉ {[ a ]} ∪ ...]: no block 0. *)
Ltac not_written := rewrite ?not_elem_of_union, ?not_elem_of_singleton; split_and!; done || lia.

(** ** The blocks of a file *)

(** The indirect block, and the address of the [bn]th block, 0 for none. *)
Definition ind (x : inode) : Z := i_addrs x !!! Z.to_nat NDIRECT.

Lemma ind_direct x bn a : 0 ≤ bn < NDIRECT → ind (x <| i_addrs ::= <[ Z.to_nat bn := a ]> |>) = ind x.
Proof.
  intros H. unfold ind. cbn. rewrite list_lookup_total_insert_ne; [done|]. change NDIRECT with 12 in *. lia.
Qed.

Definition file_addr (V : disk) (x : inode) (bn : Z) : Z :=
  if bn <? NDIRECT then i_addrs x !!! Z.to_nat bn
  else if ind x =? 0 then 0 else get32 (dblock V (ind x)) (4 * (bn - NDIRECT)).

(** A data block in use. *)
Definition own (sb : superblock) (V : disk) (a : Z) : Prop := data_block sb a ∧ block_used sb V a = true.

Record file_ok (sb : superblock) (V : disk) (x : inode) : Prop := {
  fo_dev : i_dev x = ROOTDEV;
  fo_inum : 0 ≤ i_inum x < sb_ninodes sb;
  fo_len : length (i_addrs x) = 13%nat;
  fo_ind : ind x = 0 ∨ own sb V (ind x);
  fo_addr : ∀ bn, 0 ≤ bn < MAXFILE → file_addr V x bn = 0 ∨ own sb V (file_addr V x bn) ∧ file_addr V x bn ≠ ind x;
  fo_inj : ∀ bn bn', 0 ≤ bn < MAXFILE → 0 ≤ bn' < MAXFILE → file_addr V x bn ≠ 0 →
    file_addr V x bn = file_addr V x bn' → bn = bn';
  fo_size : 0 ≤ i_size x ≤ MAXFILE * BSIZE;
  fo_full : ∀ bn, 0 ≤ bn → bn * BSIZE < i_size x → file_addr V x bn ≠ 0;
}.

(** The byte at an offset. *)
Definition file_byte (V : disk) (x : inode) (o : Z) : Z := byte_at (dblock V (file_addr V x (o / BSIZE))) (o mod BSIZE).
Definition file_bytes (V : disk) (x : inode) (off n : Z) : list Z := (λ i, file_byte V x (off + i)) <$> seqZ 0 n.

Section files.
Context {LA : LogArea} (start : Z) (sb : superblock) (Hsb : sb_ok start sb).

Lemma own_pos V a : own sb V a → 0 < a ∧ 0 ≤ a < sb_size sb.
Proof.
  intros [Hd _]. pose proof (data_start_bound start sb Hsb). pose proof (so_log _ _ Hsb). pose proof log_cap_ok.
  unfold data_block in Hd. lia.
Qed.

(** The addresses depend on the contents of the indirect block only. *)
Lemma file_addr_frame V V' x bn :
  (ind x ≠ 0 → dblock V' (ind x) = dblock V (ind x)) → file_addr V' x bn = file_addr V x bn.
Proof.
  intros H. unfold file_addr. destruct (bn <? NDIRECT); [done|]. destruct (Z.eqb_spec (ind x) 0); [done|]. by rewrite H.
Qed.

(** One more block. *)
Lemma file_ok_grow V V' x x' bn a :
  file_ok sb V x → 0 ≤ bn < MAXFILE → file_addr V x bn = 0 → data_block sb a → block_used sb V a = false →
  x' = x <| i_addrs := i_addrs x' |> → length (i_addrs x') = 13%nat → ind x' = ind x →
  (∀ b, 0 ≤ b < sb_size sb → block_used sb V' b = (b =? a) || block_used sb V b) →
  (∀ bn', 0 ≤ bn' < MAXFILE → file_addr V' x' bn' = if bn' =? bn then a else file_addr V x bn') →
  file_ok sb V' x'.
Proof.
  intros [F1 F2 F3 F4 F5 F6 F7 F8] Hbn Hz Ha Hfree Hx Hl Hind Hu Haddr.
  assert (Hmono : ∀ b, own sb V b → own sb V' b).
  { intros b Hb. destruct (own_pos V b Hb). destruct Hb as [Hd Hb]. split; [done|]. rewrite Hu, Hb by done. by rewrite orb_true_r. }
  assert (Hnot : ∀ b, own sb V b → b ≠ a) by (intros b [_ Hb] ->; congruence).
  assert (Hown : own sb V' a) by (split; [done|]; rewrite Hu; [by rewrite Z.eqb_refl|unfold data_block in Ha; pose proof (data_start_bound start sb Hsb); pose proof (so_log _ _ Hsb); pose proof log_cap_ok; lia]).
  split; try (by rewrite Hx); try done.
  - rewrite Hind. destruct F4 as [F4|F4]; [by left|right; auto].
  - intros bn' Hbn'. rewrite Haddr, Hind by done. destruct (Z.eqb_spec bn' bn).
    + right. split; [done|]. intros E. destruct F4 as [F4|F4]; [|by apply (Hnot _ F4)].
      pose proof (own_pos _ _ Hown). lia.
    + destruct (F5 bn' Hbn') as [E|[E1 E2]]; [by left|right; auto].
  - intros b1 b2 H1 H2. rewrite !Haddr by done. destruct (Z.eqb_spec b1 bn), (Z.eqb_spec b2 bn); [lia| | |by apply F6].
    + intros _ E. exfalso. destruct (F5 b2 H2) as [E0|[E1 _]]; [|by apply (Hnot _ E1)]. pose proof (own_pos _ _ Hown). lia.
    + intros H0 E. exfalso. destruct (F5 b1 H1) as [E0|[E1 _]]; [done|by apply (Hnot _ E1)].
  - intros b Hb Hs. rewrite Hx in Hs. cbn in Hs. rewrite Haddr by (change MAXFILE with 268 in *; change BSIZE with 1024 in *; lia).
    destruct (b =? bn); [pose proof (own_pos _ _ Hown); lia|by apply F8].
Qed.

(** ** Growth

    What bmap() may do to a file: give it its [bn]th block [a], or no block
    for [a = 0], without disturbing what is in use. *)
Record grown (V : disk) (x : inode) (bn a : Z) (V' : disk) (x' : inode) : Prop := {
  gw_ok : file_ok sb V' x';
  gw_bitmap : bitmap_ok sb V';
  gw_addr : a ≠ 0 → file_addr V' x' bn = a;
  gw_old : ∀ bn', 0 ≤ bn' < MAXFILE → file_addr V x bn' ≠ 0 → file_addr V' x' bn' = file_addr V x bn';
  gw_none : ∀ bn', 0 ≤ bn' < MAXFILE → bn' ≠ bn ∨ a = 0 → file_addr V x bn' = 0 → file_addr V' x' bn' = 0;
  gw_new : a ≠ 0 → file_addr V x bn = 0 → dblock V' a = zero_block ∧ block_used sb V a = false;
  gw_data : ∀ b, own sb V b → b ≠ ind x → dblock V' b = dblock V b;
  gw_meta : ∀ b, b < sb_bmapstart sb → dblock V' b = dblock V b;
  gw_used : ∀ b, 0 ≤ b < sb_size sb → block_used sb V b = true → block_used sb V' b = true;
  gw_inode : x' = x <| i_addrs := i_addrs x' |>;
  gw_ind : ind x' = ind x ∨ ind x = 0 ∧ own sb V' (ind x') ∧ block_used sb V (ind x') = false;
}.

Lemma file_grown_own V x bn a V' x' b : grown V x bn a V' x' → own sb V b → own sb V' b.
Proof. intros G Hb. destruct (own_pos V b Hb), Hb as [Hd Hu]. split; [done|]. by apply (gw_used _ _ _ _ _ _ G). Qed.

Lemma file_grown_refl V x bn :
  file_ok sb V x → bitmap_ok sb V → grown V x bn (file_addr V x bn) V x.
Proof. intros Hf Hb. split; try done; auto. by destruct x. Qed.

Lemma file_grown_trans V x bn V1 x1 a V2 x2 :
  grown V x bn 0 V1 x1 → grown V1 x1 bn a V2 x2 → file_addr V x bn = 0 → 0 ≤ bn < MAXFILE → grown V x bn a V2 x2.
Proof.
  intros G1 G2 H0 Hbn. split.
  - apply (gw_ok _ _ _ _ _ _ G2).
  - apply (gw_bitmap _ _ _ _ _ _ G2).
  - apply (gw_addr _ _ _ _ _ _ G2).
  - intros bn' Hb Hne. pose proof (gw_old _ _ _ _ _ _ G1 bn' Hb Hne) as E. rewrite <- E in Hne |- *.
    by apply (gw_old _ _ _ _ _ _ G2).
  - intros bn' Hb Hor Hz. apply (gw_none _ _ _ _ _ _ G2); [done|done|]. by apply (gw_none _ _ _ _ _ _ G1); [|right|].
  - intros Ha _. destruct (gw_new _ _ _ _ _ _ G2 Ha) as [H1 H2]; [by apply (gw_none _ _ _ _ _ _ G1); [|right|]|].
    split; [done|]. destruct (block_used sb V a) eqn:E; [|done]. rewrite (gw_used _ _ _ _ _ _ G1) in H2; [done| |done].
    pose proof (gw_addr _ _ _ _ _ _ G2 Ha) as Ea.
    destruct (fo_addr _ _ _ (gw_ok _ _ _ _ _ _ G2) bn Hbn) as [Ez|[Ho _]]; [congruence|]. rewrite Ea in Ho. by apply (own_pos V2).
  - intros b Hb Hne. rewrite (gw_data _ _ _ _ _ _ G2), (gw_data _ _ _ _ _ _ G1); try done; [by eapply file_grown_own|].
    intros ->. destruct (gw_ind _ _ _ _ _ _ G1) as [E|(_ & _ & E)]; [done|]. by rewrite (proj2 Hb) in E.
  - intros b Hb. by rewrite (gw_meta _ _ _ _ _ _ G2), (gw_meta _ _ _ _ _ _ G1).
  - intros b Hb Hu. by apply (gw_used _ _ _ _ _ _ G2), (gw_used _ _ _ _ _ _ G1).
  - rewrite (gw_inode _ _ _ _ _ _ G2), (gw_inode _ _ _ _ _ _ G1). by destruct x.
  - destruct (gw_ind _ _ _ _ _ _ G2) as [E|(E1 & E2 & E3)], (gw_ind _ _ _ _ _ _ G1) as [E'|(E4 & E5 & E6)].
    + left. congruence.
    + right. rewrite E. split; [done|]. split; [by eapply file_grown_own|done].
    + right. split; [congruence|]. split; [done|]. destruct (block_used sb V (ind x2)) eqn:Eu; [|done].
      rewrite (gw_used _ _ _ _ _ _ G1) in E3; [done|by apply (own_pos V2)|done].
    + pose proof (own_pos _ _ E5). lia.
Qed.

(** Taking a free block [a]. *)
Section take.
Context (V : disk) (x : inode) (bn a : Z).
Hypothesis HV : lens V.
Hypothesis Hf : file_ok sb V x.
Hypothesis Hbm : bitmap_ok sb V.
Hypothesis Hbn : 0 ≤ bn < MAXFILE.
Hypothesis Hz : file_addr V x bn = 0.
Hypothesis Ha : first_free sb V a.

Lemma take_data : data_block sb a.
Proof. destruct Ha as (H1 & H2 & _). by apply Hbm. Qed.

Lemma take_fresh b : own sb V b → b ≠ a.
Proof. intros [_ Hu] ->. destruct Ha as (_ & H & _). congruence. Qed.

Lemma take_ind : ind x ≠ a.
Proof.
  intros E. destruct (fo_ind _ _ _ Hf) as [H|H]; [|by apply (take_fresh (ind x))].
  pose proof take_data as Hd. pose proof (data_start_bound start sb Hsb). pose proof (so_log _ _ Hsb). pose proof log_cap_ok.
  unfold data_block in Hd. lia.
Qed.

(** A block for the file itself. *)
Lemma grown_take V' x' :
  x' = x <| i_addrs := i_addrs x' |> → length (i_addrs x') = 13%nat → ind x' = ind x → dblock V' a = zero_block →
  (∀ b, 0 ≤ b < sb_size sb → block_used sb V' b = (b =? a) || block_used sb V b) →
  (∀ b, data_block sb b → b ≠ a → b ≠ ind x → dblock V' b = dblock V b) →
  (∀ b, b < sb_bmapstart sb → dblock V' b = dblock V b) →
  (∀ bn', 0 ≤ bn' < MAXFILE → file_addr V' x' bn' = if bn' =? bn then a else file_addr V x bn') →
  grown V x bn a V' x'.
Proof.
  intros Hx Hl Hind Hzero Hu Hdata Hmeta Haddr. pose proof take_data as Hd. destruct Ha as (Hr & Hfree & _). split; try done.
  - by apply (file_ok_grow V V' x x' bn a).
  - intros b Hb. rewrite Hu by done. intros [_ Hub]%orb_false_iff. by apply Hbm.
  - intros _. by rewrite Haddr, Z.eqb_refl.
  - intros bn' Hb Hne. rewrite Haddr by done. destruct (Z.eqb_spec bn' bn) as [->|]; [done|done].
  - intros bn' Hb [Hne| ->] H0; rewrite Haddr by done; destruct (Z.eqb_spec bn' bn); done.
  - intros b Hb Hne. apply Hdata; [apply Hb|by apply take_fresh|done].
  - intros b Hb Hub. rewrite Hu, Hub by done. apply orb_true_r.
  - by left.
Qed.

Lemma grown_direct :
  bn < NDIRECT → grown V x bn a (allocated sb a V) (x <| i_addrs ::= <[ Z.to_nat bn := a ]> |>).
Proof.
  intros Hlt. change NDIRECT with 12 in Hlt. pose proof take_data as Hd. pose proof (fo_len _ _ _ Hf) as Hlen.
  assert (Hind : ind (x <| i_addrs ::= <[ Z.to_nat bn := a ]> |>) = ind x) by (apply ind_direct; change NDIRECT with 12; lia).
  apply grown_take; try done.
  - cbn. by rewrite length_insert.
  - unfold allocated. by rewrite dblock_insert_eq.
  - by apply (used_allocated start).
  - intros b Hb Hne _. by apply (allocated_data start).
  - by apply (allocated_meta start).
  - intros bn' Hbn'. rewrite (file_addr_frame V).
    + unfold file_addr. rewrite Hind. change NDIRECT with 12 in *. destruct (Z.ltb_spec bn' 12); cbn.
      * destruct (Z.eqb_spec bn' bn) as [->|Hne]; [by rewrite list_lookup_total_insert_eq by lia|].
        by rewrite list_lookup_total_insert_ne by lia.
      * destruct (Z.eqb_spec bn' bn); [lia|done].
    + rewrite Hind. intros Hne. apply (allocated_data start); try done; [|apply take_ind].
      destruct (fo_ind _ _ _ Hf) as [H|[H _]]; done.
Qed.

(** An entry of the indirect block. *)
Lemma grown_entry :
  NDIRECT ≤ bn → ind x ≠ 0 →
  grown V x bn a (<[ ind x := put32 (dblock V (ind x)) (4 * (bn - NDIRECT)) a ]> (allocated sb a V)) x.
Proof.
  intros Hge Hne. pose proof take_data as Hd. pose proof take_ind as Hia.
  destruct (fo_ind _ _ _ Hf) as [H|Hown]; [done|]. pose proof (own_pos _ _ Hown) as Hr.
  assert (Ha32 : u32 a = a) by (apply u32_small; destruct (so_size _ _ Hsb); unfold data_block in Hd;
    pose proof (data_range start sb Hsb a Hd); lia).
  apply grown_take; try done.
  - by destruct x.
  - apply Hf.
  - unfold allocated. by rewrite dblock_insert_ne, dblock_insert_eq.
  - intros b Hb. rewrite (used_data start) by (done || apply Hown). by apply (used_allocated start).
  - intros b Hb Hba Hbi. rewrite dblock_insert_ne by done. by apply (allocated_data start).
  - intros b Hb. pose proof (data_start_bound start sb Hsb). destruct Hown as [Ho _]. unfold data_block in Ho.
    rewrite dblock_insert_ne by lia. by apply (allocated_meta start).
  - intros bn' Hbn'. unfold file_addr. change NDIRECT with 12 in *. change MAXFILE with 268 in *.
    destruct (Z.ltb_spec bn' 12); [destruct (Z.eqb_spec bn' bn); [lia|done]|].
    destruct (Z.eqb_spec (ind x) 0); [done|]. rewrite dblock_insert_eq.
    destruct (Z.eqb_spec bn' bn) as [->|Hnb].
    + rewrite get32_put32, Ha32 by (rewrite ?HV; lia). done.
    + rewrite get32_put32_other by (rewrite ?HV; lia). done.
Qed.

(** The indirect block itself. *)
Lemma grown_indirect :
  ind x = 0 → grown V x bn 0 (allocated sb a V) (x <| i_addrs ::= <[ Z.to_nat NDIRECT := a ]> |>).
Proof.
  intros H0. pose proof take_data as Hd. destruct Hf as [F1 F2 F3 F4 F5 F6 F7 F8]. set (x' := x <| i_addrs ::= _ |>).
  pose proof (data_range start sb Hsb a Hd) as Hr.
  assert (Hind : ind x' = a) by (unfold ind, x'; cbn; apply list_lookup_total_insert_eq; rewrite F3; by_eval).
  assert (Hown' : ∀ b, own sb V b → own sb (allocated sb a V) b).
  { intros b Hb. destruct (own_pos V b Hb), Hb as [Hb Hub]. split; [done|]. rewrite (used_allocated start), Hub by done. apply orb_true_r. }
  assert (Ho : own sb (allocated sb a V) a) by (split; [done|]; by rewrite (used_allocated start), Z.eqb_refl by done).
  assert (Haddr : ∀ bn', 0 ≤ bn' < MAXFILE → file_addr (allocated sb a V) x' bn' = file_addr V x bn').
  { intros bn' Hb. unfold file_addr. rewrite Hind, H0. cbn [Z.eqb]. change NDIRECT with 12 in *. destruct (Z.ltb_spec bn' 12).
    - unfold x'. cbn. by rewrite list_lookup_total_insert_ne by lia.
    - destruct (Z.eqb_spec a 0) as [->|]; [done|]. unfold allocated. rewrite dblock_insert_eq.
      unfold get32. change MAXFILE with 268 in *. unfold zero_block, bytes_at. rewrite drop_replicate, take_replicate.
      change (Z.to_nat BSIZE) with 1024%nat. rewrite Nat.min_l by lia. done. }
  split; try done.
  - split; try done.
    + unfold x'. cbn. by rewrite length_insert.
    + right. by rewrite Hind.
    + intros bn' Hb. rewrite Haddr, Hind by done. destruct (F5 bn' Hb) as [E|[E _]]; [by left|right].
      split; [auto|]. by apply take_fresh.
    + intros b1 b2 Hb1 Hb2. rewrite !Haddr by done. by apply F6.
    + intros b Hb Hs. change (i_size x') with (i_size x) in Hs.
      rewrite Haddr by (change MAXFILE with 268 in *; change BSIZE with 1024 in *; lia). by apply F8.
  - by apply (bitmap_ok_allocated start).
  - intros bn' Hb _. by rewrite Haddr.
  - intros bn' Hb _ E. by rewrite Haddr.
  - intros b Hb _. apply (allocated_data start); try done; [apply Hb|by apply take_fresh].
  - by apply (allocated_meta start).
  - intros b Hb Hu. rewrite (used_allocated start), Hu by done. apply orb_true_r.
  - right. rewrite Hind. split; [done|]. split; [done|]. apply Ha.
Qed.
End take.
End files.

(** ** The loops of readi() and writei() *)

Lemma block_lt o : 0 ≤ o < MAXFILE * BSIZE → 0 ≤ o / BSIZE < MAXFILE.
Proof. intros H. change BSIZE with 1024 in *. split; [apply Z.div_pos; lia|]. apply Z.div_lt_upper_bound; lia. Qed.

Section turns.
Context (off n : Z).

(** The bytes one turn of the loop writes. *)
Lemma io_min_bounds tot o : tot < n → 0 < io_min n tot o ≤ n - tot ∧ o mod BSIZE + io_min n tot o ≤ BSIZE.
Proof. intros H. unfold io_min. pose proof (Z.mod_pos_bound o BSIZE ltac:(done)). change BSIZE with 1024 in *. lia. Qed.

(** The turns of the loop still to come: one for each block touched. *)
Definition turns (tot : Z) : nat :=
  if tot <? n then Z.to_nat ((off + n - 1) / BSIZE - (off + tot) / BSIZE + 1) else 0%nat.

Lemma turns_pos tot : 0 ≤ tot < n → turns tot = S (turns tot - 1).
Proof.
  intros H. unfold turns. rewrite (proj2 (Z.ltb_lt _ _)) by lia.
  assert ((off + tot) / BSIZE ≤ (off + n - 1) / BSIZE) by (apply Z.div_le_mono; [done|lia]). lia.
Qed.

Lemma turns_next tot : 0 ≤ tot < n → (S (turns (tot + io_min n tot (off + tot))) ≤ turns tot)%nat.
Proof.
  intros H. pose proof (turns_pos tot H). set (m := io_min n tot (off + tot)). unfold turns at 1. destruct (Z.ltb_spec (tot + m) n); [|lia].
  unfold turns. rewrite (proj2 (Z.ltb_lt _ _)) by lia. set (o := off + tot) in *.
  pose proof (Z.mod_pos_bound o BSIZE ltac:(done)). pose proof (Z.div_mod o BSIZE ltac:(done)).
  assert (Hm : m = BSIZE - o mod BSIZE) by (unfold m, io_min in *; lia).
  assert (E : (off + (tot + m)) / BSIZE = o / BSIZE + 1).
  { symmetry. apply (Z.div_unique_pos _ _ _ 0); unfold o in *; [done|lia]. }
  rewrite E. assert (o / BSIZE + 1 ≤ (off + n - 1) / BSIZE) by (rewrite <- E; apply Z.div_le_mono; [done|lia]). lia.
Qed.

Lemma turns_fuel : 0 ≤ n → (turns 0 < io_fuel n)%nat.
Proof.
  intros Hn. unfold turns, io_fuel. destruct (Z.ltb_spec 0 n); [|change BSIZE with 1024; assert (0 ≤ n / 1024) by (apply Z.div_pos; lia); lia].
  rewrite Z.add_0_r. change BSIZE with 1024. assert (0 ≤ n / 1024) by (apply Z.div_pos; lia).
  assert ((off + n - 1) / 1024 ≤ off / 1024 + n / 1024 + 1); [|lia].
  apply Z.lt_succ_r, Z.div_lt_upper_bound; [lia|]. pose proof (Z.div_mod off 1024 ltac:(done)). pose proof (Z.div_mod n 1024 ltac:(done)).
  pose proof (Z.mod_pos_bound off 1024 ltac:(done)). pose proof (Z.mod_pos_bound n 1024 ltac:(done)). lia.
Qed.

End turns.

(** ** Inside a transaction *)

Section runs.
Context `{KI : KernelImage} {D : Disk} {p : nat} {pid : Z} {DS : DiskSpec D p pid}.
Context {LA : LogArea} (start : Z) (dk : disk).
Hypothesis Hlens : lens dk.
Hypothesis Hcap : MAXOPBLOCKS < log_cap.
#[local] Abbreviation tx := (tx_state start dk).
#[local] Abbreviation crash := (λ k, k_disk k = dk).

(** The rest of the kernel, and the entry of the inode in the table. *)
Context (R : kernel) (i : nat).
#[local] Abbreviation sb := (k_sb R).
Hypothesis Hsb : sb_ok start sb.
Hypothesis Hone : sb_size sb ≤ BPB.
Hypothesis Hp : k_panicked R = 0.
Hypothesis Hi : (i < length (k_itable R))%nat.

(** The only bitmap block. *)
Definition bmap_block : Z := BBLOCK 0 sb.

Definition rest (u : uart_t) (x : inode) : kernel := R <| k_itable ::= <[ i := x ]> |> <| k_uart := u |>.

(** The transaction's state with [x] the inode in entry [i]; messages may
    have been printed. *)
Definition ftx (V : disk) (W : gset Z) (op : open_bufs) (x : inode) (k : kernel) : Prop :=
  ∃ u, tx (rest u x) V W op k.

Lemma tx_inode_get C u V W op x :
  runs 0 (tx (rest u x) V W op) (inode_get i) (λ y k, y = x ∧ tx (rest u x) V W op k) C.
Proof.
  apply runs_step. intros ks k Hk. exists x, k. split; [|done].
  destruct Hk as (lg & ca & l & _ & Hk). assert (E : k_itable k = k_itable (rest u x)) by (by rewrite <- (fs_rest _ _ _ _ _ Hk)).
  unfold inode_get, deref. rewrite E. cbn. by rewrite list_lookup_insert_eq.
Qed.

Lemma tx_inode_set C u V W op x f :
  runs 0 (tx (rest u x) V W op) (inode_set i f) (λ _, tx (rest u (f x)) V W op) C.
Proof.
  apply runs_step. intros ks k (lg & ca & l & Hf & [F1 F2 F3 F4 F5 F6 F7]). eexists tt, _. split; [reflexivity|].
  exists lg, ca, l. split; [done|]. split; try done.
  - transitivity ((fs_forget k) <| k_itable ::= alter f i |>); [done|]. rewrite F1. unfold rest. cbn.
    by rewrite (alter_insert_at _ _ _ x), list_insert_insert_eq by (by apply list_lookup_insert_eq).
  - by apply (kernel_thread_ext p pid k).
  - by apply (disk_ready_ext k).
Qed.

Lemma runs_ftx {A} u n V W op x (m : M kernel A) Q C :
  runs n (ftx V W op x) m Q C → runs n (tx (rest u x) V W op) m Q C.
Proof. apply runs_pre. intros k Hk. by exists u. Qed.

Lemma BBLOCK_one b : 0 ≤ b < sb_size sb → BBLOCK b sb = bmap_block.
Proof. intros Hb. unfold bmap_block, BBLOCK. rewrite !Z.div_small by lia. done. Qed.

Lemma bmap_block_pos : 0 < bmap_block.
Proof.
  destruct (so_size _ _ Hsb). pose proof (BBLOCK_range start sb Hsb 0 ltac:(lia)). pose proof (data_start_bound start sb Hsb).
  pose proof (so_log _ _ Hsb). pose proof log_cap_ok. unfold bmap_block. lia.
Qed.

Lemma one_group : length (block_groups (sb_size sb)) = 1%nat.
Proof.
  unfold block_groups. rewrite length_fmap, length_seq. destruct Hsb as [H _ _ _]. change BPB with 8192 in *.
  assert ((sb_size sb + 8192 - 1) / 8192 = 1) as -> by (symmetry; apply (Z.div_unique_pos _ _ _ (sb_size sb - 1)); lia). done.
Qed.

Definition all_in_use (V : disk) : Prop := ∀ b, 0 ≤ b < sb_size sb → block_used sb V b = true.

Lemma ftx_balloc V W op x :
  lens V → bitmap_ok sb V → op_apart sb V op → (size op ≤ 5)%nat →
  (S (size ({[ bmap_block ]} ∪ W)) ≤ Z.to_nat MAXOPBLOCKS)%nat →
  runs 2 (ftx V W op x) (balloc ROOTDEV)
    (λ a k, (a ≠ 0 ∧ first_free sb V a) ∧ ftx (allocated sb a V) ({[ a ]} ∪ ({[ bmap_block ]} ∪ W)) op x k ∨
            (a = 0 ∧ all_in_use V) ∧ ftx V W op x k) crash.
Proof.
  intros HV Hbm Hop Hso HW. apply runs_exists. intros u. pose proof one_group as Hg.
  eapply runs_conseq; [apply (balloc_runs start dk Hlens Hcap (rest u x) V W op); try done| | |..].
  - intros b Hb. rewrite BBLOCK_one by done. etransitivity; [apply size_add|done].
  - change (k_sb (rest u x)) with sb. by rewrite Hg.
  - done.
  - cbn beta. intros a k [[Ha Hk]|[[-> Hall] (R' & [lsr ->] & Hk)]]; [left|right].
    + change (k_sb (rest u x)) with sb in *. split.
      * split; [|done]. destruct Ha as (Hr & Hfree & _). pose proof (Hbm a Hr Hfree) as Hd. unfold data_block in Hd.
        pose proof (data_start_bound start sb Hsb). pose proof (so_log _ _ Hsb). pose proof log_cap_ok. lia.
      * rewrite BBLOCK_one in Hk by apply Ha. by exists u.
    + split; [split; [done|]; intros b Hb; apply Hall; apply Hb|]. eexists. exact Hk.
  - done.
Qed.

(** The blocks an operation on the file writes in any case, and how many
    blocks the transaction would have with them. *)
Definition base (x : inode) (W : gset Z) : gset Z :=
  {[ ind x ]} ∪ ({[ bmap_block ]} ∪ ({[ IBLOCK (i_inum x) sb ]} ∪ W)).

(** The disk and the file are well formed, and [n] more blocks can be
    written. *)
Record fs_ok (n : nat) (V : disk) (W : gset Z) (x : inode) : Prop := {
  ok_lens : lens V;
  ok_bitmap : bitmap_ok sb V;
  ok_file : file_ok sb V x;
  ok_written : 0 ∉ W;
  ok_room : (size (base x W) + n ≤ Z.to_nat MAXOPBLOCKS)%nat;
}.

Lemma fs_ok_room n V W x : fs_ok (S n) V W x → (S (size ({[ bmap_block ]} ∪ W)) ≤ Z.to_nat MAXOPBLOCKS)%nat.
Proof.
  intros H. pose proof (ok_room _ _ _ _ H). enough (size ({[ bmap_block ]} ∪ W) ≤ size (base x W))%nat by lia.
  apply subseteq_size. unfold base. set_solver.
Qed.

(** What bmap() does to the state. *)
Definition bmapped_with (op : disk → open_bufs) (n : nat) (V : disk) (W : gset Z) (x : inode) (bn a : Z) (k : kernel) : Prop :=
  ∃ V' W' x', (grown sb V x bn a V' x' ∧ lens V' ∧ (0 ∉ W') ∧ (a = 0 → all_in_use V') ∧
    (size (base x' W') + n ≤ Z.to_nat MAXOPBLOCKS)%nat ∧
    (a ≠ 0 → (size ({[ a ]} ∪ base x' W') + n ≤ Z.to_nat MAXOPBLOCKS)%nat)) ∧ ftx V' W' (op V') x' k.
#[local] Abbreviation bmapped := (bmapped_with (λ _, ∅)).

Lemma bmap_unchanged op n V W x bn u k :
  fs_ok (S n) V W x → (file_addr V x bn = 0 → all_in_use V) → tx (rest u x) V W (op V) k →
  bmapped_with op n V W x bn (file_addr V x bn) k.
Proof.
  intros [HV Hbm Hf HW Hroom] Hu Hk. exists V, W, x. split; [|by exists u]. split; [by apply file_grown_refl|].
  split_and!; try done; [lia|]. intros _. pose proof (size_add (file_addr V x bn) (base x W)). lia.
Qed.

Lemma bmap_direct n V W x bn :
  fs_ok (S n) V W x → 0 ≤ bn < NDIRECT →
  runs 2 (ftx V W ∅ x) (bmap i bn) (bmapped n V W x bn) crash.
Proof.
  intros Hok Hbn. pose proof (fs_ok_room _ _ _ _ Hok) as Hr. pose proof Hok as [HV Hbm Hf HW Hroom].
  assert (Hmax : 0 ≤ bn < MAXFILE) by (change NDIRECT with 12 in *; change MAXFILE with 268; lia).
  assert (Hlt : (bn <? NDIRECT) = true) by (apply Z.ltb_lt, Hbn).
  assert (Haddr : i_addrs x !!! Z.to_nat bn = file_addr V x bn) by (unfold file_addr; by rewrite Hlt).
  apply runs_exists. intros u. unfold bmap. apply (runs_bind_eq _ 0 2 _ _ x _ _ _ (tx_inode_get _ u V W ∅ x)).
  rewrite Hlt, Haddr, (fo_dev _ _ _ Hf). destruct (Z.eqb_spec (file_addr V x bn) 0) as [E|E].
  - eapply (runs_bind 2 0); [apply (runs_ftx u), ftx_balloc; [done|done|apply op_apart_empty|rewrite map_size_empty; lia|done]|].
    intros a; cbn beta. apply runs_or; apply runs_pure; intros [Ha Hx]; apply runs_exists; intros u'.
    + destruct (Z.eqb_spec a 0); [done|].
      eapply (runs_bind 0 0); [apply tx_inode_set|]. intros []; cbn beta. apply runs_step. intros ks k Hk. exists a, k. split; [done|].
      eexists _, _, _. split; [|by exists u'].
      pose proof (grown_direct start sb Hsb V x bn a HV Hf Hbm Hmax E Hx (proj2 Hbn)) as G. split; [exact G|].
      pose proof (take_data sb V a Hbm Hx) as Hd.
      assert (Hb : base (x <| i_addrs ::= <[ Z.to_nat bn := a ]> |>) ({[ a ]} ∪ ({[ bmap_block ]} ∪ W)) = {[ a ]} ∪ base x W).
      { unfold base. rewrite ind_direct by done. cbn [i_inum set_field]. set_solver. }
      pose proof bmap_block_pos. split_and!; [by apply allocated_lens|not_written|done| |].
      * rewrite Hb. pose proof (size_add a (base x W)). lia.
      * intros _. rewrite Hb. rewrite (assoc_L (∪)). rewrite union_idemp_L. pose proof (size_add a (base x W)). lia.
    + subst a. cbn [Z.eqb]. apply runs_step. intros ks k Hk. exists 0, k. split; [done|].
      rewrite <- E. by apply (bmap_unchanged _ n V W x bn u').
  - apply (runs_mono _ 0); [lia|]. apply runs_step. intros ks k Hk. exists (file_addr V x bn), k. split; [done|].
    by apply (bmap_unchanged _ n V W x bn u).
Qed.

(** The part of bmap() after the indirect block is known. *)
Definition bmap_entry (dev addr bn : Z) : M kernel Z :=
  bp ← bread dev addr;
  d ← buf_data bp;
  let a := get32 d (4 * bn) in
  a ← (if a =? 0 then
         a ← balloc dev;
         when (truthy a)
           (set_data bp (λ d, put32 d (4 * bn) a) ;;
            log_write bp) ;;
         mret a
       else mret a);
  brelse bp ;;
  mret a.

Lemma ind_own V W n x : fs_ok n V W x → ind x ≠ 0 → own sb V (ind x).
Proof. intros Hok H0. destruct (fo_ind _ _ _ (ok_file _ _ _ _ Hok)); done. Qed.

Lemma op_apart_ind V W n x bp d : fs_ok n V W x → ind x ≠ 0 → op_apart sb V {[ ind x := (bp, d) ]}.
Proof.
  intros Hok H0 bno [y [<- _]%lookup_singleton_Some]. destruct (ind_own _ _ _ _ Hok H0) as [Hd Hu].
  split; [|done]. intros b Hb. by apply (data_not_bitmap start sb Hsb).
Qed.

(** The indirect block's buffer, with the contents the transaction sees. *)
Definition ind_open (x : inode) (bp : nat) (V : disk) : open_bufs := {[ ind x := (bp, dblock V (ind x)) ]}.

(** Adding an entry for the new block [a]. *)
Lemma bmap_add_entry n V W x bn a u bp :
  fs_ok (S n) V W x → NDIRECT ≤ bn < MAXFILE → ind x ≠ 0 → file_addr V x bn = 0 → a ≠ 0 → first_free sb V a →
  runs 0 (tx (rest u x) (allocated sb a V) ({[ a ]} ∪ ({[ bmap_block ]} ∪ W)) (ind_open x bp V))
    (set_data bp (λ d, put32 d (4 * (bn - NDIRECT)) a) ;; log_write bp)
    (λ _, bmapped_with (ind_open x bp) n V W x bn a) crash.
Proof.
  intros Hok Hbn H0 Hz Ha Hff. pose proof (ind_own _ _ _ _ Hok H0) as Hown. destruct Hok as [HV Hbm Hf HW Hroom].
  set (d := put32 (dblock V (ind x)) (4 * (bn - NDIRECT)) a).
  set (W1 := {[ ind x ]} ∪ ({[ a ]} ∪ ({[ bmap_block ]} ∪ W))).
  assert (Hb : base x W1 = {[ a ]} ∪ base x W) by (unfold base, W1; set_solver).
  pose proof (size_add a (base x W)) as Hs. assert (size W1 ≤ size (base x W1))%nat by (apply subseteq_size; unfold base; set_solver).
  eapply (runs_bind 0 0); [eapply (tx_set_data _ _ _ _ _ _ _ (ind x)); [apply lookup_singleton_eq|rewrite put32_length; apply HV]|].
  intros []; cbn beta. unfold ind_open at 1. rewrite insert_singleton_eq. fold d.
  eapply runs_post; [apply (tx_log_write start dk Hlens Hcap _ _ _ _ _ (ind x) bp d); [apply lookup_singleton_eq|]|].
  { fold W1. rewrite Hb in *. lia. }
  cbn beta. intros _ k Hk. fold W1 in Hk. eexists _, W1, x. split; [|exists u; unfold ind_open; by rewrite dblock_insert_eq].
  split; [apply (grown_entry start sb Hsb V x bn a); try done; change NDIRECT with 12 in *; lia|].
  pose proof bmap_block_pos. pose proof (own_pos start sb Hsb V _ Hown). split_and!; try done.
  - intros bno. destruct (decide (bno = ind x)) as [->|]; [rewrite dblock_insert_eq; unfold d; rewrite put32_length; apply HV|].
    rewrite dblock_insert_ne by done. by apply allocated_lens.
  - unfold W1. not_written.
  - rewrite Hb. lia.
  - intros _. rewrite Hb, (assoc_L (∪)), union_idemp_L. lia.
Qed.

Lemma bmap_entry_runs n V W x bn :
  fs_ok (S n) V W x → NDIRECT ≤ bn < MAXFILE → ind x ≠ 0 →
  runs 3 (ftx V W ∅ x) (bmap_entry ROOTDEV (ind x) (bn - NDIRECT)) (bmapped n V W x bn) crash.
Proof.
  intros Hok Hbn H0. pose proof (fs_ok_room _ _ _ _ Hok) as Hr. pose proof (ind_own _ _ _ _ Hok H0) as Hown.
  assert (Haddr : get32 (dblock V (ind x)) (4 * (bn - NDIRECT)) = file_addr V x bn).
  { unfold file_addr. rewrite (proj2 (Z.ltb_ge _ _) (proj1 Hbn)). by destruct (Z.eqb_spec (ind x) 0). }
  assert (Hr30 : (size W + size (∅ : open_bufs) < NBUF)%nat).
  { rewrite map_size_empty. change (Z.to_nat MAXOPBLOCKS) with 10%nat in Hr. change NBUF with 30%nat.
    assert (size W ≤ size ({[ bmap_block ]} ∪ W))%nat by (apply subseteq_size; set_solver). lia. }
  apply runs_exists. intros u. unfold bmap_entry.
  apply (runs_bind 1 2 _ _ (λ bp, tx (rest u x) V W (ind_open x bp V))).
  { apply tx_bread; try done. apply (home_data start sb Hsb), Hown. }
  intros bp. eapply (runs_bind_eq _ 0 2); [eapply (tx_buf_data _ _ _ _ _ _ _ (ind x)); apply lookup_singleton_eq|].
  cbv zeta. rewrite Haddr.
  apply (runs_bind 2 0 _ _ (bmapped_with (ind_open x bp) n V W x bn)).
  - destruct (Z.eqb_spec (file_addr V x bn) 0) as [E|E].
    + eapply (runs_bind 2 0).
      { apply (runs_ftx u), ftx_balloc; [apply Hok|apply Hok|by eapply op_apart_ind| |done]. unfold ind_open. rewrite map_size_singleton. lia. }
      intros a; cbn beta. apply runs_or; apply runs_pure; intros [Ha Hx]; apply runs_exists; intros u'.
      * unfold truthy. destruct (Z.eqb_spec a 0); [done|]. cbn [negb when].
        eapply (runs_bind 0 0); [by apply bmap_add_entry|]. intros []; cbn beta. apply runs_step. intros ks k Hk. by exists a, k.
      * subst a. cbn [truthy Z.eqb negb when]. eapply (runs_bind 0 0); [apply (runs_ret tt (λ _, tx (rest u' x) V W (ind_open x bp V)))|].
        intros []; cbn beta. apply runs_step. intros ks k Hk. exists 0, k. split; [done|]. rewrite <- E.
        by apply (bmap_unchanged _ n V W x bn u').
    + apply (runs_mono _ 0); [lia|]. apply runs_step. intros ks k Hk. exists (file_addr V x bn), k. split; [done|].
      by apply (bmap_unchanged _ n V W x bn u).
  - intros a. unfold bmapped_with. do 3 (apply runs_exists; intros ?). apply runs_pure. intros H. apply runs_exists. intros u'.
    eapply (runs_bind 0 0); [eapply (tx_brelse _ _ _ _ _ _ _ (ind x) bp); apply lookup_singleton_eq|].
    intros []; cbn beta. apply runs_step. intros ks k Hk. exists a, k. split; [done|]. eexists _, _, _. split; [exact H|].
    exists u'. unfold ind_open in Hk. by rewrite delete_singleton_eq in Hk.
Qed.

(** The file with a new indirect block. *)
Lemma fs_ok_indirect n V W x bn a :
  fs_ok (S n) V W x → NDIRECT ≤ bn < MAXFILE → ind x = 0 → a ≠ 0 → first_free sb V a →
  let x' := x <| i_addrs ::= <[ Z.to_nat NDIRECT := a ]> |> in
  let W' := {[ a ]} ∪ ({[ bmap_block ]} ∪ W) in
  grown sb V x bn 0 (allocated sb a V) x' ∧ ind x' = a ∧ fs_ok (S n) (allocated sb a V) W' x'.
Proof.
  intros [HV Hbm Hf HW Hroom] Hbn H0 Ha Hff x' W'.
  assert (Hz : file_addr V x bn = 0).
  { unfold file_addr. by rewrite (proj2 (Z.ltb_ge _ _) (proj1 Hbn)), H0. }
  assert (Hbn' : 0 ≤ bn < MAXFILE) by (change NDIRECT with 12 in Hbn; lia).
  pose proof (grown_indirect start sb Hsb V x bn a HV Hf Hbm Hff H0) as G.
  assert (Hind : ind x' = a) by (unfold ind, x'; cbn; apply list_lookup_total_insert_eq; rewrite (fo_len _ _ _ Hf); by_eval).
  split; [done|]. split; [done|]. pose proof bmap_block_pos. split; try apply G.
  - by apply allocated_lens.
  - unfold W'. not_written.
  - set (Y := {[ bmap_block ]} ∪ ({[ IBLOCK (i_inum x) sb ]} ∪ W)).
    assert (Hb : base x' W' = {[ a ]} ∪ Y) by (unfold base, W', Y; rewrite Hind; change (i_inum x') with (i_inum x); set_solver).
    assert (HY : (0 : Z) ∉ Y).
    { pose proof (IBLOCK_range start sb Hsb _ (fo_inum _ _ _ Hf)). pose proof (so_log _ _ Hsb). pose proof log_cap_ok.
      unfold Y. not_written. }
    unfold base in Hroom. rewrite H0 in Hroom. fold Y in Hroom.
    rewrite size_union_alt, size_singleton in Hroom. rewrite difference_disjoint_L in Hroom by set_solver.
    rewrite Hb. pose proof (size_add a Y). lia.
Qed.

Lemma bmapped_trans n V W x bn V1 W1 x1 a k :
  grown sb V x bn 0 V1 x1 → file_addr V x bn = 0 → 0 ≤ bn < MAXFILE →
  bmapped n V1 W1 x1 bn a k → bmapped n V W x bn a k.
Proof.
  intros G Hz Hbn (V' & W' & x' & (G' & H) & Hk). exists V', W', x'. split; [|done]. split; [|done].
  by apply (file_grown_trans start sb Hsb V x bn V1 x1).
Qed.

(** The part of bmap() that finds or allocates the indirect block. *)
Definition bmap_load (dev addr : Z) : M kernel Z :=
  if addr =? 0 then
    addr ← balloc dev;
    when (truthy addr) (inode_set i (λ x, x <| i_addrs ::= <[ Z.to_nat NDIRECT := addr ]> |>)) ;;
    mret addr
  else mret addr.

(** The transaction once the indirect block of the file is known to exist. *)
Definition loaded (n : nat) (V : disk) (W : gset Z) (x : inode) (bn a : Z) (k : kernel) : Prop :=
  ∃ V1 W1 x1, (a ≠ 0 ∧ ind x1 = a ∧ fs_ok (S n) V1 W1 x1 ∧
    ((V1 = V ∧ W1 = W ∧ x1 = x) ∨ grown sb V x bn 0 V1 x1 ∧ file_addr V x bn = 0)) ∧ ftx V1 W1 ∅ x1 k.

Lemma bmap_load_runs n V W x bn :
  fs_ok (S n) V W x → NDIRECT ≤ bn < MAXFILE →
  runs 2 (ftx V W ∅ x) (bmap_load ROOTDEV (ind x))
    (λ a k, loaded n V W x bn a k ∨ (a = 0 ∧ file_addr V x bn = 0 ∧ all_in_use V) ∧ ftx V W ∅ x k) crash.
Proof.
  intros Hok Hbn. pose proof (fs_ok_room _ _ _ _ Hok) as Hr. unfold bmap_load.
  destruct (Z.eqb_spec (ind x) 0) as [E|E].
  - assert (Hz : file_addr V x bn = 0) by (unfold file_addr; by rewrite (proj2 (Z.ltb_ge _ _) (proj1 Hbn)), E).
    eapply (runs_bind 2 0).
    { apply ftx_balloc; [apply Hok|apply Hok|apply op_apart_empty|rewrite map_size_empty; lia|done]. }
    intros a; cbn beta. apply runs_or; apply runs_pure; intros [Ha Hx]; apply runs_exists; intros u.
    + unfold truthy. destruct (Z.eqb_spec a 0); [done|]. cbn [negb when].
      eapply (runs_bind 0 0); [apply tx_inode_set|]. intros []; cbn beta. apply runs_step. intros ks k Hk. exists a, k.
      split; [done|]. left. destruct (fs_ok_indirect n V W x bn a Hok Hbn E Ha Hx) as (G & Hind & Hok1).
      eexists _, _, _. split; [|by exists u]. split_and!; try done. by right.
    + apply runs_step. intros ks k Hk. exists a, k. subst a. split; [done|]. right. split; [done|]. by exists u.
  - apply (runs_mono _ 0); [lia|]. apply runs_step. intros ks k Hk. exists (ind x), k. split; [done|]. left.
    exists V, W, x. split; [|done]. split_and!; try done. by left.
Qed.

(** bmap() finds or allocates the block. *)
Lemma bmap_runs n V W x bn :
  fs_ok (S n) V W x → 0 ≤ bn < MAXFILE → runs 5 (ftx V W ∅ x) (bmap i bn) (bmapped n V W x bn) crash.
Proof.
  intros Hok Hbn. destruct (decide (bn < NDIRECT)) as [Hlt|Hge].
  { eapply (runs_mono _ 2); [lia|]. apply bmap_direct; [done|lia]. }
  assert (Hbn' : NDIRECT ≤ bn < MAXFILE) by lia.
  apply runs_exists. intros u. unfold bmap. apply (runs_bind_eq _ 0 5 _ _ x _ _ _ (tx_inode_get _ u V W ∅ x)).
  rewrite (proj2 (Z.ltb_ge _ _) (proj1 Hbn')). cbv zeta.
  assert ((bn - NDIRECT <? NINDIRECT) = true) as -> by (apply Z.ltb_lt; change MAXFILE with (NDIRECT + NINDIRECT) in Hbn; lia).
  fold (ind x). rewrite (fo_dev _ _ _ (ok_file _ _ _ _ Hok)).
  apply (runs_bind 2 3 _ _ _ _ _ _ (runs_ftx u _ _ _ _ _ _ _ _ (bmap_load_runs n V W x bn Hok Hbn'))).
  intros a. apply runs_or.
  - unfold loaded. apply runs_exists; intros V1. apply runs_exists; intros W1. apply runs_exists; intros x1.
    apply runs_pure. intros (Ha & <- & Hok1 & Hor). destruct (Z.eqb_spec (ind x1) 0); [done|].
    eapply runs_post; [by apply bmap_entry_runs|]. cbn beta. intros a k Hk.
    destruct Hor as [(-> & -> & ->)|[G Hz]]; [done|]. by apply (bmapped_trans n V W x bn V1 W1 x1).
  - apply runs_pure. intros (-> & Hz & Hall). cbn [Z.eqb]. apply (runs_mono _ 0); [lia|]. apply runs_exists. intros u'.
    apply runs_step. intros ks k Hk. exists 0, k. split; [done|]. rewrite <- Hz. by apply (bmap_unchanged _ n V W x bn u').
Qed.

(** ** Writing *)

Lemma iupdate_runs V W x :
  lens V → file_ok sb V x → (size ({[ IBLOCK (i_inum x) sb ]} ∪ W) ≤ Z.to_nat MAXOPBLOCKS)%nat →
  runs 1 (ftx V W ∅ x) (iupdate i)
    (λ _, ftx (<[ IBLOCK (i_inum x) sb := write_dinode x (dblock V (IBLOCK (i_inum x) sb)) ]> V)
              ({[ IBLOCK (i_inum x) sb ]} ∪ W) ∅ x) crash.
Proof.
  intros HV Hf HW. apply runs_exists. intros u. unfold iupdate.
  apply (runs_bind_eq _ 0 1 _ _ x _ _ _ (tx_inode_get _ u V W ∅ x)).
  apply (runs_bind_eq _ 0 1 _ _ sb _ _ _ (tx_gets start dk _ (rest u x) V W ∅ k_sb ltac:(done))).
  rewrite (fo_dev _ _ _ Hf). set (ib := IBLOCK (i_inum x) sb) in *.
  eapply runs_post; [apply (tx_update start dk Hlens Hcap (rest u x) V W ∅ ib (write_dinode x)); try done|].
  - apply (home_IBLOCK start sb Hsb), Hf.
  - rewrite map_size_empty. change (Z.to_nat MAXOPBLOCKS) with 10%nat in HW. change NBUF with 30%nat.
    assert (size W ≤ size ({[ ib ]} ∪ W))%nat by (apply subseteq_size; set_solver). lia.
  - rewrite write_dinode_length. apply HV.
  - cbn beta. intros _ k Hk. by exists u.
Qed.

(** Overwriting a block of the file. *)
Lemma file_addr_data V x a d bn : a ≠ ind x → file_addr (<[ a := d ]> V) x bn = file_addr V x bn.
Proof. intros Hne. apply file_addr_frame. intros _. by rewrite dblock_insert_ne. Qed.

Lemma file_ok_other V x a d :
  file_ok sb V x → (∀ b, 0 ≤ b < sb_size sb → BBLOCK b sb ≠ a) → a ≠ ind x → file_ok sb (<[ a := d ]> V) x.
Proof.
  intros [F1 F2 F3 F4 F5 F6 F7 F8] Hd Hne.
  assert (Hown : ∀ b, own sb V b → own sb (<[ a := d ]> V) b).
  { intros b Hb. destruct (own_pos start sb Hsb V b Hb). destruct Hb as [Hb Hu]. split; [done|]. unfold block_used.
    rewrite dblock_insert_ne; [done|]. intros E. by apply (Hd b). }
  split; try done.
  - destruct F4; [by left|right; auto].
  - intros bn Hbn. rewrite file_addr_data by done. destruct (F5 bn Hbn) as [E|[E1 E2]]; [by left|right; auto].
  - intros b1 b2 H1 H2. rewrite !file_addr_data by done. by apply F6.
  - intros b Hb Hs. rewrite file_addr_data by done. by apply F8.
Qed.

Lemma file_byte_write V x bn o0 c o :
  file_ok sb V x → lens V → 0 ≤ bn < MAXFILE → file_addr V x bn ≠ 0 → 0 ≤ o0 → o0 / BSIZE = bn →
  o0 mod BSIZE + Z.of_nat (length c) ≤ BSIZE → 0 ≤ o → o / BSIZE < MAXFILE → file_addr V x (o / BSIZE) ≠ 0 →
  file_byte (<[ file_addr V x bn := put_bytes (dblock V (file_addr V x bn)) (o0 mod BSIZE) c ]> V) x o =
  if decide (o0 ≤ o < o0 + Z.of_nat (length c)) then c !!! Z.to_nat (o - o0) else file_byte V x o.
Proof.
  intros Hf HV Hbn Hne H0 Hdiv Hlen Ho Hmax Hoa. unfold file_byte.
  destruct (fo_addr _ _ _ Hf bn Hbn) as [E|[Hown Hni]]; [done|]. rewrite file_addr_data by done.
  pose proof (Z.div_mod o BSIZE ltac:(done)) as Do. pose proof (Z.mod_pos_bound o BSIZE ltac:(done)) as Mo.
  pose proof (Z.div_mod o0 BSIZE ltac:(done)) as D0. pose proof (Z.mod_pos_bound o0 BSIZE ltac:(done)) as M0.
  assert (0 ≤ o / BSIZE) by (apply Z.div_pos; done || lia). change BSIZE with 1024 in *.
  destruct (decide (o / 1024 = bn)) as [Eb|Nb].
  - rewrite Eb, dblock_insert_eq. unfold byte_at. rewrite !list_lookup_total_alt, put_bytes_lookup by (rewrite ?HV; lia).
    destruct (decide (o0 ≤ o < o0 + Z.of_nat (length c))).
    + rewrite decide_True by lia. do 2 f_equal. lia.
    + rewrite decide_False by lia. done.
  - rewrite decide_False.
    + rewrite dblock_insert_ne; [done|]. intros E. apply Nb. apply (fo_inj _ _ _ Hf); try done; lia.
    + intros Hin. apply Nb. rewrite <- Hdiv. symmetry. apply (Z.div_unique_pos _ _ _ (o0 mod 1024 + (o - o0))); lia.
Qed.

(** A block of the file whose address is known keeps its byte when the file
    grows. *)
Lemma grown_byte V x bn a V' x' o :
  file_ok sb V x → grown sb V x bn a V' x' → 0 ≤ o → o / BSIZE < MAXFILE → file_addr V x (o / BSIZE) ≠ 0 →
  file_byte V' x' o = file_byte V x o.
Proof.
  intros Hf G Ho Hmax Hne. assert (0 ≤ o / BSIZE) by (apply Z.div_pos; done || lia). unfold file_byte.
  rewrite (gw_old _ _ _ _ _ _ _ G) by done. destruct (fo_addr _ _ _ Hf (o / BSIZE)) as [E|[Hown Hni]]; [lia|done|].
  by rewrite (gw_data _ _ _ _ _ _ _ G).
Qed.

Section writing.
Context (V0 : disk) (x0 : inode) (off : Z) (bs : list Z).
#[local] Abbreviation n := (Z.of_nat (length bs)).
Hypothesis Hf0 : file_ok sb V0 x0.
Hypothesis Hoff : 0 ≤ off ≤ i_size x0.
Hypothesis Hend : off + n ≤ MAXFILE * BSIZE.

(** After [tot] bytes. *)
Record written (tot : Z) (V : disk) (x : inode) : Prop := {
  wr_inode : x = x0 <| i_addrs := i_addrs x |>;
  wr_old : ∀ bn, 0 ≤ bn < MAXFILE → file_addr V0 x0 bn ≠ 0 → file_addr V x bn = file_addr V0 x0 bn;
  wr_addr : ∀ bn, 0 ≤ bn < MAXFILE → file_addr V x bn ≠ 0 → file_addr V0 x0 bn = 0 →
    block_used sb V0 (file_addr V x bn) = false;
  wr_new : ∀ o, off ≤ o < off + tot → file_addr V x (o / BSIZE) ≠ 0;
  wr_bytes : ∀ o, 0 ≤ o → o < i_size x0 ∨ off ≤ o < off + tot →
    file_byte V x o = if decide (off ≤ o < off + tot) then bs !!! Z.to_nat (o - off) else file_byte V0 x0 o;
  wr_frame : ∀ b, own sb V0 b → b ≠ ind x0 → (∀ bn, 0 ≤ bn < MAXFILE → file_addr V0 x0 bn ≠ b) → dblock V b = dblock V0 b;
  wr_meta : ∀ b, b < sb_bmapstart sb → dblock V b = dblock V0 b;
  wr_used : ∀ b, 0 ≤ b < sb_size sb → block_used sb V0 b = true → block_used sb V b = true;
  wr_ind : ind x = ind x0 ∨ ind x0 = 0 ∧ block_used sb V0 (ind x) = false;
}.

Lemma written_start : written 0 V0 x0.
Proof.
  split; try done; [by destruct x0|by intros; lia| |by left].
  intros o Ho _. by rewrite decide_False by lia.
Qed.

Lemma written_grown tot V x bn a V' x' :
  file_ok sb V x → tot ≤ n → written tot V x → grown sb V x bn a V' x' → 0 ≤ bn < MAXFILE → written tot V' x'.
Proof.
  intros Hf Htot [W1 W2 W3 W4 W5 W6 W7 W8 W9] G Hbn.
  assert (Hnu : ∀ b, 0 ≤ b < sb_size sb → block_used sb V b = false → block_used sb V0 b = false).
  { intros b Hb Hu. destruct (block_used sb V0 b) eqn:E; [|done]. by rewrite (W8 b Hb E) in Hu. }
  pose proof (fo_size _ _ _ Hf0) as Hsz. split.
  - rewrite (gw_inode _ _ _ _ _ _ _ G), W1. by destruct x0.
  - intros bn' Hb Hne. rewrite (gw_old _ _ _ _ _ _ _ G); [by apply W2|done|]. by rewrite W2.
  - intros bn' Hb Hne Hz. destruct (decide (file_addr V x bn' = 0)) as [E|E].
    + destruct (decide (bn' = bn)) as [->|Hnb]; [|exfalso; apply Hne; apply (gw_none _ _ _ _ _ _ _ G); auto].
      destruct (decide (a = 0)) as [->|Ha]; [exfalso; apply Hne; apply (gw_none _ _ _ _ _ _ _ G); auto|].
      destruct (fo_addr _ _ _ (gw_ok _ _ _ _ _ _ _ G) bn Hb) as [|[Hown _]]; [done|].
      apply Hnu; [by apply (own_pos start sb Hsb V')|]. rewrite (gw_addr _ _ _ _ _ _ _ G Ha). by apply (gw_new _ _ _ _ _ _ _ G Ha).
    + rewrite (gw_old _ _ _ _ _ _ _ G) by done. by apply W3.
  - intros o Ho. pose proof (W4 o Ho). rewrite (gw_old _ _ _ _ _ _ _ G); [done|apply block_lt; lia|done].
  - intros o Ho Hor. rewrite (grown_byte V x bn a V' x' o Hf G Ho); [by apply W5|apply block_lt; lia|].
    destruct (decide (off ≤ o < off + tot)); [by apply W4|]. destruct Hor as [Hlt|]; [|done].
    assert (file_addr V0 x0 (o / BSIZE) ≠ 0).
    { apply (fo_full _ _ _ Hf0); [apply block_lt; lia|]. pose proof (Z.mul_div_le o BSIZE ltac:(done)). lia. }
    rewrite W2; [done|apply block_lt; lia|done].
  - intros b Hb Hni Hnf. rewrite (gw_data _ _ _ _ _ _ _ G); [by apply W6| |].
    + destruct (own_pos start sb Hsb V0 b Hb), Hb as [Hd Hu]. split; [done|]. by apply W8.
    + intros ->. destruct W9 as [E|[_ E]]; [done|]. by rewrite (proj2 Hb) in E.
  - intros b Hb. rewrite (gw_meta _ _ _ _ _ _ _ G); auto.
  - intros b Hb Hu. apply (gw_used _ _ _ _ _ _ _ G); auto.
  - destruct (gw_ind _ _ _ _ _ _ _ G) as [E|(E1 & E2 & E3)]; [by rewrite E|].
    assert (Hz : ind x0 = 0) by (destruct W9 as [E|[E _]]; congruence).
    right. split; [done|]. apply Hnu; [by apply (own_pos start sb Hsb V')|done].
Qed.

Lemma written_write tot V x :
  let o := off + tot in
  let a := file_addr V x (o / BSIZE) in
  let m := io_min n tot o in
  file_ok sb V x → lens V → 0 ≤ tot < n → written tot V x → a ≠ 0 →
  written (tot + m) (<[ a := put_bytes (dblock V a) (o mod BSIZE) (bytes_at bs tot m) ]> V) x.
Proof.
  intros o a m Hf HV Htot [W1 W2 W3 W4 W5 W6 W7 W8 W9] Ha. pose proof (io_min_bounds n tot o ltac:(lia)) as [Hm1 Hm2]. fold m in Hm1, Hm2.
  assert (Hbn : 0 ≤ o / BSIZE < MAXFILE) by (apply block_lt; unfold o; lia).
  assert (Hlen : length (bytes_at bs tot m) = Z.to_nat m) by (apply bytes_at_length; lia).
  destruct (fo_addr _ _ _ Hf _ Hbn) as [E|[Hown Hni]]; [done|]. fold a in Hown, Hni.
  assert (Hrange : ∀ o', o ≤ o' < o + m → o' / BSIZE = o / BSIZE).
  { intros o' Ho'. symmetry. apply (Z.div_unique_pos _ _ _ (o mod BSIZE + (o' - o))); pose proof (Z.div_mod o BSIZE ltac:(done));
      pose proof (Z.mod_pos_bound o BSIZE ltac:(done)); lia. }
  assert (Hnew : ∀ o', off ≤ o' < off + (tot + m) → file_addr V x (o' / BSIZE) ≠ 0).
  { intros o' Ho'. destruct (decide (o' < o)); [apply W4; unfold o in *; lia|]. rewrite Hrange by (unfold o in *; lia). done. }
  pose proof (fo_size _ _ _ Hf0) as Hsz. split; try done.
  - intros bn Hb Hne. rewrite file_addr_data by done. by apply W2.
  - intros bn Hb. rewrite file_addr_data by done. by apply W3.
  - intros o' Ho'. rewrite file_addr_data by done. by apply Hnew.
  - intros o' Ho' Hor. assert (Hmax : o' / BSIZE < MAXFILE) by (apply block_lt; lia).
    unfold a. rewrite (file_byte_write V x (o / BSIZE) o); rewrite ?Hlen; try done; [|unfold o; lia|lia|].
    + rewrite Z2Nat.id by lia. destruct (decide (o ≤ o' < o + m)) as [Hin|Hout].
      * rewrite decide_True by (unfold o in *; lia). rewrite !list_lookup_total_alt, bytes_at_lookup by lia.
        rewrite decide_True by lia. do 2 f_equal. unfold o in *. lia.
      * rewrite W5 by (unfold o in *; lia). destruct (decide (off ≤ o' < off + tot)).
        -- by rewrite decide_True by (unfold o in *; lia).
        -- by rewrite decide_False by (unfold o in *; lia).
    + destruct (decide (off ≤ o' < off + (tot + m))); [by apply Hnew|]. destruct Hor as [Hlt|]; [|done].
      assert (file_addr V0 x0 (o' / BSIZE) ≠ 0).
      { apply (fo_full _ _ _ Hf0); [apply Z.div_pos; done|]. pose proof (Z.mul_div_le o' BSIZE ltac:(done)). lia. }
      rewrite W2; [done| |done]. split; [by apply Z.div_pos|done].
  - intros b Hb Hi' Hnf. rewrite dblock_insert_ne; [by apply W6|]. intros Eab.
    destruct (decide (file_addr V0 x0 (o / BSIZE) = 0)) as [Ez|Ez].
    + specialize (W3 _ Hbn Ha Ez). fold a in W3. rewrite Eab in W3. by rewrite (proj2 Hb) in W3.
    + apply (Hnf _ Hbn). by rewrite <- W2.
  - intros b Hb. destruct Hown as [Hd _]. unfold data_block in Hd. pose proof (data_start_bound start sb Hsb).
    rewrite dblock_insert_ne by lia. by apply W7.
  - intros b Hb Hu. rewrite (used_data start) by (done || apply Hown). by apply W8.
Qed.

Definition write_inv (tot : Z) (k : kernel) : Prop :=
  ∃ V W x, (written tot V x ∧ fs_ok (turns off n tot) V W x ∧ 0 ≤ tot ≤ n) ∧ ftx V W ∅ x k.
Definition write_done (tot : Z) (k : kernel) : Prop :=
  ∃ V W x, (written tot V x ∧ fs_ok 0 V W x ∧ 0 ≤ tot ≤ n ∧ (tot < n → all_in_use V)) ∧ ftx V W ∅ x k.

(** The block found by bmap() is changed and logged. *)
Lemma write_block u V W x t tot :
  let o := off + tot in
  let a := file_addr V x (o / BSIZE) in
  let m := io_min n tot o in
  file_ok sb V x → lens V → bitmap_ok sb V → (0 ∉ W) → 0 ≤ tot < n → written tot V x → a ≠ 0 →
  (size ({[ a ]} ∪ base x W) + t ≤ Z.to_nat MAXOPBLOCKS)%nat → (turns off n (tot + m) ≤ t)%nat →
  runs 1 (tx (rest u x) V W ∅)
    (bp ← bread ROOTDEV a;
     r ← copy_from (Local bs) tot m;
     set_data bp (λ d, put_bytes d (o mod BSIZE) r.2) ;;
     if (r.1 : Z) =? -1 then
       brelse bp ;;
       mret (inr tot)
     else
       log_write bp ;;
       brelse bp ;;
       mret (inl (tot + m)))
    (λ r k, match r with inl tot' => tot' = tot + m ∧ write_inv tot' k | inr _ => False end) crash.
Proof.
  intros o a m Hf HV Hbm HW Htot Hwr Ha Hroom Ht. pose proof (io_min_bounds n tot o ltac:(lia)) as [Hm1 Hm2]. fold m in Hm1, Hm2.
  destruct (fo_addr _ _ _ Hf (o / BSIZE)) as [E|[Hown Hni]]; [apply block_lt; unfold o; lia|done|]. fold a in Hown, Hni.
  set (d := put_bytes (dblock V a) (o mod BSIZE) (bytes_at bs tot m)).
  assert (HWa : (size ({[ a ]} ∪ W) ≤ Z.to_nat MAXOPBLOCKS)%nat).
  { assert (size ({[ a ]} ∪ W) ≤ size ({[ a ]} ∪ base x W))%nat by (apply subseteq_size; unfold base; set_solver). lia. }
  apply (runs_bind 1 0 _ _ (λ bp, tx (rest u x) V W {[ a := (bp, dblock V a) ]})).
  { apply tx_bread; try done; [by apply (home_data start sb Hsb), Hown|]. rewrite map_size_empty.
    change (Z.to_nat MAXOPBLOCKS) with 10%nat in HWa. change NBUF with 30%nat.
    assert (size W ≤ size ({[ a ]} ∪ W))%nat by (apply subseteq_size; set_solver). lia. }
  intros bp. apply (runs_bind_eq _ 0 0 _ _ (0, bytes_at bs tot m) (tx (rest u x) V W {[ a := (bp, dblock V a) ]})).
  { apply runs_step. intros ks k Hk. by exists (0, bytes_at bs tot m), k. }
  cbn [fst snd]. change (0 =? -1) with false. cbv iota.
  eapply (runs_bind 0 0); [eapply (tx_set_data _ _ _ _ _ _ _ a); [apply lookup_singleton_eq|rewrite put_bytes_length; apply HV]|].
  intros []; cbn beta. rewrite insert_singleton_eq. fold d.
  eapply (runs_bind 0 0); [apply (tx_log_write start dk Hlens Hcap _ _ _ _ _ a bp d); [apply lookup_singleton_eq|done]|].
  intros []; cbn beta.
  eapply (runs_bind 0 0); [eapply (tx_brelse _ _ _ _ _ _ _ a bp); by rewrite lookup_singleton_eq, dblock_insert_eq|].
  intros []; cbn beta. rewrite delete_singleton_eq. apply runs_step. intros ks k Hk. exists (inl (tot + m)), k. split; [done|].
  split; [done|]. exists (<[ a := d ]> V), ({[ a ]} ∪ W), x. split; [|by exists u].
  split; [by apply written_write|]. split; [|lia]. pose proof (own_pos start sb Hsb V a Hown). split.
  - intros bno. destruct (decide (bno = a)) as [->|]; [rewrite dblock_insert_eq; unfold d; rewrite put_bytes_length; apply HV|].
    by rewrite dblock_insert_ne.
  - intros b Hb. rewrite (used_data start) by (done || apply Hown). by apply Hbm.
  - apply file_ok_other; [done| |done]. intros b Hb. apply (data_not_bitmap start sb Hsb); [apply Hown|done].
  - not_written.
  - assert (base x ({[ a ]} ∪ W) = {[ a ]} ∪ base x W) as -> by (unfold base; set_solver). lia.
Qed.

Lemma writei_body_runs tot :
  runs 6 (write_inv tot) (writei_body i (Local bs) off n tot)
    (λ r k, match r with inl tot' => (turns off n tot' < turns off n tot)%nat ∧ write_inv tot' k | inr t => write_done t k end) crash.
Proof.
  unfold write_inv at 1. apply runs_exists. intros V. apply runs_exists. intros W. apply runs_exists. intros x.
  apply runs_pure. intros (Hwr & Hok & Htot). unfold writei_body. destruct (Z.ltb_spec tot n) as [Hlt|Hge].
  2:{ apply (runs_mono _ 0); [lia|]. apply runs_step. intros ks k Hk. exists (inr tot), k. split; [done|].
      exists V, W, x. split; [|done]. split_and!; try done; try lia. destruct Hok. split; try done. lia. }
  cbv zeta. rewrite turns_pos in Hok by lia. set (t := (turns off n tot - 1)%nat) in *. set (o := off + tot).
  assert (Hbn : 0 ≤ o / BSIZE < MAXFILE) by (apply block_lt; unfold o; lia).
  apply (runs_bind 5 1 _ _ _ _ _ _ (bmap_runs t V W x (o / BSIZE) Hok Hbn)). intros a. unfold bmapped_with.
  apply runs_exists. intros V1. apply runs_exists. intros W1. apply runs_exists. intros x1. apply runs_pure.
  intros (G & HV1 & HW1 & Hfull & Hroom & Hrooma). pose proof (written_grown tot V x _ a V1 x1 (ok_file _ _ _ _ Hok) ltac:(lia) Hwr G Hbn) as Hwr1.
  pose proof (gw_ok _ _ _ _ _ _ _ G) as Hf1. apply runs_exists. intros u. destruct (Z.eqb_spec a 0) as [->|Ha].
  - apply (runs_mono _ 0); [lia|]. apply runs_step. intros ks k Hk. exists (inr tot), k. split; [done|].
    exists V1, W1, x1. split; [|by exists u]. split_and!; try done; try lia; [|by intros _; apply Hfull].
    split; try done; [apply G|lia].
  - apply (runs_bind_eq _ 0 1 _ _ x1 _ _ _ (tx_inode_get _ u V1 W1 ∅ x1)). rewrite (fo_dev _ _ _ Hf1).
    pose proof (gw_addr _ _ _ _ _ _ _ G Ha) as Ea. pose proof (turns_next off n tot ltac:(lia)) as Hnext. rewrite <- Ea.
    eapply runs_post; [apply (write_block u V1 W1 x1 t tot); try done; [apply G|lia|fold o; congruence|fold o; rewrite Ea; auto|]|].
    + fold o in Hnext |- *. unfold t. lia.
    + cbn beta. intros [tot'|] k; [|done]. intros [-> Hk]. split; [lia|done].
Qed.

(** What writei() has done when it returns [r]. *)
Record write_result (r : Z) (V : disk) (x : inode) : Prop := {
  rs_count : 0 ≤ r ≤ n ∧ (r < n → all_in_use V);
  rs_ok : file_ok sb V x;
  rs_bitmap : bitmap_ok sb V;
  rs_inode : x = x0 <| i_addrs := i_addrs x |> <| i_size := Z.max (i_size x0) (off + r) |>;
  rs_bytes : ∀ o, 0 ≤ o < i_size x →
    file_byte V x o = if decide (off ≤ o < off + r) then bs !!! Z.to_nat (o - off) else file_byte V0 x0 o;
  rs_disk : dblock V (IBLOCK (i_inum x0) sb) = write_dinode x (dblock V0 (IBLOCK (i_inum x0) sb));
  rs_frame : ∀ b, own sb V0 b → b ≠ ind x0 → (∀ bn, 0 ≤ bn < MAXFILE → file_addr V0 x0 bn ≠ b) → dblock V b = dblock V0 b;
  rs_meta : ∀ b, b < sb_bmapstart sb → b ≠ IBLOCK (i_inum x0) sb → dblock V b = dblock V0 b;
  rs_used : ∀ b, 0 ≤ b < sb_size sb → block_used sb V0 b = true → block_used sb V b = true;
}.

Lemma file_ok_size V x r :
  file_ok sb V x → written r V x → 0 ≤ r ≤ n →
  file_ok sb V (x <| i_size := Z.max (i_size x0) (off + r) |>).
Proof.
  intros [F1 F2 F3 F4 F5 F6 F7 F8] Hw Hr. assert (Hs : i_size x = i_size x0) by (by rewrite (wr_inode _ _ _ Hw)).
  split; try done; cbn; [lia|]. intros bn Hb Hlt. change (file_addr V x bn ≠ 0).
  destruct (decide (bn * BSIZE < i_size x)); [by apply F8|].
  replace bn with (bn * BSIZE / BSIZE) by (by rewrite Z.div_mul). apply (wr_new _ _ _ Hw). change BSIZE with 1024 in *. lia.
Qed.

(** The inode is written to its block. *)
Lemma write_finish r V x :
  let x' := x <| i_size := Z.max (i_size x0) (off + r) |> in
  let ib := IBLOCK (i_inum x0) sb in
  file_ok sb V x → bitmap_ok sb V → written r V x → 0 ≤ r ≤ n → (r < n → all_in_use V) →
  write_result r (<[ ib := write_dinode x' (dblock V ib) ]> V) x'.
Proof.
  intros x' ib Hf Hbm Hw Hr Hfull. pose proof (file_ok_size V x r Hf Hw Hr) as Hf'. fold x' in Hf'.
  pose proof (IBLOCK_range start sb Hsb _ (fo_inum _ _ _ Hf0)) as Hib. fold ib in Hib. pose proof (data_start_bound start sb Hsb) as Hds.
  assert (Hnb : ∀ b, 0 ≤ b < sb_size sb → BBLOCK b sb ≠ ib) by (intros b Hb; pose proof (BBLOCK_range start sb Hsb b Hb); lia).
  assert (Hnd : ∀ b, data_block sb b → ib ≠ b) by (intros b Hb; unfold data_block in Hb; lia).
  assert (Hni : ib ≠ ind x').
  { change (ind x') with (ind x). destruct (fo_ind _ _ _ Hf) as [E|[Hd _]]; [|by apply Hnd]. pose proof (so_log _ _ Hsb).
    pose proof log_cap_ok. lia. }
  assert (Hu : ∀ b d, 0 ≤ b < sb_size sb → block_used sb (<[ ib := d ]> V) b = block_used sb V b).
  { intros b d Hb. unfold block_used. rewrite dblock_insert_ne; [done|]. intros E. by apply (Hnb b). }
  assert (Hs : i_size x = i_size x0) by (by rewrite (wr_inode _ _ _ Hw)). split.
  - split; [done|]. intros Hlt b Hb. rewrite Hu by done. by apply Hfull.
  - by apply file_ok_other.
  - intros b Hb. rewrite Hu by done. by apply Hbm.
  - unfold x'. rewrite (wr_inode _ _ _ Hw). by destruct x0.
  - intros o Ho. assert (Hb : 0 ≤ o / BSIZE < MAXFILE) by (apply block_lt; pose proof (fo_size _ _ _ Hf'); lia).
    unfold file_byte at 1. rewrite file_addr_data by done. rewrite dblock_insert_ne.
    + apply (wr_bytes _ _ _ Hw); [lia|]. unfold x' in Ho. cbn in Ho. lia.
    + destruct (fo_addr _ _ _ Hf' _ Hb) as [E|[[Hd _] _]]; [|by apply Hnd]. rewrite E. pose proof (so_log _ _ Hsb). pose proof log_cap_ok. lia.
  - rewrite dblock_insert_eq. f_equal. apply (wr_meta _ _ _ Hw). lia.
  - intros b Hb H1 H2. rewrite dblock_insert_ne by (by apply Hnd, Hb). by apply (wr_frame _ _ _ Hw).
  - intros b Hb Hne. rewrite dblock_insert_ne by done. by apply (wr_meta _ _ _ Hw).
  - intros b Hb Hub. rewrite Hu by done. by apply (wr_used _ _ _ Hw).
Qed.

Definition writei_tail (tot : Z) : M kernel Z :=
  x1 ← inode_get i;
  when (i_size x1 <? off + tot) (inode_set i (λ x, x <| i_size := off + tot |>)) ;;
  iupdate i ;;
  mret tot.

Lemma writei_tail_runs tot :
  runs 1 (write_done tot) (writei_tail tot)
    (λ r k, ∃ V W x, (write_result r V x ∧ (size W ≤ Z.to_nat MAXOPBLOCKS)%nat) ∧ ftx V W ∅ x k) crash.
Proof.
  unfold write_done. apply runs_exists. intros V. apply runs_exists. intros W. apply runs_exists. intros x.
  apply runs_pure. intros (Hw & Hok & Htot & Hfull). apply runs_exists. intros u. unfold writei_tail.
  apply (runs_bind_eq _ 0 1 _ _ x _ _ _ (tx_inode_get _ u V W ∅ x)).
  assert (Hs : i_size x = i_size x0) by (by rewrite (wr_inode _ _ _ Hw)).
  assert (Hinum : i_inum x = i_inum x0) by (by rewrite (wr_inode _ _ _ Hw)).
  set (x' := x <| i_size := Z.max (i_size x0) (off + tot) |>).
  apply (runs_bind 0 1 _ _ (λ _, tx (rest u x') V W ∅)).
  { apply runs_when; intros Hc.
    - apply Z.ltb_lt in Hc. eapply runs_post; [apply tx_inode_set|]. cbn beta. intros _ k Hk. unfold x'. by rewrite Z.max_r by lia.
    - apply Z.ltb_ge in Hc. intros k Hk. assert (x' = x) as ->; [|done]. unfold x'. rewrite Z.max_l by lia.
      rewrite <- Hs. by destruct x. }
  intros []. pose proof (file_ok_size V x tot (ok_file _ _ _ _ Hok) Hw Htot) as Hf'. fold x' in Hf'.
  assert (HW : (size ({[ IBLOCK (i_inum x') sb ]} ∪ W) ≤ Z.to_nat MAXOPBLOCKS)%nat).
  { change (i_inum x') with (i_inum x). pose proof (ok_room _ _ _ _ Hok).
    assert (size ({[ IBLOCK (i_inum x) sb ]} ∪ W) ≤ size (base x W))%nat by (apply subseteq_size; unfold base; set_solver). lia. }
  eapply (runs_bind 1 0); [apply (runs_ftx u), iupdate_runs; [apply Hok|done|done]|]. intros []; cbn beta.
  change (i_inum x') with (i_inum x) in *. rewrite Hinum in *.
  apply runs_exists. intros u'. apply runs_step. intros ks k Hk. exists tot, k. split; [done|]. eexists _, _, x'.
  split; [|by exists u']. split; [|exact HW]. apply write_finish; try done; apply Hok.
Qed.

Lemma writei_runs W0 :
  fs_ok (turns off n 0) V0 W0 x0 →
  runs (io_fuel n * 6 + 1) (ftx V0 W0 ∅ x0) (writei i (Local bs) off n)
    (λ r k, ∃ V W x, (write_result r V x ∧ (size W ≤ Z.to_nat MAXOPBLOCKS)%nat) ∧ ftx V W ∅ x k) crash.
Proof.
  intros Hok. apply runs_exists. intros u. unfold writei.
  apply (runs_bind_eq _ 0 (io_fuel n * 6 + 1) _ _ x0 _ _ _ (tx_inode_get _ u V0 W0 ∅ x0)).
  change (MAXFILE * BSIZE) with 274432 in *. rewrite (proj2 (Z.ltb_ge _ _)) by lia. rewrite u32_small by lia.
  rewrite (proj2 (Z.ltb_ge _ _)) by lia. cbn [orb]. rewrite (proj2 (Z.ltb_ge _ _)) by lia.
  apply (runs_bind (io_fuel n * 6) 1 _ _ write_done).
  - eapply runs_pre; [|apply (runs_while 6 (turns off n) (writei_body i (Local bs) off n) write_inv write_done); [apply writei_body_runs|apply turns_fuel; lia]].
    intros k Hk. exists V0, W0, x0. split; [|by exists u]. split; [apply written_start|]. split; [done|lia].
  - intros tot. apply writei_tail_runs.
Qed.
End writing.

(** ** Reading *)

(** bmap() of a block the file has. *)
Lemma bmap_found u V W x bn :
  lens V → file_ok sb V x → 0 ≤ bn < MAXFILE → file_addr V x bn ≠ 0 → (size W < NBUF)%nat →
  runs 1 (tx (rest u x) V W ∅) (bmap i bn) (λ a k, a = file_addr V x bn ∧ tx (rest u x) V W ∅ k) crash.
Proof.
  intros HV Hf Hbn Hne HW. unfold bmap. apply (runs_bind_eq _ 0 1 _ _ x _ _ _ (tx_inode_get _ u V W ∅ x)).
  destruct (bn <? NDIRECT) eqn:E.
  - assert (Ha : i_addrs x !!! Z.to_nat bn = file_addr V x bn) by (unfold file_addr; by rewrite E).
    rewrite Ha. destruct (Z.eqb_spec (file_addr V x bn) 0); [done|]. apply (runs_mono _ 0); [lia|].
    apply runs_step. intros ks k Hk. by exists (file_addr V x bn), k.
  - apply Z.ltb_ge in E. assert ((bn - NDIRECT <? NINDIRECT) = true) as ->.
    { apply Z.ltb_lt. change MAXFILE with (NDIRECT + NINDIRECT) in Hbn. lia. }
    fold (ind x). assert (H0 : ind x ≠ 0).
    { intros H0. apply Hne. unfold file_addr. by rewrite (proj2 (Z.ltb_ge _ _) E), H0. }
    assert (Ha : get32 (dblock V (ind x)) (4 * (bn - NDIRECT)) = file_addr V x bn).
    { unfold file_addr. rewrite (proj2 (Z.ltb_ge _ _) E). by destruct (Z.eqb_spec (ind x) 0). }
    destruct (fo_ind _ _ _ Hf) as [|Hown]; [done|]. destruct (Z.eqb_spec (ind x) 0); [done|].
    apply (runs_bind_eq _ 0 1 _ _ (ind x) (tx (rest u x) V W ∅)).
    { apply runs_step. intros ks k Hk. by exists (ind x), k. }
    destruct (Z.eqb_spec (ind x) 0); [done|]. rewrite (fo_dev _ _ _ Hf).
    apply (runs_bind 1 0 _ _ (λ bp, tx (rest u x) V W (ind_open x bp V))).
    { apply tx_bread; try done; [apply (home_data start sb Hsb), Hown|]. rewrite map_size_empty. lia. }
    intros bp. eapply (runs_bind_eq _ 0 0); [eapply (tx_buf_data _ _ _ _ _ _ _ (ind x)); apply lookup_singleton_eq|].
    cbv zeta. rewrite Ha. destruct (Z.eqb_spec (file_addr V x bn) 0); [done|].
    apply (runs_bind_eq _ 0 0 _ _ (file_addr V x bn) (tx (rest u x) V W (ind_open x bp V))).
    { apply runs_step. intros ks k Hk. by exists (file_addr V x bn), k. }
    eapply (runs_bind 0 0); [by apply tx_release|]. intros []; cbn beta. apply runs_step. intros ks k Hk. by exists (file_addr V x bn), k.
Qed.

Lemma file_bytes_app V x off a b :
  0 ≤ a → 0 ≤ b → file_bytes V x off (a + b) = file_bytes V x off a ++ file_bytes V x (off + a) b.
Proof.
  intros Ha Hb. unfold file_bytes. rewrite seqZ_app, fmap_app by done. f_equal. rewrite (Z.add_comm 0 a), <- (fmap_add_seqZ a 0), <- list_fmap_compose.
  apply list_fmap_ext. intros j z _. cbn. f_equal. lia.
Qed.

(** The bytes within one block. *)
Lemma file_bytes_block V x o m :
  lens V → 0 ≤ o → 0 ≤ m → o mod BSIZE + m ≤ BSIZE →
  file_bytes V x o m = bytes_at (dblock V (file_addr V x (o / BSIZE))) (o mod BSIZE) m.
Proof.
  intros HV Ho Hm Hle. apply list_eq. intros j. pose proof (Z.mod_pos_bound o BSIZE ltac:(done)). pose proof (Z.div_mod o BSIZE ltac:(done)).
  rewrite bytes_at_lookup by lia. unfold file_bytes. rewrite list_lookup_fmap. case_decide as Hj.
  - rewrite lookup_seqZ_lt by lia. cbn. unfold file_byte.
    assert ((o + (0 + Z.of_nat j)) / BSIZE = o / BSIZE) as ->.
    { symmetry. apply (Z.div_unique_pos _ _ _ (o mod BSIZE + Z.of_nat j)); lia. }
    assert ((o + (0 + Z.of_nat j)) mod BSIZE = o mod BSIZE + Z.of_nat j) as ->.
    { symmetry. apply (Z.mod_unique_pos _ _ (o / BSIZE)); lia. }
    unfold byte_at. destruct (lookup_lt_is_Some_2 (dblock V (file_addr V x (o / BSIZE))) (Z.to_nat (o mod BSIZE) + j)) as [y Hy].
    { rewrite HV. change BSIZE with 1024 in *. lia. }
    rewrite Hy. f_equal. rewrite list_lookup_total_alt. replace (Z.to_nat (o mod BSIZE + Z.of_nat j)) with (Z.to_nat (o mod BSIZE) + j)%nat by lia.
    by rewrite Hy.
  - rewrite lookup_seqZ_ge by lia. done.
Qed.

Section reading.
Context (u : uart_t) (V : disk) (W : gset Z) (x : inode) (l : list Z) (off n : Z).
Hypothesis HV : lens V.
Hypothesis Hf : file_ok sb V x.
Hypothesis HW : (size W < NBUF)%nat.
Hypothesis Hoff : 0 ≤ off.
Hypothesis Hn : 0 ≤ n.

Definition read_inv (s : Z * list Z) (k : kernel) : Prop :=
  (s.2 = file_bytes V x off s.1 ∧ 0 ≤ s.1 ≤ n) ∧ tx (rest u x) V W ∅ k.
Definition read_done (s : Z * list Z) (k : kernel) : Prop :=
  s = (n, file_bytes V x off n) ∧ tx (rest u x) V W ∅ k.

Lemma readi_body_runs s :
  off + n ≤ i_size x →
  runs 2 (read_inv s) (readi_body i (Local l) off n s)
    (λ r k, match r with inl s' => (turns off n s'.1 < turns off n s.1)%nat ∧ read_inv s' k | inr t => read_done t k end) crash.
Proof.
  intros Hend. destruct s as [tot acc]. unfold read_inv at 1. cbn [fst snd]. apply runs_pure. intros [-> Htot]. unfold readi_body.
  pose proof (fo_size _ _ _ Hf) as Hsz. destruct (Z.ltb_spec tot n) as [Hlt|Hge].
  2:{ apply (runs_mono _ 0); [lia|]. apply runs_step. intros ks k Hk. assert (tot = n) as -> by lia. by eexists _, k. }
  cbv zeta. set (o := off + tot). set (m := io_min n tot o). pose proof (io_min_bounds n tot o Hlt) as [Hm1 Hm2]. fold m in Hm1, Hm2.
  assert (Hbn : 0 ≤ o / BSIZE < MAXFILE) by (apply block_lt; unfold o; lia).
  assert (Ha : file_addr V x (o / BSIZE) ≠ 0).
  { apply (fo_full _ _ _ Hf); [lia|]. pose proof (Z.mul_div_le o BSIZE ltac:(done)). unfold o in *. lia. }
  apply (runs_bind_eq _ 1 1 _ _ _ _ _ _ (bmap_found u V W x (o / BSIZE) HV Hf Hbn Ha HW)).
  destruct (Z.eqb_spec (file_addr V x (o / BSIZE)) 0); [done|]. set (a := file_addr V x (o / BSIZE)) in *.
  destruct (fo_addr _ _ _ Hf _ Hbn) as [|[Hown _]]; [done|]. fold a in Hown.
  apply (runs_bind_eq _ 0 1 _ _ x _ _ _ (tx_inode_get _ u V W ∅ x)). rewrite (fo_dev _ _ _ Hf).
  apply (runs_bind 1 0 _ _ (λ bp, tx (rest u x) V W {[ a := (bp, dblock V a) ]})).
  { apply tx_bread; try done; [apply (home_data start sb Hsb), Hown|]. rewrite map_size_empty. lia. }
  intros bp. eapply (runs_bind_eq _ 0 0); [eapply (tx_buf_data _ _ _ _ _ _ _ a); apply lookup_singleton_eq|].
  apply (runs_bind_eq _ 0 0 _ _ 0 (tx (rest u x) V W {[ a := (bp, dblock V a) ]})).
  { apply runs_step. intros ks k Hk. by exists 0, k. }
  eapply (runs_bind 0 0); [by apply tx_release|]. intros []; cbn beta. change (0 =? -1) with false. cbv iota.
  apply runs_step. intros ks k Hk. eexists _, k. split; [done|]. cbn [fst snd]. pose proof (turns_next off n tot ltac:(lia)).
  fold o m in H. split; [lia|]. split; [|done]. cbn [fst snd]. split; [|lia].
  rewrite file_bytes_app by lia. f_equal. symmetry. apply file_bytes_block; try done; unfold o in *; lia.
Qed.
End reading.

(** readi() returns the bytes of the file from [off], as many as it has. *)
Lemma readi_runs u V W x l off n :
  lens V → file_ok sb V x → (size W < NBUF)%nat → 0 ≤ off → 0 ≤ n → off + n < 2 ^ 32 →
  let m := Z.max 0 (Z.min n (i_size x - off)) in
  runs (io_fuel n * 2) (tx (rest u x) V W ∅) (readi i (Local l) off n)
    (λ r k, r = (m, file_bytes V x off m) ∧ tx (rest u x) V W ∅ k) crash.
Proof.
  intros HV Hf HW Hoff Hn Hov m. unfold readi. apply (runs_bind_eq _ 0 (io_fuel n * 2) _ _ x _ _ _ (tx_inode_get _ u V W ∅ x)).
  rewrite u32_small by lia. rewrite (proj2 (Z.ltb_ge (off + n) off)) by lia. rewrite orb_false_r.
  destruct (Z.ltb_spec (i_size x) off) as [Hlt|Hge].
  - apply (runs_mono _ 0); [lia|]. apply runs_step. intros ks k Hk. exists (0, []), k. split; [done|]. split; [|done].
    unfold m. by rewrite Z.max_l by lia.
  - cbv zeta. set (n' := if i_size x <? off + n then i_size x - off else n).
    assert (Hn' : n' = m ∧ 0 ≤ n' ∧ off + n' ≤ i_size x ∧ n' ≤ n) by (unfold n', m; destruct (Z.ltb_spec (i_size x) (off + n)); lia).
    destruct Hn' as (<- & H1 & H2 & H3).
    apply (runs_mono _ (io_fuel n' * 2)).
    { unfold io_fuel. assert (n' / BSIZE ≤ n / BSIZE) by (apply Z.div_le_mono; [done|lia]). lia. }
    eapply runs_pre; [|apply (runs_while 2 (λ s, turns off n' s.1) _ (read_inv u V W x off n') (read_done u V W x off n'))].
    + intros k Hk. split; [|done]. cbn. split; [done|lia].
    + intros s. by apply readi_body_runs.
    + apply turns_fuel. lia.
Qed.
End runs.

(** ** Properties *)

Section properties.
Context `{KI : KernelImage} {D : Disk} {p : nat} {pid : Z} {DS : DiskSpec D p pid}.
Context {LA : LogArea} (start : Z).

Lemma rest_id R i x : k_itable R !! i = Some x → rest R i (k_uart R) x = R.
Proof. intros Hx. unfold rest. destruct R; cbn in *. by rewrite list_insert_id. Qed.

Lemma fs_ok_start R dk x n :
  lens dk → bitmap_ok (k_sb R) dk → file_ok (k_sb R) dk x → (n ≤ 7)%nat → fs_ok R n dk ∅ x.
Proof.
  intros Hl Hb Hf Hn. split; try done. unfold base. change (Z.to_nat MAXOPBLOCKS) with 10%nat.
  pose proof (size_add (ind x) ({[ bmap_block R ]} ∪ ({[ IBLOCK (i_inum x) (k_sb R) ]} ∪ ∅))).
  pose proof (size_add (bmap_block R) ({[ IBLOCK (i_inum x) (k_sb R) ]} ∪ ∅)).
  pose proof (size_add (IBLOCK (i_inum x) (k_sb R)) ∅). rewrite size_empty in *. lia.
Qed.


Lemma result_bytes R V0 x0 off bs r V x :
  write_result R V0 x0 off bs r V x → 0 ≤ off → file_bytes V x off r = take (Z.to_nat r) bs.
Proof.
  intros Hres Hoff. destruct (rs_count _ _ _ _ _ _ _ _ Hres) as [Hr _].
  assert (Hsz : i_size x = Z.max (i_size x0) (off + r)) by (by rewrite (rs_inode _ _ _ _ _ _ _ _ Hres)).
  apply list_eq. intros j. unfold file_bytes. rewrite list_lookup_fmap. destruct (decide (Z.of_nat j < r)) as [Hj|Hj].
  - rewrite lookup_seqZ_lt by done. cbn [fmap option_fmap option_map]. rewrite lookup_take_lt by lia.
    rewrite (rs_bytes _ _ _ _ _ _ _ _ Hres) by lia. rewrite decide_True by lia.
    replace (Z.to_nat (off + (0 + Z.of_nat j) - off)) with j by lia. symmetry. apply list_lookup_lookup_total_lt. lia.
  - rewrite lookup_seqZ_ge by lia. symmetry. apply lookup_take_ge. lia.
Qed.

(** C4: what writei() writes readi() reads.  A write to a file followed by a
    read of as many bytes at the same offset, in one transaction, returns
    exactly the bytes written, whether the blocks existed or were allocated,
    direct or through the indirect block. *)
Theorem write_then_read dk R i u x0 bs off l V W :
  let sb := k_sb R in
  let n := Z.of_nat (length bs) in
  lens dk → MAXOPBLOCKS < log_cap → sb_ok start sb → sb_size sb ≤ BPB → k_panicked R = 0 → (i < length (k_itable R))%nat →
  fs_ok R (turns off n 0) V W x0 → 0 ≤ off ≤ i_size x0 → off + n ≤ MAXFILE * BSIZE →
  runs (io_fuel n * 6 + 1 + io_fuel n * 2) (tx_state (p:=p) (pid:=pid) start dk (rest R i u x0) V W ∅)
    (r ← writei i (Local bs) off n;
     d ← readi i (Local l) off r;
     mret (r, d))
    (λ a k, ∃ u' x' V' W', (a = (a.1, (a.1, take (Z.to_nat a.1) bs)) ∧ 0 ≤ a.1 ≤ n ∧
         (a.1 < n → ∀ b, 0 ≤ b < sb_size sb → block_used sb V' b = true)) ∧
       tx_state (p:=p) (pid:=pid) start dk (rest R i u' x') V' W' ∅ k)
    (λ k, k_disk k = dk).
Proof.
  intros sb n Hlens Hcap Hsb Hone Hp Hi Hok Hoff Hend.
  eapply runs_bind; [apply (runs_ftx start dk R i u), (writei_runs start dk Hlens Hcap R i Hsb Hone Hp Hi V x0 off bs (ok_file _ _ _ _ _ Hok) Hoff Hend W Hok)|].
  intros r; cbn beta. apply runs_exists. intros V'. apply runs_exists. intros W'. apply runs_exists. intros x'.
  apply runs_pure. intros [Hres HW]. apply runs_exists. intros u'.
  destruct (rs_count _ _ _ _ _ _ _ _ Hres) as [Hr Hfull].
  assert (Hsz : i_size x' = Z.max (i_size x0) (off + r)) by (by rewrite (rs_inode _ _ _ _ _ _ _ _ Hres)).
  apply (runs_know (lens V')); [intros k Hk; by eapply tx_lens|]. intros HV'.
  assert (Hm : Z.max 0 (Z.min r (i_size x' - off)) = r) by lia.
  assert (HWn : (size W' < NBUF)%nat) by (change (Z.to_nat MAXOPBLOCKS) with 10%nat in HW; change NBUF with 30%nat; lia).
  assert (Hr32 : off + r < 2 ^ 32) by (change (MAXFILE * BSIZE) with 274432 in Hend; lia).
  pose proof (readi_runs start dk Hlens R i Hsb Hi u' V' W' x' l off r HV' (rs_ok _ _ _ _ _ _ _ _ Hres) HWn ltac:(lia) ltac:(lia) Hr32) as Hread.
  cbv zeta in Hread. rewrite Hm, (result_bytes R V x0 off bs r V' x' Hres) in Hread by lia.
  apply (runs_mono _ (io_fuel r * 2 + 0)).
  { unfold io_fuel. assert (r / BSIZE ≤ n / BSIZE) by (apply Z.div_le_mono; [done|lia]). lia. }
  apply (runs_bind_eq _ (io_fuel r * 2) 0 _ _ _ _ _ _ Hread). apply runs_step. intros ks k Hk. eexists _, k. split; [done|].
  exists u', x', V', W'. split; [|done]. cbn [fst]. split; [done|]. split; [done|]. exact Hfull.
Qed.
End properties.

(** An empty file on the small disk. *)
Section witnesses.
#[local] Existing Instance sample_image.
#[local] Existing Instance small_area.

Definition empty_file : inode := Inode ROOTDEV 1 1 zero_sleeplock 1 T_FILE 0 0 1 0 (replicate 13 0).
Definition small_rest_file : kernel := small_rest <| k_itable := [empty_file] |>.

Lemma empty_file_addr V bn : 0 ≤ bn < MAXFILE → file_addr V empty_file bn = 0.
Proof.
  intros Hb. unfold file_addr. destruct (Z.ltb_spec bn NDIRECT); [|done]. cbn [i_addrs empty_file].
  rewrite list_lookup_total_alt, lookup_replicate_2; [done|]. change NDIRECT with 12 in *. lia.
Qed.

Lemma empty_file_ok V : file_ok small_sb V empty_file.
Proof.
  split; try by_eval.
  - intros bn Hb. left. by apply empty_file_addr.
  - intros bn bn' Hb Hb' Hne. by rewrite empty_file_addr in Hne.
  - intros bn Hb Hs. change (i_size empty_file) with 0 in Hs. change BSIZE with 1024 in Hs. lia.
Qed.


Lemma write_then_read_witness :
  runs (p:=1) (pid:=0) 25 (tx_state (p:=1) (pid:=0) 2 small_disk (rest small_rest_file 0 zero_uart empty_file) small_disk ∅ ∅)
    (r ← writei 0 (Local [1; 2; 3]) 0 3;
     d ← readi 0 (Local []) 0 r;
     mret (r, d)) (λ a k, a.2.2 = take (Z.to_nat a.1) [1; 2; 3]) (λ k, k_disk k = small_disk).
Proof.
  eapply runs_conseq; [apply (write_then_read (p:=1) (pid:=0) 2 small_disk small_rest_file 0 zero_uart empty_file [1; 2; 3] 0 [] small_disk ∅)|..].
  - exact small_lens.
  - by_eval.
  - exact small_sb_ok.
  - by_eval.
  - reflexivity.
  - by_eval.
  - apply fs_ok_start; [exact small_lens|exact small_bitmap_ok|exact (empty_file_ok small_disk)|by_eval].
  - by_eval.
  - by_eval.
  - by_eval.
  - done.
  - cbn beta. intros a k (u' & x' & V' & W' & (Ha & _) & _). rewrite Ha. reflexivity.
  - done.
Defined.
End witnesses.
