(* ===== verification/File.v ===== *)
(** * The file table: file.c, and pipealloc() of pipe.c *)

From S2P Require Import Prelude KMonad Memory Riscv State Spinlock CString Kalloc Vm VmUser.
From S2P Require Import VmCopy Sched Uart Printf Console Pipe Sleeplock Bio Log Fs.

Definition file_get (f : nat) : M kernel file := deref "file" (λ k, k_ftable k !! f).
Definition file_set (f : nat) (g : file → file) : M kernel unit :=
  modify (λ k, k <| k_ftable ::= alter g f |>).

Definition fileinit : M kernel unit := initlock L_ftable "ftable".

Definition filealloc : M kernel (option nat) :=
  acquire L_ftable ;;
  r ← for_find (seq 0 NFILE) (λ f,
    x ← file_get f;
    if f_ref x =? 0 then
      file_set f (λ x, x <| f_ref := 1 |>) ;;
      release L_ftable ;;
      mret (Some f)
    else mret None);
  match r with
  | Some f => mret (Some f)
  | None => release L_ftable ;; mret None
  end.

Definition filedup (f : nat) : M kernel nat :=
  acquire L_ftable ;;
  x ← file_get f;
  if f_ref x <? 1 then panic "filedup" else
  file_set f (λ x, x <| f_ref := f_ref x + 1 |>) ;;
  release L_ftable ;;
  mret f.

(** [struct stat] as it lies in memory. *)
Definition stat_bytes `{KernelImage} (st : stat) : list Z :=
  Z_to_bytes 4 (u32 (st_dev st)) ++ Z_to_bytes 4 (u32 (st_ino st)) ++
  Z_to_bytes 2 (u16 (st_type st)) ++ Z_to_bytes 2 (u16 (st_nlink st)) ++
  Z_to_bytes 4 (u32 stat_padding) ++ Z_to_bytes 8 (u64 (st_size st)).

(** [devsw[major].read(1, addr, n)] and [devsw[major].write(1, addr, n)] *)
Definition dev_read `{KernelImage} (d : devfns) (addr n : Z) : M kernel Z :=
  match d with Dev_console => consoleread true addr n end.
Definition dev_write `{KernelImage} (d : devfns) (addr n : Z) : M kernel Z :=
  match d with Dev_console => consolewrite true addr n end.

(** The entry of devsw for a device number, if it is one. *)
Definition dev_lookup (major : Z) (k : kernel) : option devfns :=
  if (major <? 0) || (NDEV <=? major) then None
  else default None (k_devsw k !! Z.to_nat major).

(** [((MAXOPBLOCKS-1-1-2) / 2) * BSIZE] *)
Definition filewrite_max : Z := (MAXOPBLOCKS - 1 - 1 - 2) / 2 * BSIZE.

Section file.
Context `{KI : KernelImage} `{D : Disk}.

Definition fileclose (f : nat) : M kernel unit :=
  acquire L_ftable ;;
  x ← file_get f;
  if f_ref x <? 1 then panic "fileclose" else
  file_set f (λ x, x <| f_ref := f_ref x - 1 |>) ;;
  ff ← file_get f;
  if 0 <? f_ref ff then release L_ftable else
  file_set f (λ x, x <| f_ref := 0 |>) ;;
  file_set f (λ x, x <| f_type := FD_NONE |>) ;;
  release L_ftable ;;
  match f_type ff with
  | FD_PIPE => pipeclose (f_pipe ff) (f_writable ff)
  | FD_INODE | FD_DEVICE =>
      begin_op ;;
      i ← deref "ip" (λ _, f_ip ff);
      iput i ;;
      end_op
  | FD_NONE => mret tt
  end.

Definition filestat (f : nat) (addr : Z) : M kernel Z :=
  p ← curproc;
  x ← file_get f;
  match f_type x with
  | FD_INODE | FD_DEVICE =>
      ilock (f_ip x) ;;
      i ← deref "ip" (λ _, f_ip x);
      st ← stati i;
      iunlock (f_ip x) ;;
      pr ← proc_get p;
      r ← copyout (p_pagetable pr) addr (stat_bytes st);
      if r <? 0 then mret (-1) else mret 0
  | _ => mret (-1)
  end.

Definition fileread (f : nat) (addr n : Z) : M kernel Z :=
  x ← file_get f;
  if f_readable x =? 0 then mret (-1) else
  match f_type x with
  | FD_PIPE => piperead (f_pipe x) addr n
  | FD_DEVICE =>
      d ← gets (dev_lookup (f_major x));
      match d with
      | None => mret (-1)
      | Some d => dev_read d addr n
      end
  | FD_INODE =>
      ilock (f_ip x) ;;
      i ← deref "ip" (λ _, f_ip x);
      x1 ← file_get f;
      r ← readi i (User addr) (f_off x1) (u32 n);
      when (0 <? r.1) (file_set f (λ x, x <| f_off := u32 (f_off x + r.1) |>)) ;;
      iunlock (f_ip x) ;;
      mret r.1
  | FD_NONE => panic "fileread"
  end.

(** One turn of filewrite()'s [while(i < n)]. *)
Definition filewrite_body (f i0 : nat) (addr n : Z) (i : Z) : M kernel (Z + Z) :=
  if i <? n then
    let n1 := if filewrite_max <? n - i then filewrite_max else n - i in
    begin_op ;;
    ilock (Some i0) ;;
    x ← file_get f;
    r ← writei i0 (User (u64 (addr + i))) (f_off x) n1;
    when (0 <? r) (file_set f (λ x, x <| f_off := u32 (f_off x + r) |>)) ;;
    iunlock (Some i0) ;;
    end_op ;;
    if negb (r =? n1) then mret (inr i)   (* error from writei *)
    else mret (inl (i + r))
  else mret (inr i).

Definition filewrite (f : nat) (addr n : Z) : M kernel Z :=
  x ← file_get f;
  if f_writable x =? 0 then mret (-1) else
  match f_type x with
  | FD_PIPE => pipewrite (f_pipe x) addr n
  | FD_DEVICE =>
      d ← gets (dev_lookup (f_major x));
      match d with
      | None => mret (-1)
      | Some d => dev_write d addr n
      end
  | FD_INODE =>
      (* write a few blocks at a time to avoid exceeding the maximum log
         transaction size. *)
      i0 ← deref "ip" (λ _, f_ip x);
      i ← while_fuel (Z.to_nat (n / filewrite_max) + 2) (filewrite_body f i0 addr n) 0;
      mret (if i =? n then n else -1)
  | FD_NONE => panic "filewrite"
  end.

(** What kalloc() leaves in the page of a new [struct pipe]. *)
Definition junk_pipe : pipe :=
  Pipe (replicate 512 5) 0x05050505 0x05050505 0x05050505 0x05050505.

(** The error path of pipealloc(). *)
Definition pipealloc_bad (pi : Z) (f0 f1 : option nat) : M kernel (option (nat * nat)) :=
  when (truthy pi) (kfree pi) ;;
  match f0 with Some f => fileclose f | None => mret tt end ;;
  match f1 with Some f => fileclose f | None => mret tt end ;;
  mret None.

Definition pipealloc : M kernel (option (nat * nat)) :=
  o0 ← filealloc;
  match o0 with
  | None => pipealloc_bad 0 None None
  | Some f0 =>
      o1 ← filealloc;
      match o1 with
      | None => pipealloc_bad 0 (Some f0) None
      | Some f1 =>
          pi ← kalloc;
          if pi =? 0 then pipealloc_bad 0 (Some f0) (Some f1) else
          modify (λ k, k <| k_pipes ::= <[ pi := junk_pipe ]> |>) ;;
          pipe_set pi (λ x, x <| pi_readopen := 1 |>) ;;
          pipe_set pi (λ x, x <| pi_writeopen := 1 |>) ;;
          pipe_set pi (λ x, x <| pi_nwrite := 0 |>) ;;
          pipe_set pi (λ x, x <| pi_nread := 0 |>) ;;
          initlock (L_pipe pi) "pipe" ;;
          file_set f0 (λ x, x <| f_type := FD_PIPE |>) ;;
          file_set f0 (λ x, x <| f_readable := 1 |>) ;;
          file_set f0 (λ x, x <| f_writable := 0 |>) ;;
          file_set f0 (λ x, x <| f_pipe := pi |>) ;;
          file_set f1 (λ x, x <| f_type := FD_PIPE |>) ;;
          file_set f1 (λ x, x <| f_readable := 0 |>) ;;
          file_set f1 (λ x, x <| f_writable := 1 |>) ;;
          file_set f1 (λ x, x <| f_pipe := pi |>) ;;
          mret (Some (f0, f1))
      end
  end.
End file.
