(* ===== verification/ProcLife.v ===== *)
(** * The life of a process: allocation, fork, exit and wait of proc.c *)

From S2P Require Import Prelude KMonad Memory Riscv State Spinlock CString Kalloc Vm VmUser.
From S2P Require Import VmFree VmCopy Sched Uart Printf Console Pipe Sleeplock Bio Log Fs File.

(** The registers saved on the trapframe page of process [p]. *)
Definition tf_get (p : nat) : M kernel trapframe :=
  pr ← proc_get p;
  deref "trapframe" (λ k, k_trapframes k !! p_trapframe pr).
Definition tf_set (p : nat) (f : trapframe → trapframe) : M kernel unit :=
  pr ← proc_get p;
  modify (λ k, k <| k_trapframes ::= alter f (p_trapframe pr) |>).

(** What kalloc() leaves in a trapframe page. *)
Definition junk_word : Z := 0x0505050505050505.
Definition junk_trapframe : trapframe :=
  let j := junk_word in
  Trapframe j j j j j j j j j j j j j j j j j j j j j j j j j j j j j j j j j j j j.

(** [safestrcpy(dst, src, n)] between two local buffers. *)
Definition copy_name (dst src : list Z) (n : Z) : list Z :=
  load_bytes (safestrcpy (side_by_side dst src) 0 PGSIZE n) 0 (length dst).

(** ../user/initcode *)
Definition initcode : list Z :=
  [ 0x17; 0x05; 0x00; 0x00; 0x13; 0x05; 0x45; 0x02;
    0x97; 0x05; 0x00; 0x00; 0x93; 0x85; 0x35; 0x02;
    0x93; 0x08; 0x70; 0x00; 0x73; 0x00; 0x00; 0x00;
    0x93; 0x08; 0x20; 0x00; 0x73; 0x00; 0x00; 0x00;
    0xef; 0xf0; 0x9f; 0xff; 0x2f; 0x69; 0x6e; 0x69;
    0x74; 0x00; 0x00; 0x24; 0x00; 0x00; 0x00; 0x00;
    0x00; 0x00; 0x00; 0x00 ].

(** [wakeup(p)] for a process pointer; no process sleeps on null. *)
Definition wakeup_proc (o : option nat) : M kernel unit :=
  match o with
  | Some p => wakeup (Ch_proc p)
  | None => mret tt
  end.

Section proclife.
Context `{KI : KernelImage}.

(** Create a user page table for a given process, with no user memory, but
    with trampoline and trapframe pages. *)
Definition proc_pagetable (p : nat) : M kernel Z :=
  pagetable ← uvmcreate;
  if pagetable =? 0 then mret 0 else
  r ← mappages pagetable TRAMPOLINE PGSIZE trampoline (Z.lor PTE_R PTE_X);
  if r <? 0 then
    uvmfree pagetable 0 ;;
    mret 0
  else
  pr ← proc_get p;
  r ← mappages pagetable TRAPFRAME PGSIZE (p_trapframe pr) (Z.lor PTE_R PTE_W);
  if r <? 0 then
    uvmunmap pagetable TRAMPOLINE 1 false ;;
    uvmfree pagetable 0 ;;
    mret 0
  else mret pagetable.

Definition proc_freepagetable (pagetable sz : Z) : M kernel unit :=
  uvmunmap pagetable TRAMPOLINE 1 false ;;
  uvmunmap pagetable TRAPFRAME 1 false ;;
  uvmfree pagetable sz.

(** Free a proc structure and the data hanging from it, including user pages. *)
Definition freeproc (p : nat) : M kernel unit :=
  pr ← proc_get p;
  when (truthy (p_trapframe pr))
    (modify (λ k, k <| k_trapframes ::= delete (p_trapframe pr) |>) ;;
     kfree (p_trapframe pr)) ;;
  proc_set p (λ x, x <| p_trapframe := 0 |>) ;;
  pr1 ← proc_get p;
  when (truthy (p_pagetable pr1)) (proc_freepagetable (p_pagetable pr1) (p_sz pr1)) ;;
  proc_set p (λ x, x <| p_pagetable := 0 |>) ;;
  proc_set p (λ x, x <| p_sz := 0 |>) ;;
  proc_set p (λ x, x <| p_pid := 0 |>) ;;
  proc_set p (λ x, x <| p_parent := None |>) ;;
  proc_set p (λ x, x <| p_name ::= <[ 0%nat := 0 ]> |>) ;;
  proc_set p (λ x, x <| p_chan := None |>) ;;
  proc_set p (λ x, x <| p_killed := 0 |>) ;;
  proc_set p (λ x, x <| p_xstate := 0 |>) ;;
  proc_set p (λ x, x <| p_state := UNUSED |>).

(** The part of allocproc() after [found:]. *)
Definition allocproc_found (p : nat) : M kernel (option nat) :=
  pid ← allocpid;
  proc_set p (λ x, x <| p_pid := pid |>) ;;
  proc_set p (λ x, x <| p_state := USED |>) ;;
  (* Allocate a trapframe page. *)
  tf ← kalloc;
  proc_set p (λ x, x <| p_trapframe := tf |>) ;;
  if tf =? 0 then
    freeproc p ;;
    release (L_proc p) ;;
    mret None
  else
  modify (λ k, k <| k_trapframes ::= <[ tf := junk_trapframe ]> |>) ;;
  (* An empty user page table. *)
  pt ← proc_pagetable p;
  proc_set p (λ x, x <| p_pagetable := pt |>) ;;
  if pt =? 0 then
    freeproc p ;;
    release (L_proc p) ;;
    mret None
  else
  (* Set up new context to start executing at forkret. *)
  proc_set p (λ x, x <| p_context := zero_context |>) ;;
  proc_set p (λ x, x <| p_context ::= λ c, c <| ra := forkret_addr |> |>) ;;
  proc_set p (λ x, x <| p_context ::= λ c, c <| sp := p_kstack x + PGSIZE |> |>) ;;
  mret (Some p).

Definition allocproc : M kernel (option nat) :=
  r ← for_find (seq 0 NPROC) (λ p,
    acquire (L_proc p) ;;
    pr ← proc_get p;
    if decide (p_state pr = UNUSED) then mret (Some p)
    else release (L_proc p) ;; mret None);
  match r with
  | None => mret None
  | Some p => allocproc_found p
  end.

(** Grow or shrink user memory by n bytes. *)
Definition growproc (n : Z) : M kernel Z :=
  p ← curproc;
  pr ← proc_get p;
  let sz := p_sz pr in
  if 0 <? n then
    sz ← uvmalloc (p_pagetable pr) sz (u64 (sz + n)) PTE_W;
    if sz =? 0 then mret (-1) else
    proc_set p (λ x, x <| p_sz := sz |>) ;;
    mret 0
  else if n <? 0 then
    sz ← uvmdealloc (p_pagetable pr) sz (u64 (sz + n));
    proc_set p (λ x, x <| p_sz := sz |>) ;;
    mret 0
  else
    proc_set p (λ x, x <| p_sz := sz |>) ;;
    mret 0.

(** Pass p's abandoned children to init. *)
Definition reparent (p : nat) : M kernel unit :=
  for_each (seq 0 NPROC) (λ pp,
    x ← proc_get pp;
    when (bool_decide (p_parent x = Some p))
      (init ← gets k_initproc;
       proc_set pp (λ x, x <| p_parent := init |>) ;;
       wakeup_proc init)).

(** The scan of wait() for exited children: [inl r] returns r, [inr h] ends
    the scan with [havekids = h]. *)
Fixpoint wait_scan (p : nat) (addr : Z) (l : list nat) (havekids : bool) : M kernel (Z + bool) :=
  match l with
  | [] => mret (inr havekids)
  | pp :: l' =>
      x ← proc_get pp;
      if decide (p_parent x = Some p) then
        (* make sure the child isn't still in exit() or swtch(). *)
        acquire (L_proc pp) ;;
        x ← proc_get pp;
        if decide (p_state x = ZOMBIE) then
          (* Found one. *)
          let pid := p_pid x in
          pr ← proc_get p;
          r ← (if addr =? 0 then mret 0
               else copyout (p_pagetable pr) addr (Z_to_bytes 4 (u32 (p_xstate x))));
          if r <? 0 then
            release (L_proc pp) ;;
            release L_wait ;;
            mret (inl (-1))
          else
            freeproc pp ;;
            release (L_proc pp) ;;
            release L_wait ;;
            mret (inl pid)
        else
          release (L_proc pp) ;;
          wait_scan p addr l' true
      else wait_scan p addr l' havekids
  end.

(** One turn of wait()'s [for(;;)]. *)
Definition wait_body (p : nat) (addr : Z) (_ : unit) : M kernel (unit + Z) :=
  r ← wait_scan p addr (seq 0 NPROC) false;
  match r with
  | inl r => mret (inr r)
  | inr havekids =>
      (* No point waiting if we don't have any children. *)
      stop ← (if negb havekids then mret true else r ← killed p; mret (truthy r));
      if (stop : bool) then
        release L_wait ;;
        mret (inr (-1))
      else
        (* Wait for a child to exit. *)
        sleep (Ch_proc p) L_wait ;;
        mret (inl tt)
  end.

Definition wait (addr : Z) : M kernel Z :=
  p ← curproc;
  acquire L_wait ;;
  w ← waits_left;
  while_fuel (S w) (wait_body p addr) tt.

Context `{D : Disk}.

(** Set up first user process. *)
Definition userinit : M kernel unit :=
  o ← allocproc;
  modify (λ k, k <| k_initproc := o |>) ;;
  p ← nonnull o;
  (* allocate one user page and copy initcode's instructions and data. *)
  pr ← proc_get p;
  uvmfirst (p_pagetable pr) initcode ;;
  proc_set p (λ x, x <| p_sz := PGSIZE |>) ;;
  (* prepare for the very first return from kernel to user. *)
  tf_set p (λ t, t <| tf_epc := 0 |>) ;;
  tf_set p (λ t, t <| tf_sp := PGSIZE |>) ;;
  proc_set p (λ x, x <| p_name ::= λ d, copy_name d (bytes_of "initcode" ++ [0]) 16 |>) ;;
  cwd ← namei (bytes_of "/");
  proc_set p (λ x, x <| p_cwd := cwd |>) ;;
  proc_set p (λ x, x <| p_state := RUNNABLE |>) ;;
  release (L_proc p).

(** Create a new process, copying the parent. *)
Definition fork : M kernel Z :=
  p ← curproc;
  (* Allocate process. *)
  o ← allocproc;
  match o with
  | None => mret (-1)
  | Some np =>
      (* Copy user memory from parent to child. *)
      pr ← proc_get p;
      npr ← proc_get np;
      r ← uvmcopy (p_pagetable pr) (p_pagetable npr) (p_sz pr);
      if r <? 0 then
        freeproc np ;;
        release (L_proc np) ;;
        mret (-1)
      else
      proc_set np (λ x, x <| p_sz := p_sz pr |>) ;;
      (* copy saved user registers. *)
      tf ← tf_get p;
      tf_set np (λ _, tf) ;;
      (* Cause fork to return 0 in the child. *)
      tf_set np (λ t, t <| tf_a0 := 0 |>) ;;
      (* increment reference counts on open file descriptors. *)
      for_each (seq 0 NOFILE) (λ i,
        match p_ofile pr !!! i with
        | Some f =>
            f ← filedup f;
            proc_set np (λ x, x <| p_ofile ::= <[ i := Some f ]> |>)
        | None => mret tt
        end) ;;
      cwd ← deref "cwd" (λ _, p_cwd pr);
      cwd ← idup cwd;
      proc_set np (λ x, x <| p_cwd := Some cwd |>) ;;
      proc_set np (λ x, x <| p_name ::= λ d, copy_name d (p_name pr) 16 |>) ;;
      npr ← proc_get np;
      let pid := p_pid npr in
      release (L_proc np) ;;
      acquire L_wait ;;
      proc_set np (λ x, x <| p_parent := Some p |>) ;;
      release L_wait ;;
      acquire (L_proc np) ;;
      proc_set np (λ x, x <| p_state := RUNNABLE |>) ;;
      release (L_proc np) ;;
      mret pid
  end.

(** Exit the current process.  Does not return. *)
Definition exit {A} (status : Z) : M kernel A :=
  p ← curproc;
  init ← gets k_initproc;
  if decide (Some p = init) then panic "init exiting" else
  (* Close all open files. *)
  for_each (seq 0 NOFILE) (λ fd,
    pr ← proc_get p;
    match p_ofile pr !!! fd with
    | Some f =>
        fileclose f ;;
        proc_set p (λ x, x <| p_ofile ::= <[ fd := None ]> |>)
    | None => mret tt
    end) ;;
  begin_op ;;
  pr ← proc_get p;
  cwd ← deref "cwd" (λ _, p_cwd pr);
  iput cwd ;;
  end_op ;;
  proc_set p (λ x, x <| p_cwd := None |>) ;;
  acquire L_wait ;;
  (* Give any children to init. *)
  reparent p ;;
  (* Parent might be sleeping in wait(). *)
  pr ← proc_get p;
  wakeup_proc (p_parent pr) ;;
  acquire (L_proc p) ;;
  proc_set p (λ x, x <| p_xstate := status |>) ;;
  proc_set p (λ x, x <| p_state := ZOMBIE |>) ;;
  release L_wait ;;
  (* Jump into the scheduler, never to return. *)
  sched ;;
  panic "zombie exit".
End proclife.
