(* ===== verification/ProcSpec.v ===== *)
(** * Giving a process back: freeproc(), wait() and reparent() of proc.c

    [owns_memory] is the memory of a process: its trapframe page, its page
    table and the user pages mapped from address 0 on, none of them shared.
    freeproc() returns all of it to the allocator; wait() does so for an exited
    child, and otherwise fails or sleeps in a state in which no exit can be
    missed. *)

From S2P Require Import Prelude KMonad Memory Riscv State Spinlock CString Kalloc Vm VmUser.
From S2P Require Import VmFree VmCopy Sched Uart Printf Console Pipe Sleeplock Bio Log Fs File ProcLife.

Section procspec.
Context `{KI : KernelImage}.

(** ** freeproc() *)

Record owns_memory (k : kernel) (x : proc) (T : tree) (es l : list Z) : Prop := {
  om_vm : vm_ok k (p_pagetable x) T l;
  om_sz : 0 ≤ p_sz x ≤ TRAPFRAME;
  om_len : PGROUNDUP (p_sz x) = Z.of_nat (length es) * PGSIZE;
  om_user : mapped (k_mem k) T 0 es;
  om_leaf : Forall leaf_entry es;
  om_pages : Forall page_ok (PTE2PA <$> es);
  om_tf : page_ok (p_trapframe x);
  om_trampoline : leaf_entry (leaf (k_mem k) T TRAMPOLINE);
  om_trapframe : leaf_entry (leaf (k_mem k) T TRAPFRAME);
  om_rest : ∀ va, PGROUNDUP (p_sz x) ≤ va < TRAPFRAME → page_aligned va → leaf (k_mem k) T va = 0;
  om_nodup : NoDup (p_trapframe x :: (PTE2PA <$> es) ++ tables T ++ l);
}.

(** A slot of the process table after freeproc(). *)
Definition freed (x : proc) : proc :=
  Proc UNUSED None 0 0 0 None (p_kstack x) 0 0 0 (p_context x) (p_ofile x) (p_cwd x) (<[ 0%nat := 0 ]> (p_name x)).

(** The page table and the allocator do not depend on the process table. *)
Lemma vm_ok_same k k' pt T l :
  vm_ok k pt T l → k_mem k' = k_mem k → k_freelist k' = k_freelist k → k_mach k' = k_mach k → vm_ok k' pt T l.
Proof.
  intros [H1 H2 H3 H4 H5] E1 E2 E3.
  split; unfold kmem_ready, free_pages in *; rewrite ?E1, ?E2, ?E3; done.
Qed.

Lemma trapframe_layout : TRAMPOLINE = MAXVA - PGSIZE ∧ TRAPFRAME = MAXVA - 2 * PGSIZE ∧
  page_aligned TRAMPOLINE ∧ page_aligned TRAPFRAME ∧ MAXVA = 274877906944 ∧ PGSIZE = 4096.
Proof. split_and!; reflexivity. Qed.

(** One page is unmapped and stays with its owner. *)
Lemma uvmunmap_one pt a ks k T l :
  vm_ok k pt T l → page_aligned a → 0 ≤ a → a + PGSIZE ≤ MAXVA → leaf_entry (leaf (k_mem k) T a) →
  ∃ k', uvmunmap pt a 1 false ks k = Ok tt ks k' ∧ vm_ok k' pt T l ∧ vm_frame k k' ∧
    pages_frame (tables T) (k_mem k) (k_mem k') ∧
    ∀ va, 0 ≤ va < MAXVA → page_aligned va →
      leaf (k_mem k') T va = if decide (va = a) then 0 else leaf (k_mem k) T va.
Proof.
  intros Hok Hal Ha Hend Hle.
  destruct (uvmunmap_spec false [leaf (k_mem k) T a] pt a ks k T l) as (k' & H1 & H2 & H3 & H4 & H5); try done.
  - apply mapped_cons. split; [done|]. by intros i e Hi.
  - by constructor.
  - exists k'. split; [exact H1|]. split; [done|]. split; [done|]. split; [done|]. intros va Hva Hal'. rewrite H3 by done.
    pose proof (page_aligned_gap a va Hal Hal') as Hg. change (Z.of_nat (length [_])) with 1. unfold PGSIZE in *.
    repeat case_decide; try done; lia.
Qed.

Lemma proc_freepagetable_spec pt sz es ks k T l :
  vm_ok k pt T l → 0 ≤ sz ≤ TRAPFRAME → PGROUNDUP sz = Z.of_nat (length es) * PGSIZE →
  mapped (k_mem k) T 0 es → Forall leaf_entry es → Forall page_ok (PTE2PA <$> es) →
  leaf_entry (leaf (k_mem k) T TRAMPOLINE) → leaf_entry (leaf (k_mem k) T TRAPFRAME) →
  (∀ va, PGROUNDUP sz ≤ va < TRAPFRAME → page_aligned va → leaf (k_mem k) T va = 0) →
  NoDup ((PTE2PA <$> es) ++ tables T ++ l) →
  ∃ k' l', proc_freepagetable pt sz ks k = Ok tt ks k' ∧ mem_state k' l' ∧
    l' ≡ₚ (PTE2PA <$> es) ++ tables T ++ l ∧ vm_frame k k' ∧
    pages_frame ((PTE2PA <$> es) ++ tables T) (k_mem k) (k_mem k').
Proof.
  intros Hok Hsz Hlen Hm Hle Hpo Htr Htf Hz Hnd.
  destruct trapframe_layout as (E1 & E2 & A1 & A2 & EM & EP).
  destruct (PGROUNDUP_low sz) as (B & A & Mx); [lia|].
  destruct (uvmunmap_one pt TRAMPOLINE ks k T l) as (k1 & H1 & Hok1 & Hf1 & Q1 & L1); [done|done|lia|lia|done|].
  destruct (uvmunmap_one pt TRAPFRAME ks k1 T l) as (k2 & H2 & Hok2 & Hf2 & Q2 & L2); [done|done|lia|lia| |].
  { rewrite L1 by (assumption || lia). rewrite decide_False by lia. done. }
  assert (L : ∀ va, 0 ≤ va < MAXVA → page_aligned va → leaf (k_mem k2) T va =
    if decide (va = TRAMPOLINE ∨ va = TRAPFRAME) then 0 else leaf (k_mem k) T va).
  { intros va Hva Hal. rewrite L2, L1 by assumption. repeat case_decide; first [reflexivity | tauto]. }
  destruct (uvmfree_spec pt sz es ks k2 T l) as (k3 & l3 & H3 & R3 & P3 & Hf3 & Q3); try assumption.
  - lia.
  - intros i e Hi. pose proof (lookup_lt_Some _ _ _ Hi) as Hlt.
    rewrite L; [rewrite decide_False; [by apply Hm|lia]|lia|].
    rewrite Z.add_0_l. apply (page_aligned_add 0). done.
  - intros va Hva Hal. rewrite L by (assumption || lia). case_decide as Hd; [done|]. apply Hz; [|done].
    pose proof (page_aligned_gap TRAPFRAME va A2 Hal). pose proof (page_aligned_gap TRAMPOLINE va A1 Hal). lia.
  - exists k3, l3. split; [|split_and!; try assumption].
    + unfold proc_freepagetable. rewrite bind_run, H1, bind_run, H2. exact H3.
    + eapply vm_frame_trans; [apply Hok|exact Hf1|]. eapply vm_frame_trans; [apply Hok1|eassumption..].
    + eapply pages_frame_trans; [|exact Q3].
      eapply pages_frame_mono; [|eapply pages_frame_trans; [exact Q1|exact Q2]]. set_solver.
Qed.

Lemma vm_frame_other k k' : vm_frame k k' → k_procs k' = k_procs k ∧ k_trapframes k' = k_trapframes k.
Proof.
  intros [_ E]. split; [exact (f_equal k_procs E)|exact (f_equal k_trapframes E)].
Qed.

(** A store into the process table, whose other fields stay put. *)
Lemma proc_set_at {A} p f (m : M kernel A) ps ks k :
  (proc_set p f ;; m) ks (k <| k_procs := ps |>) = m ks (k <| k_procs := alter f p ps |>).
Proof. reflexivity. Qed.

Lemma proc_set_last p f ps ks k :
  proc_set p f ks (k <| k_procs := ps |>) = Ok tt ks (k <| k_procs := alter f p ps |>).
Proof. reflexivity. Qed.

Lemma with_procs k ps : k_procs k = ps → k = k <| k_procs := ps |>.
Proof. intros <-. by destruct k. Qed.

(** The fields freeproc() clears once the memory is gone. *)
Lemma freeproc_clears p ps ks k :
  k_procs k = alter (λ x, x <| p_trapframe := 0 |>) p ps →
  (proc_set p (λ x, x <| p_pagetable := 0 |>) ;;
   proc_set p (λ x, x <| p_sz := 0 |>) ;;
   proc_set p (λ x, x <| p_pid := 0 |>) ;;
   proc_set p (λ x, x <| p_parent := None |>) ;;
   proc_set p (λ x, x <| p_name ::= <[ 0%nat := 0 ]> |>) ;;
   proc_set p (λ x, x <| p_chan := None |>) ;;
   proc_set p (λ x, x <| p_killed := 0 |>) ;;
   proc_set p (λ x, x <| p_xstate := 0 |>) ;;
   proc_set p (λ x, x <| p_state := UNUSED |>)) ks k = Ok tt ks (k <| k_procs := alter freed p ps |>).
Proof.
  intros E. rewrite (with_procs k _ E) at 1. rewrite !proc_set_at, proc_set_last, !list_alter_alter. reflexivity.
Qed.

(** The two halves of freeproc(): the trapframe page, then the page table. *)
Lemma freeproc_pages p x T es l ks k :
  k_procs k !! p = Some x → owns_memory k x T es l →
  ∃ k2 k4 l', kfree (p_trapframe x) ks (k <| k_trapframes ::= delete (p_trapframe x) |>) = Ok tt ks k2 ∧
    vm_frame (k <| k_trapframes ::= delete (p_trapframe x) |>) k2 ∧
    proc_freepagetable (p_pagetable x) (p_sz x) ks (k2 <| k_procs ::= alter (λ x, x <| p_trapframe := 0 |>) p |>)
      = Ok tt ks k4 ∧
    vm_frame (k2 <| k_procs ::= alter (λ x, x <| p_trapframe := 0 |>) p |>) k4 ∧
    mem_state k4 l' ∧ l' ≡ₚ p_trapframe x :: (PTE2PA <$> es) ++ tables T ++ l ∧
    pages_frame (p_trapframe x :: (PTE2PA <$> es) ++ tables T) (k_mem k) (k_mem k4).
Proof.
  intros Hx [Hok Hsz Hlen Hm Hle Hpo Htf Htr Htfl Hz Hnd].
  apply NoDup_cons in Hnd as [Hni Hnd].
  set (k1 := k <| k_trapframes ::= delete (p_trapframe x) |>).
  assert (Hok1 : vm_ok k1 (p_pagetable x) T l) by (by apply (vm_ok_same k)).
  destruct (kfree_vm ks k1 (p_pagetable x) T (p_trapframe x) l) as (k2 & H2 & Hok2 & Hl2 & Q2 & Hf2); [done|done| |].
  { intros Hin. apply Hni, elem_of_app. by right. }
  set (k3 := k2 <| k_procs ::= alter (λ x, x <| p_trapframe := 0 |>) p |>).
  assert (Hok3 : vm_ok k3 (p_pagetable x) T (p_trapframe x :: l)) by (by apply (vm_ok_same k2)).
  change (k_mem k1) with (k_mem k) in Hl2. change (k_mem k2) with (k_mem k3) in Hl2.
  destruct (proc_freepagetable_spec (p_pagetable x) (p_sz x) es ks k3 T (p_trapframe x :: l))
    as (k4 & l4 & H4 & R4 & P4 & Hf4 & Q4); try assumption.
  - intros i e Hi. rewrite Hl2. by apply Hm.
  - by rewrite Hl2.
  - by rewrite Hl2.
  - intros va Hva Hal. rewrite Hl2. by apply Hz.
  - rewrite (assoc_L app), <- Permutation_middle, <- (assoc_L app). by apply NoDup_cons.
  - exists k2, k4, l4. split_and!; try assumption.
    2:{ eapply pages_frame_trans; [eapply pages_frame_mono; [|exact Q2]|eapply pages_frame_mono; [|exact Q4]]; set_solver. }
    rewrite P4, (assoc_L app), <- Permutation_middle, <- (assoc_L app). done.
Qed.

Lemma freeproc_spec p x T es l ks k :
  k_procs k !! p = Some x → owns_memory k x T es l →
  ∃ k' l', freeproc p ks k = Ok tt ks k' ∧ mem_state k' l' ∧
    l' ≡ₚ p_trapframe x :: (PTE2PA <$> es) ++ tables T ++ l ∧ settles (k_mach k) (k_mach k') ∧
    pages_frame (p_trapframe x :: (PTE2PA <$> es) ++ tables T) (k_mem k) (k_mem k') ∧
    k' = k <| k_mem := k_mem k' |> <| k_freelist := k_freelist k' |> <| k_mach := k_mach k' |>
           <| k_trapframes := delete (p_trapframe x) (k_trapframes k) |>
           <| k_procs := alter freed p (k_procs k) |>.
Proof.
  intros Hx Hown. destruct (freeproc_pages p x T es l ks k Hx Hown) as (k2 & k4 & l' & H2 & F2 & H4 & F4 & L & P & Q).
  destruct (vm_frame_other _ _ F2) as [Ep2 _]. destruct (vm_frame_other _ _ F4) as [Ep4 _].
  cbn in Ep2, Ep4. rewrite Ep2 in Ep4.
  exists (k4 <| k_procs := alter freed p (k_procs k) |>), l'. split; [|split; [destruct L; by split|split; [exact P|split; [|split; [exact Q|]]]]].
  - unfold freeproc. rewrite bind_run. cbn [proc_get deref]. rewrite Hx.
    rewrite (truthy_page _ (om_tf _ _ _ _ _ Hown)). cbn [when].
    rewrite bind_run, bind_run. cbn [modify]. rewrite H2.
    rewrite bind_run. cbn [proc_set modify]. rewrite bind_run. cbn [proc_get deref].
    assert (Hg : k_procs (k2 <| k_procs ::= alter (λ x, x <| p_trapframe := 0 |>) p |>) !! p =
      Some (x <| p_trapframe := 0 |>)) by (cbn; by rewrite Ep2, list_lookup_alter_eq, Hx).
    rewrite Hg. change (p_pagetable (x <| p_trapframe := 0 |>)) with (p_pagetable x).
    change (p_sz (x <| p_trapframe := 0 |>)) with (p_sz x).
    rewrite (truthy_page (p_pagetable x)) by (eapply wf_page; [apply Hown|eapply wf_root, Hown]).
    cbn [when]. rewrite bind_run, H4. by apply freeproc_clears.
  - destruct F2 as [S2 _], F4 as [S4 _]. eapply settles_trans; [apply Hown|exact S2|exact S4].
  - destruct F2 as [_ E2], F4 as [_ E4]. transitivity
      ((k2 <| k_mem := k_mem k4 |> <| k_freelist := k_freelist k4 |> <| k_mach := k_mach k4 |>)
        <| k_procs := alter freed p (k_procs k) |>).
    + by rewrite E4 at 1.
    + by rewrite E2 at 1.
Qed.

(** ** The parent's view *)

(** The pages that are given back with process [x]. *)
Definition pages_of (x : proc) (T : tree) (es : list Z) : list Z := p_trapframe x :: (PTE2PA <$> es) ++ tables T.

(** A page table [Tp] whose tables and user pages are none of [ps]. *)
Record apart (m : memory) (Tp : tree) (ps : list Z) : Prop := {
  ap_tables : ∀ q, q ∈ ps → q ∉ tables Tp;
  ap_pages : ∀ va, 0 ≤ va < MAXVA → user_entry (leaf m Tp va) = true → PTE2PA (leaf m Tp va) ∉ ps;
}.

Lemma owns_pages_ok k x T es l : owns_memory k x T es l → Forall page_ok (pages_of x T es).
Proof.
  intros [Hok _ _ _ _ Hpo Htf _ _ _ _]. constructor; [done|]. apply Forall_app. split; [done|].
  eapply tables_ok, Hok.
Qed.

(** The user page of any address, from the one of its page. *)
Lemma user_page m T l va :
  user_sep m T l → 0 ≤ va < MAXVA → user_entry (leaf m T va) = true →
  page_ok (PTE2PA (leaf m T va)) ∧ PTE2PA (leaf m T va) ∉ tables T ++ l.
Proof.
  intros Hs Hva Hu. pose proof (PGROUNDDOWN_bounds va). pose proof (PGROUNDDOWN_nonneg va).
  pose proof (us_page _ _ _ Hs (PGROUNDDOWN va)) as H1. rewrite leaf_PGROUNDDOWN in H1.
  apply H1; [lia|apply PGROUNDDOWN_aligned|done].
Qed.

(** What the parent reads does not depend on the pages of the child. *)
Lemma user_byte_apart m m' pt Tp l ps :
  pt_wf m pt Tp → user_sep m Tp l → apart m Tp ps → Forall page_ok ps → pages_frame ps m m' →
  ∀ va, 0 ≤ va → user_byte m' Tp va = user_byte m Tp va.
Proof.
  intros Hwf Hs [At Ap] Hps Hf va Hva.
  destruct (pt_wf_frame ps m m' pt Tp Hf Hps At Hwf) as [_ Hlf].
  unfold user_byte. case_decide as Hlt; [|done]. rewrite Hlf.
  destruct (user_entry (leaf m Tp va)) eqn:Hu; [|done].
  destruct (user_page m Tp l va Hs) as [Hpo _]; [lia|done|]. f_equal.
  eapply pages_frame_page; [exact Hf|exact Hps|exact Hpo|apply Ap; [lia|done]|].
  unfold PGSIZE. pose proof (Z.mod_pos_bound va 4096 ltac:(lia)). lia.
Qed.

(** Writes to pages that are neither tables of the process nor free. *)
Lemma owns_memory_mem ps m' k x T es l :
  owns_memory k x T es l → mem_bytes m' → pages_frame ps (k_mem k) m' → Forall page_ok ps →
  (∀ q, q ∈ ps → q ∉ tables T ++ l) → owns_memory (k <| k_mem := m' |>) x T es l.
Proof.
  intros [Hok Hsz Hlen Hm Hle Hpo Htf Htr Htfl Hz Hnd] Hb Hf Hps Hd.
  destruct (vm_ok_mem ps m' k (p_pagetable x) T l) as [Hok' Hlf]; [assumption..|].
  split; try assumption.
  - intros i e Hi. cbn. rewrite Hlf. by apply Hm.
  - cbn. by rewrite Hlf.
  - cbn. by rewrite Hlf.
  - intros va Hva Hal. cbn. rewrite Hlf. by apply Hz.
Qed.

Lemma user_writable_entry m T va :
  user_writable m T va = true → va < MAXVA ∧ user_entry (leaf m T va) = true.
Proof.
  unfold user_writable, writable_entry. rewrite !andb_true_iff, bool_decide_eq_true. tauto.
Qed.

(** Bytes copied to the parent leave what the child owns alone. *)
Lemma copyout_keeps k pt Tp x T es l addr bs r m' :
  user_sep (k_mem k) Tp l → apart (k_mem k) Tp (pages_of x T es) → owns_memory k x T es l → 0 ≤ addr →
  copyout_post k pt Tp l addr bs r m' → owns_memory (k <| k_mem := m' |>) x T es l.
Proof.
  intros Hs [At Ap] Hown Ha [C1 C2 C3 C4 C5].
  set (touched := filter (λ i, user_writable (k_mem k) Tp (addr + Z.of_nat i) = true) (seq 0 (length bs))).
  set (ps := (λ i, PTE2PA (leaf (k_mem k) Tp (addr + Z.of_nat i))) <$> touched).
  assert (Hps : ∀ q, q ∈ ps → page_ok q ∧ q ∉ tables T ++ l).
  { intros q (i & -> & Hi)%list_elem_of_fmap. apply list_elem_of_filter in Hi as [Hw Hi].
    apply user_writable_entry in Hw as [Hlt Hu].
    destruct (user_page (k_mem k) Tp l (addr + Z.of_nat i) Hs) as [Hpo Hni]; [lia|done|].
    split; [done|]. rewrite elem_of_app. intros [Hin|Hin].
    - apply (Ap (addr + Z.of_nat i)); [lia|done|]. unfold pages_of. set_solver.
    - apply Hni, elem_of_app. by right. }
  apply (owns_memory_mem ps); [done|apply C1| |apply Forall_forall; intros q Hq; by apply Hps|intros q Hq; by apply Hps].
  intros y Hy. apply C4. intros a Har Hw. apply Hy. apply list_elem_of_fmap.
  exists (Z.to_nat (a - addr)). rewrite Z2Nat.id by lia. replace (addr + (a - addr)) with a by lia.
  split; [done|]. apply list_elem_of_filter. rewrite Z2Nat.id by lia. replace (addr + (a - addr)) with a by lia.
  split; [done|]. apply elem_of_seq. lia.
Qed.

(** ** wait() *)

Definition child_of (p : nat) (x : proc) : bool := bool_decide (p_parent x = Some p).
Definition zombie (x : proc) : bool := bool_decide (p_state x = ZOMBIE).

(** The first exited child of [p] from index [i] on, and whether [p] has children. *)
Fixpoint first_zombie (p i : nat) (ps : list proc) : option nat :=
  match ps with
  | [] => None
  | x :: ps => if child_of p x && zombie x then Some i else first_zombie p (S i) ps
  end.
Definition has_children (p : nat) (ps : list proc) : bool := existsb (child_of p) ps.

Lemma first_zombie_split p i ps pp :
  first_zombie p i ps = Some pp →
  ∃ n x, pp = (i + n)%nat ∧ ps !! n = Some x ∧ child_of p x = true ∧ zombie x = true ∧
    first_zombie p i (take n ps) = None.
Proof.
  revert i. induction ps as [|x ps IH]; intros i; cbn; [done|].
  destruct (child_of p x && zombie x) eqn:E.
  - intros [= <-]. apply andb_true_iff in E. exists 0%nat, x. split_and!; first [tauto | lia | done].
  - intros (n & y & -> & H1 & H2 & H3 & H4)%IH. exists (S n), y. cbn. rewrite E. split_and!; first [done | lia].
Qed.

(** Where the exit status of [x] goes: a user address, or nowhere. *)
Definition status_bytes (x : proc) : list Z := Z_to_bytes 4 (u32 (p_xstate x)).

Definition deliverable (m : memory) (Tp : tree) (addr : Z) : Prop := addr = 0 ∨ range_writable m Tp addr 4.

Definition delivered (m m' : memory) (Tp : tree) (addr : Z) (x : proc) : Prop :=
  ∀ a, 0 ≤ a → user_byte m' Tp a =
    if decide (addr ≠ 0 ∧ addr ≤ a < addr + 4) then Some (status_bytes x !!! Z.to_nat (a - addr))
    else user_byte m Tp a.

Section waiting.
Context (p : nat) (pid : Z) (k : kernel).
Hypothesis Hk : kernel_thread p pid k.

(** Inside wait(): the machine with wait_lock taken, and a child's lock too. *)
Definition m_wait : machine := take_lock L_wait (k_mach k).
Definition m_child (pp : nat) : machine := take_lock (L_proc pp) m_wait.
Definition in_wait : kernel := k <| k_mach := m_wait |>.

Lemma wait_lock_static pp : (pp < NPROC)%nat → static_lock (L_proc pp).
Proof. intros H. cbn. by apply bool_decide_pack. Qed.

Lemma in_wait_holding : holding_only p pid L_wait k in_wait.
Proof. split_and!; try done. Qed.

Lemma child_acquire pp ks :
  (pp < NPROC)%nat → acquire (L_proc pp) ks in_wait = Ok tt ks (k <| k_mach := m_child pp |>).
Proof.
  intros Hpp. rewrite (holding_acquire p pid L_wait (L_proc pp) k in_wait ks in_wait_holding); [done| |done].
  by apply wait_lock_static.
Qed.

Lemma child_release pp ks k1 :
  (pp < NPROC)%nat → k_mach k1 = m_child pp → release (L_proc pp) ks k1 = Ok tt ks (k1 <| k_mach := m_wait |>).
Proof. intros Hpp Hm. apply (holding_release p pid); [done|by apply wait_lock_static|done|done]. Qed.

(** Entries that are not exited children are passed over. *)
Lemma wait_scan_skip addr n j h l2 ks :
  (j + n ≤ NPROC)%nat →
  first_zombie p j (take n (drop j (k_procs k))) = None →
  wait_scan p addr (seq j n ++ l2) h ks in_wait =
  wait_scan p addr l2 (h || has_children p (take n (drop j (k_procs k)))) ks in_wait.
Proof.
  revert j h. induction n as [|n IH]; intros j h Hn Hz.
  { cbn. by rewrite orb_false_r. }
  destruct (lookup_lt_is_Some_2 (k_procs k) j) as [x Hx].
  { rewrite (kt_procs _ _ _ Hk). lia. }
  rewrite (drop_S _ _ _ Hx) in Hz |- *. cbn [take first_zombie] in Hz |- *.
  destruct (child_of p x && zombie x) eqn:Ez; [done|].
  cbn [seq app wait_scan]. rewrite bind_run. cbn [proc_get deref].
  change (k_procs in_wait) with (k_procs k). rewrite Hx.
  unfold has_children. cbn [existsb]. rewrite (orb_assoc h). fold (has_children p (take n (drop (S j) (k_procs k)))).
  unfold child_of in *. destruct (decide (p_parent x = Some p)) as [Hp|Hp].
  - rewrite bool_decide_eq_true_2 in Ez |- * by done. cbn [andb] in Ez. apply bool_decide_eq_false in Ez.
    rewrite bind_run, child_acquire by lia. rewrite bind_run. cbn [proc_get deref].
    change (k_procs (k <| k_mach := m_child j |>)) with (k_procs k). rewrite Hx, decide_False by done.
    rewrite bind_run, (child_release j ks (k <| k_mach := m_child j |>)) by (lia || reflexivity).
    change (k <| k_mach := m_child j |> <| k_mach := m_wait |>) with in_wait.
    rewrite IH by (done || lia). by rewrite orb_true_r.
  - rewrite bool_decide_eq_false_2 by done. rewrite orb_false_r. apply IH; [lia|done].
Qed.

Lemma m_wait_ok : machine_ok m_wait.
Proof. apply machine_ok_take, Hk. Qed.

Lemma m_wait_noff : c_noff (this_cpu m_wait) = 1.
Proof. unfold m_wait. rewrite noff_take by apply Hk. by rewrite (kt_noff _ _ _ Hk). Qed.

Lemma m_child_ok pp : machine_ok (m_child pp).
Proof. apply machine_ok_take, m_wait_ok. Qed.

Lemma m_child_settle pp : settle (m_child pp) = m_child pp.
Proof. apply settle_nested. unfold m_child. rewrite noff_take by apply m_wait_ok. rewrite m_wait_noff. lia. Qed.

Lemma m_child_kmem pp : lock_free L_kmem (m_child pp).
Proof. apply lock_free_take; [done|]. apply lock_free_take; [done|]. by apply Hk. Qed.

Lemma vm_ok_locked pp pt T l : vm_ok k pt T l → vm_ok (k <| k_mach := m_child pp |>) pt T l.
Proof.
  intros [V1 V2 V3 V4 V5]. split; try assumption. split; [apply m_child_ok|apply m_child_kmem].
Qed.

(** The locks do not matter to what a process owns. *)
Lemma owns_memory_locked pp x T es l :
  owns_memory k x T es l → owns_memory (k <| k_mach := m_child pp |>) x T es l.
Proof.
  intros [H1 H2 H3 H4 H5 H6 H7 H8 H9 H10 H11]. split; try assumption. by apply vm_ok_locked.
Qed.

(** The state in which wait() returns after reaping [pp], given what
    freeproc() left. *)
Lemma wait_found pp x addr h l2 ks :
  k_procs k !! pp = Some x → child_of p x = true → zombie x = true →
  ∃ pr, k_procs k !! p = Some pr ∧
  wait_scan p addr (pp :: l2) h ks in_wait =
  (r ← (if addr =? 0 then mret 0 else copyout (p_pagetable pr) addr (Z_to_bytes 4 (u32 (p_xstate x))));
   if r <? 0 then release (L_proc pp) ;; release L_wait ;; mret (inl (-1))
   else freeproc pp ;; release (L_proc pp) ;; release L_wait ;; mret (inl (p_pid x))) ks
  (k <| k_mach := m_child pp |>).
Proof.
  intros Hx Hc Hz. apply bool_decide_eq_true in Hc, Hz.
  assert (Hpp : (pp < NPROC)%nat) by (rewrite <- (kt_procs _ _ _ Hk); by eapply lookup_lt_Some).
  pose proof (kt_pid _ _ _ Hk) as Hpid. apply fmap_Some in Hpid as (pr & Hpr & _). exists pr. split; [done|].
  cbn [wait_scan]. rewrite bind_run. cbn [proc_get deref]. change (k_procs in_wait) with (k_procs k).
  rewrite Hx, decide_True by done. rewrite bind_run, child_acquire by done.
  rewrite bind_run. cbn [proc_get deref]. change (k_procs (k <| k_mach := m_child pp |>)) with (k_procs k).
  rewrite Hx, decide_True by done. rewrite bind_run. cbn [proc_get deref].
  change (k_procs (k <| k_mach := m_child pp |>)) with (k_procs k). rewrite Hpr. reflexivity.
Qed.

(** Both locks are dropped on the way out. *)
Lemma wait_leave {A} pp (r : A) ks k1 :
  (pp < NPROC)%nat → k_mach k1 = m_child pp →
  (release (L_proc pp) ;; release L_wait ;; mret r) ks k1 = Ok r ks (k1 <| k_mach := k_mach k |>).
Proof.
  intros Hpp Hm. rewrite bind_run, child_release by done.
  rewrite bind_run, (thread_release p pid L_wait k (k1 <| k_mach := m_wait |>)) by done. reflexivity.
Qed.

Lemma wait_start addr ks : wait addr ks k = while_fuel (S (length ks)) (wait_body p addr) tt ks in_wait.
Proof.
  unfold wait. rewrite bind_run, (curproc_run _ _ p) by apply Hk.
  assert (E : k <| k_mach ::= settle |> = k) by (pose proof (kt_settled _ _ _ Hk) as E; destruct k; cbn in *; by rewrite E).
  rewrite E, bind_run, (thread_acquire p pid L_wait k ks Hk) by done. reflexivity.
Qed.

(** A turn of the loop that finds an exited child. *)
Lemma wait_turn addr fuel pp x ks r k' :
  first_zombie p 0 (k_procs k) = Some pp → k_procs k !! pp = Some x →
  (∀ h l2, wait_scan p addr (pp :: l2) h ks in_wait = Ok (inl r) ks k') →
  while_fuel (S fuel) (wait_body p addr) tt ks in_wait = Ok r ks k'.
Proof.
  intros Hz Hx Hs. destruct (first_zombie_split _ _ _ _ Hz) as (n & y & -> & Hy & _ & _ & Hn).
  rewrite Nat.add_0_l in *. pose proof (lookup_lt_Some _ _ _ Hy) as Hlt. rewrite (kt_procs _ _ _ Hk) in Hlt.
  cbn [while_fuel]. rewrite bind_run. unfold wait_body at 1.
  replace (seq 0 NPROC) with (seq 0 n ++ n :: seq (S n) (NPROC - S n)).
  - rewrite bind_run, wait_scan_skip, Hs by (rewrite ?drop_0; done || lia). reflexivity.
  - rewrite cons_seq, <- seq_app. f_equal. lia.
Qed.

(** Without an exited child the scan ends in the state it began in. *)
Lemma wait_scan_none addr ks :
  first_zombie p 0 (k_procs k) = None →
  wait_scan p addr (seq 0 NPROC) false ks in_wait = Ok (inr (has_children p (k_procs k))) ks in_wait.
Proof.
  intros Hz. pose proof (kt_procs _ _ _ Hk) as Hlen. unfold procs_ok in Hlen.
  pose proof (wait_scan_skip addr NPROC 0 false [] ks) as H. rewrite app_nil_r, drop_0, take_ge in H by lia.
  rewrite H by done. reflexivity.
Qed.

Lemma in_wait_settle : settle m_wait = m_wait.
Proof. apply settle_nested. rewrite m_wait_noff. lia. Qed.

Lemma in_wait_killed pr ks : k_procs k !! p = Some pr → killed p ks in_wait = Ok (p_killed pr) ks in_wait.
Proof.
  intros Hpr. pose proof (lookup_lt_Some _ _ _ Hpr) as Hlt. rewrite (kt_procs _ _ _ Hk) in Hlt.
  rewrite (killed_run p pr); [|apply m_wait_ok| |done].
  - unfold in_wait. cbn. by rewrite in_wait_settle.
  - apply lock_free_take; [done|]. apply Hk. by apply wait_lock_static.
Qed.

Lemma in_wait_before_sleep pr : k_procs k !! p = Some pr → before_sleep L_wait p in_wait.
Proof.
  intros Hpr. pose proof (lookup_lt_Some _ _ _ Hpr) as Hlt. rewrite (kt_procs _ _ _ Hk) in Hlt. split.
  - apply m_wait_ok.
  - cbn. unfold m_wait. rewrite c_proc_take by apply Hk. apply Hk.
  - apply lock_held_take.
  - apply m_wait_noff.
  - apply lock_free_take; [done|]. apply Hk. by apply wait_lock_static.
  - done.
  - by exists pr.
Qed.

(** A process without an exited child fails or sleeps. *)
Lemma wait_idle addr pr ks :
  first_zombie p 0 (k_procs k) = None → k_procs k !! p = Some pr →
  (has_children p (k_procs k) = false ∨ p_killed pr ≠ 0 → wait addr ks k = Ok (-1) ks k) ∧
  (has_children p (k_procs k) = true → p_killed pr = 0 →
   wait addr [] k = Blocked (sleep_state (Ch_proc p) L_wait p in_wait)).
Proof.
  intros Hz Hpr. split.
  - intros Hc. rewrite wait_start. cbn [while_fuel]. rewrite bind_run. unfold wait_body at 1.
    rewrite bind_run, wait_scan_none by done.
    assert (Hstop : (if negb (has_children p (k_procs k)) then mret true else r ← killed p; mret (truthy r)) ks in_wait
      = Ok true ks in_wait).
    { destruct (has_children p (k_procs k)); [|done]. cbn [negb]. rewrite bind_run, (in_wait_killed pr) by done.
      destruct Hc as [|Hc]; [done|]. unfold truthy. apply Z.eqb_neq in Hc. by rewrite Hc. }
    rewrite bind_run, Hstop. rewrite bind_run, (thread_release p pid L_wait k in_wait ks) by done.
    change (in_wait <| k_mach := k_mach k |>) with (k <| k_mach := k_mach k |>). by rewrite with_mach_id.
  - intros Hc Hkl. rewrite wait_start. cbn [while_fuel length]. rewrite bind_run. unfold wait_body at 1.
    rewrite bind_run, wait_scan_none by done. rewrite Hc. cbn [negb].
    rewrite bind_run, bind_run, (in_wait_killed pr), Hkl by done. rewrite ret_run. cbn [truthy Z.eqb negb].
    rewrite bind_run, (sleep_run _ _ p) by (by apply (in_wait_before_sleep pr)). reflexivity.
Qed.

(** The parent, with page table [Tp], and its exited child [x]. *)
Context (pp : nat) (x pr : proc) (Tp T : tree) (es l : list Z).
Hypothesis Hparent : vm_ok k (p_pagetable pr) Tp l.
Hypothesis Hsep : user_sep (k_mem k) Tp l.
Hypothesis Hapart : apart (k_mem k) Tp (pages_of x T es).
Hypothesis Hown : owns_memory k x T es l.

(** The copy of the exit status. *)
Lemma wait_status_copied addr ks :
  0 ≤ addr →
  let kc := k <| k_mach := m_child pp |> in
  ∃ r m', (if addr =? 0 then mret 0 else copyout (p_pagetable pr) addr (status_bytes x)) ks kc =
      Ok r ks (kc <| k_mem := m' |>) ∧
    (r = 0 ∧ deliverable (k_mem k) Tp addr ∧ delivered (k_mem k) m' Tp addr x ∨
     r = -1 ∧ ¬ deliverable (k_mem k) Tp addr) ∧
    owns_memory (kc <| k_mem := m' |>) x T es l ∧
    pt_wf m' (p_pagetable pr) Tp ∧ user_sep m' Tp l ∧ apart m' Tp (pages_of x T es).
Proof.
  intros Ha kc. pose proof (owns_memory_locked pp _ _ _ _ Hown) as Hown'.
  destruct (Z.eqb_spec addr 0) as [->|Hne].
  - exists 0, (k_mem k). split; [by destruct k|]. split; [left; split; [done|split; [by left|]]|].
    + intros a _. rewrite decide_False by tauto. done.
    + split; [exact Hown'|]. split; [apply Hparent|]. by split.
  - assert (Hb : Forall (λ b, 0 ≤ b < 256) (status_bytes x)) by apply Z_to_bytes_range.
    destruct (copyout_loop_spec (S (length (status_bytes x))) (p_pagetable pr) addr (status_bytes x) ks kc Tp l)
      as (r & m' & H1 & C); [by apply vm_ok_locked|done|done|done|lia|].
    exists r, m'. split; [exact H1|].
    pose proof (copyout_keeps kc (p_pagetable pr) Tp x T es l addr (status_bytes x) r m' Hsep Hapart Hown' Ha C) as Hk'.
    destruct C as [C1 C2 C3 C4 C5]. split; [|split; [exact Hk'|split; [apply C1|split; [exact C2|]]]].
    + unfold deliverable, delivered. destruct C5 as [(-> & Hw & Hu)|[-> Hw]]; [left|right]; (split; [done|]).
      * split; [by right|]. intros a Ha'. rewrite (Hu a Ha').
        change (Z.of_nat (length (status_bytes x))) with 4. repeat case_decide; try done; tauto.
      * intros [?|?]; done.
    + destruct Hapart as [At Ap]. split; [done|]. intros va Hva. rewrite C3. by apply Ap.
Qed.

Hypothesis Hzombie : first_zombie p 0 (k_procs k) = Some pp.
Hypothesis Hx : k_procs k !! pp = Some x.
Hypothesis Hpr : k_procs k !! p = Some pr.

(** The scan reaches the child. *)
Lemma wait_at_child addr h l2 ks :
  wait_scan p addr (pp :: l2) h ks in_wait =
  (r ← (if addr =? 0 then mret 0 else copyout (p_pagetable pr) addr (status_bytes x));
   if r <? 0 then release (L_proc pp) ;; release L_wait ;; mret (inl (-1))
   else freeproc pp ;; release (L_proc pp) ;; release L_wait ;; mret (inl (p_pid x))) ks
  (k <| k_mach := m_child pp |>).
Proof.
  destruct (first_zombie_split _ _ _ _ Hzombie) as (n & y & E & Hy & Hc & Hzb & _).
  rewrite Nat.add_0_l in E. subst n. rewrite Hx in Hy. injection Hy as <-.
  destruct (wait_found pp x addr h l2 ks Hx Hc Hzb) as (pr' & Hpr' & ->).
  rewrite Hpr in Hpr'. injection Hpr' as <-. reflexivity.
Qed.

Lemma child_index : (pp < NPROC)%nat.
Proof. rewrite <- (kt_procs _ _ _ Hk). by eapply lookup_lt_Some. Qed.

Lemma wait_reaps_runs addr ks :
  0 ≤ addr →
  (deliverable (k_mem k) Tp addr →
   ∃ k' l', wait addr ks k = Ok (p_pid x) ks k' ∧ k_procs k' = alter freed pp (k_procs k) ∧
     mem_state k' l' ∧ l' ≡ₚ pages_of x T es ++ l ∧ k_mach k' = k_mach k ∧
     delivered (k_mem k) (k_mem k') Tp addr x) ∧
  (¬ deliverable (k_mem k) Tp addr →
   ∃ m', wait addr ks k = Ok (-1) ks (k <| k_mem := m' |>) ∧ owns_memory (k <| k_mem := m' |>) x T es l).
Proof.
  intros Ha. destruct (wait_status_copied addr ks Ha)
    as (r & m' & H1 & Hr & Hown' & Hwf' & Hsep' & Hap').
  rewrite wait_start. split; intros Hd; destruct Hr as [(-> & Hd' & Hs)|[-> Hd']]; try done.
  - set (kc := k <| k_mach := m_child pp |> <| k_mem := m' |>) in *.
    destruct (freeproc_spec pp x T es l ks kc Hx Hown') as (k1 & l1 & F1 & F2 & F3 & F4 & F5 & F6).
    assert (Em : k_mach k1 = m_child pp).
    { destruct F4 as [E|E]; rewrite E; [done|]. apply m_child_settle. }
    exists (k1 <| k_mach := k_mach k |>), l1. split.
    + apply (wait_turn addr (length ks) pp x); [done|done|]. intros h l2.
      rewrite wait_at_child, bind_run, H1. cbn [Z.ltb Z.compare]. rewrite bind_run, F1.
      apply wait_leave; [apply child_index|done].
    + split; [exact (f_equal k_procs F6)|]. split; [destruct F2; split; [apply Hparent|done|done]|]. split.
      { rewrite F3. unfold pages_of. cbn. by rewrite <- (assoc_L app). }
      split; [done|]. intros a Ha'. rewrite <- (Hs a Ha').
      apply (user_byte_apart m' _ (p_pagetable pr) Tp l (pages_of x T es)); try done.
      by eapply owns_pages_ok.
  - exists m'. split.
    + apply (wait_turn addr (length ks) pp x); [done|done|]. intros h l2.
      rewrite wait_at_child, bind_run, H1. cbn [Z.ltb Z.compare].
      rewrite wait_leave; [|apply child_index|done]. by destruct k.
    + destruct Hown' as [[V1 V2 V3 V4 V5] H2 H3 H4 H5 H6 H7 H8 H9 H10 H11]. split; try assumption.
      split; try assumption. apply Hparent.
Qed.
End waiting.

(** ** reparent() *)

(** A child of [p] gets the parent [init]; others keep theirs. *)
Definition adopt (p : nat) (init : option nat) (x : proc) : proc :=
  if child_of p x then x <| p_parent := init |> else x.

(** The process table after reparent(p), called by [me]: if there was a child,
    init has been woken. *)
Definition reparented (p : nat) (init : nat) (me : option nat) (ps : list proc) : list proc :=
  imap (λ i x, let x' := adopt p (Some init) x in
    if has_children p ps && negb (bool_decide (me = Some i)) then wake1 (Ch_proc init) x' else x') ps.

(** The table after the first [j] turns of the loop. *)
Definition reparented_to (p init : nat) (me : option nat) (j : nat) (ps : list proc) : list proc :=
  imap (λ i x, let x' := if decide (i < j)%nat then adopt p (Some init) x else x in
    if has_children p (take j ps) && negb (bool_decide (me = Some i)) then wake1 (Ch_proc init) x' else x') ps.

Lemma has_children_snoc p ps x : has_children p (ps ++ [x]) = has_children p ps || child_of p x.
Proof. unfold has_children. rewrite existsb_app. cbn. by rewrite orb_false_r. Qed.

Lemma wake1_parent chan o x : wake1 chan (x <| p_parent := o |>) = (wake1 chan x) <| p_parent := o |>.
Proof. unfold wake1. cbn. by destruct (_ && _). Qed.

Lemma wake1_wake1 chan x : wake1 chan (wake1 chan x) = wake1 chan x.
Proof.
  unfold wake1. destruct (bool_decide (p_state x = SLEEPING)) eqn:E1, (bool_decide (p_chan x = Some chan)) eqn:E2;
    cbn [andb]; cbn; rewrite ?E1, ?E2; done.
Qed.

Lemma child_of_wake1 p chan x : child_of p (wake1 chan x) = child_of p x.
Proof. unfold wake1. by destruct (_ && _). Qed.

Section reparent.
Context (p init : nat) (me : option nat).

(** The body of the loop. *)
Definition reparent_body (pp : nat) : M kernel unit :=
  x ← proc_get pp;
  when (bool_decide (p_parent x = Some p))
    (init ← gets k_initproc;
     proc_set pp (λ x, x <| p_parent := init |>) ;;
     wakeup_proc init).

Record reparent_ready (k : kernel) : Prop := {
  rr_ok : machine_ok (k_mach k);
  rr_proc : c_proc (this_cpu (k_mach k)) = me;
  rr_held : 0 < c_noff (this_cpu (k_mach k));
  rr_locks : proc_locks_free me (k_mach k);
  rr_init : k_initproc k = Some init;
  rr_procs : procs_ok k;
}.

Lemma reparent_ready_procs k ps :
  reparent_ready k → length ps = length (k_procs k) → reparent_ready (k <| k_procs := ps |>).
Proof. intros [H1 H2 H3 H4 H5 H6] Hl. split; try done. unfold procs_ok in *. cbn. congruence. Qed.

Lemma reparent_body_run j x ks k :
  reparent_ready k → k_procs k !! j = Some x →
  reparent_body j ks k = Ok tt ks (k <| k_procs :=
    if child_of p x then woken (Ch_proc init) me (alter (λ x, x <| p_parent := Some init |>) j (k_procs k))
    else k_procs k |>).
Proof.
  intros Hr Hj. pose proof Hr as [Hm Hme Hh Hl Hi Hp]. unfold reparent_body, child_of.
  rewrite bind_run. cbn [proc_get deref]. rewrite Hj.
  destruct (bool_decide (p_parent x = Some p)); cbn [when]; [|by destruct k].
  rewrite bind_run. cbn [gets]. rewrite Hi. rewrite bind_run. cbn [proc_set modify wakeup_proc].
  rewrite (wakeup_run _ me); [|done|done|done|unfold procs_ok in *; cbn; by rewrite length_alter].
  cbn. do 2 f_equal. rewrite settle_nested by done. by destruct k.
Qed.

Lemma reparented_to_lookup j ps i x :
  ps !! i = Some x →
  reparented_to p init me j ps !! i = Some (
    let x' := if decide (i < j)%nat then adopt p (Some init) x else x in
    if has_children p (take j ps) && negb (bool_decide (me = Some i)) then wake1 (Ch_proc init) x' else x').
Proof. intros Hx. unfold reparented_to. rewrite list_lookup_imap, Hx. reflexivity. Qed.

Lemma before_S {A} (i j : nat) (a b : A) :
  i ≠ j → (if decide (i < S j)%nat then a else b) = (if decide (i < j)%nat then a else b).
Proof. intros. repeat case_decide; done || lia. Qed.

Lemma reparented_to_S j ps x :
  ps !! j = Some x →
  reparented_to p init me (S j) ps =
    if child_of p x
    then woken (Ch_proc init) me (alter (λ x, x <| p_parent := Some init |>) j (reparented_to p init me j ps))
    else reparented_to p init me j ps.
Proof.
  intros Hj. assert (Hc : has_children p (take (S j) ps) = has_children p (take j ps) || child_of p x)
    by (by rewrite (take_snoc_lookup _ _ _ Hj), has_children_snoc).
  apply list_eq. intros i. destruct (ps !! i) as [y|] eqn:Hy.
  2:{ unfold woken, reparented_to. destruct (child_of p x);
      rewrite !list_lookup_imap, ?list_lookup_alter, Hy; [|done].
      rewrite decide_False by congruence. by rewrite list_lookup_imap, Hy. }
  rewrite (reparented_to_lookup _ _ _ _ Hy), Hc. cbv zeta.
  destruct (child_of p x) eqn:Ex.
  - unfold woken. rewrite list_lookup_imap, list_lookup_alter.
    rewrite orb_true_r. cbn [andb].
    destruct (decide (j = i)) as [->|Hne].
    + rewrite (reparented_to_lookup _ _ _ _ Hj). cbv zeta. rewrite Hj in Hy. injection Hy as <-.
      rewrite decide_True, decide_False by lia. unfold adopt. rewrite Ex.
      destruct (decide (me = Some i)) as [Em|Em]; rewrite ?bool_decide_eq_true_2, ?bool_decide_eq_false_2 by done;
        cbn [negb]; rewrite ?andb_false_r, ?andb_true_r; cbn [fmap option_fmap option_map];
        rewrite ?decide_True, ?decide_False by done; [done|].
      destruct (has_children p (take i ps)); [|reflexivity].
      by rewrite !wake1_parent, wake1_wake1.
    + rewrite (reparented_to_lookup _ _ _ _ Hy). cbv zeta. rewrite before_S by done.
      set (y' := if decide (i < j)%nat then _ else _). cbn [fmap option_fmap option_map].
      destruct (decide (me = Some i)) as [Em|Em]; rewrite ?bool_decide_eq_true_2, ?bool_decide_eq_false_2 by done;
        cbn [negb]; rewrite ?andb_false_r, ?andb_true_r; rewrite ?decide_True, ?decide_False by done; [done|].
      destruct (has_children p (take j ps)); [by rewrite wake1_wake1|reflexivity].
  - rewrite orb_false_r, (reparented_to_lookup _ _ _ _ Hy). cbv zeta. f_equal.
    destruct (decide (i = j)) as [->|Hne].
    + rewrite Hj in Hy. injection Hy as <-. rewrite decide_True, decide_False by lia. unfold adopt. by rewrite Ex.
    + by rewrite before_S.
Qed.

Lemma reparented_to_length j ps : length (reparented_to p init me j ps) = length ps.
Proof. apply length_imap. Qed.

Lemma reparent_loop n j ps ks k :
  (j + n = NPROC)%nat → reparent_ready k → length ps = NPROC → k_procs k = reparented_to p init me j ps →
  for_each (seq j n) reparent_body ks k = Ok tt ks (k <| k_procs := reparented_to p init me (j + n) ps |>).
Proof.
  revert j k. induction n as [|n IH]; intros j k Hn Hr Hl Hps.
  { cbn. rewrite Nat.add_0_r, <- Hps. by destruct k. }
  destruct (lookup_lt_is_Some_2 ps j) as [x Hx]; [lia|].
  cbn [seq for_each]. rewrite bind_run.
  erewrite reparent_body_run; [|done|rewrite Hps; exact (reparented_to_lookup j ps j x Hx)].
  assert (E : child_of p (let x' := if decide (j < j)%nat then adopt p (Some init) x else x in
    if has_children p (take j ps) && negb (bool_decide (me = Some j)) then wake1 (Ch_proc init) x' else x') =
    child_of p x).
  { cbv zeta. rewrite decide_False by lia. destruct (_ && _); [apply child_of_wake1|done]. }
  rewrite E, Hps, <- (reparented_to_S _ _ _ Hx).
  replace (j + S n)%nat with (S j + n)%nat by lia. rewrite IH; [reflexivity|lia| |done|reflexivity].
  apply reparent_ready_procs; [done|]. by rewrite Hps, !reparented_to_length.
Qed.

Lemma reparent_runs ks k :
  reparent_ready k →
  reparent p ks k = Ok tt ks (k <| k_procs := reparented p init me (k_procs k) |>).
Proof.
  intros Hr. pose proof (rr_procs _ Hr) as Hl. unfold procs_ok in Hl.
  assert (E0 : reparented_to p init me 0 (k_procs k) = k_procs k).
  { apply list_eq. intros i. unfold reparented_to. rewrite list_lookup_imap. by destruct (k_procs k !! i). }
  assert (En : reparented_to p init me NPROC (k_procs k) = reparented p init me (k_procs k)).
  { apply list_eq. intros i. unfold reparented_to, reparented. rewrite !list_lookup_imap.
    destruct (k_procs k !! i) eqn:Hi; [|done]. apply lookup_lt_Some in Hi. cbn [fmap option_fmap option_map]. cbv zeta.
    rewrite decide_True, take_ge by lia. done. }
  rewrite <- En. apply (reparent_loop NPROC 0); [done|done|done|by rewrite E0].
Qed.
End reparent.
End procspec.
