(* ===== verification/AllocSpec.v ===== *)
(** * Making a process: proc_pagetable() and allocproc() of proc.c

    allocproc() either takes an unused slot, with a trapframe page and a page
    table of its own, or gives back every page it took. *)

From S2P Require Import Prelude KMonad Memory Riscv State Spinlock CString Kalloc Vm VmUser.
From S2P Require Import VmFree VmCopy Sched Uart Printf Console Pipe Sleeplock Bio Log Fs File ProcLife ProcSpec.

Section allocspec.
Context `{KI : KernelImage}.

(** ** proc_pagetable() *)

Lemma uvmcreate_none ks k :
  mem_state k [] → ∃ k', uvmcreate ks k = Ok 0 ks k' ∧ mem_state k' [] ∧ vm_frame k k' ∧ k_mem k' = k_mem k.
Proof.
  intros [Hr Hb Hf]. pose proof (fl_chain _ _ _ Hf) as Hh. cbn in Hh.
  unfold uvmcreate. rewrite bind_run, kalloc_run, Hh by done. cbn [truthy Z.eqb negb].
  eexists. split; [reflexivity|]. split; [|split; [split; [by right|done]|done]].
  split; [by apply (kmem_ready_settle k)|done|done].
Qed.

(** One page is mapped, or no page for a table is left. *)
Lemma map_one pt va pa perm ks k T l :
  vm_ok k pt T l → page_aligned va → 0 ≤ va → va + PGSIZE ≤ MAXVA →
  page_aligned pa → 0 ≤ pa → pa + PGSIZE ≤ 2 ^ 56 → 0 ≤ perm < 1024 → leaf (k_mem k) T va = 0 →
  ∃ r k' T' l', mappages pt va PGSIZE pa perm ks k = Ok r ks k' ∧ vm_step pt k T l k' T' l' ∧ (r = 0 ∨ r = -1) ∧
    ∀ va', 0 ≤ va' < MAXVA → page_aligned va' →
      leaf (k_mem k') T' va' = if decide (r = 0 ∧ va' = va) then leaf_pte pa perm else leaf (k_mem k) T va'.
Proof.
  intros Hok Hal Hva Hend Hpa Hpa0 Hpe Hperm Hz.
  destruct (mappages_spec 0 pt va pa perm ks k T l) as (r & j & k' & T' & l' & H1 & Hst & Hm & Hr); try done.
  { intros i Hi. assert (i = 0%nat) as -> by lia. by rewrite Z.add_0_r. }
  exists r, k', T', l'. split; [exact H1|]. split; [done|]. split; [destruct Hr as [[? _]|[? _]]; auto|].
  intros va' Hva' Hal'. rewrite Hm by done. pose proof (page_aligned_gap va va' Hal Hal') as Hg.
  destruct Hr as [[-> ->]|(-> & Hj & _)].
  - change (Z.of_nat 1) with 1. unfold PGSIZE in *.
    destruct (decide (va' = va)) as [->|Hne].
    + rewrite !decide_True by lia. f_equal. lia.
    + rewrite !decide_False by lia. done.
  - assert (j = 0%nat) as -> by lia. rewrite !decide_False by lia. done.
Qed.

(** A page table without leaves goes back to the allocator. *)
Lemma uvmfree_empty pt ks k T l :
  vm_ok k pt T l → (∀ va, 0 ≤ va < MAXVA → page_aligned va → leaf (k_mem k) T va = 0) →
  ∃ k' l', uvmfree pt 0 ks k = Ok tt ks k' ∧ mem_state k' l' ∧ l' ≡ₚ tables T ++ l ∧ vm_frame k k' ∧
    pages_frame (tables T) (k_mem k) (k_mem k').
Proof.
  intros Hok Hz. destruct (uvmfree_spec pt 0 [] ks k T l) as (k' & l' & H1 & H2 & H3 & H4 & H5); try done.
  - apply Hok.
  - exists k', l'. by split_and!.
Qed.

(** The leaves of a page table that proc_pagetable() made. *)
Definition fresh_leaf (tf va : Z) : Z :=
  if decide (va = TRAMPOLINE) then leaf_pte trampoline (Z.lor PTE_R PTE_X)
  else if decide (va = TRAPFRAME) then leaf_pte tf (Z.lor PTE_R PTE_W) else 0.

(** A failed proc_pagetable() has returned every page; a successful one has
    made some of the free pages [l] into the tables [T]. *)
Definition pagetable_made (tf : Z) (l : list Z) (r : Z) (k' : kernel) : Prop :=
  (r = 0 ∧ ∃ l', mem_state k' l' ∧ l' ≡ₚ l) ∨
  (∃ T l', vm_ok k' r T l' ∧ tables T ++ l' ≡ₚ l ∧
    ∀ va, 0 ≤ va < MAXVA → page_aligned va → leaf (k_mem k') T va = fresh_leaf tf va).

Lemma perm_RX : 0 ≤ Z.lor PTE_R PTE_X < 1024 ∧ 0 ≤ Z.lor PTE_R PTE_W < 1024.
Proof. by_eval. Qed.

Lemma trampoline_page : page_aligned trampoline ∧ 0 ≤ trampoline ∧ trampoline + PGSIZE ≤ 2 ^ 56.
Proof.
  pose proof trampoline_aligned. pose proof trampoline_range. pose proof etext_range. pose proof kend_range.
  unfold KERNBASE, PHYSTOP, PGSIZE in *. split_and!; [done|lia|]. unfold KERNBASE in *. lia.
Qed.

Lemma trampoline_leaf : leaf_entry (leaf_pte trampoline (Z.lor PTE_R PTE_X)).
Proof.
  destruct trampoline_page as (H1 & H2 & H3). destruct perm_RX as [Hp _].
  pose proof (leaf_pte_valid trampoline (Z.lor PTE_R PTE_X)) as HV. unfold truthy in HV.
  apply negb_true_iff, Z.eqb_neq in HV. split; [done|].
  rewrite leaf_pte_flags by (done || unfold PGSIZE in *; lia). by_eval.
Qed.

(** From the page table with the trampoline on: the trapframe page. *)
Lemma proc_pagetable_trapframe tf pt ks k T l :
  vm_ok k pt T l → page_ok tf →
  (∀ va, 0 ≤ va < MAXVA → page_aligned va → leaf (k_mem k) T va =
    if decide (va = TRAMPOLINE) then leaf_pte trampoline (Z.lor PTE_R PTE_X) else 0) →
  ∃ r k', (r ← mappages pt TRAPFRAME PGSIZE tf (Z.lor PTE_R PTE_W);
           if r <? 0 then uvmunmap pt TRAMPOLINE 1 false ;; uvmfree pt 0 ;; mret 0 else mret pt) ks k = Ok r ks k' ∧
    vm_frame k k' ∧ pages_frame (tables T ++ l) (k_mem k) (k_mem k') ∧ pagetable_made tf (tables T ++ l) r k'.
Proof.
  intros Hok Htf Hlf. destruct trapframe_layout as (E1 & E2 & A1 & A2 & EM & EP).
  destruct (page_ok_pa tf Htf) as [Hr Ha]. pose proof (page_ok_pos tf Htf).
  destruct (map_one pt TRAPFRAME tf (Z.lor PTE_R PTE_W) ks k T l)
    as (r & k1 & T1 & l1 & H1 & S1 & Hres & L1); [done|done|lia|lia|done|lia| |apply perm_RX| |].
  { pose proof (proj2 (page_ok_pos tf Htf)). unfold PHYSTOP, KERNBASE in *. lia. }
  { rewrite Hlf by (done || lia). by rewrite decide_False by lia. }
  destruct S1 as [Hok1 P1 M1 _ F1]. rewrite bind_run, H1. destruct Hres as [-> | ->]; cbn [Z.ltb Z.compare].
  - exists pt, k1. split; [done|]. split; [done|]. split; [done|]. right. exists T1, l1. split; [done|]. split; [done|].
    intros va Hva Hal. rewrite L1, Hlf by done. unfold fresh_leaf. repeat case_decide; try done; try lia; tauto.
  - destruct (uvmunmap_one pt TRAMPOLINE ks k1 T1 l1) as (k2 & H2 & Hok2 & F2 & M2 & L2); [done|done|lia|lia| |].
    { rewrite L1, Hlf by (done || lia). rewrite decide_False, decide_True by (done || lia). apply trampoline_leaf. }
    destruct (uvmfree_empty pt ks k2 T1 l1) as (k3 & l3 & H3 & MS & P3 & F3 & M3); [done| |].
    { intros va Hva Hal. rewrite L2, L1, Hlf by done. repeat case_decide; try done; lia. }
    exists 0, k3. split; [by rewrite bind_run, H2, bind_run, H3|].
    split; [eapply vm_frame_trans; [apply Hok|done|]; eapply vm_frame_trans; [apply Hok1|done|done]|]. split.
    + assert (Hsub : tables T1 ⊆ tables T ++ l) by (rewrite <- P1; set_solver).
      eapply pages_frame_trans; [done|].
      eapply pages_frame_trans; (eapply pages_frame_mono; [exact Hsub|done]).
    + left. split; [done|]. exists l3. split; [done|]. by rewrite P3.
Qed.

Lemma tables_root (r : Z) : tables {[ [] := r ]} = [r].
Proof. unfold tables. by rewrite map_to_list_singleton. Qed.

Lemma proc_pagetable_spec p x ks k l :
  k_procs k !! p = Some x → page_ok (p_trapframe x) → mem_state k l →
  ∃ r k', proc_pagetable p ks k = Ok r ks k' ∧ vm_frame k k' ∧ pages_frame l (k_mem k) (k_mem k') ∧
    pagetable_made (p_trapframe x) l r k'.
Proof.
  intros Hx Htf MS. destruct trapframe_layout as (E1 & E2 & A1 & A2 & EM & EP).
  destruct trampoline_page as (Ta & T0 & Te). unfold proc_pagetable.
  destruct l as [|q l].
  { destruct (uvmcreate_none ks k MS) as (k1 & H1 & MS1 & F1 & M1). rewrite bind_run, H1.
    exists 0, k1. split; [done|]. split; [done|]. split; [by intros y _; rewrite M1|]. left. split; [done|]. by exists []. }
  destruct (uvmcreate_spec ks k q l) as (k1 & H1 & Hok1 & L1 & F1 & M1); [apply MS..|].
  assert (Hq : page_ok q) by (eapply wf_page, wf_root; apply Hok1).
  pose proof (page_ok_pos q Hq). rewrite bind_run, H1. destruct (Z.eqb_spec q 0); [lia|].
  destruct (map_one q TRAMPOLINE trampoline (Z.lor PTE_R PTE_X) ks k1 {[ [] := q ]} l)
    as (r & k2 & T2 & l2 & H2 & S2 & Hres & L2); [done|done|lia|lia|done|lia|lia|apply perm_RX|apply L1|].
  destruct S2 as [Hok2 P2 M2 _ F2]. rewrite tables_root in P2, M2. cbn [app] in P2, M2.
  assert (F12 : vm_frame k k2) by (eapply vm_frame_trans; [apply MS|done|done]).
  assert (M12 : pages_frame (q :: l) (k_mem k) (k_mem k2))
    by (eapply pages_frame_trans; [eapply pages_frame_mono; [|exact M1]; set_solver|done]).
  rewrite bind_run, H2. destruct Hres as [-> | ->]; cbn [Z.ltb Z.compare].
  - rewrite bind_run. cbn [proc_get deref]. destruct (vm_frame_other _ _ F12) as [-> _]. rewrite Hx.
    destruct (proc_pagetable_trapframe (p_trapframe x) q ks k2 T2 l2) as (r & k3 & H3 & F3 & M3 & R3); [done|done| |].
    { intros va Hva Hal. rewrite L2, L1 by done. repeat case_decide; try done; tauto. }
    exists r, k3. split; [exact H3|]. split; [eapply vm_frame_trans; [apply MS|done|done]|]. split.
    + eapply pages_frame_trans; [exact M12|]. eapply pages_frame_mono; [|exact M3]. by rewrite P2.
    + destruct R3 as [(-> & l' & ? & P)|(T' & l' & ? & P & ?)]; [left|right].
      * split; [done|]. exists l'. split; [done|]. by rewrite P.
      * exists T', l'. split; [done|]. split; [by rewrite P|done].
  - destruct (uvmfree_empty q ks k2 T2 l2) as (k3 & l3 & H3 & MS3 & P3 & F3 & M3); [done| |].
    { intros va Hva Hal. rewrite L2, L1 by done. by case_decide. }
    exists 0, k3. split; [by rewrite bind_run, H3|]. split; [eapply vm_frame_trans; [apply MS|done|done]|]. split.
    + eapply pages_frame_trans; [exact M12|]. eapply pages_frame_mono; [|exact M3]. rewrite <- P2. set_solver.
    + left. split; [done|]. exists l3. split; [done|]. by rewrite P3.
Qed.

(** ** allocproc() *)

Lemma kalloc_mem ks k q l :
  mem_state k (q :: l) →
  ∃ k', kalloc ks k = Ok q ks k' ∧ mem_state k' l ∧ page_ok q ∧ (q ∉ l) ∧ vm_frame k k' ∧
    pages_frame [q] (k_mem k) (k_mem k').
Proof.
  intros [Hr Hb Hf]. pose proof Hf as [[Hh _] Hn Hpo].
  apply NoDup_cons in Hn as [Hni Hn]. apply Forall_cons in Hpo as [Hp _].
  eexists. rewrite kalloc_run, Hh, truthy_page by done. split; [done|].
  split; [|split_and!; [done|done|split; [by right|done]|apply pages_frame_fill; constructor]].
  split; [by apply (kmem_ready_settle k)|cbn; auto with ints|].
  apply freelist_pop. unfold free_pages in Hf. by rewrite Hh in Hf.
Qed.

Lemma kalloc_mem_none ks k :
  mem_state k [] → ∃ k', kalloc ks k = Ok 0 ks k' ∧ mem_state k' [] ∧ vm_frame k k' ∧ k_mem k' = k_mem k.
Proof.
  intros [Hr Hb Hf]. pose proof (fl_chain _ _ _ Hf) as Hh. cbn in Hh.
  eexists. rewrite kalloc_run, Hh by done. split; [done|].
  split; [|split; [split; [by right|done]|done]]. split; [by apply (kmem_ready_settle k)|done|done].
Qed.

Lemma kfree_mem ks k q l :
  mem_state k l → page_ok q → q ∉ l →
  ∃ k', kfree q ks k = Ok tt ks k' ∧ mem_state k' (q :: l) ∧ vm_frame k k' ∧ pages_frame [q] (k_mem k) (k_mem k').
Proof.
  intros [Hr Hb Hf] Hp Hni. destruct (kfree_gives_back ks k q l Hr Hf Hp Hni) as (k' & H1 & R & L & _ & M & B & F).
  exists k'. split; [done|]. split; [split; [done|by apply B|done]|]. split; [done|].
  intros y Hy. apply M. intros q' ->. apply Hy. constructor.
Qed.

(** Code that holds a lock: the memory operations leave the machine alone. *)
Definition nested (k : kernel) : Prop := machine_ok (k_mach k) ∧ 0 < c_noff (this_cpu (k_mach k)).

Definition with_mem (k : kernel) (m : memory) (f : Z) : kernel := k <| k_mem := m |> <| k_freelist := f |>.

Lemma vm_frame_nested k k' : nested k → vm_frame k k' → k' = with_mem k (k_mem k') (k_freelist k').
Proof.
  intros [_ Hn] [Hs E]. assert (Em : k_mach k' = k_mach k) by (destruct Hs as [E1|E1]; rewrite E1; [done|by apply settle_nested]).
  rewrite Em in E. unfold with_mem. rewrite E at 1. by destruct k.
Qed.

Lemma mem_state_same k k' l :
  mem_state k l → k_mem k' = k_mem k → k_freelist k' = k_freelist k → k_mach k' = k_mach k → mem_state k' l.
Proof.
  intros [H1 H2 H3] E1 E2 E3. split; unfold kmem_ready, free_pages in *; rewrite ?E1, ?E2, ?E3; done.
Qed.

(** A slot that is not in use has no memory and no open files. *)
Record unused (x : proc) : Prop := {
  un_state : p_state x = UNUSED;
  un_trapframe : p_trapframe x = 0;
  un_pagetable : p_pagetable x = 0;
  un_sz : p_sz x = 0;
  un_ofile : p_ofile x = replicate NOFILE None;
}.

Lemma freed_unused x : p_ofile x = replicate NOFILE None → unused (freed x).
Proof. intros H. by split. Qed.

(** freeproc() of a process without a page table, after its trapframe. *)
Lemma freeproc_rest p x ks k1 k2 :
  k_procs k1 !! p = Some x → p_pagetable x = 0 → k_procs k2 = k_procs k1 →
  (when (truthy (p_trapframe x))
    (modify (λ k, k <| k_trapframes ::= delete (p_trapframe x) |>) ;;
     kfree (p_trapframe x))) ks k1 = Ok tt ks k2 →
  freeproc p ks k1 = Ok tt ks (k2 <| k_procs := alter freed p (k_procs k1) |>).
Proof.
  intros Hx Hpt Ep H2. unfold freeproc. rewrite bind_run. cbn [proc_get deref]. rewrite Hx.
  rewrite bind_run, H2. rewrite bind_run. cbn [proc_set modify]. rewrite bind_run. cbn [proc_get deref].
  assert (Hg : k_procs (k2 <| k_procs ::= alter (λ x, x <| p_trapframe := 0 |>) p |>) !! p =
    Some (x <| p_trapframe := 0 |>)) by (cbn; by rewrite Ep, list_lookup_alter_eq, Hx).
  rewrite Hg. change (p_pagetable (x <| p_trapframe := 0 |>)) with (p_pagetable x). rewrite Hpt.
  cbn [truthy Z.eqb negb when]. rewrite bind_run, ret_run.
  rewrite (freeproc_clears p (k_procs k1)) by (cbn; by rewrite Ep). reflexivity.
Qed.

Lemma freeproc_empty p x ks k :
  k_procs k !! p = Some x → p_trapframe x = 0 → p_pagetable x = 0 →
  freeproc p ks k = Ok tt ks (k <| k_procs := alter freed p (k_procs k) |>).
Proof. intros Hx Htf Hpt. apply (freeproc_rest p x); try done. by rewrite Htf. Qed.

Lemma freeproc_trapframe p x ks k l :
  k_procs k !! p = Some x → p_pagetable x = 0 → page_ok (p_trapframe x) → p_trapframe x ∉ l → mem_state k l →
  ∃ k2, freeproc p ks k = Ok tt ks (k2 <| k_procs := alter freed p (k_procs k) |>) ∧
    mem_state k2 (p_trapframe x :: l) ∧ vm_frame (k <| k_trapframes ::= delete (p_trapframe x) |>) k2 ∧
    pages_frame [p_trapframe x] (k_mem k) (k_mem k2).
Proof.
  intros Hx Hpt Htf Hni MS.
  destruct (kfree_mem ks (k <| k_trapframes ::= delete (p_trapframe x) |>) (p_trapframe x) l)
    as (k2 & H2 & MS2 & F2 & M2); [by apply (mem_state_same k)|done|done|].
  exists k2. split; [|done]. apply (freeproc_rest p x); [done|done|apply (vm_frame_other _ _ F2)|].
  rewrite truthy_page by done. cbn [when]. by rewrite bind_run.
Qed.

(** The slot allocproc() returns. *)
Definition allocated (x : proc) (pid tf pt : Z) : proc :=
  x <| p_pid := pid |> <| p_state := USED |> <| p_trapframe := tf |> <| p_pagetable := pt |>
    <| p_context := Context forkret_addr (p_kstack x + PGSIZE) (s_regs zero_context) |>.

Lemma allocated_memory k x pid tf pt T l :
  unused x → page_ok tf → tf ∉ tables T ++ l → vm_ok k pt T l →
  (∀ va, 0 ≤ va < MAXVA → page_aligned va → leaf (k_mem k) T va = fresh_leaf tf va) →
  owns_memory k (allocated x pid tf pt) T [] l.
Proof.
  intros [_ _ _ Hsz _] Htf Hni Hok Hlf. destruct trapframe_layout as (E1 & E2 & A1 & A2 & EM & EP).
  assert (HT : leaf (k_mem k) T TRAMPOLINE = leaf_pte trampoline (Z.lor PTE_R PTE_X)).
  { rewrite Hlf by (done || lia). unfold fresh_leaf. by rewrite decide_True. }
  assert (HF : leaf (k_mem k) T TRAPFRAME = leaf_pte tf (Z.lor PTE_R PTE_W)).
  { rewrite Hlf by (done || lia). unfold fresh_leaf. by rewrite decide_False, decide_True by (done || lia). }
  constructor; change (p_sz (allocated x pid tf pt)) with (p_sz x); rewrite ?Hsz.
  - exact Hok.
  - lia.
  - reflexivity.
  - by intros i e Hi.
  - constructor.
  - constructor.
  - exact Htf.
  - rewrite HT. apply trampoline_leaf.
  - rewrite HF. apply leaf_pte_entry; [done|apply perm_RX|by_eval].
  - intros va Hva Hal. change (PGROUNDUP 0) with 0 in Hva. rewrite Hlf by (done || lia).
    unfold fresh_leaf. by rewrite !decide_False by lia.
  - apply NoDup_cons. split; [exact Hni|apply Hok].
Qed.

(** The part of the kernel's state that making a process changes. *)
Definition kst (k : kernel) (m : memory) (f : Z) (tfs : gmap Z trapframe) (n : Z) (ps : list proc) : kernel :=
  k <| k_mem := m |> <| k_freelist := f |> <| k_trapframes := tfs |> <| k_nextpid := n |> <| k_procs := ps |>.

Lemma kst_id k : k = kst k (k_mem k) (k_freelist k) (k_trapframes k) (k_nextpid k) (k_procs k).
Proof. by destruct k. Qed.

Lemma kst_vm k m f tfs n ps k' :
  nested k → vm_frame (kst k m f tfs n ps) k' → k' = kst k (k_mem k') (k_freelist k') tfs n ps.
Proof.
  intros Hn HF. pose proof (vm_frame_nested (kst k m f tfs n ps) k' Hn HF) as E. rewrite E at 1. reflexivity.
Qed.

Lemma kst_mem k m f tfs n ps m' f' tfs' n' ps' l :
  mem_state (kst k m f tfs n ps) l → m' = m → f' = f → mem_state (kst k m' f' tfs' n' ps') l.
Proof. intros MS -> ->. by apply (mem_state_same (kst k m f tfs n ps)). Qed.

Lemma allocpid_run ks k m f tfs n ps :
  nested k → lock_free L_pid (k_mach k) →
  allocpid ks (kst k m f tfs n ps) = Ok n ks (kst k m f tfs (i32 (n + 1)) ps).
Proof.
  intros [Hm Hn] Hl. unfold allocpid. rewrite bind_run, acquire_run by done.
  rewrite bind_run. cbn [gets]. rewrite bind_run. cbn [modify].
  rewrite bind_run, (release_taken _ _ _ (k_mach k)) by done. rewrite settle_nested by done. by destruct k.
Qed.

(** What allocproc() leaves when it fails after taking slot [p]: the slot is
    free again and no page is lost. *)
Definition alloc_failed (k : kernel) (l : list Z) (p : nat) (k' : kernel) : Prop :=
  ∃ m f tfs l', k' = kst k m f tfs (i32 (k_nextpid k + 1)) (alter freed p (k_procs k)) ∧
    mem_state k' l' ∧ l' ≡ₚ l ∧ pages_frame l (k_mem k) m ∧ (∀ q, q ∉ l → tfs !! q = k_trapframes k !! q).

(** What it leaves when it succeeds: the process owns its trapframe page [tf]
    and its page table. *)
Definition alloc_done (k : kernel) (l : list Z) (p : nat) (x : proc) (k' : kernel) : Prop :=
  ∃ m f tf pt T l', k' = kst k m f (<[ tf := junk_trapframe ]> (k_trapframes k)) (i32 (k_nextpid k + 1))
      (alter (λ x, allocated x (k_nextpid k) tf pt) p (k_procs k)) ∧
    owns_memory k' (allocated x (k_nextpid k) tf pt) T [] l' ∧ tf :: tables T ++ l' ≡ₚ l ∧
    (∀ va, 0 ≤ va < MAXVA → page_aligned va → leaf m T va = fresh_leaf tf va) ∧
    pages_frame l (k_mem k) m.

(** freeproc() of a slot whose page table could not be made. *)
Lemma freeproc_kst p x tf ks k m f tfs n ps l :
  nested k → mem_state (kst k m f tfs n ps) l → ps !! p = Some x → p_trapframe x = tf → page_ok tf →
  tf ∉ l → p_pagetable x = 0 →
  ∃ m' f', freeproc p ks (kst k m f tfs n ps) = Ok tt ks (kst k m' f' (delete tf tfs) n (alter freed p ps)) ∧
    mem_state (kst k m' f' (delete tf tfs) n (alter freed p ps)) (tf :: l) ∧ pages_frame [tf] m m'.
Proof.
  intros Hn MS Hx <- Htf Hni Hpt.
  destruct (freeproc_trapframe p x ks (kst k m f tfs n ps) l) as (k2 & H2 & MS2 & F2 & M2); [done..|].
  pose proof (kst_vm k m f (delete (p_trapframe x) tfs) n ps k2 Hn F2) as E2.
  exists (k_mem k2), (k_freelist k2).
  assert (E : k2 <| k_procs := alter freed p ps |> =
    kst k (k_mem k2) (k_freelist k2) (delete (p_trapframe x) tfs) n (alter freed p ps)) by (by rewrite E2 at 1).
  change (k_procs (kst k m f tfs n ps)) with ps in H2. rewrite E in H2.
  split; [exact H2|]. split; [|exact M2]. rewrite E2 in MS2. by apply (kst_mem _ _ _ _ _ _ _ _ _ _ _ _ MS2).
Qed.

(** allocproc() from the new pid on. *)
Lemma allocproc_found_start p ks k :
  nested k → lock_free L_pid (k_mach k) →
  allocproc_found p ks k =
  (tf ← kalloc;
   proc_set p (λ x, x <| p_trapframe := tf |>) ;;
   if tf =? 0 then freeproc p ;; release (L_proc p) ;; mret None
   else
   modify (λ k, k <| k_trapframes ::= <[ tf := junk_trapframe ]> |>) ;;
   pt ← proc_pagetable p;
   proc_set p (λ x, x <| p_pagetable := pt |>) ;;
   if pt =? 0 then freeproc p ;; release (L_proc p) ;; mret None
   else
   proc_set p (λ x, x <| p_context := zero_context |>) ;;
   proc_set p (λ x, x <| p_context ::= λ c, c <| ra := forkret_addr |> |>) ;;
   proc_set p (λ x, x <| p_context ::= λ c, c <| sp := p_kstack x + PGSIZE |> |>) ;;
   mret (Some p)) ks
  (kst k (k_mem k) (k_freelist k) (k_trapframes k) (i32 (k_nextpid k + 1))
     (alter (λ x, x <| p_pid := k_nextpid k |> <| p_state := USED |>) p (k_procs k))).
Proof.
  intros Hn Hl. rewrite (kst_id k) at 1. unfold allocproc_found at 1.
  rewrite bind_run, allocpid_run by done. rewrite bind_run. cbn [proc_set modify].
  rewrite bind_run. cbn [proc_set modify].
  assert (E : (kst k (k_mem k) (k_freelist k) (k_trapframes k) (i32 (k_nextpid k + 1)) (k_procs k))
      <| k_procs ::= alter (λ x, x <| p_pid := k_nextpid k |>) p |> <| k_procs ::= alter (λ x, x <| p_state := USED |>) p |>
    = kst k (k_mem k) (k_freelist k) (k_trapframes k) (i32 (k_nextpid k + 1))
     (alter (λ x, x <| p_pid := k_nextpid k |> <| p_state := USED |>) p (k_procs k))).
  { unfold kst. cbn. by rewrite list_alter_alter. }
  rewrite E. reflexivity.
Qed.

(** The state after a store into the process table. *)
Lemma proc_set_kst {A} p g (c : M kernel A) ks k m f tfs n ps :
  (proc_set p g ;; c) ks (kst k m f tfs n ps) = c ks (kst k m f tfs n (alter g p ps)).
Proof. reflexivity. Qed.

Section found.
Context (p : nat) (x : proc) (ks : list (kernel → kernel)) (k : kernel) (l : list Z).
Hypothesis Hn : nested k.
Hypothesis Hpid : lock_free L_pid (k_mach k).
Hypothesis Hx : k_procs k !! p = Some x.
Hypothesis Hun : unused x.

Let n := i32 (k_nextpid k + 1).
Let slot (tf : Z) : proc → proc := λ x, x <| p_pid := k_nextpid k |> <| p_state := USED |> <| p_trapframe := tf |>.

(** No page for the trapframe. *)
Lemma alloc_no_trapframe :
  mem_state k [] →
  ∃ k', alloc_failed k [] p k' ∧ allocproc_found p ks k = (release (L_proc p) ;; mret None) ks k'.
Proof.
  intros MS. rewrite allocproc_found_start by done. fold n.
  set (ps1 := alter _ p (k_procs k)).
  destruct (kalloc_mem_none ks (kst k (k_mem k) (k_freelist k) (k_trapframes k) n ps1)) as (k1 & H1 & MS1 & F1 & M1).
  { by apply (mem_state_same k). }
  pose proof (kst_vm _ _ _ _ _ _ _ Hn F1) as E1. rewrite M1 in E1. cbn [k_mem kst] in E1.
  rewrite bind_run, H1, E1, proc_set_kst. cbn [Z.eqb].
  assert (Hp : alter (λ x, x <| p_trapframe := 0 |>) p ps1 !! p = Some (slot 0 x))
    by (unfold ps1; by rewrite list_alter_alter, list_lookup_alter_eq, Hx).
  rewrite bind_run, (freeproc_empty p (slot 0 x)) by (done || apply Hun).
  eexists. split; [|reflexivity].
  exists (k_mem k), (k_freelist k1), (k_trapframes k), []. split; [|split; [|done]].
  - unfold ps1, kst. cbn. by rewrite !list_alter_alter.
  - apply (mem_state_same k1); [done|cbn; by rewrite M1|done|]. rewrite E1. reflexivity.
Qed.

(** No memory for the page table, with a trapframe page [q]. *)
Lemma alloc_no_pagetable q m f l3 :
  page_ok q → let ps2 := alter (λ x, x <| p_trapframe := q |>) p
    (alter (λ x, x <| p_pid := k_nextpid k |> <| p_state := USED |>) p (k_procs k)) in
  mem_state (kst k m f (<[ q := junk_trapframe ]> (k_trapframes k)) n ps2) l3 → q ∉ l3 → l3 ≡ₚ l →
  pages_frame (q :: l) (k_mem k) m →
  ∃ k', freeproc p ks (kst k m f (<[ q := junk_trapframe ]> (k_trapframes k)) n
      (alter (λ x, x <| p_pagetable := 0 |>) p ps2)) = Ok tt ks k' ∧ alloc_failed k (q :: l) p k'.
Proof.
  intros Hq ps2 MS Hni P Hf.
  assert (Hp2 : ps2 !! p = Some (slot q x)) by (unfold ps2; by rewrite list_alter_alter, list_lookup_alter_eq, Hx).
  destruct (freeproc_kst p (slot q x <| p_pagetable := 0 |>) q ks k m f
    (<[ q := junk_trapframe ]> (k_trapframes k)) n (alter (λ x, x <| p_pagetable := 0 |>) p ps2) l3)
    as (m4 & f4 & H4 & MS4 & M4); try done.
  { by apply (kst_mem _ _ _ _ _ _ _ _ _ _ _ _ MS). }
  { by rewrite list_lookup_alter_eq, Hp2. }
  eexists. split; [exact H4|]. exists m4, f4, (delete q (<[ q := junk_trapframe ]> (k_trapframes k))), (q :: l3).
  assert (Eps : alter freed p (alter (λ x, x <| p_pagetable := 0 |>) p ps2) = alter freed p (k_procs k))
    by (unfold ps2; by rewrite !list_alter_alter).
  rewrite Eps in *. split; [done|]. split; [done|]. split; [by rewrite P|]. split.
  - eapply pages_frame_trans; [exact Hf|]. eapply pages_frame_mono; [|exact M4]. set_solver.
  - intros q' Hq'. rewrite lookup_delete_ne, lookup_insert_ne; [done|set_solver..].
Qed.

(** With a trapframe page [q]. *)
Lemma alloc_with_trapframe q :
  mem_state k (q :: l) →
  (∃ k', alloc_failed k (q :: l) p k' ∧ allocproc_found p ks k = (release (L_proc p) ;; mret None) ks k') ∨
  (∃ k', alloc_done k (q :: l) p x k' ∧ allocproc_found p ks k = Ok (Some p) ks k').
Proof.
  intros MS. rewrite allocproc_found_start by done. fold n.
  set (ps1 := alter _ p (k_procs k)).
  destruct (kalloc_mem ks (kst k (k_mem k) (k_freelist k) (k_trapframes k) n ps1) q l)
    as (k1 & H1 & MS1 & Hq & Hni & F1 & M1); [by apply (mem_state_same k)|].
  pose proof (kst_vm _ _ _ _ _ _ _ Hn F1) as E1. cbn [k_mem kst] in M1.
  set (ps2 := alter (λ x, x <| p_trapframe := q |>) p ps1).
  set (s2 := kst k (k_mem k1) (k_freelist k1) (<[ q := junk_trapframe ]> (k_trapframes k)) n ps2).
  assert (Hp2 : k_procs s2 !! p = Some (slot q x))
    by (cbn; unfold ps2, ps1; by rewrite list_alter_alter, list_lookup_alter_eq, Hx).
  assert (MS2 : mem_state s2 l) by (apply (mem_state_same k1); [done|done|done|by rewrite E1]).
  destruct (proc_pagetable_spec p (slot q x) ks s2 l Hp2 Hq MS2) as (r & k3 & H3 & F3 & M3 & R3).
  change (p_trapframe (slot q x)) with q in R3. change (k_mem s2) with (k_mem k1) in M3.
  pose proof (kst_vm _ _ _ _ _ _ _ Hn F3) as E3.
  assert (M13 : pages_frame (q :: l) (k_mem k) (k_mem k3))
    by (eapply pages_frame_trans; (eapply pages_frame_mono; [|eassumption]); set_solver).
  pose proof (page_ok_pos q Hq).
  rewrite bind_run, H1, E1, proc_set_kst. fold ps2. destruct (Z.eqb_spec q 0); [lia|].
  rewrite bind_run. cbn [modify].
  change ((kst k (k_mem k1) (k_freelist k1) (k_trapframes k) n ps2) <| k_trapframes ::= <[ q := junk_trapframe ]> |>) with s2.
  rewrite bind_run, H3, E3, proc_set_kst.
  destruct R3 as [(-> & l3 & MS3 & P3)|(T & l3 & Hok & P3 & Hlf)].
  - left. cbn [Z.eqb]. rewrite E3 in MS3.
    destruct (alloc_no_pagetable q (k_mem k3) (k_freelist k3) l3 Hq) as (k' & H4 & A4); [done|by rewrite P3|done|done|].
    fold ps1 ps2 in H4. exists k'. split; [exact A4|]. by rewrite bind_run, H4.
  - right. pose proof (wf_page _ _ _ (vm_wf _ _ _ _ Hok) _ _ (wf_root _ _ _ (vm_wf _ _ _ _ Hok))) as Hr.
    pose proof (page_ok_pos r Hr). destruct (Z.eqb_spec r 0); [lia|].
    rewrite !proc_set_kst. eexists. split; [|reflexivity].
    assert (Eps : alter (λ x, x <| p_context ::= λ c, c <| sp := p_kstack x + PGSIZE |> |>) p
      (alter (λ x, x <| p_context ::= λ c, c <| ra := forkret_addr |> |>) p
      (alter (λ x, x <| p_context := zero_context |>) p (alter (λ x, x <| p_pagetable := r |>) p ps2))) =
      alter (λ x, allocated x (k_nextpid k) q r) p (k_procs k)) by (unfold ps2, ps1; by rewrite !list_alter_alter).
    rewrite Eps. exists (k_mem k3), (k_freelist k3), q, r, T, l3. split; [done|].
    assert (Hnq : q ∉ tables T ++ l3) by (by rewrite P3).
    split; [|split; [by rewrite P3|split; [done|done]]].
    apply allocated_memory; try done. apply (vm_ok_same k3); [done|done|done|by rewrite E3].
Qed.
End found.

Lemma allocproc_found_run p x ks k l :
  nested k → lock_free L_pid (k_mach k) → k_procs k !! p = Some x → unused x → mem_state k l →
  (∃ k', alloc_failed k l p k' ∧ allocproc_found p ks k = (release (L_proc p) ;; mret None) ks k') ∨
  (∃ k', alloc_done k l p x k' ∧ allocproc_found p ks k = Ok (Some p) ks k').
Proof.
  intros Hn Hpid Hx Hun MS. destruct l as [|q l].
  - left. by eapply alloc_no_trapframe.
  - by apply alloc_with_trapframe.
Qed.

(** The first unused slot from index [i] on. *)
Fixpoint first_unused (i : nat) (ps : list proc) : option nat :=
  match ps with
  | [] => None
  | x :: ps => if decide (p_state x = UNUSED) then Some i else first_unused (S i) ps
  end.

Lemma first_unused_lookup i ps np :
  first_unused i ps = Some np → ∃ j x, np = (i + j)%nat ∧ ps !! j = Some x ∧ p_state x = UNUSED.
Proof.
  revert i. induction ps as [|x ps IH]; intros i; cbn; [done|].
  case_decide as Hx.
  - intros [= <-]. exists 0%nat, x. split_and!; [lia|done|done].
  - intros (j & y & -> & H1 & H2)%IH. exists (S j), y. split_and!; [lia|done|done].
Qed.

(** The machine with the lock of slot [np] taken. *)
Definition slot_locked (np : nat) (k : kernel) : kernel := k <| k_mach := take_lock (L_proc np) (k_mach k) |>.

Definition alloc_scan (p : nat) : M kernel (option nat) :=
  acquire (L_proc p) ;;
  pr ← proc_get p;
  if decide (p_state pr = UNUSED) then mret (Some p)
  else release (L_proc p) ;; mret None.

Lemma allocproc_scan cur cpid j n ks k :
  kernel_thread cur cpid k → (j + n = NPROC)%nat →
  for_find (seq j n) alloc_scan ks k =
  match first_unused j (drop j (k_procs k)) with
  | Some np => Ok (Some np) ks (slot_locked np k)
  | None => Ok None ks k
  end.
Proof.
  intros Hk. revert j. induction n as [|n IH]; intros j Hn.
  { rewrite drop_ge; [done|]. rewrite (kt_procs _ _ _ Hk). lia. }
  destruct (lookup_lt_is_Some_2 (k_procs k) j) as [x Hx]; [rewrite (kt_procs _ _ _ Hk); lia|].
  rewrite (drop_S _ _ _ Hx). cbn [seq for_find first_unused]. rewrite bind_run. unfold alloc_scan at 1.
  assert (Hst : static_lock (L_proc j)) by (apply wait_lock_static; lia).
  rewrite bind_run, (thread_acquire cur cpid) by done. rewrite bind_run. cbn [proc_get deref].
  change (k_procs (k <| k_mach := take_lock (L_proc j) (k_mach k) |>)) with (k_procs k). rewrite Hx.
  destruct (decide (p_state x = UNUSED)); [done|].
  rewrite bind_run, (thread_release cur cpid _ k) by done. rewrite ret_run.
  change (k <| k_mach := take_lock (L_proc j) (k_mach k) |> <| k_mach := k_mach k |>) with (k <| k_mach := k_mach k |>).
  rewrite with_mach_id. apply IH. lia.
Qed.

(** The slots that are not in use hold nothing. *)
Definition slots_clean (ps : list proc) : Prop := ∀ i x, ps !! i = Some x → p_state x = UNUSED → unused x.

(** The body of allocproc() on an unused slot whose lock it has taken. *)
Lemma allocproc_slot cur cpid j x ks k l :
  kernel_thread cur cpid k → mem_state k l → k_procs k !! j = Some x → unused x →
  (∃ k', alloc_failed (slot_locked j k) l j k' ∧ allocproc_found j ks (slot_locked j k) = Ok None ks (k' <| k_mach := k_mach k |>)) ∨
  (∃ k', alloc_done (slot_locked j k) l j x k' ∧ allocproc_found j ks (slot_locked j k) = Ok (Some j) ks k').
Proof.
  intros Hk MS Hx Hun. pose proof Hk as [Hm Hp Hno Hse Hl Hpr Hpi].
  assert (Hst : static_lock (L_proc j)).
  { apply wait_lock_static. rewrite <- (kt_procs _ _ _ Hk). by eapply lookup_lt_Some. }
  destruct (allocproc_found_run j x ks (slot_locked j k) l) as [(k' & H1 & H2)|?]; try done; [..|by right].
  - split; cbn; [by apply machine_ok_take|]. rewrite noff_take by done. lia.
  - apply lock_free_take; [done|]. by apply Hl.
  - destruct MS as [MS1 MS2 MS3]. split; [|done|done]. split; [by apply machine_ok_take|].
    apply lock_free_take; [done|]. by apply Hl.
  - left. exists k'. split; [done|]. rewrite H2.
    assert (Em : k_mach k' = take_lock (L_proc j) (k_mach k)) by (by destruct H1 as (? & ? & ? & ? & -> & _)).
    by rewrite bind_run, (thread_release cur cpid _ k).
Qed.

Lemma allocproc_run cur cpid ks k l :
  kernel_thread cur cpid k → mem_state k l → slots_clean (k_procs k) →
  match first_unused 0 (k_procs k) with
  | None => allocproc ks k = Ok None ks k
  | Some np =>
      (∃ k', alloc_failed (slot_locked np k) l np k' ∧ allocproc ks k = Ok None ks (k' <| k_mach := k_mach k |>)) ∨
      (∃ x k', k_procs k !! np = Some x ∧ unused x ∧ alloc_done (slot_locked np k) l np x k' ∧
         allocproc ks k = Ok (Some np) ks k')
  end.
Proof.
  intros Hk MS Hc. pose proof (allocproc_scan cur cpid 0 NPROC ks k Hk eq_refl) as Hs. rewrite drop_0 in Hs.
  unfold allocproc. fold alloc_scan.
  destruct (first_unused 0 (k_procs k)) as [np|] eqn:Hf; [|rewrite bind_run, Hs; done].
  destruct (first_unused_lookup _ _ _ Hf) as (j & x & -> & Hx & Hu). rewrite Nat.add_0_l in *.
  destruct (allocproc_slot cur cpid j x ks k l Hk MS Hx (Hc _ _ Hx Hu)) as [(k' & H1 & H2)|(k' & H1 & H2)].
  - left. exists k'. split; [done|]. by rewrite bind_run, Hs.
  - right. exists x, k'. split; [done|]. split; [by apply (Hc _ _ Hx)|]. split; [done|]. by rewrite bind_run, Hs.
Qed.
End allocspec.
