(* ===== verification/ForkSpec.v ===== *)
(** * fork() of proc.c

    The child gets a copy of the parent's memory and registers, with 0 for the
    result of the system call, and references to the parent's open files and
    current directory; a fork() that runs out of memory gives back what it
    took. *)

From S2P Require Import Prelude KMonad Memory Riscv State Spinlock CString Kalloc Vm VmUser.
From S2P Require Import VmFree VmCopy Sched Uart Printf Console Pipe Sleeplock Bio Log Fs File ProcLife ProcSpec AllocSpec.

Section forkspec.
Context `{KI : KernelImage}.

(** ** References to open files *)

Definition dup_file (ft : list file) (o : option nat) : list file :=
  match o with
  | Some f => alter (λ x, x <| f_ref := f_ref x + 1 |>) f ft
  | None => ft
  end.

(** The file table once every descriptor of [fds] has been duplicated. *)
Definition dup_files (fds : list (option nat)) (ft : list file) : list file := foldl dup_file ft fds.

(** The descriptors name files that are open. *)
Definition fds_open (fds : list (option nat)) (ft : list file) : Prop :=
  ∀ f, Some f ∈ fds → ∃ x, ft !! f = Some x ∧ 1 ≤ f_ref x.

Lemma dup_file_open fds ft o : fds_open fds ft → fds_open fds (dup_file ft o).
Proof.
  intros H f Hf. destruct (H f Hf) as (x & Hx & Hr). destruct o as [g|]; [|by exists x].
  cbn. rewrite list_lookup_alter. destruct (decide (g = f)) as [->|]; rewrite Hx; [|by exists x].
  eexists. split; [done|]. cbn. lia.
Qed.

(** Each file has gained one reference per descriptor. *)
Lemma dup_files_count fds ft f :
  dup_files fds ft !! f =
  (λ x, x <| f_ref := f_ref x + Z.of_nat (length (filter (λ o, o = Some f) fds)) |>) <$> ft !! f.
Proof.
  revert ft. induction fds as [|o fds IH]; intros ft; cbn [dup_files foldl].
  - cbn. destruct (ft !! f) as [x|]; [|done]. cbn. f_equal. destruct x; cbn. f_equal. lia.
  - change (foldl dup_file (dup_file ft o) fds) with (dup_files fds (dup_file ft o)). rewrite IH.
    rewrite filter_cons. destruct o as [g|]; cbn [dup_file].
    + rewrite list_lookup_alter. destruct (decide (g = f)) as [->|Hne].
      * rewrite decide_True by done. destruct (ft !! f) as [x|]; [|done]. cbn. f_equal. destruct x; cbn. f_equal. lia.
      * rewrite decide_False by congruence. done.
    + by rewrite decide_False by done.
Qed.

Lemma filedup_run f x ks k :
  nested k → lock_free L_ftable (k_mach k) → k_ftable k !! f = Some x → 1 ≤ f_ref x →
  filedup f ks k = Ok f ks (k <| k_ftable := dup_file (k_ftable k) (Some f) |>).
Proof.
  intros [Hm Hn] Hl Hx Hr. unfold filedup. rewrite bind_run, acquire_run by done.
  rewrite bind_run. cbn [file_get deref]. unfold file_get, deref. cbn [k_ftable].
  change (k_ftable (k <| k_mach ::= take_lock L_ftable |>)) with (k_ftable k). rewrite Hx.
  destruct (Z.ltb_spec (f_ref x) 1); [lia|]. rewrite bind_run. unfold file_set. cbn [modify].
  rewrite bind_run, (release_taken _ _ _ (k_mach k)) by done. rewrite settle_nested by done. by destruct k.
Qed.

(** The child's descriptors [o] once those of [fds] from [i] on are copied. *)
Fixpoint give_fds (i : nat) (fds o : list (option nat)) : list (option nat) :=
  match fds with
  | [] => o
  | Some f :: fds => give_fds (S i) fds (<[ i := Some f ]> o)
  | None :: fds => give_fds (S i) fds o
  end.

Lemma give_fds_all fds pre : give_fds (length pre) fds (pre ++ replicate (length fds) None) = pre ++ fds.
Proof.
  revert pre. induction fds as [|o fds IH]; intros pre; cbn [give_fds length replicate]; [done|].
  assert (E : match o with
    | Some f => give_fds (S (length pre)) fds (<[ length pre := Some f ]> (pre ++ None :: replicate (length fds) None))
    | None => give_fds (S (length pre)) fds (pre ++ None :: replicate (length fds) None)
    end = give_fds (length (pre ++ [o])) fds ((pre ++ [o]) ++ replicate (length fds) None)).
  { rewrite length_app, <- (assoc_L app). cbn [length app].
    replace (length pre + 1)%nat with (S (length pre)) by lia.
    destruct o as [f|]; [|done]. by rewrite insert_app_r_alt, Nat.sub_diag by lia. }
  rewrite IH, <- (assoc_L app) in E. by destruct o.
Qed.

(** The loop of fork() over the parent's descriptors. *)
Definition fork_fds (np : nat) (ofile : list (option nat)) (i : nat) : M kernel unit :=
  match ofile !!! i with
  | Some f =>
      f ← filedup f;
      proc_set np (λ x, x <| p_ofile ::= <[ i := Some f ]> |>)
  | None => mret tt
  end.

Lemma fork_fds_run np all j fds ft ps ks k :
  nested k → lock_free L_ftable (k_mach k) → all = take j all ++ fds → length (take j all) = j → fds_open fds ft →
  for_each (seq j (length fds)) (fork_fds np all) ks (k <| k_ftable := ft |> <| k_procs := ps |>) =
  Ok tt ks (k <| k_ftable := dup_files fds ft |> <| k_procs := alter (λ x, x <| p_ofile ::= give_fds j fds |>) np ps |>).
Proof.
  intros Hn Hl. revert j ft ps. induction fds as [|o fds IH]; intros j ft ps Hall Hj Hopen.
  { cbn. do 3 f_equal. symmetry. apply list_alter_id. by intros []. }
  assert (Ho : all !! j = Some o) by (rewrite Hall, lookup_app_r, Hj, Nat.sub_diag by lia; done).
  assert (Hall' : all = take (S j) all ++ fds).
  { rewrite (take_S_r _ _ _ Ho), <- (assoc_L app). exact Hall. }
  assert (Hj' : length (take (S j) all) = S j).
  { rewrite length_take. apply lookup_lt_Some in Ho. lia. }
  cbn [length seq for_each]. rewrite bind_run. unfold fork_fds at 1.
  rewrite (list_lookup_total_correct _ _ _ Ho).
  destruct o as [f|]; cbn [give_fds dup_files foldl].
  - destruct (Hopen f) as (x & Hx & Hr); [left|].
    rewrite bind_run, (filedup_run f x) by done.
    cbn [proc_set modify].
    change (for_each ?l ?g ks _) with (for_each l g ks (k <| k_ftable := dup_file ft (Some f) |>
      <| k_procs := alter (λ x, x <| p_ofile ::= <[ j := Some f ]> |>) np ps |>)).
    rewrite IH; [by rewrite list_alter_alter|done|done|].
    apply dup_file_open. intros g Hg. apply Hopen. by right.
  - rewrite ret_run, IH; [done|done|done|]. intros g Hg. apply Hopen. by right.
Qed.

(** ** The copy of the memory *)

(** Writes to free pages leave the parent alone. *)
Lemma owner_frame k x T es l m :
  owns_memory k x T es l → pages_frame l (k_mem k) m →
  pt_wf m (p_pagetable x) T ∧ ∀ va, leaf m T va = leaf (k_mem k) T va.
Proof.
  intros Hown Hf. apply (pt_wf_frame l (k_mem k) m); [done|eapply free_pages_ok, Hown| |apply Hown].
  intros q Hq HT. pose proof (vm_nodup _ _ _ _ (om_vm _ _ _ _ _ Hown)) as Hn.
  apply NoDup_app in Hn as (_ & Hd & _). by apply (Hd q).
Qed.

Lemma owner_page k x T es l m e :
  owns_memory k x T es l → pages_frame l (k_mem k) m → e ∈ es →
  load_bytes m (PTE2PA e) 4096 = load_bytes (k_mem k) (PTE2PA e) 4096.
Proof.
  intros Hown Hf He. assert (Hq : PTE2PA e ∈ PTE2PA <$> es) by (by apply list_elem_of_fmap_2).
  pose proof (om_pages _ _ _ _ _ Hown) as Hpo. rewrite Forall_forall in Hpo.
  apply load_bytes_frame with l; [done|eapply free_pages_ok, Hown|by apply Hpo|].
  pose proof (om_nodup _ _ _ _ _ Hown) as Hn. apply NoDup_cons in Hn as [_ Hn].
  apply NoDup_app in Hn as (_ & Hd & _). intros Hl. apply (Hd _ Hq), elem_of_app. by right.
Qed.

(** The pages a process owns are not free. *)
Lemma owner_disjoint k x T es l q : owns_memory k x T es l → q ∈ tables T ++ (PTE2PA <$> es) → q ∉ l.
Proof.
  intros Hown Hq Hl. pose proof (om_nodup _ _ _ _ _ Hown) as Hn. apply NoDup_cons in Hn as [_ Hn].
  apply elem_of_app in Hq as [Hq|Hq].
  - apply NoDup_app in Hn as (_ & _ & Hn). apply NoDup_app in Hn as (_ & Hd & _). by apply (Hd q).
  - apply NoDup_app in Hn as (_ & Hd & _). apply (Hd q Hq), elem_of_app. by right.
Qed.

Lemma size_low k x T es l : owns_memory k x T es l → Z.of_nat (length es) * PGSIZE ≤ TRAPFRAME.
Proof.
  intros Hown. destruct (om_sz _ _ _ _ _ Hown) as [H0 H1]. rewrite <- (om_len _ _ _ _ _ Hown).
  destruct trapframe_layout as (E1 & E2 & A1 & A2 & EM & EP).
  destruct (PGROUNDUP_low (p_sz x)) as (B & A & _); [lia|].
  destruct (decide (PGROUNDUP (p_sz x) ≤ TRAPFRAME)); [done|].
  pose proof (page_aligned_gap TRAPFRAME (PGROUNDUP (p_sz x)) A2 A). lia.
Qed.

(** The new process [y], whose table holds [ps] beside the trampoline and the
    trapframe, owns them. *)
Lemma grown_owns k0 k T0 l0 T l tf y ps fs cs :
  owns_memory k0 y T0 [] l0 → page_ok tf → p_trapframe y = tf → 
  (∀ va, 0 ≤ va < MAXVA → page_aligned va → leaf (k_mem k0) T0 va = fresh_leaf tf va) →
  grown (p_pagetable y) 0 k0 T0 l0 ps fs cs k T l →
  ∀ z sz, p_pagetable z = p_pagetable y → p_trapframe z = tf → p_sz z = sz →
  0 ≤ sz ≤ TRAPFRAME → PGROUNDUP sz = Z.of_nat (length ps) * PGSIZE →
  Z.of_nat (length ps) * PGSIZE ≤ TRAPFRAME →
  owns_memory k z T (zip_with leaf_pte ps fs) l.
Proof.
  intros Hy Htf Ety Hlf G z sz Ez1 Ez2 Ez3 Hsz Hlen Hlow. pose proof (om_vm _ _ _ _ _ Hy) as Hok0.
  destruct trapframe_layout as (E1 & E2 & A1 & A2 & EM & EP).
  pose proof (grown_nodup _ _ _ _ _ _ _ _ _ _ _ Hok0 G) as Hnd.
  pose proof (grown_pages_ok _ _ _ _ _ _ _ _ _ _ _ Hok0 G) as Hpo.
  destruct G as [Gok Gp Gin Gout Glen Gperm _ _ _].
  destruct (zip_leaf_pte_pa ps fs) as [Hle Hpa]; [done|done|done|].
  assert (L : ∀ va, Z.of_nat (length ps) * PGSIZE ≤ va < MAXVA → page_aligned va → leaf (k_mem k) T va = fresh_leaf tf va).
  { intros va Hva Hal. rewrite Gout by (done || lia). apply Hlf; [lia|done]. }
  constructor; rewrite ?Ez1, ?Ez2, ?Ez3; try done.
  - rewrite length_zip_with, Glen, Nat.min_id. exact Hlen.
  - by rewrite Hpa.
  - rewrite L by (done || lia). unfold fresh_leaf. rewrite decide_True by done. apply trampoline_leaf.
  - rewrite L by (done || lia). unfold fresh_leaf. rewrite decide_False, decide_True by (done || lia).
    apply leaf_pte_entry; [done|apply perm_RX|by_eval].
  - intros va Hva Hal. rewrite L by (done || lia). unfold fresh_leaf. by rewrite !decide_False by lia.
  - rewrite Hpa. apply NoDup_cons. split; [|done]. rewrite Gp.
    pose proof (om_nodup _ _ _ _ _ Hy) as Hn. apply NoDup_cons in Hn as [Hn _]. by rewrite Ety in Hn.
Qed.

(** uvmcopy() into the table allocproc() made.  The copy takes its pages from
    the free list, so the parent's view is untouched. *)
Lemma fork_copy k pr To es l x tf pt n tfs m f T l' psl ks :
  nested k → owns_memory k pr To es l → let K := kst k m f tfs n psl in
  let y := allocated x (k_nextpid k) tf pt in
  owns_memory K y T [] l' → tf :: tables T ++ l' ≡ₚ l →
  (∀ va, 0 ≤ va < MAXVA → page_aligned va → leaf m T va = fresh_leaf tf va) → pages_frame l (k_mem k) m →
  ∃ r m2 f2 T2 l2 ps, let k2 := kst k m2 f2 tfs n psl in
    uvmcopy (p_pagetable pr) pt (p_sz pr) ks K = Ok r ks k2 ∧
    tf :: ps ++ tables T2 ++ l2 ≡ₚ l ∧ pages_frame l (k_mem k) m2 ∧
    (r = -1 ∧ ps = [] ∧ owns_memory k2 y T2 [] l2 ∨
     r = 0 ∧ owns_memory k2 (y <| p_sz := p_sz pr |>) T2 (zip_with leaf_pte ps (PTE_FLAGS <$> es)) l2 ∧
     Forall2 (λ p e, load_bytes m2 p 4096 = load_bytes (k_mem k) (PTE2PA e) 4096) ps es).
Proof.
  intros Hn Hpr K y Hy Pl Hlf Hf. destruct trapframe_layout as (E1 & E2 & A1 & A2 & EM & EP).
  pose proof (size_low _ _ _ _ _ Hpr) as Hlow. destruct (om_sz _ _ _ _ _ Hpr) as [Hs0 Hs1].
  destruct (owner_frame _ _ _ _ _ m Hpr Hf) as [Hwf Hleaf].
  assert (Hsub : tables T ++ l' ⊆ l) by (intros q Hq; rewrite <- Pl; by right).
  destruct (uvmcopy_grows (p_pagetable pr) pt (p_sz pr) To es ks K T l')
    as (r & k2 & T2 & l2 & ps & H1 & G & Hr & _); [exact (om_vm _ _ _ _ _ Hy)|exact Hwf| |apply Hpr|apply Hpr| | | | |].
  { intros i e He. change (k_mem K) with m. rewrite Hleaf. by apply (om_user _ _ _ _ _ Hpr). }
  { intros q Hq Hq'. apply (owner_disjoint _ _ _ _ _ q Hpr Hq). by apply Hsub. }
  { lia. }
  { apply Hpr. }
  { intros i Hi. change (k_mem K) with m. rewrite Hlf; [|lia|by apply page_aligned_add].
    unfold fresh_leaf. rewrite !decide_False by lia. done. }
  pose proof (kst_vm _ _ _ _ _ _ _ Hn (gr_kern _ _ _ _ _ _ _ _ _ _ _ G)) as E2'.
  exists r, (k_mem k2), (k_freelist k2), T2, l2, ps. cbv zeta. rewrite <- E2'.
  split; [exact H1|]. split; [by rewrite (gr_pages _ _ _ _ _ _ _ _ _ _ _ G)|].
  split; [eapply pages_frame_trans; [exact Hf|eapply pages_frame_mono; [exact Hsub|apply G]]|].
  assert (Htf : page_ok tf) by apply Hy.
  destruct Hr as [[-> Hps]|[-> ->]]; [right|left].
  - rewrite Hps, firstn_all in G. split; [done|]. split.
    + eapply (grown_owns K k2 T l' T2 l2 tf y ps _ _ Hy Htf eq_refl Hlf G _ (p_sz pr)); try done.
      * by rewrite Hps, (om_len _ _ _ _ _ Hpr).
      * by rewrite Hps.
    + pose proof (gr_data _ _ _ _ _ _ _ _ _ _ _ G) as Hd. rewrite Forall2_fmap_r in Hd.
      apply Forall2_same_length_lookup_2; [done|]. intros i q e Hq He.
      pose proof (Forall2_lookup_lr _ _ _ _ _ _ Hd Hq He) as E. cbn beta in E. rewrite E.
      apply (owner_page _ _ _ _ _ m _ Hpr Hf). by eapply list_elem_of_lookup_2.
  - split; [done|]. split; [done|].
    apply (grown_owns K k2 T l' T2 l2 tf y [] _ _ Hy Htf eq_refl Hlf G y (p_sz y)); [done..|apply Hy|apply Hy|cbn; lia].
Qed.

(** ** Making the child runnable *)

(** The child, once fork() is done with the slot [y] that allocproc() set up
    and whose descriptors were all closed. *)
Definition forked (p : nat) (pr y : proc) : proc :=
  y <| p_sz := p_sz pr |> <| p_ofile := p_ofile pr |> <| p_cwd := p_cwd pr |>
    <| p_name := copy_name (p_name y) (p_name pr) 16 |> <| p_parent := Some p |> <| p_state := RUNNABLE |>.

(** fork() from the copy of the memory on. *)
Definition fork_tail (p np : nat) (pr : proc) : M kernel Z :=
  proc_set np (λ x, x <| p_sz := p_sz pr |>) ;;
  tf ← tf_get p;
  tf_set np (λ _, tf) ;;
  tf_set np (λ t, t <| tf_a0 := 0 |>) ;;
  for_each (seq 0 NOFILE) (fork_fds np (p_ofile pr)) ;;
  cwd ← deref "cwd" (λ _, p_cwd pr);
  cwd ← idup cwd;
  proc_set np (λ x, x <| p_cwd := Some cwd |>) ;;
  proc_set np (λ x, x <| p_name ::= λ d, copy_name d (p_name pr) 16 |>) ;;
  npr ← proc_get np;
  let pid := p_pid npr in
  release (L_proc np) ;;
  acquire L_wait ;;
  proc_set np (λ x, x <| p_parent := Some p |>) ;;
  release L_wait ;;
  acquire (L_proc np) ;;
  proc_set np (λ x, x <| p_state := RUNNABLE |>) ;;
  release (L_proc np) ;;
  mret pid.

Lemma idup_run i ks k :
  nested k → lock_free L_itable (k_mach k) →
  idup i ks k = Ok i ks (k <| k_itable ::= alter (λ x, x <| i_ref := i_ref x + 1 |>) i |>).
Proof.
  intros [Hm Hn] Hl. unfold idup. rewrite bind_run, acquire_run by done. rewrite bind_run. cbn [inode_set modify].
  rewrite bind_run, (release_taken _ _ _ (k_mach k)) by done. rewrite settle_nested by done. by destruct k.
Qed.

Lemma thread_alter p pid np g k :
  kernel_thread p pid k → np ≠ p → kernel_thread p pid (k <| k_procs ::= alter g np |>).
Proof.
  intros [H1 H2 H3 H4 H5 H6 H7] Hne. split; try done.
  - unfold procs_ok in *. cbn. by rewrite length_alter.
  - cbn. by rewrite list_lookup_alter_ne.
Qed.

(** A store into another process's slot under a lock. *)
Lemma locked_store {A} p pid lk np g (c : M kernel A) ks k :
  kernel_thread p pid k → static_lock lk →
  (acquire lk ;; proc_set np g ;; release lk ;; c) ks k = c ks (k <| k_procs ::= alter g np |>).
Proof.
  intros Hk Hs. rewrite bind_run, (thread_acquire p pid) by done. rewrite bind_run. cbn [proc_set modify].
  rewrite bind_run, (thread_release p pid lk k) by done. by destruct k.
Qed.

Lemma tf_get_kst {A} p x tf (c : trapframe → M kernel A) ks k m f tfs n ps :
  ps !! p = Some x → tfs !! p_trapframe x = Some tf →
  (tf ← tf_get p; c tf) ks (kst k m f tfs n ps) = c tf ks (kst k m f tfs n ps).
Proof.
  intros Hx Ht. rewrite bind_run. unfold tf_get. rewrite bind_run. unfold proc_get, deref.
  change (k_procs (kst k m f tfs n ps)) with ps. rewrite Hx.
  change (k_trapframes (kst k m f tfs n ps)) with tfs. by rewrite Ht.
Qed.

Lemma tf_set_kst {A} p x g (c : M kernel A) ks k m f tfs n ps :
  ps !! p = Some x →
  (tf_set p g ;; c) ks (kst k m f tfs n ps) = c ks (kst k m f (alter g (p_trapframe x) tfs) n ps).
Proof.
  intros Hx. rewrite bind_run. unfold tf_set. rewrite bind_run. unfold proc_get, deref.
  change (k_procs (kst k m f tfs n ps)) with ps. by rewrite Hx.
Qed.

(** What fork() writes outside the process table and the memory. *)
Definition shared (pr : proc) (c : nat) (k : kernel) : kernel :=
  k <| k_ftable := dup_files (p_ofile pr) (k_ftable k) |>
    <| k_itable ::= alter (λ x, x <| i_ref := i_ref x + 1 |>) c |>.

(** The last two critical sections, on the slot fork() has filled. *)
Lemma fork_publish p pid np k kl y ks :
  kernel_thread p pid k → static_lock (L_proc np) → np ≠ p → k_mach kl = take_lock (L_proc np) (k_mach k) →
  k_procs kl !! np = Some y → k_procs kl !! p = k_procs k !! p → length (k_procs kl) = length (k_procs k) →
  (npr ← proc_get np;
   let pid := p_pid npr in
   release (L_proc np) ;;
   acquire L_wait ;;
   proc_set np (λ x, x <| p_parent := Some p |>) ;;
   release L_wait ;;
   acquire (L_proc np) ;;
   proc_set np (λ x, x <| p_state := RUNNABLE |>) ;;
   release (L_proc np) ;;
   mret pid) ks kl =
  Ok (p_pid y) ks (kl <| k_mach := k_mach k |>
    <| k_procs := alter (λ x, x <| p_parent := Some p |> <| p_state := RUNNABLE |>) np (k_procs kl) |>).
Proof.
  intros Hk Hs Hne Hm Hy Hp Hl.
  assert (Hk1 : kernel_thread p pid (kl <| k_mach := k_mach k |>)).
  { destruct Hk as [H1 H2 H3 H4 H5 H6 H7]. split; try done; [unfold procs_ok in *; cbn; congruence|cbn; by rewrite Hp]. }
  rewrite bind_run. unfold proc_get, deref. rewrite Hy. cbv zeta.
  rewrite bind_run, (thread_release p pid _ k) by done.
  rewrite (locked_store p pid L_wait) by done.
  rewrite (locked_store p pid (L_proc np)); [|by apply thread_alter|done].
  rewrite ret_run. f_equal.
  transitivity (kl <| k_mach := k_mach k |> <| k_procs :=
    alter (λ x, x <| p_state := RUNNABLE |>) np (alter (λ x, x <| p_parent := Some p |>) np (k_procs kl)) |>);
    [by destruct kl|]. by rewrite list_alter_alter.
Qed.

Lemma proc_set_shared {A} p g (d : M kernel A) ks pr c k m f tfs n ps :
  (proc_set p g ;; d) ks (shared pr c (kst k m f tfs n ps)) = d ks (shared pr c (kst k m f tfs n (alter g p ps))).
Proof. reflexivity. Qed.

(** The stores into the child's slot, taken together. *)
Lemma forked_stores p pr c np y (ps : list proc) :
  ps !! np = Some y → p_ofile y = replicate (length (p_ofile pr)) None → p_cwd pr = Some c →
  alter (λ x, x <| p_parent := Some p |> <| p_state := RUNNABLE |>) np
    (alter (λ x, x <| p_name ::= λ d, copy_name d (p_name pr) 16 |>) np
      (alter (λ x, x <| p_cwd := Some c |>) np
        (alter (λ x, x <| p_ofile ::= give_fds 0 (p_ofile pr) |>) np
          (alter (λ x, x <| p_sz := p_sz pr |>) np ps)))) = alter (forked p pr) np ps.
Proof.
  intros Hy Ho Hc. rewrite !list_alter_alter_eq. apply list_alter_ext; [|done].
  intros x Hx. rewrite Hy in Hx. injection Hx as <-.
  pose proof (give_fds_all (p_ofile pr) []) as G. cbn [app length] in G. rewrite <- Ho in G.
  unfold forked, compose. rewrite Hc. destruct y. cbn in *. by rewrite G.
Qed.

Lemma fork_tail_run p pid np k m f tfs n ps pr y tfp c ks :
  kernel_thread p pid k → static_lock (L_proc np) → np ≠ p →
  ps !! np = Some y → ps !! p = Some pr → k_procs k !! p = Some pr → length ps = length (k_procs k) →
  p_ofile y = replicate NOFILE None → length (p_ofile pr) = NOFILE → fds_open (p_ofile pr) (k_ftable k) →
  p_cwd pr = Some c → tfs !! p_trapframe pr = Some tfp →
  fork_tail p np pr ks (kst (slot_locked np k) m f tfs n ps) =
  Ok (p_pid y) ks (shared pr c (kst k m f (alter (λ _, tfp <| tf_a0 := 0 |>) (p_trapframe y) tfs) n
    (alter (forked p pr) np ps))).
Proof.
  intros Hk Hs Hne Hy Hp Hpk Hl Ho Hlo Hopen Hc Ht. pose proof Hk as [Hm Hcp Hno Hse Hlk Hpo Hpi].
  set (k1 := slot_locked np k).
  assert (Hn1 : nested k1) by (split; cbn; [by apply machine_ok_take|rewrite noff_take by done; lia]).
  assert (Hf1 : ∀ lk, lk ≠ L_proc np → static_lock lk → lock_free lk (k_mach k1))
    by (intros; apply lock_free_take; auto).
  unfold fork_tail. rewrite proc_set_kst. set (ps1 := alter _ np ps).
  assert (Hy1 : ps1 !! np = Some (y <| p_sz := p_sz pr |>)) by (unfold ps1; by rewrite list_lookup_alter_eq, Hy).
  rewrite (tf_get_kst p pr tfp) by (done || (unfold ps1; by rewrite list_lookup_alter_ne)).
  rewrite !(tf_set_kst np (y <| p_sz := p_sz pr |>)) by done.
  change (p_trapframe (y <| p_sz := p_sz pr |>)) with (p_trapframe y). rewrite alter_alter_eq.
  set (tfs' := alter _ (p_trapframe y) tfs).
  set (K := kst k1 m f tfs' n ps1).
  assert (EK : K = K <| k_ftable := k_ftable k |> <| k_procs := ps1 |>) by reflexivity.
  rewrite bind_run, EK, <- Hlo, (fork_fds_run np (p_ofile pr) 0 (p_ofile pr)); [|done|by apply Hf1|done|done|done].
  rewrite bind_run. unfold deref at 1. rewrite Hc.
  rewrite bind_run, idup_run; [|done|by apply Hf1].
  change (K <| k_ftable := _ |> <| k_procs := ?ps2 |> <| k_itable ::= _ |>) with (shared pr c (kst k1 m f tfs' n ps2)).
  rewrite !proc_set_shared. set (ps4 := alter _ np (alter _ np _)).
  pose proof (forked_stores p pr c np y ps Hy) as E. rewrite Hlo in E. specialize (E Ho Hc).
  change (alter (λ x, x <| p_parent := Some p |> <| p_state := RUNNABLE |>) np ps4 = alter (forked p pr) np ps) in E.
  assert (H4 : ∃ y4, ps4 !! np = Some y4 ∧ p_pid y4 = p_pid y)
    by (unfold ps4, ps1; rewrite !list_lookup_alter_eq, Hy; by eexists).
  assert (H4p : ps4 !! p = Some pr) by (unfold ps4, ps1; by rewrite !list_lookup_alter_ne).
  assert (H4l : length ps4 = length ps) by (unfold ps4, ps1; by rewrite !length_alter).
  destruct H4 as (y4 & Hy4 & <-).
  rewrite (fork_publish p pid np k _ y4); [|done..|by rewrite Hpk|by rewrite <- Hl].
  rewrite <- E. reflexivity.
Qed.

(** ** The child's view of its memory *)

(** A copied entry gives the user the same rights. *)
Lemma copied_entry p e :
  page_ok p → Z.land e PTE_V ≠ 0 → 
  user_entry (leaf_pte p (PTE_FLAGS e)) = user_entry e ∧
  writable_entry (leaf_pte p (PTE_FLAGS e)) = writable_entry e ∧ PTE2PA (leaf_pte p (PTE_FLAGS e)) = p.
Proof.
  intros [Hp Ha]%page_ok_pa HV.
  assert (Hf : 0 ≤ PTE_FLAGS e < 1024).
  { unfold PTE_FLAGS. change 0x3FF with (Z.ones 10). rewrite Z.land_ones by lia.
    change 1024 with (2 ^ 10). apply Z.mod_pos_bound. lia. }
  pose proof (leaf_pte_flags p (PTE_FLAGS e) Hp Ha Hf) as Efl.
  assert (Hb : ∀ b, 0 ≤ b < 1024 → Z.land PTE_V b = 0 → Z.land (leaf_pte p (PTE_FLAGS e)) b = Z.land e b).
  { intros b H1 H2. rewrite (land_flags _ b H1), Efl, Z.land_lor_distr_l, H2, Z.lor_0_r. by rewrite <- land_flags. }
  assert (Hv : Z.land (leaf_pte p (PTE_FLAGS e)) PTE_V ≠ 0).
  { rewrite land_flags by by_eval. rewrite Efl, Z.land_lor_distr_l, Z.land_diag. 
    intros E%Z.lor_eq_0_iff. by destruct E. }
  unfold writable_entry, user_entry.
  rewrite (Hb PTE_U), (Hb PTE_W) by by_eval.
  apply Z.eqb_neq in HV, Hv. rewrite HV, Hv. split_and!; [done..|by apply leaf_pte_pa].
Qed.

Lemma copied_pages ps es :
  Forall page_ok ps → Forall leaf_entry es → length ps = length es →
  PTE2PA <$> zip_with leaf_pte ps (PTE_FLAGS <$> es) = ps.
Proof.
  intros Hps. revert es. induction Hps as [|p ps Hp Hps IH]; intros [|e es] Hes Hl; try done; cbn.
  apply Forall_cons in Hes as [[HV _] Hes]. injection Hl as Hl.
  destruct (copied_entry p e Hp HV) as (_ & _ & ->). by rewrite IH.
Qed.

(** The entry of a page below the trapframe. *)
Lemma owner_leaf k x T es l va :
  owns_memory k x T es l → 0 ≤ va < TRAPFRAME →
  leaf (k_mem k) T va = default 0 (es !! Z.to_nat (va / PGSIZE)).
Proof.
  intros Hown Hva. rewrite <- leaf_PGROUNDDOWN. pose proof (PGROUNDDOWN_bounds va). pose proof (PGROUNDDOWN_nonneg va).
  assert (E : PGROUNDDOWN va = 0 + Z.of_nat (Z.to_nat (va / PGSIZE)) * PGSIZE).
  { rewrite PGROUNDDOWN_spec, Z2Nat.id by (apply Z.div_pos; [lia|done]). lia. }
  destruct (es !! _) as [e|] eqn:He; cbn.
  - rewrite E. by apply (om_user _ _ _ _ _ Hown).
  - apply lookup_ge_None in He. apply (om_rest _ _ _ _ _ Hown); [|apply PGROUNDDOWN_aligned].
    rewrite (om_len _ _ _ _ _ Hown). unfold PGSIZE in *. lia.
Qed.

Lemma child_view k x T es l k' y T' ps l' va :
  owns_memory k x T es l → owns_memory k' y T' (zip_with leaf_pte ps (PTE_FLAGS <$> es)) l' → Forall page_ok ps →
  Forall2 (λ p e, load_bytes (k_mem k') p 4096 = load_bytes (k_mem k) (PTE2PA e) 4096) ps es →
  0 ≤ va < TRAPFRAME →
  user_byte (k_mem k') T' va = user_byte (k_mem k) T va ∧ user_writable (k_mem k') T' va = user_writable (k_mem k) T va.
Proof.
  intros Hx Hy Hps Hd Hva. unfold user_byte, user_writable.
  rewrite (owner_leaf _ _ _ _ _ _ Hx Hva), (owner_leaf _ _ _ _ _ _ Hy Hva).
  rewrite lookup_zip_with, list_lookup_fmap. set (i := Z.to_nat _).
  destruct (es !! i) as [e|] eqn:He; cbn.
  - destruct (Forall2_lookup_r _ _ _ _ _ Hd He) as (p & Hp & Hb). rewrite Hp. cbn.
    pose proof (om_leaf _ _ _ _ _ Hx) as Hle. rewrite Forall_lookup in Hle. destruct (Hle _ _ He) as [HV _].
    rewrite Forall_lookup in Hps. destruct (copied_entry p e (Hps _ _ Hp) HV) as (-> & -> & ->).
    split; [|done]. destruct (decide (va < MAXVA)), (user_entry e); try done. f_equal.
    pose proof (Z.mod_pos_bound va PGSIZE ltac:(done)) as Hm.
    assert (Hlt : (Z.to_nat (va mod PGSIZE) < 4096)%nat) by (unfold PGSIZE in *; lia).
    apply (f_equal (λ bs, bs !! Z.to_nat (va mod PGSIZE))) in Hb. rewrite !load_bytes_lookup in Hb by done.
    rewrite Z2Nat.id in Hb by lia. congruence.
  - by destruct (ps !! i).
Qed.

(** ** The outcomes of fork() *)

(** Nothing is lost when fork() fails: all the pages are free again, the slot
    it had taken is unused, and no other process or file is touched. *)
Record fork_failed (k : kernel) (l : list Z) (k' : kernel) : Prop := {
  ff_mem : ∃ l', mem_state k' l' ∧ l' ≡ₚ l;
  ff_frame : pages_frame l (k_mem k) (k_mem k');
  ff_slots : slots_clean (k_procs k');
  ff_procs : ∀ i x, k_procs k !! i = Some x → p_state x ≠ UNUSED → k_procs k' !! i = Some x;
  ff_trapframes : ∀ q, q ∉ l → k_trapframes k' !! q = k_trapframes k !! q;
  ff_mach : k_mach k' = k_mach k;
  ff_ftable : k_ftable k' = k_ftable k;
  ff_itable : k_itable k' = k_itable k;
}.

(** The child [y] in slot [np], made by the process [pr] at [p] whose page
    table is [Tp], whose registers are [tfp] and whose directory is [c]. *)
Record fork_made (k : kernel) (p : nat) (pr : proc) (Tp : tree) (es l : list Z) (tfp : trapframe) (c np : nat)
    (y : proc) (k' : kernel) : Prop := {
  fm_slot : p_state <$> k_procs k !! np = Some UNUSED;
  fm_procs : k_procs k' = <[ np := y ]> (k_procs k);
  fm_child : (p_state y, p_parent y, p_pid y, p_sz y) = (RUNNABLE, Some p, k_nextpid k, p_sz pr) ∧
    (p_ofile y, p_cwd y, p_context y) =
      (p_ofile pr, p_cwd pr, Context forkret_addr (p_kstack y + PGSIZE) (s_regs zero_context));
  fm_registers : k_trapframes k' !! p_trapframe y = Some (tfp <| tf_a0 := 0 |>);
  fm_trapframes : ∀ q, q ∉ l → k_trapframes k' !! q = k_trapframes k !! q;
  fm_memory : ∃ T es' l', owns_memory k' y T es' l' ∧ owns_memory k' pr Tp es l' ∧ pages_of y T es' ++ l' ≡ₚ l ∧
    ∀ va, 0 ≤ va < TRAPFRAME → user_byte (k_mem k') T va = user_byte (k_mem k) Tp va ∧
      user_writable (k_mem k') T va = user_writable (k_mem k) Tp va;
  fm_frame : pages_frame l (k_mem k) (k_mem k');
  fm_ftable : k_ftable k' = dup_files (p_ofile pr) (k_ftable k);
  fm_itable : k_itable k' = alter (λ x, x <| i_ref := i_ref x + 1 |>) c (k_itable k);
  fm_mach : k_mach k' = k_mach k;
  fm_pid : k_nextpid k' = i32 (k_nextpid k + 1);
}.

(** The parent still owns what it had. *)
Lemma owner_keeps k x T es l k' l' :
  owns_memory k x T es l → pages_frame l (k_mem k) (k_mem k') → mem_state k' l' → NoDup l' → l' ⊆ l →
  owns_memory k' x T es l'.
Proof.
  intros Hown Hf [M1 M2 M3] Hn' Hsub. destruct (owner_frame _ _ _ _ _ _ Hown Hf) as [Hwf Hlf].
  assert (Hnd : NoDup (p_trapframe x :: (PTE2PA <$> es) ++ tables T ++ l')).
  { pose proof (om_nodup _ _ _ _ _ Hown) as Hn. rewrite (assoc_L app), app_comm_cons in *.
    apply NoDup_app in Hn as (N1 & N2 & _). apply NoDup_app. split_and!; [done| |done].
    intros q Hq Hq'. apply (N2 q Hq). by apply Hsub. }
  destruct Hown as [[_ _ _ _ _] O1 O2 O3 O4 O5 O6 O7 O8 O9 _].
  constructor; rewrite ?Hlf; try done.
  - split; try done. apply NoDup_cons in Hnd as [_ Hnd]. by apply NoDup_app in Hnd as (_ & _ & ?).
  - intros i e He. rewrite Hlf. by apply O3.
  - intros va Hva Ha. rewrite Hlf. by apply O9.
Qed.

Lemma alter_at {A} i (a : A) g (xs : list A) : xs !! i = Some a → alter g i xs = <[ i := g a ]> xs.
Proof.
  intros Ha. apply list_eq. intros j. rewrite list_lookup_alter, list_lookup_insert.
  destruct (decide (i = j)) as [<-|]; [|by rewrite decide_False by tauto].
  rewrite Ha, decide_True; [done|]. split; [done|by eapply lookup_lt_Some].
Qed.

(** The slot fork() takes. *)
Section forking.
Context (p : nat) (pid : Z) (k : kernel) (pr : proc) (Tp : tree) (es l : list Z) (np : nat) (x : proc).
Hypothesis Hk : kernel_thread p pid k.
Hypothesis Hpr : k_procs k !! p = Some pr.
Hypothesis Hrun : p_state pr ≠ UNUSED.
Hypothesis Hown : owns_memory k pr Tp es l.
Hypothesis Hclean : slots_clean (k_procs k).
Hypothesis Hx : k_procs k !! np = Some x.
Hypothesis Hun : unused x.

Let k1 := slot_locked np k.

Lemma slot_other : np ≠ p.
Proof. intros ->. rewrite Hx in Hpr. injection Hpr as <-. apply Hrun, Hun. Qed.

Lemma slot_static : static_lock (L_proc np).
Proof. apply wait_lock_static. rewrite <- (kt_procs _ _ _ Hk). by eapply lookup_lt_Some. Qed.

Lemma slot_nested : nested k1.
Proof.
  destruct Hk as [Hm _ Hn _ _ _ _]. split; cbn; [by apply machine_ok_take|]. rewrite noff_take by done. lia.
Qed.

Lemma slot_owner : owns_memory k1 pr Tp es l.
Proof.
  destruct Hown as [[V1 V2 V3 V4 V5] O1 O2 O3 O4 O5 O6 O7 O8 O9 O10]. constructor; try done.
  split; try done. destruct V1 as [Hm Hl]. split; cbn; [by apply machine_ok_take|].
  by apply lock_free_take.
Qed.

(** The slot is given back, with a name and a context it does not use. *)
Lemma slots_given_back g : unused (g x) →
  slots_clean (alter g np (k_procs k)) ∧
  ∀ i z, k_procs k !! i = Some z → p_state z ≠ UNUSED → alter g np (k_procs k) !! i = Some z.
Proof.
  intros Hg. split.
  - intros i z. rewrite list_lookup_alter. destruct (decide (np = i)) as [<-|].
    + rewrite Hx. cbn. congruence.
    + apply Hclean.
  - intros i z Hz Hs. rewrite list_lookup_alter_ne; [done|]. intros ->. rewrite Hx in Hz. injection Hz as <-.
    apply Hs, Hun.
Qed.

Lemma fork_alloc_failed k' : alloc_failed k1 l np k' → fork_failed k l (k' <| k_mach := k_mach k |>).
Proof.
  intros (m & f & tfs & l' & -> & [M1 M2 M3] & Pl & Hf & Ht).
  destruct (slots_given_back freed) as [S1 S2]; [apply freed_unused, Hun|].
  split; try done. exists l'. split; [|done]. split; [|done|done]. apply (vm_ready _ _ _ _ (om_vm _ _ _ _ _ Hown)).
Qed.

(** No memory for the copy. *)
Lemma fork_copy_failed m f tf pt n T l' ks :
  let y := allocated x (k_nextpid k) tf pt in
  let k2 := kst k1 m f (<[ tf := junk_trapframe ]> (k_trapframes k)) n
    (alter (λ x, allocated x (k_nextpid k) tf pt) np (k_procs k)) in
  owns_memory k2 y T [] l' → tf :: tables T ++ l' ≡ₚ l → pages_frame l (k_mem k) m →
  ∃ k', (freeproc np ;; release (L_proc np) ;; mret (-1)) ks k2 = Ok (-1) ks k' ∧ fork_failed k l k'.
Proof.
  intros y k2 Hy Pl Hf.
  assert (Hy2 : k_procs k2 !! np = Some y) by (cbn; by rewrite list_lookup_alter_eq, Hx).
  destruct (freeproc_spec np y T [] l' ks k2 Hy2 Hy) as (k3 & l3 & F1 & F2 & F3 & F4 & F5 & F6).
  assert (Em : k_mach k3 = k_mach k1).
  { destruct F4 as [E|E]; rewrite E; [done|]. apply settle_nested. apply slot_nested. }
  exists (k3 <| k_mach := k_mach k |>). split.
  - rewrite bind_run, F1, bind_run, (thread_release p pid _ k); [done|done|apply slot_static|exact Em].
  - cbn [fmap list_fmap app] in F3, F5. change (p_trapframe y) with tf in *.
    assert (Ep : k_procs k3 = alter (λ x, freed (allocated x (k_nextpid k) tf pt)) np (k_procs k)).
    { rewrite F6. cbn. by rewrite list_alter_alter_eq. }
    destruct (slots_given_back (λ x, freed (allocated x (k_nextpid k) tf pt))) as [S1 S2]; [apply freed_unused, Hun|].
    assert (Hin : ∀ q, q ∈ tf :: tables T → q ∈ l).
    { intros q Hq. rewrite <- Pl. rewrite app_comm_cons. apply elem_of_app. by left. }
    split.
    + exists l3. split; [|by rewrite F3]. destruct F2 as [_ ? ?]. split; [|done|done].
      apply (vm_ready _ _ _ _ (om_vm _ _ _ _ _ Hown)).
    + eapply pages_frame_trans; [exact Hf|]. eapply pages_frame_mono; [|exact F5]. exact Hin.
    + cbn. by rewrite Ep.
    + cbn. by rewrite Ep.
    + intros q Hq. rewrite F6. cbn. assert (tf ≠ q) by (intros ->; apply Hq, Hin; left).
      by rewrite lookup_delete_ne, lookup_insert_ne.
    + done.
    + by rewrite F6.
    + by rewrite F6.
Qed.

Context (tfp : trapframe) (c : nat).
Hypothesis Hopen : fds_open (p_ofile pr) (k_ftable k).
Hypothesis Hnofile : length (p_ofile pr) = NOFILE.
Hypothesis Hcwd : p_cwd pr = Some c.
Hypothesis Htfp : k_trapframes k !! p_trapframe pr = Some tfp.

(** The copy is made. *)
Lemma fork_copied m f tf pt T l' ps ks :
  let y := allocated x (k_nextpid k) tf pt in
  let k2 := kst k1 m f (<[ tf := junk_trapframe ]> (k_trapframes k)) (i32 (k_nextpid k + 1))
    (alter (λ x, allocated x (k_nextpid k) tf pt) np (k_procs k)) in
  owns_memory k2 (y <| p_sz := p_sz pr |>) T (zip_with leaf_pte ps (PTE_FLAGS <$> es)) l' →
  tf :: ps ++ tables T ++ l' ≡ₚ l → pages_frame l (k_mem k) m →
  Forall2 (λ p e, load_bytes m p 4096 = load_bytes (k_mem k) (PTE2PA e) 4096) ps es →
  ∃ y' k', fork_tail p np pr ks k2 = Ok (k_nextpid k) ks k' ∧ fork_made k p pr Tp es l tfp c np y' k'.
Proof.
  intros y k2 Hy Pl Hf Hd. pose proof slot_other as Hne.
  assert (Hpl : Forall page_ok l) by (eapply free_pages_ok, Hown).
  assert (Hps : Forall page_ok ps).
  { rewrite Forall_forall in Hpl |- *. intros q Hq. apply Hpl. rewrite <- Pl. right. apply elem_of_app. by left. }
  assert (Htf : tf ∈ l) by (rewrite <- Pl; left).
  assert (Hptf : p_trapframe pr ≠ tf).
  { intros E. pose proof (om_nodup _ _ _ _ _ Hown) as Hn. apply NoDup_cons in Hn as [Hn _].
    rewrite E, !elem_of_app in Hn. tauto. }
  assert (Hnd : NoDup l) by (pose proof (om_nodup _ _ _ _ _ Hown) as Hn; apply NoDup_cons in Hn as [_ Hn];
    by apply NoDup_app in Hn as (_ & _ & [_ [_ ?]]%NoDup_app)).
  unfold k2, k1. rewrite (fork_tail_run p pid np k m f _ _ _ pr y tfp c ks);
    [|done|by apply slot_static|done|by rewrite list_lookup_alter_eq, Hx|by rewrite list_lookup_alter_ne|done
     |by rewrite length_alter|apply Hun|done|done|done|by rewrite lookup_insert_ne by done].
  eexists (forked p pr y), _. split; [reflexivity|].
  set (k' := shared _ _ _).
  assert (MS : mem_state k' l').
  { destruct (om_vm _ _ _ _ _ Hy) as [_ V2 V3 _ _]. split; [|done|done].
    apply (vm_ready _ _ _ _ (om_vm _ _ _ _ _ Hown)). }
  split; try done.
  - rewrite Hx. cbn. by rewrite (un_state _ Hun).
  - cbn. rewrite list_alter_alter_eq, (alter_at np x) by done. reflexivity.
  - cbn. by rewrite lookup_alter_eq, lookup_insert_eq.
  - intros q Hq. cbn. assert (tf ≠ q) by (by intros ->). by rewrite lookup_alter_ne, lookup_insert_ne.
  - assert (Hy' : owns_memory k' (forked p pr y) T (zip_with leaf_pte ps (PTE_FLAGS <$> es)) l').
    { destruct MS as [M1 M2 M3]. destruct Hy as [[V1 V2 V3 V4 V5] O1 O2 O3 O4 O5 O6 O7 O8 O9 O10].
      by constructor. }
    exists T, (zip_with leaf_pte ps (PTE_FLAGS <$> es)), l'. split; [done|]. split; [|split].
    + apply (owner_keeps k pr Tp es l); [done..| |].
      * rewrite <- Pl in Hnd. apply NoDup_cons in Hnd as [_ Hnd]. rewrite (assoc_L app) in Hnd.
        by apply NoDup_app in Hnd as (_ & _ & ?).
      * intros q Hq. rewrite <- Pl. right. by rewrite !elem_of_app; right; right.
    + unfold pages_of. rewrite copied_pages; [|done|apply Hown|by eapply Forall2_length].
      rewrite <- Pl. cbn. by rewrite <- (assoc_L app).
    + intros va Hva. by apply (child_view k pr Tp es l k' (forked p pr y) T ps l').
Qed.

(** fork() on the slot allocproc() returned. *)
Definition fork_into : M kernel Z :=
  pr ← proc_get p;
  npr ← proc_get np;
  r ← uvmcopy (p_pagetable pr) (p_pagetable npr) (p_sz pr);
  if r <? 0 then freeproc np ;; release (L_proc np) ;; mret (-1) else fork_tail p np pr.

Lemma fork_into_copy a b r ka kb ks :
  k_procs ka !! p = Some a → k_procs ka !! np = Some b →
  uvmcopy (p_pagetable a) (p_pagetable b) (p_sz a) ks ka = Ok r ks kb →
  fork_into ks ka = (if r <? 0 then freeproc np ;; release (L_proc np) ;; mret (-1) else fork_tail p np a) ks kb.
Proof.
  intros Ha Hb Hc. unfold fork_into. rewrite bind_run. unfold proc_get at 1, deref at 1. rewrite Ha.
  rewrite bind_run. unfold proc_get at 1, deref at 1. by rewrite Hb, bind_run, Hc.
Qed.

Lemma fork_into_run ka ks :
  alloc_done k1 l np x ka →
  (∃ k', fork_into ks ka = Ok (-1) ks k' ∧ fork_failed k l k') ∨
  (∃ y k', fork_into ks ka = Ok (k_nextpid k) ks k' ∧ fork_made k p pr Tp es l tfp c np y k').
Proof.
  intros (m & f & tf & pt & T & l' & -> & Hy & Pl & Hlf & Hf).
  set (psl := alter _ np (k_procs k1)). set (y := allocated x (k_nextpid k1) tf pt) in *.
  destruct (fork_copy k1 pr Tp es l x tf pt _ _ m f T l' psl ks slot_nested slot_owner Hy Pl Hlf Hf)
    as (r & m2 & f2 & T2 & l2 & ps & H2 & P2 & Hf2 & Hr). fold y in Hr.
  assert (Hpp : psl !! p = Some pr) by (unfold psl; rewrite list_lookup_alter_ne by apply slot_other; exact Hpr).
  assert (Hpn : psl !! np = Some y) by (unfold psl; rewrite list_lookup_alter_eq; cbn; by rewrite Hx).
  set (ka := kst k1 m f _ _ psl) in *. rewrite (fork_into_copy pr y r ka _ ks Hpp Hpn H2).
  destruct Hr as [(-> & -> & Ho)|(-> & Ho & Hd)]; [left|right].
  - by apply (fork_copy_failed m2 f2 tf pt _ T2 l2 ks).
  - by apply (fork_copied m2 f2 tf pt T2 l2 ps ks).
Qed.
End forking.

(** The process [pr] that calls fork(): its slot, memory, descriptors,
    directory and saved registers. *)
Record forkable (p : nat) (pid : Z) (pr : proc) (Tp : tree) (es l : list Z) (tfp : trapframe) (c : nat) (k : kernel) : Prop := {
  fk_thread : kernel_thread p pid k;
  fk_proc : k_procs k !! p = Some pr;
  fk_state : p_state pr ≠ UNUSED;
  fk_memory : owns_memory k pr Tp es l;
  fk_slots : slots_clean (k_procs k);
  fk_open : fds_open (p_ofile pr) (k_ftable k);
  fk_nofile : length (p_ofile pr) = NOFILE;
  fk_cwd : p_cwd pr = Some c;
  fk_registers : k_trapframes k !! p_trapframe pr = Some tfp;
}.

Lemma fork_start p pid ks k :
  kernel_thread p pid k →
  fork ks k = (o ← allocproc; match o with None => mret (-1) | Some np => fork_into p np end) ks k.
Proof.
  intros [Hm Hp _ Hs _ _ _]. unfold fork. rewrite bind_run, (curproc_run _ _ p) by done.
  assert (E : k <| k_mach ::= settle |> = k) by (destruct k; cbn in *; by rewrite Hs). by rewrite E.
Qed.

Lemma fork_runs p pid pr Tp es l tfp c ks k :
  forkable p pid pr Tp es l tfp c k →
  match first_unused 0 (k_procs k) with
  | None => fork ks k = Ok (-1) ks k
  | Some np =>
      (∃ k', fork ks k = Ok (-1) ks k' ∧ fork_failed k l k') ∨
      (∃ y k', fork ks k = Ok (k_nextpid k) ks k' ∧ fork_made k p pr Tp es l tfp c np y k')
  end.
Proof.
  intros [Hk Hpr Hrun Hown Hclean Hopen Hno Hcwd Htf].
  assert (MS : mem_state k l) by (destruct (om_vm _ _ _ _ _ Hown); by split).
  pose proof (allocproc_run p pid ks k l Hk MS Hclean) as Ha.
  rewrite (fork_start p pid) by done. rewrite bind_run.
  destruct (first_unused 0 (k_procs k)) as [np|] eqn:Hfu; [|by rewrite Ha].
  destruct Ha as [(k' & F & ->)|(x & k' & Hx & Hun & Ha & ->)].
  - destruct (first_unused_lookup _ _ _ Hfu) as (j & x & -> & Hx & Hu).
    left. eexists. split; [reflexivity|].
    apply (fork_alloc_failed k pr Tp es l j x Hown Hclean Hx); [by apply (Hclean _ _ Hx)|exact F].
  - by apply (fork_into_run p pid k pr Tp es l np x).
Qed.
End forkspec.
