(* ===== verification/LifeSpec.v ===== *)
(** * The life of a process: theorems on fork(), exit() and wait() of proc.c

    A process is made by fork(), and the parent's wait() takes it apart once it
    has exited.  The theorems state what each does to the process table, the
    memory and the files, and that the two together lose no page. *)

From S2P Require Import Prelude KMonad Memory Riscv State Spinlock CString Kalloc Vm VmUser.
From S2P Require Import VmFree VmCopy Sched Uart Printf Console Pipe Sleeplock Bio Log Fs File ProcLife ProcSpec AllocSpec ForkSpec.

Section life.
Context `{KI : KernelImage}.

(** ** What a process can reach *)

(** The trampoline and the trapframe are not for the user. *)
Definition sealed (m : memory) (T : tree) : Prop :=
  user_entry (leaf m T TRAMPOLINE) = false ∧ user_entry (leaf m T TRAPFRAME) = false.

(** A page the user reaches is one of the entries of the process. *)
Lemma owner_reach k x T es l va :
  owns_memory k x T es l → sealed (k_mem k) T → 0 ≤ va < MAXVA → user_entry (leaf (k_mem k) T va) = true →
  es !! Z.to_nat (va / PGSIZE) = Some (leaf (k_mem k) T va).
Proof.
  intros Hown [S1 S2] Hva Hu. destruct trapframe_layout as (E1 & E2 & A1 & A2 & EM & EP).
  destruct (decide (va < TRAPFRAME)) as [Hlt|Hge].
  - rewrite (owner_leaf _ _ _ _ _ _ Hown) in * by lia. destruct (es !! _); [done|discriminate Hu].
  - exfalso. rewrite <- leaf_PGROUNDDOWN in Hu. pose proof (PGROUNDDOWN_bounds va) as Hb. pose proof (PGROUNDDOWN_aligned va) as Ha.
    assert (PGROUNDDOWN va = TRAMPOLINE ∨ PGROUNDDOWN va = TRAPFRAME) as [E|E]; [|congruence..].
    unfold page_aligned in Ha. rewrite E1, E2, EM, EP in *. revert Ha Hb. generalize (PGROUNDDOWN va). intros a Ha Hb.
    destruct (decide (a < 274877906944 - 4096)); [right|left]; Z.div_mod_to_equations; lia.
Qed.

Lemma owner_sep k x T es l : owns_memory k x T es l → sealed (k_mem k) T → user_sep (k_mem k) T l.
Proof.
  intros Hown Hse. split.
  - intros va Hva Ha Hu. pose proof (owner_reach _ _ _ _ _ _ Hown Hse Hva Hu) as He.
    assert (Hq : PTE2PA (leaf (k_mem k) T va) ∈ PTE2PA <$> es) by (by eapply list_elem_of_fmap_2, list_elem_of_lookup_2).
    pose proof (om_pages _ _ _ _ _ Hown) as Hp. rewrite Forall_forall in Hp. split; [by apply Hp|].
    pose proof (om_nodup _ _ _ _ _ Hown) as Hn. apply NoDup_cons in Hn as [_ Hn].
    apply NoDup_app in Hn as (_ & Hd & _). by apply Hd.
  - intros va va' Hva Hva' Ha Ha' Hu Hu' E.
    pose proof (owner_reach _ _ _ _ _ _ Hown Hse Hva Hu) as He.
    pose proof (owner_reach _ _ _ _ _ _ Hown Hse Hva' Hu') as He'.
    pose proof (om_nodup _ _ _ _ _ Hown) as Hn. apply NoDup_cons in Hn as [_ Hn].
    apply NoDup_app in Hn as (Hn & _ & _).
    assert (Ei : Z.to_nat (va / PGSIZE) = Z.to_nat (va' / PGSIZE)).
    { eapply (NoDup_lookup _ _ _ (PTE2PA (leaf (k_mem k) T va)) Hn); rewrite list_lookup_fmap.
      - by rewrite He.
      - by rewrite He', E. }
    unfold page_aligned, PGSIZE in *. Z.div_mod_to_equations. lia.
Qed.

(** Pages that were free are out of the parent's reach. *)
Lemma owner_apart k0 k x T es l l' ps :
  owns_memory k0 x T es l → owns_memory k x T es l' → sealed (k_mem k) T → ps ⊆ l → apart (k_mem k) T ps.
Proof.
  intros H0 Hown Hse Hps. split.
  - intros q Hq HT. apply (owner_disjoint _ _ _ _ _ q H0); [apply elem_of_app; by left|by apply Hps].
  - intros va Hva Hu Hq. pose proof (owner_reach _ _ _ _ _ _ Hown Hse Hva Hu) as He.
    eapply (owner_disjoint _ _ _ _ _ _ H0); [|by apply Hps]. apply elem_of_app. right.
    by eapply list_elem_of_fmap_2, list_elem_of_lookup_2.
Qed.

Lemma first_zombie_insert p i np z ps :
  first_zombie p i ps = None → (np < length ps)%nat → child_of p z = true → zombie z = true →
  first_zombie p i (<[ np := z ]> ps) = Some (i + np)%nat.
Proof.
  revert i np. induction ps as [|x ps IH]; intros i np Hz Hn Hc Hzb; cbn in *; [lia|].
  destruct (child_of p x && zombie x) eqn:E; [done|]. destruct np as [|np]; cbn.
  - rewrite Hc, Hzb. cbn. f_equal. lia.
  - rewrite E, IH by (done || lia). f_equal. lia.
Qed.

(** What exit() leaves in the child's slot, as wait() finds it: no open files,
    no directory, the status and the state.  (The references it drops in the
    file and inode tables are no part of what wait() looks at.) *)
Definition exited_proc (status : Z) (y : proc) : proc :=
  y <| p_ofile := replicate NOFILE None |> <| p_cwd := None |> <| p_xstate := status |> <| p_state := ZOMBIE |>.
Definition exited (np : nat) (status : Z) (k : kernel) : kernel := k <| k_procs ::= alter (exited_proc status) np |>.

(** The process [pr] at [p] calls wait() while its child [x] at [pp] is the
    first that has exited. *)
Record reapable (p : nat) (pid : Z) (pr : proc) (Tp : tree) (pp : nat) (x : proc) (T : tree) (es l : list Z) (k : kernel) : Prop := {
  rp_thread : kernel_thread p pid k;
  rp_proc : k_procs k !! p = Some pr;
  rp_parent : vm_ok k (p_pagetable pr) Tp l;
  rp_sep : user_sep (k_mem k) Tp l;
  rp_zombie : first_zombie p 0 (k_procs k) = Some pp;
  rp_child : k_procs k !! pp = Some x;
  rp_memory : owns_memory k x T es l;
  rp_apart : apart (k_mem k) Tp (pages_of x T es);
}.

(** The child fork() made, once it has exited, is the one wait() finds. *)
Lemma forked_reapable p pid pr Tp es l tfp c np y k k' status :
  forkable p pid pr Tp es l tfp c k → sealed (k_mem k) Tp → first_zombie p 0 (k_procs k) = None →
  fork_made k p pr Tp es l tfp c np y k' →
  let z := exited_proc status y in
  k_procs (exited np status k') = <[ np := z ]> (k_procs k) ∧ (np < length (k_procs k))%nat ∧
  ∃ T es' l', reapable p pid pr Tp np z T es' l' (exited np status k') ∧ pages_of z T es' ++ l' ≡ₚ l.
Proof.
  intros Hfk Hse Hz M z. destruct Hfk as [Hk Hpr Hrun Hown Hclean _ _ _ _].
  destruct M as [Mslot Mprocs [Mc1 Mc2] _ _ (T & es' & l' & Ho & Hop & Pl & _) Mf _ _ Mm _].
  injection Mc1 as Mst Mpar Mpid Msz.
  destruct (k_procs k !! np) as [x|] eqn:Hx; [|done]. injection Mslot as Mslot.
  assert (Hne : np ≠ p) by (intros ->; congruence). pose proof (lookup_lt_Some _ _ _ Hx) as Hlt.
  set (ke := exited np status k').
  assert (Ep : k_procs ke = <[ np := z ]> (k_procs k)).
  { cbn. rewrite Mprocs, (alter_at np y) by (by rewrite list_lookup_insert_eq). by rewrite list_insert_insert_eq. }
  assert (Hse' : sealed (k_mem k') Tp).
  { destruct (owner_frame _ _ _ _ _ _ Hown Mf) as [_ E]. unfold sealed. by rewrite !E. }
  split; [exact Ep|]. split; [exact Hlt|]. exists T, es', l'. split; [|exact Pl]. split.
  - destruct Hk as [K1 K2 K3 K4 K5 K6 K7]. split; try (change (k_mach ke) with (k_mach k'); by rewrite Mm).
    + unfold procs_ok in *. by rewrite Ep, length_insert.
    + by rewrite Ep, list_lookup_insert_ne.
  - by rewrite Ep, list_lookup_insert_ne.
  - destruct (om_vm _ _ _ _ _ Hop). by split.
  - by apply (owner_sep k' pr Tp es l').
  - rewrite Ep. apply (first_zombie_insert p 0 np); [done|done|unfold child_of; cbn; by rewrite Mpar, bool_decide_true|done].
  - by rewrite Ep, list_lookup_insert_eq.
  - destruct Ho as [[V1 V2 V3 V4 V5] O1 O2 O3 O4 O5 O6 O7 O8 O9 O10]. by constructor.
  - apply (owner_apart k k' pr Tp es l l'); [done..|].
    intros q Hq. rewrite <- Pl. apply elem_of_app. by left.
Qed.

Lemma reapable_run p pid pr Tp pp x T es l k addr ks :
  reapable p pid pr Tp pp x T es l k → 0 ≤ addr →
  (deliverable (k_mem k) Tp addr →
   ∃ k' l', wait addr ks k = Ok (p_pid x) ks k' ∧ k_procs k' = alter freed pp (k_procs k) ∧
     mem_state k' l' ∧ l' ≡ₚ pages_of x T es ++ l ∧ k_mach k' = k_mach k ∧
     delivered (k_mem k) (k_mem k') Tp addr x) ∧
  (¬ deliverable (k_mem k) Tp addr →
   ∃ m', wait addr ks k = Ok (-1) ks (k <| k_mem := m' |>) ∧ owns_memory (k <| k_mem := m' |>) x T es l).
Proof. intros [H1 H2 H3 H4 H5 H6 H7 H8] Ha. by apply (wait_reaps_runs p pid k H1 pp x pr). Qed.

Lemma forked_pid k p pr Tp es l tfp c np y k' : fork_made k p pr Tp es l tfp c np y k' → p_pid y = k_nextpid k.
Proof. intros M. destruct (fm_child _ _ _ _ _ _ _ _ _ _ _ M). congruence. Qed.

Lemma reaps_forked p pid pr Tp es l tfp c np y k k' :
  forkable p pid pr Tp es l tfp c k → sealed (k_mem k) Tp → first_zombie p 0 (k_procs k) = None →
  fork_made k p pr Tp es l tfp c np y k' →
  ∀ status addr ks, 0 ≤ addr → deliverable (k_mem k') Tp addr →
  let z := exited_proc status y in
  ∃ k'' l'', wait addr ks (exited np status k') = Ok (k_nextpid k) ks k'' ∧
    k_procs k'' = <[ np := freed z ]> (k_procs k) ∧ mem_state k'' l'' ∧ l'' ≡ₚ l ∧ k_mach k'' = k_mach k ∧
    delivered (k_mem k') (k_mem k'') Tp addr z.
Proof.
  intros Hfk Hse Hz M status addr ks Ha Hd z.
  destruct (forked_reapable p pid pr Tp es l tfp c np y k k' status Hfk Hse Hz M) as (Ep & Hlt & T & es' & l' & Hr & Pl).
  destruct (reapable_run _ _ _ _ _ _ _ _ _ _ addr ks Hr Ha) as [HW _].
  destruct HW as (k'' & l'' & H1 & H2 & H3 & H4 & H5 & H6); [done|]. exists k'', l''.
  pose proof (forked_pid _ _ _ _ _ _ _ _ _ _ _ M) as Mpid.
  split; [by rewrite H1; cbn; rewrite Mpid|]. split.
  - rewrite H2, Ep, (alter_at np z) by (by rewrite list_lookup_insert_eq). by rewrite list_insert_insert_eq.
  - split; [done|]. split; [by rewrite H4|]. split; [|done]. rewrite H5. apply (fm_mach _ _ _ _ _ _ _ _ _ _ _ M).
Qed.

(** ** Properties *)

(** C9: fork() takes the first unused slot and makes a runnable child of the
    calling process.  The child gets the next pid, the parent's size, open
    files, directory and registers with 0 in a0; at every user address it reads
    the byte the parent reads and may write where the parent may; its pages are
    its own, taken from the free list, and the parent keeps its memory.  Every
    open file gains a reference per descriptor and the directory one.  With no
    unused slot nothing changes and the result is -1; when memory runs out the
    result is -1 and every page, process and file is as before. *)
Theorem fork_copies p pid pr Tp es l tfp c ks k :
  forkable p pid pr Tp es l tfp c k →
  match first_unused 0 (k_procs k) with
  | None => fork ks k = Ok (-1) ks k
  | Some np =>
      (∃ k', fork ks k = Ok (-1) ks k' ∧ fork_failed k l k') ∨
      (∃ y k', fork ks k = Ok (k_nextpid k) ks k' ∧ fork_made k p pr Tp es l tfp c np y k')
  end.
Proof. apply fork_runs. Qed.


(** C11: wait() with an exited child.  If the status can be delivered (to a
    null address: nowhere) it returns the child's pid, the parent reads the
    status at the address and everything else as before, the slot is freed and
    exactly the child's pages go back to the free list; otherwise it returns -1
    and the child still has all it owned. *)
Theorem wait_reaps p pid pr Tp pp x T es l k addr ks :
  reapable p pid pr Tp pp x T es l k → 0 ≤ addr →
  (deliverable (k_mem k) Tp addr →
   ∃ k' l', wait addr ks k = Ok (p_pid x) ks k' ∧ k_procs k' = alter freed pp (k_procs k) ∧
     mem_state k' l' ∧ l' ≡ₚ pages_of x T es ++ l ∧ k_mach k' = k_mach k ∧
     delivered (k_mem k) (k_mem k') Tp addr x) ∧
  (¬ deliverable (k_mem k) Tp addr →
   ∃ m', wait addr ks k = Ok (-1) ks (k <| k_mem := m' |>) ∧ owns_memory (k <| k_mem := m' |>) x T es l).
Proof. apply reapable_run. Qed.

(** C34: wait() with no exited child.  A process that has no children, or has
    been killed, gets -1 and nothing has changed; one that has children sleeps
    on its own channel with wait_lock released. *)
Theorem wait_idles p pid k addr pr ks :
  kernel_thread p pid k → first_zombie p 0 (k_procs k) = None → k_procs k !! p = Some pr →
  (has_children p (k_procs k) = false ∨ p_killed pr ≠ 0 → wait addr ks k = Ok (-1) ks k) ∧
  (has_children p (k_procs k) = true → p_killed pr = 0 →
   wait addr [] k = Blocked (sleep_state (Ch_proc p) L_wait p (in_wait k))).
Proof. intros Hk. apply (wait_idle p pid k Hk). Qed.
End life.

Section witnesses.
#[local] Existing Instance sample_image.

(** ** A process with one page, one open file and a directory *)

Definition life_start : kernel := with_mem thread_kernel (k_mem sample_kernel) (k_freelist sample_kernel).
Definition life_alloc : kernel :=
  match allocproc_found 1 [] (slot_locked 1 life_start) with Ok _ _ k => k | _ => life_start end.
Definition life_slot : proc := default zero_proc (k_procs life_alloc !! 1%nat).
Definition life_grown : kernel :=
  match uvmalloc (p_pagetable life_slot) 0 PGSIZE PTE_W [] life_alloc with Ok _ _ k => k | _ => life_alloc end.
Definition running (m : machine) (k : kernel) : kernel :=
  k <| k_mach := m |>
    <| k_procs ::= alter (λ x, x <| p_state := RUNNING |> <| p_sz := PGSIZE |> <| p_cwd := Some 0%nat |>
         <| p_ofile ::= <[ 0%nat := Some 0%nat ]> |>) 1%nat |>
    <| k_ftable ::= alter (λ x, x <| f_ref := 1 |>) 0%nat |>.
Definition life_kernel : kernel := running (k_mach life_start) life_grown.
Definition life_proc : proc := default zero_proc (k_procs life_kernel !! 1%nat).

(** A state with the memory of another. *)
Lemma with_mem_state k k0 l :
  kmem_ready k → mem_bytes (k_mem k0) → free_pages k0 l → mem_state (with_mem k (k_mem k0) (k_freelist k0)) l.
Proof. intros H1 H2 H3. by split. Qed.

Lemma thread_with p pid k k' pid' :
  kernel_thread p pid k → k_mach k' = k_mach k → length (k_procs k') = NPROC → p_pid <$> k_procs k' !! p = Some pid' →
  kernel_thread p pid' k'.
Proof. intros [H1 H2 H3 H4 H5 _ _] E H6 H7. split; rewrite ?E; done. Qed.

Lemma life_mem : mem_state life_start sample_pages.
Proof.
  apply with_mem_state; [|exact sample_bytes|exact sample_free].
  destruct thread_kernel_ok as [H1 _ _ _ H5 _ _]. split; [exact H1|by apply H5].
Qed.

Lemma life_thread : kernel_thread 1 1 life_kernel.
Proof. apply (thread_with 1 0 thread_kernel); [exact thread_kernel_ok|reflexivity|by_eval|by_eval]. Qed.

Lemma life_alloc_done : alloc_done (slot_locked 1 life_start) sample_pages 1 zero_proc life_alloc.
Proof.
  assert (E : match allocproc_found 1 [] (slot_locked 1 life_start) with Ok (Some p) _ _ => p | _ => 0%nat end = 1%nat)
    by (vm_compute; reflexivity).
  destruct (allocproc_slot 1 0 1 zero_proc [] life_start sample_pages) as [(k' & Hf & Hr)|(k' & Hd & Hr)].
  - apply (thread_with 1 0 thread_kernel); [exact thread_kernel_ok|reflexivity|by_eval|by_eval].
  - exact life_mem.
  - vm_compute. reflexivity.
  - by split.
  - rewrite Hr in E. discriminate E.
  - unfold life_alloc. rewrite Hr. exact Hd.
Qed.

Lemma life_slot_alloc : ∃ tf pt, life_slot = allocated zero_proc 1 tf pt ∧ page_ok tf ∧ tf = p_trapframe life_slot ∧
  ∃ T l, owns_memory life_alloc life_slot T [] l ∧
    ∀ va, 0 ≤ va < MAXVA → page_aligned va → leaf (k_mem life_alloc) T va = fresh_leaf tf va.
Proof.
  destruct life_alloc_done as (m & f & tf & pt & T & l & E & Hy & _ & Hlf & _).
  assert (Es : life_slot = allocated zero_proc 1 tf pt) by (unfold life_slot; by rewrite E).
  exists tf, pt. split; [exact Es|]. split; [apply Hy|]. split; [by rewrite Es|].
  exists T, l. rewrite Es. split; [exact Hy|]. rewrite E. exact Hlf.
Qed.

Lemma grown_sized k0 k T0 l0 T l tf y ps fs cs sz :
  owns_memory k0 y T0 [] l0 → page_ok tf → p_trapframe y = tf →
  (∀ va, 0 ≤ va < MAXVA → page_aligned va → leaf (k_mem k0) T0 va = fresh_leaf tf va) →
  grown (p_pagetable y) 0 k0 T0 l0 ps fs cs k T l → 0 ≤ sz ≤ TRAPFRAME →
  PGROUNDUP sz = Z.of_nat (length ps) * PGSIZE → Z.of_nat (length ps) * PGSIZE ≤ TRAPFRAME →
  owns_memory k (y <| p_sz := sz |>) T (zip_with leaf_pte ps fs) l.
Proof. intros H1 H2 H3 H4 G H5 H6 H7. by apply (grown_owns k0 k T0 l0 T l tf y ps fs cs H1 H2 H3 H4 G _ sz). Qed.

(** The memory of the process, as the theorems describe it. *)
Lemma life_memory : ∃ T es l, owns_memory life_grown (life_slot <| p_sz := PGSIZE |>) T es l ∧ sealed (k_mem life_grown) T.
Proof.
  destruct life_slot_alloc as (tf & pt & Es & Htf & Et & T & l & Hy & Hlf).
  destruct (uvmalloc_spec (p_pagetable life_slot) 0 PGSIZE PTE_W [] life_alloc T l)
    as (r & k' & T2 & l2 & ps & H1 & G & Hr); [apply Hy|by_eval|by_eval|by_eval| |].
  { intros i Hi. change (pages_between 0 PGSIZE) with 1%nat in Hi. destruct i; [|lia].
    rewrite Hlf; [|by_eval|by_eval]. unfold fresh_leaf. by rewrite !decide_False by by_eval. }
  assert (E : match uvmalloc (p_pagetable life_slot) 0 PGSIZE PTE_W [] life_alloc with Ok r _ _ => r | _ => 0 end = PGSIZE)
    by (vm_compute; reflexivity).
  unfold life_grown. rewrite H1 in *. subst r. destruct Hr as [[_ Hl]|[Hr _]]; [|discriminate Hr].
  change (pages_between 0 PGSIZE) with 1%nat in Hl.
  exists T2, (zip_with leaf_pte ps (replicate (length ps) (Z.lor (Z.lor PTE_R PTE_U) PTE_W))), l2. split.
  - apply (grown_sized life_alloc k' T l T2 l2 tf life_slot ps _ _ PGSIZE Hy Htf (eq_sym Et) Hlf G); rewrite ?Hl.
    + by_eval.
    + reflexivity.
    + by_eval.
  - assert (L : ∀ va, va = TRAMPOLINE ∨ va = TRAPFRAME → leaf (k_mem k') T2 va = fresh_leaf tf va).
    { intros va Hva. rewrite (gr_leaf_out _ _ _ _ _ _ _ _ _ _ _ G); rewrite ?Hl;
        destruct Hva as [->| ->]; first [apply Hlf; by_eval | by_eval]. }
    split; rewrite L by tauto; rewrite Et; vm_compute; reflexivity.
Qed.

Lemma owns_kernel k k' x x' T es l :
  owns_memory k x T es l → kmem_ready k' → k_mem k' = k_mem k → k_freelist k' = k_freelist k →
  (p_pagetable x', p_sz x', p_trapframe x') = (p_pagetable x, p_sz x, p_trapframe x) → owns_memory k' x' T es l.
Proof.
  intros [[V1 V2 V3 V4 V5] O1 O2 O3 O4 O5 O6 O7 O8 O9 O10] R Em Ef [= Ep Es Et].
  constructor; rewrite ?Em, ?Ep, ?Es, ?Et; try done. split; unfold free_pages in *; rewrite ?Em, ?Ef; done.
Qed.

Lemma running_mem m k : k_mem (running m k) = k_mem k ∧ k_freelist (running m k) = k_freelist k.
Proof. done. Qed.

Lemma life_slots : slots_clean (k_procs life_kernel).
Proof.
  assert (H : Forall (λ x, p_state x = UNUSED → p_trapframe x = 0 ∧ p_pagetable x = 0 ∧ p_sz x = 0 ∧
    p_ofile x = replicate NOFILE None) (k_procs life_kernel)) by by_eval.
  intros i x Hx Hu. rewrite Forall_lookup in H. destruct (H i x Hx Hu) as (H1 & H2 & H3 & H4). by split.
Qed.

Lemma life_files : fds_open (p_ofile life_proc) (k_ftable life_kernel).
Proof.
  assert (H : Forall (λ o, o = None ∨ o = Some 0%nat) (p_ofile life_proc)) by by_eval.
  assert (E : f_ref <$> k_ftable life_kernel !! 0%nat = Some 1) by by_eval.
  intros f Hf. rewrite Forall_forall in H. destruct (H _ Hf) as [|[= ->]]; [done|].
  destruct (k_ftable life_kernel !! 0%nat) as [x|]; [|done]. injection E as E. exists x. split; [done|]. lia.
Qed.

Lemma life_forkable : ∃ T es l, forkable 1 1 life_proc T es l junk_trapframe 0 life_kernel ∧ sealed (k_mem life_kernel) T.
Proof.
  destruct life_memory as (T & es & l & Hown & Hse). pose proof life_thread as Hk. exists T, es, l.
  destruct (running_mem (k_mach life_start) life_grown) as [Em Ef]. fold life_kernel in Em, Ef.
  split; [|by rewrite Em]. split.
  - exact Hk.
  - vm_compute. reflexivity.
  - by_eval.
  - apply (owns_kernel life_grown life_kernel (life_slot <| p_sz := PGSIZE |>)); [exact Hown| |exact Em|exact Ef|].
    + destruct Hk as [K1 _ _ _ K5 _ _]. split; [exact K1|by apply K5].
    + vm_compute. reflexivity.
  - exact life_slots.
  - exact life_files.
  - by_eval.
  - by_eval.
  - vm_compute. reflexivity.
Qed.

(** The result of the call. *)
Definition life_forked : kernel := match fork [] life_kernel with Ok _ _ k => k | _ => life_kernel end.

Lemma life_fork_made : ∃ Tp es l y,
  forkable 1 1 life_proc Tp es l junk_trapframe 0 life_kernel ∧ sealed (k_mem life_kernel) Tp ∧
  fork [] life_kernel = Ok 2 [] life_forked ∧
  fork_made life_kernel 1 life_proc Tp es l junk_trapframe 0 0 y life_forked.
Proof.
  destruct life_forkable as (Tp & es & l & Hf & Hse).
  assert (E : match fork [] life_kernel with Ok r _ _ => r | _ => 0 end = 2) by (vm_compute; reflexivity).
  pose proof (fork_runs 1 1 life_proc Tp es l junk_trapframe 0 [] life_kernel Hf) as H.
  assert (Eu : first_unused 0 (k_procs life_kernel) = Some 0%nat) by by_eval. rewrite Eu in H.
  destruct H as [(k' & H & _)|(y & k' & H & M)]; rewrite H in E; [discriminate E|].
  exists Tp, es, l, y. unfold life_forked. rewrite H, E. split; [exact Hf|]. split; [exact Hse|].
  split; [reflexivity|exact M].
Qed.

Lemma life_no_zombie : first_zombie 1 0 (k_procs life_kernel) = None.
Proof. by_eval. Qed.

(** The child in slot 0 reads and may write what its parent does. *)
Lemma fork_copies_witness :
  ∃ y k' Tp T, fork [] life_kernel = Ok 2 [] k' ∧ k_procs k' !! 0%nat = Some y ∧ p_state y = RUNNABLE ∧
    user_writable (k_mem k') T 100 = user_writable (k_mem life_kernel) Tp 100.
Proof.
  destruct life_forkable as (Tp & es & l & Hf & _).
  assert (E : match fork [] life_kernel with Ok r _ _ => r | _ => 0 end = 2) by (vm_compute; reflexivity).
  pose proof (fork_copies 1 1 life_proc Tp es l junk_trapframe 0 [] life_kernel Hf) as H.
  assert (Eu : first_unused 0 (k_procs life_kernel) = Some 0%nat) by by_eval. rewrite Eu in H.
  destruct H as [(k' & H & _)|(y & k' & H & M)]; rewrite H in E; [discriminate E|].
  destruct M as [_ Mp [Mc _] _ _ (T & es' & l' & _ & _ & _ & Hv) _ _ _ _ _].
  exists y, k', Tp, T. split_and!.
  - by rewrite H, E.
  - rewrite Mp. apply list_lookup_insert_eq. by_eval.
  - congruence.
  - apply Hv. by_eval.
Defined.


Lemma wait_reaps_witness :
  ∃ k'', wait 0 [] (exited 0 7 life_forked) = Ok 2 [] k'' ∧ p_state <$> k_procs k'' !! 0%nat = Some UNUSED.
Proof.
  destruct life_fork_made as (Tp & es & l & y & Hf & Hse & _ & M).
  destruct (forked_reapable 1 1 life_proc Tp es l junk_trapframe 0 0 y life_kernel life_forked 7 Hf Hse life_no_zombie M)
    as (Ep & _ & T & es' & l' & Hr & _).
  destruct (wait_reaps _ _ _ _ _ _ _ _ _ _ 0 [] Hr (Z.le_refl 0)) as [HW _].
  destruct (HW (or_introl eq_refl)) as (k'' & l'' & H1 & H2 & _).
  assert (Epid : p_pid (exited_proc 7 y) = 2).
  { transitivity (k_nextpid life_kernel); [exact (forked_pid _ _ _ _ _ _ _ _ _ _ _ M)|vm_compute; reflexivity]. }
  rewrite Epid in H1. exists k''. split; [exact H1|]. rewrite H2, Ep, list_lookup_alter_eq, list_lookup_insert_eq; [reflexivity|by_eval].
Defined.

(** With no child wait() fails; with one still running it sleeps. *)
Lemma wait_idles_witness :
  wait 0 [] life_kernel = Ok (-1) [] life_kernel ∧
  wait 0 [] life_forked = Blocked (sleep_state (Ch_proc 1) L_wait 1 (in_wait life_forked)).
Proof.
  destruct life_fork_made as (Tp & es & l & y & Hf & _ & _ & M). pose proof life_thread as Hk.
  assert (Hk' : kernel_thread 1 1 life_forked)
    by (apply (thread_with 1 1 life_kernel); [exact Hk|apply (fm_mach _ _ _ _ _ _ _ _ _ _ _ M)|by_eval|by_eval]).
  destruct (wait_idles 1 1 life_kernel 0 life_proc [] Hk life_no_zombie (fk_proc _ _ _ _ _ _ _ _ _ Hf)) as [H1 _].
  assert (Hz : first_zombie 1 0 (k_procs life_forked) = None) by by_eval.
  assert (Hp : k_procs life_forked !! 1%nat = Some life_proc).
  { rewrite (fm_procs _ _ _ _ _ _ _ _ _ _ _ M), list_lookup_insert_ne by by_eval.
    exact (fk_proc _ _ _ _ _ _ _ _ _ Hf). }
  destruct (wait_idles 1 1 life_forked 0 life_proc [] Hk' Hz Hp) as [_ H2].
  assert (C1 : has_children 1 (k_procs life_kernel) = false) by by_eval.
  assert (C2 : has_children 1 (k_procs life_forked) = true) by by_eval.
  assert (C3 : p_killed life_proc = 0) by (vm_compute; reflexivity).
  split; [exact (H1 (or_introl C1))|exact (H2 C2 C3)].
Defined.
End witnesses.
