(* ===== verification/Exec.v ===== *)
(** * Program loading: exec.c and elf.h *)

From S2P Require Import Prelude KMonad Memory Riscv State Spinlock CString Kalloc Vm VmUser.
From S2P Require Import VmFree VmCopy Sched Uart Printf Console Pipe Sleeplock Bio Log Fs File.
From S2P Require Import ProcLife.

Definition ELF_MAGIC : Z := 0x464C457F.
Definition ELF_PROG_LOAD : Z := 1.

(** The fields of [struct elfhdr] exec() uses, and its size. *)
Definition elfhdr_size : Z := 64.
Definition elf_magic (d : list Z) : Z := get32 d 0.
Definition elf_entry (d : list Z) : Z := get64 d 24.
Definition elf_phoff (d : list Z) : Z := get64 d 32.
Definition elf_phnum (d : list Z) : Z := get16 d 56.

(** [struct proghdr] *)
Record proghdr := Proghdr {
  ph_type : Z; ph_flags : Z; ph_off : Z; ph_vaddr : Z; ph_paddr : Z;
  ph_filesz : Z; ph_memsz : Z; ph_align : Z;
}.
Definition proghdr_size : Z := 56.
Definition decode_proghdr (d : list Z) : proghdr :=
  Proghdr (get32 d 0) (get32 d 4) (get64 d 8) (get64 d 16) (get64 d 24)
          (get64 d 32) (get64 d 40) (get64 d 48).

Definition flags2perm (flags : Z) : Z :=
  let perm := if truthy (Z.land flags 0x1) then PTE_X else 0 in
  if truthy (Z.land flags 0x2) then Z.lor perm PTE_W else perm.

(** [for(last=s=path; *s; s++) if( *s == '/') last = s+1;] *)
Fixpoint last_elem (last s : list Z) : list Z :=
  match s with
  | [] => last
  | c :: s' => if c =? 47 then last_elem s' s' else last_elem last s'
  end.

Section exec.
Context `{KI : KernelImage} `{D : Disk}.

(** One turn of loadseg()'s loop, on [i]. *)
Definition loadseg_body (pagetable va : Z) (ip : nat) (offset sz : Z) (i : Z) : M kernel (Z + Z) :=
  if i <? sz then
    pa ← walkaddr pagetable (u64 (va + i));
    if pa =? 0 then panic "loadseg: address should exist" else
    let n := if sz - i <? PGSIZE then sz - i else PGSIZE in
    r ← readi ip (Kernel_at pa) (u32 (offset + i)) n;
    if negb (r.1 =? n) then mret (inr (-1)) else
    mret (inl (u32 (i + PGSIZE)))
  else mret (inr 0).

Definition loadseg (pagetable va : Z) (ip : nat) (offset sz : Z) : M kernel Z :=
  while_fuel (Z.to_nat (sz / PGSIZE) + 2) (loadseg_body pagetable va ip offset sz) 0.

(** One program header: [inl sz'] continues with the new size, [inr sz'] is
    [goto bad] with that size. *)
Definition load_ph (pagetable : Z) (ip : nat) (off sz : Z) : M kernel (Z + Z) :=
  r ← readi ip (Local []) (u32 off) proghdr_size;
  if negb (r.1 =? proghdr_size) then mret (inr sz) else
  let ph := decode_proghdr r.2 in
  if negb (ph_type ph =? ELF_PROG_LOAD) then mret (inl sz) else
  if ph_memsz ph <? ph_filesz ph then mret (inr sz) else
  if u64 (ph_vaddr ph + ph_memsz ph) <? ph_vaddr ph then mret (inr sz) else
  if negb (ph_vaddr ph mod PGSIZE =? 0) then mret (inr sz) else
  sz1 ← uvmalloc pagetable sz (u64 (ph_vaddr ph + ph_memsz ph)) (flags2perm (ph_flags ph));
  if sz1 =? 0 then mret (inr sz) else
  r ← loadseg pagetable (ph_vaddr ph) ip (u32 (ph_off ph)) (u32 (ph_filesz ph));
  if r <? 0 then mret (inr sz1) else mret (inl sz1).

(** [for(i=0, off=elf.phoff; i<elf.phnum; i++, off+=sizeof(ph))] *)
Fixpoint load_segments (pagetable : Z) (ip : nat) (off sz : Z) (left : nat) : M kernel (Z + Z) :=
  match left with
  | O => mret (inl sz)
  | S left' =>
      r ← load_ph pagetable ip off sz;
      match r with
      | inr sz' => mret (inr sz')
      | inl sz' => load_segments pagetable ip (i32 (off + proghdr_size)) sz' left'
      end
  end.

(** Push argument strings: the new stack pointer and ustack, or [goto bad]. *)
Fixpoint push_args (pagetable stackbase : Z) (argv : list Z) (argc : nat) (sp : Z) (ustack : list Z)
    : M kernel (option (Z * list Z)) :=
  match argv with
  | [] => mret (Some (sp, ustack))
  | a :: argv' =>
      if (MAXARG <=? argc)%nat then mret None else
      len ← deref "strlen" (λ k, strlen (k_mem k) a (Z.to_nat PGSIZE));
      let sp := u64 (sp - (len + 1)) in
      let sp := sp - sp mod 16 in      (* riscv sp must be 16-byte aligned *)
      if sp <? stackbase then mret None else
      str ← gets (λ k, load_bytes (k_mem k) a (Z.to_nat (len + 1)));
      r ← copyout pagetable sp str;
      if r <? 0 then mret None else
      push_args pagetable stackbase argv' (S argc) sp (ustack ++ [sp])
  end.

(** [bad:], before and after the inode has been released. *)
Definition exec_bad (pagetable sz : Z) (ip : option nat) : M kernel Z :=
  when (truthy pagetable) (proc_freepagetable pagetable sz) ;;
  match ip with
  | Some i => iunlockput i ;; end_op
  | None => mret tt
  end ;;
  mret (-1).

(** The second half of exec(): the stack and the commit to the new image. *)
Definition exec_stack (p : nat) (path argv : list Z) (entry pagetable sz : Z) : M kernel Z :=
  pr ← proc_get p;
  let oldsz := p_sz pr in
  (* Allocate two pages at the next page boundary: a guard and the stack. *)
  let sz := PGROUNDUP sz in
  sz1 ← uvmalloc pagetable sz (u64 (sz + 2 * PGSIZE)) PTE_W;
  if sz1 =? 0 then exec_bad pagetable sz None else
  let sz := sz1 in
  uvmclear pagetable (u64 (sz - 2 * PGSIZE)) ;;
  let sp := sz in
  let stackbase := u64 (sp - PGSIZE) in
  r ← push_args pagetable stackbase argv 0 sp [];
  match r with
  | None => exec_bad pagetable sz None
  | Some (sp, ustack) =>
      let argc := Z.of_nat (length ustack) in
      (* push the array of argv[] pointers. *)
      let sp := u64 (sp - (argc + 1) * 8) in
      let sp := sp - sp mod 16 in
      if sp <? stackbase then exec_bad pagetable sz None else
      r ← copyout pagetable sp ((ustack ++ [0]) ≫= Z_to_bytes 8);
      if r <? 0 then exec_bad pagetable sz None else
      (* arguments to user main(argc, argv) *)
      tf_set p (λ t, t <| tf_a1 := sp |>) ;;
      (* Save program name for debugging. *)
      proc_set p (λ x, x <| p_name ::= λ d, copy_name d (last_elem path path ++ [0]) 16 |>) ;;
      (* Commit to the user image. *)
      pr ← proc_get p;
      let oldpagetable := p_pagetable pr in
      proc_set p (λ x, x <| p_pagetable := pagetable |>) ;;
      proc_set p (λ x, x <| p_sz := sz |>) ;;
      tf_set p (λ t, t <| tf_epc := entry |>) ;;
      tf_set p (λ t, t <| tf_sp := sp |>) ;;
      proc_freepagetable oldpagetable oldsz ;;
      mret argc
  end.

(** [path] is the string, [argv] the addresses of the argument strings. *)
Definition exec (path argv : list Z) : M kernel Z :=
  p ← curproc;
  begin_op ;;
  o ← namei path;
  match o with
  | None => end_op ;; mret (-1)
  | Some ip =>
      ilock (Some ip) ;;
      (* Check ELF header *)
      r ← readi ip (Local []) 0 elfhdr_size;
      if negb (r.1 =? elfhdr_size) then exec_bad 0 0 (Some ip) else
      let elf := r.2 in
      if negb (elf_magic elf =? ELF_MAGIC) then exec_bad 0 0 (Some ip) else
      pagetable ← proc_pagetable p;
      if pagetable =? 0 then exec_bad 0 0 (Some ip) else
      (* Load program into memory. *)
      r ← load_segments pagetable ip (i32 (elf_phoff elf)) 0 (Z.to_nat (elf_phnum elf));
      match r with
      | inr sz => exec_bad pagetable sz (Some ip)
      | inl sz =>
          iunlockput ip ;;
          end_op ;;
          p ← curproc;
          exec_stack p path argv (elf_entry elf) pagetable sz
      end
  end.
End exec.
