(* ===== verification/Syscall.v ===== *)
(** * System calls: syscall.c, sysproc.c and sysfile.c *)

From S2P Require Import Prelude KMonad Memory Riscv State Spinlock CString Kalloc Vm VmUser.
From S2P Require Import VmFree VmCopy Sched Uart Printf Console Pipe Sleeplock Bio Log Fs File.
From S2P Require Import ProcLife Exec.

Definition O_RDONLY : Z := 0x000.
Definition O_WRONLY : Z := 0x001.
Definition O_RDWR : Z := 0x002.
Definition O_CREATE : Z := 0x200.
Definition O_TRUNC : Z := 0x400.

(** syscall.h *)
Definition SYS_fork : Z := 1.
Definition SYS_exit : Z := 2.
Definition SYS_wait : Z := 3.
Definition SYS_pipe : Z := 4.
Definition SYS_read : Z := 5.
Definition SYS_kill : Z := 6.
Definition SYS_exec : Z := 7.
Definition SYS_fstat : Z := 8.
Definition SYS_chdir : Z := 9.
Definition SYS_dup : Z := 10.
Definition SYS_getpid : Z := 11.
Definition SYS_sbrk : Z := 12.
Definition SYS_sleep : Z := 13.
Definition SYS_uptime : Z := 14.
Definition SYS_open : Z := 15.
Definition SYS_write : Z := 16.
Definition SYS_mknod : Z := 17.
Definition SYS_unlink : Z := 18.
Definition SYS_link : Z := 19.
Definition SYS_mkdir : Z := 20.
Definition SYS_close : Z := 21.

Section syscall.
Context `{KI : KernelImage}.

(** ** Fetching arguments *)

(** Fetch the uint64 at addr from the current process: status and value. *)
Definition fetchaddr (addr : Z) : M kernel (Z * Z) :=
  p ← curproc;
  pr ← proc_get p;
  if (p_sz pr <=? addr) || (p_sz pr <? u64 (addr + 8)) then mret (-1, 0) else
  r ← copyin (p_pagetable pr) addr 8;
  if negb (r.1 =? 0) then mret (-1, 0) else
  mret (0, bytes_to_Z r.2).

(** Fetch the nul-terminated string at addr: its length or -1, and what was
    copied into the buffer. *)
Definition fetchstr (addr max : Z) : M kernel (Z * list Z) :=
  p ← curproc;
  pr ← proc_get p;
  r ← copyinstr (p_pagetable pr) addr max;
  if r.1 <? 0 then mret (-1, r.2) else
  mret (Z.of_nat (length (until_nul r.2)), r.2).

Definition argraw (n : Z) : M kernel Z :=
  p ← curproc;
  tf ← tf_get p;
  if n =? 0 then mret (tf_a0 tf) else
  if n =? 1 then mret (tf_a1 tf) else
  if n =? 2 then mret (tf_a2 tf) else
  if n =? 3 then mret (tf_a3 tf) else
  if n =? 4 then mret (tf_a4 tf) else
  if n =? 5 then mret (tf_a5 tf) else
  panic "argraw".

Definition argint (n : Z) : M kernel Z :=
  r ← argraw n;
  mret (i32 r).

Definition argaddr (n : Z) : M kernel Z := argraw n.

Definition argstr (n max : Z) : M kernel (Z * list Z) :=
  addr ← argaddr n;
  fetchstr addr max.

(** A path argument: the string, or none if it could not be fetched. *)
Definition argpath (n : Z) : M kernel (option (list Z)) :=
  r ← argstr n MAXPATH;
  if r.1 <? 0 then mret None else mret (Some (until_nul r.2)).

(** ** sysproc.c *)

Definition sys_getpid : M kernel Z :=
  p ← curproc;
  pr ← proc_get p;
  mret (p_pid pr).

Definition sys_wait : M kernel Z :=
  p ← argaddr 0;
  wait p.

Definition sys_sbrk : M kernel Z :=
  n ← argint 0;
  p ← curproc;
  pr ← proc_get p;
  let addr := p_sz pr in
  r ← growproc n;
  if r <? 0 then mret (-1) else mret addr.

(** [while(ticks - ticks0 < n)] *)
Definition sys_sleep_body (n ticks0 : Z) (_ : unit) : M kernel (unit + Z) :=
  t ← gets k_ticks;
  if u32 (t - ticks0) <? n then
    p ← curproc;
    r ← killed p;
    if truthy r then
      release L_ticks ;;
      mret (inr (-1))
    else
      sleep Ch_ticks L_ticks ;;
      mret (inl tt)
  else
    release L_ticks ;;
    mret (inr 0).

Definition sys_sleep : M kernel Z :=
  n ← argint 0;
  let n := if n <? 0 then 0 else n in
  acquire L_ticks ;;
  ticks0 ← gets k_ticks;
  w ← waits_left;
  while_fuel (S w) (sys_sleep_body n ticks0) tt.

Definition sys_kill : M kernel Z :=
  pid ← argint 0;
  kill pid.

Definition sys_uptime : M kernel Z :=
  acquire L_ticks ;;
  xticks ← gets k_ticks;
  release L_ticks ;;
  mret xticks.

(** ** sysfile.c *)

(** Fetch the nth word-sized system call argument as a file descriptor. *)
Definition argfd (n : Z) : M kernel (option (Z * nat)) :=
  fd ← argint n;
  if (fd <? 0) || (Z.of_nat NOFILE <=? fd) then mret None else
  p ← curproc;
  pr ← proc_get p;
  match p_ofile pr !!! Z.to_nat fd with
  | None => mret None
  | Some f => mret (Some (fd, f))
  end.

(** Allocate a file descriptor for the given file. *)
Definition fdalloc (f : nat) : M kernel Z :=
  p ← curproc;
  r ← for_find (seq 0 NOFILE) (λ fd,
    pr ← proc_get p;
    match p_ofile pr !!! fd with
    | None =>
        proc_set p (λ x, x <| p_ofile ::= <[ fd := Some f ]> |>) ;;
        mret (Some (Z.of_nat fd))
    | Some _ => mret None
    end);
  mret (default (-1) r).

Definition sys_dup : M kernel Z :=
  o ← argfd 0;
  match o with
  | None => mret (-1)
  | Some (_, f) =>
      fd ← fdalloc f;
      if fd <? 0 then mret (-1) else
      _ ← filedup f;
      mret fd
  end.

Context `{D : Disk}.

Definition sys_exit : M kernel Z :=
  n ← argint 0;
  exit n.

Definition sys_fork : M kernel Z := fork.

Definition sys_read : M kernel Z :=
  p ← argaddr 1;
  n ← argint 2;
  o ← argfd 0;
  match o with
  | None => mret (-1)
  | Some (_, f) => fileread f p n
  end.

Definition sys_write : M kernel Z :=
  p ← argaddr 1;
  n ← argint 2;
  o ← argfd 0;
  match o with
  | None => mret (-1)
  | Some (_, f) => filewrite f p n
  end.

Definition sys_close : M kernel Z :=
  o ← argfd 0;
  match o with
  | None => mret (-1)
  | Some (fd, f) =>
      p ← curproc;
      proc_set p (λ x, x <| p_ofile ::= <[ Z.to_nat fd := None ]> |>) ;;
      fileclose f ;;
      mret 0
  end.

Definition sys_fstat : M kernel Z :=
  st ← argaddr 1;
  o ← argfd 0;
  match o with
  | None => mret (-1)
  | Some (_, f) => filestat f st
  end.

(** [bad:] of sys_link(). *)
Definition sys_link_bad (ip : nat) : M kernel Z :=
  ilock (Some ip) ;;
  inode_set ip (λ x, x <| i_nlink := i16 (i_nlink x - 1) |>) ;;
  iupdate ip ;;
  iunlockput ip ;;
  end_op ;;
  mret (-1).

(** Create the path new as a link to the same inode as old. *)
Definition sys_link : M kernel Z :=
  old ← argpath 0;
  match old with None => mret (-1) | Some old =>
  new ← argpath 1;
  match new with None => mret (-1) | Some new =>
  begin_op ;;
  o ← namei old;
  match o with
  | None => end_op ;; mret (-1)
  | Some ip =>
      ilock (Some ip) ;;
      x ← inode_get ip;
      if i_type x =? T_DIR then
        iunlockput ip ;;
        end_op ;;
        mret (-1)
      else
      inode_set ip (λ x, x <| i_nlink := i16 (i_nlink x + 1) |>) ;;
      iupdate ip ;;
      iunlock (Some ip) ;;
      r ← nameiparent new;
      match r.1 with
      | None => sys_link_bad ip
      | Some dp =>
          ilock (Some dp) ;;
          xd ← inode_get dp;
          xi ← inode_get ip;
          failed ← (if negb (i_dev xd =? i_dev xi) then mret true
                    else l ← dirlink dp r.2 (i_inum xi); mret (l <? 0));
          if (failed : bool) then
            iunlockput dp ;;
            sys_link_bad ip
          else
          iunlockput dp ;;
          iput ip ;;
          end_op ;;
          mret 0
      end
  end end end.

(** Is the directory dp empty except for "." and ".." ? *)
Definition isdirempty (dp : nat) : M kernel bool :=
  x ← inode_get dp;
  r ← for_find (dir_offsets (2 * dirent_size) (i_size x)) (λ off,
    r ← readi dp (Local []) off dirent_size;
    if negb (r.1 =? dirent_size) then panic "isdirempty: readi" else
    if negb (get16 r.2 0 =? 0) then mret (Some tt) else mret None);
  mret (bool_decide (r = None)).

(** The end of sys_unlink(), once the entry of [ip] at [off] is known. *)
Definition unlink_entry (dp ip : nat) (off : Z) : M kernel Z :=
  w ← writei dp (Local (replicate (Z.to_nat dirent_size) 0)) off dirent_size;
  if negb (w =? dirent_size) then panic "unlink: writei" else
  x ← inode_get ip;
  when (i_type x =? T_DIR)
    (inode_set dp (λ x, x <| i_nlink := i16 (i_nlink x - 1) |>) ;;
     iupdate dp) ;;
  iunlockput dp ;;
  inode_set ip (λ x, x <| i_nlink := i16 (i_nlink x - 1) |>) ;;
  iupdate ip ;;
  iunlockput ip ;;
  end_op ;;
  mret 0.

Definition sys_unlink_bad (dp : nat) : M kernel Z :=
  iunlockput dp ;;
  end_op ;;
  mret (-1).

Definition sys_unlink : M kernel Z :=
  path ← argpath 0;
  match path with None => mret (-1) | Some path =>
  begin_op ;;
  r ← nameiparent path;
  match r.1 with
  | None => end_op ;; mret (-1)
  | Some dp =>
      let name := r.2 in
      ilock (Some dp) ;;
      (* Cannot unlink "." or "..". *)
      if (namecmp name (bytes_of "." ++ [0]) =? 0) || (namecmp name (bytes_of ".." ++ [0]) =? 0)
      then sys_unlink_bad dp else
      e ← dirlookup dp name;
      match e with
      | None => sys_unlink_bad dp
      | Some (ip, off) =>
          ilock (Some ip) ;;
          x ← inode_get ip;
          if i_nlink x <? 1 then panic "unlink: nlink < 1" else
          keep ← (if i_type x =? T_DIR then e ← isdirempty ip; mret (negb e) else mret false);
          if (keep : bool) then
            iunlockput ip ;;
            sys_unlink_bad dp
          else unlink_entry dp ip off
      end
  end end.

(** [fail:] of create(). *)
Definition create_fail (ip dp : nat) : M kernel (option nat) :=
  inode_set ip (λ x, x <| i_nlink := 0 |>) ;;
  iupdate ip ;;
  iunlockput ip ;;
  iunlockput dp ;;
  mret None.

Definition create (path : list Z) (type major minor : Z) : M kernel (option nat) :=
  r ← nameiparent path;
  match r.1 with
  | None => mret None
  | Some dp =>
      let name := r.2 in
      ilock (Some dp) ;;
      e ← dirlookup dp name;
      match e with
      | Some (ip, _) =>
          iunlockput dp ;;
          ilock (Some ip) ;;
          x ← inode_get ip;
          if (type =? T_FILE) && ((i_type x =? T_FILE) || (i_type x =? T_DEVICE)) then mret (Some ip)
          else
            iunlockput ip ;;
            mret None
      | None =>
          xd ← inode_get dp;
          o ← ialloc (i_dev xd) type;
          match o with
          | None => iunlockput dp ;; mret None
          | Some ip =>
              ilock (Some ip) ;;
              inode_set ip (λ x, x <| i_major := i16 major |>) ;;
              inode_set ip (λ x, x <| i_minor := i16 minor |>) ;;
              inode_set ip (λ x, x <| i_nlink := 1 |>) ;;
              iupdate ip ;;
              xi ← inode_get ip;
              bad ← (if type =? T_DIR then
                       (* Create . and .. entries. *)
                       l ← dirlink ip (bytes_of "." ++ [0]) (i_inum xi);
                       if l <? 0 then mret true else
                       l ← dirlink ip (bytes_of ".." ++ [0]) (i_inum xd);
                       mret (l <? 0)
                     else mret false);
              if (bad : bool) then create_fail ip dp else
              l ← dirlink dp name (i_inum xi);
              if l <? 0 then create_fail ip dp else
              when (type =? T_DIR)
                (* now that success is guaranteed: *)
                (inode_set dp (λ x, x <| i_nlink := i16 (i_nlink x + 1) |>) ;;
                 iupdate dp) ;;
              iunlockput dp ;;
              mret (Some ip)
          end
      end
  end.

(** The inode sys_open() works on, locked, or none. *)
Definition open_inode (path : list Z) (omode : Z) : M kernel (option nat) :=
  if truthy (Z.land omode O_CREATE) then create path T_FILE 0 0
  else
    o ← namei path;
    match o with
    | None => mret None
    | Some ip =>
        ilock (Some ip) ;;
        x ← inode_get ip;
        if (i_type x =? T_DIR) && negb (omode =? O_RDONLY) then
          iunlockput ip ;;
          mret None
        else mret (Some ip)
    end.

Definition sys_open_bad (ip : nat) : M kernel Z :=
  iunlockput ip ;;
  end_op ;;
  mret (-1).

Definition sys_open : M kernel Z :=
  omode ← argint 1;
  path ← argpath 0;
  match path with None => mret (-1) | Some path =>
  begin_op ;;
  o ← open_inode path omode;
  match o with
  | None => end_op ;; mret (-1)
  | Some ip =>
      x ← inode_get ip;
      if (i_type x =? T_DEVICE) && ((i_major x <? 0) || (NDEV <=? i_major x)) then sys_open_bad ip else
      fo ← filealloc;
      match fo with
      | None => sys_open_bad ip
      | Some f =>
          fd ← fdalloc f;
          if fd <? 0 then
            fileclose f ;;
            sys_open_bad ip
          else
          (if i_type x =? T_DEVICE then
             file_set f (λ y, y <| f_type := FD_DEVICE |>) ;;
             file_set f (λ y, y <| f_major := i_major x |>)
           else
             file_set f (λ y, y <| f_type := FD_INODE |>) ;;
             file_set f (λ y, y <| f_off := 0 |>)) ;;
          file_set f (λ y, y <| f_ip := Some ip |>) ;;
          file_set f (λ y, y <| f_readable := b2z (negb (truthy (Z.land omode O_WRONLY))) |>) ;;
          file_set f (λ y, y <| f_writable :=
            b2z (truthy (Z.land omode O_WRONLY) || truthy (Z.land omode O_RDWR)) |>) ;;
          when (truthy (Z.land omode O_TRUNC) && (i_type x =? T_FILE)) (itrunc ip) ;;
          iunlock (Some ip) ;;
          end_op ;;
          mret fd
      end
  end end.

Definition sys_mkdir : M kernel Z :=
  begin_op ;;
  path ← argpath 0;
  o ← match path with None => mret None | Some path => create path T_DIR 0 0 end;
  match o with
  | None => end_op ;; mret (-1)
  | Some ip =>
      iunlockput ip ;;
      end_op ;;
      mret 0
  end.

Definition sys_mknod : M kernel Z :=
  begin_op ;;
  major ← argint 1;
  minor ← argint 2;
  path ← argpath 0;
  o ← match path with None => mret None | Some path => create path T_DEVICE major minor end;
  match o with
  | None => end_op ;; mret (-1)
  | Some ip =>
      iunlockput ip ;;
      end_op ;;
      mret 0
  end.

Definition sys_chdir : M kernel Z :=
  p ← curproc;
  begin_op ;;
  path ← argpath 0;
  o ← match path with None => mret None | Some path => namei path end;
  match o with
  | None => end_op ;; mret (-1)
  | Some ip =>
      ilock (Some ip) ;;
      x ← inode_get ip;
      if negb (i_type x =? T_DIR) then
        iunlockput ip ;;
        end_op ;;
        mret (-1)
      else
      iunlock (Some ip) ;;
      pr ← proc_get p;
      cwd ← deref "cwd" (λ _, p_cwd pr);
      iput cwd ;;
      end_op ;;
      proc_set p (λ x, x <| p_cwd := Some ip |>) ;;
      mret 0
  end.

(** The loop of sys_exec() that fetches the arguments, on [i] and the pages
    allocated so far; [inr (ok, argv)] ends it. *)
Definition sys_exec_body (uargv : Z) (s : nat * list Z) : M kernel (nat * list Z + bool * list Z) :=
  let '(i, argv) := s in
  if (MAXARG <=? i)%nat then mret (inr (false, argv)) else
  r ← fetchaddr (u64 (uargv + 8 * Z.of_nat i));
  if r.1 <? 0 then mret (inr (false, argv)) else
  let uarg := r.2 in
  if uarg =? 0 then mret (inr (true, argv)) else
  a ← kalloc;
  if a =? 0 then mret (inr (false, argv)) else
  r ← fetchstr uarg PGSIZE;
  modify (λ k, k <| k_mem ::= λ m, store_bytes m a r.2 |>) ;;
  if r.1 <? 0 then mret (inr (false, argv ++ [a]))
  else mret (inl (S i, argv ++ [a])).

Definition sys_exec : M kernel Z :=
  uargv ← argaddr 1;
  path ← argpath 0;
  match path with None => mret (-1) | Some path =>
  r ← while_fuel (S MAXARG) (sys_exec_body uargv) (0%nat, []);
  let '(ok, argv) := r in
  if (ok : bool) then
    ret ← exec path argv;
    for_each argv kfree ;;
    mret ret
  else
    for_each argv kfree ;;
    mret (-1)
  end.

Definition ofile_clear (p : nat) (fd : Z) : M kernel unit :=
  proc_set p (λ x, x <| p_ofile ::= <[ Z.to_nat fd := None ]> |>).

Definition sys_pipe : M kernel Z :=
  p ← curproc;
  fdarray ← argaddr 0;
  o ← pipealloc;
  match o with
  | None => mret (-1)
  | Some (rf, wf) =>
      fd0 ← fdalloc rf;
      fd1 ← (if fd0 <? 0 then mret (-1) else fdalloc wf);
      if (fd0 <? 0) || (fd1 <? 0) then
        when (0 <=? fd0) (ofile_clear p fd0) ;;
        fileclose rf ;;
        fileclose wf ;;
        mret (-1)
      else
      pr ← proc_get p;
      r ← copyout (p_pagetable pr) fdarray (Z_to_bytes 4 (u32 fd0));
      r ← (if r <? 0 then mret r
           else copyout (p_pagetable pr) (u64 (fdarray + 4)) (Z_to_bytes 4 (u32 fd1)));
      if r <? 0 then
        ofile_clear p fd0 ;;
        ofile_clear p fd1 ;;
        fileclose rf ;;
        fileclose wf ;;
        mret (-1)
      else mret 0
  end.

(** ** Dispatch *)

(** The table [syscalls[]]. *)
Definition syscalls (num : Z) : option (M kernel Z) :=
  if num =? SYS_fork then Some sys_fork else
  if num =? SYS_exit then Some sys_exit else
  if num =? SYS_wait then Some sys_wait else
  if num =? SYS_pipe then Some sys_pipe else
  if num =? SYS_read then Some sys_read else
  if num =? SYS_kill then Some sys_kill else
  if num =? SYS_exec then Some sys_exec else
  if num =? SYS_fstat then Some sys_fstat else
  if num =? SYS_chdir then Some sys_chdir else
  if num =? SYS_dup then Some sys_dup else
  if num =? SYS_getpid then Some sys_getpid else
  if num =? SYS_sbrk then Some sys_sbrk else
  if num =? SYS_sleep then Some sys_sleep else
  if num =? SYS_uptime then Some sys_uptime else
  if num =? SYS_open then Some sys_open else
  if num =? SYS_write then Some sys_write else
  if num =? SYS_mknod then Some sys_mknod else
  if num =? SYS_unlink then Some sys_unlink else
  if num =? SYS_link then Some sys_link else
  if num =? SYS_mkdir then Some sys_mkdir else
  if num =? SYS_close then Some sys_close else None.

Definition syscall : M kernel unit :=
  p ← curproc;
  tf ← tf_get p;
  let num := i32 (tf_a7 tf) in
  match syscalls num with
  | Some f =>
      r ← f;
      tf_set p (λ t, t <| tf_a0 := u64 r |>)
  | None =>
      pr ← proc_get p;
      printf (bytes_of "%d %s: unknown sys call %d" ++ newline)
        [A_int (p_pid pr); A_str (Some (p_name pr)); A_int num] ;;
      tf_set p (λ t, t <| tf_a0 := u64 (-1) |>)
  end.
End syscall.
