(* ===== verification/Trap.v ===== *)
(** * Traps and interrupts: trap.c, plic.c, and forkret() of proc.c *)

From S2P Require Import Prelude KMonad Memory Riscv State Spinlock CString Kalloc Vm VmUser.
From S2P Require Import VmFree VmCopy Sched Uart Printf Console Pipe Sleeplock Bio Virtio Log.
From S2P Require Import Fs File ProcLife Exec Syscall.

(** ** riscv.h: supervisor registers *)

Definition r_csr (f : hart → Z) : M kernel Z := gets (λ k, f (m_hart (k_mach k))).
Definition w_sstatus (x : Z) : M kernel unit := set_hart (λ h, h <| r_sstatus := x |>).
Definition w_sepc (x : Z) : M kernel unit := set_hart (λ h, h <| r_sepc := x |>).
Definition w_stvec (x : Z) : M kernel unit := set_hart (λ h, h <| r_stvec := x |>).
Definition w_sip (x : Z) : M kernel unit := set_hart (λ h, h <| r_sip := x |>).

(** ** plic.c *)

Definition PLIC_SENABLE (hart : Z) : Z := PLIC + 0x2080 + hart * 0x100.
Definition PLIC_SPRIORITY (hart : Z) : Z := PLIC + 0x201000 + hart * 0x2000.
Definition PLIC_SCLAIM (hart : Z) : Z := PLIC + 0x201004 + hart * 0x2000.

Definition plic_write (a v : Z) : M kernel unit :=
  modify (λ k, k <| k_plic ::= λ p, p <| plic_regs ::= <[ a := u32 v ]> |> |>).

Definition plicinit : M kernel unit :=
  (* set desired IRQ priorities non-zero (otherwise disabled). *)
  plic_write (PLIC + UART0_IRQ * 4) 1 ;;
  plic_write (PLIC + VIRTIO0_IRQ * 4) 1.

Definition plicinithart : M kernel unit :=
  hart ← cpuid;
  (* set enable bits for this hart's S-mode for the uart and virtio disk. *)
  plic_write (PLIC_SENABLE hart) (Z.lor (Z.shiftl 1 UART0_IRQ) (Z.shiftl 1 VIRTIO0_IRQ)) ;;
  (* set this hart's S-mode priority threshold to 0. *)
  plic_write (PLIC_SPRIORITY hart) 0.

(** Ask the PLIC what interrupt we should serve; reading the claim register
    takes the interrupt, 0 is none. *)
Definition plic_claim : M kernel Z :=
  _ ← cpuid;
  irqs ← gets (λ k, plic_pending (k_plic k));
  modify (λ k, k <| k_plic ::= λ p, p <| plic_pending ::= tail |> |>) ;;
  mret (i32 (default 0 (head irqs))).

(** Tell the PLIC we've served this IRQ. *)
Definition plic_complete (irq : Z) : M kernel unit :=
  hart ← cpuid;
  plic_write (PLIC_SCLAIM hart) irq ;;
  modify (λ k, k <| k_plic ::= λ p, p <| plic_done ::= λ l, l ++ [irq] |> |>).

(** ** trap.c *)

Definition trapinit : M kernel unit := initlock L_ticks "time".

Definition clockintr : M kernel unit :=
  acquire L_ticks ;;
  modify (λ k, k <| k_ticks := u32 (k_ticks k + 1) |>) ;;
  wakeup Ch_ticks ;;
  release L_ticks.

Section trap.
Context `{KI : KernelImage}.

Definition trapinithart : M kernel unit := w_stvec kernelvec.

(** Check if it's an external interrupt or software interrupt, and handle it:
    2 if timer interrupt, 1 if other device, 0 if not recognized. *)
Definition devintr : M kernel Z :=
  scause ← r_csr r_scause;
  if truthy (Z.land scause 0x8000000000000000) && (Z.land scause 0xff =? 9) then
    (* this is a supervisor external interrupt, via PLIC. *)
    irq ← plic_claim;
    (if irq =? UART0_IRQ then uartintr
     else if irq =? VIRTIO0_IRQ then virtio_disk_intr
     else when (truthy irq)
       (printf (bytes_of "unexpected interrupt irq=%d" ++ newline) [A_int irq])) ;;
    when (truthy irq) (plic_complete irq) ;;
    mret 1
  else if scause =? 0x8000000000000001 then
    (* software interrupt from a machine-mode timer interrupt. *)
    id ← cpuid;
    when (id =? 0) clockintr ;;
    (* acknowledge the software interrupt by clearing the SSIP bit in sip. *)
    sip ← r_csr r_sip;
    w_sip (Z.land sip (Z.lnot 2)) ;;
    mret 2
  else mret 0.

(** Interrupts and exceptions from kernel code go here via kernelvec. *)
Definition kerneltrap : M kernel unit :=
  sepc ← r_csr r_sepc;
  sstatus ← r_csr r_sstatus;
  scause ← r_csr r_scause;
  if Z.land sstatus SSTATUS_SPP =? 0 then panic "kerneltrap: not from supervisor mode" else
  i ← intr_get;
  if truthy i then panic "kerneltrap: interrupts enabled" else
  which_dev ← devintr;
  if which_dev =? 0 then
    printf (bytes_of "scause %p" ++ newline) [A_ptr scause] ;;
    sepc1 ← r_csr r_sepc;
    stval ← r_csr r_stval;
    printf (bytes_of "sepc=%p stval=%p" ++ newline) [A_ptr sepc1; A_ptr stval] ;;
    panic "kerneltrap"
  else
  (* give up the CPU if this is a timer interrupt. *)
  (if which_dev =? 2 then
     me ← myproc;
     match me with
     | Some p =>
         pr ← proc_get p;
         when (bool_decide (p_state pr = RUNNING)) yield
     | None => mret tt
     end
   else mret tt) ;;
  (* the yield() may have caused some traps to occur, so restore trap
     registers for use by kernelvec.S's sepc instruction. *)
  w_sepc sepc ;;
  w_sstatus sstatus.

(** Return to user space: ends with a jump to userret in trampoline.S, whose
    address and argument are the result. *)
Definition usertrapret : M kernel (Z * Z) :=
  p ← curproc;
  intr_off ;;
  (* send syscalls, interrupts, and exceptions to uservec in trampoline.S *)
  w_stvec (TRAMPOLINE + (uservec - trampoline)) ;;
  (* set up trapframe values that uservec will need when the process next
     traps into the kernel. *)
  pr ← proc_get p;
  satp ← r_csr r_satp;
  tf_set p (λ t, t <| tf_kernel_satp := satp |>) ;;
  tf_set p (λ t, t <| tf_kernel_sp := p_kstack pr + PGSIZE |>) ;;
  tf_set p (λ t, t <| tf_kernel_trap := usertrap_addr |>) ;;
  tp ← r_csr r_tp;
  tf_set p (λ t, t <| tf_kernel_hartid := tp |>) ;;
  (* set S Previous Privilege mode to User. *)
  x ← r_csr r_sstatus;
  w_sstatus (Z.lor (Z.land x (Z.lnot SSTATUS_SPP)) SSTATUS_SPIE) ;;
  (* set S Exception Program Counter to the saved user pc. *)
  tf ← tf_get p;
  w_sepc (tf_epc tf) ;;
  (* tell trampoline.S the user page table to switch to. *)
  mret (TRAMPOLINE + (userret - trampoline), MAKE_SATP (p_pagetable pr)).

(** Handle an interrupt, exception, or system call from user space. *)
Definition usertrap : M kernel (Z * Z) :=
  st ← r_csr r_sstatus;
  if truthy (Z.land st SSTATUS_SPP) then panic "usertrap: not from user mode" else
  (* send interrupts and exceptions to kerneltrap(), since we're now in the
     kernel. *)
  w_stvec kernelvec ;;
  p ← curproc;
  (* save user program counter. *)
  sepc ← r_csr r_sepc;
  tf_set p (λ t, t <| tf_epc := sepc |>) ;;
  scause ← r_csr r_scause;
  which_dev ←
    (if scause =? 8 then
       (* system call *)
       kl ← killed p;
       when (truthy kl) (exit (-1)) ;;
       (* sepc points to the ecall instruction, but we want to return to the
          next instruction. *)
       tf_set p (λ t, t <| tf_epc := u64 (tf_epc t + 4) |>) ;;
       intr_on ;;
       syscall ;;
       mret 0
     else
       d ← devintr;
       when (d =? 0)
         (pr ← proc_get p;
          scause1 ← r_csr r_scause;
          printf (bytes_of "usertrap(): unexpected scause %p pid=%d" ++ newline)
            [A_ptr scause1; A_int (p_pid pr)] ;;
          sepc1 ← r_csr r_sepc;
          stval ← r_csr r_stval;
          printf (bytes_of "            sepc=%p stval=%p" ++ newline) [A_ptr sepc1; A_ptr stval] ;;
          setkilled p) ;;
       mret d);
  kl ← killed p;
  when (truthy kl) (exit (-1)) ;;
  (* give up the CPU if this is a timer interrupt. *)
  when (which_dev =? 2) yield ;;
  usertrapret.

(** A fork child's very first scheduling by scheduler() will swtch to
    forkret. *)
Definition forkret : M kernel (Z * Z) :=
  (* Still holding p->lock from scheduler. *)
  p ← curproc;
  release (L_proc p) ;;
  first ← gets k_first;
  when (truthy first)
    (fsinit ROOTDEV ;;
     modify (λ k, k <| k_first := 0 |>)) ;;
  usertrapret.
End trap.
