(* ===== verification/Boot.v ===== *)
(** * Booting: start.c, main.c, and the machine-mode registers of riscv.h

    start() runs in machine mode on every hart, before any of the kernel's
    state exists: its state is the record of machine registers [mmode].
    main() runs in supervisor mode and initialises every other component. *)

From S2P Require Import Prelude KMonad Memory Riscv State Spinlock CString Kalloc Vm VmUser.
From S2P Require Import VmFree VmCopy Sched Uart Printf Console Pipe Sleeplock Bio Virtio Log.
From S2P Require Import Fs File ProcLife Exec Syscall Trap.

Definition MSTATUS_MPP_MASK : Z := Z.shiftl 3 11.
Definition MSTATUS_MPP_S : Z := Z.shiftl 1 11.
Definition MSTATUS_MIE : Z := Z.shiftl 1 3.
Definition SIE_SEIE : Z := Z.shiftl 1 9.
Definition SIE_STIE : Z := Z.shiftl 1 5.
Definition SIE_SSIE : Z := Z.shiftl 1 1.
Definition MIE_MTIE : Z := Z.shiftl 1 7.
Definition CLINT : Z := 0x2000000.
Definition CLINT_MTIMECMP (hartid : Z) : Z := CLINT + 0x4000 + 8 * hartid.
Definition CLINT_MTIME : Z := CLINT + 0xBFF8.

(** The registers start() and timerinit() read and write, the memory-mapped
    timer registers, and [timer_scratch]. *)
Record mmode := Mmode {
  mr_mhartid : Z; mr_mstatus : Z; mr_mepc : Z; mr_satp : Z; mr_medeleg : Z; mr_mideleg : Z;
  mr_sie : Z; mr_pmpaddr0 : Z; mr_pmpcfg0 : Z; mr_mscratch : Z; mr_mtvec : Z; mr_mie : Z;
  mr_tp : Z; mr_clint : gmap Z Z; mr_timer_scratch : list (list Z);
}.

#[export] Instance eta_mmode : Eta mmode := λ r, Mmode
  (mr_mhartid r) (mr_mstatus r) (mr_mepc r) (mr_satp r) (mr_medeleg r) (mr_mideleg r)
  (mr_sie r) (mr_pmpaddr0 r) (mr_pmpcfg0 r) (mr_mscratch r) (mr_mtvec r) (mr_mie r)
  (mr_tp r) (mr_clint r) (mr_timer_scratch r).

Definition r_mhartid : M mmode Z := gets mr_mhartid.
Definition r_mstatus : M mmode Z := gets mr_mstatus.
Definition w_mstatus (x : Z) : M mmode unit := modify (λ r, r <| mr_mstatus := x |>).
Definition w_mepc (x : Z) : M mmode unit := modify (λ r, r <| mr_mepc := x |>).
Definition w_satp (x : Z) : M mmode unit := modify (λ r, r <| mr_satp := x |>).
Definition w_medeleg (x : Z) : M mmode unit := modify (λ r, r <| mr_medeleg := x |>).
Definition w_mideleg (x : Z) : M mmode unit := modify (λ r, r <| mr_mideleg := x |>).
Definition r_sie : M mmode Z := gets mr_sie.
Definition w_sie (x : Z) : M mmode unit := modify (λ r, r <| mr_sie := x |>).
Definition w_pmpaddr0 (x : Z) : M mmode unit := modify (λ r, r <| mr_pmpaddr0 := x |>).
Definition w_pmpcfg0 (x : Z) : M mmode unit := modify (λ r, r <| mr_pmpcfg0 := x |>).
Definition w_mscratch (x : Z) : M mmode unit := modify (λ r, r <| mr_mscratch := x |>).
Definition w_mtvec (x : Z) : M mmode unit := modify (λ r, r <| mr_mtvec := x |>).
Definition r_mie : M mmode Z := gets mr_mie.
Definition w_mie (x : Z) : M mmode unit := modify (λ r, r <| mr_mie := x |>).
Definition w_tp (x : Z) : M mmode unit := modify (λ r, r <| mr_tp := x |>).

Section start.
(** The addresses of main(), timervec and timer_scratch. *)
Context (main_addr timervec timer_scratch : Z).

Definition timerinit : M mmode unit :=
  (* each CPU has a separate source of timer interrupts. *)
  id ← r_mhartid;
  let id := i32 id in
  (* ask the CLINT for a timer interrupt. *)
  let interval := 1000000 in
  mtime ← gets (λ r, default 0 (mr_clint r !! CLINT_MTIME));
  modify (λ r, r <| mr_clint ::= <[ CLINT_MTIMECMP id := u64 (mtime + interval) ]> |>) ;;
  (* prepare information in scratch[] for timervec. *)
  modify (λ r, r <| mr_timer_scratch ::= alter (λ s, <[ 3%nat := CLINT_MTIMECMP id ]> s) (Z.to_nat id) |>) ;;
  modify (λ r, r <| mr_timer_scratch ::= alter (λ s, <[ 4%nat := interval ]> s) (Z.to_nat id) |>) ;;
  w_mscratch (timer_scratch + id * 40) ;;
  (* set the machine-mode trap handler. *)
  w_mtvec timervec ;;
  (* enable machine-mode interrupts. *)
  x ← r_mstatus;
  w_mstatus (Z.lor x MSTATUS_MIE) ;;
  (* enable machine-mode timer interrupts. *)
  e ← r_mie;
  w_mie (Z.lor e MIE_MTIE).

(** Ends with the instruction mret. *)
Definition start : M mmode unit :=
  (* set M Previous Privilege mode to Supervisor, for mret. *)
  x ← r_mstatus;
  w_mstatus (Z.lor (Z.land x (Z.lnot MSTATUS_MPP_MASK)) MSTATUS_MPP_S) ;;
  (* set M Exception Program Counter to main, for mret. *)
  w_mepc main_addr ;;
  (* disable paging for now. *)
  w_satp 0 ;;
  (* delegate all interrupts and exceptions to supervisor mode. *)
  w_medeleg 0xffff ;;
  w_mideleg 0xffff ;;
  e ← r_sie;
  w_sie (Z.lor (Z.lor (Z.lor e SIE_SEIE) SIE_STIE) SIE_SSIE) ;;
  (* configure Physical Memory Protection to give supervisor mode access to
     all of physical memory. *)
  w_pmpaddr0 0x3fffffffffffff ;;
  w_pmpcfg0 0xf ;;
  (* ask for clock interrupts. *)
  timerinit ;;
  (* keep each CPU's hartid in its tp register, for cpuid(). *)
  id ← r_mhartid;
  w_tp (i32 id).
End start.

Section main.
Context `{KI : KernelImage}.

(** [while(started == 0) ;]: the other harts run meanwhile. *)
Definition started_wait (_ : unit) : M kernel (unit + unit) :=
  s ← gets k_started;
  if s =? 0 then wait_env ;; mret (inl tt) else mret (inr tt).

(** The hart then stays in scheduler(), of which [rounds] rounds are run. *)
Definition main (rounds : nat) : M kernel unit :=
  id ← cpuid;
  (if id =? 0 then
     consoleinit ;;
     printfinit ;;
     printf newline [] ;;
     printf (bytes_of "xv6 kernel is booting" ++ newline) [] ;;
     printf newline [] ;;
     kinit ;;             (* physical page allocator *)
     kvminit ;;           (* create kernel page table *)
     kvminithart ;;       (* turn on paging *)
     procinit ;;          (* process table *)
     trapinit ;;          (* trap vectors *)
     trapinithart ;;      (* install kernel trap vector *)
     plicinit ;;          (* set up interrupt controller *)
     plicinithart ;;      (* ask PLIC for device interrupts *)
     binit ;;             (* buffer cache *)
     iinit ;;             (* inode table *)
     fileinit ;;          (* file table *)
     virtio_disk_init ;;  (* emulated hard disk *)
     userinit ;;          (* first user process *)
     modify (λ k, k <| k_started := 1 |>)
   else
     w ← waits_left;
     while_fuel (S w) started_wait tt ;;
     id ← cpuid;
     printf (bytes_of "hart %d starting" ++ newline) [A_int id] ;;
     kvminithart ;;       (* turn on paging *)
     trapinithart ;;      (* install kernel trap vector *)
     plicinithart) ;;     (* ask PLIC for device interrupts *)
  scheduler rounds.
End main.
