(* ===== verification/Asm.v ===== *)
(** * The assembly files: swtch.S, trampoline.S, kernelvec.S, entry.S

    The code is a list of instructions, run one after the other until one of
    them leaves the file.  Memory is seen as the code sees it: uservec and
    userret touch memory under the user page table only, in which the trapframe
    page of the process is mapped at TRAPFRAME. *)

From S2P Require Import Prelude Memory Riscv.

Inductive reg :=
  | ra | sp | gp | tp | t0 | t1 | t2 | s0 | s1 | a0 | a1 | a2 | a3 | a4 | a5 | a6 | a7
  | s2 | s3 | s4 | s5 | s6 | s7 | s8 | s9 | s10 | s11 | t3 | t4 | t5 | t6.

#[export] Instance reg_eq_dec : EqDecision reg.
Proof. solve_decision. Defined.

Inductive csr := sscratch | satp | mscratch | sip | mhartid.

#[export] Instance csr_eq_dec : EqDecision csr.
Proof. solve_decision. Defined.

Inductive instr :=
  | sd (rs : reg) (off : Z) (base : reg)
  | ld (rd : reg) (off : Z) (base : reg)
  | addi (rd rs : reg) (imm : Z)
  | add (rd rs1 rs2 : reg)
  | mul (rd rs1 rs2 : reg)
  | li (rd : reg) (imm : Z)
  | csrw (c : csr) (rs : reg)
  | csrr (rd : reg) (c : csr)
  | csrrw (rd : reg) (c : csr) (rs : reg)
  | sfence_vma
  | jr (rs : reg)
  | ret
  | sret
  | mret.

(** Where the code goes on: at an address, by a return from the trap, or at
    the instruction after the list. *)
Inductive goes_on := Jumps (a : Z) | Sret | Mret | Falls.

Record state := State { x : reg → Z; c : csr → Z; m : memory }.

Definition set_x (r : reg) (v : Z) (s : state) : state := State (λ r', if decide (r' = r) then v else x s r') (c s) (m s).
Definition set_c (r : csr) (v : Z) (s : state) : state := State (x s) (λ r', if decide (r' = r) then v else c s r') (m s).
Definition set_m (f : memory) (s : state) : state := State (x s) (c s) f.

Definition step (i : instr) (s : state) : state + goes_on :=
  match i with
  | sd rs off base => inl (set_m (store64 (m s) (u64 (x s base + off)) (x s rs)) s)
  | ld rd off base => inl (set_x rd (load64 (m s) (u64 (x s base + off))) s)
  | addi rd rs imm => inl (set_x rd (u64 (x s rs + imm)) s)
  | add rd rs1 rs2 => inl (set_x rd (u64 (x s rs1 + x s rs2)) s)
  | mul rd rs1 rs2 => inl (set_x rd (u64 (x s rs1 * x s rs2)) s)
  | li rd imm => inl (set_x rd (u64 imm) s)
  | csrw r rs => inl (set_c r (x s rs) s)
  | csrr rd r => inl (set_x rd (c s r) s)
  | csrrw rd r rs => inl (set_x rd (c s r) (set_c r (x s rs) s))
  | sfence_vma => inl s
  | jr rs => inr (Jumps (x s rs))
  | ret => inr (Jumps (x s ra))
  | sret => inr Sret
  | mret => inr Mret
  end.

Fixpoint run (l : list instr) (s : state) : state * goes_on :=
  match l with
  | [] => (s, Falls)
  | i :: l => match step i s with inl s' => run l s' | inr g => (s, g) end
  end.

(** ** swtch.S *)

Definition swtch : list instr :=
  [ sd ra 0 a0; sd sp 8 a0; sd s0 16 a0; sd s1 24 a0; sd s2 32 a0; sd s3 40 a0; sd s4 48 a0;
    sd s5 56 a0; sd s6 64 a0; sd s7 72 a0; sd s8 80 a0; sd s9 88 a0; sd s10 96 a0; sd s11 104 a0;
    ld ra 0 a1; ld sp 8 a1; ld s0 16 a1; ld s1 24 a1; ld s2 32 a1; ld s3 40 a1; ld s4 48 a1;
    ld s5 56 a1; ld s6 64 a1; ld s7 72 a1; ld s8 80 a1; ld s9 88 a1; ld s10 96 a1; ld s11 104 a1;
    ret ].

(** ** trampoline.S *)

Definition uservec : list instr :=
  [ csrw sscratch a0;
    li a0 TRAPFRAME;
    (* save the user registers in TRAPFRAME *)
    sd ra 40 a0; sd sp 48 a0; sd gp 56 a0; sd tp 64 a0; sd t0 72 a0; sd t1 80 a0; sd t2 88 a0;
    sd s0 96 a0; sd s1 104 a0; sd a1 120 a0; sd a2 128 a0; sd a3 136 a0; sd a4 144 a0; sd a5 152 a0;
    sd a6 160 a0; sd a7 168 a0; sd s2 176 a0; sd s3 184 a0; sd s4 192 a0; sd s5 200 a0; sd s6 208 a0;
    sd s7 216 a0; sd s8 224 a0; sd s9 232 a0; sd s10 240 a0; sd s11 248 a0; sd t3 256 a0; sd t4 264 a0;
    sd t5 272 a0; sd t6 280 a0;
    (* save the user a0 in p->trapframe->a0 *)
    csrr t0 sscratch;
    sd t0 112 a0;
    (* the kernel stack pointer, hartid, usertrap() and page table *)
    ld sp 8 a0;
    ld tp 32 a0;
    ld t0 16 a0;
    ld t1 0 a0;
    sfence_vma;
    csrw satp t1;
    sfence_vma;
    jr t0 ].

Definition userret : list instr :=
  [ sfence_vma;
    csrw satp a0;
    sfence_vma;
    li a0 TRAPFRAME;
    (* restore all but a0 from TRAPFRAME *)
    ld ra 40 a0; ld sp 48 a0; ld gp 56 a0; ld tp 64 a0; ld t0 72 a0; ld t1 80 a0; ld t2 88 a0;
    ld s0 96 a0; ld s1 104 a0; ld a1 120 a0; ld a2 128 a0; ld a3 136 a0; ld a4 144 a0; ld a5 152 a0;
    ld a6 160 a0; ld a7 168 a0; ld s2 176 a0; ld s3 184 a0; ld s4 192 a0; ld s5 200 a0; ld s6 208 a0;
    ld s7 216 a0; ld s8 224 a0; ld s9 232 a0; ld s10 240 a0; ld s11 248 a0; ld t3 256 a0; ld t4 264 a0;
    ld t5 272 a0; ld t6 280 a0;
    (* restore user a0 *)
    ld a0 112 a0;
    sret ].

(** ** kernelvec.S *)

(** Up to [call kerneltrap]. *)
Definition kernelvec_enter : list instr :=
  [ addi sp sp (-256);
    sd ra 0 sp; sd sp 8 sp; sd gp 16 sp; sd tp 24 sp; sd t0 32 sp; sd t1 40 sp; sd t2 48 sp; sd s0 56 sp;
    sd s1 64 sp; sd a0 72 sp; sd a1 80 sp; sd a2 88 sp; sd a3 96 sp; sd a4 104 sp; sd a5 112 sp; sd a6 120 sp;
    sd a7 128 sp; sd s2 136 sp; sd s3 144 sp; sd s4 152 sp; sd s5 160 sp; sd s6 168 sp; sd s7 176 sp; sd s8 184 sp;
    sd s9 192 sp; sd s10 200 sp; sd s11 208 sp; sd t3 216 sp; sd t4 224 sp; sd t5 232 sp; sd t6 240 sp ].

(** After it. *)
Definition kernelvec_leave : list instr :=
  [ ld ra 0 sp; ld sp 8 sp; ld gp 16 sp;
    (* not tp (contains hartid), in case we moved CPUs *)
    ld t0 32 sp; ld t1 40 sp; ld t2 48 sp; ld s0 56 sp;
    ld s1 64 sp; ld a0 72 sp; ld a1 80 sp; ld a2 88 sp; ld a3 96 sp; ld a4 104 sp; ld a5 112 sp; ld a6 120 sp;
    ld a7 128 sp; ld s2 136 sp; ld s3 144 sp; ld s4 152 sp; ld s5 160 sp; ld s6 168 sp; ld s7 176 sp; ld s8 184 sp;
    ld s9 192 sp; ld s10 200 sp; ld s11 208 sp; ld t3 216 sp; ld t4 224 sp; ld t5 232 sp; ld t6 240 sp;
    addi sp sp 256;
    sret ].

(** kernelvec, with what the call of kerneltrap() leaves in registers and
    memory: nothing when it does not return. *)
Definition kernelvec (kerneltrap : state → option state) (s : state) : option (state * goes_on) :=
  run kernelvec_leave <$> kerneltrap (fst (run kernelvec_enter s)).

Definition timervec : list instr :=
  [ csrrw a0 mscratch a0;
    sd a1 0 a0;
    sd a2 8 a0;
    sd a3 16 a0;
    (* schedule the next timer interrupt by adding interval to mtimecmp. *)
    ld a1 24 a0;
    ld a2 32 a0;
    ld a3 0 a1;
    add a3 a3 a2;
    sd a3 0 a1;
    (* arrange for a supervisor software interrupt after this handler returns. *)
    li a1 2;
    csrw sip a1;
    ld a3 16 a0;
    ld a2 8 a0;
    ld a1 0 a0;
    csrrw a0 mscratch a0;
    mret ].

(** ** entry.S *)

(** Up to [call start]; [stack0] is the address of the array. *)
Definition entry (stack0 : Z) : list instr :=
  [ li sp stack0;
    li a0 (1024 * 4);
    csrr a1 mhartid;
    addi a1 a1 1;
    mul a0 a0 a1;
    add sp sp a0 ].
