(* ===== verification/AsmSpec.v ===== *)
(** * What the assembly files do to registers and memory

    A run of stores through one base register and a run of loads through one
    are given once ([saves_run], [loads_run]); swtch, uservec, userret and
    kernelvec are compositions of such runs.  The layouts of struct context
    and struct trapframe are read off memory by [context_at] and
    [trapframe_at]. *)

From S2P Require Import Prelude Memory Riscv State Asm.

(** ** Runs of stores and of loads *)

Definition saves (b : reg) (l : list (reg * Z)) : list instr := (λ '(r, o), sd r o b) <$> l.
Definition loads (b : reg) (l : list (reg * Z)) : list instr := (λ '(r, o), ld r o b) <$> l.

(** The slots lie within [n] bytes and do not overlap. *)
Fixpoint slots (n : Z) (l : list (reg * Z)) : Prop :=
  match l with
  | [] => True
  | (_, o) :: l => 0 ≤ o ∧ o + 8 ≤ n ∧ Forall (λ p, o + 8 ≤ snd p ∨ snd p + 8 ≤ o) l ∧ slots n l
  end.

#[export] Instance slots_dec n l : Decision (slots n l).
Proof. induction l as [|[r o] l IH]; simpl; apply _. Defined.

Fixpoint save_all (B : Z) (l : list (reg * Z)) (xs : reg → Z) (f : memory) : memory :=
  match l with
  | [] => f
  | (r, o) :: l => save_all B l xs (store64 f (B + o) (xs r))
  end.

Fixpoint load_all (B : Z) (l : list (reg * Z)) (xs : reg → Z) (f : memory) : reg → Z :=
  match l with
  | [] => xs
  | (r, o) :: l => load_all B l (λ r', if decide (r' = r) then load64 f (B + o) else xs r') f
  end.

Definition words (xs : reg → Z) : Prop := ∀ r, 0 ≤ xs r < 2 ^ 64.

Lemma run_step i l s s' : step i s = inl s' → run (i :: l) s = run l s'.
Proof. simpl. by intros ->. Qed.

Lemma saves_run n b l k s :
  slots n l → 0 ≤ x s b → x s b + n ≤ 2 ^ 64 →
  run (saves b l ++ k) s = run k (set_m (save_all (x s b) l (x s) (m s)) s).
Proof.
  revert s. induction l as [|[r o] l IH]; intros s Hl H0 Hn.
  - by destruct s.
  - destruct Hl as (Ho & Hon & _ & Hl). simpl. rewrite u64_small by lia.
    by rewrite (IH (set_m _ s)).
Qed.

Lemma loads_run n b l k s :
  slots n l → b ∉ l.*1 → 0 ≤ x s b → x s b + n ≤ 2 ^ 64 →
  run (loads b l ++ k) s = run k (Asm.State (load_all (x s b) l (x s) (m s)) (c s) (m s)).
Proof.
  revert s. induction l as [|[r o] l IH]; intros s Hl Hb H0 Hn.
  - by destruct s.
  - destruct Hl as (Ho & Hon & _ & Hl). apply not_elem_of_cons in Hb as [Hbr Hb].
    simpl in Hbr |- *. rewrite u64_small by lia.
    assert (E : x (set_x r (load64 (m s) (x s b + o)) s) b = x s b)
      by (simpl; by rewrite decide_False).
    rewrite IH; rewrite ?E; done.
Qed.

Lemma save_all_out B n l xs f y : slots n l → ¬ (B ≤ y < B + n) → save_all B l xs f y = f y.
Proof.
  revert f. induction l as [|[r o] l IH]; intros f Hl Hy; [done|].
  destruct Hl as (Ho & Hon & _ & Hl). simpl. rewrite IH by done. apply store64_out. lia.
Qed.

Lemma save_all_apart B l xs f o :
  Forall (λ p, o + 8 ≤ snd p ∨ snd p + 8 ≤ o) l →
  load64 (save_all B l xs f) (B + o) = load64 f (B + o).
Proof.
  revert f. induction l as [|[r o'] l IH]; intros f Hl; [done|].
  inversion_clear Hl as [|? ? H1 H2]. simpl in H1 |- *. rewrite IH by done.
  apply load64_store64_other. lia.
Qed.

Lemma save_all_in B n l xs f r o :
  words xs → slots n l → (r, o) ∈ l → load64 (save_all B l xs f) (B + o) = xs r.
Proof.
  intros Hx. revert f. induction l as [|[r' o'] l IH]; intros f Hl Hin; [by apply elem_of_nil in Hin|].
  destruct Hl as (Ho & Hon & Hd & Hl). apply elem_of_cons in Hin as [[= -> ->]|Hin]; simpl.
  - rewrite save_all_apart by done. apply load64_store64_same, Hx.
  - by apply IH.
Qed.

Lemma load_all_out B l xs f r : r ∉ l.*1 → load_all B l xs f r = xs r.
Proof.
  revert xs. induction l as [|[r' o] l IH]; intros xs Hr; [done|].
  apply not_elem_of_cons in Hr as [Hne Hr]. simpl in Hne |- *. rewrite IH by done.
  by rewrite decide_False.
Qed.

Lemma load_all_in B l xs f r o :
  NoDup l.*1 → (r, o) ∈ l → load_all B l xs f r = load64 f (B + o).
Proof.
  revert xs. induction l as [|[r' o'] l IH]; intros xs Hd Hin; [by apply elem_of_nil in Hin|].
  apply NoDup_cons in Hd as [Hn Hd]. apply elem_of_cons in Hin as [[= -> ->]|Hin]; simpl.
  - rewrite load_all_out by done. by rewrite decide_True.
  - by apply IH.
Qed.

(** ** The layouts of proc.h *)

Definition context_regs : list (reg * Z) :=
  [(ra, 0); (sp, 8); (s0, 16); (s1, 24); (s2, 32); (s3, 40); (s4, 48); (s5, 56); (s6, 64);
   (s7, 72); (s8, 80); (s9, 88); (s10, 96); (s11, 104)].

(** struct context at address [a]: ra, sp, s0 to s11. *)
Definition context_at (f : memory) (a : Z) : context :=
  Context (load64 f a) (load64 f (a + 8))
    [load64 f (a + 16); load64 f (a + 24); load64 f (a + 32); load64 f (a + 40); load64 f (a + 48);
     load64 f (a + 56); load64 f (a + 64); load64 f (a + 72); load64 f (a + 80); load64 f (a + 88);
     load64 f (a + 96); load64 f (a + 104)].

Definition callee_saved (xs : reg → Z) : context :=
  Context (xs ra) (xs sp)
    [xs s0; xs s1; xs s2; xs s3; xs s4; xs s5; xs s6; xs s7; xs s8; xs s9; xs s10; xs s11].

(** struct trapframe at address [a]. *)
Definition trapframe_at (f : memory) (a : Z) : trapframe :=
  let w i := load64 f (a + 8 * i) in
  Trapframe (w 0) (w 1) (w 2) (w 3) (w 4) (w 5) (w 6) (w 7) (w 8) (w 9) (w 10) (w 11) (w 12) (w 13)
    (w 14) (w 15) (w 16) (w 17) (w 18) (w 19) (w 20) (w 21) (w 22) (w 23) (w 24) (w 25) (w 26) (w 27)
    (w 28) (w 29) (w 30) (w 31) (w 32) (w 33) (w 34) (w 35).

(** The user register that a field of the trapframe holds. *)
Definition user_reg (t : trapframe) (r : reg) : Z :=
  match r with
  | ra => tf_ra t | sp => tf_sp t | gp => tf_gp t | tp => tf_tp t
  | t0 => tf_t0 t | t1 => tf_t1 t | t2 => tf_t2 t | t3 => tf_t3 t | t4 => tf_t4 t | t5 => tf_t5 t | t6 => tf_t6 t
  | a0 => tf_a0 t | a1 => tf_a1 t | a2 => tf_a2 t | a3 => tf_a3 t
  | a4 => tf_a4 t | a5 => tf_a5 t | a6 => tf_a6 t | a7 => tf_a7 t
  | s0 => tf_s0 t | s1 => tf_s1 t | s2 => tf_s2 t | s3 => tf_s3 t | s4 => tf_s4 t | s5 => tf_s5 t
  | s6 => tf_s6 t | s7 => tf_s7 t | s8 => tf_s8 t | s9 => tf_s9 t | s10 => tf_s10 t | s11 => tf_s11 t
  end.

(** ** swtch *)

(** A save area of [n] bytes that does not wrap around. *)
Definition area (a n : Z) : Prop := 0 ≤ a ∧ a + n ≤ 2 ^ 64.

Lemma context_slots : slots 112 context_regs.
Proof. by_eval. Qed.

Lemma context_ext f g a : (∀ y, a ≤ y < a + 112 → f y = g y) → context_at f a = context_at g a.
Proof.
  intros H. unfold context_at. simpl.
  repeat (f_equal; try (apply load64_ext; intros; apply H; lia)).
Qed.

Lemma swtch_runs s :
  area (x s a0) 112 → area (x s a1) 112 →
  let f := save_all (x s a0) context_regs (x s) (m s) in
  run swtch s = (Asm.State (load_all (x s a1) context_regs (x s) f) (c s) f,
                 Jumps (load_all (x s a1) context_regs (x s) f ra)).
Proof.
  intros [H0 Hn] [H1 Hn1] f.
  change swtch with (saves a0 context_regs ++ (loads a1 context_regs ++ [ret])).
  rewrite (saves_run 112) by (first [apply context_slots | done]).
  rewrite (loads_run 112); [done|apply context_slots|vm_compute; set_solver|done|done].
Qed.

(** Registers and slots that agree one by one give the same context. *)
Lemma context_of f B xs :
  (∀ r o, (r, o) ∈ context_regs → load64 f (B + o) = xs r) → context_at f B = callee_saved xs.
Proof.
  intros H.
  assert (H' : Forall (λ p, load64 f (B + p.2) = xs p.1) context_regs)
    by (apply Forall_forall; intros [r o]; apply H).
  unfold context_regs in H'. rewrite !Forall_cons in H'. simpl in H'.
  destruct H' as (E0 & E1 & E2 & E3 & E4 & E5 & E6 & E7 & E8 & E9 & E10 & E11 & E12 & E13 & _).
  unfold context_at, callee_saved. rewrite Z.add_0_r in E0.
  by rewrite E0, E1, E2, E3, E4, E5, E6, E7, E8, E9, E10, E11, E12, E13.
Qed.

Lemma context_saved B xs f :
  words xs → context_at (save_all B context_regs xs f) B = callee_saved xs.
Proof. intros Hx. apply context_of. intros r o. by apply (save_all_in B 112), context_slots. Qed.

Lemma context_loaded B xs f : callee_saved (load_all B context_regs xs f) = context_at f B.
Proof.
  symmetry. apply context_of. intros r o Hin. symmetry. apply load_all_in; [|done].
  by_eval.
Qed.

Lemma swtch_effect s :
  words (x s) → area (x s a0) 112 → area (x s a1) 112 →
  x s a0 + 112 ≤ x s a1 ∨ x s a1 + 112 ≤ x s a0 →
  ∃ s', run swtch s = (s', Jumps (State.ra (context_at (m s) (x s a1)))) ∧
    context_at (m s') (x s a0) = callee_saved (x s) ∧
    callee_saved (x s') = context_at (m s) (x s a1) ∧
    (∀ r, r ∉ context_regs.*1 → x s' r = x s r) ∧
    (∀ y, ¬ (x s a0 ≤ y < x s a0 + 112) → m s' y = m s y) ∧ c s' = c s.
Proof.
  intros Hx Ho Hn Hd. eexists. rewrite (swtch_runs s Ho Hn).
  set (f := save_all _ _ _ _).
  assert (E : context_at f (x s a1) = context_at (m s) (x s a1)).
  { apply context_ext. intros y Hy. apply (save_all_out _ 112); [apply context_slots|lia]. }
  pose proof (context_loaded (x s a1) (x s) f) as L. rewrite E in L.
  split; [|split; [|split; [|split; [|split]]]].
  - f_equal. f_equal. rewrite <- L. reflexivity.
  - by apply context_saved.
  - exact L.
  - intros r Hr. by apply load_all_out.
  - intros y Hy. apply (save_all_out _ 112); [apply context_slots|done].
  - done.
Qed.

(** C23: swtch(old, new), on two contexts that do not overlap, stores ra, sp
    and s0 to s11 in *old in the field order of struct context, loads them
    from *new, returns to the address saved in *new, and changes no other
    register and no memory outside *old. *)
Theorem swtch_switches s :
  words (x s) → area (x s a0) 112 → area (x s a1) 112 →
  x s a0 + 112 ≤ x s a1 ∨ x s a1 + 112 ≤ x s a0 →
  ∃ s', run swtch s = (s', Jumps (State.ra (context_at (m s) (x s a1)))) ∧
    context_at (m s') (x s a0) = callee_saved (x s) ∧
    callee_saved (x s') = context_at (m s) (x s a1) ∧
    (∀ r, r ∉ context_regs.*1 → x s' r = x s r) ∧
    (∀ y, ¬ (x s a0 ≤ y < x s a0 + 112) → m s' y = m s y) ∧ c s' = c s.
Proof. apply swtch_effect. Qed.

(** A machine with distinct values in its registers. *)
Definition sample_reg (r : reg) : Z :=
  match r with
  | ra => 2147483700 | sp => 2147500032 | a0 => 2147487744 | a1 => 2147487872 | a2 => 7 | s0 => 21 | s11 => 22
  | tp => 1 | t0 => 35 | _ => 0
  end.

Definition sample_state : state :=
  Asm.State sample_reg (λ r, if decide (r = mscratch) then 2147491840 else 0)
    (store64 (store64 (store64 (λ _, 0) 2147487872 2147483800) (2147491840 + 24) 33570816) (2147491840 + 32) 1000000).

Lemma sample_words : words sample_reg.
Proof. intros []; vm_compute; split; congruence. Qed.

Lemma swtch_switches_witness :
  ∃ s', run swtch sample_state = (s', Jumps 2147483800) ∧
    context_at (m s') 2147487744 = callee_saved sample_reg.
Proof.
  destruct (swtch_switches sample_state) as (s' & H1 & H2 & _).
  - apply sample_words.
  - split; vm_compute; congruence.
  - split; vm_compute; congruence.
  - left. vm_compute. congruence.
  - exists s'. split; [rewrite H1; reflexivity|exact H2].
Defined.

(** A thread that switched away finds its registers again when another thread
    switches back to a context that was left alone. *)
Theorem swtch_comes_back s s' g s2 :
  words (x s) → area (x s a0) 112 → area (x s a1) 112 →
  x s a0 + 112 ≤ x s a1 ∨ x s a1 + 112 ≤ x s a0 →
  run swtch s = (s', g) →
  words (x s2) → area (x s2 a0) 112 → x s2 a1 = x s a0 →
  x s2 a0 + 112 ≤ x s a0 ∨ x s a0 + 112 ≤ x s2 a0 →
  (∀ y, x s a0 ≤ y < x s a0 + 112 → m s2 y = m s' y) →
  ∃ s3, run swtch s2 = (s3, Jumps (x s ra)) ∧ callee_saved (x s3) = callee_saved (x s).
Proof.
  intros Hx Ho Hn Hd Hr Hx2 Ho2 E Hd2 Hm.
  destruct (swtch_effect s Hx Ho Hn Hd) as (t & Ht & Hc & _).
  rewrite Hr in Ht. injection Ht as -> _.
  assert (E2 : context_at (m s2) (x s2 a1) = callee_saved (x s))
    by (rewrite E, <- Hc; apply context_ext, Hm).
  rewrite <- E in Ho, Hd2.
  destruct (swtch_effect s2 Hx2 Ho2 Ho Hd2) as (s3 & H3 & _ & Hc3 & _).
  rewrite E2 in H3, Hc3. exists s3. split; [exact H3|exact Hc3].
Qed.

(** ** uservec and userret *)

Definition trapframe_regs : list (reg * Z) :=
  [(ra, 40); (sp, 48); (gp, 56); (tp, 64); (t0, 72); (t1, 80); (t2, 88); (s0, 96); (s1, 104);
   (a1, 120); (a2, 128); (a3, 136); (a4, 144); (a5, 152); (a6, 160); (a7, 168);
   (s2, 176); (s3, 184); (s4, 192); (s5, 200); (s6, 208); (s7, 216); (s8, 224); (s9, 232);
   (s10, 240); (s11, 248); (t3, 256); (t4, 264); (t5, 272); (t6, 280)].

Lemma trapframe_slots : slots 288 trapframe_regs.
Proof. by_eval. Qed.

Lemma trapframe_slots_a0 : slots 288 ((a0, 112) :: trapframe_regs).
Proof. by_eval. Qed.

(** The trapframe once uservec has saved the registers [xs]. *)
Definition trap_saved (xs : reg → Z) (f : memory) : memory :=
  store64 (save_all TRAPFRAME trapframe_regs xs f) (TRAPFRAME + 112) (xs a0).

Lemma user_reg_slots f a xs :
  (∀ r o, (r, o) ∈ (a0, 112) :: trapframe_regs → load64 f (a + o) = xs r) →
  ∀ r, user_reg (trapframe_at f a) r = xs r.
Proof. intros H r. destruct r; apply H; by_eval. Qed.

Lemma save_all_ext B l xs ys f : (∀ r, r ∈ l.*1 → xs r = ys r) → save_all B l xs f = save_all B l ys f.
Proof.
  revert f. induction l as [|[r o] l IH]; intros f H; [done|].
  simpl. rewrite (H r) by left. apply IH. intros r' Hr. apply H. by right.
Qed.

Lemma trapframe_area : area TRAPFRAME 288.
Proof. split; vm_compute; congruence. Qed.

Definition kernel_regs : list (reg * Z) := [(sp, 8); (tp, 32); (t0, 16); (t1, 0)].

(** The state after [li a0, TRAPFRAME]. *)
Definition at_trapframe (s : state) : state :=
  Asm.State (λ r, if decide (r = a0) then TRAPFRAME else x s r) (c s) (m s).

Lemma li_trapframe l s : run (li a0 TRAPFRAME :: l) s = run l (at_trapframe s).
Proof.
  cbn [run step]. rewrite u64_small; [done|].
  pose proof trapframe_area as [? ?]. lia.
Qed.

(** Registers when uservec jumps to usertrap(). *)
Definition trap_regs (s : state) : reg → Z :=
  load_all TRAPFRAME kernel_regs (λ r, if decide (r = t0) then x s a0 else x (at_trapframe s) r)
    (trap_saved (x s) (m s)).

Lemma uservec_runs s :
  run uservec s =
    (Asm.State (trap_regs s)
       (λ r, if decide (r = satp) then trap_regs s t1 else if decide (r = sscratch) then x s a0 else c s r)
       (trap_saved (x s) (m s)),
     Jumps (trap_regs s t0)).
Proof.
  pose proof trapframe_area as [Ha Hb].
  change uservec with (csrw sscratch a0 :: li a0 TRAPFRAME :: saves a0 trapframe_regs ++
    [csrr t0 sscratch; sd t0 112 a0] ++ loads a0 kernel_regs ++ [sfence_vma; csrw satp t1; sfence_vma; jr t0]).
  rewrite (run_step _ _ _ (set_c sscratch (x s a0) s)) by reflexivity.
  rewrite li_trapframe.
  rewrite (saves_run 288) by (first [apply trapframe_slots | assumption]).
  change (x (at_trapframe _) a0) with TRAPFRAME.
  rewrite (save_all_ext _ _ _ (x s)).
  2:{ intros r Hr. simpl. rewrite decide_False; [done|]. intros ->. revert Hr.
      by_eval. }
  set (f := save_all _ _ _ _).
  change ([csrr t0 sscratch; sd t0 112 a0] ++ ?l) with (csrr t0 sscratch :: sd t0 112 a0 :: l).
  set (s' := Asm.State (λ r, if decide (r = t0) then x s a0 else x (at_trapframe s) r)
    (c (set_c sscratch (x s a0) s)) f).
  rewrite (run_step _ _ _ s') by reflexivity.
  rewrite (run_step _ _ _ (set_m (store64 f (TRAPFRAME + 112) (x s a0)) s')).
  2:{ cbn [step]. change (x s' a0) with TRAPFRAME. rewrite u64_small by lia. reflexivity. }
  rewrite (loads_run 288) by (first [assumption | by_eval]).
  reflexivity.
Qed.

Lemma trap_saved_reg xs f r : words xs → user_reg (trapframe_at (trap_saved xs f) TRAPFRAME) r = xs r.
Proof.
  intros Hx. apply user_reg_slots. intros r' o Hin. unfold trap_saved.
  apply elem_of_cons in Hin as [[= -> ->]|Hin]; [apply load64_store64_same, Hx|].
  destruct trapframe_slots_a0 as (_ & _ & Ha & Hs). rewrite Forall_forall in Ha.
  specialize (Ha _ Hin). simpl in Ha. rewrite load64_store64_other by lia.
  by apply (save_all_in _ 288).
Qed.

(** The fields the kernel filled in are left alone. *)
Lemma trap_saved_kernel xs f i :
  0 ≤ i < 5 → load64 (trap_saved xs f) (TRAPFRAME + 8 * i) = load64 f (TRAPFRAME + 8 * i).
Proof.
  intros Hi. unfold trap_saved. rewrite load64_store64_other by lia. apply save_all_apart.
  assert (H : Forall (λ p, 40 ≤ snd p) trapframe_regs) by by_eval.
  eapply Forall_impl; [exact H|]. simpl. intros. lia.
Qed.

Lemma trap_saved_out xs f y :
  ¬ (TRAPFRAME ≤ y < TRAPFRAME + 288) → trap_saved xs f y = f y.
Proof.
  intros Hy. unfold trap_saved. rewrite store64_out by lia.
  apply (save_all_out _ 288); [apply trapframe_slots|done].
Qed.

(** What usertrap() finds. *)
Record trapped (s s' : state) : Prop := {
  trapped_regs : ∀ r, user_reg (trapframe_at (m s') TRAPFRAME) r = x s r;
  trapped_sp : x s' sp = tf_kernel_sp (trapframe_at (m s) TRAPFRAME);
  trapped_tp : x s' tp = tf_kernel_hartid (trapframe_at (m s) TRAPFRAME);
  trapped_satp : c s' satp = tf_kernel_satp (trapframe_at (m s) TRAPFRAME);
  trapped_kernel : ∀ i, 0 ≤ i < 5 → load64 (m s') (TRAPFRAME + 8 * i) = load64 (m s) (TRAPFRAME + 8 * i);
  trapped_out : ∀ y, ¬ (TRAPFRAME ≤ y < TRAPFRAME + 288) → m s' y = m s y;
}.

Lemma trap_regs_kernel s r i :
  (r, 8 * i) ∈ kernel_regs → 0 ≤ i < 5 → trap_regs s r = load64 (m s) (TRAPFRAME + 8 * i).
Proof.
  intros Hin Hi. unfold trap_regs. rewrite (load_all_in _ _ _ _ _ (8 * i)); [|by_eval|done].
  by apply trap_saved_kernel.
Qed.

Lemma uservec_effect s :
  words (x s) →
  ∃ s', run uservec s = (s', Jumps (tf_kernel_trap (trapframe_at (m s) TRAPFRAME))) ∧ trapped s s'.
Proof.
  intros Hx. rewrite uservec_runs.
  rewrite (trap_regs_kernel s t0 2) by (first [by_eval | lia]).
  eexists. split; [reflexivity|]. constructor.
  - intros r. by apply trap_saved_reg.
  - apply (trap_regs_kernel s sp 1); [by_eval|lia].
  - apply (trap_regs_kernel s tp 4); [by_eval|lia].
  - apply (trap_regs_kernel s t1 0); [by_eval|lia].
  - intros i Hi. by apply trap_saved_kernel.
  - intros y Hy. by apply trap_saved_out.
Qed.

Lemma trapframe_no_a0 o : (a0, o) ∉ trapframe_regs.
Proof. unfold trapframe_regs. rewrite !not_elem_of_cons. repeat split; try congruence. apply not_elem_of_nil. Qed.

(** userret ends with the registers of the trapframe, in the user page table. *)
Lemma userret_effect s :
  ∃ s', run userret s = (s', Sret) ∧
    (∀ r, x s' r = user_reg (trapframe_at (m s) TRAPFRAME) r) ∧
    c s' satp = x s a0 ∧ m s' = m s.
Proof.
  pose proof trapframe_area as [Ha Hb].
  change userret with (sfence_vma :: csrw satp a0 :: sfence_vma :: li a0 TRAPFRAME ::
    loads a0 trapframe_regs ++ [ld a0 112 a0; sret]).
  rewrite (run_step _ _ _ s) by reflexivity.
  rewrite (run_step _ _ _ (set_c satp (x s a0) s)) by reflexivity.
  rewrite (run_step _ _ _ (set_c satp (x s a0) s)) by reflexivity.
  rewrite li_trapframe.
  rewrite (loads_run 288) by (first [apply trapframe_slots | by_eval | assumption]).
  change (x (at_trapframe _) a0) with TRAPFRAME.
  set (xs := load_all _ _ _ _).
  assert (Ea : xs a0 = TRAPFRAME) by (unfold xs; rewrite load_all_out by by_eval; reflexivity).
  set (s' := Asm.State xs _ _).
  rewrite (run_step _ _ _ (set_x a0 (load64 (m s) (TRAPFRAME + 112)) s')).
  2:{ cbn [step]. change (x s' a0) with (xs a0). rewrite Ea, u64_small by lia. reflexivity. }
  eexists. split; [reflexivity|]. split; [|split; reflexivity].
  intros r. symmetry. revert r. apply user_reg_slots. intros r o Hin.
  apply elem_of_cons in Hin as [[= -> ->]|Hin]; [reflexivity|].
  simpl. rewrite decide_False by (intros ->; revert Hin; apply trapframe_no_a0).
  symmetry. apply load_all_in; [by_eval|done].
Qed.

(** C22: A trap and the return from it are transparent to the user program.
    uservec leaves for the address in kernel_trap with the kernel's stack
    pointer, hart id and page table, each user register in its field of struct
    trapframe, and memory outside the frame untouched.  userret, from any later
    state whose trapframe is as uservec left it, returns with all 31 registers
    as they were, under the page table passed in a0. *)
Theorem trap_round_trip s :
  words (x s) →
  ∃ s', run uservec s = (s', Jumps (tf_kernel_trap (trapframe_at (m s) TRAPFRAME))) ∧ trapped s s' ∧
    ∀ s2, trapframe_at (m s2) TRAPFRAME = trapframe_at (m s') TRAPFRAME →
      ∃ s3, run userret s2 = (s3, Sret) ∧ (∀ r, x s3 r = x s r) ∧ c s3 satp = x s2 a0 ∧ m s3 = m s2.
Proof.
  intros Hx. destruct (uservec_effect s Hx) as (s' & H1 & H2). exists s'. split; [exact H1|].
  split; [exact H2|]. intros s2 E. destruct (userret_effect s2) as (s3 & H3 & H4 & H5).
  exists s3. split; [exact H3|]. split; [|exact H5].
  intros r. rewrite H4, E. apply trapped_regs, H2.
Qed.

Lemma trap_round_trip_witness :
  ∃ s', run uservec sample_state = (s', Jumps (tf_kernel_trap (trapframe_at (m sample_state) TRAPFRAME))) ∧
    ∃ s3, run userret s' = (s3, Sret) ∧ x s3 a2 = 7.
Proof.
  destruct (trap_round_trip sample_state sample_words) as (s' & H1 & _ & H2).
  exists s'. split; [exact H1|].
  destruct (H2 s' eq_refl) as (s3 & H3 & H4 & _). exists s3. split; [exact H3|apply (H4 a2)].
Defined.

(** ** kernelvec *)

Definition caller_regs : list (reg * Z) :=
  [(gp, 16); (t0, 32); (t1, 40); (t2, 48); (s0, 56); (s1, 64); (a0, 72); (a1, 80); (a2, 88); (a3, 96);
   (a4, 104); (a5, 112); (a6, 120); (a7, 128); (s2, 136); (s3, 144); (s4, 152); (s5, 160); (s6, 168);
   (s7, 176); (s8, 184); (s9, 192); (s10, 200); (s11, 208); (t3, 216); (t4, 224); (t5, 232); (t6, 240)].

Definition kstack_regs : list (reg * Z) := (ra, 0) :: (sp, 8) :: (gp, 16) :: (tp, 24) :: tail caller_regs.

Lemma kstack_slots : slots 256 kstack_regs.
Proof. by_eval. Qed.

Definition pushed (s : state) : reg → Z := λ r, if decide (r = sp) then x s sp - 256 else x s r.

Lemma pushed_words s : words (x s) → 256 ≤ x s sp → words (pushed s).
Proof. intros Hx Hs r. unfold pushed. pose proof (Hx r). pose proof (Hx sp). case_decide; lia. Qed.

Lemma kernelvec_enter_runs s :
  words (x s) → 256 ≤ x s sp →
  run kernelvec_enter s =
    (Asm.State (pushed s) (c s) (save_all (x s sp - 256) kstack_regs (pushed s) (m s)), Falls).
Proof.
  intros Hx Hs. pose proof (Hx sp) as Hr.
  change kernelvec_enter with (addi sp sp (-256) :: saves sp kstack_regs ++ []).
  rewrite (run_step _ _ _ (Asm.State (pushed s) (c s) (m s))).
  2:{ cbn [step]. rewrite u64_small by lia. reflexivity. }
  rewrite (saves_run 256); [reflexivity|apply kstack_slots|..]; change (x _ sp) with (x s sp - 256); lia.
Qed.

Lemma kernelvec_leave_runs s P :
  words P → x s sp = P sp → P sp + 256 < 2 ^ 64 →
  (∀ r o, (r, o) ∈ kstack_regs → load64 (m s) (P sp + o) = P r) →
  ∃ xs, run kernelvec_leave s = (Asm.State xs (c s) (m s), Sret) ∧
    xs sp = P sp + 256 ∧ xs tp = x s tp ∧ ∀ r, r ≠ sp → r ≠ tp → xs r = P r.
Proof.
  intros HP Hsp Hb Hm. pose proof (HP sp) as Hr.
  change kernelvec_leave with (ld ra 0 sp :: ld sp 8 sp :: loads sp caller_regs ++ [addi sp sp 256; sret]).
  pose proof (Hm ra 0) as Mra. pose proof (Hm sp 8) as Msp.
  rewrite (run_step _ _ _ (set_x ra (P ra) s)).
  2:{ cbn [step]. rewrite Hsp, u64_small, Mra by (lia || by_eval). reflexivity. }
  rewrite (run_step _ _ _ (set_x sp (P sp) (set_x ra (P ra) s))).
  2:{ cbn [step]. change (x (set_x ra _ s) sp) with (x s sp). change (m (set_x ra _ s)) with (m s).
      rewrite Hsp, u64_small, Msp by (lia || by_eval). reflexivity. }
  set (s' := set_x sp _ _). assert (E : x s' sp = P sp) by reflexivity.
  rewrite (loads_run 256); rewrite ?E; [|by_eval|by_eval|lia|lia].
  set (xs := load_all _ _ _ _).
  assert (Es : xs sp = P sp) by (unfold xs; rewrite load_all_out by by_eval; reflexivity).
  exists (λ r, if decide (r = sp) then P sp + 256 else xs r). split; [|split; [reflexivity|split]].
  - rewrite (run_step _ _ _ (set_x sp (P sp + 256) (Asm.State xs (c s') (m s')))); [reflexivity|].
    cbn [step]. change (x (Asm.State xs _ _) sp) with (xs sp). rewrite Es, u64_small by lia. reflexivity.
  - rewrite decide_False by done. unfold xs. rewrite load_all_out by by_eval. reflexivity.
  - intros r Hr1 Hr2. rewrite decide_False by done. unfold xs.
    destruct (decide (r = ra)) as [->|Hra]; [rewrite load_all_out by by_eval; reflexivity|].
    assert (Hin : Exists (λ p, p.1 = r) caller_regs) by (destruct r; first [congruence | by_eval]).
    apply Exists_exists in Hin as ([r' o] & Hin & Heq). simpl in Heq. subst r'.
    rewrite (load_all_in _ _ _ _ _ o); [|by_eval|done]. apply Hm.
    change caller_regs with ((gp, 16) :: tail caller_regs) in Hin.
    apply elem_of_cons in Hin as [->|Hin]; [by_eval|]. do 4 right. exact Hin.
Qed.

(** The calling convention: a C function gives back the stack pointer and
    leaves its caller's frame alone. *)
Definition keeps_frame (f : state → option state) : Prop :=
  ∀ t t', f t = Some t' →
    x t' sp = x t sp ∧ ∀ y, x t sp ≤ y < x t sp + 256 → m t' y = m t y.

(** C24: A trap taken in the kernel is transparent to the interrupted code.
    When kerneltrap() returns, kernelvec returns from the trap with every
    register as it was, tp apart, which stays as kerneltrap() left it in case
    the thread moved to another hart; it adds nothing to what kerneltrap() did
    to memory but the 256 bytes below the interrupted stack pointer. *)
Theorem kernelvec_transparent kerneltrap s s2 :
  words (x s) → 256 ≤ x s sp → keeps_frame kerneltrap →
  kerneltrap (fst (run kernelvec_enter s)) = Some s2 →
  (∀ y, ¬ (x s sp - 256 ≤ y < x s sp) → m (fst (run kernelvec_enter s)) y = m s y) ∧
  ∃ s3, kernelvec kerneltrap s = Some (s3, Sret) ∧
    (∀ r, r ≠ tp → x s3 r = x s r) ∧ x s3 tp = x s2 tp ∧ m s3 = m s2 ∧ c s3 = c s2.
Proof.
  intros Hx Hs HK H2. unfold kernelvec. rewrite H2. destruct (HK _ _ H2) as [Ks Km].
  rewrite (kernelvec_enter_runs s Hx Hs) in Ks, Km |- *. cbn [fst m x] in Ks, Km |- *.
  pose proof (pushed_words s Hx Hs) as HP. pose proof (Hx sp) as Hr.
  assert (E : pushed s sp = x s sp - 256) by reflexivity.
  split.
  { intros y Hy. apply (save_all_out _ 256); [apply kstack_slots|lia]. }
  destruct (kernelvec_leave_runs s2 (pushed s) HP Ks) as (xs & H3 & Xsp & Xtp & Xr); [lia| |].
  - intros r o Hin. rewrite E.
    rewrite (load64_ext (m s2) (save_all (x s sp - 256) kstack_regs (pushed s) (m s))).
    + by apply (save_all_in _ 256), Hin; [|apply kstack_slots].
    + intros y Hy. apply Km. rewrite E.
      assert (Ho : Forall (λ p, 0 ≤ p.2 ∧ p.2 + 8 ≤ 256) kstack_regs) by by_eval.
      rewrite Forall_forall in Ho. specialize (Ho _ Hin). simpl in Ho. lia.
  - cbn [fmap option_fmap option_map]. rewrite H3. eexists. split; [reflexivity|].
    split; [|split; [exact Xtp|split; reflexivity]].
    intros r Hn. cbn [x]. destruct (decide (r = sp)) as [->|Hr']; [rewrite Xsp, E; lia|].
    rewrite Xr by done. unfold pushed. by rewrite decide_False.
Qed.

(** A kerneltrap() that clobbers what the convention lets it. *)
Definition sample_kerneltrap (t : state) : option state :=
  Some (Asm.State (λ r, match r with sp => x t sp | tp => 2 | _ => 99 end) (c t) (m t)).

Lemma kernelvec_transparent_witness :
  ∃ s3, kernelvec sample_kerneltrap sample_state = Some (s3, Sret) ∧ x s3 s11 = 22 ∧ x s3 tp = 2.
Proof.
  destruct (kernelvec_transparent sample_kerneltrap sample_state
    (default sample_state (sample_kerneltrap (fst (run kernelvec_enter sample_state)))) sample_words) as (_ & s3 & H1 & H2 & H3 & _).
  - vm_compute. congruence.
  - intros t t' [= <-]. split; [reflexivity|]. intros y _. reflexivity.
  - reflexivity.
  - exists s3. split; [exact H1|]. split; [apply (H2 s11); discriminate|exact H3].
Defined.

(** ** timervec *)

Definition timer_regs : list (reg * Z) := [(a1, 0); (a2, 8); (a3, 16)].

(** Memory once the handler has saved the registers it uses in the scratch
    area at [A]. *)
Definition timer_saved (s : state) (A : Z) : memory := save_all A timer_regs (x s) (m s).

(** The handler up to the point where a1 is CLINT_MTIMECMP(hart) and a2 the
    interval. *)
Lemma timervec_saves s A k :
  c s mscratch = A → area A 40 →
  let f := timer_saved s A in
  run (csrrw a0 mscratch a0 :: saves a0 timer_regs ++ loads a0 [(a1, 24); (a2, 32)] ++ k) s =
  run k (Asm.State (load_all A [(a1, 24); (a2, 32)] (λ r, if decide (r = a0) then A else x s r) f)
           (λ r, if decide (r = mscratch) then x s a0 else c s r) f).
Proof.
  intros <- [A0 A1] f.
  rewrite (run_step _ _ _ (set_x a0 (c s mscratch) (set_c mscratch (x s a0) s))) by reflexivity.
  rewrite (saves_run 40) by (first [assumption | by_eval]).
  rewrite (save_all_ext _ _ _ (x s)).
  2:{ intros r Hr. simpl. rewrite decide_False; [done|]. intros ->. revert Hr.
      by_eval. }
  rewrite (loads_run 40) by (first [assumption | by_eval]). reflexivity.
Qed.

(** The next timer interrupt and the software interrupt. *)
Lemma timervec_schedules q T k :
  x q a1 = T → area T 8 →
  ∃ xs, run ([ld a3 0 a1; add a3 a3 a2; sd a3 0 a1; li a1 2; csrw sip a1] ++ k) q =
    run k (Asm.State xs (λ r, if decide (r = sip) then 2 else c q r)
             (store64 (m q) T (u64 (load64 (m q) T + x q a2)))) ∧
    ∀ r, r ∉ timer_regs.*1 → xs r = x q r.
Proof.
  intros HT [T0 T1]. cbn [app].
  rewrite (run_step _ _ _ (set_x a3 (load64 (m q) T) q)).
  2:{ cbn [step]. rewrite HT, Z.add_0_r, u64_small by lia. reflexivity. }
  set (q1 := set_x a3 _ q).
  rewrite (run_step _ _ _ (set_x a3 (u64 (load64 (m q) T + x q a2)) q1)) by reflexivity.
  set (q2 := set_x a3 _ q1).
  rewrite (run_step _ _ _ (set_m (store64 (m q) T (u64 (load64 (m q) T + x q a2))) q2)).
  2:{ cbn [step]. change (x q2 a1) with (x q a1). rewrite HT, Z.add_0_r, u64_small by lia. reflexivity. }
  set (q3 := set_m _ q2).
  rewrite (run_step _ _ _ (set_x a1 2 q3)) by reflexivity.
  rewrite (run_step _ _ _ (set_c sip 2 (set_x a1 2 q3))) by reflexivity.
  exists (x (set_x a1 2 q3)). split; [reflexivity|].
  intros r Hr. simpl. rewrite !decide_False; [done|..]; intros ->; apply Hr; by_eval.
Qed.

(** The registers come back. *)
Lemma timervec_restores q A :
  x q a0 = A → area A 40 →
  ∃ s', run (loads a0 [(a3, 16); (a2, 8); (a1, 0)] ++ [csrrw a0 mscratch a0; mret]) q = (s', Mret) ∧
    m s' = m q ∧ x s' a0 = c q mscratch ∧
    (∀ r, r ≠ a0 → r ∉ timer_regs.*1 → x s' r = x q r) ∧
    (∀ r o, (r, o) ∈ timer_regs → x s' r = load64 (m q) (A + o)) ∧
    (∀ r, c s' r = if decide (r = mscratch) then A else c q r).
Proof.
  intros <- [A0 A1]. rewrite (loads_run 40) by (first [assumption | by_eval]).
  set (xs := load_all _ _ _ _).
  assert (E : xs a0 = x q a0) by reflexivity.
  eexists. split; [reflexivity|]. split; [reflexivity|]. split; [reflexivity|]. split; [|split].
  - intros r Hr Hn. simpl. rewrite decide_False by done. apply load_all_out.
    intros Hin. apply Hn. revert Hin. cbn. rewrite !elem_of_cons. tauto.
  - intros r o Hin. unfold timer_regs in Hin. rewrite !elem_of_cons, elem_of_nil in Hin.
    destruct Hin as [[= -> ->]|[[= -> ->]|[[= -> ->]|[]]]]; apply (load_all_in _ [(a3, 16); (a2, 8); (a1, 0)]); by_eval.
  - reflexivity.
Qed.

Lemma timervec_runs s A T :
  c s mscratch = A → load64 (timer_saved s A) (A + 24) = T → area A 40 → area T 8 →
  let f := timer_saved s A in
  let f' := store64 f T (u64 (load64 f T + load64 f (A + 32))) in
  ∃ s', run timervec s = (s', Mret) ∧ m s' = f' ∧
    (∀ r, r ∉ timer_regs.*1 → x s' r = x s r) ∧
    (∀ r o, (r, o) ∈ timer_regs → x s' r = load64 f' (A + o)) ∧
    (∀ r, c s' r = if decide (r = sip) then 2 else c s r).
Proof.
  intros HA HT HA40 HT8 f f'.
  change timervec with (csrrw a0 mscratch a0 :: saves a0 timer_regs ++ loads a0 [(a1, 24); (a2, 32)] ++
    ([ld a3 0 a1; add a3 a3 a2; sd a3 0 a1; li a1 2; csrw sip a1] ++
    (loads a0 [(a3, 16); (a2, 8); (a1, 0)] ++ [csrrw a0 mscratch a0; mret]))).
  rewrite (timervec_saves s A _ HA HA40). fold f.
  set (q := Asm.State _ _ f).
  destruct (timervec_schedules q T (loads a0 [(a3, 16); (a2, 8); (a1, 0)] ++ [csrrw a0 mscratch a0; mret]))
    as (xs & H1 & H2); [exact HT|exact HT8|].
  change (x q a2) with (load64 f (A + 32)) in H1. change (m q) with f in H1. fold f' in H1.
  rewrite H1. set (q' := Asm.State xs _ f').
  assert (Xa : x q' a0 = A) by (apply (H2 a0); by_eval).
  destruct (timervec_restores q' A Xa HA40) as (s' & H3 & H4 & H5 & H6 & H7 & H8).
  exists s'. split; [exact H3|]. split; [exact H4|]. split; [|split; [exact H7|]].
  - intros r Hr. destruct (decide (r = a0)) as [->|Hn]; [exact H5|].
    rewrite H6 by done. etrans; [by apply H2|]. unfold q. cbn [x]. rewrite load_all_out.
    + by rewrite decide_False.
    + intros Hin. apply Hr. revert Hin. cbn. rewrite !elem_of_cons, elem_of_nil. tauto.
  - intros r. rewrite H8. unfold q', q. cbn [c]. destruct r; try reflexivity. symmetry. exact HA.
Qed.

Lemma timer_saved_load s A a :
  (∀ y, a ≤ y < a + 8 → ¬ (A ≤ y < A + 24)) → load64 (timer_saved s A) a = load64 (m s) a.
Proof.
  intros H. apply load64_ext. intros y Hy. apply (save_all_out _ 24); [by_eval|by apply H].
Qed.

(** C25: The machine-mode timer interrupt is transparent: with mscratch at a
    scratch area prepared as timerinit() does (CLINT_MTIMECMP(hart) in its
    fourth word, the interval in its fifth), timervec returns with every
    register as it was, mtimecmp advanced by the interval, the supervisor
    software interrupt pending in sip and the other control registers as they
    were, and no memory changed but mtimecmp and the first three words of the
    scratch area. *)
Theorem timervec_transparent s A T :
  words (x s) → c s mscratch = A → area A 40 →
  load64 (m s) (A + 24) = T → area T 8 → T + 8 ≤ A ∨ A + 40 ≤ T →
  ∃ s', run timervec s = (s', Mret) ∧ (∀ r, x s' r = x s r) ∧
    load64 (m s') T = u64 (load64 (m s) T + load64 (m s) (A + 32)) ∧
    (∀ r, c s' r = if decide (r = sip) then 2 else c s r) ∧
    (∀ y, ¬ (A ≤ y < A + 24) → ¬ (T ≤ y < T + 8) → m s' y = m s y).
Proof.
  intros Hx HA Ha HT Ht Hd. rewrite <- (timer_saved_load s A) in HT by lia.
  destruct (timervec_runs s A T HA HT Ha Ht) as (s' & H1 & H2 & H3 & H4 & H5).
  exists s'. split; [exact H1|]. split; [|split; [|split; [exact H5|]]].
  - intros r. destruct (decide (r ∈ timer_regs.*1)) as [Hr|Hr]; [|by apply H3].
    apply list_elem_of_fmap in Hr as ([r' o] & -> & Hin). cbn [fst]. rewrite (H4 _ o Hin).
    assert (Ho : Forall (λ p, 0 ≤ p.2 ≤ 16) timer_regs) by by_eval.
    rewrite Forall_forall in Ho. specialize (Ho _ Hin). simpl in Ho.
    rewrite load64_store64_other by lia. by apply (save_all_in _ 24); [|by_eval|].
  - rewrite H2, load64_store64_same by apply u64_range. f_equal.
    f_equal; apply timer_saved_load; lia.
  - intros y Hy Hy'. rewrite H2, store64_out by done. apply (save_all_out _ 24); [by_eval|done].
Qed.

Lemma timervec_transparent_witness :
  ∃ s', run timervec sample_state = (s', Mret) ∧ x s' a1 = 2147487872 ∧ load64 (m s') 33570816 = 1000000.
Proof.
  destruct (timervec_transparent sample_state 2147491840 33570816 sample_words) as (s' & H1 & H2 & H3 & _).
  - reflexivity.
  - split; vm_compute; congruence.
  - vm_compute. reflexivity.
  - split; vm_compute; congruence.
  - left. vm_compute. congruence.
  - exists s'. split; [exact H1|]. split; [apply (H2 a1)|]. rewrite H3. vm_compute. reflexivity.
Defined.

(** ** _entry *)

(** Each hart starts at the high end of its own page of stack0. *)
Theorem entry_stack stack0 s :
  0 ≤ c s mhartid < 8 → 0 ≤ stack0 → stack0 + 4096 * 8 < 2 ^ 64 →
  snd (run (entry stack0) s) = Falls ∧
  x (fst (run (entry stack0) s)) sp = stack0 + 4096 * (c s mhartid + 1).
Proof.
  intros Hh H0 H1. unfold entry.
  set (h := c s mhartid) in *.
  assert (E1 : u64 stack0 = stack0) by (apply u64_small; lia).
  assert (E2 : u64 (h + 1) = h + 1) by (apply u64_small; lia).
  assert (E3 : u64 (4096 * (h + 1)) = 4096 * (h + 1)) by (apply u64_small; lia).
  rewrite (run_step _ _ _ (set_x sp stack0 s)) by (cbn [step]; by rewrite E1).
  set (q := set_x sp _ s).
  rewrite (run_step _ _ _ (set_x a0 4096 q)) by reflexivity.
  set (q1 := set_x a0 _ q).
  rewrite (run_step _ _ _ (set_x a1 h q1)) by reflexivity.
  set (q2 := set_x a1 _ q1).
  rewrite (run_step _ _ _ (set_x a1 (h + 1) q2)) by (cbn [step]; change (x q2 a1) with h; by rewrite E2).
  set (q3 := set_x a1 _ q2).
  rewrite (run_step _ _ _ (set_x a0 (4096 * (h + 1)) q3))
    by (cbn [step]; change (x q3 a0) with 4096; change (x q3 a1) with (h + 1); by rewrite E3).
  set (q4 := set_x a0 _ q3).
  rewrite (run_step _ _ _ (set_x sp (stack0 + 4096 * (h + 1)) q4)).
  2:{ cbn [step]. change (x q4 sp) with stack0. change (x q4 a0) with (4096 * (h + 1)).
      rewrite u64_small by lia. reflexivity. }
  split; reflexivity.
Qed.
