(* ===== verification/Ulib.v ===== *)
(** * The memory routines of user programs: the rest of ulib.c

    On byte memory, as in string.c; the loops are those of [CString]. *)

From S2P Require Import Prelude Memory CString.

(** [while(( *s++ = *t++) != 0) ;], giving up after [fuel] characters. *)
Fixpoint strcpy_loop (m : memory) (s t : Z) (fuel : nat) : option memory :=
  let m' := store8 m s (m t) in
  if m t =? 0 then Some m'
  else match fuel with
       | O => None
       | S fuel' => strcpy_loop m' (s + 1) (t + 1) fuel'
       end.
Definition strcpy (m : memory) (s t : Z) (fuel : nat) : option memory := strcpy_loop m s t fuel.

(** [for(i = 0; i < n; i++) cdst[i] = c;] *)
Definition ulib_memset (m : memory) (dst c n : Z) : memory := memset_from m dst c 0 (Z.to_nat n).

Definition ulib_memmove (m : memory) (vdst vsrc n : Z) : memory :=
  if vdst <? vsrc then move_up m vdst vsrc (Z.to_nat n)
  else move_down m (vdst + n) (vsrc + n) (Z.to_nat n).

(** [while (n-- > 0) { if ( *p1 != *p2) return *p1 - *p2; p1++; p2++; } return 0;] *)
Fixpoint ulib_memcmp_loop (m : memory) (p1 p2 : Z) (n : nat) : Z :=
  match n with
  | O => 0
  | S n' => if negb (m p1 =? m p2) then m p1 - m p2 else ulib_memcmp_loop m (p1 + 1) (p2 + 1) n'
  end.
Definition ulib_memcmp (m : memory) (s1 s2 n : Z) : Z := ulib_memcmp_loop m s1 s2 (Z.to_nat n).

Definition ulib_memcpy (m : memory) (dst src n : Z) : memory := ulib_memmove m dst src n.

(** The two memmove() functions agree, though they choose the direction of the
    copy by different tests. *)
Lemma ulib_memmove_kernel m dst src n : mem_bytes m → 0 ≤ n → mem_eq (ulib_memmove m dst src n) (memmove m dst src n).
Proof.
  intros Hm Hn x. rewrite (memmove_spec m dst src n Hm Hn). unfold ulib_memmove, store_bytes. rewrite load_bytes_length, Z2Nat.id by done.
  assert (E : (if (dst <=? x) && (x <? dst + n) then load_bytes m src (Z.to_nat n) !!! Z.to_nat (x - dst) else m x) =
              if decide (dst ≤ x < dst + n) then m (src + (x - dst)) else m x).
  { case_decide as Hx.
    - destruct (Z.leb_spec dst x), (Z.ltb_spec x (dst + n)); try lia. cbn. apply list_lookup_total_correct.
      rewrite load_bytes_lookup by lia. do 2 f_equal. lia.
    - by destruct (Z.leb_spec dst x), (Z.ltb_spec x (dst + n)); try lia. }
  rewrite E. destruct (Z.ltb_spec dst src).
  - rewrite move_up_spec by (done || lia). rewrite Z2Nat.id by done. done.
  - rewrite move_down_spec, Z2Nat.id by (done || lia). case_decide; case_decide; try lia; f_equal; lia.
Qed.
