(* ===== verification/User.v ===== *)
(** * User processes

    A program of user/ is a computation over its own variables.  What the
    kernel answers to its system calls is a parameter: [os] gives the answer
    to a call from the calls and answers before it, so that a statement for
    every [os] with some property holds for every kernel behaviour with that
    property.  The state records the calls made, oldest first; exit() ends the
    computation.  Strings are lists of characters whose end is their NUL.

    The file also has the C library of user/: ulib.c and printf.c. *)

From S2P Require Import Prelude KMonad.

(** ** System calls *)

Inductive call :=
  | Fork | Exit (status : Z) | Wait | Pipe
  | Read (fd n : Z) | Write (fd : Z) (bytes : list Z) | Close (fd : Z)
  | Kill (pid : Z) | Exec (path : list Z) (argv : list (list Z)) | Open (path : list Z) (mode : Z)
  | Mknod (path : list Z) (major minor : Z) | Unlink (path : list Z) | Fstat (fd : Z)
  | Link (old new : list Z) | Mkdir (path : list Z) | Chdir (path : list Z)
  | Dup (fd : Z) | Getpid | Sbrk (n : Z) | Sleep (n : Z) | Uptime.

(** The returned value, and the bytes or numbers stored through pointers. *)
Record answer := Answer { a_ret : Z; a_data : list Z }.

Class OS := os : list (call * answer) → call → answer.

Record uproc (G : Type) := Uproc { u_trace : list (call * answer); u_vars : G }.
Arguments Uproc {G} u_trace u_vars.
Arguments u_trace {G} u.
Arguments u_vars {G} u.

Section user.
Context `{O : OS} {G : Type}.

Definition sys (c : call) : M (uproc G) answer := λ ks s,
  let a := os (u_trace s) c in
  Ok a ks (Uproc (u_trace s ++ [(c, a)]) (u_vars s)).

Definition vars : M (uproc G) G := gets u_vars.
Definition set_vars (f : G → G) : M (uproc G) unit := modify (λ s, Uproc (u_trace s) (f (u_vars s))).

Definition fork : M (uproc G) Z := a ← sys Fork; mret (a_ret a).
Definition exit {A} (status : Z) : M (uproc G) A := sys (Exit status) ;; panic "exit".
Definition wait : M (uproc G) Z := a ← sys Wait; mret (a_ret a).
(** The result and the two descriptors. *)
Definition pipe : M (uproc G) (Z * (Z * Z)) :=
  a ← sys Pipe; mret (a_ret a, (a_data a !!! 0%nat, a_data a !!! 1%nat)).
Definition read (fd n : Z) : M (uproc G) (Z * list Z) := a ← sys (Read fd n); mret (a_ret a, a_data a).
Definition write (fd : Z) (bytes : list Z) : M (uproc G) Z := a ← sys (Write fd bytes); mret (a_ret a).
Definition close (fd : Z) : M (uproc G) Z := a ← sys (Close fd); mret (a_ret a).
Definition kill (pid : Z) : M (uproc G) Z := a ← sys (Kill pid); mret (a_ret a).
Definition exec (path : list Z) (argv : list (list Z)) : M (uproc G) Z := a ← sys (Exec path argv); mret (a_ret a).
Definition open (path : list Z) (mode : Z) : M (uproc G) Z := a ← sys (Open path mode); mret (a_ret a).
Definition mknod (path : list Z) (major minor : Z) : M (uproc G) Z := a ← sys (Mknod path major minor); mret (a_ret a).
Definition unlink (path : list Z) : M (uproc G) Z := a ← sys (Unlink path); mret (a_ret a).
Definition fstat (fd : Z) : M (uproc G) (Z * list Z) := a ← sys (Fstat fd); mret (a_ret a, a_data a).
Definition link (old new : list Z) : M (uproc G) Z := a ← sys (Link old new); mret (a_ret a).
Definition mkdir (path : list Z) : M (uproc G) Z := a ← sys (Mkdir path); mret (a_ret a).
Definition chdir (path : list Z) : M (uproc G) Z := a ← sys (Chdir path); mret (a_ret a).
Definition dup (fd : Z) : M (uproc G) Z := a ← sys (Dup fd); mret (a_ret a).
Definition getpid : M (uproc G) Z := a ← sys Getpid; mret (a_ret a).
Definition sbrk (n : Z) : M (uproc G) Z := a ← sys (Sbrk n); mret (a_ret a).
Definition sleep (n : Z) : M (uproc G) Z := a ← sys (Sleep n); mret (a_ret a).
Definition uptime : M (uproc G) Z := a ← sys Uptime; mret (a_ret a).
End user.

(** ** ulib.c *)

Definition O_RDONLY : Z := 0x000.
Definition O_WRONLY : Z := 0x001.
Definition O_RDWR : Z := 0x002.
Definition O_CREATE : Z := 0x200.
Definition O_TRUNC : Z := 0x400.

(** [while( *p && *p == *q) p++, q++; return (uchar) *p - (uchar) *q;] *)
Fixpoint strcmp (p q : list Z) : Z :=
  match p, q with
  | [], [] => 0
  | [], d :: _ => - u8 d
  | c :: _, [] => u8 c
  | c :: p', d :: q' => if c =? d then strcmp p' q' else u8 c - u8 d
  end.

Definition strlen (s : list Z) : Z := u32 (Z.of_nat (length s)).

(** The string from the first [c] on. *)
Fixpoint strchr (s : list Z) (c : Z) : option (list Z) :=
  match s with
  | [] => None
  | x :: s' => if x =? c then Some s else strchr s' c
  end.

(** [n = n*10 + *s++ - '0'] *)
Fixpoint atoi_loop (s : list Z) (n : Z) : Z :=
  match s with
  | c :: s' => if (48 <=? c) && (c <=? 57) then atoi_loop s' (i32 (n * 10 + c - 48)) else n
  | [] => n
  end.
Definition atoi (s : list Z) : Z := atoi_loop s 0.

Section ulib.
Context `{O : OS} {G : Type}.

(** One turn of gets(), on the characters read so far; [max - 1] turns at most. *)
Definition gets_body (max : Z) (s : list Z) : M (uproc G) (list Z + list Z) :=
  if Z.of_nat (length s) + 1 <? max then
    r ← read 0 1;
    if r.1 <? 1 then mret (inr s) else
    let c := r.2 !!! 0%nat in
    let s' := s ++ [c] in
    if (c =? 10) || (c =? 13) then mret (inr s') else mret (inl s')
  else mret (inr s).
Definition gets_line (max : Z) : M (uproc G) (list Z) := while_fuel (S (Z.to_nat max)) (gets_body max) [].

Definition stat (n : list Z) : M (uproc G) (Z * list Z) :=
  fd ← open n O_RDONLY;
  if fd <? 0 then mret (-1, []) else
  r ← fstat fd;
  close fd ;;
  mret r.
End ulib.

(** ** printf.c *)

(** [digits[i]] *)
Definition digit (i : Z) : Z := if i <? 10 then 48 + i else 55 + i.

Fixpoint digits_loop (fuel : nat) (x base : Z) : list Z :=
  digit (x mod base) ::
  match fuel with
  | O => []
  | S fuel' => if x / base =? 0 then [] else digits_loop fuel' (x / base) base
  end.

Definition printint_buf (xx base sgn : Z) : list Z :=
  let neg := truthy sgn && (i32 xx <? 0) in
  let x := if neg then u32 (- xx) else u32 xx in
  digits_loop 31 x base ++ if neg then [45] else [].

Definition ptr_digit (x i : Z) : Z := digit (Z.shiftr (u64 (Z.shiftl x (4 * i))) 60).

(** An argument: an int, a uint64, a character or a string. *)
Inductive varg := A_int (n : Z) | A_long (n : Z) | A_char (c : Z) | A_str (s : option (list Z)).

Definition bytes_of (s : string) : list Z :=
  (λ c, Z.of_nat (Ascii.nat_of_ascii c)) <$> String.list_ascii_of_string s.

Section printf.
Context `{O : OS} {G : Type}.

Definition putc (fd c : Z) : M (uproc G) unit := write fd [u8 c] ;; mret tt.

Definition printint (fd xx base sgn : Z) : M (uproc G) unit :=
  for_each (reverse (printint_buf xx base sgn)) (putc fd).

Definition printptr (fd x : Z) : M (uproc G) unit :=
  putc fd 48 ;;
  putc fd 120 ;;
  for_each (Z.of_nat <$> seq 0 16) (λ i, putc fd (ptr_digit x i)).

(** The loop over the format, in the state 0 or after a '%'. *)
Fixpoint vprintf (fd : Z) (fmt : list Z) (percent : bool) (ap : list varg) : M (uproc G) unit :=
  match fmt with
  | [] => mret tt
  | c :: fmt' =>
      if negb percent then
        if c =? 37 then vprintf fd fmt' true ap
        else putc fd c ;; vprintf fd fmt' false ap
      else if c =? 100 then        (* 'd' *)
        match ap with
        | A_int n :: ap' => printint fd n 10 1 ;; vprintf fd fmt' false ap'
        | _ => stuck "va_arg"
        end
      else if c =? 108 then        (* 'l' *)
        match ap with
        | A_long n :: ap' => printint fd n 10 0 ;; vprintf fd fmt' false ap'
        | _ => stuck "va_arg"
        end
      else if c =? 120 then        (* 'x' *)
        match ap with
        | A_int n :: ap' => printint fd n 16 0 ;; vprintf fd fmt' false ap'
        | _ => stuck "va_arg"
        end
      else if c =? 112 then        (* 'p' *)
        match ap with
        | A_long n :: ap' => printptr fd n ;; vprintf fd fmt' false ap'
        | _ => stuck "va_arg"
        end
      else if c =? 115 then        (* 's' *)
        match ap with
        | A_str s :: ap' =>
            for_each (default (bytes_of "(null)") s) (putc fd) ;;
            vprintf fd fmt' false ap'
        | _ => stuck "va_arg"
        end
      else if c =? 99 then         (* 'c' *)
        match ap with
        | A_char x :: ap' => putc fd x ;; vprintf fd fmt' false ap'
        | _ => stuck "va_arg"
        end
      else if c =? 37 then putc fd c ;; vprintf fd fmt' false ap
      else
        (* Unknown % sequence.  Print it to draw attention. *)
        putc fd 37 ;; putc fd c ;; vprintf fd fmt' false ap
  end.

Definition fprintf (fd : Z) (fmt : list Z) (ap : list varg) : M (uproc G) unit := vprintf fd fmt false ap.
Definition printf (fmt : list Z) (ap : list varg) : M (uproc G) unit := vprintf 1 fmt false ap.
End printf.

(** The newline character. *)
Definition newline : list Z := [10].

(** [assert(condition)] of user.h. *)
Definition assert_that `{O : OS} {G} (text : list Z) (file : string) (line : Z) (c : bool) : M (uproc G) unit :=
  if c then mret tt else
  fprintf 2 (bytes_of "Assertion failed: %s, file %s, line %d" ++ newline)
    [A_str (Some text); A_str (Some (bytes_of file)); A_int line] ;;
  exit 134.
