(* ===== verification/UserSpec.v ===== *)
(** * Kernels as user programs see them

    What a program has read and written, and kernels that deliver a file. *)

From S2P Require Import Prelude KMonad User.

(** The bytes of the calls of a process: those delivered by reads from [fd]
    and those written to [fd]. *)
Definition delivered (fd : Z) (tr : list (call * answer)) : list Z :=
  tr ≫= λ e, match e.1 with Read f _ => if f =? fd then a_data e.2 else [] | _ => [] end.
Definition output (fd : Z) (tr : list (call * answer)) : list Z :=
  tr ≫= λ e, match e.1 with Write f bs => if f =? fd then bs else [] | _ => [] end.

(** Reads from [fd] deliver the bytes of [file] in order, in pieces of any
    size, and nothing once they are all delivered. *)
Definition reads_file `{O : OS} (fd : Z) (file : list Z) : Prop :=
  ∀ tr n rest, 0 < n → file = delivered fd tr ++ rest →
  if decide (rest = []) then os tr (Read fd n) = Answer 0 []
  else ∃ k, (0 < k ≤ Z.to_nat n)%nat ∧ (k ≤ length rest)%nat ∧ os tr (Read fd n) = Answer (Z.of_nat k) (take k rest).

(** Two traces that differ in what was written to standard output. *)
Definition wrote (out : list Z) (fd : Z) (tr tr' : list (call * answer)) : Prop :=
  output 1 tr' = output 1 tr ++ out ∧ delivered fd tr' = delivered fd tr.

Lemma wrote_nil fd tr : wrote [] fd tr tr.
Proof. split; [by rewrite app_nil_r|done]. Qed.

Lemma wrote_app o1 o2 fd t1 t2 t3 : wrote o1 fd t1 t2 → wrote o2 fd t2 t3 → wrote (o1 ++ o2) fd t1 t3.
Proof. intros [A1 A2] [B1 B2]. split; [by rewrite B1, A1, app_assoc|by rewrite B2]. Qed.

(** A kernel that delivers the file of descriptor 3 two bytes at a time. *)
Definition two_at_a_time (file : list Z) : OS := λ tr c,
  match c with
  | Read fd n =>
      let rest := drop (length (delivered fd tr)) file in
      let x := take (Nat.min 2 (Z.to_nat n)) rest in Answer (Z.of_nat (length x)) x
  | Write _ bs => Answer (Z.of_nat (length bs)) []
  | _ => Answer (-1) []
  end.

Lemma two_at_a_time_reads fd file : reads_file (O := two_at_a_time file) fd file.
Proof.
  intros tr n rest Hn Hf. unfold os, two_at_a_time. rewrite Hf, drop_app_length. case_decide as Hr; [by rewrite Hr, take_nil|].
  assert (length rest ≠ 0)%nat by (by destruct rest). exists (Nat.min (Nat.min 2 (Z.to_nat n)) (length rest)).
  rewrite length_take. split; [lia|]. split; [lia|]. f_equal.
  destruct (Nat.le_gt_cases (Nat.min 2 (Z.to_nat n)) (length rest)); [by rewrite (Nat.min_l (Nat.min _ _)) by lia|].
  rewrite (Nat.min_r (Nat.min _ _)), !take_ge by lia. done.
Qed.
