(* ===== verification/Grep.v ===== *)
(** * grep: grep.c

    The matcher and the loop over the lines of a file.  Pointers into [buf]
    are indices. *)

From S2P Require Import Prelude KMonad CString Bio User.

(** ** The matcher *)

(** matchstar: search for c*re at beginning of text; [here] is matchhere(re, .). *)
Fixpoint matchstar (here : list Z → bool) (c : Z) (text : list Z) : bool :=
  here text ||
  match text with
  | [] => false
  | t :: text' => ((t =? c) || (c =? 46)) && matchstar here c text'
  end.

(** matchhere: search for re at beginning of text *)
Fixpoint matchhere (re text : list Z) : bool :=
  match re with
  | [] => true
  | c :: re1 =>
      match re1 with
      | s :: re2 =>
          if s =? 42 then matchstar (matchhere re2) c text
          else match text with
               | t :: text' => ((c =? 46) || (c =? t)) && matchhere re1 text'
               | [] => false
               end
      | [] =>
          if c =? 36 then match text with [] => true | _ => false end
          else match text with
               | t :: text' => ((c =? 46) || (c =? t)) && matchhere re1 text'
               | [] => false
               end
      end
  end.

(** The loop of match(): matchhere() at every position. *)
Fixpoint match_from (re text : list Z) : bool :=
  matchhere re text || match text with [] => false | _ :: text' => match_from re text' end.

Definition match_ (re text : list Z) : bool :=
  match re with
  | c :: re' => if c =? 94 then matchhere re' text else match_from re text
  | [] => match_from re text
  end.

(** ** The program *)

Section grep.
Context `{O : OS}.

(** The variable [buf]. *)
Definition bufsize : Z := 1024.
#[local] Abbreviation G := (list Z).

(** The string at [buf + p]. *)
Definition cstr (buf : list Z) (p : Z) : list Z := until_nul (drop (Z.to_nat p) buf).

(** One turn of [while((q = strchr(p, '\n')) != 0)]. *)
Definition grep_line (pattern : list Z) (p : Z) : M (uproc G) (Z + Z) :=
  buf ← vars;
  match strchr (cstr buf p) 10 with
  | None => mret (inr p)
  | Some s =>
      let q := p + Z.of_nat (length (cstr buf p) - length s) in
      set_vars <[ Z.to_nat q := 0 ]> ;;
      buf ← vars;
      when (match_ pattern (cstr buf p))
        (set_vars <[ Z.to_nat q := 10 ]> ;;
         buf ← vars;
         write 1 (bytes_at buf p (q + 1 - p)) ;;
         mret tt) ;;
      mret (inl (q + 1))
  end.

(** One turn of the loop that reads the file, with [m] characters left over
    from before. *)
Definition grep_body (pattern : list Z) (fd m : Z) : M (uproc G) (Z + unit) :=
  r ← read fd (bufsize - m - 1);
  let n := r.1 in
  if 0 <? n then
    set_vars (λ buf, put_bytes buf m r.2) ;;
    let m := m + n in
    set_vars <[ Z.to_nat m := 0 ]> ;;
    p ← while_fuel (S (Z.to_nat bufsize)) (grep_line pattern) 0;
    if 0 <? m then
      let m := m - p in
      set_vars (λ buf, put_bytes buf 0 (bytes_at buf p m)) ;;
      mret (inl m)
    else mret (inl m)
  else mret (inr tt).

(** [fuel] bounds the number of reads. *)
Definition grep (fuel : nat) (pattern : list Z) (fd : Z) : M (uproc G) unit :=
  while_fuel fuel (grep_body pattern fd) 0.

Definition grep_main (fuel : nat) (argv : list (list Z)) : M (uproc G) unit :=
  match argv with
  | _ :: pattern :: files =>
      match files with
      | [] => grep fuel pattern 0 ;; exit 0
      | _ =>
          for_each files (λ f,
            fd ← open f O_RDONLY;
            if fd <? 0 then
              printf (bytes_of "grep: cannot open %s" ++ newline) [A_str (Some f)] ;;
              exit 1
            else
            grep fuel pattern fd ;;
            close fd ;;
            mret tt) ;;
          exit 0
      end
  | _ =>
      fprintf 2 (bytes_of "usage: grep pattern [file ...]" ++ newline) [] ;;
      exit 1
  end.
End grep.
