(* ===== verification/GrepSpec.v ===== *)
(** * Properties of grep *)

From S2P Require Import Prelude KMonad CString Bio User UserSpec Grep.

(** ** What a pattern means *)

(** A pattern is a sequence of items: a character, a character repeated, or
    the end of the line; '.' stands for any character. *)
Inductive item := One (c : Z) | Star (c : Z) | End.

Fixpoint items (re : list Z) : list item :=
  match re with
  | [] => []
  | c :: re1 =>
      match re1 with
      | s :: re2 => if s =? 42 then Star c :: items re2 else One c :: items re1
      | [] => if c =? 36 then [End] else One c :: items re1
      end
  end.

Definition accepts (c t : Z) : Prop := c = 46 ∨ c = t.

(** The items match a prefix of the text. *)
Fixpoint hits (l : list item) (text : list Z) : Prop :=
  match l with
  | [] => True
  | One c :: l' => ∃ t text', text = t :: text' ∧ accepts c t ∧ hits l' text'
  | Star c :: l' => ∃ s text', text = s ++ text' ∧ Forall (accepts c) s ∧ hits l' text'
  | End :: l' => text = [] ∧ hits l' text
  end.

(** The pattern matches somewhere in the text, or at its start after '^'. *)
Definition matches (re text : list Z) : Prop :=
  if decide (head re = Some 94) then hits (items (tail re)) text
  else ∃ s text', text = s ++ text' ∧ hits (items re) text'.

Lemma accepts_true c t : (c =? 46) || (c =? t) = true ↔ accepts c t.
Proof. unfold accepts. rewrite orb_true_iff, !Z.eqb_eq. done. Qed.

Lemma matchstar_spec (here : list Z → bool) (P : list Z → Prop) c text :
  (∀ t, here t = true ↔ P t) →
  matchstar here c text = true ↔ ∃ s text', text = s ++ text' ∧ Forall (accepts c) s ∧ P text'.
Proof.
  intros Hh. induction text as [|t text IH]; cbn [matchstar]; rewrite orb_true_iff, Hh.
  - split; [intros [H|H]; [by exists [], []|done]|]. intros (s & text' & E & _ & H).
    symmetry in E. apply app_eq_nil in E as [-> ->]. by left.
  - rewrite andb_true_iff, (orb_comm (t =? c)), (Z.eqb_sym t c), accepts_true, IH. split.
    + intros [H|[Ha (s & text' & -> & Hs & H)]]; [by exists [], (t :: text)|].
      exists (t :: s), text'. split; [done|]. split; [by constructor|done].
    + intros ([|x s] & text' & E & Hs & H); cbn in E; [left; by subst|]. injection E as -> ->.
      inversion Hs; subst. right. split; [done|]. by exists s, text'.
Qed.

Lemma one_spec c re1 text (P : list Z → Prop) :
  (∀ t, matchhere re1 t = true ↔ P t) →
  match text with t :: text' => ((c =? 46) || (c =? t)) && matchhere re1 text' | [] => false end = true ↔
  ∃ t text', text = t :: text' ∧ accepts c t ∧ P text'.
Proof.
  intros HP. destruct text as [|t text]; [split; [done|]; by intros (? & ? & ? & _)|].
  rewrite andb_true_iff, accepts_true, HP. split; [intros [? ?]; by exists t, text|]. by intros (? & ? & [= <- <-] & ? & ?).
Qed.

Lemma matchhere_spec re text : matchhere re text = true ↔ hits (items re) text.
Proof.
  remember (length re) as n eqn:Hn. assert (Hle : (length re ≤ n)%nat) by lia. clear Hn. revert re text Hle.
  induction n as [|n IH]; intros [|c re1] text Hle; try (cbn in Hle; lia); try (cbn; done).
  cbn [matchhere items]. destruct re1 as [|s re2].
  - destruct (Z.eqb_spec c 36); [cbn; destruct text; split; try done; by intros [? _]|].
    cbn [hits items]. apply one_spec. intros t. cbn. done.
  - destruct (Z.eqb_spec s 42); cbn [hits].
    + apply matchstar_spec. intros t. apply IH. cbn in Hle. lia.
    + apply one_spec. intros t. apply IH. cbn in Hle |- *. lia.
Qed.

Lemma match_from_spec re text : match_from re text = true ↔ ∃ s text', text = s ++ text' ∧ hits (items re) text'.
Proof.
  induction text as [|t text IH]; cbn [match_from]; rewrite orb_true_iff, matchhere_spec.
  - split; [intros [H|H]; [by exists [], []|done]|]. intros (s & text' & E & H). symmetry in E.
    apply app_eq_nil in E as [-> ->]. by left.
  - rewrite IH. split.
    + intros [H|(s & text' & -> & H)]; [by exists [], (t :: text)|by exists (t :: s), text'].
    + intros ([|x s] & text' & E & H); cbn in E; [left; by subst|]. injection E as -> ->. right. by exists s, text'.
Qed.

(** C19: the matcher of grep decides whether a pattern matches a line: a
    character matches itself, '.' any character, an item followed by '*' any
    number of repetitions, a final '$' the end of the line only, and a
    pattern that starts with '^' has to match at the start of the line. *)
Theorem match_decides re text : match_ re text = true ↔ matches re text.
Proof.
  unfold match_, matches. destruct re as [|c re]; [apply match_from_spec|]. cbn [head tail].
  destruct (Z.eqb_spec c 94) as [->|Hne]; [rewrite decide_True by done; apply matchhere_spec|].
  rewrite decide_False by congruence. apply match_from_spec.
Qed.

(** ** The lines of a file *)

(** The complete lines of a text that continues the line [cur], and the
    beginning of the line it ends in. *)
Fixpoint lines_from (cur text : list Z) : list (list Z) * list Z :=
  match text with
  | [] => ([], cur)
  | c :: text' =>
      if c =? 10 then let '(ls, t) := lines_from [] text' in (cur :: ls, t)
      else lines_from (cur ++ [c]) text'
  end.
Definition lines (text : list Z) : list (list Z) := (lines_from [] text).1.
Definition last_line (text : list Z) : list Z := (lines_from [] text).2.

Lemma lines_from_app cur a b :
  lines_from cur (a ++ b) =
  ((lines_from cur a).1 ++ (lines_from (lines_from cur a).2 b).1, (lines_from (lines_from cur a).2 b).2).
Proof.
  revert cur. induction a as [|c a IH]; intros cur; cbn [lines_from app fst snd]; [by destruct (lines_from cur b)|].
  destruct (c =? 10); [|apply IH]. rewrite IH. by destruct (lines_from [] a) as [ls t].
Qed.

Lemma lines_from_plain cur l : Forall (λ c, c ≠ 10) l → lines_from cur l = ([], cur ++ l).
Proof.
  intros H. revert cur. induction H as [|c l Hc _ IH]; intros cur; cbn; [by rewrite app_nil_r|].
  destruct (Z.eqb_spec c 10); [done|]. rewrite IH. by rewrite <- app_assoc.
Qed.

Lemma last_line_plain cur text : Forall (λ c, c ≠ 10) cur → Forall (λ c, c ≠ 10) (lines_from cur text).2.
Proof.
  revert cur. induction text as [|c text IH]; intros cur Hc; cbn; [done|]. destruct (Z.eqb_spec c 10).
  - specialize (IH [] (Forall_nil_2 _)). by destruct (lines_from [] text).
  - apply IH. apply Forall_app. by split; [|constructor].
Qed.

Lemma last_line_forall (P : Z → Prop) cur text : Forall P cur → Forall P text → Forall P (lines_from cur text).2.
Proof.
  intros Hc Ht. revert cur Hc. induction Ht as [|c text Hx _ IH]; intros cur Hc; cbn; [done|]. destruct (c =? 10).
  - specialize (IH [] (Forall_nil_2 _)). by destruct (lines_from [] text).
  - apply IH. apply Forall_app. by split; [|constructor].
Qed.

(** What grep prints for some lines. *)
Definition printed (re : list Z) (ls : list (list Z)) : list Z := filter (λ l, match_ re l = true) ls ≫= λ l, l ++ [10].

Lemma printed_app re l1 l2 : printed re (l1 ++ l2) = printed re l1 ++ printed re l2.
Proof. unfold printed. by rewrite filter_app, bind_app. Qed.

Section grep_runs.
Context `{O : OS}.
#[local] Abbreviation st := (uproc (list Z)).

Lemma cstr_at pre l rest : Forall (λ c, c ≠ 0) l → cstr (pre ++ l ++ 0 :: rest) (Z.of_nat (length pre)) = l.
Proof. intros H. unfold cstr. rewrite Nat2Z.id, drop_app_length. by apply until_nul_app. Qed.

Lemma strchr_at l c rest : Forall (λ x, x ≠ c) l → strchr (l ++ c :: rest) c = Some (c :: rest).
Proof. induction 1 as [|x l Hx _ IH]; cbn; [by rewrite Z.eqb_refl|]. by destruct (Z.eqb_spec x c). Qed.

Lemma strchr_none l c : Forall (λ x, x ≠ c) l → strchr l c = None.
Proof. induction 1 as [|x l Hx _ IH]; cbn; [done|]. by destruct (Z.eqb_spec x c). Qed.

(** One line. *)
Lemma grep_line_run fd re pre l text post tr ks :
  Forall (λ c, c ≠ 0 ∧ c ≠ 10) l → Forall (λ c, c ≠ 0) text →
  let buf x := (pre ++ l) ++ x :: text ++ 0 :: post in
  ∃ x tr', grep_line re (Z.of_nat (length pre)) ks (Uproc tr (buf 10)) =
    Ok (inl (Z.of_nat (length pre) + Z.of_nat (length l) + 1)) ks (Uproc tr' (buf x)) ∧
    wrote (printed re [l]) fd tr tr'.
Proof.
  intros Hl Ht buf. assert (Hl0 : Forall (λ c, c ≠ 0) l) by (eapply Forall_impl; [exact Hl|by intros ? []]).
  assert (Hl10 : Forall (λ c, c ≠ 10) l) by (eapply Forall_impl; [exact Hl|by intros ? []]).
  assert (Hc : cstr (buf 10) (Z.of_nat (length pre)) = l ++ 10 :: text).
  { unfold buf. rewrite <- app_assoc. change (l ++ 10 :: text ++ 0 :: post) with (l ++ (10 :: text) ++ 0 :: post).
    rewrite (app_assoc l). apply cstr_at. apply Forall_app. split; [done|]. by constructor. }
  unfold grep_line. rewrite bind_run. unfold vars at 1. cbn [gets u_vars]. rewrite Hc, strchr_at by done.
  set (q := Z.of_nat (length pre) + _). assert (Hq : Z.to_nat q = length (pre ++ l)).
  { unfold q. rewrite !length_app. cbn. lia. }
  assert (Hset : ∀ x y, <[ Z.to_nat q := y ]> (buf x) = buf y).
  { intros x y. unfold buf. rewrite Hq, insert_app_r_alt by lia. by rewrite Nat.sub_diag. }
  rewrite bind_run. unfold set_vars at 1. cbn [modify u_trace u_vars]. rewrite Hset, bind_run. unfold vars at 1. cbn [gets u_vars].
  assert (Hc0 : cstr (buf 0) (Z.of_nat (length pre)) = l) by (unfold buf; rewrite <- app_assoc; by apply cstr_at).
  rewrite Hc0, bind_run. assert (Hq1 : q + 1 = Z.of_nat (length pre) + Z.of_nat (length l) + 1) by (rewrite length_app in Hq; lia).
  rewrite Hq1. unfold printed. destruct (match_ re l) eqn:Em; cbn [when].
  - rewrite bind_run. unfold set_vars. cbn [modify u_trace u_vars]. rewrite Hset, bind_run. unfold vars. cbn [gets u_vars].
    rewrite bind_run. unfold write, sys. rewrite bind_run. cbn [u_trace u_vars]. eexists 10, _. split; [reflexivity|].
    split.
    + unfold output. rewrite bind_app. cbn [fst snd]. rewrite filter_cons_True by done. rewrite filter_nil. cbn.
      rewrite !app_nil_r. f_equal. unfold bytes_at, buf. rewrite <- Hq1, Nat2Z.id, <- app_assoc, drop_app_length.
      replace (Z.to_nat (q + 1 - Z.of_nat (length pre))) with (length (l ++ [10])) by (rewrite length_app in *; cbn; lia).
      rewrite (app_assoc l [10] _ : l ++ 10 :: text ++ 0 :: post = (l ++ [10]) ++ text ++ 0 :: post). by rewrite take_app_length.
    + unfold delivered. rewrite bind_app. cbn. by rewrite app_nil_r.
  - eexists 0, tr. split; [reflexivity|]. rewrite filter_cons_False by congruence. rewrite filter_nil. apply wrote_nil.
Qed.

(** A text has no newline, or a first line. *)
Lemma first_line text : Forall (λ c, c ≠ 10) text ∨ ∃ l text', text = l ++ 10 :: text' ∧ Forall (λ c, c ≠ 10) l.
Proof.
  induction text as [|c text [IH|(l & text' & -> & IH)]]; [by left| |].
  - destruct (decide (c = 10)) as [->|]; [right; by exists [], text|left; by constructor].
  - right. destruct (decide (c = 10)) as [->|]; [by exists [], (l ++ 10 :: text')|].
    exists (c :: l), text'. split; [done|by constructor].
Qed.

Lemma lines_from_first cur l text : Forall (λ c, c ≠ 10) l →
  lines_from cur (l ++ 10 :: text) = ((cur ++ l) :: lines text, last_line text).
Proof.
  intros H. rewrite lines_from_app, lines_from_plain by done. cbn. unfold lines, last_line. by destruct (lines_from [] text).
Qed.

(** All complete lines of the buffer. *)
Lemma grep_lines_run fd re post ks text : ∀ fuel pre tr,
  Forall (λ c, c ≠ 0) text → (length text < fuel)%nat →
  ∃ pre' tr', while_fuel fuel (grep_line re) (Z.of_nat (length pre)) ks (Uproc tr (pre ++ text ++ 0 :: post)) =
    Ok (Z.of_nat (length pre')) ks (Uproc tr' (pre' ++ last_line text ++ 0 :: post)) ∧
    wrote (printed re (lines text)) fd tr tr' ∧ (length pre' + length (last_line text) = length pre + length text)%nat.
Proof.
  remember (length text) as n eqn:Hn. revert text Hn. induction (lt_wf n) as [n _ IH]. intros text -> fuel pre tr H0 Hf.
  destruct fuel as [|fuel]; [lia|]. cbn [while_fuel]. rewrite bind_run.
  destruct (first_line text) as [Hp|(l & text' & -> & Hl)].
  - exists pre, tr. unfold last_line, lines. rewrite lines_from_plain by done. cbn [fst snd app]. split; [|split; [apply wrote_nil|lia]].
    unfold grep_line. rewrite bind_run. unfold vars. cbn [gets u_vars]. rewrite cstr_at, strchr_none by done. done.
  - apply Forall_app in H0 as [Hl0 Ht0]. apply Forall_cons in Ht0 as [_ Ht0].
    assert (Hb : ∀ x, (pre ++ l) ++ x :: text' ++ 0 :: post = pre ++ (l ++ x :: text') ++ 0 :: post) by (intros; by rewrite <- !app_assoc).
    destruct (grep_line_run fd re pre l text' post tr ks) as (x & tr1 & E1 & W1); [by apply Forall_and|done|].
    rewrite (Hb 10) in E1. rewrite E1. clear E1. rewrite (Hb x).
    cbn [length] in *. rewrite length_app in *. cbn [length] in *.
    destruct (IH (length text') ltac:(lia) text' eq_refl fuel (pre ++ l ++ [x]) tr1 Ht0 ltac:(lia)) as (pre' & tr' & E & W & L).
    exists pre', tr'. unfold last_line, lines. rewrite lines_from_first by done. cbn [fst snd app].
    rewrite !length_app in *. cbn [length] in *. split; [|split; [|lia]].
    + rewrite <- !app_assoc in E |- *. cbn [app] in *. rewrite <- E. f_equal; [lia|]. by rewrite <- !app_assoc.
    + change (l :: lines text') with ([l] ++ lines text'). rewrite printed_app. by eapply wrote_app.
Qed.

(** A line of the buffer is no longer than the line of the file it starts. *)
Lemma lines_from_cur N cur text :
  Forall (λ l, length l ≤ N)%nat (lines_from cur text).1 → (length (lines_from cur text).2 ≤ N)%nat → (length cur ≤ N)%nat.
Proof.
  revert cur. induction text as [|c text IH]; intros cur; cbn; [done|]. destruct (c =? 10).
  - destruct (lines_from [] text) as [ls t]. cbn. by inversion 1.
  - intros H1 H2. specialize (IH _ H1 H2). rewrite length_app in IH. lia.
Qed.

(** Lines that fit in the buffer with their newline and a NUL. *)
Definition fits (file : list Z) : Prop :=
  Forall (λ l, Z.of_nat (length l) ≤ bufsize - 2) (lines file) ∧ Z.of_nat (length (last_line file)) ≤ bufsize - 2.

Lemma fits_prefix a b : fits (a ++ b) → Z.of_nat (length (last_line a)) ≤ bufsize - 2.
Proof.
  intros [H1 H2]. unfold lines, last_line in *. rewrite lines_from_app in H1, H2. cbn [fst snd] in *.
  apply Forall_app in H1 as [_ H1]. assert (length (lines_from [] a).2 ≤ Z.to_nat (bufsize - 2))%nat; [|unfold bufsize in *; lia].
  eapply lines_from_cur; [eapply Forall_impl; [exact H1|cbn; intros; unfold bufsize in *; lia]|unfold bufsize in *; lia].
Qed.

(** The buffer between two reads: it starts with the unfinished line of what
    has been read. *)
Definition holds (buf seen : list Z) : Prop :=
  length buf = Z.to_nat bufsize ∧ ∃ post, buf = last_line seen ++ post.

Lemma fill_buffer seen post x :
  length (last_line seen ++ post) = Z.to_nat bufsize →
  Z.of_nat (length (last_line seen) + length x) ≤ bufsize - 1 →
  ∃ post', <[ (length (last_line seen) + length x)%nat := 0 ]> (put_bytes (last_line seen ++ post) (Z.of_nat (length (last_line seen))) x) =
    (last_line seen ++ x) ++ 0 :: post'.
Proof.
  intros Hb Hx. set (a := last_line seen) in *. rewrite length_app in Hb.
  assert (E : put_bytes (a ++ post) (Z.of_nat (length a)) x = a ++ put_bytes post 0 x).
  { unfold put_bytes. rewrite Nat2Z.id. replace (length a) with (length a + 0)%nat at 1 by lia. by rewrite list_inserts_app_r. }
  rewrite E, put_bytes_front, app_assoc by (unfold bufsize in *; lia).
  rewrite <- length_app, insert_app_r_alt, Nat.sub_diag by lia.
  destruct (drop (length x) post) as [|y post'] eqn:Ed; [|by exists post'].
  apply (f_equal length) in Ed. rewrite length_drop in Ed. cbn in Ed. unfold bufsize in *. lia.
Qed.

Lemma last_line_app a x : last_line (last_line a ++ x) = last_line (a ++ x) ∧ lines (a ++ x) = lines a ++ lines (last_line a ++ x).
Proof.
  unfold last_line, lines. rewrite !lines_from_app. cbn [fst snd].
  rewrite (lines_from_plain [] (lines_from [] a).2) by (apply last_line_plain; constructor). done.
Qed.

Lemma keep_rest pre a post :
  length (pre ++ a ++ post) = Z.to_nat bufsize →
  ∃ post', put_bytes (pre ++ a ++ post) 0 (bytes_at (pre ++ a ++ post) (Z.of_nat (length pre)) (Z.of_nat (length a))) = a ++ post' ∧
    length (a ++ post') = Z.to_nat bufsize.
Proof.
  intros Hb. unfold bytes_at. rewrite !Nat2Z.id, drop_app_length, take_app_length. rewrite put_bytes_front by (rewrite !length_app; lia).
  eexists. split; [done|]. rewrite !length_app, length_drop, !length_app in *. lia.
Qed.

(** One read, and the lines it completes. *)
Lemma grep_body_run file fd re seen rest tr buf ks :
  reads_file fd file → file = seen ++ rest → delivered fd tr = seen → Forall (λ c, c ≠ 0) file → fits file → holds buf seen →
  let m := Z.of_nat (length (last_line seen)) in
  if decide (rest = []) then
    ∃ tr', grep_body re fd m ks (Uproc tr buf) = Ok (inr tt) ks (Uproc tr' buf) ∧ output 1 tr' = output 1 tr
  else ∃ x rest' tr' buf', rest = x ++ rest' ∧ x ≠ [] ∧
    grep_body re fd m ks (Uproc tr buf) = Ok (inl (Z.of_nat (length (last_line (seen ++ x))))) ks (Uproc tr' buf') ∧
    delivered fd tr' = seen ++ x ∧ holds buf' (seen ++ x) ∧
    ∃ out, output 1 tr' = output 1 tr ++ out ∧ printed re (lines (seen ++ x)) = printed re (lines seen) ++ out.
Proof.
  intros Hos -> Hd H0 Hfit [Hlen [post ->]] m. pose proof (fits_prefix _ _ Hfit) as Hm. fold m in Hm.
  specialize (Hos tr (bufsize - m - 1) rest ltac:(unfold bufsize in *; lia) ltac:(by rewrite Hd)).
  unfold grep_body. rewrite bind_run. unfold read, sys. rewrite bind_run. cbn [u_trace u_vars].
  case_decide as Hr.
  { rewrite Hos. cbn [ret_run mret]. eexists. split; [reflexivity|]. unfold output. rewrite bind_app. cbn. by rewrite app_nil_r. }
  destruct Hos as (k & Hk & Hkr & ->). set (x := take k rest). assert (Hx : length x = k) by (unfold x; rewrite length_take; lia).
  exists x, (drop k rest). cbn [a_ret a_data].
  set (tr1 := tr ++ _). rewrite ret_run. cbn [fst snd]. destruct (Z.ltb_spec 0 (Z.of_nat k)); [|lia].
  rewrite bind_run. unfold set_vars at 1. cbn [modify u_trace u_vars]. rewrite bind_run. unfold set_vars at 1. cbn [modify u_trace u_vars].
  destruct (fill_buffer seen post x) as [post1 Eb]; [done|unfold m, bufsize in *; lia|].
  replace (Z.to_nat (m + Z.of_nat k)) with (length (last_line seen) + length x)%nat by (unfold m; lia).
  fold m in Eb. rewrite Eb, bind_run.
  assert (Hb1 : length ((last_line seen ++ x) ++ 0 :: post1) = Z.to_nat bufsize).
  { rewrite <- Eb, length_insert, put_bytes_length. done. }
  destruct (last_line_app seen x) as [El Es].
  destruct (grep_lines_run fd re post1 ks (last_line seen ++ x) (S (Z.to_nat bufsize)) [] tr1) as (pre & tr' & E & [W1 W2] & L).
  { apply Forall_app in H0 as [H0a H0b]. apply Forall_app. split; [apply last_line_forall; [constructor|done]|by apply Forall_take]. }
  { rewrite length_app in Hb1. lia. }
  cbn [app length] in E. change (Z.of_nat 0) with 0 in E. rewrite E, El. rewrite El in L, E. cbn [length] in L.
  destruct (Z.ltb_spec 0 (m + Z.of_nat k)); [|lia]. rewrite bind_run. unfold set_vars. cbn [modify u_trace u_vars].
  replace (m + Z.of_nat k - Z.of_nat (length pre)) with (Z.of_nat (length (last_line (seen ++ x)))) by (rewrite length_app in L; unfold m; lia).
  destruct (keep_rest pre (last_line (seen ++ x)) (0 :: post1)) as (post2 & -> & Hb2).
  { rewrite !length_app in *. lia. }
  eexists tr', _. split; [unfold x; by rewrite take_drop|]. split; [intros E0; rewrite E0 in Hx; cbn in Hx; lia|]. split; [done|].
  split; [|split; [split; [exact Hb2|by eexists]|]].
  - rewrite W2. unfold tr1, delivered. rewrite bind_app. fold (delivered fd tr). rewrite Hd. cbn. by rewrite Z.eqb_refl, app_nil_r.
  - exists (printed re (lines (last_line seen ++ x))). rewrite W1, Es, printed_app. split; [|done]. f_equal.
    unfold tr1, output. rewrite bind_app. cbn. by rewrite app_nil_r.
Qed.

Lemma grep_loop_run file fd re ks : reads_file fd file → Forall (λ c, c ≠ 0) file → fits file →
  ∀ rest fuel seen tr buf, file = seen ++ rest → delivered fd tr = seen → holds buf seen → (length rest < fuel)%nat →
  ∃ tr' buf' out, while_fuel fuel (grep_body re fd) (Z.of_nat (length (last_line seen))) ks (Uproc tr buf) = Ok tt ks (Uproc tr' buf') ∧
    output 1 tr' = output 1 tr ++ out ∧ printed re (lines file) = printed re (lines seen) ++ out.
Proof.
  intros Hos H0 Hfit rest. remember (length rest) as n eqn:Hn. revert rest Hn.
  induction (lt_wf n) as [n _ IH]. intros rest -> fuel seen tr buf Hs Hd Hb Hf. destruct fuel as [|fuel]; [lia|].
  cbn [while_fuel]. rewrite bind_run.
  pose proof (grep_body_run file fd re seen rest tr buf ks Hos Hs Hd H0 Hfit Hb) as H. cbn zeta in H. case_decide as Hr.
  - destruct H as (tr' & -> & Ho). exists tr', buf, []. rewrite Ho, !app_nil_r. subst rest. rewrite app_nil_r in Hs. by subst.
  - destruct H as (x & rest' & tr1 & buf1 & -> & Hx & -> & Hd1 & Hb1 & out1 & Ho1 & Hp1).
    assert (length x ≠ 0)%nat by (by destruct x). rewrite length_app in *.
    destruct (IH (length rest') ltac:(lia) rest' eq_refl fuel (seen ++ x) tr1 buf1) as (tr' & buf' & out & E & Ho & Hp);
      [by rewrite <- app_assoc|done|done|lia|].
    exists tr', buf', (out1 ++ out). split; [exact E|]. rewrite Ho, Ho1, Hp, Hp1. by rewrite <- !app_assoc.
Qed.

(** C18: grep prints the lines of its input that match, whole and in order,
    and ends.  The kernel may deliver the input in pieces of any sizes: lines
    split between two reads are put together.  The input has no NUL, its
    lines fit in the buffer with their newline and the NUL that ends the
    buffer, and [fuel] reads are enough when there are more than characters.
    What follows the last newline is not printed, whether it matches or not. *)
Theorem grep_prints file fd re fuel tr buf ks :
  reads_file fd file → delivered fd tr = [] → Forall (λ c, c ≠ 0) file → fits file →
  length buf = Z.to_nat bufsize → (length file < fuel)%nat →
  ∃ tr' buf', grep fuel re fd ks (Uproc tr buf) = Ok tt ks (Uproc tr' buf') ∧
    output 1 tr' = output 1 tr ++ printed re (lines file).
Proof.
  intros Hos Hd H0 Hfit Hb Hf.
  destruct (grep_loop_run file fd re ks Hos H0 Hfit file fuel [] tr buf) as (tr' & buf' & out & E & Ho & Hp); try done.
  { split; [done|by exists buf]. }
  exists tr', buf'. split; [exact E|]. rewrite Ho, Hp. done.
Qed.
End grep_runs.

Lemma grep_prints_witness :
  let file := bytes_of "one" ++ [10] ++ bytes_of "two" ++ [10] ++ bytes_of "one more" ++ [10] in
  ∃ tr' buf', grep (O := two_at_a_time file) 20 (bytes_of "^o.e") 3 [] (Uproc [] (replicate 1024 0)) = Ok tt [] (Uproc tr' buf') ∧
    output 1 tr' = bytes_of "one" ++ [10] ++ bytes_of "one more" ++ [10].
Proof.
  intros file. destruct (grep_prints (O := two_at_a_time file) file 3 (bytes_of "^o.e") 20 [] (replicate 1024 0) []) as (tr' & buf' & E & Ho).
  - apply two_at_a_time_reads.
  - reflexivity.
  - by apply (bool_decide_unpack (Forall (λ c, c ≠ 0) file)).
  - split; [by apply (bool_decide_unpack _)|]. vm_compute. discriminate.
  - reflexivity.
  - vm_compute. lia.
  - exists tr', buf'. split; [exact E|]. rewrite Ho. reflexivity.
Defined.
