(* ===== verification/Umalloc.v ===== *)
(** * The memory allocator of user programs: umalloc.c

    The heap is byte memory.  A block starts with a header: the pointer of the
    free list in its first 8 bytes and the size, in units of headers, in the 4
    bytes after them. *)

From S2P Require Import Prelude KMonad Memory User.

(** sizeof(Header) *)
Definition header_size : Z := 16.

(** Memory, and the variable [freep]. *)
Record heap := Heap { h_mem : memory; h_freep : Z }.

Section umalloc.
Context `{O : OS}.
(** The address of the variable [base]. *)
Context (base : Z).
#[local] Abbreviation U := (M (uproc heap)).

(** p->s.ptr and p->s.size *)
Definition s_ptr (m : memory) (p : Z) : Z := load64 m p.
Definition s_size (m : memory) (p : Z) : Z := load32 m (p + 8).
Definition get_ptr (p : Z) : U Z := h ← vars; mret (s_ptr (h_mem h) p).
Definition get_size (p : Z) : U Z := h ← vars; mret (s_size (h_mem h) p).
Definition set_ptr (p v : Z) : U unit := set_vars (λ h, Heap (store64 (h_mem h) p v) (h_freep h)).
Definition set_size (p v : Z) : U unit := set_vars (λ h, Heap (store32 (h_mem h) (p + 8) (u32 v)) (h_freep h)).
Definition get_freep : U Z := h ← vars; mret (h_freep h).
Definition set_freep (p : Z) : U unit := set_vars (λ h, Heap (h_mem h) p).

(** p + n, for a Header *p *)
Definition plus_headers (p n : Z) : Z := u64 (p + header_size * n).

(** The loop of free() that finds the place of [bp] in the list. *)
Definition free_body (bp p : Z) : U (Z + Z) :=
  nx ← get_ptr p;
  if (p <? bp) && (bp <? nx) then mret (inr p) else
  if (nx <=? p) && ((p <? bp) || (bp <? nx)) then mret (inr p) else
  mret (inl nx).

Definition free (fuel : nat) (ap : Z) : U unit :=
  let bp := plus_headers ap (-1) in
  freep ← get_freep;
  p ← while_fuel fuel (free_body bp) freep;
  nx ← get_ptr p;
  bsize ← get_size bp;
  (if plus_headers bp bsize =? nx then
     nsize ← get_size nx;
     set_size bp (bsize + nsize) ;;
     nx ← get_ptr p;
     nnx ← get_ptr nx;
     set_ptr bp nnx
   else set_ptr bp nx) ;;
  psize ← get_size p;
  (if plus_headers p psize =? bp then
     bsize ← get_size bp;
     set_size p (psize + bsize) ;;
     bnx ← get_ptr bp;
     set_ptr p bnx
   else set_ptr p bp) ;;
  set_freep p.

Definition morecore (fuel : nat) (nu : Z) : U Z :=
  let nu := if nu <? 4096 then 4096 else nu in
  p ← sbrk (i32 (nu * header_size));
  if p =? -1 then mret 0 else
  set_size p nu ;;
  free fuel (plus_headers p 1) ;;
  get_freep.

(** The loop of malloc(), over [prevp] and [p]. *)
Definition malloc_body (fuel : nat) (nunits : Z) (pp : Z * Z) : U ((Z * Z) + Z) :=
  let (prevp, p) := pp in
  size ← get_size p;
  if nunits <=? size then
    if size =? nunits then
      nx ← get_ptr p;
      set_ptr prevp nx ;;
      set_freep prevp ;;
      mret (inr (plus_headers p 1))
    else
      set_size p (size - nunits) ;;
      size ← get_size p;
      let p := plus_headers p size in
      set_size p nunits ;;
      set_freep prevp ;;
      mret (inr (plus_headers p 1))
  else
  freep ← get_freep;
  if p =? freep then
    p ← morecore fuel nunits;
    if p =? 0 then mret (inr 0) else
    nx ← get_ptr p;
    mret (inl (p, nx))
  else
  nx ← get_ptr p;
  mret (inl (p, nx)).

Definition units_of (nbytes : Z) : Z := u32 ((nbytes + header_size - 1) / header_size + 1).

(** [fuel] bounds the turns of each loop. *)
Definition malloc (fuel : nat) (nbytes : Z) : U Z :=
  let nunits := units_of nbytes in
  freep ← get_freep;
  prevp ← (if freep =? 0 then
             set_freep base ;;
             set_ptr base base ;;
             set_size base 0 ;;
             mret base
           else mret freep);
  nx ← get_ptr prevp;
  while_fuel fuel (malloc_body fuel nunits) (prevp, nx).
End umalloc.
