(* ===== verification/UmallocSpec.v ===== *)
(** * Properties of malloc() and free() *)

From S2P Require Import Prelude KMonad Memory User Umalloc.

(** A block: the address of its header and its size in headers. *)
#[local] Abbreviation block := (Z * Z)%type.

(** The address after a block. *)
Definition block_end (b : block) : Z := b.1 + header_size * b.2.
Definition apart (b c : block) : Prop := block_end b ≤ c.1 ∨ block_end c ≤ b.1.

Fixpoint all_apart (l : list block) : Prop :=
  match l with
  | [] => True
  | b :: l' => Forall (apart b) l' ∧ all_apart l'
  end.

(** In address order after [lo], none adjacent to the one before. *)
Fixpoint ordered (lo : Z) (l : list block) : Prop :=
  match l with
  | [] => True
  | b :: l' => lo < b.1 ∧ 0 < b.2 ∧ ordered (block_end b) l'
  end.

(** The blocks found from [a] by following the pointers. *)
Fixpoint path (m : memory) (a : Z) (l : list block) : Prop :=
  match l with
  | [] => True
  | b :: l' => s_ptr m a = b.1 ∧ s_size m b.1 = b.2 ∧ path m b.1 l'
  end.

Definition last_addr (a : Z) (l : list block) : Z := default a (fst <$> last l).

Lemma path_app m a l1 l2 : path m a (l1 ++ l2) ↔ path m a l1 ∧ path m (last_addr a l1) l2.
Proof.
  revert a. induction l1 as [|b l1 IH]; intros a; cbn [path app]; [unfold last_addr; cbn; naive_solver|].
  rewrite IH. assert (last_addr a (b :: l1) = last_addr b.1 l1) as ->; [|naive_solver].
  unfold last_addr. by destruct l1 as [|c l1]; [|rewrite (last_cons_cons b c)]; [|destruct (last (c :: l1)) eqn:E; [|apply last_None in E]].
Qed.

Lemma last_addr_snoc a l b : last_addr a (l ++ [b]) = b.1.
Proof. unfold last_addr. by rewrite last_snoc. Qed.

Lemma last_addr_cases a l : (l = [] ∧ last_addr a l = a) ∨ ∃ l' b, l = l' ++ [b] ∧ last_addr a l = b.1.
Proof. destruct l as [|b l' _] using rev_ind; [by left|right]. exists l', b. by rewrite last_addr_snoc. Qed.

(** The addresses whose pointers are followed. *)
Fixpoint followed (a : Z) (l : list block) : list Z :=
  match l with
  | [] => []
  | b :: l' => a :: followed b.1 l'
  end.

Lemma followed_in a l x : x ∈ followed a l → x = a ∨ x ∈ l.*1.
Proof.
  revert a. induction l as [|b l IH]; intros a; cbn; [by intros ?%elem_of_nil|].
  intros [->|H]%elem_of_cons; [by left|]. right. apply IH in H as [->|H]; set_solver.
Qed.

Lemma path_frame m m' a l :
  (∀ x, x ∈ followed a l → s_ptr m' x = s_ptr m x) → (∀ b, b ∈ l → s_size m' b.1 = s_size m b.1) → path m a l → path m' a l.
Proof.
  revert a. induction l as [|b l IH]; intros a Hp Hs; cbn [path followed] in *; [done|].
  intros (E1 & E2 & H). rewrite Hp, Hs by set_solver. split; [done|]. split; [done|].
  apply IH; [|set_solver|done]. intros x Hx. apply Hp. set_solver.
Qed.

(** The bytes of the header at [p] are the same. *)
Definition agree (m m' : memory) (p : Z) : Prop := ∀ x, p ≤ x < p + header_size → m' x = m x.

Lemma agree_ptr m m' p : agree m m' p → s_ptr m' p = s_ptr m p.
Proof. intros H. apply load64_ext. intros x Hx. apply H. unfold header_size. lia. Qed.
Lemma agree_size m m' p : agree m m' p → s_size m' p = s_size m p.
Proof. intros H. apply load32_ext. intros x Hx. apply H. unfold header_size. lia. Qed.

Lemma path_agree m m' a l : agree m m' a → (∀ b, b ∈ l → agree m m' b.1) → path m a l → path m' a l.
Proof.
  intros Ha Hl. apply path_frame; [|intros b Hb; by apply agree_size, Hl].
  intros x [->|(b & -> & Hb)%list_elem_of_fmap]%followed_in; by apply agree_ptr; auto.
Qed.

(** ** Blocks apart *)

Lemma apart_sym b c : apart b c → apart c b.
Proof. unfold apart. tauto. Qed.

Lemma all_apart_perm l l' : l ≡ₚ l' → all_apart l → all_apart l'.
Proof.
  induction 1 as [|b l l' Hp IH|b c l|l1 l2 l3 _ IH1 _ IH2]; cbn; [done| | |by auto].
  - intros [H1 H2]. split; [by rewrite <- Hp|by apply IH].
  - intros (H1 & H2 & H3). apply Forall_cons in H1 as [H1 H1']. split; [|by split]. constructor; [by apply apart_sym|done].
Qed.

Lemma merge_apart a s t l : 0 < s → 0 < t → Forall (λ c, 0 < c.2) l →
  all_apart ((a, s) :: (a + header_size * s, t) :: l) ↔ all_apart ((a, s + t) :: l).
Proof.
  intros Hs Ht Hl. cbn [all_apart]. rewrite Forall_cons, !Forall_forall in *. unfold apart, block_end, header_size. cbn [fst snd].
  split.
  - intros ([_ H1] & H2 & H3). split; [|done]. intros c Hc. specialize (H1 c Hc). specialize (H2 c Hc). specialize (Hl c Hc). lia.
  - intros [H1 H3]. split; [split; [lia|]|split; [|done]]; intros c Hc; specialize (H1 c Hc); lia.
Qed.

Lemma all_apart_app l1 l2 : all_apart (l1 ++ l2) → all_apart l1 ∧ all_apart l2 ∧ ∀ b c, b ∈ l1 → c ∈ l2 → apart b c.
Proof.
  induction l1 as [|b l1 IH]; cbn; [intros; split; [done|]; split; [done|]; by intros ? ? ?%elem_of_nil|].
  intros [H1 H2]. apply Forall_app in H1 as [H1 H1']. destruct (IH H2) as (A & B & C). split; [done|]. split; [done|].
  rewrite Forall_forall in H1'. intros x c [->|Hx]%elem_of_cons Hc; auto.
Qed.

(** ** Order *)

Lemma ordered_app lo l1 l2 :
  ordered lo (l1 ++ l2) ↔ ordered lo l1 ∧ ordered (default lo (block_end <$> last l1)) l2.
Proof.
  revert lo. induction l1 as [|b l1 IH]; intros lo; [cbn; tauto|]. cbn [app ordered]. rewrite IH.
  assert (default lo (block_end <$> last (b :: l1)) = default (block_end b) (block_end <$> last l1)) as ->; [|tauto].
  destruct l1 as [|c l1]; [done|]. rewrite last_cons_cons. destruct (last (c :: l1)) eqn:E; [done|by apply last_None in E].
Qed.

Lemma ordered_after lo l b : ordered lo l → b ∈ l → lo < b.1.
Proof.
  revert lo. induction l as [|c l IH]; intros lo; cbn; [by intros _ ?%elem_of_nil|].
  intros (H1 & H2 & H3) [->|H]%elem_of_cons; [done|]. specialize (IH _ H3 H). unfold block_end, header_size in IH. lia.
Qed.

Lemma ordered_lower lo lo' l : lo' ≤ lo → ordered lo l → ordered lo' l.
Proof. destruct l as [|b l]; cbn; [done|]. intros H (? & ? & ?). split; [lia|done]. Qed.

Lemma ordered_pos lo l : ordered lo l → Forall (λ c, 0 < c.2) l.
Proof. revert lo. induction l as [|c l IH]; intros lo; cbn; [done|]. intros (_ & H & H'). constructor; eauto. Qed.

Section umalloc_spec.
Context `{O : OS}.
(** The variable [base], and the address where the heap starts. *)
Context (base lo : Z) (Hbase : 0 < base) (Hlo : base + header_size ≤ lo).

Definition in_heap (brk : Z) (b : block) : Prop := lo ≤ b.1 ∧ 0 < b.2 ∧ block_end b ≤ brk.

(** The state between calls: the free blocks [fl] in address order on a ring
    that [base] closes, and the blocks [al] in use; they are apart and below
    the end of the heap. *)
Record heap_ok (fl al : list block) (brk : Z) (h : heap) : Prop := {
  ok_freep : h_freep h ∈ base :: fl.*1;
  ok_path : path (h_mem h) base (fl ++ [(base, 0)]);
  ok_order : ordered base fl;
  ok_in : Forall (in_heap brk) (fl ++ al);
  ok_apart : all_apart (fl ++ al);
  ok_size : ∀ b, b ∈ al → s_size (h_mem h) b.1 = b.2;
  ok_brk : brk ≤ 2 ^ 36;
}.

(** The ring, read from any block on it. *)
Lemma ring_from m fl f :
  path m base (fl ++ [(base, 0)]) → f ∈ base :: fl.*1 →
  ∃ l s, path m f (l ++ [(f, s)]) ∧ (l ++ [(f, s)]) ≡ₚ fl ++ [(base, 0)].
Proof.
  intros Hp [->|((f' & s) & -> & (c1 & c2 & ->)%list_elem_of_split)%list_elem_of_fmap]%elem_of_cons; [by exists fl, 0|].
  rewrite <- app_assoc in Hp. cbn [app fst] in *. rewrite cons_middle, app_assoc in Hp. apply path_app in Hp as [Hp1 Hp2].
  rewrite last_addr_snoc in Hp2. cbn [fst] in Hp2. exists ((c2 ++ [(base, 0)]) ++ c1), s. split.
  - rewrite <- app_assoc. apply path_app. split; [done|]. by rewrite last_addr_snoc.
  - rewrite <- !app_assoc. cbn. solve_Permutation.
Qed.

(** The successor of a block on the ring. *)
Lemma ring_next m k1 k2 : path m base ((k1 ++ k2) ++ [(base, 0)]) →
  s_ptr m (last_addr base k1) = default base (fst <$> head k2) ∧ path m (last_addr base k1) (k2 ++ [(base, 0)]).
Proof.
  rewrite <- app_assoc. intros [_ H]%path_app. split; [|done]. by destruct k2 as [|b k2]; destruct H as [H _].
Qed.

Lemma ring_member fl f : f ∈ base :: fl.*1 → ∃ k1 k2, fl = k1 ++ k2 ∧ f = last_addr base k1.
Proof.
  intros [->|((f' & s) & -> & (c1 & c2 & ->)%list_elem_of_split)%list_elem_of_fmap]%elem_of_cons; [by exists [], fl|].
  exists (c1 ++ [(f', s)]), c2. by rewrite last_addr_snoc, <- app_assoc.
Qed.

(** ** free() *)

(** The test that ends the loop of free(). *)
Definition stops (m : memory) (bp p : Z) : bool :=
  (p <? bp) && (bp <? s_ptr m p) || (s_ptr m p <=? p) && ((p <? bp) || (bp <? s_ptr m p)).

Lemma free_body_run bp p ks tr h :
  free_body bp p ks (Uproc tr h) = Ok (if stops (h_mem h) bp p then inr p else inl (s_ptr (h_mem h) p)) ks (Uproc tr h).
Proof.
  unfold free_body, get_ptr, stops, vars. rewrite !bind_run. cbn [gets u_vars]. cbn [mret M_ret].
  destruct ((p <? bp) && (bp <? s_ptr (h_mem h) p)); [done|]. cbn [orb].
  by destruct ((s_ptr (h_mem h) p <=? p) && ((p <? bp) || (bp <? s_ptr (h_mem h) p))).
Qed.

Lemma free_walk bp ks tr h l : ∀ q fuel,
  path (h_mem h) q l → (∃ x, x ∈ q :: l.*1 ∧ stops (h_mem h) bp x = true) → (length l < fuel)%nat →
  ∃ p, p ∈ q :: l.*1 ∧ stops (h_mem h) bp p = true ∧
    while_fuel fuel (free_body bp) q ks (Uproc tr h) = Ok p ks (Uproc tr h).
Proof.
  induction l as [|b l IH]; intros q fuel Hp (x & Hx & Hs) Hf; (destruct fuel as [|fuel]; [lia|]);
    cbn [while_fuel]; rewrite bind_run, free_body_run.
  - apply list_elem_of_singleton in Hx as ->. rewrite Hs. exists q. set_solver.
  - destruct (stops (h_mem h) bp q) eqn:Eq; [exists q; set_solver|]. destruct Hp as (-> & _ & Hp).
    destruct (IH b.1 fuel Hp) as (p & Hin & Hst & E).
    + exists x. split; [|done]. cbn in Hx. apply elem_of_cons in Hx as [->|Hx]; [congruence|done].
    + cbn in Hf. lia.
    + exists p. split; [cbn; set_solver|done].
Qed.

Lemma ordered_last l0 l b : ordered l0 l → b ∈ l → b.1 ≤ last_addr l0 l.
Proof.
  revert l0. induction l as [|c l IH]; intros l0; [by intros _ ?%elem_of_nil|]. intros (H1 & H2 & H3) Hb.
  assert (last_addr l0 (c :: l) = last_addr c.1 l) as E.
  { unfold last_addr. destruct l as [|d l]; [done|]. rewrite last_cons_cons. by destruct (last (d :: l)) eqn:E; [|apply last_None in E]. }
  rewrite E. assert (Hc : ordered c.1 l) by (eapply ordered_lower; [|exact H3]; unfold block_end, header_size; lia).
  apply elem_of_cons in Hb as [->|Hb]; [|by apply IH]. destruct (last_addr_cases c.1 l) as [[_ ->]|(l' & d & -> & ->)]; [lia|].
  apply Z.lt_le_incl. eapply ordered_after; [exact Hc|]. set_solver.
Qed.

Lemma stops_split m bp k1 k2 :
  path m base ((k1 ++ k2) ++ [(base, 0)]) → ordered base (k1 ++ k2) → base < bp → (∀ b, b ∈ k1 ++ k2 → b.1 ≠ bp) →
  stops m bp (last_addr base k1) = true ↔ Forall (λ b, b.1 < bp) k1 ∧ Forall (λ b, bp < b.1) k2.
Proof.
  intros Hp Ho Hb Hne. destruct (ring_next _ _ _ Hp) as [En _]. unfold stops. rewrite En. apply ordered_app in Ho as [Ho1 Ho2].
  assert (Hk1 : last_addr base k1 < bp ↔ Forall (λ b, b.1 < bp) k1).
  { rewrite Forall_forall. split; [intros H b Hin; pose proof (ordered_last _ _ _ Ho1 Hin); lia|].
    intros H. destruct (last_addr_cases base k1) as [[_ ->]|(l' & d & -> & ->)]; [done|]. apply H. set_solver. }
  rewrite <- Hk1, orb_true_iff, !andb_true_iff, orb_true_iff, !Z.ltb_lt, Z.leb_le.
  assert (Hge : base ≤ last_addr base k1).
  { destruct (last_addr_cases base k1) as [[_ ->]|(l' & d & E & ->)]; [lia|]. apply Z.lt_le_incl. eapply ordered_after; [exact Ho1|]. set_solver. }
  destruct k2 as [|b k2]; cbn [head fmap option_fmap option_map default]; [rewrite Forall_nil; intuition lia|].
  assert (Hlt : last_addr base k1 < b.1).
  { destruct (last_addr_cases base k1) as [[-> ->]|(l' & d & -> & ->)].
    - eapply (ordered_after base); [exact Ho2|]. set_solver.
    - destruct Ho2 as [Ho2 _]. rewrite last_snoc in Ho2. cbn in Ho2. apply ordered_pos, Forall_app in Ho1 as [_ Hd].
      rewrite Forall_singleton in Hd. cbn in Hd. unfold block_end, header_size in Ho2.
   lia. }
  rewrite Forall_cons. cbn. specialize (Hne b ltac:(set_solver)). split; [|intuition lia]. intros H.
  assert (bp < b.1) by lia. split; [lia|]. split; [done|]. rewrite Forall_forall. intros c Hc. destruct Ho2 as (_ & Hpos & Ho2).
  pose proof (ordered_after _ _ _ Ho2 Hc). unfold block_end, header_size in *. lia.
Qed.

Lemma split_at (fl : list block) bp : ∀ l0, ordered l0 fl → (∀ b, b ∈ fl → b.1 ≠ bp) →
  ∃ k1 k2, fl = k1 ++ k2 ∧ Forall (λ b, b.1 < bp) k1 ∧ Forall (λ b, bp < b.1) k2.
Proof.
  induction fl as [|b fl IH]; intros l0 Ho Hne; [by exists [], []|]. destruct Ho as (H1 & H2 & H3).
  destruct (IH _ H3) as (k1 & k2 & -> & F1 & F2); [set_solver|]. specialize (Hne b ltac:(set_solver)).
  destruct (Z.lt_ge_cases b.1 bp); [exists (b :: k1), k2; split; [done|]; by split; [constructor|]|].
  exists [], (b :: k1 ++ k2). split; [done|]. split; [done|]. constructor; [lia|]. apply Forall_forall. intros c Hc.
  pose proof (ordered_after _ _ _ H3 Hc). unfold block_end, header_size in *. lia.
Qed.

(** The loop of free() ends at the block before [bp]. *)
Lemma free_loop_run fl al brk h bp fuel ks tr :
  heap_ok fl al brk h → base < bp → (∀ b, b ∈ fl → b.1 ≠ bp) → (S (length fl) < fuel)%nat →
  ∃ k1 k2, fl = k1 ++ k2 ∧ Forall (λ b, b.1 < bp) k1 ∧ Forall (λ b, bp < b.1) k2 ∧
    while_fuel fuel (free_body bp) (h_freep h) ks (Uproc tr h) = Ok (last_addr base k1) ks (Uproc tr h).
Proof.
  intros Hok Hb Hne Hf. destruct (ring_from _ _ _ (ok_path _ _ _ _ Hok) (ok_freep _ _ _ _ Hok)) as (l & s & Hp & Hperm).
  assert (Hmem : ∀ x, x ∈ h_freep h :: (l ++ [(h_freep h, s)]).*1 ↔ x ∈ base :: fl.*1).
  { intros x. pose proof (ok_freep _ _ _ _ Hok) as Hin. rewrite elem_of_cons. rewrite Hperm. rewrite fmap_app. set_solver. }
  destruct (split_at fl bp base (ok_order _ _ _ _ Hok) Hne) as (k1 & k2 & -> & F1 & F2).
  destruct (free_walk bp ks tr h _ (h_freep h) fuel Hp) as (p & Hin & Hs & E).
  - exists (last_addr base k1). split.
    + apply Hmem. destruct (last_addr_cases base k1) as [[_ ->]|(l' & d & -> & ->)]; set_solver.
    + apply (stops_split _ _ k1 k2); [apply Hok|apply Hok|done|done|done].
  - rewrite Hperm, length_app. cbn. lia.
  - apply Hmem, ring_member in Hin as (j1 & j2 & Ej & ->). exists j1, j2. rewrite Ej in *. split; [done|].
    destruct (proj1 (stops_split (h_mem h) bp j1 j2 (ok_path _ _ _ _ Hok) (ok_order _ _ _ _ Hok) Hb Hne) Hs). done.
Qed.

(** What free() stores, in the memory [m]: joining [bp] to the block after
    it, and the block before to [bp]. *)
Definition join_upper (m : memory) (p bp : Z) : memory :=
  if plus_headers bp (s_size m bp) =? s_ptr m p then
    let m1 := store32 m (bp + 8) (u32 (s_size m bp + s_size m (s_ptr m p))) in
    store64 m1 bp (s_ptr m1 (s_ptr m1 p))
  else store64 m bp (s_ptr m p).
Definition join_lower (m : memory) (p bp : Z) : memory :=
  if plus_headers p (s_size m p) =? bp then
    let m1 := store32 m (p + 8) (u32 (s_size m p + s_size m bp)) in
    store64 m1 p (s_ptr m1 bp)
  else store64 m p bp.

Lemma free_run fuel ap p ks tr h :
  let bp := plus_headers ap (-1) in
  while_fuel fuel (free_body bp) (h_freep h) ks (Uproc tr h) = Ok p ks (Uproc tr h) →
  free fuel ap ks (Uproc tr h) = Ok tt ks (Uproc tr (Heap (join_lower (join_upper (h_mem h) p bp) p bp) p)).
Proof.
  intros bp E. unfold free. rewrite bind_run. unfold get_freep, vars at 1. rewrite bind_run. cbn [gets u_vars mret M_ret].
  fold bp. rewrite bind_run, E. unfold get_ptr, get_size, vars, set_size, set_ptr, set_freep, set_vars, join_lower, join_upper.
  cbv [mbind M_bind mret M_ret gets modify]. cbn [u_vars u_trace h_mem h_freep].
  destruct (plus_headers bp (s_size (h_mem h) bp) =? s_ptr (h_mem h) p); cbn [u_vars u_trace h_mem h_freep].
  all: by match goal with |- context [if ?b then _ else _] => destruct b end.
Qed.

Definition clear (p q : Z) : Prop := p + header_size ≤ q ∨ q + header_size ≤ p.

Lemma store_ptr_agree m p q v : clear p q → agree m (store64 m p v) q.
Proof. intros H x Hx. apply store64_out. unfold clear, header_size in *. lia. Qed.
Lemma store_size_agree m p q v : clear p q → agree m (store32 m (p + 8) v) q.
Proof. intros H x Hx. apply store32_out. unfold clear, header_size in *. lia. Qed.
Lemma store_ptr_size m p v : s_size (store64 m p v) p = s_size m p.
Proof. apply load32_ext. intros x Hx. apply store64_out. lia. Qed.
Lemma store_size_ptr m p v : s_ptr (store32 m (p + 8) v) p = s_ptr m p.
Proof. apply load64_ext. intros x Hx. apply store32_out. lia. Qed.

(** Only the header at [p] differs. *)
Definition only_header (m m' : memory) (p : Z) : Prop := ∀ x, ¬ (p ≤ x < p + header_size) → m' x = m x.

Lemma only_header_agree m m' p q : only_header m m' p → clear p q → agree m m' q.
Proof. intros H Hc x Hx. apply H. unfold clear, header_size in *. lia. Qed.

Lemma only_header_ptr m p v : only_header m (store64 m p v) p.
Proof. intros x Hx. apply store64_out. unfold header_size in Hx. lia. Qed.
Lemma only_header_both m p v w : only_header m (store64 (store32 m (p + 8) w) p v) p.
Proof. intros x Hx. unfold header_size in Hx. rewrite store64_out by lia. apply store32_out. lia. Qed.

Lemma apart_clear b c : apart b c → 0 < b.2 → 0 < c.2 → clear b.1 c.1.
Proof. unfold apart, clear, block_end, header_size. lia. Qed.

Lemma relink m m' q a l : path m q l → s_ptr m' a = s_ptr m q → (∀ b, b ∈ l → agree m m' b.1) → path m' a l.
Proof.
  destruct l as [|b l]; [done|]. intros (E1 & E2 & H) E Ha. cbn. split; [congruence|].
  split; [rewrite <- E2; apply agree_size, Ha; set_solver|]. eapply path_agree; [| |exact H]; intros; apply Ha; set_solver.
Qed.

Lemma ptr_store_ptr m p v : 0 ≤ v < 2 ^ 64 → s_ptr (store64 m p v) p = v.
Proof. apply load64_store64_same. Qed.
Lemma size_store_size m p v : 0 ≤ v < 2 ^ 32 → s_size (store32 m (p + 8) (u32 v)) p = v.
Proof. intros H. unfold s_size. rewrite u32_small by done. by apply load32_store32_same. Qed.

(** The next block on the ring has a proper address. *)
Lemma ring_ptr_range m q l brk :
  path m q (l ++ [(base, 0)]) → Forall (in_heap brk) l → base < brk → brk ≤ 2 ^ 36 → 0 ≤ s_ptr m q < 2 ^ 64.
Proof.
  intros Hp Hl Hb Hbrk. destruct l as [|b l]; destruct Hp as [-> _]; cbn; [lia|].
  apply Forall_cons in Hl as [(H1 & H2 & H3) _]. unfold block_end, header_size in *. lia.
Qed.

Lemma ring_agree m m' bp l : only_header m m' bp → clear bp base → (∀ b, b ∈ l → clear bp b.1) →
  ∀ b, b ∈ l ++ [(base, 0)] → agree m m' b.1.
Proof.
  intros Ho Hb Hl b [H|H]%elem_of_app; (eapply only_header_agree; [exact Ho|]); [by apply Hl|].
  by apply list_elem_of_singleton in H as ->.
Qed.

Lemma in_heap_clear brk b : in_heap brk b → clear b.1 base ∧ base < b.1 ∧ base < brk.
Proof. unfold in_heap, clear, block_end, header_size in *. lia. Qed.

(** The block [bp] of size [s] and the blocks after it. *)
Lemma join_upper_spec m p bp s k2 brk :
  path m p (k2 ++ [(base, 0)]) → s_size m bp = s → clear bp p →
  ordered bp k2 → Forall (apart (bp, s)) k2 → Forall (in_heap brk) ((bp, s) :: k2) → brk ≤ 2 ^ 36 →
  ∃ s' k2', path (join_upper m p bp) bp (k2' ++ [(base, 0)]) ∧ s_size (join_upper m p bp) bp = s' ∧
    only_header m (join_upper m p bp) bp ∧ ordered (bp + header_size * s') k2' ∧
    (s' = s ∧ k2' = k2 ∨ ∃ t, k2 = (bp + header_size * s, t) :: k2' ∧ s' = s + t).
Proof.
  intros Hp Hs Hcp Ho Ha He Hbrk. apply Forall_cons in He as [He0 He].
  destruct (in_heap_clear _ _ He0) as (Hcb & Hb & Hb'). destruct He0 as (He1 & He2 & He3). unfold block_end in He3. cbn [fst snd] in *.
  assert (Hcl : ∀ b, b ∈ k2 → clear bp b.1).
  { intros b Hin. rewrite Forall_forall in Ha, He. by apply (apart_clear (bp, s)); [apply Ha| |apply He]. }
  unfold join_upper. rewrite Hs. unfold plus_headers. rewrite u64_small by (unfold header_size in *; lia).
  destruct (Z.eqb_spec (bp + header_size * s) (s_ptr m p)) as [Eq|Ne].
  - destruct k2 as [|[a t] k2']; [destruct Hp as [Hp _]; cbn in Hp; unfold header_size in *; lia|].
    pose proof Hp as (Ep & Et & Hp'). cbn [fst snd] in Ep, Et, Hp'. destruct Ho as (Ho1 & Ht & Ho). cbn [fst snd] in Ho1, Ht.
    apply Forall_cons in He as [(_ & _ & Het) He]. unfold block_end in Het, Ho. cbn [fst snd] in Het, Ho. rewrite <- Eq in *. subst a.
    rewrite Et. set (m1 := store32 m (bp + 8) (u32 (s + t))).
    assert (Hm1 : ∀ q, clear bp q → s_ptr m1 q = s_ptr m q) by (intros; by apply agree_ptr, store_size_agree).
    rewrite (Hm1 p), <- Eq by done. rewrite (Hm1 (bp + header_size * s)) by (apply (Hcl (_, t)); set_solver).
    exists (s + t), k2'. assert (Hoh : only_header m (store64 m1 bp (s_ptr m (bp + header_size * s))) bp) by apply only_header_both.
    split; [|split; [|split; [done|split]]].
    + eapply relink; [exact Hp'|by eapply ptr_store_ptr, ring_ptr_range|].
      eapply ring_agree; [exact Hoh|done|set_solver].
    + rewrite store_ptr_size. apply size_store_size. unfold header_size in *; lia.
    + by replace (bp + header_size * (s + t)) with (bp + header_size * s + header_size * t) by (unfold header_size; lia).
    + right. by exists t.
  - exists s, k2. assert (Hoh : only_header m (store64 m bp (s_ptr m p)) bp) by apply only_header_ptr.
    split; [|split; [|split; [done|split; [|by left]]]].
    + eapply relink; [exact Hp|by eapply ptr_store_ptr, ring_ptr_range|]. by eapply ring_agree.
    + by rewrite store_ptr_size.
    + destruct k2 as [|b k2]; [done|]. destruct Hp as [Hp _]. destruct Ho as (Ho1 & Ho2 & Ho3). cbn. split; [|done].
      apply Forall_cons in Ha as [Ha _]. unfold apart, block_end, header_size in *. cbn in *. lia.
Qed.

Lemma followed_snoc a l b : followed a (l ++ [b]) = a :: l.*1.
Proof. revert a. induction l as [|c l IH]; intros a; [done|]. cbn. by rewrite IH. Qed.

Lemma path_before m m' a l p t t' :
  path m a (l ++ [(p, t)]) → only_header m m' p → s_size m' p = t' → clear p a → (∀ b, b ∈ l → clear p b.1) →
  path m' a (l ++ [(p, t')]).
Proof.
  intros Hp Ho Ht Ha Hl. apply path_app in Hp as [Hp1 (E1 & E2 & _)]. apply path_app. split.
  - eapply path_agree; [| |exact Hp1]; intros; eapply only_header_agree; eauto.
  - cbn. split; [|done]. cbn in E1. rewrite <- E1. apply agree_ptr. eapply only_header_agree; [exact Ho|].
    destruct (last_addr_cases a l) as [[_ ->]|(l' & d & -> & ->)]; [done|]. apply Hl. set_solver.
Qed.

Lemma path_after m m' a l p : path m a (l ++ [(base, 0)]) → only_header m m' p → s_size m' base = s_size m base →
  clear p a → (∀ b, b ∈ l → clear p b.1) → path m' a (l ++ [(base, 0)]).
Proof.
  intros Hp Ho Hs Ha Hl. eapply path_frame; [| |exact Hp].
  - intros x. rewrite followed_snoc. intros [->|(b & -> & Hb)%list_elem_of_fmap]%elem_of_cons;
      apply agree_ptr; (eapply only_header_agree; [exact Ho|]); auto.
  - intros b [Hb|Hb]%elem_of_app; [apply agree_size; eapply only_header_agree; eauto|]. by apply list_elem_of_singleton in Hb as ->.
Qed.

(** Nothing before [bp] yet. *)
Lemma join_lower_base m bp s k2 brk :
  path m bp (k2 ++ [(base, 0)]) → s_size m bp = s → s_size m base = 0 → Forall (in_heap brk) ((bp, s) :: k2) → brk ≤ 2 ^ 36 →
  path (join_lower m base bp) base (((bp, s) :: k2) ++ [(base, 0)]) ∧ only_header m (join_lower m base bp) base.
Proof.
  intros Hp Hs H0 He Hbrk. pose proof He as [Heb Hek]%Forall_cons. destruct (in_heap_clear _ _ Heb) as (Hc & Hb & Hb'). cbn in Hb, Hb'.
  unfold join_lower. rewrite H0. unfold plus_headers. rewrite Z.mul_0_r, Z.add_0_r, u64_small by lia.
  destruct (Z.eqb_spec base bp); [lia|]. assert (Ho : only_header m (store64 m base bp) base) by apply only_header_ptr. split; [|done].
  assert (Hcl : ∀ b, b ∈ (bp, s) :: k2 → clear base b.1).
  { intros b Hin. rewrite Forall_forall in He. destruct (in_heap_clear _ _ (He b Hin)) as ([?|?] & _); [by right|by left]. }
  cbn [app path fst snd]. split; [|split].
  - apply ptr_store_ptr. destruct Heb as (? & ? & ?). unfold block_end, header_size in *. cbn in *. lia.
  - rewrite <- Hs. apply agree_size. eapply only_header_agree; [exact Ho|]. apply (Hcl (bp, s)). set_solver.
  - eapply path_after; [exact Hp|exact Ho|apply store_ptr_size|apply (Hcl (bp, s)); set_solver|]. intros; apply Hcl. set_solver.
Qed.

(** The block [p] of size [t] before [bp]. *)
Lemma join_lower_block m bp s k1 p t k2 brk :
  path m base (k1 ++ [(p, t)]) → path m bp (k2 ++ [(base, 0)]) → s_size m bp = s →
  Forall (in_heap brk) (k1 ++ (p, t) :: (bp, s) :: k2) → all_apart (k1 ++ (p, t) :: (bp, s) :: k2) → brk ≤ 2 ^ 36 →
  ∃ k, path (join_lower m p bp) base ((k1 ++ k) ++ [(base, 0)]) ∧ only_header m (join_lower m p bp) p ∧
    (bp ≠ p + header_size * t ∧ k = (p, t) :: (bp, s) :: k2 ∨ bp = p + header_size * t ∧ k = (p, t + s) :: k2).
Proof.
  intros Hp1 Hp2 Hs He Ha Hbrk. assert (Hclp : ∀ b, b ∈ k1 ++ (bp, s) :: k2 → clear p b.1).
  { rewrite Forall_forall in He. assert (Hperm : k1 ++ (p, t) :: (bp, s) :: k2 ≡ₚ (p, t) :: k1 ++ (bp, s) :: k2) by solve_Permutation.
    apply (all_apart_perm _ _ Hperm) in Ha as [Ha _]. rewrite Forall_forall in Ha. intros b Hb.
    apply (apart_clear (p, t)); [by apply Ha|apply (He (p, t)); set_solver|apply He; set_solver]. }
  apply Forall_app in He as [He1 He]. apply Forall_cons in He as [Hep He]. apply Forall_cons in He as [Heb He2].
  destruct (in_heap_clear _ _ Hep) as (Hcpb & Hpb & Hbrk0). destruct Hep as (P1 & P2 & P3). destruct Heb as (B1 & B2 & B3).
  unfold block_end in P3, B3. cbn [fst snd] in *.
  assert (Ht : s_size m p = t) by (by apply path_app in Hp1 as [_ (_ & ? & _)]).
  assert (Hmid : ∀ m' t' k, only_header m m' p → s_size m' p = t' → path m' p (k ++ [(base, 0)]) →
    path m' base ((k1 ++ (p, t') :: k) ++ [(base, 0)])).
  { intros m' t' k Ho Hs' Hk. replace ((k1 ++ (p, t') :: k) ++ [(base, 0)]) with ((k1 ++ [(p, t')]) ++ k ++ [(base, 0)]) by (by rewrite <- !app_assoc).
    apply path_app. rewrite last_addr_snoc. split; [|done].
    eapply path_before; [exact Hp1|exact Ho|done|done|set_solver]. }
  unfold join_lower. rewrite Ht, Hs. unfold plus_headers. rewrite u64_small by (unfold header_size in *; lia).
  destruct (Z.eqb_spec (p + header_size * t) bp) as [E|E].
  - assert (Ho := only_header_both m p (s_ptr (store32 m (p + 8) (u32 (t + s))) bp) (u32 (t + s))).
    exists ((p, t + s) :: k2). split; [|split; [done|by right]]. apply Hmid; [done| |].
    + rewrite store_ptr_size. apply size_store_size. unfold header_size in *. lia.
    + rewrite (agree_ptr m) by (apply store_size_agree, (Hclp (bp, s)); set_solver).
      eapply relink; [exact Hp2|by eapply ptr_store_ptr, ring_ptr_range|]. eapply ring_agree; [apply only_header_both|done|set_solver].
  - assert (Ho := only_header_ptr m p bp). exists ((p, t) :: (bp, s) :: k2). split; [|split; [done|left; done]].
    apply Hmid; [done|by rewrite store_ptr_size|]. cbn [app path fst snd]. split; [apply ptr_store_ptr; unfold header_size in *; lia|].
    split; [rewrite <- Hs; eapply agree_size, only_header_agree; [exact Ho|apply (Hclp (bp, s)); set_solver]|].
    eapply path_agree; [| |exact Hp2]; [eapply only_header_agree; [exact Ho|apply (Hclp (bp, s)); set_solver]|].
    eapply ring_agree; [exact Ho|done|set_solver].
Qed.

(** Blocks of the heap that do not overlap. *)
Definition good (brk : Z) (l : list block) : Prop := Forall (in_heap brk) l ∧ all_apart l.

Lemma good_perm brk l l' : l ≡ₚ l' → good brk l → good brk l'.
Proof. intros Hp [H1 H2]. split; [by rewrite <- Hp|by eapply all_apart_perm]. Qed.

Lemma good_merge brk a s t l : good brk ((a, s) :: (a + header_size * s, t) :: l) → good brk ((a, s + t) :: l).
Proof.
  intros [H1 H2]. apply Forall_cons in H1 as [(A1 & A2 & A3) H1]. apply Forall_cons in H1 as [(B1 & B2 & B3) H1].
  unfold block_end in *. cbn [fst snd] in *. split.
  - constructor; [|done]. unfold in_heap, block_end, header_size in *. cbn. lia.
  - apply merge_apart; [done..| |done]. eapply Forall_impl; [exact H1|by intros c (_ & ? & _)].
Qed.

Lemma good_clear brk b l c : good brk (b :: l) → c ∈ l → clear b.1 c.1.
Proof.
  intros [H1 [H2 _]] Hc. apply Forall_cons in H1 as [(_ & Hb & _) H1]. rewrite Forall_forall in H1, H2.
  apply apart_clear; [by apply H2|done|by apply H1].
Qed.

(** The units of some blocks. *)
Definition units (l : list block) : Z := foldr (λ b n, b.2 + n) 0 l.

Lemma units_app l1 l2 : units (l1 ++ l2) = units l1 + units l2.
Proof. induction l1 as [|b l1 IH]; [done|]. cbn. unfold units in *. rewrite IH. lia. Qed.

Lemma ordered_bound l0 l1 l : ordered l0 l → (∀ b, b ∈ l → l1 < b.1) → ordered l1 l.
Proof. destruct l as [|b l]; [done|]. intros (_ & ? & ?) Hl. cbn. split; [apply Hl; set_solver|done]. Qed.

(** The list after the block [bp] of size [s] joined those before and after. *)
Definition joined (bp s : Z) (k1 k2 fl : list block) : Prop :=
  ∃ s' k2', ordered (bp + header_size * s') k2' ∧
  (s' = s ∧ k2' = k2 ∨ ∃ t, k2 = (bp + header_size * s, t) :: k2' ∧ s' = s + t) ∧
  (fl = k1 ++ (bp, s') :: k2' ∧ (∀ l b, k1 = l ++ [b] → block_end b ≠ bp) ∨
   ∃ k1' p t, k1 = k1' ++ [(p, t)] ∧ bp = p + header_size * t ∧ fl = k1' ++ (p, t + s') :: k2').

Lemma joined_good brk bp s k1 k2 fl al :
  joined bp s k1 k2 fl → good brk ((k1 ++ k2) ++ (bp, s) :: al) →
  good brk (fl ++ al) ∧ units fl = units (k1 ++ k2) + s ∧ (length fl ≤ S (length (k1 ++ k2)))%nat ∧ ∃ b, b ∈ fl ∧ s ≤ b.2.
Proof.
  intros (s' & k2' & _ & Hs & Hf) Hg. assert (Hg1 : good brk ((bp, s') :: k1 ++ k2' ++ al)).
  { destruct Hs as [[-> ->]|(t & -> & ->)]; [eapply good_perm; [|exact Hg]; solve_Permutation|].
    apply good_merge. eapply good_perm; [|exact Hg]. solve_Permutation. }
  assert (Hu : units k2' + s' = units k2 + s ∧ (length k2' ≤ length k2)%nat).
  { destruct Hs as [[-> ->]|(t & -> & ->)]; cbn; [done|]. unfold units. cbn. lia. }
  assert (Hs' : s ≤ s').
  { destruct Hs as [[-> _]|(t & -> & ->)]; [done|]. destruct Hg as [Hg _]. rewrite Forall_forall in Hg.
    destruct (Hg (bp + header_size * s, t)) as (_ & ? & _); [set_solver|]. cbn in *. lia. }
  destruct Hf as [[-> _]|(k1' & p & t & -> & -> & ->)].
  - split; [eapply good_perm; [|exact Hg1]; solve_Permutation|]. rewrite !units_app, !length_app. cbn. fold (units k2').
    split; [lia|]. split; [lia|]. exists (bp, s'). split; [set_solver|done].
  - split.
    + apply (good_perm brk ((p, t + s') :: k1' ++ k2' ++ al)); [solve_Permutation|]. apply good_merge.
      eapply good_perm; [|exact Hg1]. solve_Permutation.
    + destruct Hg as [Hg _]. rewrite Forall_forall in Hg. destruct (Hg (p, t)) as (_ & Ht & _); [set_solver|]. cbn in Ht.
      rewrite !units_app, !length_app. cbn. fold (units k2'). split; [lia|]. split; [lia|]. exists (p, t + s'). split; [set_solver|cbn; lia].
Qed.

Lemma joined_ordered bp s k1 k2 fl brk al :
  joined bp s k1 k2 fl → ordered base (k1 ++ k2) → Forall (λ b, b.1 < bp) k1 → good brk ((k1 ++ k2) ++ (bp, s) :: al) →
  ordered base fl.
Proof.
  intros (s' & k2' & Ho' & Hs & Hf) Ho F1 Hg.
  assert (Hg' : good brk ((bp, s) :: (k1 ++ k2) ++ al)) by (eapply good_perm; [|exact Hg]; solve_Permutation).
  destruct Hg' as [Hin [Hap _]]. apply Forall_cons in Hin as [Hb Hin]. destruct (in_heap_clear _ _ Hb) as (_ & Hbb & _).
  destruct Hb as (_ & Hs0 & _). cbn in Hs0, Hbb. rewrite Forall_forall in F1, Hap, Hin.
  assert (Hs1 : 0 < s') by (destruct Hs as [[-> _]|(t & -> & ->)]; [done|]; destruct (Hin (bp + header_size * s, t)) as (_ & ? & _); [set_solver|cbn in *; lia]).
  apply ordered_app in Ho as [Ho1 Ho2]. destruct Hf as [[-> Hna]|(k1' & p & t & -> & -> & ->)].
  - apply ordered_app. split; [done|]. cbn [ordered fst snd]. split; [|split; [done|exact Ho']].
    destruct k1 as [|b k1 _] using rev_ind; [done|]. rewrite last_snoc. cbn. specialize (Hna k1 b eq_refl).
    destruct (Hap b) as [Hx|Hx]; [set_solver| |cbn in Hx; lia]. specialize (F1 b ltac:(set_solver)). unfold block_end, header_size in Hx. cbn in *. lia.
  - apply ordered_app in Ho1 as [Ho1 (H1 & H2 & _)]. apply ordered_app. split; [done|]. cbn in *. split; [done|]. split; [lia|].
    unfold block_end. cbn. by replace (p + header_size * (t + s')) with (p + header_size * t + header_size * s') by (unfold header_size; lia).
Qed.

Lemma join_spec m bp s k1 k2 brk :
  let p := last_addr base k1 in
  let m2 := join_lower (join_upper m p bp) p bp in
  path m base ((k1 ++ k2) ++ [(base, 0)]) → s_size m bp = s → ordered bp k2 →
  good brk ((bp, s) :: k1 ++ k2) → brk ≤ 2 ^ 36 →
  ∃ fl, joined bp s k1 k2 fl ∧ path m2 base (fl ++ [(base, 0)]) ∧ p ∈ base :: fl.*1 ∧
    ∀ x, ¬ (bp ≤ x < bp + header_size) → ¬ (p ≤ x < p + header_size) → m2 x = m x.
Proof.
  intros p m2 Hp Hs Ho Hg Hbrk. destruct (ring_next _ _ _ Hp) as [_ Hp2]. fold p in Hp2. assert (Ep0 : p = last_addr base k1) by done. subst m2. clearbody p. rewrite <- app_assoc in Hp. apply path_app in Hp as [Hp1 Hpb].
  assert (Hcl : ∀ b, b ∈ k1 ++ k2 → clear bp b.1) by (intros; by eapply (good_clear brk (bp, s))).
  pose proof Hg as [[Hib Hin]%Forall_cons [Hap _]]. destruct (in_heap_clear _ _ Hib) as (Hcb & _ & _). cbn in Hcb.
  assert (Hcp : clear bp p) by (rewrite Ep0; destruct (last_addr_cases base k1) as [[_ ->]|(l' & d & -> & ->)]; [done|apply Hcl; set_solver]).
  apply Forall_app in Hap as [_ Hap2]. apply Forall_app in Hin as [Hin1 Hin2].
  destruct (join_upper_spec m p bp s k2 brk) as (s' & k2' & U1 & U2 & U3 & U4 & U5); [done..|by constructor|done|].
  assert (Hg1 : good brk ((bp, s') :: k1 ++ k2')).
  { destruct U5 as [[-> ->]|(t & -> & ->)]; [done|]. apply good_merge. eapply good_perm; [|exact Hg]. solve_Permutation. }
  assert (Hp1' : path (join_upper m p bp) base k1).
  { eapply path_agree; [| |exact Hp1]; intros; (eapply only_header_agree; [exact U3|]); [done|apply Hcl; set_solver]. }
  destruct (last_addr_cases base k1) as [[-> E]|(k1' & [q t] & -> & E)]; rewrite <- Ep0 in E; cbn [fst] in E.
  - destruct (join_lower_base (join_upper m p bp) bp s' k2' brk) as [L1 L2]; [done|done| |apply Hg1|done|].
    { rewrite (agree_size m) by (eapply only_header_agree; [exact U3|done]). apply path_app in Hp2 as [_ (_ & ? & _)]. done. }
    exists ((bp, s') :: k2'). split.
    { exists s', k2'. split; [done|]. split; [done|]. left. split; [done|]. intros l b H. by destruct l. }
    rewrite E in *. split; [done|]. split; [set_solver|]. intros x Hx1 Hx2. rewrite L2, U3 by done. done.
  - assert (Hg2 : good brk (k1' ++ (q, t) :: (bp, s') :: k2')) by (eapply good_perm; [|exact Hg1]; rewrite <- app_assoc; solve_Permutation).
    destruct (join_lower_block (join_upper m p bp) bp s' k1' q t k2' brk) as (k & L1 & L2 & L3); [done|done|done|apply Hg2|apply Hg2|done|].
    exists (k1' ++ k). rewrite E in *. split; [|split; [done|split]].
    + exists s', k2'. split; [done|]. split; [done|]. destruct L3 as [[L3 ->]|[L3 ->]]; [left|right].
      * split; [by rewrite <- app_assoc|]. intros l b [_ [= <-]]%app_inj_tail. unfold block_end. cbn. congruence.
      * by exists k1', q, t.
    + destruct L3 as [[L3 ->]|[L3 ->]]; rewrite fmap_app; cbn; set_solver.
    + intros x Hx1 Hx2. rewrite L2, U3 by done. done.
Qed.

(** Memory outside the free blocks, the variable [base] and the blocks of
    [l] is the same. *)
Definition rest_same (fl l : list block) (m m' : memory) : Prop :=
  ∀ x, (∀ b, b ∈ (base, 1) :: fl ++ l → ¬ (b.1 ≤ x < block_end b)) → m' x = m x.

Lemma free_ok fl al brk h bp s fuel ks tr :
  heap_ok fl ((bp, s) :: al) brk h → (S (length fl) < fuel)%nat →
  ∃ fl' h', free fuel (bp + header_size) ks (Uproc tr h) = Ok tt ks (Uproc tr h') ∧ heap_ok fl' al brk h' ∧
    units fl' = units fl + s ∧ (length fl' ≤ S (length fl))%nat ∧ (∃ b, b ∈ fl' ∧ s ≤ b.2) ∧
    rest_same fl [(bp, s)] (h_mem h) (h_mem h').
Proof.
  intros Hok Hf. assert (Hg : good brk (fl ++ (bp, s) :: al)) by (split; apply Hok).
  assert (Hg' : good brk ((bp, s) :: fl ++ al)) by (eapply good_perm; [|exact Hg]; solve_Permutation).
  pose proof Hg' as [[Hib Hin]%Forall_cons _]. destruct (in_heap_clear _ _ Hib) as (Hcb & Hbb & _). cbn in Hcb, Hbb.
  assert (Hcl : ∀ b, b ∈ fl ++ al → clear bp b.1) by (intros; by eapply (good_clear brk (bp, s))).
  destruct (free_loop_run _ _ _ _ bp fuel ks tr Hok) as (k1 & k2 & -> & F1 & F2 & E); [done| |done|].
  { intros b Hb. specialize (Hcl b ltac:(set_solver)). unfold clear, header_size in Hcl. lia. }
  assert (Eb : plus_headers (bp + header_size) (-1) = bp).
  { destruct Hib as (I1 & I2 & I3). pose proof (ok_brk _ _ _ _ Hok). unfold plus_headers, block_end in *. cbn in *.
    rewrite u64_small by (unfold header_size in *; lia). lia. }
  rewrite <- Eb in E at 1. apply free_run in E. rewrite Eb in E. set (p := last_addr base k1) in *.
  assert (Hg2 : good brk ((bp, s) :: k1 ++ k2)).
  { destruct Hg' as [G1 G2]. rewrite app_comm_cons in G1, G2. split; [by apply Forall_app in G1 as [? _]|by apply all_apart_app in G2 as [? _]]. }
  assert (Ho2 : ordered bp k2).
  { pose proof (ok_order _ _ _ _ Hok) as [_ Ho]%ordered_app. eapply ordered_bound; [exact Ho|]. by rewrite Forall_forall in F2. }
  destruct (join_spec (h_mem h) bp s k1 k2 brk) as (fl' & J & P & Pin & Hx); [apply Hok|by apply (ok_size _ _ _ _ Hok (bp, s)); left|done|done|apply Hok|].
  fold p in P, Pin, Hx. destruct (joined_good _ _ _ _ _ _ _ J Hg) as (G & Hu & Hl & Hbig). set (m2 := join_lower _ p bp) in *.
  assert (Hcp : ∀ b, b ∈ al → clear p b.1).
  { intros b Hb. unfold p. destruct (last_addr_cases base k1) as [[_ ->]|(l' & d & -> & ->)].
    - rewrite Forall_forall in Hin. destruct (in_heap_clear _ _ (Hin b ltac:(set_solver))) as ([?|?] & _); [by right|by left].
    - eapply good_clear; [|exact (proj2 (elem_of_app (l' ++ k2 ++ (bp, s) :: nil) al b) (or_intror Hb))].
      eapply good_perm; [|exact Hg']. solve_Permutation. }
  exists fl', (Heap m2 p). split; [exact E|]. split; [|split; [done|split; [done|split; [done|]]]].
  - split; cbn [h_mem h_freep]; [done|done| |apply G|apply G| |apply Hok].
    + eapply joined_ordered; [exact J|apply Hok|done|exact Hg].
    + intros b Hb. rewrite <- (ok_size _ _ _ _ Hok b) by set_solver. apply agree_size. intros x Hxb.
      specialize (Hcp b Hb). specialize (Hcl b ltac:(set_solver)). apply Hx; unfold clear in *; lia.
  - intros x Hxs. cbn [h_mem]. apply Hx.
    + intros Hxb. apply (Hxs (bp, s)); [set_solver|]. destruct Hib as (_ & Hib & _). unfold block_end, header_size in *. cbn in *. lia.
    + intros Hxb. unfold p in Hxb. destruct (last_addr_cases base k1) as [[_ E1]|(l' & d & -> & E1)]; rewrite E1 in Hxb.
      * apply (Hxs (base, 1)); [set_solver|]. unfold block_end. cbn. lia.
      * apply (Hxs d); [set_solver|]. rewrite Forall_forall in Hin. destruct (Hin d ltac:(set_solver)) as (_ & Hd & _).
        unfold block_end, header_size in *. lia.
Qed.

(** ** malloc() *)

Lemma good_split brk a s t l : 0 < s → 0 < t → good brk ((a, s + t) :: l) → good brk ((a, s) :: (a + header_size * s, t) :: l).
Proof.
  intros Hs Ht [H1 H2]. apply Forall_cons in H1 as [(A1 & A2 & A3) H1]. unfold block_end in A3. cbn [fst snd] in *. split.
  - constructor; [|constructor; [|done]]; unfold in_heap, block_end, header_size in *; cbn; lia.
  - apply merge_apart; [done..| |done]. eapply Forall_impl; [exact H1|by intros c (_ & ? & _)].
Qed.

(** The heap after [nunits] units are taken from the block [b] that follows
    [q], and the address of the new block. *)
Definition take_block (m : memory) (nunits q : Z) (b : block) : heap * Z :=
  if b.2 =? nunits then (Heap (store64 m q (s_ptr m b.1)) q, b.1)
  else
    let p := b.1 + header_size * (b.2 - nunits) in
    (Heap (store32 (store32 m (b.1 + 8) (u32 (b.2 - nunits))) (p + 8) (u32 nunits)) q, p).

Lemma take_found fl al brk h q b : heap_ok fl al brk h → q ∈ base :: fl.*1 → s_ptr (h_mem h) q = b.1 → b ∈ fl ++ [(base, 0)] → 0 < b.2 →
  ∃ k1 k2, fl = k1 ++ b :: k2 ∧ q = last_addr base k1.
Proof.
  intros Hok Hq Hp Hb Hb2. destruct (ring_member _ _ Hq) as (k1 & k2 & -> & ->). pose proof (ok_path _ _ _ _ Hok) as P.
  destruct (ring_next _ _ _ P) as [En P2]. rewrite En in Hp.
  apply elem_of_app in Hb as [Hb|Hb]; [|apply list_elem_of_singleton in Hb; subst; cbn in *; lia].
  assert (Hbase' : base < b.1) by (pose proof (ok_in _ _ _ _ Hok) as Hin; rewrite Forall_forall in Hin; apply (in_heap_clear brk), Hin; set_solver).
  destruct k2 as [|c k2]; cbn in Hp; [lia|]. exists k1, k2. assert (c = b) as ->; [|done].
  assert (Hsz : ∀ d, d ∈ k1 ++ c :: k2 → s_size (h_mem h) d.1 = d.2).
  { intros d Hd. apply (list_elem_of_split) in Hd as (l1 & l2 & E). rewrite E, <- app_assoc in P. apply path_app in P as [_ (_ & ? & _)]. done. }
  destruct b as [b1 b2], c as [c1 c2]. cbn in Hp. subst. f_equal.
  pose proof (Hsz (b1, c2) ltac:(set_solver)). pose proof (Hsz (b1, b2) ltac:(set_solver)). cbn in *. congruence.
Qed.

Lemma take_exact_path m k1 b k2 brk :
  let q := last_addr base k1 in
  path m base ((k1 ++ b :: k2) ++ [(base, 0)]) → good brk (k1 ++ b :: k2) → base < brk → brk ≤ 2 ^ 36 →
  path (store64 m q (s_ptr m b.1)) base ((k1 ++ k2) ++ [(base, 0)]).
Proof.
  intros q Hp Hg Hb Hbrk. rewrite <- app_assoc in Hp |- *. apply path_app in Hp as [Hp1 (E1 & E2 & Hp2)]. fold q in E1.
  assert (Ho : only_header m (store64 m q (s_ptr m b.1)) q) by apply only_header_ptr.
  assert (Hr : 0 ≤ s_ptr m b.1 < 2 ^ 64).
  { eapply ring_ptr_range; [exact Hp2| |done|done]. destruct Hg as [Hg _]. by apply Forall_app in Hg as [_ [_ Hg]%Forall_cons]. }
  assert (Hcl : ∀ c, c ∈ b :: k2 → clear q c.1 ∧ base < c.1).
  { intros c Hc. destruct Hg as [Hg1 Hg2]. rewrite Forall_forall in Hg1. destruct (in_heap_clear _ _ (Hg1 c ltac:(set_solver))) as (Hx & ? & _).
    split; [|done]. unfold q. destruct (last_addr_cases base k1) as [[_ ->]|(l' & d & -> & ->)]; [destruct Hx; [by right|by left]|].
    eapply (good_clear brk d (l' ++ b :: k2)); [|set_solver].
    eapply (good_perm brk); [|split; [apply Forall_forall; exact Hg1|exact Hg2]]. solve_Permutation. }
  assert (Hsb : s_size (store64 m q (s_ptr m b.1)) base = s_size m base).
  { unfold q. destruct (last_addr_cases base k1) as [[_ ->]|(l' & d & -> & ->)]; [apply store_ptr_size|]. apply agree_size, store_ptr_agree.
    destruct Hg as [Hg _]. rewrite Forall_forall in Hg. apply (in_heap_clear brk d), Hg. set_solver. }
  apply path_app. fold q. split.
  - destruct (last_addr_cases base k1) as [[-> _]|(l' & [d t] & -> & Eq)]; [done|]. fold q in Eq. cbn in Eq. rewrite Eq in *.
    assert (Hd : ∀ c, c ∈ l' → clear d c.1).
    { intros c Hc. eapply (good_clear brk (d, t) (l' ++ b :: k2)); [|set_solver]. eapply good_perm; [|exact Hg]. solve_Permutation. }
    eapply path_before; [exact Hp1|done|apply path_app in Hp1 as [_ (_ & Ht & _)]; by rewrite store_ptr_size| |done].
    destruct Hg as [Hg _]. rewrite Forall_forall in Hg. apply (in_heap_clear brk (d, t)), Hg. set_solver.
  - destruct k2 as [|c k2]; cbn [app path fst snd] in *; (split; [rewrite ptr_store_ptr by done; apply Hp2|]).
    + split; [|done]. rewrite Hsb. apply Hp2.
    + destruct Hp2 as (_ & E3 & Hp2). split; [rewrite <- E3; apply agree_size; eapply only_header_agree; [exact Ho|apply Hcl; set_solver]|].
      eapply path_after; [exact Hp2|exact Ho|exact Hsb|apply Hcl; set_solver|]. intros e He. apply Hcl. set_solver.
Qed.

(** Taking the end of a block writes two sizes in that block. *)
Lemma take_split_memory m b n : 0 < n < b.2 → b.2 < 2 ^ 32 →
  let p := b.1 + header_size * (b.2 - n) in
  let m' := store32 (store32 m (b.1 + 8) (u32 (b.2 - n))) (p + 8) (u32 n) in
  s_ptr m' b.1 = s_ptr m b.1 ∧ s_size m' b.1 = b.2 - n ∧ s_size m' p = n ∧ ∀ x, ¬ (b.1 ≤ x < block_end b) → m' x = m x.
Proof.
  intros Hn Hb p m'. assert (Hc : clear p b.1) by (unfold clear, p, header_size; lia).
  split; [|split; [|split]].
  - unfold m'. rewrite (agree_ptr (store32 m (b.1 + 8) (u32 (b.2 - n)))) by (by apply store_size_agree). apply store_size_ptr.
  - unfold m'. rewrite (agree_size (store32 m (b.1 + 8) (u32 (b.2 - n)))) by (by apply store_size_agree). apply size_store_size. lia.
  - apply size_store_size. lia.
  - intros x Hx. unfold m'. unfold block_end, header_size in Hx. rewrite !store32_out; [done| |]; unfold p, header_size; lia.
Qed.

Lemma take_split_path m m' k1 b k2 n brk :
  path m base ((k1 ++ b :: k2) ++ [(base, 0)]) → good brk (k1 ++ b :: k2) →
  s_ptr m' b.1 = s_ptr m b.1 → s_size m' b.1 = b.2 - n → (∀ x, ¬ (b.1 ≤ x < block_end b) → m' x = m x) →
  path m' base ((k1 ++ (b.1, b.2 - n) :: k2) ++ [(base, 0)]).
Proof.
  intros Hp Hg E1 E2 Hx. rewrite <- app_assoc in Hp |- *. apply path_app in Hp as [Hp1 (E3 & E4 & Hp2)].
  assert (Ha : ∀ c, c ∈ (base, 1) :: k1 ++ k2 → agree m m' c.1).
  { intros c Hc y Hy. apply Hx. assert (Hg' : good brk (b :: k1 ++ k2)) by (eapply good_perm; [|exact Hg]; solve_Permutation).
    apply elem_of_cons in Hc as [->|Hc]; destruct Hg' as [G1 [G2 _]]; rewrite Forall_forall in G1, G2.
    - destruct (G1 b ltac:(set_solver)) as (? & ? & ?). unfold block_end, header_size in *. cbn in *. lia.
    - destruct (G1 c ltac:(set_solver)) as (? & ? & ?). specialize (G2 c Hc). unfold apart, block_end, header_size in *. lia. }
  apply path_app. split.
  - eapply path_agree; [| |exact Hp1]; [apply (Ha (base, 1)); set_solver|]. intros c Hc. apply Ha. set_solver.
  - cbn [app path fst snd]. split; [|split; [done|]].
    + rewrite <- E3. apply agree_ptr. destruct (last_addr_cases base k1) as [[_ ->]|(l' & d & -> & ->)]; [apply (Ha (base, 1))|apply Ha]; set_solver.
    + eapply relink; [exact Hp2|done|]. intros c [Hc|Hc]%elem_of_app; [apply Ha; set_solver|].
      apply list_elem_of_singleton in Hc as ->. apply (Ha (base, 1)). set_solver.
Qed.

Lemma used_sizes fl al brk h m' c :
  heap_ok fl al brk h → rest_same fl [] (h_mem h) m' → c ∈ al → s_size m' c.1 = c.2.
Proof.
  intros Hok Hm Hc. rewrite <- (ok_size _ _ _ _ Hok c Hc). apply agree_size. intros x Hx. apply Hm. intros d Hd.
  pose proof (ok_in _ _ _ _ Hok) as G1. pose proof (ok_apart _ _ _ _ Hok) as (_ & _ & G2)%all_apart_app.
  rewrite Forall_forall in G1. destruct (G1 c ltac:(set_solver)) as (? & ? & ?).
  rewrite app_nil_r in Hd. apply elem_of_cons in Hd as [->|Hd]; [unfold block_end, header_size in *; cbn; lia|].
  specialize (G2 d c Hd Hc). unfold apart, block_end, header_size in *. lia.
Qed.

Lemma ok_good fl al brk h : heap_ok fl al brk h → good brk (fl ++ al) ∧ good brk fl.
Proof.
  intros Hok. pose proof (ok_in _ _ _ _ Hok) as G1. pose proof (ok_apart _ _ _ _ Hok) as G2. split; [done|].
  split; [by apply Forall_app in G1 as [? _]|by apply all_apart_app in G2 as [? _]].
Qed.

Lemma take_exact_ok k1 b k2 al brk h :
  heap_ok (k1 ++ b :: k2) al brk h →
  let q := last_addr base k1 in
  let h' := Heap (store64 (h_mem h) q (s_ptr (h_mem h) b.1)) q in
  heap_ok (k1 ++ k2) (b :: al) brk h' ∧ rest_same (k1 ++ b :: k2) [] (h_mem h) (h_mem h').
Proof.
  intros Hok q h'. destruct (ok_good _ _ _ _ Hok) as [Hg Hgf]. pose proof (ok_brk _ _ _ _ Hok) as Hbrk.
  pose proof (proj1 Hgf) as Hin. rewrite Forall_forall in Hin. destruct (in_heap_clear _ _ (Hin b ltac:(set_solver))) as (Hcb & Hbb & Hbr).
  assert (Hq : q = base ∨ ∃ t l, k1 = l ++ [(q, t)]).
  { unfold q. destruct (last_addr_cases base k1) as [[_ ->]|(l' & [d t] & -> & ->)]; [by left|right; by exists t, l']. }
  assert (Hpath := take_exact_path (h_mem h) k1 b k2 brk (ok_path _ _ _ _ Hok) Hgf Hbr Hbrk). fold q in Hpath. clearbody q.
  assert (Hm : rest_same (k1 ++ b :: k2) [] (h_mem h) (h_mem h')).
  { intros x Hx. apply only_header_ptr. destruct Hq as [->|(t & l & E)].
    - specialize (Hx (base, 1) ltac:(set_solver)). unfold block_end in Hx. cbn in Hx. lia.
    - specialize (Hx (q, t) ltac:(set_solver)). destruct (Hin (q, t) ltac:(set_solver)) as (_ & ? & _).
      unfold block_end, header_size in *. cbn in *. lia. }
  split; [|done]. assert (G : good brk ((k1 ++ k2) ++ b :: al)) by (eapply good_perm; [|exact Hg]; solve_Permutation).
  split; cbn [h_mem h_freep]; [| | |apply G|apply G| |done].
  - destruct Hq as [->|(t & l & ->)]; [set_solver|]. rewrite !fmap_app. cbn. set_solver.
  - exact Hpath.
  - pose proof (ok_order _ _ _ _ Hok) as (O1 & O2 & O3 & O4)%ordered_app. apply ordered_app. split; [done|].
    eapply ordered_lower; [|exact O4]. unfold block_end at 2, header_size. lia.
  - intros c [->|Hc]%elem_of_cons; [|by eapply used_sizes].
    pose proof (ok_path _ _ _ _ Hok) as P. rewrite <- app_assoc in P. apply path_app in P as [_ (_ & <- & _)].
    apply agree_size, store_ptr_agree. destruct Hq as [->|(t & l & ->)].
    + destruct Hcb; [by right|by left].
    + eapply (good_clear brk (q, t) (l ++ b :: k2)); [|set_solver]. eapply good_perm; [|exact Hgf]. solve_Permutation.
Qed.

Lemma take_split_ok k1 b k2 al brk h n :
  heap_ok (k1 ++ b :: k2) al brk h → 0 < n < b.2 →
  let q := last_addr base k1 in
  let p := b.1 + header_size * (b.2 - n) in
  let h' := Heap (store32 (store32 (h_mem h) (b.1 + 8) (u32 (b.2 - n))) (p + 8) (u32 n)) q in
  heap_ok (k1 ++ (b.1, b.2 - n) :: k2) ((p, n) :: al) brk h' ∧ rest_same (k1 ++ b :: k2) [] (h_mem h) (h_mem h').
Proof.
  intros Hok Hn q p h'. destruct (ok_good _ _ _ _ Hok) as [Hg Hgf]. pose proof (ok_brk _ _ _ _ Hok) as Hbrk.
  pose proof (proj1 Hgf) as Hin. rewrite Forall_forall in Hin. destruct (Hin b ltac:(set_solver)) as (I1 & I2 & I3).
  destruct (take_split_memory (h_mem h) b n Hn) as (E1 & E2 & E3 & E4); [unfold block_end, header_size in *; lia|]. fold p in E1, E2, E3, E4.
  change (store32 _ (p + 8) (u32 n)) with (h_mem h') in E1, E2, E3, E4.
  assert (Hm : rest_same (k1 ++ b :: k2) [] (h_mem h) (h_mem h')) by (intros x Hx; apply E4, Hx; set_solver).
  split; [|done]. assert (G : good brk ((k1 ++ (b.1, b.2 - n) :: k2) ++ (p, n) :: al)).
  { apply (good_perm brk ((b.1, b.2 - n) :: (p, n) :: k1 ++ k2 ++ al)); [solve_Permutation|]. apply good_split; [lia|lia|].
    replace (b.2 - n + n) with b.2 by lia. eapply good_perm; [|exact Hg]. destruct b. solve_Permutation. }
  split; cbn [h_freep]; [| | |apply G|apply G| |done].
  - change (h_freep h') with (last_addr base k1). destruct (last_addr_cases base k1) as [[_ ->]|(l' & d & -> & ->)]; [set_solver|]. rewrite !fmap_app. cbn. set_solver.
  - eapply take_split_path; [apply Hok|exact Hgf|done|done|done].
  - pose proof (ok_order _ _ _ _ Hok) as (O1 & O2 & O3 & O4)%ordered_app. apply ordered_app. split; [done|]. cbn. split; [done|].
    split; [lia|]. eapply ordered_lower; [|exact O4]. unfold block_end, header_size. cbn. lia.
  - intros c [->|Hc]%elem_of_cons; [done|by eapply used_sizes].
Qed.

Lemma take_ok fl al brk h n q b :
  heap_ok fl al brk h → q ∈ base :: fl.*1 → s_ptr (h_mem h) q = b.1 → b ∈ fl ++ [(base, 0)] → 0 < n ≤ b.2 →
  let '(h', p) := take_block (h_mem h) n q b in
  ∃ fl', heap_ok fl' ((p, n) :: al) brk h' ∧ units fl' + n = units fl ∧ rest_same fl [] (h_mem h) (h_mem h').
Proof.
  intros Hok Hq Hp Hb Hn. destruct (take_found _ _ _ _ q b Hok) as (k1 & k2 & -> & ->); [done..|lia|].
  unfold take_block. destruct (Z.eqb_spec b.2 n) as [<-|En].
  - exists (k1 ++ k2). destruct (take_exact_ok _ _ _ _ _ _ Hok) as [H1 H2]. rewrite <- surjective_pairing.
    split; [done|]. split; [rewrite !units_app; cbn; fold (units k2); lia|done].
  - exists (k1 ++ (b.1, b.2 - n) :: k2). destruct (take_split_ok k1 b k2 al brk h n Hok) as [H1 H2]; [lia|].
    split; [done|]. split; [rewrite !units_app; cbn; fold (units k2); lia|done].
Qed.

Ltac run_heap :=
  unfold get_ptr, get_size, get_freep, set_ptr, set_size, set_freep, set_vars, vars;
  cbv [mbind M_bind mret M_ret gets modify]; cbn [u_vars u_trace h_mem h_freep].

Lemma malloc_body_take F n prev b ks tr h :
  s_size (h_mem h) b.1 = b.2 → 0 < n ≤ b.2 → 0 ≤ b.1 → block_end b ≤ 2 ^ 36 →
  malloc_body F n (prev, b.1) ks (Uproc tr h) =
    let '(h', p) := take_block (h_mem h) n prev b in Ok (inr (p + header_size)) ks (Uproc tr h').
Proof.
  intros Hs Hn Hb He. unfold block_end, header_size in He. unfold malloc_body. rewrite bind_run. unfold get_size at 1, vars at 1. rewrite bind_run.
  cbn [gets u_vars mret M_ret]. rewrite Hs. destruct (Z.leb_spec n b.2); [|lia]. unfold take_block, plus_headers. destruct (Z.eqb_spec b.2 n) as [E|E].
  - run_heap. by rewrite u64_small by (unfold header_size; lia).
  - run_heap. rewrite size_store_size by lia. rewrite (u64_small (b.1 + header_size * (b.2 - n))) by (unfold header_size; lia).
    by rewrite u64_small by (unfold header_size; lia).
Qed.

(** Following the ring: the first block that is large enough is taken, or all
    are too small and [freep] is reached. *)
Lemma malloc_walk F n ks tr h s : ∀ l prev fuel,
  path (h_mem h) prev (l ++ [(h_freep h, s)]) → 0 < n →
  Forall (λ b, 0 ≤ b.1 ∧ block_end b ≤ 2 ^ 36 ∧ b.1 ≠ h_freep h) l → 0 ≤ h_freep h → h_freep h + header_size * s ≤ 2 ^ 36 →
  (length l < fuel)%nat →
  let W fuel st := while_fuel fuel (malloc_body F n) st ks (Uproc tr h) in
  (∃ q b, q ∈ prev :: l.*1 ∧ s_ptr (h_mem h) q = b.1 ∧ b ∈ l ++ [(h_freep h, s)] ∧ n ≤ b.2 ∧
     W fuel (prev, s_ptr (h_mem h) prev) =
       let '(h', p) := take_block (h_mem h) n q b in Ok (p + header_size) ks (Uproc tr h')) ∨
  (Forall (λ b, b.2 < n) (l ++ [(h_freep h, s)]) ∧
   W fuel (prev, s_ptr (h_mem h) prev) =
     (p ← morecore F n;
      if p =? 0 then mret 0 else nx ← get_ptr p; while_fuel (fuel - S (length l)) (malloc_body F n) (p, nx)) ks (Uproc tr h)).
Proof.
  induction l as [|b l IH]; intros prev fuel Hp Hn Hl Hf0 Hf1 Hfuel; (destruct fuel as [|fuel]; [lia|]); cbn zeta; cbn [while_fuel].
  - destruct Hp as (Ep & Es & _). cbn [fst snd] in Ep, Es. rewrite bind_run, Ep. destruct (Z.le_gt_cases n s) as [Hs|Hs].
    + left. exists prev, (h_freep h, s). split; [set_solver|]. split; [done|]. split; [set_solver|]. split; [done|].
      rewrite (malloc_body_take F n prev (h_freep h, s)) by done. by destruct (take_block _ _ _ _).
    + right. split; [by constructor; [cbn; lia|]|]. unfold malloc_body at 1. run_heap. rewrite Es. destruct (Z.leb_spec n s); [lia|].
      rewrite Z.eqb_refl. replace (S fuel - S (length []))%nat with fuel by (cbn; lia).
      destruct (morecore F n ks (Uproc tr h)) as [p ks' s'| | | |] eqn:Em; try done. destruct (p =? 0); reflexivity.
  - destruct Hp as (Ep & Es & Hp). apply Forall_cons in Hl as [(Hb0 & Hb1 & Hb2) Hl]. rewrite bind_run, Ep.
    destruct (Z.le_gt_cases n b.2) as [Hs|Hs].
    + left. exists prev, b. split; [set_solver|]. split; [done|]. split; [set_solver|]. split; [done|].
      rewrite (malloc_body_take F n prev b) by done. by destruct (take_block _ _ _ _).
    + assert (E : malloc_body F n (prev, b.1) ks (Uproc tr h) = Ok (inl (b.1, s_ptr (h_mem h) b.1)) ks (Uproc tr h)).
      { unfold malloc_body. run_heap. rewrite Es. destruct (Z.leb_spec n b.2); [lia|]. cbn [u_vars].
        by destruct (Z.eqb_spec b.1 (h_freep h)). }
      rewrite E. cbn in Hfuel. destruct (IH b.1 fuel Hp Hn Hl Hf0 Hf1 ltac:(lia)) as [(q & c & Q1 & Q2 & Q3 & Q4 & ->)|[Q1 ->]].
      * left. exists q, c. split; [cbn; set_solver|]. split; [done|]. split; [set_solver|]. done.
      * right. split; [by constructor|]. done.
Qed.

(** The end of the heap after some calls. *)
Definition heap_end (tr : list (call * answer)) : Z :=
  foldl (λ e c, match c.1 with Sbrk n => if a_ret c.2 =? -1 then e else e + n | _ => e end) lo tr.

(** sbrk() fails, or adds memory at the end of the heap; memory is less than 64 GB. *)
Definition sbrk_grows : Prop := ∀ tr n, 0 < n →
  a_ret (os tr (Sbrk n)) = -1 ∨ a_ret (os tr (Sbrk n)) = heap_end tr ∧ heap_end tr + n ≤ 2 ^ 36.

Context (Hsbrk : sbrk_grows).

(** The blocks in use keep their contents. *)
Definition kept (al : list block) (m m' : memory) : Prop := ∀ b x, b ∈ al → b.1 ≤ x < block_end b → m' x = m x.

Lemma kept_trans al m1 m2 m3 : kept al m1 m2 → kept al m2 m3 → kept al m1 m3.
Proof. intros H1 H2 b x Hb Hx. by rewrite (H2 b x), (H1 b x). Qed.

Lemma rest_kept fl l al brk m m' : good brk (fl ++ l ++ al) → rest_same fl l m m' → kept al m m'.
Proof.
  intros [G1 G2] Hr b x Hb Hx. apply Hr. intros c Hc. rewrite app_assoc in G1, G2. apply all_apart_app in G2 as (_ & _ & G2).
  rewrite Forall_forall in G1. destruct (G1 b ltac:(set_solver)) as (? & ? & ?).
  apply elem_of_cons in Hc as [->|Hc]; [unfold block_end, header_size in *; cbn; lia|]. specialize (G2 c b Hc Hb). unfold apart in G2. lia.
Qed.

(** A new block at the end of the heap. *)
Lemma grow_ok fl al brk h nu :
  heap_ok fl al brk h → lo ≤ brk → 0 < nu → brk + header_size * nu ≤ 2 ^ 36 →
  let h' := Heap (store32 (h_mem h) (brk + 8) (u32 nu)) (h_freep h) in
  heap_ok fl ((brk, nu) :: al) (brk + header_size * nu) h' ∧ kept al (h_mem h) (h_mem h').
Proof.
  intros Hok Hb Hnu He h'. destruct (ok_good _ _ _ _ Hok) as [[G1 G2] _]. unfold header_size in He.
  assert (Hc : ∀ c x, c ∈ fl ++ al → c.1 ≤ x < block_end c → h_mem h' x = h_mem h x).
  { intros c x Hin Hx. rewrite Forall_forall in G1. destruct (G1 c Hin) as (_ & _ & ?). apply store32_out. lia. }
  assert (Ha : ∀ c, c ∈ fl ++ al → agree (h_mem h) (h_mem h') c.1).
  { intros c Hin x Hx. rewrite Forall_forall in G1. destruct (G1 c Hin) as (_ & ? & _). apply (Hc c); [done|]. unfold block_end, header_size in *. lia. }
  assert (Hab : agree (h_mem h) (h_mem h') base) by (intros x Hx; apply store32_out; unfold header_size in *; lia).
  assert (G : good (brk + header_size * nu) ((brk, nu) :: fl ++ al)).
  { split; [constructor; [done|]|split; [|done]].
    - eapply Forall_impl; [exact G1|]. intros c (? & ? & ?). split; [done|]. split; [done|]. unfold header_size. lia.
    - eapply Forall_impl; [exact G1|]. intros c (? & ? & ?). right. done. }
  assert (G' : good (brk + header_size * nu) (fl ++ (brk, nu) :: al)) by (eapply good_perm; [|exact G]; solve_Permutation).
  split; [split; [apply Hok| |apply Hok|apply G'|apply G'| |unfold header_size; lia]|].
  - eapply path_agree; [done| |apply Hok]. intros c [Hin|Hin]%elem_of_app; [apply Ha; set_solver|]. by apply list_elem_of_singleton in Hin as ->.
  - intros c [->|Hin]%elem_of_cons; [apply (size_store_size (h_mem h) brk nu); unfold header_size in *; lia|]. rewrite <- (ok_size _ _ _ _ Hok c Hin). apply agree_size, Ha. set_solver.
  - intros c x Hin. apply Hc. set_solver.
Qed.

Lemma heap_end_snoc tr n a : heap_end (tr ++ [(Sbrk n, a)]) = if a_ret a =? -1 then heap_end tr else heap_end tr + n.
Proof. unfold heap_end. by rewrite foldl_app. Qed.

Lemma morecore_ok fl al h n fuel ks tr :
  heap_ok fl al (heap_end tr) h → lo ≤ heap_end tr → 0 < n < 2 ^ 27 → (S (length fl) < fuel)%nat →
  ∃ r tr' h', morecore fuel n ks (Uproc tr h) = Ok r ks (Uproc tr' h') ∧ lo ≤ heap_end tr' ∧ kept al (h_mem h) (h_mem h') ∧
    (r = 0 ∧ h' = h ∧ heap_end tr' = heap_end tr ∧ (∃ k a, tr' = tr ++ [(Sbrk k, a)] ∧ a_ret a = -1) ∨
     ∃ fl', r = h_freep h' ∧ heap_ok fl' al (heap_end tr') h' ∧ (length fl' ≤ S (length fl))%nat ∧ ∃ b, b ∈ fl' ∧ n ≤ b.2).
Proof.
  intros Hok Hlo' Hn Hf. assert (0 < lo) by (unfold header_size in Hlo; lia). unfold morecore. set (nu := if n <? 4096 then 4096 else n).
  assert (Hnu : n ≤ nu < 2 ^ 27) by (unfold nu; destruct (Z.ltb_spec n 4096); lia).
  rewrite i32_small by (unfold header_size; lia). rewrite bind_run. unfold sbrk, sys. rewrite bind_run. cbn [u_trace u_vars].
  set (a := os tr (Sbrk (nu * header_size))). set (tr' := tr ++ _). rewrite ret_run.
  assert (Et : heap_end tr' = if a_ret a =? -1 then heap_end tr else heap_end tr + nu * header_size) by apply heap_end_snoc.
  destruct (Hsbrk tr (nu * header_size) ltac:(unfold header_size; lia)) as [Ea|[Ea Hend]]; fold a in Ea; rewrite Ea in *.
  - cbn in Et |- *. exists 0, tr', h. split; [done|]. split; [lia|]. split; [by intros ? ? ? ?|]. left. split; [done|]. split; [done|]. split; [done|]. by exists (nu * header_size), a.
  - unfold header_size in Hend. destruct (Z.eqb_spec (heap_end tr) (-1)); [lia|].
    destruct (grow_ok fl al (heap_end tr) h nu Hok) as [Hok1 Hk1]; [done|lia|unfold header_size; lia|].
    rewrite bind_run. run_heap. set (h1 := Heap (store32 _ _ _) _) in *.
    destruct (free_ok _ _ _ _ _ _ fuel ks tr' Hok1 Hf) as (fl' & h' & E & Hok' & _ & Hl & (b & Hb1 & Hb2) & Hr).
    assert (Ep : plus_headers (heap_end tr) 1 = heap_end tr + header_size) by (unfold plus_headers; rewrite u64_small by (unfold header_size in *; lia); done).
    rewrite Ep, E. exists (h_freep h'), tr', h'. split; [done|]. rewrite Et. replace (nu * header_size) with (header_size * nu) by lia.
    split; [unfold header_size; lia|]. split.
    + eapply kept_trans; [exact Hk1|]. eapply rest_kept; [|exact Hr]. eapply good_perm; [|split; [apply (ok_in _ _ _ _ Hok1)|apply Hok1]]. solve_Permutation.
    + right. exists fl'. split; [done|]. split; [done|]. split; [done|]. exists b. split; [done|lia].
Qed.

Lemma ring_nodup fl : ordered base fl → NoDup (fl ++ [(base, 0)]).*1.
Proof.
  intros Ho. rewrite fmap_app. apply NoDup_app. split; [|split; [|apply NoDup_singleton]].
  - revert Ho. generalize base. induction fl as [|b fl IH]; intros l0; [constructor|].
    intros (H1 & H2 & H3). constructor; [|by eapply IH]. intros (c & Ec & Hc)%list_elem_of_fmap.
    pose proof (ordered_after _ _ _ H3 Hc). unfold block_end, header_size in *. lia.
  - intros x (c & -> & Hc)%list_elem_of_fmap Hx. apply list_elem_of_singleton in Hx. cbn in Hx. pose proof (ordered_after _ _ _ Ho Hc). lia.
Qed.

(** One round of malloc(): a block is taken, or none is large enough. *)
Lemma malloc_round F n fl al brk h ks tr fuel :
  heap_ok fl al brk h → base ≤ 2 ^ 36 → 0 < n → (length fl < fuel)%nat →
  let W := while_fuel fuel (malloc_body F n) (h_freep h, s_ptr (h_mem h) (h_freep h)) ks (Uproc tr h) in
  (∃ fl' h' p, W = Ok (p + header_size) ks (Uproc tr h') ∧ heap_ok fl' ((p, n) :: al) brk h' ∧
     units fl' + n = units fl ∧ kept al (h_mem h) (h_mem h')) ∨
  ((∀ b, b ∈ fl → b.2 < n) ∧
   W = (p ← morecore F n;
        if p =? 0 then mret 0 else nx ← get_ptr p; while_fuel (fuel - S (length fl)) (malloc_body F n) (p, nx)) ks (Uproc tr h)).
Proof.
  intros Hok Hbm Hn Hf W. destruct (ring_from _ _ _ (ok_path _ _ _ _ Hok) (ok_freep _ _ _ _ Hok)) as (l & s & Hp & Hperm).
  assert (Hlen : length l = length fl) by (apply Permutation_length in Hperm; rewrite !length_app in Hperm; cbn in Hperm; lia).
  destruct (ok_good _ _ _ _ Hok) as [Hg [Hgf _]]. pose proof (ok_brk _ _ _ _ Hok) as Hbrk.
  assert (Hr : ∀ b, b ∈ l ++ [(h_freep h, s)] → 0 ≤ b.1 ∧ block_end b ≤ 2 ^ 36).
  { intros b Hb. rewrite Hperm in Hb. apply elem_of_app in Hb as [Hb|Hb].
    - rewrite Forall_forall in Hgf. destruct (Hgf b Hb) as (? & ? & ?). unfold header_size in Hlo. lia.
    - apply list_elem_of_singleton in Hb as ->. unfold block_end, header_size. cbn. lia. }
  assert (Hnd : NoDup (l ++ [(h_freep h, s)]).*1) by (rewrite Hperm; apply ring_nodup, Hok).
  destruct (malloc_walk F n ks tr h s l (h_freep h) fuel Hp Hn) as [(q & b & Q1 & Q2 & Q3 & Q4 & E)|[Q1 E]].
  - apply Forall_forall. intros b Hb. destruct (Hr b ltac:(set_solver)). split; [done|]. split; [done|]. intros Heq.
    rewrite fmap_app in Hnd. apply NoDup_app in Hnd as (_ & Hnd & _). apply (Hnd b.1); [set_solver|]. cbn. set_solver.
  - apply (Hr (_, s)). set_solver.
  - apply (Hr (_, s)). set_solver.
  - lia.
  - left. assert (Hq : q ∈ base :: fl.*1).
    { apply elem_of_cons in Q1 as [->|(c & -> & Hc)%list_elem_of_fmap]; [apply Hok|].
      assert (Hc' : c ∈ l ++ [(h_freep h, s)]) by set_solver. rewrite Hperm in Hc'. apply elem_of_app in Hc' as [?|Hc']; [set_solver|].
      apply list_elem_of_singleton in Hc' as ->. set_solver. }
    rewrite Hperm in Q3. pose proof (take_ok fl al brk h n q b Hok Hq Q2 Q3 ltac:(lia)) as Ht. unfold W. rewrite E.
    destruct (take_block (h_mem h) n q b) as [h' p]. destruct Ht as (fl' & Hok' & Hu & Hm). exists fl', h', p.
    split; [done|]. split; [done|]. split; [done|]. by eapply (rest_kept _ []).
  - right. rewrite Hlen in E. split; [|exact E]. intros b Hb. rewrite Hperm in Q1. apply Forall_app in Q1 as [Q1 _]. rewrite Forall_forall in Q1. by apply Q1.
Qed.

(** The state between calls, before the first malloc() too. *)
Definition heap_inv (fl al : list block) (brk : Z) (h : heap) : Prop :=
  lo ≤ brk ≤ 2 ^ 36 ∧ (h_freep h = 0 ∧ fl = [] ∧ al = [] ∨ h_freep h ≠ 0 ∧ heap_ok fl al brk h).

Lemma heap_ok_inv fl al brk h : lo ≤ brk → heap_ok fl al brk h → heap_inv fl al brk h.
Proof.
  intros Hb Hok. split; [split; [done|apply Hok]|]. right. split; [|done].
  pose proof (ok_freep _ _ _ _ Hok) as [->|(b & -> & H)%list_elem_of_fmap]%elem_of_cons; [lia|].
  pose proof (ok_in _ _ _ _ Hok) as Hin. rewrite Forall_forall in Hin. destruct (Hin b ltac:(set_solver)) as (? & _). unfold header_size in Hlo. lia.
Qed.

(** The heap on the first call. *)
Lemma first_heap_ok h brk : brk ≤ 2 ^ 36 → base < 2 ^ 64 →
  heap_ok [] [] brk (Heap (store32 (store64 (h_mem h) base base) (base + 8) (u32 0)) base).
Proof.
  intros Hb Hb64. split; cbn; [set_solver| |done|done|done|by intros b ?%elem_of_nil|done]. split; [|split; [|done]].
  - rewrite store_size_ptr. apply ptr_store_ptr. lia.
  - by apply size_store_size.
Qed.

(** What malloc() ends in: a new block of [n] units after the header at
    [r - 16], or 0 because sbrk() failed. *)
Definition malloc_result (fl al : list block) (n : Z) (tr : list (call * answer)) (h : heap) (r : Z) (tr' : list (call * answer)) (h' : heap) : Prop :=
  kept al (h_mem h) (h_mem h') ∧
  (r = 0 ∧ heap_inv fl al (heap_end tr') h' ∧ (∃ k a, tr' = tr ++ [(Sbrk k, a)] ∧ a_ret a = -1) ∨
   r ≠ 0 ∧ ∃ fl', heap_inv fl' ((r - header_size, n) :: al) (heap_end tr') h').

Lemma malloc_rounds_ok fl al h n fuel ks tr :
  heap_ok fl al (heap_end tr) h → lo ≤ heap_end tr → base ≤ 2 ^ 36 → 0 < n < 2 ^ 27 → (2 * length fl + 3 < fuel)%nat →
  ∃ r tr' h', while_fuel fuel (malloc_body fuel n) (h_freep h, s_ptr (h_mem h) (h_freep h)) ks (Uproc tr h) = Ok r ks (Uproc tr' h') ∧
    malloc_result fl al n tr h r tr' h'.
Proof.
  intros Hok Hlo' Hbm Hn Hf.
  assert (Hfound : ∀ fl' (h' : heap) p tr', heap_ok fl' ((p, n) :: al) (heap_end tr') h' → lo ≤ heap_end tr' →
    p + header_size ≠ 0 ∧ heap_inv fl' ((p + header_size - header_size, n) :: al) (heap_end tr') h').
  { intros fl' h' p tr' Hok' Hl. replace (p + header_size - header_size) with p by lia. split; [|by apply heap_ok_inv].
    pose proof (ok_in _ _ _ _ Hok') as Hin. rewrite Forall_forall in Hin. destruct (Hin (p, n) ltac:(set_solver)) as (? & _).
    unfold header_size in *. cbn in *. lia. }
  destruct (malloc_round fuel n fl al (heap_end tr) h ks tr fuel) as [(fl' & h' & p & E & Hok' & _ & Hk)|[Hsmall E]]; [done|done|lia|lia| |].
  { exists (p + header_size), tr, h'. split; [done|]. split; [done|]. right. destruct (Hfound fl' h' p tr Hok' Hlo') as [? ?]. split; [done|by exists fl']. }
  rewrite E, bind_run. destruct (morecore_ok fl al h n fuel ks tr Hok Hlo' Hn) as (r & tr1 & h1 & -> & Hlo1 & Hk1 & [(-> & -> & Eb & Hfail)|H1]); [lia| |].
  { exists 0, tr1, h. split; [done|]. split; [done|]. left. split; [done|]. split; [|done]. rewrite Eb. by apply heap_ok_inv. }
  destruct H1 as (fl1 & -> & Hok1 & Hl1 & (b & Hb1 & Hb2)). destruct (heap_ok_inv _ _ _ _ Hlo1 Hok1) as [_ [[Hz [-> _]]|[Hnz _]]]; [by apply elem_of_nil in Hb1|].
  destruct (Z.eqb_spec (h_freep h1) 0); [done|]. rewrite bind_run. unfold get_ptr, vars. cbn [gets]. rewrite bind_run. cbn [u_vars mret M_ret].
  destruct (malloc_round fuel n fl1 al (heap_end tr1) h1 ks tr1 (fuel - S (length fl))) as [(fl' & h' & p & E' & Hok' & _ & Hk)|[Hsmall' _]];
    [done|done|lia|lia| |by specialize (Hsmall' b Hb1); lia].
  exists (p + header_size), tr1, h'. split; [exact E'|]. split; [by eapply kept_trans|]. right.
  destruct (Hfound fl' h' p tr1 Hok' Hlo1) as [? ?]. split; [done|by exists fl'].
Qed.

Lemma units_of_spec nbytes : 0 ≤ nbytes ≤ 2 ^ 31 - 32 →
  0 < units_of nbytes < 2 ^ 27 ∧ nbytes ≤ header_size * (units_of nbytes - 1).
Proof.
  intros H. unfold units_of, header_size. rewrite u32_small; [|split; [|apply (Z.lt_le_trans _ (2 ^ 27)); [|done]]]; Z.div_mod_to_equations; lia.
Qed.

Lemma malloc_ok fl al h nbytes fuel ks tr :
  heap_inv fl al (heap_end tr) h → base ≤ 2 ^ 36 → 0 ≤ nbytes ≤ 2 ^ 31 - 32 → (2 * length fl + 3 < fuel)%nat →
  ∃ r tr' h', malloc base fuel nbytes ks (Uproc tr h) = Ok r ks (Uproc tr' h') ∧ malloc_result fl al (units_of nbytes) tr h r tr' h'.
Proof.
  intros [Hb Hinv] Hbm Hn Hf. destruct (units_of_spec nbytes Hn) as [Hu _]. unfold malloc. run_heap.
  destruct Hinv as [(Hz & -> & ->)|[Hz Hok]].
  - rewrite Hz. cbn [Z.eqb u_vars u_trace h_mem h_freep]. set (h0 := Heap (store32 _ _ _) base).
    destruct (malloc_rounds_ok [] [] h0 (units_of nbytes) fuel ks tr) as (r & tr' & h' & E & _ & Hres); [apply first_heap_ok; lia|lia|lia|done|done|].
    exists r, tr', h'. split; [exact E|]. split; [by intros b x ?%elem_of_nil|done].
  - destruct (Z.eqb_spec (h_freep h) 0); [done|]. cbn [u_vars]. apply malloc_rounds_ok; [done|lia|done|done|done].
Qed.

(** ** Programs that use the allocator *)

(** More fuel does not change a result. *)
Lemma free_approx F F' ap : (F ≤ F')%nat → approx (free F ap) (free F' ap).
Proof. unfold free. approx_tac. Qed.

Lemma malloc_body_approx F F' n st : (F ≤ F')%nat → approx (malloc_body F n st) (malloc_body F' n st).
Proof. intros H. unfold malloc_body, morecore. pose proof (λ ap, free_approx F F' ap H). approx_tac. Qed.

Lemma malloc_approx F F' nbytes : (F ≤ F')%nat → approx (malloc base F nbytes) (malloc base F' nbytes).
Proof. intros H. unfold malloc. pose proof (λ n st, malloc_body_approx F F' n st H). approx_tac. Qed.

(** A step of a program, with the blocks it has: it calls malloc() or free(),
    or writes into one of its blocks. *)
Inductive client_step : list block * uproc heap → list block * uproc heap → Prop :=
  | do_malloc al s fuel nbytes r s' :
      0 ≤ nbytes ≤ 2 ^ 31 - 32 → malloc base fuel nbytes [] s = Ok r [] s' → r ≠ 0 →
      client_step (al, s) ((r - header_size, units_of nbytes) :: al, s')
  | do_malloc_fails al s fuel nbytes s' :
      0 ≤ nbytes ≤ 2 ^ 31 - 32 → malloc base fuel nbytes [] s = Ok 0 [] s' →
      client_step (al, s) (al, s')
  | do_free al s fuel b al' s' :
      al ≡ₚ b :: al' → free fuel (b.1 + header_size) [] s = Ok tt [] s' →
      client_step (al, s) (al', s')
  | do_store al s b m' :
      b ∈ al → (∀ x, ¬ (b.1 + header_size ≤ x < block_end b) → m' x = h_mem (u_vars s) x) →
      client_step (al, s) (al, Uproc (u_trace s) (Heap m' (h_freep (u_vars s)))).

Definition client_ok (c : list block * uproc heap) : Prop :=
  ∃ fl, heap_inv fl c.1 (heap_end (u_trace c.2)) (u_vars c.2).

Lemma heap_ok_perm fl al al' brk h : al ≡ₚ al' → heap_ok fl al brk h → heap_ok fl al' brk h.
Proof.
  intros Hp Hok. destruct (ok_good _ _ _ _ Hok) as [Hg _]. apply (good_perm _ _ (fl ++ al')) in Hg; [|by rewrite Hp].
  split; try apply Hok; try apply Hg. intros b Hb. apply Hok. by rewrite Hp.
Qed.

Lemma heap_ok_store fl al brk h b m' :
  heap_ok fl al brk h → b ∈ al → (∀ x, ¬ (b.1 + header_size ≤ x < block_end b) → m' x = h_mem h x) →
  heap_ok fl al brk (Heap m' (h_freep h)).
Proof.
  intros Hok Hb Hm. destruct (ok_good _ _ _ _ Hok) as [[G1 G2] _]. rewrite Forall_forall in G1.
  assert (Ha : ∀ c, c ∈ fl ++ al → agree (h_mem h) m' c.1).
  { intros c Hc x Hx. apply Hm. destruct (decide (c = b)) as [->|Hne]; [lia|].
    apply list_elem_of_split in Hb as (l1 & l2 & ->). assert (Hperm : fl ++ l1 ++ b :: l2 ≡ₚ b :: fl ++ l1 ++ l2) by solve_Permutation.
    destruct (all_apart_perm _ _ Hperm G2) as [G3 _]. destruct (G1 c Hc) as (? & ? & ?). rewrite Hperm in Hc.
    apply elem_of_cons in Hc as [?|Hc]; [done|]. rewrite Forall_forall in G3. specialize (G3 c Hc). unfold apart, block_end, header_size in *. lia. }
  assert (Hab : agree (h_mem h) m' base).
  { intros x Hx. apply Hm. destruct (G1 b ltac:(set_solver)) as (? & _). unfold header_size in *. lia. }
  split; try apply Hok; cbn [h_mem].
  - eapply path_agree; [done| |apply Hok]. intros c [Hc|Hc]%elem_of_app; [apply Ha; set_solver|]. by apply list_elem_of_singleton in Hc as ->.
  - intros c Hc. rewrite <- (ok_size _ _ _ _ Hok c Hc). apply agree_size, Ha. set_solver.
Qed.

Lemma inv_base fl al brk h : heap_inv fl al brk h → base ≤ 2 ^ 36.
Proof. intros [H _]. unfold header_size in Hlo. lia. Qed.

(** The results of the calls, whatever the fuel. *)
Lemma malloc_at fl al s nbytes fuel r s' :
  heap_inv fl al (heap_end (u_trace s)) (u_vars s) → 0 ≤ nbytes ≤ 2 ^ 31 - 32 → malloc base fuel nbytes [] s = Ok r [] s' →
  malloc_result fl al (units_of nbytes) (u_trace s) (u_vars s) r (u_trace s') (u_vars s').
Proof.
  intros Hi Hn E. destruct s as [tr h]. set (F := (fuel + 2 * length fl + 4)%nat). apply (approx_ok _ (malloc base F nbytes)) in E; [|apply malloc_approx; lia].
  destruct (malloc_ok fl al h nbytes F [] tr Hi (inv_base _ _ _ _ Hi) Hn) as (r' & tr' & h' & E' & Hres); [lia|].
  rewrite E' in E. by injection E as <- <-.
Qed.

Lemma used_heap_ok fl al brk h b al' : heap_inv fl al brk h → al ≡ₚ b :: al' → lo ≤ brk ∧ heap_ok fl (b :: al') brk h.
Proof.
  intros [Hb [(_ & _ & ->)|[_ Hok]]] Hp; [by apply Permutation_nil_cons in Hp|]. split; [lia|]. by eapply heap_ok_perm.
Qed.

Lemma free_at fl al s b al' fuel s' :
  heap_inv fl al (heap_end (u_trace s)) (u_vars s) → al ≡ₚ b :: al' → free fuel (b.1 + header_size) [] s = Ok tt [] s' →
  ∃ fl', heap_inv fl' al' (heap_end (u_trace s')) (u_vars s') ∧ kept al' (h_mem (u_vars s)) (h_mem (u_vars s')).
Proof.
  intros Hi Hp E. destruct (used_heap_ok _ _ _ _ _ _ Hi Hp) as [Hb Hok]. destruct s as [tr h], b as [bp sz]. cbn [u_trace u_vars fst] in *.
  apply (approx_ok _ (free (fuel + length fl + 2) (bp + header_size))) in E; [|apply free_approx; lia].
  destruct (free_ok fl al' _ h bp sz (fuel + length fl + 2) [] tr Hok) as (fl' & h' & E' & Hok' & _ & _ & _ & Hr); [lia|].
  rewrite E' in E. injection E as <-. exists fl'. split; [by apply heap_ok_inv|]. eapply rest_kept; [|exact Hr].
  eapply good_perm; [|exact (proj1 (ok_good _ _ _ _ Hok))]. solve_Permutation.
Qed.

Lemma client_step_ok c c' : client_step c c' → client_ok c → client_ok c'.
Proof.
  intros [al s fuel nbytes r s' Hn E Hr|al s fuel nbytes s' Hn E|al s fuel b al' s' Hp E|al s b m' Hb Hm] [fl Hi]; cbn [fst snd] in *.
  - destruct (malloc_at _ _ _ _ _ _ _ Hi Hn E) as [_ [[? _]|(_ & fl' & Hi')]]; [done|]. by exists fl'.
  - destruct (malloc_at _ _ _ _ _ _ _ Hi Hn E) as [_ [(_ & Hi' & _)|[? _]]]; [|done]. by exists fl.
  - destruct (free_at _ _ _ _ _ _ _ Hi Hp E) as (fl' & Hi' & _). by exists fl'.
  - exists fl. destruct Hi as [H [(_ & _ & ->)|[Hf Hok]]]; [by apply elem_of_nil in Hb|]. split; [done|]. right. split; [done|].
    by eapply heap_ok_store.
Qed.

(** The state in which a program starts. *)
Definition program_start (m : memory) : list block * uproc heap := ([], Uproc [] (Heap m 0)).

Lemma reachable_ok m c : lo ≤ 2 ^ 36 → rtc client_step (program_start m) c → client_ok c.
Proof.
  intros Hl. apply (rtc_ind_r (R := client_step) client_ok); [|intros; by eapply client_step_ok].
  exists []. split; [done|]. by left.
Qed.



(** C21: free() gives a block back: it returns, makes no system call and
    leaves the other blocks as they are, and a malloc() that fits the block
    then succeeds without sbrk(). *)
Theorem free_then_malloc m al s b al' :
  lo ≤ 2 ^ 36 → rtc client_step (program_start m) (al, s) → al ≡ₚ b :: al' →
  ∃ fuel s', free fuel (b.1 + header_size) [] s = Ok tt [] s' ∧ u_trace s' = u_trace s ∧
    kept al' (h_mem (u_vars s)) (h_mem (u_vars s')) ∧
    ∀ nbytes, 0 ≤ nbytes ≤ 2 ^ 31 - 32 → units_of nbytes ≤ b.2 →
    ∃ fuel' r s'', malloc base fuel' nbytes [] s' = Ok r [] s'' ∧ r ≠ 0 ∧ u_trace s'' = u_trace s.
Proof.
  intros Hl Hr Hp. destruct (reachable_ok _ _ Hl Hr) as [fl Hi]. destruct s as [tr h], b as [bp sz]. cbn [fst snd u_trace u_vars] in *.
  destruct (used_heap_ok _ _ _ _ _ _ Hi Hp) as [Hb Hok].
  destruct (free_ok fl al' _ h bp sz (length fl + 2) [] tr Hok) as (fl' & h' & E & Hok' & _ & _ & (c & Hc1 & Hc2) & Hm); [lia|].
  eexists _, (Uproc tr h'). split; [exact E|]. split; [done|]. split.
  { eapply rest_kept; [|exact Hm]. eapply good_perm; [|exact (proj1 (ok_good _ _ _ _ Hok))]. solve_Permutation. }
  intros nbytes Hn Hu. destruct (units_of_spec _ Hn) as [Hu0 _]. exists (S (length fl')).
  destruct (malloc_round (S (length fl')) (units_of nbytes) fl' al' (heap_end tr) h' [] tr (S (length fl'))) as [(fl2 & h2 & p & E2 & Hok2 & _)|[Hs _]];
    [done|by eapply inv_base|lia|lia| |by specialize (Hs c Hc1); lia].
  exists (p + header_size), (Uproc tr h2). split; [|split; [|done]].
  - unfold malloc. run_heap. destruct (heap_ok_inv _ _ _ _ Hb Hok') as [_ [(_ & -> & _)|[Hnz _]]]; [by apply elem_of_nil in Hc1|].
    destruct (Z.eqb_spec (h_freep h') 0); [done|]. exact E2.
  - pose proof (ok_in _ _ _ _ Hok2) as Hin. rewrite Forall_forall in Hin. destruct (Hin (p, units_of nbytes) ltac:(set_solver)) as (? & _).
    unfold header_size in *. cbn in *. lia.
Qed.
End umalloc_spec.

(** A kernel that grants memory after address 12288 while it lasts. *)
Definition granting_os : OS := λ tr c,
  match c with
  | Sbrk n => if heap_end 12288 tr + n <=? 2 ^ 36 then Answer (heap_end 12288 tr) [] else Answer (-1) []
  | _ => Answer (-1) []
  end.

Lemma granting_sbrk : sbrk_grows (O := granting_os) 12288.
Proof.
  intros tr n Hn. unfold os, granting_os. destruct (Z.leb_spec (heap_end 12288 tr + n) (2 ^ 36)); [right|left]; done.
Qed.


(** The state after a first malloc(100). *)
Definition after_malloc : uproc heap :=
  match malloc (O := granting_os) 8192 5 100 [] (Uproc [] (Heap (λ _, 0) 0)) with
  | Ok _ _ s => s
  | _ => Uproc [] (Heap (λ _, 0) 0)
  end.

Lemma after_malloc_eq : ∃ r, malloc (O := granting_os) 8192 5 100 [] (Uproc [] (Heap (λ _, 0) 0)) = Ok r [] after_malloc ∧ r = 77712.
Proof.
  unfold after_malloc. assert (E : match malloc (O := granting_os) 8192 5 100 [] (Uproc [] (Heap (λ _, 0) 0)) with Ok r ks _ => (r, length ks) | _ => (0, 0%nat) end = (77712, 0%nat)) by (vm_compute; reflexivity).
  destruct (malloc _ _ _ _ _) as [r [|? ?] s| | | |]; try discriminate E. injection E as ->. by exists 77712.
Qed.

Lemma free_then_malloc_witness :
  ∃ fuel s', free fuel 77712 [] after_malloc = Ok tt [] s' ∧ u_trace s' = u_trace after_malloc ∧
    kept [] (h_mem (u_vars after_malloc)) (h_mem (u_vars s')) ∧
    ∀ nbytes, 0 ≤ nbytes ≤ 2 ^ 31 - 32 → units_of nbytes ≤ 8 →
    ∃ fuel' r s'', malloc (O := granting_os) 8192 fuel' nbytes [] s' = Ok r [] s'' ∧ r ≠ 0 ∧ u_trace s'' = u_trace after_malloc.
Proof.
  destruct after_malloc_eq as (r & E & Hr).
  refine (free_then_malloc (O := granting_os) 8192 12288 ltac:(lia) ltac:(unfold header_size; lia) granting_sbrk (λ _, 0)
    [(77696, 8)] after_malloc (77696, 8) [] ltac:(lia) _ ltac:(done)).
  eapply rtc_once. subst r. exact (do_malloc (O := granting_os) 8192 [] _ 5 100 77712 after_malloc ltac:(lia) E ltac:(lia)).
Defined.

