(* ===== verification/Programs.v ===== *)
(** * User programs

    The functions of the programs of user/ (the shell and grep have their own
    files).  A program's [argv] is a list of strings, its name first; [fuel]
    bounds the loops that end only with the input, the children or the
    directories. *)

From S2P Require Import Prelude KMonad Memory CString Riscv State Console Bio Fs Ulib User Umalloc.

Definition line_of (s : string) : list Z := bytes_of s ++ newline.

(** ** cat.c, with the variable [buf] *)
Section cat.
Context `{O : OS}.
#[local] Abbreviation U := (M (uproc (list Z))).

Definition cat_body (fd : Z) (_ : unit) : U (unit + Z) :=
  r ← read fd 512;
  let n := r.1 in
  if 0 <? n then
    set_vars (λ buf, put_bytes buf 0 r.2) ;;
    buf ← vars;
    w ← write 1 (bytes_at buf 0 n);
    when (negb (w =? n)) (fprintf 2 (line_of "cat: write error") [] ;; exit 1) ;;
    mret (inl tt)
  else mret (inr n).

Definition cat (fuel : nat) (fd : Z) : U unit :=
  n ← while_fuel fuel (cat_body fd) tt;
  when (n <? 0) (fprintf 2 (line_of "cat: read error") [] ;; exit 1).

Definition cat_main (fuel : nat) (argv : list (list Z)) : U unit :=
  match argv with
  | [] | [_] => cat fuel 0 ;; exit 0
  | _ :: files =>
      for_each files (λ f,
        fd ← open f O_RDONLY;
        when (fd <? 0) (fprintf 2 (line_of "cat: cannot open %s") [A_str (Some f)] ;; exit 1) ;;
        cat fuel fd ;;
        close fd ;;
        mret tt) ;;
      exit 0
  end.
End cat.

(** ** wc.c, with the variable [buf] *)

Record counts := Counts { wc_l : Z; wc_w : Z; wc_c : Z; wc_inword : bool }.

(** The loop over the characters that were read. *)
Definition wc_char (k : counts) (x : Z) : counts :=
  let c := i32 (wc_c k + 1) in
  let l := if x =? 10 then i32 (wc_l k + 1) else wc_l k in
  match strchr [32; 13; 9; 10; 11] x with
  | Some _ => Counts l (wc_w k) c false
  | None => if negb (wc_inword k) then Counts l (i32 (wc_w k + 1)) c true else Counts l (wc_w k) c (wc_inword k)
  end.

Section wc.
Context `{O : OS}.
#[local] Abbreviation U := (M (uproc (list Z))).

Definition wc_body (fd : Z) (k : counts) : U (counts + counts * Z) :=
  r ← read fd 512;
  let n := r.1 in
  if 0 <? n then
    set_vars (λ buf, put_bytes buf 0 r.2) ;;
    buf ← vars;
    mret (inl (foldl wc_char k (bytes_at buf 0 n)))
  else mret (inr (k, n)).

Definition wc (fuel : nat) (fd : Z) (name : list Z) : U unit :=
  r ← while_fuel fuel (wc_body fd) (Counts 0 0 0 false);
  let '(k, n) := r in
  when (n <? 0) (printf (line_of "wc: read error") [] ;; exit 1) ;;
  printf (line_of "%d %d %d %s") [A_int (wc_l k); A_int (wc_w k); A_int (wc_c k); A_str (Some name)].

Definition wc_main (fuel : nat) (argv : list (list Z)) : U unit :=
  match argv with
  | [] | [_] => wc fuel 0 [] ;; exit 0
  | _ :: files =>
      for_each files (λ f,
        fd ← open f O_RDONLY;
        when (fd <? 0) (printf (line_of "wc: cannot open %s") [A_str (Some f)] ;; exit 1) ;;
        wc fuel fd f ;;
        close fd ;;
        mret tt) ;;
      exit 0
  end.
End wc.

(** ** Programs without variables of their own *)
Section simple.
Context `{O : OS}.
#[local] Abbreviation U := (M (uproc unit)).

(** echo.c *)
Fixpoint echo_args (args : list (list Z)) : U unit :=
  match args with
  | [] => mret tt
  | a :: args' =>
      write 1 (take (Z.to_nat (strlen a)) a) ;;
      (match args' with [] => write 1 [10] | _ => write 1 [32] end) ;;
      echo_args args'
  end.
Definition echo_main (argv : list (list Z)) : U unit := echo_args (tail argv) ;; exit 0.

(** kill.c *)
Definition kill_main (argv : list (list Z)) : U unit :=
  when (Z.of_nat (length argv) <? 2) (fprintf 2 (line_of "usage: kill pid...") [] ;; exit 1) ;;
  for_each (tail argv) (λ a, kill (atoi a) ;; mret tt) ;;
  exit 0.

(** ln.c *)
Definition ln_main (argv : list (list Z)) : U unit :=
  match argv with
  | [_; old; new] =>
      r ← link old new;
      when (r <? 0) (fprintf 2 (line_of "link %s %s: failed") [A_str (Some old); A_str (Some new)]) ;;
      exit 0
  | _ => fprintf 2 (line_of "Usage: ln old new") [] ;; exit 1
  end.

(** mkdir.c; [Some tt] is the break. *)
Definition mkdir_main (argv : list (list Z)) : U unit :=
  when (Z.of_nat (length argv) <? 2) (fprintf 2 (line_of "Usage: mkdir files...") [] ;; exit 1) ;;
  for_find (tail argv) (λ a,
    r ← mkdir a;
    if r <? 0 then
      fprintf 2 (line_of "mkdir: %s failed to create") [A_str (Some a)] ;;
      mret (Some tt)
    else mret None) ;;
  exit 0.

(** rm.c *)
Definition rm_main (argv : list (list Z)) : U unit :=
  when (Z.of_nat (length argv) <? 2) (fprintf 2 (line_of "Usage: rm files...") [] ;; exit 1) ;;
  for_find (tail argv) (λ a,
    r ← unlink a;
    if r <? 0 then
      fprintf 2 (line_of "rm: %s failed to delete") [A_str (Some a)] ;;
      mret (Some tt)
    else mret None) ;;
  exit 0.

(** sleep.c *)
Definition sleep_main (argv : list (list Z)) : U unit :=
  match argv with
  | [_; a] => sleep (atoi a) ;; exit 0
  | _ => fprintf 2 (line_of "usage: sleep [seconds]") [] ;; exit 1
  end.

(** zombie.c *)
Definition zombie_main : U unit :=
  pid ← fork;
  when (0 <? pid) (sleep 5 ;; mret tt) ;;
  exit 0.

(** init.c *)
Definition init_wait_body (pid : Z) (_ : unit) : U (unit + unit) :=
  wpid ← wait;
  if wpid =? pid then mret (inr tt)
  else if wpid <? 0 then printf (line_of "init: wait returned an error") [] ;; exit 1
  else mret (inl tt).

Definition init_body (fuel : nat) (_ : unit) : U (unit + unit) :=
  printf (line_of "init: starting sh") [] ;;
  pid ← fork;
  when (pid <? 0) (printf (line_of "init: fork failed") [] ;; exit 1) ;;
  when (pid =? 0)
    (exec (bytes_of "sh") [bytes_of "sh"] ;;
     printf (line_of "init: exec sh failed") [] ;;
     exit 1) ;;
  while_fuel fuel (init_wait_body pid) tt ;;
  mret (inl tt).

Definition init_main (fuel : nat) : U unit :=
  fd ← open (bytes_of "console") O_RDWR;
  when (fd <? 0) (mknod (bytes_of "console") CONSOLE 0 ;; open (bytes_of "console") O_RDWR ;; mret tt) ;;
  dup 0 ;;
  dup 0 ;;
  while_fuel fuel (init_body fuel) tt.

(** pingpong.c; a failed read leaves the character 0. *)
Definition received (r : Z * list Z) : Z := default 0 (head r.2).

Definition pingpong_main : U unit :=
  r1 ← pipe;
  let '(e1, (ftoc0, ftoc1)) := r1 in
  when (e1 =? -1) (fprintf 2 (line_of "error: create pipe") [] ;; exit 1) ;;
  r2 ← pipe;
  let '(e2, (ctof0, ctof1)) := r2 in
  when (e2 =? -1) (fprintf 2 (line_of "error: create pipe") [] ;; exit 1) ;;
  pid ← fork;
  when (pid <? 0) (fprintf 2 (line_of "error: fork") [] ;; exit 1) ;;
  if pid =? 0 then
    child_pid ← getpid;
    r ← read ftoc0 1;
    printf (line_of "%d: received ping") [A_int child_pid] ;;
    printf (line_of "%d: received %c") [A_int child_pid; A_char (received r)] ;;
    write ctof1 [66] ;;
    close ftoc0 ;;
    close ftoc1 ;;
    close ctof0 ;;
    close ctof1 ;;
    exit 0
  else
    father_pid ← getpid;
    write ftoc1 [65] ;;
    r ← read ctof0 1;
    printf (line_of "%d: received pong") [A_int father_pid] ;;
    printf (line_of "%d: received %c") [A_int father_pid; A_char (received r)] ;;
    close ftoc0 ;;
    close ftoc1 ;;
    close ctof0 ;;
    close ctof1 ;;
    exit 0.
End simple.

(** ** primes.c *)
Section primes.
Context `{O : OS}.
#[local] Abbreviation U := (M (uproc unit)).

(** The int whose bytes a read overwrites, after it. *)
Definition int_after (old : Z) (bytes : list Z) : Z := i32 (bytes_to_Z (put_bytes (Z_to_bytes 4 (u32 old)) 0 bytes)).
Definition int_bytes (n : Z) : list Z := Z_to_bytes 4 (u32 n).

(** Pass on the numbers that the first does not divide. *)
Definition sieve_body (fd out firstint receiveint : Z) : U (Z + unit) :=
  r ← read fd 4;
  if r.1 =? 0 then mret (inr tt) else
  let receiveint := int_after receiveint r.2 in
  if firstint =? 0 then stuck "division by zero" else
  when (negb (Z.rem receiveint firstint =? 0)) (write out (int_bytes receiveint) ;; mret tt) ;;
  mret (inl receiveint).

(** [while(wait(NULL) > 0) ;] *)
Definition wait_all_body (_ : unit) : U (unit + unit) :=
  w ← wait;
  if 0 <? w then mret (inl tt) else mret (inr tt).

Fixpoint prime_process (fuel : nat) (father0 : Z) : U unit :=
  match fuel with
  | 0%nat => λ _ _, OutOfFuel
  | S fuel' =>
      p ← pipe;
      let '(e, (me0, me1)) := p in
      when (e =? -1) (fprintf 2 (line_of "error: create pipe") [] ;; exit 1) ;;
      r ← read father0 4;
      let firstint := int_after 0 r.2 in
      if r.1 =? 0 then mret tt else
      printf (line_of "prime %d") [A_int firstint] ;;
      while_fuel fuel (sieve_body father0 me1 firstint) 0 ;;
      close father0 ;;
      close me1 ;;
      pid ← fork;
      when (pid <? 0) (fprintf 2 (line_of "error: fork") [] ;; exit 1) ;;
      when (pid =? 0) (prime_process fuel' me0 ;; exit 0) ;;
      while_fuel fuel wait_all_body tt
  end.

Definition primes_main (fuel : nat) : U unit :=
  p ← pipe;
  let '(e, (me0, me1)) := p in
  when (e =? -1) (fprintf 2 (line_of "error: create pipe") [] ;; exit 1) ;;
  for_each (Z.of_nat <$> seq 2 34) (λ i, write me1 (int_bytes i) ;; mret tt) ;;
  close me1 ;;
  pid ← fork;
  when (pid <? 0) (fprintf 2 (line_of "error: fork") [] ;; exit 1) ;;
  when (pid =? 0) (prime_process fuel me0 ;; exit 0) ;;
  while_fuel fuel wait_all_body tt ;;
  exit 0.
End primes.

(** ** ls.c *)

(** Find first character after last slash: [rev] is the path from its end. *)
Fixpoint before_slash (rev : list Z) : list Z :=
  match rev with
  | [] => []
  | c :: rev' => if c =? 47 then [] else c :: before_slash rev'
  end.
Definition after_slash (path : list Z) : list Z := reverse (before_slash (reverse path)).

(** Return blank-padded name. *)
Definition fmtname (path : list Z) : list Z :=
  let p := after_slash path in
  if DIRSIZ <=? strlen p then p else p ++ replicate (Z.to_nat (DIRSIZ - strlen p)) 32.

(** The fields of the struct stat and struct dirent that the kernel stores. *)
Definition stat_ino (st : list Z) : Z := get32 st 4.
Definition stat_type (st : list Z) : Z := i16 (get16 st 8).
Definition stat_size (st : list Z) : Z := get64 st 16.
Definition de_inum (de : list Z) : Z := get16 de 0.
Definition de_name (de : list Z) : list Z := bytes_at de 2 DIRSIZ.

Section ls.
Context `{O : OS}.
#[local] Abbreviation U := (M (uproc unit)).

(** One directory entry. *)
Definition ls_entry (fd : Z) (path : list Z) (_ : unit) : U (unit + unit) :=
  r ← read fd 16;
  if negb (r.1 =? 16) then mret (inr tt) else
  let de := r.2 in
  if de_inum de =? 0 then mret (inl tt) else
  let buf := path ++ 47 :: until_nul (de_name de) in
  s ← stat buf;
  if s.1 <? 0 then
    printf (line_of "ls: cannot stat %s") [A_str (Some buf)] ;;
    mret (inl tt)
  else
  printf (line_of "%s %d %d %d")
    [A_str (Some (fmtname buf)); A_int (stat_type s.2); A_int (i32 (stat_ino s.2)); A_int (i32 (stat_size s.2))] ;;
  mret (inl tt).

Definition ls (fuel : nat) (path : list Z) : U unit :=
  fd ← open path O_RDONLY;
  if fd <? 0 then fprintf 2 (line_of "ls: cannot open %s") [A_str (Some path)] else
  s ← fstat fd;
  if s.1 <? 0 then
    fprintf 2 (line_of "ls: cannot stat %s") [A_str (Some path)] ;;
    close fd ;;
    mret tt
  else
  let type := stat_type s.2 in
  (if (type =? T_DEVICE) || (type =? T_FILE) then
     printf (line_of "%s %d %d %l")
       [A_str (Some (fmtname path)); A_int type; A_int (i32 (stat_ino s.2)); A_long (stat_size s.2)]
   else if type =? T_DIR then
     if 512 <? strlen path + 1 + DIRSIZ + 1 then printf (line_of "ls: path too long") []
     else while_fuel fuel (ls_entry fd path) tt
   else mret tt) ;;
  close fd ;;
  mret tt.

Definition ls_main (fuel : nat) (argv : list (list Z)) : U unit :=
  match argv with
  | [] | [_] => ls fuel (bytes_of ".") ;; exit 0
  | _ :: files => for_each files (ls fuel) ;; exit 0
  end.
End ls.

(** ** find.c *)
Section find.
Context `{O : OS}.
#[local] Abbreviation U := (M (uproc unit)).

Definition BUF_LEN : Z := 512.

(** strcmp() of the name of an entry: undefined when the comparison runs past
    a name without NUL. *)
Definition name_cmp (de target : list Z) : U Z :=
  let name := de_name de in
  if (Z.of_nat (length (until_nul name)) =? DIRSIZ) && bool_decide (take (Z.to_nat DIRSIZ) target = name)
  then stuck "read past de.name" else mret (strcmp (until_nul name) target).

(** One entry of the directory; [recurse] is find() on a subdirectory. *)
Definition find_entry (recurse : list Z → U unit) (fd : Z) (path target : list Z) (_ : unit) : U (unit + unit) :=
  r ← read fd 16;
  if negb (r.1 =? 16) then mret (inr tt) else
  let de := r.2 in
  if de_inum de =? 0 then mret (inl tt) else
  if (strcmp (bytes_of ".") (until_nul (de_name de)) =? 0) || (strcmp (bytes_of "..") (until_nul (de_name de)) =? 0) then mret (inl tt) else
  let buf := path ++ 47 :: until_nul (de_name de) in
  s ← stat buf;
  if s.1 <? 0 then
    fprintf 2 (line_of "find: cannot stat %s") [A_str (Some buf)] ;;
    mret (inl tt)
  else
  let type := stat_type s.2 in
  (if (type =? T_FILE) || (type =? T_DEVICE) then
     c ← name_cmp de target;
     when (c =? 0) (printf (line_of "%s") [A_str (Some buf)])
   else
     assert_that (bytes_of "st.type == T_DIR") "user/find.c" 65 (type =? T_DIR) ;;
     c ← name_cmp de target;
     when (c =? 0) (printf (line_of "%s") [A_str (Some buf)]) ;;
     recurse buf) ;;
  mret (inl tt).

(** find() on the directory whose path is in [buf]; [fuel] bounds the depth
    and the entries of a directory. *)
Fixpoint find (fuel : nat) (buf target : list Z) : U unit :=
  match fuel with
  | 0%nat => λ _ _, OutOfFuel
  | S fuel' =>
      when (BUF_LEN <? Z.of_nat (length buf) + 1 + DIRSIZ + 1) (fprintf 2 (line_of "find: path too long") [] ;; exit 1) ;;
      fd ← open buf O_RDONLY;
      if fd <? 0 then fprintf 2 (line_of "find: cannot open %s") [A_str (Some buf)] else
      s ← fstat fd;
      if s.1 <? 0 then
        fprintf 2 (line_of "find: cannot stat %s") [A_str (Some buf)] ;;
        close fd ;;
        mret tt
      else
      assert_that (bytes_of "st.type == T_DIR") "user/find.c" 34 (stat_type s.2 =? T_DIR) ;;
      while_fuel fuel (find_entry (λ b, find fuel' b target) fd buf target) tt ;;
      close fd ;;
      mret tt
  end.

Definition find_main (fuel : nat) (argv : list (list Z)) : U unit :=
  match argv with
  | [_; dir; target] =>
      assert_that (bytes_of "0 != strcmp(" ++ [34; 46; 34] ++ bytes_of ", argv[2]) && 0 != strcmp(" ++ [34; 46; 46; 34] ++ bytes_of ", argv[2])") "user/find.c" 91
        (negb (strcmp (bytes_of ".") target =? 0) && negb (strcmp (bytes_of "..") target =? 0)) ;;
      when (BUF_LEN <=? Z.of_nat (length dir)) (stuck "strcpy past buf") ;;
      when (BUF_LEN <? Z.of_nat (length dir) + 1 + DIRSIZ + 1) (fprintf 2 (line_of "find: dirname too long") [] ;; exit 1) ;;
      find fuel dir target ;;
      exit 0
  | _ => fprintf 2 (line_of "usage: find [dirname] [targetname]") [] ;; exit 1
  end.
End find.

(** ** xargs.c

    The arguments of the command are in memory from malloc(). *)
Section xargs.
Context `{O : OS}.
(** The variable [base] of umalloc.c. *)
Context (base : Z).
#[local] Abbreviation U := (M (uproc heap)).

Definition ARGV_LEN : Z := 64.

Definition store_at (p : Z) (bytes : list Z) : U unit := set_vars (λ h, Heap (store_bytes (h_mem h) p bytes) (h_freep h)).

(** [(char * )malloc(sizeof(ARGV_LEN))]: the size of an int.  A store through
    a null pointer faults. *)
Definition alloc_arg (fuel : nat) : U Z :=
  p ← malloc base fuel 4;
  if p =? 0 then stuck "store through a null pointer" else mret p.

(** [final_argv[i] = p] *)
Definition set_argv (final_argv : list Z) (i : nat) (p : Z) : U (list Z) :=
  if Z.of_nat MAXARG <=? Z.of_nat i then stuck "final_argv" else mret (<[ i := p ]> final_argv).

(** The arguments of xargs itself. *)
Fixpoint copy_args (fuel : nat) (args : list (list Z)) (final_argv : list Z) (i : nat) : U (list Z * nat) :=
  match args with
  | [] => mret (final_argv, i)
  | a :: args' =>
      assert_that (bytes_of "strlen(argv[i+1]) < ARGV_LEN") "user/xargs.c" 39 (strlen a <? ARGV_LEN) ;;
      p ← alloc_arg fuel;
      final_argv ← set_argv final_argv i p;
      store_at p (a ++ [0]) ;;
      copy_args fuel args' final_argv (S i)
  end.

(** The inner loop: characters up to a space, from [p], [k] of them so far. *)
Fixpoint copy_word (q : Z) (buf : list Z) (k : nat) : U (list Z * nat) :=
  match buf with
  | [] => stuck "buf"
  | c :: buf' =>
      if negb (c =? 0) && negb (c =? 32) then
        store_at (q + Z.of_nat k) [c] ;;
        assert_that (bytes_of "k < ARGV_LEN") "user/xargs.c" 52 (Z.of_nat (S k) <? ARGV_LEN) ;;
        copy_word q buf' (S k)
      else mret (buf, k)
  end.

(** One turn of [while( *p)]; [p] is the rest of [buf]. *)
Definition split_body (fuel : nat) (st : list Z * nat * list Z) : U (list Z * nat * list Z + list Z) :=
  let '(final_argv, i, p) := st in
  match p with
  | [] => stuck "buf"
  | c :: _ =>
      if c =? 0 then mret (inr final_argv) else
      q ← alloc_arg fuel;
      final_argv ← set_argv final_argv i q;
      r ← copy_word q p 0;
      store_at (q + Z.of_nat r.2) [0] ;;
      mret (inl (final_argv, S i, tail r.1))
  end.

(** The string at [p] in memory, of at most [n] characters. *)
Definition mem_cstr (m : memory) (p : Z) (n : nat) : list Z := until_nul (load_bytes m p n).

Definition xargs_child (fuel : nat) (argv : list (list Z)) (buf : list Z) (final_argv : list Z) : U unit :=
  r ← copy_args fuel (tail argv) final_argv 0;
  final_argv ← while_fuel fuel (split_body fuel) (r.1, r.2, buf);
  h ← vars;
  let args := (λ p, mem_cstr (h_mem h) p 512) <$> until_nul final_argv in
  exec (default [] (head args)) args ;;
  exit 0.

Definition xargs_wait_body (_ : unit) : U (unit + unit) :=
  w ← wait;
  if 0 <? w then mret (inl tt) else mret (inr tt).

(** One line of input. *)
Definition xargs_body (fuel : nat) (argv : list (list Z)) (st : list Z * list Z) : U (list Z * list Z + unit) :=
  let '(buf, final_argv) := st in
  line ← gets_line 512;
  let buf := put_bytes buf 0 (line ++ [0]) in
  let s := until_nul buf in
  if Z.of_nat (length s) =? 0 then mret (inr tt) else
  assert_that (bytes_of "strlen(buf) < sizeof buf") "user/xargs.c" 24 (strlen s <? 512) ;;
  assert_that (bytes_of "buf[strlen(buf)-1] == '" ++ [92; 110] ++ bytes_of "'") "user/xargs.c" 26 (default 0 (last s) =? 10) ;;
  let buf := <[ (length s - 1)%nat := 0 ]> buf in
  pid ← fork;
  when (pid <? 0) (fprintf 2 (line_of "error: fork") [] ;; exit 1) ;;
  when (pid =? 0) (xargs_child fuel argv buf final_argv) ;;
  while_fuel fuel xargs_wait_body tt ;;
  for_each final_argv (λ p, when (negb (p =? 0)) (free fuel p)) ;;
  mret (inl (buf, replicate MAXARG 0)).

Definition xargs_main (fuel : nat) (argv : list (list Z)) : U unit :=
  assert_that (bytes_of "argc > 1 && argc < MAXARG") "user/xargs.c" 13
    ((1 <? Z.of_nat (length argv)) && (Z.of_nat (length argv) <? Z.of_nat MAXARG)) ;;
  while_fuel fuel (xargs_body fuel argv) (replicate 512 0, replicate MAXARG 0) ;;
  exit 0.
End xargs.
