(* ===== verification/Sh.v ===== *)
(** * The shell: sh.c

    The command line is in the variable [buf]; pointers into it are indices.
    A command is a tree whose strings are pointers to their first character
    and, until [nulterminate], to the character after their last one.  The
    constructors of the tree allocate with malloc(); that they succeed is
    assumed. *)

From S2P Require Import Prelude KMonad CString User Grep.

(** The commands: struct execcmd (its [argv] and [eargv] up to the null
    pointers), redircmd, pipecmd, listcmd and backcmd. *)
Inductive cmd :=
  | EXEC (argv eargv : list Z)
  | REDIR (subcmd : cmd) (file efile mode fd : Z)
  | PIPE (lc rc : cmd)
  | LIST (lc rc : cmd)
  | BACK (subcmd : cmd).

Definition MAXARGS : Z := 10.

Definition whitespace : list Z := [32; 9; 13; 10; 11].
Definition symbols : list Z := bytes_of "<|>&;()".

(** [strchr(s, c)] as a condition. *)
Definition has (s : list Z) (c : Z) : bool := match strchr s c with Some _ => true | None => false end.

Definition char_at (buf : list Z) (s : Z) : Z := buf !!! Z.to_nat s.

(** [while(s < es && f( *s)) s++;] *)
Fixpoint skip_loop (f : Z → bool) (buf : list Z) (n : nat) (s : Z) : Z :=
  match n with
  | O => s
  | S n' => if f (char_at buf s) then skip_loop f buf n' (s + 1) else s
  end.
Definition skip (f : Z → bool) (buf : list Z) (s es : Z) : Z := skip_loop f buf (Z.to_nat (es - s)) s.

(** The token at [s]: what gettoken() returns, [*q], [*eq] and the new [*ps]. *)
Definition gettoken_at (buf : list Z) (s es : Z) : Z * Z * Z * Z :=
  let s := skip (has whitespace) buf s es in
  let q := s in
  let c := char_at buf s in
  let '(ret, s) :=
    if c =? 0 then (c, s)
    else if (c =? 124) || (c =? 40) || (c =? 41) || (c =? 59) || (c =? 38) || (c =? 60) then (c, s + 1)
    else if c =? 62 then if char_at buf (s + 1) =? 62 then (43, s + 2) else (c, s + 1)
    else (97, skip (λ c, negb (has whitespace c) && negb (has symbols c)) buf s es) in
  let eq := s in
  (ret, q, eq, skip (has whitespace) buf s es).

(** The result of peek() and the new [*ps]. *)
Definition peek_at (buf : list Z) (s es : Z) (toks : list Z) : bool * Z :=
  let s := skip (has whitespace) buf s es in
  let c := char_at buf s in
  (negb (c =? 0) && has toks c, s).

(** [cmd->argv[argc] = q; cmd->eargv[argc] = eq;] for the execcmd inside the
    redirections. *)
Fixpoint add_arg (c : cmd) (q eq : Z) : cmd :=
  match c with
  | EXEC argv eargv => EXEC (argv ++ [q]) (eargv ++ [eq])
  | REDIR c' file efile mode fd => REDIR (add_arg c' q eq) file efile mode fd
  | _ => c
  end.

(** The switch of parseredirs(). *)
Definition redir_by (tok : Z) (c : cmd) (q eq : Z) : cmd :=
  if tok =? 60 then REDIR c q eq O_RDONLY 0
  else if tok =? 62 then REDIR c q eq (Z.lor (Z.lor O_WRONLY O_CREATE) O_TRUNC) 1
  else if tok =? 43 then REDIR c q eq (Z.lor O_WRONLY O_CREATE) 1
  else c.

Section sh.
Context `{O : OS}.
#[local] Abbreviation U := (M (uproc (list Z))).

Definition sh_panic {A} (s : string) : U A :=
  fprintf 2 (bytes_of "%s" ++ newline) [A_str (Some (bytes_of s))] ;;
  exit 1.

Definition gettoken (s es : Z) : U (Z * Z * Z * Z) := buf ← vars; mret (gettoken_at buf s es).
Definition peek (s es : Z) (toks : string) : U (bool * Z) := buf ← vars; mret (peek_at buf s es (bytes_of toks)).

(** One turn of parseredirs(). *)
Definition parseredirs_body (es : Z) (st : cmd * Z) : U (cmd * Z + cmd * Z) :=
  let (c, s) := st in
  r ← peek s es "<>";
  let '(more, s) := r in
  if negb more then mret (inr (c, s)) else
  t ← gettoken s es;
  let '(tok, _, _, s) := t in
  t ← gettoken s es;
  let '(ret, q, eq, s) := t in
  when (negb (ret =? 97)) (sh_panic "missing file for redirection") ;;
  mret (inl (redir_by tok c q eq, s)).
Definition parseredirs (fuel : nat) (c : cmd) (s es : Z) : U (cmd * Z) := while_fuel fuel (parseredirs_body es) (c, s).

(** One turn of the loop of parseexec(), on [ret], [argc] and [*ps]. *)
Definition parseexec_body (fuel : nat) (es : Z) (st : cmd * Z * Z) : U (cmd * Z * Z + cmd * Z) :=
  let '(ret, argc, s) := st in
  r ← peek s es "|)&;";
  let '(stop, s) := r in
  if stop : bool then mret (inr (ret, s)) else
  t ← gettoken s es;
  let '(tok, q, eq, s) := t in
  if tok =? 0 then mret (inr (ret, s)) else
  when (negb (tok =? 97)) (sh_panic "syntax") ;;
  let ret := add_arg ret q eq in
  let argc := argc + 1 in
  when (MAXARGS <=? argc) (sh_panic "too many args") ;;
  r ← parseredirs fuel ret s es;
  let '(ret, s) := r in
  mret (inl (ret, argc, s)).

(** [while(peek(ps, es, "&")) ...] of parseline(). *)
Definition back_body (es : Z) (st : cmd * Z) : U (cmd * Z + cmd * Z) :=
  let (c, s) := st in
  r ← peek s es "&";
  let '(more, s) := r in
  if negb more then mret (inr (c, s)) else
  t ← gettoken s es;
  let '(_, _, _, s) := t in
  mret (inl (BACK c, s)).

(** The parsing functions return the command and the new [*ps]; [fuel] bounds
    the calls and the turns of the loops. *)
Fixpoint parseline (fuel : nat) (s es : Z) : U (cmd * Z) :=
  match fuel with
  | 0%nat => λ _ _, OutOfFuel
  | S fuel =>
      r ← parsepipe fuel s es;
      r ← while_fuel fuel (back_body es) r;
      let '(c, s) := r in
      r ← peek s es ";";
      let '(more, s) := r in
      if more : bool then
        t ← gettoken s es;
        let '(_, _, _, s) := t in
        r ← parseline fuel s es;
        mret (LIST c r.1, r.2)
      else mret (c, s)
  end
with parsepipe (fuel : nat) (s es : Z) : U (cmd * Z) :=
  match fuel with
  | 0%nat => λ _ _, OutOfFuel
  | S fuel =>
      r ← parseexec fuel s es;
      let '(c, s) := r in
      r ← peek s es "|";
      let '(more, s) := r in
      if more : bool then
        t ← gettoken s es;
        let '(_, _, _, s) := t in
        r ← parsepipe fuel s es;
        mret (PIPE c r.1, r.2)
      else mret (c, s)
  end
with parseexec (fuel : nat) (s es : Z) : U (cmd * Z) :=
  match fuel with
  | 0%nat => λ _ _, OutOfFuel
  | S fuel =>
      r ← peek s es "(";
      let '(block, s) := r in
      if block : bool then parseblock fuel s es else
      r ← parseredirs fuel (EXEC [] []) s es;
      let '(ret, s) := r in
      while_fuel fuel (parseexec_body fuel es) (ret, 0, s)
  end
with parseblock (fuel : nat) (s es : Z) : U (cmd * Z) :=
  match fuel with
  | 0%nat => λ _ _, OutOfFuel
  | S fuel =>
      r ← peek s es "(";
      let '(block, s) := r in
      when (negb block) (sh_panic "parseblock") ;;
      t ← gettoken s es;
      let '(_, _, _, s) := t in
      r ← parseline fuel s es;
      let '(c, s) := r in
      r ← peek s es ")";
      let '(close, s) := r in
      when (negb close) (sh_panic "syntax - missing )") ;;
      t ← gettoken s es;
      let '(_, _, _, s) := t in
      parseredirs fuel c s es
  end.

(** NUL-terminate all the counted strings. *)
Fixpoint nulterminate (c : cmd) : U unit :=
  match c with
  | EXEC argv eargv => for_each eargv (λ e, set_vars <[ Z.to_nat e := 0 ]>)
  | REDIR c' file efile mode fd =>
      nulterminate c' ;;
      set_vars <[ Z.to_nat efile := 0 ]>
  | PIPE lc rc =>
      nulterminate lc ;;
      nulterminate rc
  | LIST lc rc =>
      nulterminate lc ;;
      nulterminate rc
  | BACK c' => nulterminate c'
  end.

Definition parsecmd (fuel : nat) (s : Z) : U cmd :=
  buf ← vars;
  let es := s + strlen (cstr buf s) in
  r ← parseline fuel s es;
  let '(c, s) := r in
  r ← peek s es "";
  let '(_, s) := r in
  when (negb (s =? es))
    (buf ← vars;
     fprintf 2 (bytes_of "leftovers: %s" ++ newline) [A_str (Some (cstr buf s))] ;;
     sh_panic "syntax") ;;
  nulterminate c ;;
  mret c.

(** Fork but panics on failure. *)
Definition fork1 : U Z :=
  pid ← fork;
  if pid =? -1 then sh_panic "fork" else mret pid.

(** Execute cmd.  Never returns. *)
Fixpoint runcmd (c : cmd) : U unit :=
  match c with
  | EXEC argv _ =>
      match argv with
      | [] => exit 1
      | a :: _ =>
          buf ← vars;
          exec (cstr buf a) (cstr buf <$> argv) ;;
          buf ← vars;
          fprintf 2 (bytes_of "exec %s failed" ++ newline) [A_str (Some (cstr buf a))]
      end
  | REDIR c' file _ mode fd =>
      close fd ;;
      buf ← vars;
      r ← open (cstr buf file) mode;
      when (r <? 0)
        (buf ← vars;
         fprintf 2 (bytes_of "open %s failed" ++ newline) [A_str (Some (cstr buf file))] ;;
         exit 1) ;;
      runcmd c'
  | LIST lc rc =>
      pid ← fork1;
      when (pid =? 0) (runcmd lc) ;;
      wait ;;
      runcmd rc
  | PIPE lc rc =>
      r ← pipe;
      let '(ret, (p0, p1)) := r in
      when (ret <? 0) (sh_panic "pipe") ;;
      pid ← fork1;
      when (pid =? 0)
        (close 1 ;; dup p1 ;; close p0 ;; close p1 ;; runcmd lc) ;;
      pid ← fork1;
      when (pid =? 0)
        (close 0 ;; dup p0 ;; close p0 ;; close p1 ;; runcmd rc) ;;
      close p0 ;;
      close p1 ;;
      wait ;;
      wait ;;
      mret tt
  | BACK c' =>
      pid ← fork1;
      when (pid =? 0) (runcmd c')
  end ;;
  exit 0.

(** sizeof(buf) in main() *)
Definition nbuf : Z := 100.

Definition getcmd : U Z :=
  write 2 (bytes_of "$ ") ;;
  set_vars (λ _, replicate (Z.to_nat nbuf) 0) ;;
  line ← gets_line nbuf;
  set_vars (λ buf, line ++ 0 :: drop (S (length line)) buf) ;;
  buf ← vars;
  mret (if char_at buf 0 =? 0 then -1 else 0).

(** Ensure that three file descriptors are open. *)
Definition console_body (_ : unit) : U (unit + unit) :=
  fd ← open (bytes_of "console") O_RDWR;
  if fd <? 0 then mret (inr tt) else
  if 3 <=? fd then close fd ;; mret (inr tt) else
  mret (inl tt).

Definition command_body (fuel : nat) (_ : unit) : U (unit + unit) :=
  r ← getcmd;
  if r <? 0 then mret (inr tt) else
  buf ← vars;
  if (char_at buf 0 =? 99) && (char_at buf 1 =? 100) && (char_at buf 2 =? 32) then
    (* Chdir must be called by the parent, not the child. *)
    set_vars (λ buf, <[ Z.to_nat (strlen (cstr buf 0) - 1) := 0 ]> buf) ;;
    buf ← vars;
    r ← chdir (cstr buf 3);
    when (r <? 0)
      (buf ← vars;
       fprintf 2 (bytes_of "cannot cd %s" ++ newline) [A_str (Some (cstr buf 3))]) ;;
    mret (inl tt)
  else
  pid ← fork1;
  when (pid =? 0) (c ← parsecmd fuel 0; runcmd c) ;;
  wait ;;
  mret (inl tt).

(** [fuel] bounds the opens, the commands read and the parsing of each. *)
Definition sh_main (fuel : nat) : U unit :=
  while_fuel fuel console_body tt ;;
  while_fuel fuel (command_body fuel) tt ;;
  exit 0.
End sh.
