(* ===== verification/ShSpec.v ===== *)
(** * The parser of the shell *)

From S2P Require Import Prelude KMonad CString User Grep Sh.

Lemma has_true s c : has s c = true ↔ c ∈ s.
Proof.
  unfold has. induction s as [|x s IH]; cbn; [split; [done|by intros ?%elem_of_nil]|]. rewrite elem_of_cons.
  destruct (Z.eqb_spec x c) as [->|Hne]; [by split; [left|]|]. rewrite IH. split; [by right|]. by intros [->|?].
Qed.

Lemma symbol_cases c : has symbols c = true → c = 60 ∨ c = 124 ∨ c = 62 ∨ c = 38 ∨ c = 59 ∨ c = 40 ∨ c = 41.
Proof.
  rewrite has_true. change symbols with [60; 124; 62; 38; 59; 40; 41].
  rewrite !elem_of_cons, elem_of_nil. tauto.
Qed.

(** ** Words and tokens *)

Definition word_char (c : Z) : bool := negb (c =? 0) && negb (has whitespace c) && negb (has symbols c).

Inductive token := Word (w : list Z) | Sym (c : Z) | Append.

Definition token_text (k : token) : list Z := match k with Word w => w | Sym c => [c] | Append => [62; 62] end.
Definition token_ok (k : token) : Prop :=
  match k with
  | Word w => w ≠ [] ∧ Forall (λ c, word_char c = true) w
  | Sym c => has symbols c = true
  | Append => True
  end.

(** What may follow a token without becoming part of it. *)
Definition separated (k : token) (t : list Z) : Prop :=
  match k with
  | Word _ => ∀ c, head t = Some c → word_char c = false
  | Sym c => c = 62 → head t ≠ Some 62
  | Append => True
  end.

Definition spaces (w : list Z) : Prop := Forall (λ c, has whitespace c = true) w.

(** A text consists of tokens, with white space around them. *)
Inductive spells : list token → list Z → Prop :=
  | spells_nil w : spaces w → spells [] w
  | spells_cons w k ts t :
      spaces w → token_ok k → separated k t → spells ts t → spells (k :: ts) (w ++ token_text k ++ t).

(** The rest of the line, from [s] to the NUL at [es]. *)
Definition text_at (buf : list Z) (es s : Z) (t : list Z) : Prop :=
  0 ≤ s ∧ s + Z.of_nat (length t) = es ∧ ∃ post, drop (Z.to_nat s) buf = t ++ 0 :: post.

Lemma text_at_char buf es s t : text_at buf es s t → char_at buf s = default 0 (head t).
Proof.
  intros (Hs & _ & post & E). unfold char_at. replace (buf !!! Z.to_nat s) with (drop (Z.to_nat s) buf !!! 0%nat).
  - rewrite E. by destruct t.
  - by rewrite lookup_total_drop, Nat.add_0_r.
Qed.

Lemma text_at_app buf es s a b : text_at buf es s (a ++ b) → text_at buf es (s + Z.of_nat (length a)) b.
Proof.
  intros (Hs & Hl & post & E). rewrite length_app in Hl. split; [lia|]. split; [lia|]. exists post.
  replace (Z.to_nat (s + Z.of_nat (length a))) with (Z.to_nat s + length a)%nat by lia.
  by rewrite <- drop_drop, E, <- app_assoc, drop_app_length.
Qed.

Lemma skip_text f buf es s a b :
  text_at buf es s (a ++ b) → Forall (λ c, f c = true) a → (∀ c, head b = Some c → f c = false) →
  skip f buf s es = s + Z.of_nat (length a).
Proof.
  intros Ht Ha Hb. unfold skip. assert (En : Z.to_nat (es - s) = (length a + length b)%nat).
  { destruct Ht as (? & <- & _). rewrite length_app. lia. }
  rewrite En. clear En. revert s Ht. induction Ha as [|c a Hc Ha IH]; intros s Ht; cbn [length Nat.add skip_loop].
  - rewrite Z.add_0_r. destruct b as [|c b]; [done|]. cbn [length skip_loop]. rewrite (text_at_char _ _ _ _ Ht). cbn. by rewrite Hb.
  - rewrite (text_at_char _ _ _ _ Ht). cbn. rewrite Hc. apply (text_at_app _ _ _ [c]) in Ht. cbn in Ht. rewrite IH by done. lia.
Qed.

(** The tokens from [s] to the end of the line. *)
Definition toks_at (buf : list Z) (es s : Z) (ts : list token) : Prop := ∃ t, text_at buf es s t ∧ spells ts t.

Lemma token_head k t : token_ok k → ∃ c l, token_text k ++ t = c :: l ∧ head (token_text k) = Some c ∧ has whitespace c = false ∧ c ≠ 0.
Proof.
  destruct k as [w|c|]; cbn.
  - intros [Hw Hf]. destruct w as [|c w]; [done|]. apply Forall_cons in Hf as [Hc _]. exists c, (w ++ t). split; [done|]. split; [done|].
    unfold word_char in Hc. rewrite !andb_true_iff, !negb_true_iff, Z.eqb_neq in Hc. tauto.
  - intros Hc%symbol_cases. exists c, t. split; [done|]. split; [done|]. by destruct_or! Hc; subst c.
  - intros _. by exists 62, (62 :: t).
Qed.

Lemma spells_spaces w ts t : spaces w → spells ts t → spells ts (w ++ t).
Proof.
  intros Hw [w' Hw'|w' k ts' t' Hw' Hk Hs Ht]; [constructor; by apply Forall_app|].
  rewrite app_assoc. constructor; [by apply Forall_app|done..].
Qed.

(** The text of some tokens, without the white space before it. *)
Lemma skip_spaces buf es s ts : toks_at buf es s ts →
  let s' := skip (has whitespace) buf s es in
  match ts with
  | [] => text_at buf es s' []
  | k :: ts' => token_ok k ∧ ∃ t, text_at buf es s' (token_text k ++ t) ∧ separated k t ∧ spells ts' t
  end.
Proof.
  intros (t & Ht & Hsp) s'. destruct Hsp as [w Hw|w k ts' t Hw Hk Hs Hsp].
  - unfold s'. rewrite <- (app_nil_r w) in Ht. rewrite (skip_text _ _ _ _ _ _ Ht Hw) by done. by apply text_at_app in Ht.
  - split; [done|]. exists t. split; [|done]. unfold s'. destruct (token_head k t Hk) as (c & l & E & _ & Hc & _).
    rewrite (skip_text _ _ _ _ _ _ Ht Hw); [by apply text_at_app in Ht|]. rewrite E. by intros ? [= <-].
Qed.

(** peek() looks at the first character of the next token. *)
Lemma peek_toks buf es s ts toks : toks_at buf es s ts →
  let '(b, s') := peek_at buf s es toks in
  toks_at buf es s' ts ∧ b = match ts with [] => false | k :: _ => has toks (default 0 (head (token_text k))) end.
Proof.
  intros H. pose proof (skip_spaces _ _ _ _ H) as Hs. unfold peek_at. set (s' := skip _ _ _ _) in *. cbn in Hs. destruct ts as [|k ts].
  - split; [exists []; split; [done|constructor; constructor]|]. by rewrite (text_at_char _ _ _ _ Hs).
  - destruct Hs as (Hk & t & Ht & Hsep & Hsp). split.
    + eexists. split; [exact Ht|]. by apply (spells_cons []); [constructor|..].
    + rewrite (text_at_char _ _ _ _ Ht). destruct (token_head k t Hk) as (c & l & -> & -> & _ & Hc). cbn.
      by destruct (Z.eqb_spec c 0).
Qed.

(** [w] is the word from [q] to [eq]. *)
Definition located (buf : list Z) (q eq : Z) (w : list Z) : Prop :=
  0 ≤ q ∧ eq = q + Z.of_nat (length w) ∧ Forall (λ c, word_char c = true) w ∧
  ∃ c post, drop (Z.to_nat q) buf = w ++ c :: post ∧ word_char c = false.

(** What gettoken() returns for a token. *)
Definition token_code (k : token) : Z := match k with Word _ => 97 | Sym c => c | Append => 43 end.

Lemma word_skip c : word_char c = true → negb (has whitespace c) && negb (has symbols c) = true.
Proof. unfold word_char. destruct (c =? 0); [done|]. done. Qed.

Lemma spells_nonzero ts t c : spells ts t → head t = Some c → c ≠ 0.
Proof.
  assert (Hws : ∀ x, has whitespace x = true → x ≠ 0) by (by intros ? ? ->).
  intros [w Hw|w k ts' t' Hw Hk _ _] Hc.
  - destruct w; [done|]. injection Hc as ->. apply Forall_cons in Hw as [? _]. by apply Hws.
  - destruct w as [|x w]; [|injection Hc as ->; apply Forall_cons in Hw as [? _]; by apply Hws].
    destruct (token_head k t' Hk) as (c' & l & E & _ & _ & H). cbn in Hc. rewrite E in Hc. by injection Hc as <-.
Qed.

(** The character class of gettoken() decides the token. *)
Lemma gettoken_word buf es q w t ts :
  text_at buf es q (w ++ t) → token_ok (Word w) → separated (Word w) t → spells ts t →
  gettoken_at buf q es = (97, q, q + Z.of_nat (length w), skip (has whitespace) buf (q + Z.of_nat (length w)) es).
Proof.
  intros Ht Hk Hsep Hsp. destruct (token_head (Word w) t Hk) as (c & l & E & Ec & Hws & Hc0). destruct Hk as [Hw Hf].
  assert (Hwc : word_char c = true) by (destruct w as [|x w]; [done|]; injection Ec as ->; by apply Forall_cons in Hf as [? _]).
  cbn [token_text] in E. unfold gettoken_at. rewrite (skip_text (has whitespace) buf es q [] (w ++ t)); [|done|apply Forall_nil_2|rewrite E; by intros ? [= <-]].
  cbn [length Z.of_nat]. rewrite Z.add_0_r, (text_at_char _ _ _ _ Ht). rewrite E. cbn [head]. change (default 0 (Some c)) with c.
  assert (Hns : ∀ x, has symbols x = true → (c =? x) = false) by (intros x Hx; apply Z.eqb_neq; intros ->; unfold word_char in Hwc; by rewrite Hx, andb_false_r in Hwc).
  rewrite (proj2 (Z.eqb_neq c 0) Hc0), !Hns by done. cbn [orb].
  rewrite (skip_text _ buf es q w t); [done|done|eapply Forall_impl; [exact Hf|apply word_skip]|].
  intros x Hx. specialize (Hsep x Hx). unfold word_char in Hsep. by rewrite (proj2 (Z.eqb_neq x 0) (spells_nonzero _ _ _ Hsp Hx)) in Hsep.
Qed.

Lemma gettoken_sym buf es q c t :
  text_at buf es q (c :: t) → has symbols c = true → (c = 62 → head t ≠ Some 62) →
  gettoken_at buf q es = (c, q, q + 1, skip (has whitespace) buf (q + 1) es).
Proof.
  intros Ht Hc%symbol_cases Hsep. unfold gettoken_at.
  rewrite (skip_text (has whitespace) buf es q [] (c :: t)); [|done|apply Forall_nil_2|by intros ? [= <-]; destruct_or! Hc; subst c].
  cbn [length Z.of_nat]. rewrite Z.add_0_r, (text_at_char _ _ _ _ Ht). cbn [head]. change (default 0 (Some c)) with c.
  destruct_or! Hc; subst c; try done. cbn. apply (text_at_app _ _ _ [62]) in Ht. change (Z.of_nat (length [62])) with 1 in Ht. rewrite (text_at_char _ _ _ _ Ht).
  destruct (head t) as [x|]; cbn; [|done]. destruct (Z.eqb_spec x 62); [|done]. subst. by destruct (Hsep eq_refl).
Qed.

Lemma gettoken_append buf es q t :
  text_at buf es q (62 :: 62 :: t) → gettoken_at buf q es = (43, q, q + 2, skip (has whitespace) buf (q + 2) es).
Proof.
  intros Ht. unfold gettoken_at. rewrite (skip_text (has whitespace) buf es q [] (62 :: 62 :: t)); [|done|apply Forall_nil_2|by intros ? [= <-]].
  cbn [length Z.of_nat]. rewrite Z.add_0_r, (text_at_char _ _ _ _ Ht). cbn. apply (text_at_app _ _ _ [62]) in Ht. change (Z.of_nat (length [62])) with 1 in Ht.
  by rewrite (text_at_char _ _ _ _ Ht).
Qed.

Lemma skip_skip buf es s ts : toks_at buf es s ts →
  gettoken_at buf s es = gettoken_at buf (skip (has whitespace) buf s es) es ∧ toks_at buf es (skip (has whitespace) buf s es) ts.
Proof.
  intros H. pose proof (skip_spaces _ _ _ _ H) as Hs. cbn in Hs. set (s' := skip _ _ _ _) in *.
  assert (E : skip (has whitespace) buf s' es = s').
  { destruct ts as [|k ts].
    - pose proof (skip_text (has whitespace) buf es s' [] [] Hs) as E. cbn in E. rewrite E by done. lia.
    - destruct Hs as (Hk & t & Ht & _). pose proof (skip_text (has whitespace) buf es s' [] _ Ht) as E. rewrite E; [cbn; lia|constructor|].
      destruct (token_head k t Hk) as (c & l & -> & _ & Hc & _). by intros ? [= <-]. }
  split; [unfold gettoken_at; by rewrite E|]. destruct ts as [|k ts]; [exists []; split; [done|constructor; constructor]|].
  destruct Hs as (? & t' & ? & ? & ?). eexists. split; [done|]. by apply (spells_cons []); [constructor|..].
Qed.

Lemma gettoken_toks buf es s k ts : toks_at buf es s (k :: ts) →
  ∃ q eq s', gettoken_at buf s es = (token_code k, q, eq, s') ∧ toks_at buf es s' ts ∧
    match k with Word w => located buf q eq w | _ => True end.
Proof.
  intros H. pose proof (skip_spaces _ _ _ _ H) as (Hk & t & Ht & Hsep & Hsp). rewrite (proj1 (skip_skip _ _ _ _ H)).
  set (q := skip _ _ _ _) in *. exists q, (q + Z.of_nat (length (token_text k))), (skip (has whitespace) buf (q + Z.of_nat (length (token_text k))) es).
  assert (Hrest : toks_at buf es (q + Z.of_nat (length (token_text k))) ts) by (exists t; by apply text_at_app in Ht).
  split; [|split; [apply (proj2 (skip_skip _ _ _ _ Hrest))|]]; destruct k as [w|c|]; try done; cbn [token_text length] in *.
  - by eapply gettoken_word.
  - by eapply gettoken_sym.
  - exact (gettoken_append buf es q t Ht).
  - destruct Hk as [Hw Hf]. destruct Ht as (Hq & He & post & E). split; [done|]. split; [done|]. split; [done|].
    rewrite <- app_assoc in E. destruct t as [|x t]; [by exists 0, post|]. exists x, (t ++ 0 :: post). split; [done|]. by apply Hsep.
Qed.

Lemma gettoken_end buf es s : toks_at buf es s [] → ∃ q eq s', gettoken_at buf s es = (0, q, eq, s') ∧ toks_at buf es s' [].
Proof.
  intros H. pose proof (skip_spaces _ _ _ _ H) as Hs. destruct (skip_skip _ _ _ _ H) as [-> H']. cbn in Hs. set (q := skip _ _ _ _) in *.
  pose proof (proj2 (skip_skip _ _ _ _ H')) as H''. set (q' := skip _ _ q _) in *. unfold gettoken_at. fold q'.
  pose proof (skip_text (has whitespace) buf es q [] [] Hs) as E. cbn in E. unfold q'. rewrite E by done. rewrite Z.add_0_r, (text_at_char _ _ _ _ Hs).
  cbn. exists q, q, (skip (has whitespace) buf q es). by split.
Qed.

(** ** The language of the shell *)

Inductive redir := In (w : list Z) | Out (w : list Z) | App (w : list Z).

(** A line is a pipeline, some '&', and perhaps ';' and another line; a
    pipeline is simple commands separated by '|'; a simple command is a line in
    parentheses, or arguments, with redirections. *)
Inductive line :=
  | LEnd (p : pipeline) (bg : nat)
  | LSeq (p : pipeline) (bg : nat) (l : line)
with pipeline :=
  | POne (s : simple)
  | PPipe (s : simple) (p : pipeline)
with simple :=
  | SExec (rs : list redir) (args : list (list Z * list redir))
  | SBlock (l : line) (rs : list redir).

Scheme line_ind2 := Induction for line Sort Prop
  with pipeline_ind2 := Induction for pipeline Sort Prop
  with simple_ind2 := Induction for simple Sort Prop.
Combined Scheme syntax_ind from line_ind2, pipeline_ind2, simple_ind2.

Definition redir_toks (r : redir) : list token :=
  match r with
  | In w => [Sym 60; Word w]
  | Out w => [Sym 62; Word w]
  | App w => [Append; Word w]
  end.
Definition redirs_toks (rs : list redir) : list token := rs ≫= redir_toks.
Definition args_toks (args : list (list Z * list redir)) : list token := args ≫= λ a, Word a.1 :: redirs_toks a.2.

Fixpoint line_toks (l : line) : list token :=
  match l with
  | LEnd p bg => pipeline_toks p ++ replicate bg (Sym 38)
  | LSeq p bg l' => pipeline_toks p ++ replicate bg (Sym 38) ++ Sym 59 :: line_toks l'
  end
with pipeline_toks (p : pipeline) : list token :=
  match p with
  | POne s => simple_toks s
  | PPipe s p' => simple_toks s ++ Sym 124 :: pipeline_toks p'
  end
with simple_toks (s : simple) : list token :=
  match s with
  | SExec rs args => redirs_toks rs ++ args_toks args
  | SBlock l rs => Sym 40 :: line_toks l ++ Sym 41 :: redirs_toks rs
  end.

(** What the shell is asked to do, with the strings. *)
Inductive tree :=
  | TExec (argv : list (list Z))
  | TRedir (t : tree) (file : list Z) (mode fd : Z)
  | TPipe (lt rt : tree)
  | TList (lt rt : tree)
  | TBack (t : tree).

(** A later redirection is outside of an earlier one. *)
Definition redir_tree (t : tree) (r : redir) : tree :=
  match r with
  | In w => TRedir t w 0x000 0
  | Out w => TRedir t w 0x601 1
  | App w => TRedir t w 0x201 1
  end.
Definition redirs_tree (t : tree) (rs : list redir) : tree := foldl redir_tree t rs.

Fixpoint line_tree (l : line) : tree :=
  match l with
  | LEnd p bg => Nat.iter bg TBack (pipeline_tree p)
  | LSeq p bg l' => TList (Nat.iter bg TBack (pipeline_tree p)) (line_tree l')
  end
with pipeline_tree (p : pipeline) : tree :=
  match p with
  | POne s => simple_tree s
  | PPipe s p' => TPipe (simple_tree s) (pipeline_tree p')
  end
with simple_tree (s : simple) : tree :=
  match s with
  | SExec rs args => redirs_tree (TExec args.*1) (rs ++ mjoin args.*2)
  | SBlock l rs => redirs_tree (line_tree l) rs
  end.

(** At most nine arguments in every command. *)
Fixpoint line_short (l : line) : Prop :=
  match l with
  | LEnd p bg => pipeline_short p
  | LSeq p bg l' => pipeline_short p ∧ line_short l'
  end
with pipeline_short (p : pipeline) : Prop :=
  match p with
  | POne s => simple_short s
  | PPipe s p' => simple_short s ∧ pipeline_short p'
  end
with simple_short (s : simple) : Prop :=
  match s with
  | SExec rs args => Z.of_nat (length args) < MAXARGS
  | SBlock l rs => line_short l
  end.

(** The command as parsed: its pointers delimit the words of the tree. *)
Fixpoint delimits (buf : list Z) (c : cmd) (t : tree) : Prop :=
  match c, t with
  | EXEC argv eargv, TExec ws => Forall3 (located buf) argv eargv ws
  | REDIR c' file efile mode fd, TRedir t' w mode' fd' => delimits buf c' t' ∧ located buf file efile w ∧ mode = mode' ∧ fd = fd'
  | PIPE lc rc, TPipe lt rt => delimits buf lc lt ∧ delimits buf rc rt
  | LIST lc rc, TList lt rt => delimits buf lc lt ∧ delimits buf rc rt
  | BACK c', TBack t' => delimits buf c' t'
  | _, _ => False
  end.

(** The command as runcmd() reads it. *)
Fixpoint read_cmd (buf : list Z) (c : cmd) : tree :=
  match c with
  | EXEC argv _ => TExec (cstr buf <$> argv)
  | REDIR c' file _ mode fd => TRedir (read_cmd buf c') (cstr buf file) mode fd
  | PIPE lc rc => TPipe (read_cmd buf lc) (read_cmd buf rc)
  | LIST lc rc => TList (read_cmd buf lc) (read_cmd buf rc)
  | BACK c' => TBack (read_cmd buf c')
  end.

(** ** nulterminate() *)

Fixpoint word_ends (c : cmd) : list Z :=
  match c with
  | EXEC argv eargv => eargv
  | REDIR c' file efile mode fd => word_ends c' ++ [efile]
  | PIPE lc rc | LIST lc rc => word_ends lc ++ word_ends rc
  | BACK c' => word_ends c'
  end.

Definition zero_at (es : list Z) (buf : list Z) : list Z := foldl (λ b e, <[ Z.to_nat e := 0 ]> b) buf es.

Lemma zero_at_lookup es buf i : zero_at es buf !! i = if decide (i ∈ Z.to_nat <$> es) then (λ _, 0) <$> buf !! i else buf !! i.
Proof.
  revert buf. induction es as [|e es IH]; intros buf; cbn [zero_at foldl fmap list_fmap]; [by rewrite decide_False by (by intros ?%elem_of_nil)|].
  fold (zero_at es (<[Z.to_nat e:=0]> buf)). rewrite IH. destruct (decide (i = Z.to_nat e)) as [->|Hne].
  - rewrite (decide_True (P := Z.to_nat e ∈ Z.to_nat e :: _)) by set_solver.
    destruct (decide (Z.to_nat e < length buf)%nat).
    + rewrite list_lookup_insert_eq by done. destruct (lookup_lt_is_Some_2 buf (Z.to_nat e)) as [x ->]; [done|]. by case_decide.
    + rewrite list_insert_ge by lia. rewrite (lookup_ge_None_2 buf) by lia. by case_decide.
  - rewrite list_lookup_insert_ne by done. destruct (decide (i ∈ Z.to_nat <$> es)); [rewrite decide_True by set_solver|rewrite decide_False by set_solver]; done.
Qed.

(** The positions hold no character of a word. *)
Definition word_breaks (buf : list Z) (es : list Z) : Prop := ∀ e, e ∈ es → ∃ c, buf !! Z.to_nat e = Some c ∧ word_char c = false.

Lemma located_break buf q eq w : located buf q eq w → ∃ c, buf !! Z.to_nat eq = Some c ∧ word_char c = false.
Proof.
  intros (Hq & -> & _ & c & post & E & Hc). exists c. split; [|done].
  assert (Hl : drop (Z.to_nat q) buf !! length w = Some c) by (by rewrite E, list_lookup_middle).
  rewrite lookup_drop in Hl. rewrite <- Hl. f_equal. lia.
Qed.

Lemma located_cstr buf q eq w es : located buf q eq w → eq ∈ es → word_breaks buf es → cstr (zero_at es buf) q = w.
Proof.
  intros (Hq & -> & Hw & c & post & E & Hc) Hin Hbr. set (i := Z.to_nat q).
  assert (Hi : ∀ j x, w !! j = Some x → zero_at es buf !! (i + j)%nat = Some x).
  { intros j x Hj. assert (Hb : buf !! (i + j)%nat = Some x) by (rewrite <- lookup_drop; unfold i; rewrite E; by apply lookup_app_l_Some).
    rewrite zero_at_lookup, decide_False; [done|]. intros (e & He & Hes)%list_elem_of_fmap. destruct (Hbr e Hes) as (y & Hy & Hyc).
    rewrite He, Hy in Hb. injection Hb as ->. rewrite Forall_lookup in Hw. specialize (Hw _ _ Hj). cbn in Hw. congruence. }
  assert (H0 : zero_at es buf !! (i + length w)%nat = Some 0).
  { rewrite zero_at_lookup, decide_True by (apply list_elem_of_fmap; exists (q + Z.of_nat (length w)); split; [unfold i; lia|done]).
    rewrite <- lookup_drop. unfold i. by rewrite E, list_lookup_middle. }
  unfold cstr. fold i. rewrite <- (take_drop (length w) (drop i _)), drop_drop.
  assert (Et : take (length w) (drop i (zero_at es buf)) = w).
  { apply list_eq. intros j. destruct (w !! j) as [x|] eqn:Ej.
    - rewrite lookup_take_lt by (by eapply lookup_lt_Some). rewrite lookup_drop. by apply Hi.
    - apply lookup_ge_None in Ej. by apply lookup_take_ge. }
  rewrite Et, (drop_S _ 0) by done. apply until_nul_app. eapply Forall_impl; [exact Hw|]. intros x Hx ->. done.
Qed.

Lemma delimits_breaks buf c t : delimits buf c t → word_breaks buf (word_ends c).
Proof.
  revert t. induction c as [argv eargv|c IH f e m d|l IHl r IHr|l IHl r IHr|c IH]; intros [ws|t w m' d'|lt rt|lt rt|t]; cbn; try done.
  - intros H. induction H; [by intros ? ?%elem_of_nil|]. intros e0 [->|Hx]%elem_of_cons; [by eapply located_break|by apply IHForall3].
  - intros (H1 & H2 & _) x [Hx|Hx]%elem_of_app; [by eapply IH|]. apply list_elem_of_singleton in Hx as ->. by eapply located_break.
  - intros [H1 H2] x [Hx|Hx]%elem_of_app; [by eapply IHl|by eapply IHr].
  - intros [H1 H2] x [Hx|Hx]%elem_of_app; [by eapply IHl|by eapply IHr].
  - apply IH.
Qed.

Lemma delimits_read buf c t es : delimits buf c t → (∀ e, e ∈ word_ends c → e ∈ es) → word_breaks buf es → read_cmd (zero_at es buf) c = t.
Proof.
  intros H Hes Hbr. revert t H Hes.
  induction c as [argv eargv|c IH f e m d|l IHl r IHr|l IHl r IHr|c IH]; intros [ws|t w m' d'|lt rt|lt rt|t]; cbn; try done.
  - intros H Hes. f_equal. induction H; [done|]. cbn. f_equal; [eapply located_cstr; [done|set_solver|done]|apply IHForall3; set_solver].
  - intros (H1 & H2 & -> & ->) Hes. f_equal; [apply IH; set_solver|]. eapply located_cstr; [done|set_solver|done].
  - intros [H1 H2] Hes. f_equal; [apply IHl; set_solver|apply IHr; set_solver].
  - intros [H1 H2] Hes. f_equal; [apply IHl; set_solver|apply IHr; set_solver].
  - intros H Hes. f_equal. by apply IH.
Qed.

#[local] Arguments bytes_of : simpl never.
#[local] Arguments symbols : simpl never.
#[local] Arguments has : simpl never.

Section parser.
Context `{O : OS}.
#[local] Abbreviation st := (uproc (list Z)).

Lemma zero_at_app e1 e2 buf : zero_at (e1 ++ e2) buf = zero_at e2 (zero_at e1 buf).
Proof. apply foldl_app. Qed.

Lemma nulterminate_run c ks tr buf : nulterminate c ks (Uproc tr buf) = Ok tt ks (Uproc tr (zero_at (word_ends c) buf)).
Proof.
  revert buf. induction c as [argv eargv|c IH f e m d|l IHl r IHr|l IHl r IHr|c IH]; intros buf; cbn [nulterminate word_ends].
  - revert buf. induction eargv as [|e es IH]; intros buf; cbn [for_each]; [done|]. rewrite bind_run. unfold set_vars at 1. cbn [modify u_trace u_vars]. apply IH.
  - by rewrite bind_run, IH, zero_at_app.
  - by rewrite bind_run, IHl, IHr, zero_at_app.
  - by rewrite bind_run, IHl, IHr, zero_at_app.
  - apply IH.
Qed.

(** The next token starts with a character of [toks]. *)
Definition next_in (toks : string) (ts : list token) : bool :=
  match ts with [] => false | k :: _ => has (bytes_of toks) (default 0 (head (token_text k))) end.

Lemma peek_run buf es s ts toks ks tr : toks_at buf es s ts →
  ∃ s', peek s es toks ks (Uproc tr buf) = Ok (next_in toks ts, s') ks (Uproc tr buf) ∧ toks_at buf es s' ts.
Proof.
  intros H. pose proof (peek_toks buf es s ts (bytes_of toks) H) as Hp. unfold peek, vars. rewrite bind_run. cbn [gets u_vars].
  destruct (peek_at buf s es (bytes_of toks)) as [b s']. destruct Hp as [Hp ->]. exists s'. done.
Qed.

Lemma gettoken_run buf es s k ts ks tr : toks_at buf es s (k :: ts) →
  ∃ q eq s', gettoken s es ks (Uproc tr buf) = Ok (token_code k, q, eq, s') ks (Uproc tr buf) ∧ toks_at buf es s' ts ∧
    match k with Word w => located buf q eq w | _ => True end.
Proof.
  intros H. destruct (gettoken_toks _ _ _ _ _ H) as (q & eq & s' & E & H1 & H2). exists q, eq, s'. split; [|done].
  unfold gettoken, vars. rewrite bind_run. cbn [gets u_vars]. by rewrite E.
Qed.

Lemma toks_at_ok buf es s k ts : toks_at buf es s (k :: ts) → token_ok k.
Proof. intros H. apply (skip_spaces _ _ _ _ H). Qed.

(** A word starts with no symbol. *)
Lemma next_in_word toks w ts : token_ok (Word w) → Forall (λ c, has symbols c = true) (bytes_of toks) → next_in toks (Word w :: ts) = false.
Proof.
  intros [Hw Hf] Ht. cbn. destruct w as [|c w]; [done|]. apply Forall_cons in Hf as [Hc _]. cbn.
  destruct (has (bytes_of toks) c) eqn:E; [|done]. apply has_true in E. rewrite Forall_forall in Ht.
  unfold word_char in Hc. by rewrite (Ht c E), andb_false_r in Hc.
Qed.

Lemma parseredirs_run buf es ks tr ts : next_in "<>" ts = false → ∀ rs c t s,
  delimits buf c t → toks_at buf es s (redirs_toks rs ++ ts) →
  ∃ c' s', toks_at buf es s' ts ∧ delimits buf c' (redirs_tree t rs) ∧
    ∀ fuel, (length rs < fuel)%nat → parseredirs fuel c s es ks (Uproc tr buf) = Ok (c', s') ks (Uproc tr buf).
Proof.
  intros Hn. induction rs as [|r rs IH]; intros c t s Hd H.
  - destruct (peek_run _ _ _ _ "<>" ks tr H) as (s' & E & H'). cbn in E. exists c, s'. split; [done|]. split; [done|].
    intros [|fuel] Hf; [lia|]. unfold parseredirs. cbn [while_fuel]. rewrite bind_run. unfold parseredirs_body. rewrite bind_run, E, Hn. done.
  - assert (∃ tok w mode fd, redir_toks r = [tok; Word w] ∧ next_in "<>" [tok] = true ∧ redir_tree t r = TRedir t w mode fd ∧
      ∀ q eq, redir_by (token_code tok) c q eq = REDIR c q eq mode fd) as (tok & w & mode & fd & Er & Hin & Et & Ec)
      by (destruct r; repeat eexists).
    cbn [redirs_toks mbind list_bind] in H. change (list_bind _ _ redir_toks rs) with (redirs_toks rs) in H. rewrite Er in H. cbn [app] in H.
    destruct (peek_run _ _ _ _ "<>" ks tr H) as (s1 & E1 & H1). cbn [next_in] in E1. cbn [next_in] in Hin. rewrite Hin in E1.
    destruct (gettoken_run _ _ _ _ _ ks tr H1) as (q1 & e1 & s2 & E2 & H2 & _).
    destruct (gettoken_run _ _ _ _ _ ks tr H2) as (q & eq & s3 & E3 & H3 & L).
    destruct (IH (REDIR c q eq mode fd) (redir_tree t r) s3) as (c' & s' & H' & Hd' & E'); [by rewrite Et|done|].
    exists c', s'. split; [done|]. split; [done|]. intros [|fuel] Hf; cbn in Hf; [lia|].
    unfold parseredirs. cbn [while_fuel]. rewrite bind_run. unfold parseredirs_body at 1.
    rewrite bind_run, E1. cbn [negb]. rewrite bind_run, E2, bind_run, E3. cbn [token_code]. rewrite Ec. cbn [negb Z.eqb Pos.eqb when]. apply E'. lia.
Qed.

Lemma redirs_tree_snoc t rs r : redirs_tree t (rs ++ [r]) = redir_tree (redirs_tree t rs) r.
Proof. apply foldl_snoc. Qed.

(** Another argument of the command inside the redirections. *)
Lemma delimits_add buf ws rs q eq w : located buf q eq w → ∀ c,
  delimits buf c (redirs_tree (TExec ws) rs) → delimits buf (add_arg c q eq) (redirs_tree (TExec (ws ++ [w])) rs).
Proof.
  intros L. induction rs as [|r rs IH] using rev_ind; intros c Hd.
  - destruct c; cbn in Hd |- *; try done. apply Forall3_app; [done|]. constructor; [done|constructor].
  - rewrite redirs_tree_snoc in Hd |- *. destruct r, c; cbn in Hd |- *; try done; (split; [apply IH, Hd|apply Hd]).
Qed.

(** The tokens after a simple command. *)
Definition ends_simple (ts : list token) : Prop := ts = [] ∨ ∃ c ts', ts = Sym c :: ts' ∧ next_in "|)&;" ts = true.

Lemma ends_simple_next ts : ends_simple ts → next_in "<>" ts = false.
Proof.
  intros [->|(c & ts' & -> & H)]; [done|]. unfold next_in in *. cbn in *. apply has_true in H.
  change (bytes_of "|)&;") with [124; 41; 38; 59] in H. rewrite !elem_of_cons, elem_of_nil in H. by destruct_or! H; subst.
Qed.

Lemma args_next args ts : Forall (λ a, token_ok (Word a.1)) args → ends_simple ts → next_in "<>" (args_toks args ++ ts) = false.
Proof.
  intros Ha Hts. destruct args as [|[w rs] args]; [by apply ends_simple_next|]. apply Forall_cons in Ha as [Hw _].
  by apply next_in_word; [|repeat constructor].
Qed.

Lemma spells_ok ts t : spells ts t → Forall token_ok ts.
Proof. induction 1; by constructor. Qed.

Lemma args_words args : Forall token_ok (args_toks args) → Forall (λ a, token_ok (Word a.1)) args.
Proof.
  induction args as [|[w rs] args IH]; [done|]. cbn. intros [Hw Hf]%Forall_cons. apply Forall_app in Hf as [_ Hf]. constructor; [done|by apply IH].
Qed.

Lemma toks_at_args buf es s ts0 args ts : toks_at buf es s (ts0 ++ args_toks args ++ ts) → Forall (λ a, token_ok (Word a.1)) args.
Proof. intros (t & _ & Hsp%spells_ok). apply args_words. by apply Forall_app in Hsp as [_ [Hsp _]%Forall_app]. Qed.

Lemma parseexec_loop_run buf es ks tr ts : ends_simple ts → ∀ args ws rs c argc s,
  delimits buf c (redirs_tree (TExec ws) rs) → toks_at buf es s (args_toks args ++ ts) → argc + Z.of_nat (length args) < MAXARGS →
  ∃ c' s' n, toks_at buf es s' ts ∧ delimits buf c' (redirs_tree (TExec (ws ++ args.*1)) (rs ++ mjoin args.*2)) ∧
    ∀ fuel F, (n < fuel)%nat → (n < F)%nat → while_fuel fuel (parseexec_body F es) (c, argc, s) ks (Uproc tr buf) = Ok (c', s') ks (Uproc tr buf).
Proof.
  intros Hts. induction args as [|[w rs1] args IH]; intros ws rs c argc s Hd H Hn.
  - cbn [args_toks mbind list_bind app] in H. cbn [fmap list_fmap mjoin list_join]. rewrite !app_nil_r.
    destruct (peek_run _ _ _ _ "|)&;" ks tr H) as (s1 & E1 & H1). destruct Hts as [->|(c0 & ts' & -> & Hin)].
    + destruct (gettoken_end _ _ _ H1) as (q & e & s2 & E2 & H2). exists c, s2, 0%nat. split; [done|]. split; [done|].
      intros [|fuel] F Hf _; [lia|]. cbn [while_fuel]. rewrite bind_run. unfold parseexec_body. rewrite bind_run, E1. cbn [next_in].
      rewrite bind_run. unfold gettoken, vars. rewrite bind_run. cbn [gets u_vars]. rewrite E2. done.
    + exists c, s1, 0%nat. split; [done|]. split; [done|].
      intros [|fuel] F Hf _; [lia|]. cbn [while_fuel]. rewrite bind_run. unfold parseexec_body. rewrite bind_run, E1, Hin. done.
  - pose proof (toks_at_args _ _ _ [] _ _ H) as [Hw Hargs]%Forall_cons. cbn [length] in Hn.
    change (args_toks ((w, rs1) :: args) ++ ts) with ((Word w :: redirs_toks rs1 ++ args_toks args) ++ ts) in H.
    cbn [app] in H. rewrite <- app_assoc in H.
    destruct (peek_run _ _ _ _ "|)&;" ks tr H) as (s1 & E1 & H1). rewrite (next_in_word _ _ _ Hw) in E1 by (repeat constructor).
    destruct (gettoken_run _ _ _ _ _ ks tr H1) as (q & e & s2 & E2 & H2 & L).
    destruct (parseredirs_run buf es ks tr (args_toks args ++ ts) (args_next _ _ Hargs Hts) rs1 (add_arg c q e) _ s2 (delimits_add _ _ _ _ _ _ L _ Hd) H2)
      as (c3 & s3 & H3 & Hd3 & E3).
    destruct (IH (ws ++ [w]) (rs ++ rs1) c3 (argc + 1) s3) as (c' & s' & n & H' & Hd' & E').
    { unfold redirs_tree in *. by rewrite foldl_app. } { done. } { lia. }
    exists c', s', (S n + length rs1)%nat. split; [done|]. split.
    { cbn. by rewrite <- !app_assoc in Hd'. }
    intros [|fuel] F Hf HF; [lia|]. cbn [while_fuel]. rewrite bind_run. unfold parseexec_body at 1. rewrite bind_run, E1.
    rewrite bind_run, E2. cbn [token_code Z.eqb Pos.eqb negb when]. rewrite bind_run, ret_run, bind_run.
    destruct (Z.leb_spec MAXARGS (argc + 1)); [lia|]. cbn [when]. rewrite ret_run, bind_run, E3 by lia. apply E'; lia.
Qed.

Definition ends_pipeline (ts : list token) : Prop := ts = [] ∨ ∃ c ts', ts = Sym c :: ts' ∧ next_in ")&;" ts = true.
Definition ends_line (ts : list token) : Prop := ts = [] ∨ ∃ ts', ts = Sym 41 :: ts'.

Lemma ends_pipeline_simple ts : ends_pipeline ts → ends_simple ts ∧ next_in "|" ts = false.
Proof.
  intros [->|(c & ts' & -> & H)]; [split; [by left|done]|]. unfold next_in in H. cbn in H. apply has_true in H.
  change (bytes_of ")&;") with [41; 38; 59] in H. rewrite !elem_of_cons, elem_of_nil in H.
  destruct_or! H; subst; split; try done; right; by eexists _, _.
Qed.

Lemma ends_line_pipeline ts : ends_line ts → ends_pipeline ts ∧ next_in "&" ts = false ∧ next_in ";" ts = false.
Proof. intros [->|(ts' & ->)]; [split; [by left|done]|]. split; [right; by eexists _, _|done]. Qed.

(** [f] parses [ts0] as [t], when the tokens that follow allow it. *)
Definition parses (buf : list Z) (es : Z) (f : nat → Z → Z → M st (cmd * Z)) (ts0 : list token) (t : tree) (follow : list token → Prop) : Prop :=
  ∀ ts s ks tr, follow ts → toks_at buf es s (ts0 ++ ts) →
  ∃ c s' n, toks_at buf es s' ts ∧ delimits buf c t ∧
    ∀ fuel, (n < fuel)%nat → f fuel s es ks (Uproc tr buf) = Ok (c, s') ks (Uproc tr buf).

Lemma back_run buf es ks tr ts : next_in "&" ts = false → ∀ bg c t s,
  delimits buf c t → toks_at buf es s (replicate bg (Sym 38) ++ ts) →
  ∃ c' s', toks_at buf es s' ts ∧ delimits buf c' (Nat.iter bg TBack t) ∧
    ∀ fuel, (bg < fuel)%nat → while_fuel fuel (back_body es) (c, s) ks (Uproc tr buf) = Ok (c', s') ks (Uproc tr buf).
Proof.
  intros Hn. induction bg as [|bg IH]; intros c t s Hd H; cbn [replicate app] in H;
    destruct (peek_run _ _ _ _ "&" ks tr H) as (s1 & E1 & H1).
  - exists c, s1. split; [done|]. split; [done|]. intros [|fuel] Hf; [lia|]. cbn [while_fuel]. rewrite bind_run. unfold back_body.
    rewrite bind_run, E1, Hn. done.
  - destruct (gettoken_run _ _ _ _ _ ks tr H1) as (q & e & s2 & E2 & H2 & _).
    destruct (IH (BACK c) (TBack t) s2) as (c' & s' & H' & Hd' & E'); [done|done|]. exists c', s'. split; [done|].
    split; [by rewrite Nat.iter_succ_r|]. intros [|fuel] Hf; [lia|]. cbn [while_fuel]. rewrite bind_run. unfold back_body at 1.
    rewrite bind_run, E1. cbn [negb]. change (next_in "&" _) with true. cbn [negb]. rewrite bind_run, E2. apply E'. lia.
Qed.

Lemma parseexec_args buf es rs args : Z.of_nat (length args) < MAXARGS →
  parses buf es parseexec (simple_toks (SExec rs args)) (simple_tree (SExec rs args)) ends_simple.
Proof.
  intros Hlen ts s ks tr Hts H. cbn [simple_toks] in H. rewrite <- app_assoc in H.
  pose proof (toks_at_args _ _ _ _ _ _ H) as Hargs.
  assert (Hp : next_in "(" (redirs_toks rs ++ args_toks args ++ ts) = false).
  { destruct rs as [|[w|w|w] rs]; try done. destruct args as [|[w rs'] args]; [|apply Forall_cons in Hargs as [Hw _]; by apply next_in_word; [|repeat constructor]].
    cbn. destruct Hts as [->|(c & ts' & -> & Hc)]; [done|]. unfold next_in in *. cbn in *. apply has_true in Hc.
    change (bytes_of "|)&;") with [124; 41; 38; 59] in Hc. rewrite !elem_of_cons, elem_of_nil in Hc. by destruct_or! Hc; subst. }
  destruct (peek_run _ _ _ _ "(" ks tr H) as (s1 & E1 & H1). rewrite Hp in E1.
  assert (Hd0 : delimits buf (EXEC [] []) (TExec [])) by constructor.
  destruct (parseredirs_run buf es ks tr _ (args_next _ _ Hargs Hts) rs (EXEC [] []) (TExec []) s1 Hd0 H1) as (c2 & s2 & H2 & Hd2 & E2).
  destruct (parseexec_loop_run buf es ks tr ts Hts args [] rs c2 0 s2 Hd2 H2) as (c' & s' & n & H' & Hd' & E'); [lia|].
  exists c', s', (S (n + length rs)). split; [done|]. split; [done|]. intros [|fuel] Hf; [lia|]. cbn [parseexec].
  rewrite bind_run, E1, bind_run, E2 by lia. apply E'; lia.
Qed.

Lemma parse_block buf es l rs : parses buf es parseline (line_toks l) (line_tree l) ends_line →
  parses buf es parseexec (simple_toks (SBlock l rs)) (simple_tree (SBlock l rs)) ends_simple.
Proof.
  intros IH ts s ks tr Hts H. cbn [simple_toks app] in H. rewrite <- app_assoc in H. cbn [app] in H.
  destruct (peek_run _ _ _ _ "(" ks tr H) as (s1 & E1 & H1). destruct (peek_run _ _ _ _ "(" ks tr H1) as (s2 & E2 & H2).
  destruct (gettoken_run _ _ _ _ _ ks tr H2) as (q3 & e3 & s3 & E3 & H3 & _).
  destruct (IH (Sym 41 :: redirs_toks rs ++ ts) s3 ks tr) as (c4 & s4 & n & H4 & Hd4 & E4); [right; by eexists|done|].
  destruct (peek_run _ _ _ _ ")" ks tr H4) as (s5 & E5 & H5). destruct (gettoken_run _ _ _ _ _ ks tr H5) as (q6 & e6 & s6 & E6 & H6 & _).
  destruct (parseredirs_run buf es ks tr ts (ends_simple_next _ Hts) rs c4 (line_tree l) s6 Hd4 H6) as (c' & s' & H' & Hd' & E').
  exists c', s', (S (S (n + length rs))). split; [done|]. split; [done|]. intros [|[|fuel]] Hf; [lia|lia|]. cbn [parseexec parseblock].
  rewrite bind_run, E1. change (next_in "(" _) with true. cbn [when negb]. rewrite bind_run, E2. change (next_in "(" _) with true. cbn [when negb].
  rewrite bind_run, ret_run, bind_run, E3, bind_run, E4 by lia. rewrite bind_run, E5. change (next_in ")" _) with true. cbn [when negb].
  rewrite bind_run, ret_run, bind_run, E6. apply E'. lia.
Qed.

Lemma parse_pipe buf es s p : parses buf es parseexec (simple_toks s) (simple_tree s) ends_simple →
  parses buf es parsepipe (pipeline_toks p) (pipeline_tree p) ends_pipeline →
  parses buf es parsepipe (pipeline_toks (PPipe s p)) (pipeline_tree (PPipe s p)) ends_pipeline.
Proof.
  intros IHs IHp ts s0 ks tr Hts H. cbn [pipeline_toks] in H. rewrite <- app_assoc in H. cbn [app] in H.
  destruct (IHs (Sym 124 :: pipeline_toks p ++ ts) s0 ks tr) as (c1 & s1 & n1 & H1 & Hd1 & E1); [right; by eexists _, _|done|].
  destruct (peek_run _ _ _ _ "|" ks tr H1) as (s2 & E2 & H2). destruct (gettoken_run _ _ _ _ _ ks tr H2) as (q3 & e3 & s3 & E3 & H3 & _).
  destruct (IHp ts s3 ks tr Hts H3) as (c4 & s4 & n4 & H4 & Hd4 & E4).
  exists (PIPE c1 c4), s4, (S (n1 + n4)). split; [done|]. split; [done|]. intros [|fuel] Hf; [lia|]. cbn [parsepipe].
  rewrite bind_run, E1 by lia. rewrite bind_run, E2. change (next_in "|" _) with true. cbv beta iota. rewrite bind_run, E3, bind_run, E4 by lia. done.
Qed.

Lemma parse_one buf es s : parses buf es parseexec (simple_toks s) (simple_tree s) ends_simple →
  parses buf es parsepipe (pipeline_toks (POne s)) (pipeline_tree (POne s)) ends_pipeline.
Proof.
  intros IHs ts s0 ks tr Hts H. destruct (ends_pipeline_simple _ Hts) as [Hts' Hn].
  destruct (IHs ts s0 ks tr Hts' H) as (c1 & s1 & n1 & H1 & Hd1 & E1). destruct (peek_run _ _ _ _ "|" ks tr H1) as (s2 & E2 & H2).
  exists c1, s2, (S n1). split; [done|]. split; [done|]. intros [|fuel] Hf; [lia|]. cbn [parsepipe].
  by rewrite bind_run, E1, bind_run, E2, Hn by lia.
Qed.

Lemma parse_line buf es p bg : parses buf es parsepipe (pipeline_toks p) (pipeline_tree p) ends_pipeline →
  parses buf es parseline (line_toks (LEnd p bg)) (line_tree (LEnd p bg)) ends_line.
Proof.
  intros IH ts s ks tr Hts H. destruct (ends_line_pipeline _ Hts) as (Hp & Hn1 & Hn2). cbn [line_toks] in H. rewrite <- app_assoc in H.
  destruct (IH (replicate bg (Sym 38) ++ ts) s ks tr) as (c1 & s1 & n1 & H1 & Hd1 & E1); [destruct bg; [done|right; by eexists _, _]|done|].
  destruct (back_run buf es ks tr ts Hn1 bg c1 _ s1 Hd1 H1) as (c2 & s2 & H2 & Hd2 & E2). destruct (peek_run _ _ _ _ ";" ks tr H2) as (s3 & E3 & H3).
  exists c2, s3, (S (n1 + bg)). split; [done|]. split; [done|]. intros [|fuel] Hf; [lia|]. cbn [parseline].
  rewrite bind_run, E1, bind_run, E2 by lia. by rewrite bind_run, E3, Hn2.
Qed.

Lemma parse_seq buf es p bg l : parses buf es parsepipe (pipeline_toks p) (pipeline_tree p) ends_pipeline →
  parses buf es parseline (line_toks l) (line_tree l) ends_line →
  parses buf es parseline (line_toks (LSeq p bg l)) (line_tree (LSeq p bg l)) ends_line.
Proof.
  intros IHp IHl ts s ks tr Hts H. cbn [line_toks] in H. rewrite <- !app_assoc in H. cbn [app] in H.
  destruct (IHp (replicate bg (Sym 38) ++ Sym 59 :: line_toks l ++ ts) s ks tr) as (c1 & s1 & n1 & H1 & Hd1 & E1);
    [destruct bg; right; by eexists _, _|done|].
  destruct (back_run buf es ks tr (Sym 59 :: line_toks l ++ ts) eq_refl bg c1 _ s1 Hd1 H1) as (c2 & s2 & H2 & Hd2 & E2).
  destruct (peek_run _ _ _ _ ";" ks tr H2) as (s3 & E3 & H3). destruct (gettoken_run _ _ _ _ _ ks tr H3) as (q4 & e4 & s4 & E4 & H4 & _).
  destruct (IHl ts s4 ks tr Hts H4) as (c5 & s5 & n5 & H5 & Hd5 & E5).
  exists (LIST c2 c5), s5, (S (n1 + bg + n5)). split; [done|]. split; [done|]. intros [|fuel] Hf; [lia|]. cbn [parseline].
  rewrite bind_run, E1, bind_run, E2 by lia. rewrite bind_run, E3. change (next_in ";" _) with true. cbv beta iota.
  by rewrite bind_run, E4, bind_run, E5 by lia.
Qed.

Lemma syntax_parses buf es :
  (∀ l, line_short l → parses buf es parseline (line_toks l) (line_tree l) ends_line) ∧
  (∀ p, pipeline_short p → parses buf es parsepipe (pipeline_toks p) (pipeline_tree p) ends_pipeline) ∧
  (∀ s, simple_short s → parses buf es parseexec (simple_toks s) (simple_tree s) ends_simple).
Proof.
  apply syntax_ind.
  - intros p IH bg H. apply parse_line, IH, H.
  - intros p IHp bg l IHl [H1 H2]. by apply parse_seq; [apply IHp|apply IHl].
  - intros s IH H. apply parse_one, IH, H.
  - intros s IHs p IHp [H1 H2]. by apply parse_pipe; [apply IHs|apply IHp].
  - intros rs args H. by apply parseexec_args.
  - intros l IH rs H. apply parse_block, IH, H.
Qed.

Lemma spells_all_nonzero ts t : spells ts t → Forall (λ c, c ≠ 0) t.
Proof.
  assert (Hws : ∀ w, spaces w → Forall (λ c, c ≠ 0) w) by (intros w Hw; eapply Forall_impl; [exact Hw|]; by intros ? ? ->).
  induction 1 as [w Hw|w k ts t Hw Hk _ _ IH]; [by apply Hws|]. apply Forall_app. split; [by apply Hws|]. apply Forall_app. split; [|done].
  destruct k as [x|c|]; [|apply symbol_cases in Hk; destruct_or! Hk; subst; by constructor|by repeat constructor].
  destruct Hk as [_ Hk]. eapply Forall_impl; [exact Hk|]. by intros ? ? ->.
Qed.

Lemma parsecmd_line l text post ks tr :
  line_short l → spells (line_toks l) text → Z.of_nat (length text) < nbuf →
  ∃ c enough buf', read_cmd buf' c = line_tree l ∧
    ∀ fuel, (enough < fuel)%nat → parsecmd fuel 0 ks (Uproc tr (text ++ 0 :: post)) = Ok c ks (Uproc tr buf').
Proof.
  intros Hs Hsp Hl. set (buf := text ++ 0 :: post). set (es := Z.of_nat (length text)).
  assert (Hc : cstr buf 0 = text) by (apply until_nul_app; by eapply spells_all_nonzero).
  assert (H : toks_at buf es 0 (line_toks l ++ [])) by (rewrite app_nil_r; exists text; split; [split; [lia|split; [done|by exists post]]|done]).
  destruct (proj1 (syntax_parses buf es) l Hs [] 0 ks tr (or_introl eq_refl) H) as (c & s1 & n & H1 & Hd & E).
  destruct (peek_run _ _ _ _ "" ks tr H1) as (s2 & E2 & H2).
  assert (Hes : s2 = es).
  { pose proof (skip_spaces _ _ _ _ H1) as Hx. cbn in Hx. unfold peek, vars in E2. rewrite bind_run in E2. cbn in E2. injection E2 as _ <-.
    destruct Hx as (_ & Hx & _). cbn in Hx. lia. }
  exists c, n, (zero_at (word_ends c) buf). split; [eapply delimits_read; [done|done|by eapply delimits_breaks]|]. intros fuel Hf.
  unfold parsecmd. rewrite bind_run. unfold vars at 1. cbn [gets u_vars]. rewrite Hc. unfold strlen.
  rewrite u32_small by (unfold nbuf in Hl; lia). rewrite Z.add_0_l. fold es. rewrite bind_run, E by done. rewrite bind_run, E2, Hes.
  rewrite Z.eqb_refl. cbn [negb when]. rewrite bind_run, ret_run, bind_run, nulterminate_run. done.
Qed.

(** C17: the shell reads a command line back: a line of the language, written
    with any white space around its tokens, is parsed to the command it
    stands for, in the order of the operators, with later redirections around
    earlier ones, and with every word terminated in place and no word cut. *)
Theorem parsecmd_reads_line l text post ks tr :
  line_short l → spells (line_toks l) text → Z.of_nat (length text) < nbuf →
  ∃ c enough buf', read_cmd buf' c = line_tree l ∧
    ∀ fuel, (enough < fuel)%nat → parsecmd fuel 0 ks (Uproc tr (text ++ 0 :: post)) = Ok c ks (Uproc tr buf').
Proof. apply parsecmd_line. Qed.
End parser.

(** The line [echo hi>out | wc &] with a newline. *)
Definition sample_line : line :=
  LEnd (PPipe (SExec [] [(bytes_of "echo", []); (bytes_of "hi", [Out (bytes_of "out")])]) (POne (SExec [] [(bytes_of "wc", [])]))) 1.
Definition sample_text : list Z := bytes_of " echo hi>out|wc &" ++ [10].

Lemma sample_spells : spells (line_toks sample_line) sample_text.
Proof.
  assert (Hw : ∀ w, w ≠ [] → forallb word_char w = true → token_ok (Word w)).
  { intros w H1 H2. split; [done|]. apply Forall_forall. intros x Hx. rewrite forallb_forall in H2. by apply H2, list_elem_of_In. }
  refine (spells_cons [32] (Word (bytes_of "echo")) _ _ _ (Hw (bytes_of "echo") _ eq_refl) _ _); [by repeat constructor|done|by intros c [= <-]|].
  refine (spells_cons [32] (Word (bytes_of "hi")) _ _ _ (Hw (bytes_of "hi") _ eq_refl) _ _); [by repeat constructor|done|by intros c [= <-]|].
  refine (spells_cons [] (Sym 62) _ _ _ _ _ _); [constructor|done|done|].
  refine (spells_cons [] (Word (bytes_of "out")) _ _ _ (Hw (bytes_of "out") _ eq_refl) _ _); [constructor|done|by intros c [= <-]|].
  refine (spells_cons [] (Sym 124) _ _ _ _ _ _); [constructor|done|done|].
  refine (spells_cons [] (Word (bytes_of "wc")) _ _ _ (Hw (bytes_of "wc") _ eq_refl) _ _); [constructor|done|by intros c [= <-]|].
  refine (spells_cons [32] (Sym 38) _ _ _ _ _ _); [by repeat constructor|done|done|].
  apply (spells_nil [10]). by repeat constructor.
Qed.

Lemma parsecmd_reads_line_witness (O := (λ _ _, Answer 0 []) : OS) :
  ∃ c enough buf', read_cmd buf' c = TBack (TPipe (TRedir (TExec [bytes_of "echo"; bytes_of "hi"]) (bytes_of "out") 0x601 1) (TExec [bytes_of "wc"])) ∧
    ∀ fuel, (enough < fuel)%nat → parsecmd fuel 0 [] (Uproc [] (sample_text ++ [0; 7])) = Ok c [] (Uproc [] buf').
Proof.
  exact (parsecmd_reads_line sample_line sample_text [7] [] [] ltac:(vm_compute; tauto) sample_spells ltac:(vm_compute; done)).
Defined.
