(* ===== verification/ShTotal.v ===== *)
(** * What the shell does with any line

    Every text is a sequence of tokens; the parser returns on every sequence
    of tokens: with a command when it is a line of the language, and
    otherwise by ending the process. *)

From S2P Require Import Prelude KMonad CString User Grep Sh ShSpec.

#[local] Arguments bytes_of : simpl never.
#[local] Arguments symbols : simpl never.
#[local] Arguments has : simpl never.

(** ** Every text has tokens *)

Lemma split_while (f : Z → bool) t : ∃ a b, t = a ++ b ∧ Forall (λ c, f c = true) a ∧ ∀ c, head b = Some c → f c = false.
Proof.
  induction t as [|c t (a & b & -> & Ha & Hb)]; [by exists [], []|]. destruct (f c) eqn:E.
  - exists (c :: a), b. split; [done|]. split; [by constructor|done].
  - exists [], (c :: a ++ b). split; [done|]. split; [done|]. by intros ? [= <-].
Qed.

Lemma spells_total t : Forall (λ c, c ≠ 0) t → ∃ ts, spells ts t.
Proof.
  remember (length t) as n eqn:Hn. revert t Hn. induction (lt_wf n) as [n _ IH]. intros t -> H0.
  destruct (split_while (has whitespace) t) as (w & b & -> & Hw & Hb). destruct b as [|c b]; [exists []; rewrite app_nil_r; by constructor|].
  specialize (Hb c eq_refl). apply Forall_app in H0 as [_ H0]. rewrite length_app in IH. cbn in IH. apply Forall_cons in H0 as [Hc0 H0].
  destruct (has symbols c) eqn:Es.
  - destruct (decide (c = 62 ∧ head b = Some 62)) as [[-> Hh]|Hne].
    + destruct b as [|d b]; [done|]. injection Hh as ->. apply Forall_cons in H0 as [_ H0].
      destruct (IH (length b) ltac:(cbn; lia) b eq_refl H0) as [ts Hts]. exists (Append :: ts). by apply (spells_cons w Append).
    + destruct (IH (length b) ltac:(lia) b eq_refl H0) as [ts Hts]. exists (Sym c :: ts). apply (spells_cons w (Sym c)); [done|done| |done].
      intros -> Hh. by destruct Hne.
  - destruct (split_while word_char b) as (a & b' & -> & Ha & Hb'). apply Forall_app in H0 as [_ H0].
    destruct (IH (length b') ltac:(rewrite length_app; lia) b' eq_refl H0) as [ts Hts]. exists (Word (c :: a) :: ts).
    apply (spells_cons w (Word (c :: a))); [done| |done|done]. split; [done|]. constructor; [|done].
    unfold word_char. rewrite Hb, Es. by destruct (Z.eqb_spec c 0).
Qed.

(** ** Messages *)

Section total.
Context `{O : OS}.
#[local] Abbreviation st := (uproc (list Z)).

Definition message (ws : list (call * answer)) : Prop := Forall (λ e, ∃ bs, e.1 = Write 2 bs) ws.

(** The process has printed a message and ended with status 1. *)
Definition exited (tr : list (call * answer)) (buf : list Z) (r : res st (cmd * Z)) : Prop :=
  ∃ ws a, r = Panic "exit" (Uproc (tr ++ ws ++ [(Exit 1, a)]) buf) ∧ message ws.

(** A computation that only prints. *)
Definition prints (m : M st unit) : Prop :=
  ∀ ks tr buf, ∃ ws, m ks (Uproc tr buf) = Ok tt ks (Uproc (tr ++ ws) buf) ∧ message ws.

Lemma prints_ret : prints (mret tt).
Proof. intros ks tr buf. exists []. rewrite app_nil_r. split; [done|constructor]. Qed.

Lemma prints_then m1 (m2 : M st unit) : prints m1 → prints m2 → prints (m1 ;; m2).
Proof.
  intros H1 H2 ks tr buf. destruct (H1 ks tr buf) as (w1 & E1 & M1). destruct (H2 ks (tr ++ w1) buf) as (w2 & E2 & M2).
  exists (w1 ++ w2). rewrite bind_run, E1, E2, app_assoc. split; [done|]. by apply Forall_app.
Qed.

Lemma prints_putc c : prints (putc 2 c).
Proof.
  intros ks tr buf. unfold putc, write, sys. rewrite !bind_run. cbn [u_trace u_vars]. eexists [_]. split; [reflexivity|].
  constructor; [by eexists|constructor].
Qed.

Lemma prints_string l : prints (for_each l (putc 2)).
Proof. induction l as [|c l IH]; [apply prints_ret|]. by apply prints_then; [apply prints_putc|]. Qed.

(** A format of plain characters, one %s and the rest. *)
Lemma prints_plain fmt ap : Forall (λ c, c ≠ 37) fmt → ∀ fmt', prints (vprintf 2 fmt' false ap) → prints (vprintf 2 (fmt ++ fmt') false ap).
Proof.
  induction 1 as [|c fmt Hc _ IH]; intros fmt' H; [done|]. cbn [app vprintf negb]. destruct (Z.eqb_spec c 37); [done|].
  apply prints_then; [apply prints_putc|by apply IH].
Qed.

Lemma prints_s fmt l : Forall (λ c, c ≠ 37) fmt → prints (vprintf 2 (fmt ++ bytes_of "%s" ++ newline) false [A_str (Some l)]).
Proof.
  intros H. apply prints_plain; [done|]. change (bytes_of "%s" ++ newline) with [37; 115; 10]. cbn [vprintf negb Z.eqb Pos.eqb].
  apply prints_then; [apply prints_string|]. apply prints_then; [apply prints_putc|apply prints_ret].
Qed.

Lemma sh_panic_run {A} msg ks tr buf : ∃ ws a,
  (sh_panic msg : M st A) ks (Uproc tr buf) = Panic "exit" (Uproc (tr ++ ws ++ [(Exit 1, a)]) buf) ∧ message ws.
Proof.
  destruct (prints_s [] (bytes_of msg) (Forall_nil_2 _) ks tr buf) as (ws & E & Hw). exists ws. eexists. split; [|done].
  unfold sh_panic, fprintf. rewrite bind_run. cbn [app] in E. rewrite E. unfold exit, sys, panic. rewrite bind_run. cbn [u_trace u_vars].
  by rewrite app_assoc.
Qed.

(** ** The parsing functions on any tokens *)

(** [f] at [s]: the process ends, or the tokens begin with some of [P] and
    what they stand for is returned. *)
Definition decides (buf : list Z) (es : Z) (P : list token → tree → Prop) (ts : list token) (tr : list (call * answer))
    (ks : list (st → st)) (r : res st (cmd * Z)) : Prop :=
  exited tr buf r ∨
  ∃ c s' ts0 ts' t, r = Ok (c, s') ks (Uproc tr buf) ∧ ts = ts0 ++ ts' ∧ P ts0 t ∧ toks_at buf es s' ts' ∧ delimits buf c t.

(** A failure of the first part is a failure of the whole. *)
Lemma exited_bind {A} tr buf (m : M st A) (f : A → M st (cmd * Z)) ks ws a :
  m ks (Uproc tr buf) = Panic "exit" (Uproc (tr ++ ws ++ [(Exit 1, a)]) buf) → message ws → exited tr buf ((m ≫= f) ks (Uproc tr buf)).
Proof. intros E Hw. exists ws, a. rewrite bind_run, E. by split. Qed.

Lemma gettoken_any buf es s ts ks tr : toks_at buf es s ts →
  ∃ code q e s', gettoken s es ks (Uproc tr buf) = Ok (code, q, e, s') ks (Uproc tr buf) ∧ toks_at buf es s' (tail ts) ∧
    match ts with
    | [] => code = 0
    | Word w :: _ => code = 97 ∧ located buf q e w
    | k :: _ => code = token_code k ∧ code ≠ 97 ∧ code ≠ 0
    end.
Proof.
  intros H. destruct ts as [|k ts].
  - destruct (gettoken_end _ _ _ H) as (q & e & s' & E & H'). exists 0, q, e, s'. unfold gettoken, vars. rewrite bind_run. cbn [gets u_vars]. by rewrite E.
  - pose proof (toks_at_ok _ _ _ _ _ H) as Hk. destruct (gettoken_run _ _ _ _ _ ks tr H) as (q & e & s' & E & H' & L).
    exists (token_code k), q, e, s'. split; [done|]. split; [done|]. destruct k as [w|c|]; [done| |done]. cbn in *.
    apply symbol_cases in Hk. by destruct_or! Hk; subst.
Qed.

Lemma decides_bind buf es (P1 P : list token → tree → Prop) ts tr ks (m : M st (cmd * Z)) f :
  decides buf es P1 ts tr ks (m ks (Uproc tr buf)) →
  (∀ c s' ts0 ts' t, ts = ts0 ++ ts' → P1 ts0 t → toks_at buf es s' ts' → delimits buf c t →
     decides buf es (λ ts1 t', P (ts0 ++ ts1) t') ts' tr ks (f (c, s') ks (Uproc tr buf))) →
  decides buf es P ts tr ks ((m ≫= f) ks (Uproc tr buf)).
Proof.
  intros [(ws & a & E & Hw)|(c & s' & ts0 & ts' & t & E & Et & HP & Ht & Hd)] Hf; [left; by eapply exited_bind|].
  rewrite bind_run, E. destruct (Hf c s' ts0 ts' t Et HP Ht Hd) as [H|(c2 & s2 & ts1 & ts2 & t2 & E2 & -> & HP2 & Ht2 & Hd2)]; [by left|].
  right. exists c2, s2, (ts0 ++ ts1), ts2, t2. split; [done|]. split; [by rewrite Et, app_assoc|done].
Qed.

Lemma decides_impl buf es (P Q : list token → tree → Prop) ts tr ks r :
  decides buf es P ts tr ks r → (∀ ts0 t, P ts0 t → Q ts0 t) → decides buf es Q ts tr ks r.
Proof.
  intros [H|(c & s' & ts0 & ts' & t & E & Et & HP & Ht)] HQ; [by left|]. right. exists c, s', ts0, ts', t. split; [done|]. split; [done|]. split; [by apply HQ|done].
Qed.

Lemma decides_tok buf es (P : list token → tree → Prop) k ts tr ks r :
  decides buf es (λ ts1 t, P (k :: ts1) t) ts tr ks r → decides buf es P (k :: ts) tr ks r.
Proof.
  intros [H|(c & s' & ts0 & ts' & t & E & Et & HP & Ht)]; [by left|]. right. exists c, s', (k :: ts0), ts', t. by subst.
Qed.

Lemma decides_here buf es (P : list token → tree → Prop) ts tr ks c s' t :
  P [] t → toks_at buf es s' ts → delimits buf c t → decides buf es P ts tr ks (Ok (c, s') ks (Uproc tr buf)).
Proof. intros. right. by exists c, s', [], ts, t. Qed.

Lemma decides_panic {A} buf es P ts tr ks msg (f : A → M st (cmd * Z)) : decides buf es P ts tr ks ((sh_panic msg ≫= f) ks (Uproc tr buf)).
Proof. left. destruct (sh_panic_run (A := A) msg ks tr buf) as (ws & a & E & Hw). by eapply exited_bind. Qed.

Definition is_redirs (t0 : tree) (ts : list token) (t : tree) : Prop := ∃ rs, ts = redirs_toks rs ∧ t = redirs_tree t0 rs.

(** The token of a redirection. *)
Lemma redir_token k ts : token_ok k → next_in "<>" (k :: ts) = true → k = Sym 60 ∨ k = Sym 62 ∨ k = Append.
Proof.
  intros Hk H. destruct k as [w|c|]; [by rewrite next_in_word in H by first [done|repeat constructor]| |by right; right].
  unfold next_in in H. cbn in H. apply has_true in H. change (bytes_of "<>") with [60; 62] in H. rewrite !elem_of_cons, elem_of_nil in H.
  destruct_or! H; subst; auto.
Qed.

Lemma parseredirs_total buf es ks tr ts : ∀ c t s fuel,
  delimits buf c t → toks_at buf es s ts → (length ts < fuel)%nat →
  decides buf es (is_redirs t) ts tr ks (parseredirs fuel c s es ks (Uproc tr buf)).
Proof.
  remember (length ts) as n eqn:Hn. revert ts Hn. induction (lt_wf n) as [n _ IH]. intros ts -> c t s [|fuel] Hd H Hf; [lia|].
  unfold parseredirs. cbn [while_fuel]. rewrite bind_run. unfold parseredirs_body at 1.
  destruct (peek_run _ _ _ _ "<>" ks tr H) as (s1 & E1 & H1). rewrite bind_run, E1. destruct (next_in "<>" ts) eqn:Hin; cbn [negb].
  2: { apply (decides_here _ _ _ _ _ _ _ _ t); [by exists []|done|done]. }
  destruct ts as [|k ts]; [done|]. pose proof (redir_token k ts (toks_at_ok _ _ _ _ _ H) Hin) as Hk.
  destruct (gettoken_run _ _ _ _ _ ks tr H1) as (q2 & e2 & s2 & E2 & H2 & _). rewrite bind_run, E2.
  destruct (gettoken_any _ _ _ _ ks tr H2) as (code & q & e & s3 & E3 & H3 & L). rewrite bind_run, E3.
  destruct (Z.eqb_spec code 97) as [->|Hc]; cbn [negb when].
  2: { rewrite bind_run. destruct (sh_panic_run (A := unit) "missing file for redirection" ks tr buf) as (ws & a & E & Hw). rewrite E. left. exists ws, a. split; [reflexivity|exact Hw]. }
  destruct ts as [|[w|c'|] ts]; [done| |by destruct L as (_ & ? & _)|by destruct L as (_ & ? & _)]. destruct L as [_ L]. cbn [tail] in H3. cbn [length] in *.
  rewrite bind_run, ret_run.
  assert (∃ r mode fd, redir_toks r = [k; Word w] ∧ redir_by (token_code k) c q e = REDIR c q e mode fd ∧ redir_tree t r = TRedir t w mode fd)
    as (r & mode & fd & Er & Ec & Et) by (destruct_or! Hk; subst k; [exists (In w)|exists (Out w)|exists (App w)]; by eexists _, _).
  rewrite Ec. assert (Hd' : delimits buf (REDIR c q e mode fd) (redir_tree t r)) by (by rewrite Et).
  do 2 apply decides_tok. eapply decides_impl; [apply (IH (length ts) ltac:(lia) ts eq_refl _ _ s3 fuel Hd' H3); lia|].
  intros ts0 t' (rs & -> & ->). exists (r :: rs). cbn. by rewrite Er.
Qed.

(** More arguments of a command. *)
Definition is_args (ws : list (list Z)) (rs : list redir) (ts : list token) (t : tree) : Prop :=
  ∃ args, ts = args_toks args ∧ Z.of_nat (length ws + length args) < MAXARGS ∧ t = redirs_tree (TExec (ws ++ args.*1)) (rs ++ mjoin args.*2).

Lemma parseexec_loop_total buf es ks tr ts : ∀ ws rs c s fuel F,
  delimits buf c (redirs_tree (TExec ws) rs) → toks_at buf es s ts → Z.of_nat (length ws) < MAXARGS →
  (length ts < fuel)%nat → (length ts < F)%nat →
  decides buf es (is_args ws rs) ts tr ks (while_fuel fuel (parseexec_body F es) (c, Z.of_nat (length ws), s) ks (Uproc tr buf)).
Proof.
  remember (length ts) as n eqn:Hn. revert ts Hn. induction (lt_wf n) as [n _ IH]. intros ts -> ws rs c s [|fuel] F Hd H Hws Hf HF; [lia|].
  assert (Hnil : is_args ws rs [] (redirs_tree (TExec ws) rs)) by (exists []; cbn; rewrite !app_nil_r, Nat.add_0_r; done).
  cbn [while_fuel]. rewrite bind_run. unfold parseexec_body at 1.
  destruct (peek_run _ _ _ _ "|)&;" ks tr H) as (s1 & E1 & H1). rewrite bind_run, E1. destruct (next_in "|)&;" ts) eqn:Hin.
  { eapply decides_here; [exact Hnil|done|done]. }
  destruct (gettoken_any _ _ _ _ ks tr H1) as (code & q & e & s2 & E2 & H2 & L). rewrite bind_run, E2.
  destruct ts as [|k ts]; [subst code; eapply decides_here; [exact Hnil|done|done]|].
  destruct (Z.eqb_spec code 0) as [->|Hc0]; [by destruct k as [w|c'|]; [destruct L|destruct L as (_ & _ & ?)..]|].
  destruct (Z.eqb_spec code 97) as [->|Hc]; cbn [negb when].
  2: { rewrite bind_run. destruct (sh_panic_run (A := unit) "syntax" ks tr buf) as (ws' & a & E & Hw). rewrite E. left. exists ws', a. split; [reflexivity|exact Hw]. }
  destruct k as [w|c'|]; [|by destruct L as (_ & ? & _)..]. destruct L as [_ L]. cbn [tail] in H2. cbn [length] in *.
  rewrite bind_run, ret_run, bind_run. destruct (Z.leb_spec MAXARGS (Z.of_nat (length ws) + 1)) as [Hm|Hm]; cbn [when].
  { destruct (sh_panic_run (A := unit) "too many args" ks tr buf) as (ws' & a & E & Hw). rewrite E. left. exists ws', a. split; [reflexivity|exact Hw]. }
  rewrite ret_run. apply decides_tok. rewrite <- bind_run, bind_assoc.
  eapply decides_bind; [apply (parseredirs_total _ _ _ _ _ _ _ s2 F (delimits_add _ _ _ _ _ _ L _ Hd) H2); lia|].
  intros c3 s3 ts0 ts' t Ets (rs1 & -> & ->) H3 Hd3. rewrite bind_run, ret_run.
  assert (Hl : Z.of_nat (length ws) + 1 = Z.of_nat (length (ws ++ [w]))) by (rewrite length_app; cbn; lia).
  assert (Hlt : (length ts' ≤ length ts)%nat) by (rewrite Ets, length_app; lia). rewrite Hl in *.
  eapply decides_impl; [apply (IH (length ts') ltac:(lia) ts' eq_refl (ws ++ [w]) (rs ++ rs1) c3 s3 fuel F)|];
    [unfold redirs_tree in *; by rewrite foldl_app|done|done|lia|lia|].
  intros ts1 t (args & -> & Ha & ->). exists ((w, rs1) :: args). rewrite length_app in Ha. cbn in Ha |- *. split; [done|].
  split; [lia|]. by rewrite <- !app_assoc.
Qed.

Definition is_simple (ts : list token) (t : tree) : Prop := ∃ s, ts = simple_toks s ∧ simple_short s ∧ t = simple_tree s.
Definition is_pipeline (ts : list token) (t : tree) : Prop := ∃ p, ts = pipeline_toks p ∧ pipeline_short p ∧ t = pipeline_tree p.
Definition is_line (ts : list token) (t : tree) : Prop := ∃ l, ts = line_toks l ∧ line_short l ∧ t = line_tree l.

(** The parsing function [f] on at most [n] tokens. *)
Definition total_on (buf : list Z) (es : Z) (P : list token → tree → Prop) (f : nat → Z → Z → M st (cmd * Z)) (fuel0 n : nat) : Prop :=
  ∀ ts s ks tr fuel, (length ts ≤ n)%nat → toks_at buf es s ts → (fuel0 < fuel)%nat →
  decides buf es P ts tr ks (f fuel s es ks (Uproc tr buf)).

Lemma symbol_token k ts c : token_ok k → next_in (String (Ascii.ascii_of_nat (Z.to_nat c)) "") (k :: ts) = true →
  c = 40 ∨ c = 41 ∨ c = 124 ∨ c = 59 ∨ c = 38 → k = Sym c.
Proof.
  intros Hk H Hc. destruct k as [w|c'|].
  - rewrite next_in_word in H; [done|done|]. destruct_or! Hc; subst c; repeat constructor.
  - unfold next_in in H. cbn in H. apply has_true in H. f_equal. destruct_or! Hc; subst c; by apply list_elem_of_singleton in H.
  - unfold next_in in H. cbn in H. apply has_true in H. destruct_or! Hc; subst c; by apply list_elem_of_singleton in H.
Qed.

Lemma parseblock_total buf es n : total_on buf es is_line parseline (4 * n + 3) n →
  ∀ ts s ks tr fuel, (length ts ≤ n)%nat → toks_at buf es s (Sym 40 :: ts) → (4 * n + 4 < fuel)%nat →
  decides buf es is_simple (Sym 40 :: ts) tr ks (parseblock fuel s es ks (Uproc tr buf)).
Proof.
  intros IH ts s ks tr [|fuel] Hn H Hf; [lia|]. cbn [parseblock]. destruct (peek_run _ _ _ _ "(" ks tr H) as (s1 & E1 & H1).
  rewrite bind_run, E1. change (next_in "(" _) with true. cbn [negb when]. rewrite bind_run, ret_run.
  destruct (gettoken_run _ _ _ _ _ ks tr H1) as (q2 & e2 & s2 & E2 & H2 & _). rewrite bind_run, E2. apply decides_tok.
  eapply decides_bind; [apply (IH ts s2 ks tr fuel Hn H2); lia|]. intros c s3 ts0 ts' t -> (l & -> & Hl & ->) H3 Hd. cbn beta iota.
  destruct (peek_run _ _ _ _ ")" ks tr H3) as (s4 & E4 & H4). rewrite bind_run, E4. destruct (next_in ")" ts') eqn:Hin; cbn [negb when]; [|apply decides_panic].
  destruct ts' as [|k ts']; [done|]. assert (k = Sym 41) as -> by (apply (symbol_token k ts' 41); [by eapply toks_at_ok|done|auto]).
  rewrite bind_run, ret_run. destruct (gettoken_run _ _ _ _ _ ks tr H4) as (q5 & e5 & s5 & E5 & H5 & _). rewrite bind_run, E5. apply decides_tok.
  rewrite length_app in Hn. cbn in Hn. eapply decides_impl; [apply (parseredirs_total _ _ _ _ _ _ _ s5 fuel Hd H5); lia|].
  intros ts1 t (rs & -> & ->). by exists (SBlock l rs).
Qed.

Lemma parseexec_total buf es n : (∀ m, (m < n)%nat → total_on buf es is_line parseline (4 * m + 3) m) →
  total_on buf es is_simple parseexec (4 * n + 1) n.
Proof.
  intros IH ts s ks tr [|fuel] Hn H Hf; [lia|]. cbn [parseexec]. destruct (peek_run _ _ _ _ "(" ks tr H) as (s1 & E1 & H1).
  rewrite bind_run, E1. destruct (next_in "(" ts) eqn:Hin.
  - destruct ts as [|k ts]; [done|]. assert (k = Sym 40) as -> by (apply (symbol_token k ts 40); [by eapply toks_at_ok|done|auto]).
    cbn [length] in Hn. apply (parseblock_total buf es (n - 1)); [apply IH; lia|lia|done|lia].
  - eapply decides_bind; [apply (parseredirs_total _ _ _ _ _ (EXEC [] []) (TExec []) s1 fuel); [constructor|done|lia]|].
    intros c s2 ts0 ts' t -> (rs & -> & ->) H2 Hd. rewrite length_app in Hn.
    eapply decides_impl; [apply (parseexec_loop_total buf es ks tr ts' [] rs c s2 fuel fuel Hd H2); [done|lia|lia]|].
    intros ts1 t (args & -> & Ha & ->). exists (SExec rs args). split; [done|]. split; [|done]. cbn in *. lia.
Qed.

Lemma parsepipe_total buf es n : (∀ m, (m ≤ n)%nat → total_on buf es is_simple parseexec (4 * m + 1) m) →
  total_on buf es is_pipeline parsepipe (4 * n + 2) n.
Proof.
  intros IH. induction (lt_wf n) as [n _ IHn]. intros ts s ks tr [|fuel] Hn H Hf; [lia|]. cbn [parsepipe].
  eapply decides_bind; [apply (IH n ltac:(lia) ts s ks tr fuel Hn H); lia|]. intros c s1 ts0 ts' t -> (s0 & -> & Hs & ->) H1 Hd.
  cbn beta iota. destruct (peek_run _ _ _ _ "|" ks tr H1) as (s2 & E2 & H2). rewrite bind_run, E2. destruct (next_in "|" ts') eqn:Hin.
  - destruct ts' as [|k ts']; [done|]. assert (k = Sym 124) as -> by (apply (symbol_token k ts' 124); [by eapply toks_at_ok|done|auto]).
    destruct (gettoken_run _ _ _ _ _ ks tr H2) as (q3 & e3 & s3 & E3 & H3 & _). rewrite bind_run, E3. apply decides_tok. rewrite length_app in Hn. cbn in Hn.
    eapply decides_bind; [apply (IHn (n - 1)%nat ltac:(lia) ltac:(intros; apply IH; lia) ts' s3 ks tr fuel); [lia|done|lia]|].
    intros c4 s4 ts1 ts2 t -> (p & -> & Hp & ->) H4 Hd4. apply (decides_here _ _ _ _ _ _ _ _ (TPipe (simple_tree s0) (pipeline_tree p))); [|done|done].
    exists (PPipe s0 p). cbn. by rewrite app_nil_r.
  - eapply decides_here; [|done|done]. exists (POne s0). by rewrite app_nil_r.
Qed.

(** A command and some '&'. *)
Definition is_back (t0 : tree) (ts : list token) (t : tree) : Prop := ∃ bg, ts = replicate bg (Sym 38) ∧ t = Nat.iter bg TBack t0.

Lemma back_total buf es ks tr ts : ∀ c t s fuel, delimits buf c t → toks_at buf es s ts → (length ts < fuel)%nat →
  decides buf es (is_back t) ts tr ks (while_fuel fuel (back_body es) (c, s) ks (Uproc tr buf)).
Proof.
  induction ts as [|k ts IH]; intros c t s [|fuel] Hd H Hf; (cbn in Hf; try lia); cbn [while_fuel]; rewrite bind_run; unfold back_body at 1;
    destruct (peek_run _ _ _ _ "&" ks tr H) as (s1 & E1 & H1); rewrite bind_run, E1.
  - apply (decides_here _ _ _ _ _ _ _ _ t); [by exists 0%nat|done|done].
  - destruct (next_in "&" (k :: ts)) eqn:Hin; cbn [negb].
    + assert (k = Sym 38) as -> by (apply (symbol_token k ts 38); [by eapply toks_at_ok|done|auto 6]).
      destruct (gettoken_run _ _ _ _ _ ks tr H1) as (q2 & e2 & s2 & E2 & H2 & _). rewrite bind_run, E2. apply decides_tok.
      eapply decides_impl; [apply (IH (BACK c) (TBack t) s2 fuel Hd H2); lia|]. intros ts0 t' (bg & -> & ->). exists (S bg).
      by rewrite Nat.iter_succ_r.
    + apply (decides_here _ _ _ _ _ _ _ _ t); [by exists 0%nat|done|done].
Qed.

Lemma parseline_total buf es n : (∀ m, (m ≤ n)%nat → total_on buf es is_pipeline parsepipe (4 * m + 2) m) →
  total_on buf es is_line parseline (4 * n + 3) n.
Proof.
  intros IH. induction (lt_wf n) as [n _ IHn]. intros ts s ks tr [|fuel] Hn H Hf; [lia|]. cbn [parseline].
  eapply decides_bind; [apply (IH n ltac:(lia) ts s ks tr fuel Hn H); lia|]. intros c s1 ts0 ts1 t -> (p & -> & Hp & ->) H1 Hd.
  rewrite length_app in Hn. eapply decides_bind; [apply (back_total buf es ks tr ts1 c _ s1 fuel Hd H1); lia|].
  intros c2 s2 ts2 ts' t -> (bg & -> & ->) H2 Hd2. cbn beta iota. rewrite length_app in Hn.
  destruct (peek_run _ _ _ _ ";" ks tr H2) as (s3 & E3 & H3). rewrite bind_run, E3. destruct (next_in ";" ts') eqn:Hin.
  - destruct ts' as [|k ts']; [done|]. assert (k = Sym 59) as -> by (apply (symbol_token k ts' 59); [by eapply toks_at_ok|done|auto 6]).
    destruct (gettoken_run _ _ _ _ _ ks tr H3) as (q4 & e4 & s4 & E4 & H4 & _). rewrite bind_run, E4. apply decides_tok. cbn [length] in Hn.
    eapply decides_bind; [apply (IHn (n - 1)%nat ltac:(lia) ltac:(intros; apply IH; lia) ts' s4 ks tr fuel); [lia|done|lia]|].
    intros c5 s5 ts3 ts4 t -> (l & -> & Hl & ->) H5 Hd5. apply (decides_here _ _ _ _ _ _ _ _ (TList (Nat.iter bg TBack (pipeline_tree p)) (line_tree l))); [|done|done].
    exists (LSeq p bg l). cbn. by rewrite app_nil_r.
  - eapply decides_here; [|done|done]. exists (LEnd p bg). by rewrite app_nil_r.
Qed.

Lemma line_total buf es n : total_on buf es is_line parseline (4 * n + 3) n.
Proof.
  induction (lt_wf n) as [n _ IH]. apply parseline_total. intros m Hm. apply parsepipe_total. intros k Hk. apply parseexec_total.
  intros j Hj. apply IH. lia.
Qed.

(** More fuel does not change what the parser does. *)
Lemma parse_approx fuel : ∀ fuel' s es, (fuel ≤ fuel')%nat →
  approx (parseline fuel s es) (parseline fuel' s es) ∧ approx (parsepipe fuel s es) (parsepipe fuel' s es) ∧
  approx (parseexec fuel s es) (parseexec fuel' s es) ∧ approx (parseblock fuel s es) (parseblock fuel' s es).
Proof.
  induction fuel as [|fuel IH]; intros fuel' s es Hf; [split_and!; by intros ? ? []|]. destruct fuel' as [|fuel']; [lia|].
  assert (H1 : ∀ s, approx (parseline fuel s es) (parseline fuel' s es)) by (intros; apply IH; lia).
  assert (H2 : ∀ s, approx (parsepipe fuel s es) (parsepipe fuel' s es)) by (intros; apply IH; lia).
  assert (H3 : ∀ s, approx (parseexec fuel s es) (parseexec fuel' s es)) by (intros; apply IH; lia).
  assert (H4 : ∀ s, approx (parseblock fuel s es) (parseblock fuel' s es)) by (intros; apply IH; lia).
  assert (H5 : ∀ c s, approx (parseredirs fuel c s es) (parseredirs fuel' c s es)) by (unfold parseredirs; approx_tac).
  assert (H6 : ∀ st, approx (parseexec_body fuel es st) (parseexec_body fuel' es st)) by (intros [[c argc] s']; unfold parseexec_body; approx_tac).
  split_and!; cbn [parseline parsepipe parseexec parseblock]; approx_tac.
Qed.

Lemma parsecmd_approx fuel fuel' s : (fuel ≤ fuel')%nat → approx (parsecmd fuel s) (parsecmd fuel' s).
Proof. intros Hf. unfold parsecmd. pose proof (λ s es, proj1 (parse_approx fuel fuel' s es Hf)). approx_tac. Qed.

Lemma spells_length ts t : spells ts t → (length ts ≤ length t)%nat.
Proof.
  induction 1 as [w Hw|w k ts t Hw Hk _ _ IH]; [cbn; lia|]. destruct (token_head k t Hk) as (c & l & E & _). cbn. rewrite length_app, E. cbn.
  apply (f_equal length) in E. rewrite length_app in E. destruct k as [[|x w']|c'|]; cbn in *; [by destruct Hk| | |]; lia.
Qed.

Lemma toks_at_end buf es ts : toks_at buf es es ts → ts = [].
Proof. intros (t & (_ & Hl & _) & Hsp). apply spells_length in Hsp. assert (length t = 0)%nat by lia. by destruct ts; [|cbn in Hsp; lia]. Qed.

(** What parsecmd() does with a text of some tokens. *)
Lemma parsecmd_decides text post ts ks tr fuel :
  let buf := text ++ 0 :: post in
  spells ts text → Z.of_nat (length text) < nbuf → (4 * length text + 3 < fuel)%nat →
  (∃ l c, ts = line_toks l ∧ line_short l ∧
     parsecmd fuel 0 ks (Uproc tr buf) = Ok c ks (Uproc tr (zero_at (word_ends c) buf)) ∧ delimits buf c (line_tree l)) ∨
  ∃ ws a, parsecmd fuel 0 ks (Uproc tr buf) = Panic "exit" (Uproc (tr ++ ws ++ [(Exit 1, a)]) buf) ∧ message ws.
Proof.
  intros buf Hsp Hl Hf. set (es := Z.of_nat (length text)). assert (Hc : cstr buf 0 = text) by (apply until_nul_app; by eapply spells_all_nonzero).
  assert (H : toks_at buf es 0 ts) by (exists text; split; [split; [lia|split; [done|by exists post]]|done]).
  remember (parsecmd fuel 0 ks (Uproc tr buf)) as r eqn:Er. unfold parsecmd in Er. rewrite bind_run in Er. unfold vars at 1 in Er.
  cbn [gets u_vars] in Er. rewrite Hc in Er. unfold strlen in Er.
  rewrite u32_small in Er by (unfold nbuf in Hl; lia). rewrite Z.add_0_l in Er. fold es in Er. rewrite bind_run in Er.
  pose proof (spells_length _ _ Hsp) as Hlen.
  destruct (line_total buf es (length ts) ts 0 ks tr fuel) as [(ws & a & E & Hw)|(c & s1 & ts0 & ts' & t & E & -> & (l & -> & Hs & ->) & H1 & Hd)];
    [done|done|lia|rewrite E in Er; right; by exists ws, a|]. rewrite E in Er.
  destruct (peek_run _ _ _ _ "" ks tr H1) as (s2 & E2 & H2). rewrite bind_run, E2 in Er. destruct (Z.eqb_spec s2 es) as [Eq|Hne]; cbn [negb when] in Er.
  - rewrite Eq in H2. apply toks_at_end in H2 as ->. left. exists l, c. rewrite app_nil_r. split; [done|]. split; [done|]. split; [|done].
    rewrite bind_run, ret_run, bind_run, nulterminate_run in Er. done.
  - right. rewrite bind_run, bind_run in Er. unfold vars in Er. cbn [gets u_vars] in Er. rewrite bind_run in Er. unfold fprintf in Er.
    destruct (prints_s (bytes_of "leftovers: ") (cstr buf s2) ltac:(by repeat constructor) ks tr buf) as (w1 & E1 & M1).
    change (bytes_of "leftovers: " ++ bytes_of "%s" ++ newline) with (bytes_of "leftovers: %s" ++ newline) in E1. rewrite E1 in Er.
    destruct (sh_panic_run (A := unit) "syntax" ks (tr ++ w1) buf) as (w2 & a & E3 & M2). rewrite E3 in Er. exists (w1 ++ w2), a.
    split; [by rewrite <- !app_assoc in Er |- *|]. by apply Forall_app.
Qed.

(** C16: the shell decides its language.  On a line of fewer than 100
    characters without NUL the parser always returns: with the command the
    line stands for, or, exactly when the line is not one of the language
    with at most nine arguments per command, by printing a message and ending
    the process with status 1, the line untouched. *)
Theorem parsecmd_total text post ks tr fuel :
  let buf := text ++ 0 :: post in
  Forall (λ c, c ≠ 0) text → Z.of_nat (length text) < nbuf → (4 * length text + 3 < fuel)%nat →
  (∃ l c buf', line_short l ∧ spells (line_toks l) text ∧
     parsecmd fuel 0 ks (Uproc tr buf) = Ok c ks (Uproc tr buf') ∧ read_cmd buf' c = line_tree l) ∨
  (¬ (∃ l, line_short l ∧ spells (line_toks l) text)) ∧
  ∃ ws a, parsecmd fuel 0 ks (Uproc tr buf) = Panic "exit" (Uproc (tr ++ ws ++ [(Exit 1, a)]) buf) ∧ message ws.
Proof.
  intros buf H0 Hl Hf. destruct (spells_total text H0) as [ts Hsp].
  destruct (parsecmd_decides text post ts ks tr fuel Hsp Hl Hf) as [(l & c & -> & Hs & E & Hd)|(ws & a & E & Hw)]; fold buf in E.
  - left. exists l, c, (zero_at (word_ends c) buf). split; [done|]. split; [done|]. split; [done|]. by eapply delimits_read, delimits_breaks.
  - right. split; [|by exists ws, a]. intros (l & Hs & Hsp'). destruct (parsecmd_line l text post ks tr Hs Hsp' Hl) as (c & enough & buf' & _ & E').
    fold buf in E'. specialize (E' (S (enough + fuel)) ltac:(lia)).
    rewrite (parsecmd_approx fuel) in E' by (lia || by rewrite E). by rewrite E in E'.
Qed.
End total.

(** A redirection without a file: the process ends after the message. *)
Lemma parsecmd_total_witness (O := (λ _ _, Answer 0 []) : OS) :
  (¬ (∃ l, line_short l ∧ spells (line_toks l) (bytes_of "ls >"))) ∧
  ∃ ws a, parsecmd 20 0 [] (Uproc [] (bytes_of "ls >" ++ [0])) = Panic "exit" (Uproc (ws ++ [(Exit 1, a)]) (bytes_of "ls >" ++ [0])) ∧ message ws.
Proof.
  destruct (parsecmd_total (bytes_of "ls >") [] [] [] 20) as [(l & c & buf' & _ & _ & E & _)|H].
  - by repeat constructor.
  - vm_compute. done.
  - vm_compute. lia.
  - exfalso. vm_compute in E. discriminate E.
  - exact H.
Defined.
