(* ===== verification/Grind.v ===== *)
(** * The stress programs: grind.c, forktest.c, stressfs.c

    Programs that run system calls to exhaustion; grind.c has the only
    random number generator of the system.  Loops that run forever take a
    [fuel]. *)

From S2P Require Import Prelude KMonad CString Bio Ulib User Grep Programs.

(** ** grind.c *)

(** The new state and the value returned as an int. *)
Definition do_rand (ctx : Z) : Z * Z :=
  (* Transform to [1, 0x7ffffffe] range. *)
  let x := i64 (u64 (ctx mod 0x7ffffffe + 1)) in
  let hi := Z.quot x 127773 in
  let lo := Z.rem x 127773 in
  let x := i64 (i64 (16807 * lo) - i64 (2836 * hi)) in
  let x := if x <? 0 then i64 (x + 0x7fffffff) else x in
  (* Transform to [0, 0x7ffffffd] range. *)
  let x := i64 (x - 1) in
  (u64 x, i32 x).

Record grind := Grind { rand_next : Z; g_buf : list Z }.

Section grind.
Context `{O : OS}.
#[local] Abbreviation U := (M (uproc grind)).

Definition rand : U Z :=
  g ← vars;
  let '(ctx, x) := do_rand (rand_next g) in
  set_vars (λ g, Grind ctx (g_buf g)) ;;
  mret x.

(** [wait(&st)]: a child's status goes to st, which a failed wait leaves. *)
Definition wait_status (st : Z) : U Z :=
  a ← sys Wait;
  mret (if a_ret a <? 0 then st else a_data a !!! 0%nat).

Definition say_exit {A} (fd : Z) (msg : string) (status : Z) : U A :=
  fprintf fd (line_of msg) [] ;; exit status.

(** [close(open(path, O_CREATE|O_RDWR))] *)
Definition touch (path : string) : U unit :=
  fd ← open (bytes_of path) (Z.lor O_CREATE O_RDWR);
  close fd ;;
  mret tt.

(** [int pid = fork(); if(pid == 0){ child } else if(pid < 0){ ... }] *)
Definition fork_child (child : U unit) : U Z :=
  pid ← fork;
  if pid =? 0 then child ;; mret pid
  else if pid <? 0 then say_exit 1 "grind: fork failed" 1
  else mret pid.

(** what == 19 *)
Definition go_pipe : U unit :=
  p ← pipe;
  let '(e, (fds0, fds1)) := p in
  when (e <? 0) (say_exit 1 "grind: pipe failed" 1) ;;
  fork_child
    (fork ;;
     fork ;;
     w ← write fds1 (bytes_of "x");
     when (negb (w =? 1)) (printf (line_of "grind: pipe write failed") []) ;;
     r ← read fds0 1;
     when (negb (r.1 =? 1)) (printf (line_of "grind: pipe read failed") []) ;;
     exit 0) ;;
  close fds0 ;;
  close fds1 ;;
  wait ;;
  mret tt.

(** what == 21 *)
Definition go_create : U unit :=
  unlink (bytes_of "c") ;;
  (* should always succeed. check that there are free i-nodes,
     file descriptors, blocks. *)
  fd1 ← open (bytes_of "c") (Z.lor O_CREATE O_RDWR);
  when (fd1 <? 0) (say_exit 1 "grind: create c failed" 1) ;;
  w ← write fd1 (bytes_of "x");
  when (negb (w =? 1)) (say_exit 1 "grind: write c failed" 1) ;;
  st ← fstat fd1;
  when (negb (st.1 =? 0)) (say_exit 1 "grind: fstat failed" 1) ;;
  when (negb (stat_size st.2 =? 1))
    (printf (line_of "grind: fstat reports wrong size %d") [A_int (i32 (stat_size st.2))] ;; exit 1) ;;
  when (200 <? stat_ino st.2)
    (printf (line_of "grind: fstat reports crazy i-number %d") [A_int (stat_ino st.2)] ;; exit 1) ;;
  close fd1 ;;
  unlink (bytes_of "c") ;;
  mret tt.

(** what == 22: echo hi | cat *)
Definition go_echo (aa bb : Z * Z) : U unit :=
  close bb.1 ;;
  close bb.2 ;;
  close aa.1 ;;
  close 1 ;;
  d ← dup aa.2;
  when (negb (d =? 1)) (say_exit 2 "grind: dup failed" 1) ;;
  close aa.2 ;;
  exec (bytes_of "grindir/../echo") [bytes_of "echo"; bytes_of "hi"] ;;
  say_exit 2 "grind: echo: not found" 2.

Definition go_cat (aa bb : Z * Z) : U unit :=
  close aa.2 ;;
  close bb.1 ;;
  close 0 ;;
  d ← dup aa.1;
  when (negb (d =? 0)) (say_exit 2 "grind: dup failed" 4) ;;
  close aa.1 ;;
  close 1 ;;
  d ← dup bb.2;
  when (negb (d =? 1)) (say_exit 2 "grind: dup failed" 5) ;;
  close bb.2 ;;
  exec (bytes_of "/cat") [bytes_of "cat"] ;;
  say_exit 2 "grind: cat: not found" 6.

(** [read(fd, buf+i, 1)] *)
Definition read_at (fd : Z) (buf : list Z) (i : Z) : U (list Z) :=
  r ← read fd 1;
  mret (if 0 <? r.1 then put_bytes buf i r.2 else buf).

(** [st1] and [st2] are not initialized: [junk] is what they hold. *)
Definition go_pipeline (junk : Z) : U unit :=
  p ← pipe;
  let '(e, aa) := p in
  when (e <? 0) (say_exit 2 "grind: pipe failed" 1) ;;
  p ← pipe;
  let '(e, bb) := p in
  when (e <? 0) (say_exit 2 "grind: pipe failed" 1) ;;
  pid1 ← fork;
  (if pid1 =? 0 then go_echo aa bb
   else when (pid1 <? 0) (say_exit 2 "grind: fork failed" 3)) ;;
  pid2 ← fork;
  (if pid2 =? 0 then go_cat aa bb
   else when (pid2 <? 0) (say_exit 2 "grind: fork failed" 7)) ;;
  close aa.1 ;;
  close aa.2 ;;
  close bb.2 ;;
  buf ← read_at bb.1 [0; 0; 0; 0] 0;
  buf ← read_at bb.1 buf 1;
  buf ← read_at bb.1 buf 2;
  close bb.1 ;;
  st1 ← wait_status junk;
  st2 ← wait_status junk;
  when (negb (st1 =? 0) || negb (st2 =? 0) || negb (strcmp (cstr buf 0) (line_of "hi") =? 0))
    (printf (bytes_of "grind: exec pipeline failed %d %d " ++ [34] ++ bytes_of "%s" ++ [34] ++ newline)
       [A_int st1; A_int st2; A_str (Some (cstr buf 0))] ;;
     exit 1).

(** The branches of the loop of go(), with fd before and after. *)
Definition go_what (what break0 junk fd : Z) : U Z :=
  let rw := Z.lor O_CREATE O_RDWR in
  let same (m : U unit) := m ;; mret fd in
  if what =? 1 then same (touch "grindir/../a")
  else if what =? 2 then same (touch "grindir/../grindir/../b")
  else if what =? 3 then same (unlink (bytes_of "grindir/../a") ;; mret tt)
  else if what =? 4 then same
    (r ← chdir (bytes_of "grindir");
     when (negb (r =? 0)) (say_exit 1 "grind: chdir grindir failed" 1) ;;
     unlink (bytes_of "../b") ;;
     chdir (bytes_of "/") ;;
     mret tt)
  else if what =? 5 then close fd ;; open (bytes_of "/grindir/../a") rw
  else if what =? 6 then close fd ;; open (bytes_of "/./grindir/./../b") rw
  else if what =? 7 then same (g ← vars; write fd (bytes_at (g_buf g) 0 999) ;; mret tt)
  else if what =? 8 then same
    (r ← read fd 999;
     when (0 <? r.1) (set_vars (λ g, Grind (rand_next g) (put_bytes (g_buf g) 0 r.2))))
  else if what =? 9 then same
    (mkdir (bytes_of "grindir/../a") ;;
     touch "a/../a/./a" ;;
     unlink (bytes_of "a/a") ;;
     mret tt)
  else if what =? 10 then same
    (mkdir (bytes_of "/../b") ;;
     touch "grindir/../b/b" ;;
     unlink (bytes_of "b/b") ;;
     mret tt)
  else if what =? 11 then same
    (unlink (bytes_of "b") ;;
     link (bytes_of "../grindir/./../a") (bytes_of "../b") ;;
     mret tt)
  else if what =? 12 then same
    (unlink (bytes_of "../grindir/../a") ;;
     link (bytes_of ".././b") (bytes_of "/grindir/../a") ;;
     mret tt)
  else if what =? 13 then same (fork_child (exit 0) ;; wait ;; mret tt)
  else if what =? 14 then same (fork_child (fork ;; fork ;; exit 0) ;; wait ;; mret tt)
  else if what =? 15 then same (sbrk 6011 ;; mret tt)
  else if what =? 16 then same
    (b ← sbrk 0;
     when (u64 break0 <? u64 b) (b' ← sbrk 0; sbrk (i32 (- (b' - break0))) ;; mret tt))
  else if what =? 17 then same
    (pid ← fork_child (touch "a" ;; exit 0);
     r ← chdir (bytes_of "../grindir/..");
     when (negb (r =? 0)) (say_exit 1 "grind: chdir failed" 1) ;;
     kill pid ;;
     wait ;;
     mret tt)
  else if what =? 18 then same (fork_child (p ← getpid; kill p ;; exit 0) ;; wait ;; mret tt)
  else if what =? 19 then same go_pipe
  else if what =? 20 then same
    (fork_child
       (unlink (bytes_of "a") ;;
        mkdir (bytes_of "a") ;;
        chdir (bytes_of "a") ;;
        unlink (bytes_of "../a") ;;
        open (bytes_of "x") rw ;;
        unlink (bytes_of "x") ;;
        exit 0) ;;
     wait ;;
     mret tt)
  else if what =? 21 then same go_create
  else if what =? 22 then same (go_pipeline junk)
  else mret fd.

(** One turn of the loop, on fd and iters. *)
Definition go_body (which_child break0 junk : Z) (s : Z * Z) : U ((Z * Z) + unit) :=
  let '(fd, iters) := s in
  let iters := u64 (iters + 1) in
  when (iters mod 500 =? 0) (write 1 (bytes_of (if truthy which_child then "B" else "A")) ;; mret tt) ;;
  x ← rand;
  fd ← go_what (Z.rem x 23) break0 junk fd;
  mret (inl (fd, iters)).

Definition go (fuel : nat) (junk which_child : Z) : U unit :=
  break0 ← sbrk 0;
  mkdir (bytes_of "grindir") ;;
  r ← chdir (bytes_of "grindir");
  when (negb (r =? 0)) (say_exit 1 "grind: chdir grindir failed" 1) ;;
  chdir (bytes_of "/") ;;
  while_fuel fuel (go_body which_child break0 junk) (-1, 0).

Definition iter (fuel : nat) (junk : Z) : U unit :=
  unlink (bytes_of "a") ;;
  unlink (bytes_of "b") ;;
  pid1 ← fork;
  when (pid1 <? 0) (say_exit 1 "grind: fork failed" 1) ;;
  when (pid1 =? 0)
    (set_vars (λ g, Grind (Z.lxor (rand_next g) 31) (g_buf g)) ;;
     go fuel junk 0 ;;
     exit 0) ;;
  pid2 ← fork;
  when (pid2 <? 0) (say_exit 1 "grind: fork failed" 1) ;;
  when (pid2 =? 0)
    (set_vars (λ g, Grind (Z.lxor (rand_next g) 7177) (g_buf g)) ;;
     go fuel junk 1 ;;
     exit 0) ;;
  st1 ← wait_status (-1);
  when (negb (st1 =? 0)) (kill pid1 ;; kill pid2 ;; mret tt) ;;
  wait_status (-1) ;;
  exit 0.

Definition grind_body (fuel : nat) (junk : Z) (_ : unit) : U (unit + unit) :=
  pid ← fork;
  when (pid =? 0) (iter fuel junk ;; exit 0) ;;
  when (0 <? pid) (wait ;; mret tt) ;;
  sleep 20 ;;
  set_vars (λ g, Grind (u64 (rand_next g + 1)) (g_buf g)) ;;
  mret (inl tt).

Definition grind_main (fuel : nat) (junk : Z) : U unit := while_fuel fuel (grind_body fuel junk) tt.
End grind.

(** ** forktest.c *)
Section forktest.
Context `{O : OS}.
#[local] Abbreviation U := (M (uproc unit)).

Definition N : Z := 1000.

Definition print (s : list Z) : U unit := write 1 (take (Z.to_nat (strlen s)) s) ;; mret tt.

(** [for(n=0; n<N; n++)], giving n at the end. *)
Definition forktest_fork (n : Z) : U (Z + Z) :=
  if n <? N then
    pid ← fork;
    if pid <? 0 then mret (inr n)
    else if pid =? 0 then exit 0
    else mret (inl (n + 1))
  else mret (inr n).

(** [for(; n > 0; n--)] *)
Definition forktest_wait (n : Z) : U (Z + unit) :=
  if 0 <? n then
    w ← wait;
    if w <? 0 then print (line_of "wait stopped early") ;; exit 1
    else mret (inl (n - 1))
  else mret (inr tt).

Definition forktest : U unit :=
  print (line_of "fork test") ;;
  n ← while_fuel (S (Z.to_nat N)) forktest_fork 0;
  when (n =? N) (print (line_of "fork claimed to work N times!") ;; exit 1) ;;
  while_fuel (S (Z.to_nat N)) forktest_wait n ;;
  w ← wait;
  when (negb (w =? -1)) (print (line_of "wait got too many") ;; exit 1) ;;
  print (line_of "fork test OK").

Definition forktest_main : U unit := forktest ;; exit 0.

(** ** stressfs.c *)

(** [for(i = 0; i < 4; i++) if(fork() > 0) break;] *)
Definition stressfs_fork (i : Z) : U (Z + Z) :=
  if i <? 4 then
    pid ← fork;
    if 0 <? pid then mret (inr i) else mret (inl (i + 1))
  else mret (inr i).

Definition stressfs_main : U unit :=
  printf (line_of "stressfs starting") [] ;;
  let data := replicate 512 97 in
  i ← while_fuel 5 stressfs_fork 0;
  printf (line_of "write %d") [A_int i] ;;
  let path := bytes_of "stressfs" ++ [u8 (48 + i)] in
  fd ← open path (Z.lor O_CREATE O_RDWR);
  for_each (seq 0 20) (λ _, write fd data ;; mret tt) ;;
  close fd ;;
  printf (line_of "read") [] ;;
  fd ← open path O_RDONLY;
  for_each (seq 0 20) (λ _, read fd 512 ;; mret tt) ;;
  close fd ;;
  wait ;;
  exit 0.
End forktest.
