(* ===== verification/GrindSpec.v ===== *)
(** * The random numbers of grind.c

    do_rand() multiplies modulo 2^31 - 1 without a product that exceeds 31
    bits (Schrage's method); the theorem compares it with the multiplication
    on unbounded integers. *)

From S2P Require Import Prelude KMonad User Grind.

Definition modulus : Z := 2 ^ 31 - 1.

(** The Park-Miller generator on [1, 2^31 - 2]. *)
Definition park_miller (x : Z) : Z := (7 ^ 5 * x) mod modulus.

(** do_rand()'s seed as a state of the generator. *)
Definition seed (ctx : Z) : Z := ctx mod 0x7ffffffe + 1.

(** Neither product of Schrage's method exceeds 31 bits. *)
Lemma schrage x :
  0 < x < modulus →
  let hi := x / 127773 in
  let lo := x mod 127773 in
  0 ≤ 16807 * lo < 2 ^ 31 ∧ 0 ≤ 2836 * hi < 2 ^ 31 ∧
  park_miller x = if 16807 * lo - 2836 * hi <? 0 then 16807 * lo - 2836 * hi + modulus else 16807 * lo - 2836 * hi.
Proof.
  intros Hx hi lo. unfold modulus in Hx.
  assert (H : 0 ≤ hi ≤ 16807 ∧ 0 ≤ lo < 127773 ∧ x = 127773 * hi + lo)
    by (unfold hi, lo; clearbody hi lo; Z.div_mod_to_equations; lia).
  split; [lia|]. split; [lia|]. unfold park_miller, modulus.
  destruct (Z.ltb_spec (16807 * lo - 2836 * hi) 0);
    symmetry; [apply (Z.mod_unique _ _ (hi - 1)) | apply (Z.mod_unique _ _ hi)]; lia.
Qed.

(** 7^5 has an inverse modulo 2^31 - 1. *)
Lemma modulus_divides x : (modulus | 7 ^ 5 * x) → (modulus | x).
Proof. intros H. apply (Z.gauss _ (7 ^ 5)); [done|]. vm_compute. reflexivity. Qed.

Lemma park_miller_range x : 0 < x < modulus → 0 < park_miller x < modulus.
Proof.
  intros Hx. unfold park_miller.
  pose proof (Z.mod_pos_bound (7 ^ 5 * x) modulus) as Hb.
  assert (Hn : (7 ^ 5 * x) mod modulus ≠ 0).
  { intros H%Z.mod_divide; [|done]. apply modulus_divides, Z.divide_pos_le in H; lia. }
  unfold modulus in *. lia.
Qed.

Lemma park_miller_inj x y :
  0 < x < modulus → 0 < y < modulus → park_miller x = park_miller y → x = y.
Proof.
  intros Hx Hy E. assert (H : (modulus | 7 ^ 5 * (x - y))).
  { rewrite Z.mul_sub_distr_l. apply Z.mod_divide; [done|]. rewrite Zminus_mod.
    unfold park_miller in E. by rewrite E, Z.sub_diag. }
  apply modulus_divides in H as [q Hq].
  assert (q = 0) by nia. lia.
Qed.

Lemma seed_range ctx : 0 < seed ctx < modulus.
Proof.
  unfold seed, modulus. pose proof (Z.mod_pos_bound ctx 0x7ffffffe ltac:(lia)). lia.
Qed.

Lemma do_rand_value ctx : do_rand ctx = (park_miller (seed ctx) - 1, park_miller (seed ctx) - 1).
Proof.
  pose proof (seed_range ctx) as Hs. pose proof (park_miller_range _ Hs) as Hr.
  destruct (schrage _ Hs) as (H1 & H2 & H3). unfold do_rand. fold (seed ctx). unfold modulus in *.
  rewrite (u64_small (seed ctx)), (i64_small (seed ctx)) by lia.
  rewrite Z.quot_div_nonneg, Z.rem_mod_nonneg by lia. cbv zeta.
  rewrite (i64_small (16807 * _)), (i64_small (2836 * _)), (i64_small (_ - 2836 * _)) by lia.
  assert (E : (if 16807 * (seed ctx mod 127773) - 2836 * (seed ctx / 127773) <? 0
     then i64 (16807 * (seed ctx mod 127773) - 2836 * (seed ctx / 127773) + 0x7fffffff)
     else 16807 * (seed ctx mod 127773) - 2836 * (seed ctx / 127773)) = park_miller (seed ctx)).
  { rewrite H3. destruct (_ <? 0); [apply i64_small; lia|done]. }
  rewrite E, i64_small, u64_small, i32_small by lia. done.
Qed.

(** C40: do_rand() is the Park-Miller generator.  From any seed the returned
    number and the new state are 7^5 * x mod (2^31 - 1), shifted to start at
    0, for the seed x brought into [1, 2^31 - 2]; the number lies in
    [0, 0x7ffffffd] as the comment says, so the conversion to int loses
    nothing; and two different states in that range never merge. *)
Theorem do_rand_park_miller ctx :
  do_rand ctx = (park_miller (seed ctx) - 1, park_miller (seed ctx) - 1) ∧
  0 ≤ snd (do_rand ctx) ≤ 0x7ffffffd ∧
  ∀ ctx', 0 ≤ ctx ≤ 0x7ffffffd → 0 ≤ ctx' ≤ 0x7ffffffd → do_rand ctx = do_rand ctx' → ctx = ctx'.
Proof.
  rewrite !do_rand_value. cbn [snd].
  pose proof (seed_range ctx) as Hs. pose proof (park_miller_range _ Hs) as Hr. unfold modulus in Hr.
  split; [done|]. split; [lia|]. intros ctx' Hc Hc'. rewrite do_rand_value. intros [= E].
  assert (E' : seed ctx = seed ctx').
  { apply park_miller_inj; [done|apply seed_range|lia]. }
  unfold seed in E'. rewrite !Z.mod_small in E' by lia. lia.
Qed.

Lemma do_rand_park_miller_witness : do_rand 1 = (33613, 33613) ∧ 1 = 1.
Proof.
  destruct (do_rand_park_miller 1) as (H1 & _ & H3). split; [rewrite H1; vm_compute; reflexivity|].
  apply (H3 1); [lia|lia|reflexivity].
Defined.
