(* ===== verification/Mkfs.v ===== *)
(** * The builder of the disk image: mkfs.c

    mkfs runs on the host: it creates the image of FSSIZE blocks that the
    kernel mounts.  The image is a map from block numbers to blocks, a struct
    dinode or dirent in memory is the list of its bytes, and the host's files
    are the parameter [Host].  die(), a failed assert and exit(1) end the
    program as [panic] does. *)

From S2P Require Import Prelude KMonad Memory Riscv State CString Bio Fs.

(** The host: can the image be created, does the write of a block of the image
    succeed, and what open() and the successive read()s of a file deliver. *)
Class Host := {
  host_create : list Z → bool;
  host_write : Z → bool;
  host_open : list Z → option (list (list Z));
}.

(** The image and the global variables. *)
Record mkfs := Mkfs {
  mk_img : gmap Z (list Z);
  mk_sb : superblock;
  mk_freeinode : Z;
  mk_freeblock : Z;
}.

#[export] Instance eta_mkfs : Eta mkfs := λ r, Mkfs (mk_img r) (mk_sb r) (mk_freeinode r) (mk_freeblock r).

(** The initial values of the globals. *)
Definition init_mkfs : mkfs := Mkfs ∅ (Superblock 0 0 0 0 0 0 0 0) 1 0.

Definition NINODES : Z := 200.
Definition nbitmap : Z := FSSIZE / (BSIZE * 8) + 1.
Definition ninodeblocks : Z := NINODES / IPB + 1.
Definition nlog : Z := LOGSIZE.
Definition nmeta : Z := 2 + nlog + ninodeblocks + nbitmap.
Definition nblocks : Z := FSSIZE - nmeta.

(** Conversion to the byte order of RISC-V, on a little-endian host: the
    number whose bytes in memory are those stored. *)
Definition xshort (x : Z) : Z := bytes_to_Z [u8 x; u8 (Z.shiftr x 8)].
Definition xint (x : Z) : Z := bytes_to_Z [u8 x; u8 (Z.shiftr x 8); u8 (Z.shiftr x 16); u8 (Z.shiftr x 24)].

(** Offsets of the fields of struct dinode, in its 64 bytes. *)
Definition di_addr (i : Z) : Z := 12 + 4 * i.
Definition zero_din : list Z := replicate (Z.to_nat dinode_size) 0.

Section mkfs.
Context `{H : Host}.
#[local] Abbreviation K := (M mkfs).

(** The block of the image at byte [sec * BSIZE], a product of uints. *)
Definition sector (sec : Z) : Z := u32 (sec * BSIZE) / BSIZE.

Definition wsect (sec : Z) (buf : list Z) : K unit :=
  if host_write (sector sec) then modify (λ s, s <| mk_img ::= <[ sector sec := buf ]> |>)
  else panic "write".

Definition rsect (sec : Z) : K (list Z) :=
  img ← gets mk_img;
  match img !! sector sec with
  | Some buf => mret buf
  | None => panic "read"
  end.

Definition winode (inum : Z) (ip : list Z) : K unit :=
  sb ← gets mk_sb;
  let bn := IBLOCK inum sb in
  buf ← rsect bn;
  wsect bn (put_bytes buf (dinode_off inum) ip).

Definition rinode (inum : Z) : K (list Z) :=
  sb ← gets mk_sb;
  let bn := IBLOCK inum sb in
  buf ← rsect bn;
  mret (bytes_at buf (dinode_off inum) dinode_size).

(** freeinode++ and freeblock++ *)
Definition next_inode : K Z :=
  n ← gets mk_freeinode; modify (λ s, s <| mk_freeinode := u32 (n + 1) |>) ;; mret n.
Definition next_block : K Z :=
  n ← gets mk_freeblock; modify (λ s, s <| mk_freeblock := u32 (n + 1) |>) ;; mret n.

Definition ialloc (type : Z) : K Z :=
  inum ← next_inode;
  let din := zero_din in
  let din := put16 din 0 (xshort type) in
  let din := put16 din 6 (xshort 1) in
  let din := put32 din 8 (xint 0) in
  winode inum din ;;
  mret inum.

(** The bitmap block in which the first [used] bits are set. *)
Fixpoint set_bits (n : nat) (i : Z) (buf : list Z) : list Z :=
  match n with
  | 0%nat => buf
  | S n => set_bits n (i + 1) (alter (λ b, u8 (Z.lor b (Z.shiftl 1 (i mod 8)))) (Z.to_nat (i / 8)) buf)
  end.

Definition balloc (used : Z) : K unit :=
  if negb (used <? BSIZE * 8) then panic "assert" else
  let buf := set_bits (Z.to_nat used) 0 zero_block in
  sb ← gets mk_sb;
  wsect (sb_bmapstart sb) buf.

(** [if(xint(din.addrs[k]) == 0) din.addrs[k] = xint(freeblock++);] *)
Definition ensure_addr (din : list Z) (k : Z) : K (list Z) :=
  if xint (get32 din (di_addr k)) =? 0 then
    b ← next_block;
    mret (put32 din (di_addr k) (xint b))
  else mret din.

(** The indirect block of [din], with entry [k] allocated. *)
Definition ensure_entry (din : list Z) (k : Z) : K (list Z) :=
  indirect ← rsect (xint (get32 din (di_addr NDIRECT)));
  if get32 indirect (4 * k) =? 0 then
    b ← next_block;
    let indirect := put32 indirect (4 * k) (xint b) in
    wsect (xint (get32 din (di_addr NDIRECT))) indirect ;;
    mret indirect
  else mret indirect.

(** The block of the file in which byte [fbn * BSIZE] lies, allocated when it
    is not there: the inode and the address. *)
Definition iappend_block (din : list Z) (fbn : Z) : K (list Z * Z) :=
  if fbn <? NDIRECT then
    din ← ensure_addr din fbn;
    mret (din, xint (get32 din (di_addr fbn)))
  else
    din ← ensure_addr din NDIRECT;
    indirect ← ensure_entry din (fbn - NDIRECT);
    mret (din, xint (get32 indirect (4 * (fbn - NDIRECT)))).

(** One iteration of the loop of iappend(), on the locals n, off, p and din. *)
Definition iappend_body (v : Z * Z * list Z * list Z) : K (Z * Z * list Z * list Z + Z * list Z) :=
  let '(n, off, p, din) := v in
  if negb (0 <? n) then mret (inr (off, din)) else
  let fbn := off / BSIZE in
  if negb (fbn <? MAXFILE) then panic "assert" else
  r ← iappend_block din fbn;
  let '(din, x) := r in
  let n1 := Z.min n (u32 ((fbn + 1) * BSIZE - off)) in
  buf ← rsect x;
  wsect x (put_bytes buf (off - fbn * BSIZE) (take (Z.to_nat n1) p)) ;;
  mret (inl (n - n1, u32 (off + n1), drop (Z.to_nat n1) p, din)).

Definition iappend (inum : Z) (xp : list Z) (n : Z) : K unit :=
  din ← rinode inum;
  let off := xint (get32 din 8) in
  r ← while_fuel (S (Z.to_nat n)) iappend_body (n, off, xp, din);
  let '(off, din) := r in
  winode inum (put32 din 8 (xint off)).

(** struct dirent, zeroed, with its number and name set. *)
Definition dirent (inum : Z) (name : list Z) : list Z :=
  put_bytes (put16 (replicate (Z.to_nat dirent_size) 0) 0 (xshort inum)) 2 name.

(** memmove(buf, &sb, sizeof(sb)) *)
Definition sb_bytes (sb : superblock) : list Z :=
  [sb_magic sb; sb_size sb; sb_nblocks sb; sb_ninodes sb; sb_nlog sb; sb_logstart sb;
   sb_inodestart sb; sb_bmapstart sb] ≫= Z_to_bytes 4.

(** Lines 93 to 115: the superblock, and the empty image. *)
Definition layout : K unit :=
  modify (λ s, s <| mk_sb := Superblock FSMAGIC (xint FSSIZE) (xint nblocks) (xint NINODES) (xint nlog)
                               (xint 2) (xint (2 + nlog)) (xint (2 + nlog + ninodeblocks)) |>) ;;
  modify (λ s, s <| mk_freeblock := nmeta |>) ;;
  for_each (seqZ 0 FSSIZE) (λ i, wsect i zero_block) ;;
  sb ← gets mk_sb;
  wsect 1 (put_bytes zero_block 0 (sb_bytes sb)).

(** "user/" *)
Definition user_prefix : list Z := [117; 115; 101; 114; 47].

(** The name of a file in the image. *)
Definition strip_user (arg : list Z) : list Z :=
  if bool_decide (take 5 arg = user_prefix) then drop 5 arg else arg.
Definition strip_underscore (shortname : list Z) : list Z :=
  match shortname with
  | c :: l => if c =? 95 then l else shortname
  | [] => shortname
  end.

(** The body of the loop over the arguments. *)
Definition add_file (rootino : Z) (arg : list Z) : K unit :=
  let shortname := strip_user arg in
  if existsb (λ c, c =? 47) shortname then panic "assert" else
  match host_open arg with
  | None => panic "open"
  | Some reads =>
      let shortname := strip_underscore shortname in
      inum ← ialloc T_FILE;
      iappend rootino (dirent inum (take (Z.to_nat DIRSIZ) shortname)) dirent_size ;;
      for_each reads (λ buf, iappend inum buf (Z.of_nat (length buf)))
  end.

(** Lines 163 to 170: the size of the root directory, and the bitmap. *)
Definition finish (rootino : Z) : K unit :=
  din ← rinode rootino;
  let off := xint (get32 din 8) in
  let off := u32 ((off / BSIZE + 1) * BSIZE) in
  winode rootino (put32 din 8 (xint off)) ;;
  used ← gets mk_freeblock;
  balloc used.

Definition main (argv : list (list Z)) : K unit :=
  if Z.of_nat (length argv) <? 2 then panic "Usage: mkfs fs.img files..." else
  if negb (host_create (argv !!! 1%nat)) then panic "open" else
  modify (λ s, s <| mk_img := ∅ |>) ;;
  layout ;;
  rootino ← ialloc T_DIR;
  if negb (rootino =? ROOTINO) then panic "assert" else
  iappend rootino (dirent rootino [46; 0]) dirent_size ;;
  iappend rootino (dirent rootino [46; 46; 0]) dirent_size ;;
  for_each (drop 2 argv) (add_file rootino) ;;
  finish rootino.
End mkfs.
