(* ===== verification/MkfsSpec.v ===== *)
(** * The image mkfs builds is a file system the kernel can mount

    The invariant of mkfs while it runs: every inode it has created describes
    a file with the bytes appended so far, in blocks that no other file has. *)

From stdpp Require Import gmap.
From S2P Require Import Prelude KMonad Memory Riscv State Spinlock CString Kalloc Vm VmUser.
From S2P Require Import VmCopy Sched Uart Printf PrintfSpec Sleeplock Bio Virtio Crash VirtioSpec BioSpec.
From S2P Require Import Log LogSpec Fs FsSpec FsTx FsMount FsBlock FsFile Mkfs.

(** The superblock of the image. *)
Definition image_sb : superblock := Superblock FSMAGIC 2000 1954 200 30 2 32 45.

(** ** Bytes *)

Ltac div_lia := Z.to_euclidean_division_equations; lia.

Lemma xint_bytes x : xint x = bytes_to_Z (Z_to_bytes 4 x).
Proof.
  unfold xint, u8. rewrite !Z.shiftr_div_pow2 by lia. cbn [Z_to_bytes].
  rewrite !Z.div_div by lia. done.
Qed.

Lemma xint_small x : 0 ≤ x < 2 ^ 32 → xint x = x.
Proof. intros H. rewrite xint_bytes. by apply bytes_to_Z_to_bytes. Qed.

Lemma bytes_at_bytes_at d o n k m :
  0 ≤ o → 0 ≤ k → k + m ≤ n → bytes_at (bytes_at d o n) k m = bytes_at d (o + k) m.
Proof.
  intros Ho Hk Hn. apply list_eq. intros j. rewrite !bytes_at_lookup by lia. case_decide; [|done].
  rewrite decide_True by lia. f_equal. lia.
Qed.

Lemma get32_zeros n o : 0 ≤ o → get32 (replicate n 0) o = 0.
Proof.
  intros Ho. unfold get32, bytes_at. rewrite drop_replicate, take_replicate.
  generalize (Z.to_nat 4 `min` (n - Z.to_nat o))%nat. intros j. induction j as [|j IH]; [done|]. cbn. by rewrite IH.
Qed.

(** ** The inode a struct dinode stands for *)

Definition mk_inode (i : Z) (din : list Z) : inode :=
  zero_inode <| i_dev := ROOTDEV |> <| i_inum := i |>
    <| i_type := i16 (get16 din 0) |> <| i_major := i16 (get16 din 2) |> <| i_minor := i16 (get16 din 4) |>
    <| i_nlink := i16 (get16 din 6) |> <| i_size := get32 din 8 |>
    <| i_addrs := (λ k, get32 din (12 + 4 * Z.of_nat k)) <$> seq 0 13 |>.

(** What ilock() reads for inode [i] of a disk. *)
Definition stored_inode (V : disk) (i : Z) : inode :=
  read_dinode (dblock V (IBLOCK i image_sb)) (zero_inode <| i_dev := ROOTDEV |> <| i_inum := i |>).

Definition din_at (V : disk) (i : Z) : list Z := bytes_at (dblock V (32 + i / 16)) (i mod 16 * 64) 64.

Lemma iblock_eq i : 0 ≤ i < 2 ^ 31 → IBLOCK i image_sb = 32 + i / 16.
Proof. intros H. unfold IBLOCK. change IPB with 16. cbn [sb_inodestart image_sb]. rewrite u32_small; div_lia. Qed.

Lemma stored_inode_eq V i : 0 ≤ i < 2 ^ 31 → stored_inode V i = mk_inode i (din_at V i).
Proof.
  intros Hi. unfold stored_inode, mk_inode, din_at, read_dinode, dinode_addrs, dinode_off.
  rewrite iblock_eq by done.
  change (i_inum (zero_inode <| i_dev := ROOTDEV |> <| i_inum := i |>)) with i. change IPB with 16. change dinode_size with 64.
  assert (Ho : 0 ≤ i mod 16 * 64) by div_lia. set (o := i mod 16 * 64) in *. set (d := dblock V (32 + i / 16)).
  unfold get16, get32. rewrite !bytes_at_bytes_at by lia. rewrite Z.add_0_r.
  assert (E : (λ k, bytes_to_Z (bytes_at (bytes_at d o 64) (12 + 4 * Z.of_nat k) 4)) <$> seq 0 13 =
              (λ k, bytes_to_Z (bytes_at d (o + 12 + 4 * Z.of_nat k) 4)) <$> seq 0 13); [|by rewrite E].
  apply list_fmap_ext. intros ? k [-> Hk]%lookup_seq. rewrite bytes_at_bytes_at by lia. by rewrite Z.add_assoc.
Qed.

(** The address of block [bn], from the bytes of the inode. *)
Definition blk (V : disk) (din : list Z) (bn : Z) : Z :=
  if bn <? 12 then get32 din (12 + 4 * bn)
  else if get32 din 60 =? 0 then 0 else get32 (dblock V (get32 din 60)) (4 * (bn - 12)).

Lemma mk_inode_addr i din bn : 0 ≤ bn < 13 → i_addrs (mk_inode i din) !!! Z.to_nat bn = get32 din (12 + 4 * bn).
Proof.
  intros H.
  change (i_addrs (mk_inode i din)) with ((λ k, get32 din (12 + 4 * Z.of_nat k)) <$> seq 0 13). apply list_lookup_total_correct.
  rewrite list_lookup_fmap, lookup_seq_lt by lia. cbn. do 2 f_equal. lia.
Qed.

Lemma mk_inode_ind i din : ind (mk_inode i din) = get32 din 60.
Proof. unfold ind. change NDIRECT with 12. by rewrite mk_inode_addr. Qed.

Lemma file_addr_blk V i din bn : 0 ≤ bn → file_addr V (mk_inode i din) bn = blk V din bn.
Proof.
  intros H. unfold file_addr, blk. rewrite mk_inode_ind. change NDIRECT with 12.
  destruct (Z.ltb_spec bn 12); [|done]. apply mk_inode_addr. lia.
Qed.

(** ** The blocks of a file *)

(** How many blocks a file of [m] bytes has. *)
Definition nblk (m : Z) : Z := (m + 1023) / 1024 + (if 12288 <? m then 1 else 0).

(** Inode [i] as [din] describes it: the blocks below byte [m] are allocated,
    the indirect block when [mi] lies beyond the direct ones, and the blocks
    hold [c] and zeroes after it.  [own] says whose every block is: block
    number [bn] of a file, or its indirect block, -1. *)
Record file_inv (V : disk) (own : Z → Z * Z) (fb i : Z) (din c : list Z) (m mi : Z) : Prop := {
  fv_len : length din = 64%nat;
  fv_addr : ∀ bn, 0 ≤ bn < 268 →
    if bn * 1024 <? m then 46 ≤ blk V din bn < fb ∧ own (blk V din bn) = (i, bn) else blk V din bn = 0;
  fv_ind : if 12288 <? mi then 46 ≤ get32 din 60 < fb ∧ own (get32 din 60) = (i, -1) else get32 din 60 = 0;
  fv_bytes : ∀ bn o, 0 ≤ bn < 268 → bn * 1024 < m → 0 ≤ o < 1024 →
    byte_at (dblock V (blk V din bn)) o = nth (Z.to_nat (bn * 1024 + o)) c 0;
}.

Section file_inv.
Context (V : disk) (own : Z → Z * Z) (fb i : Z) (din c : list Z) (m mi : Z).
Context (F : file_inv V own fb i din c m mi).

Lemma fv_addr_lt bn : 0 ≤ bn < 268 → bn * 1024 < m → 46 ≤ blk V din bn < fb ∧ own (blk V din bn) = (i, bn).
Proof. intros H1 H2. pose proof (fv_addr _ _ _ _ _ _ _ _ F bn H1) as H. by destruct (Z.ltb_spec (bn * 1024) m); [|lia]. Qed.

Lemma fv_addr_ge bn : 0 ≤ bn < 268 → m ≤ bn * 1024 → blk V din bn = 0.
Proof. intros H1 H2. pose proof (fv_addr _ _ _ _ _ _ _ _ F bn H1) as H. by destruct (Z.ltb_spec (bn * 1024) m); [lia|]. Qed.

Lemma fv_ind_lt : 12288 < mi → 46 ≤ get32 din 60 < fb ∧ own (get32 din 60) = (i, -1).
Proof. intros H2. pose proof (fv_ind _ _ _ _ _ _ _ _ F) as H. by destruct (Z.ltb_spec 12288 mi); [|lia]. Qed.

Lemma fv_ind_ge : mi ≤ 12288 → get32 din 60 = 0.
Proof. intros H2. pose proof (fv_ind _ _ _ _ _ _ _ _ F) as H. by destruct (Z.ltb_spec 12288 mi); [lia|]. Qed.

(** Blocks the file does not own do not matter. *)
Lemma file_inv_frame V' own' fb' :
  (∀ b, 46 ≤ b < fb → (own b).1 = i → dblock V' b = dblock V b ∧ own' b = own b) → fb ≤ fb' →
  file_inv V' own' fb' i din c m mi.
Proof.
  intros Hf Hfb.
  assert (Hind : get32 din 60 ≠ 0 → dblock V' (get32 din 60) = dblock V (get32 din 60) ∧ own' (get32 din 60) = own (get32 din 60)).
  { intros Hne. destruct (Z.ltb_spec 12288 mi) as [Hm|Hm]; [|by rewrite fv_ind_ge in Hne].
    destruct (fv_ind_lt Hm) as [Hr Ho]. apply Hf; [done|]. by rewrite Ho. }
  assert (Hblk : ∀ bn, blk V' din bn = blk V din bn).
  { intros bn. unfold blk. destruct (bn <? 12); [done|]. destruct (Z.eqb_spec (get32 din 60) 0); [done|].
    by destruct Hind as [-> _]. }
  assert (Hd : ∀ bn, 0 ≤ bn < 268 → bn * 1024 < m →
    dblock V' (blk V din bn) = dblock V (blk V din bn) ∧ own' (blk V din bn) = own (blk V din bn)).
  { intros bn H1 H2. destruct (fv_addr_lt bn H1 H2) as [Hr Ho]. apply Hf; [done|]. by rewrite Ho. }
  split.
  - apply F.
  - intros bn Hbn. rewrite Hblk. destruct (Z.ltb_spec (bn * 1024) m) as [Hm|Hm]; [|by apply fv_addr_ge].
    destruct (Hd bn Hbn Hm) as [_ ->]. destruct (fv_addr_lt bn Hbn Hm). split; [lia|done].
  - destruct (Z.ltb_spec 12288 mi) as [Hm|Hm]; [|by apply fv_ind_ge]. destruct (fv_ind_lt Hm) as [Hr Ho].
    destruct Hind as [_ ->]; [lia|]. split; [lia|done].
  - intros bn o Hbn Hm Ho. rewrite Hblk. destruct (Hd bn Hbn Hm) as [-> _]. by apply F.
Qed.
End file_inv.

(** ** The state of mkfs *)

Definition zero_from (V : disk) (fb : Z) : Prop := ∀ b, fb ≤ b < 2000 → dblock V b = zero_block.

Record image_ok (s : mkfs) : Prop := {
  io_sb : mk_sb s = image_sb;
  io_lens : lens (mk_img s);
  io_dom : ∀ b, 0 ≤ b < 2000 → is_Some (mk_img s !! b);
  io_fb : 46 ≤ mk_freeblock s ≤ 2000;
  io_zero : zero_from (mk_img s) (mk_freeblock s);
}.

(** What appending to inode [i] may change. *)
Record grow (i : Z) (s : mkfs) (own : Z → Z * Z) (s' : mkfs) (own' : Z → Z * Z) : Prop := {
  gr_inode : mk_freeinode s' = mk_freeinode s;
  gr_fb : mk_freeblock s ≤ mk_freeblock s';
  gr_own : ∀ b, b < mk_freeblock s → own' b = own b;
  gr_img : ∀ b, b < mk_freeblock s → b < 46 ∨ (own b).1 ≠ i → dblock (mk_img s') b = dblock (mk_img s) b;
}.

Lemma grow_refl i s own : grow i s own s own.
Proof. by split. Qed.

Lemma grow_trans i s1 o1 s2 o2 s3 o3 : grow i s1 o1 s2 o2 → grow i s2 o2 s3 o3 → grow i s1 o1 s3 o3.
Proof.
  intros [A1 A2 A3 A4] [B1 B2 B3 B4]. split; [congruence|lia|intros b Hb; rewrite B3, A3 by lia; done|].
  intros b Hb Hi. rewrite B4, A4 by (try lia; rewrite ?A3; done || lia). done.
Qed.

(** Another file is as it was. *)
Lemma grow_other i s own s' own' j din c m mi :
  grow i s own s' own' → i ≠ j → file_inv (mk_img s) own (mk_freeblock s) j din c m mi →
  file_inv (mk_img s') own' (mk_freeblock s') j din c m mi.
Proof.
  intros [_ G1 G2 G3] Hij F. eapply file_inv_frame; [done| |done]. intros b Hb Ho. split; [|apply G2; lia].
  apply G3; [lia|right; congruence].
Qed.

(** ** A file gets a new block *)

Definition give (own : Z → Z * Z) (b : Z) (w : Z * Z) : Z → Z * Z := λ a, if a =? b then w else own a.

Lemma give_eq own b w : give own b w b = w.
Proof. unfold give. by rewrite Z.eqb_refl. Qed.
Lemma give_ne own b w a : a ≠ b → give own b w a = own a.
Proof. intros Hne. unfold give. by apply Z.eqb_neq in Hne as ->. Qed.

Lemma file_inv_give V own fb i din c m mi w :
  file_inv V own fb i din c m mi → file_inv V (give own fb w) (fb + 1) i din c m mi.
Proof.
  intros F. eapply file_inv_frame; [done| |lia]. intros b Hb _. split; [done|]. apply give_ne. lia.
Qed.

(** Only which blocks lie below the limits matters. *)
Lemma file_inv_limits V own fb i din c m mi m' mi' :
  (∀ bn, (bn * 1024 <? m) = (bn * 1024 <? m')) → (12288 <? mi) = (12288 <? mi') →
  file_inv V own fb i din c m mi → file_inv V own fb i din c m' mi'.
Proof.
  intros Hm Hi [F1 F2 F3 F4]. split; [done| |by rewrite <- Hi|].
  - intros bn Hbn. rewrite <- Hm. by apply F2.
  - intros bn o Hbn Hlt. apply F4; [done|]. apply Z.ltb_lt. rewrite Hm. by apply Z.ltb_lt.
Qed.

Lemma nth_beyond (c : list Z) o : Z.of_nat (length c) ≤ o → nth (Z.to_nat o) c 0 = 0.
Proof. intros Hc. apply nth_overflow. lia. Qed.

Lemma zero_block_byte o : 0 ≤ o < 1024 → byte_at zero_block o = 0.
Proof. intros Ho. unfold byte_at, zero_block. apply lookup_total_replicate_2. change (Z.to_nat BSIZE) with 1024%nat. lia. Qed.

(** The new block [bn] of a file is the first free one, [fb]; the other blocks
    are where they were. *)
Lemma file_inv_new V V' own fb i din din' c bn mi mi' :
  0 ≤ bn < 268 → Z.of_nat (length c) ≤ bn * 1024 → 46 ≤ fb → length din' = 64%nat →
  file_inv V own (fb + 1) i din c (bn * 1024) mi → own fb = (i, bn) → blk V' din' bn = fb →
  (∀ bn', 0 ≤ bn' < 268 → bn' ≠ bn → blk V' din' bn' = blk V din bn') →
  (if 12288 <? mi' then 46 ≤ get32 din' 60 < fb + 1 ∧ own (get32 din' 60) = (i, -1) else get32 din' 60 = 0) →
  dblock V' fb = zero_block → (∀ bn', 0 ≤ bn' < bn → dblock V' (blk V din bn') = dblock V (blk V din bn')) →
  file_inv V' own (fb + 1) i din' c (bn * 1024 + 1) mi'.
Proof.
  intros Hbn Hc Hfb Hlen F Hown Hnew Hold Hind Hz Hd. split; [done| |done|].
  - intros bn' Hb'. destruct (decide (bn' = bn)) as [->|Hne].
    + rewrite Hnew. destruct (Z.ltb_spec (bn * 1024) (bn * 1024 + 1)); [|lia]. split; [lia|done].
    + rewrite Hold by done. destruct (Z.ltb_spec (bn' * 1024) (bn * 1024 + 1)).
      * apply (fv_addr_lt _ _ _ _ _ _ _ _ F); lia.
      * apply (fv_addr_ge _ _ _ _ _ _ _ _ F); lia.
  - intros bn' o Hb' Hlt Ho. destruct (decide (bn' = bn)) as [->|Hne].
    + rewrite Hnew, Hz, zero_block_byte by done. rewrite nth_beyond by lia. done.
    + rewrite Hold, Hd by lia. apply F; lia.
Qed.

Lemma get32_put_addr din k k' v :
  length din = 64%nat → 0 ≤ k < 13 → 0 ≤ k' < 13 → 0 ≤ v < 2 ^ 32 →
  get32 (put32 din (12 + 4 * k) v) (12 + 4 * k') = if k' =? k then v else get32 din (12 + 4 * k').
Proof.
  intros Hl Hk Hk' Hv. destruct (Z.eqb_spec k' k) as [->|Hne].
  - rewrite get32_put32 by lia. by apply u32_small.
  - apply get32_put32_other; lia.
Qed.

Lemma add_direct V own fb i din c bn mi :
  0 ≤ bn < 12 → Z.of_nat (length c) ≤ bn * 1024 → 46 ≤ fb < 2000 → dblock V fb = zero_block →
  file_inv V own fb i din c (bn * 1024) mi → 
  let din' := put32 din (12 + 4 * bn) fb in
  file_inv V (give own fb (i, bn)) (fb + 1) i din' c (bn * 1024 + 1) mi ∧ blk V din' bn = fb.
Proof.
  intros Hbn Hc Hfb Hz F din'. pose proof (fv_len _ _ _ _ _ _ _ _ F) as Hl.
  assert (Hi : get32 din' 60 = get32 din 60).
  { unfold din'. change 60 with (12 + 4 * 12). rewrite get32_put_addr by lia. destruct (Z.eqb_spec 12 bn); [lia|done]. }
  assert (Hb : blk V din' bn = fb).
  { unfold blk. destruct (Z.ltb_spec bn 12); [|lia]. unfold din'. rewrite get32_put_addr by lia. by rewrite Z.eqb_refl. }
  split; [|done]. apply (file_inv_give _ _ _ _ _ _ _ _ (i, bn)) in F.
  eapply (file_inv_new V V _ fb i din); try done; try lia.
  - unfold din'. by rewrite put32_length.
  - apply give_eq.
  - intros bn' Hb' Hne. unfold blk. rewrite Hi. destruct (Z.ltb_spec bn' 12); [|done].
    unfold din'. rewrite get32_put_addr by lia. destruct (Z.eqb_spec bn' bn); [lia|done].
  - rewrite Hi. apply F.
Qed.

Lemma add_indirect V own fb i din c :
  46 ≤ fb < 2000 → dblock V fb = zero_block → file_inv V own fb i din c 12288 12288 →
  let din' := put32 din 60 fb in
  file_inv V (give own fb (i, -1)) (fb + 1) i din' c 12288 12289 ∧ get32 din' 60 = fb.
Proof.
  intros Hfb Hz F din'. pose proof (fv_len _ _ _ _ _ _ _ _ F) as Hl.
  assert (Hi : get32 din' 60 = fb).
  { unfold din'. change 60 with (12 + 4 * 12). rewrite get32_put_addr by lia. done. }
  assert (Hb : ∀ bn, 0 ≤ bn → blk V din' bn = blk V din bn).
  { intros bn Hbn. unfold blk. destruct (Z.ltb_spec bn 12).
    - unfold din'. change 60 with (12 + 4 * 12). rewrite get32_put_addr by lia. destruct (Z.eqb_spec bn 12); [lia|done].
    - rewrite Hi, Hz, (fv_ind_ge _ _ _ _ _ _ _ _ F) by lia. destruct (Z.eqb_spec fb 0); [lia|].
      unfold zero_block. by rewrite get32_zeros by lia. }
  split; [|done]. apply (file_inv_give _ _ _ _ _ _ _ _ (i, -1)) in F. split.
  - unfold din'. by rewrite put32_length.
  - intros bn Hbn. rewrite Hb by lia. by apply F.
  - rewrite Hi, give_eq. cbn. split; [lia|done].
  - intros bn o Hbn Hlt Ho. rewrite Hb by lia. by apply F.
Qed.

Lemma add_entry V own fb i din c bn mi :
  12 ≤ bn < 268 → Z.of_nat (length c) ≤ bn * 1024 → 46 ≤ fb < 2000 → dblock V fb = zero_block → 12288 < mi → lens V →
  file_inv V own fb i din c (bn * 1024) mi → 
  let a := get32 din 60 in
  let V' := <[ a := put32 (dblock V a) (4 * (bn - 12)) fb ]> V in
  file_inv V' (give own fb (i, bn)) (fb + 1) i din c (bn * 1024 + 1) mi ∧ blk V' din bn = fb.
Proof.
  intros Hbn Hc Hfb Hz Hmi Hl F a V'. destruct (fv_ind_lt _ _ _ _ _ _ _ _ F Hmi) as [Ha Hown]. fold a in Ha, Hown.
  assert (Hent : ∀ k, 0 ≤ k < 256 → get32 (dblock V' a) (4 * k) = if k =? bn - 12 then fb else get32 (dblock V a) (4 * k)).
  { intros k Hk. unfold V'. rewrite dblock_insert_eq. pose proof (Hl a). destruct (Z.eqb_spec k (bn - 12)) as [->|].
    - rewrite get32_put32 by lia. apply u32_small. lia.
    - apply get32_put32_other; lia. }
  assert (Hb : blk V' din bn = fb).
  { unfold blk. fold a. destruct (Z.ltb_spec bn 12); [lia|]. destruct (Z.eqb_spec a 0); [lia|].
    rewrite Hent by lia. by rewrite Z.eqb_refl. }
  split; [|done]. pose proof F as F0. apply (file_inv_give _ _ _ _ _ _ _ _ (i, bn)) in F.
  eapply (file_inv_new V V' _ fb i din); try done; try lia.
  - apply F.
  - apply give_eq.
  - intros bn' Hb' Hne. unfold blk. fold a. destruct (Z.ltb_spec bn' 12); [done|]. destruct (Z.eqb_spec a 0); [done|].
    rewrite Hent by lia. destruct (Z.eqb_spec (bn' - 12) (bn - 12)); [lia|done].
  - apply F.
  - unfold V'. rewrite dblock_insert_ne by lia. done.
  - intros bn' Hb'. unfold V'. apply dblock_insert_ne. intros E.
    destruct (fv_addr_lt _ _ _ _ _ _ _ _ F0 bn') as [_ Ho]; [lia..|]. rewrite <- E, Hown in Ho. injection Ho. lia.
Qed.

(** ** Bytes are appended in the last block *)

Lemma nth_append (c bs : list Z) k o :
  Z.of_nat (length c) = k → 0 ≤ o → 
  nth (Z.to_nat o) (c ++ bs) 0 = if o <? k then nth (Z.to_nat o) c 0 else nth (Z.to_nat (o - k)) bs 0.
Proof.
  intros Hk Ho. destruct (Z.ltb_spec o k); [by rewrite app_nth1 by lia|]. rewrite app_nth2 by lia. f_equal. lia.
Qed.

Lemma put_byte d o bs k :
  length d = 1024%nat → 0 ≤ o → o + Z.of_nat (length bs) ≤ 1024 → 0 ≤ k < 1024 →
  byte_at (put_bytes d o bs) k =
    if (o <=? k) && (k <? o + Z.of_nat (length bs)) then nth (Z.to_nat (k - o)) bs 0 else byte_at d k.
Proof.
  intros Hd Ho Hb Hk. unfold byte_at.
  destruct (Z.leb_spec o k), (Z.ltb_spec k (o + Z.of_nat (length bs))); cbn;
    rewrite !list_lookup_total_alt, put_bytes_lookup by lia.
  - rewrite decide_True by lia. destruct (lookup_lt_is_Some_2 bs (Z.to_nat k - Z.to_nat o)) as [x Hx]; [lia|].
    rewrite Hx. cbn. symmetry. apply nth_lookup_Some. rewrite <- Hx. f_equal. lia.
  - by rewrite decide_False by lia.
  - by rewrite decide_False by lia.
  - by rewrite decide_False by lia.
Qed.

Lemma append_bytes V own fb i din c mi bs :
  let off := Z.of_nat (length c) in let n := Z.of_nat (length bs) in
  let fbn := off / 1024 in let x := blk V din fbn in
  0 < n → off mod 1024 + n ≤ 1024 → fbn < 268 → lens V →
  file_inv V own fb i din c (off + 1) mi →
  file_inv (<[ x := put_bytes (dblock V x) (off mod 1024) bs ]> V) own fb i din (c ++ bs) (off + n) mi.
Proof.
  intros off n fbn x Hn Hfit Hfbn Hl F. set (V' := <[ x := _ ]> V).
  assert (Hoff : off = 1024 * fbn + off mod 1024) by (unfold fbn; div_lia).
  assert (Hmod : 0 ≤ off mod 1024 < 1024) by div_lia. assert (Hpos : 0 ≤ fbn) by (unfold fbn; div_lia).
  destruct (fv_addr_lt _ _ _ _ _ _ _ _ F fbn) as [Hx Hown]; [lia..|]. fold x in Hx, Hown.
  assert (Hblk : ∀ bn, blk V' din bn = blk V din bn).
  { intros bn. unfold blk. destruct (bn <? 12); [done|]. destruct (Z.eqb_spec (get32 din 60) 0) as [|Hne]; [done|].
    unfold V'. rewrite dblock_insert_ne; [done|]. intros E. destruct (Z.ltb_spec 12288 mi) as [Hm|Hm].
    - destruct (fv_ind_lt _ _ _ _ _ _ _ _ F Hm) as [_ Ho]. rewrite <- E, Hown in Ho. injection Ho. lia.
    - by rewrite (fv_ind_ge _ _ _ _ _ _ _ _ F) in Hne. }
  split; [apply F| |apply F|].
  - intros bn Hbn. rewrite Hblk. replace (bn * 1024 <? off + n) with (bn * 1024 <? off + 1); [by apply F|].
    apply eq_true_iff_eq. rewrite !Z.ltb_lt. lia.
  - intros bn o Hbn Hlt Ho. rewrite Hblk, (nth_append c bs off) by lia. destruct (decide (bn = fbn)) as [->|Hne].
    + fold x. unfold V'. rewrite dblock_insert_eq, put_byte by (apply Hl || lia). fold n.
      destruct (Z.ltb_spec (fbn * 1024 + o) off), (Z.leb_spec (off mod 1024) o); try lia; cbn.
      * apply F; lia.
      * destruct (Z.ltb_spec o (off mod 1024 + n)); [f_equal; lia|]. rewrite nth_beyond by (fold n; lia).
        unfold x. rewrite (fv_bytes _ _ _ _ _ _ _ _ F) by lia. apply nth_beyond. fold off. lia.
    + destruct (Z.ltb_spec (bn * 1024 + o) off); [|lia]. unfold V'. rewrite dblock_insert_ne; [apply F; lia|].
      intros E. destruct (fv_addr_lt _ _ _ _ _ _ _ _ F bn) as [_ Ho']; [lia..|]. rewrite <- E, Hown in Ho'. injection Ho'. lia.
Qed.

(** ** The operations *)

(** The state after a block is written, and after one is taken. *)
Definition wrote (b : Z) (d : list Z) (s : mkfs) : mkfs :=
  Mkfs (<[ b := d ]> (mk_img s)) (mk_sb s) (mk_freeinode s) (mk_freeblock s).
Definition taken (s : mkfs) : mkfs := Mkfs (mk_img s) (mk_sb s) (mk_freeinode s) (mk_freeblock s + 1).

Section run.
Context {H : Host} (Hwrite : ∀ b, host_write b = true).

Lemma sector_small b : 0 ≤ b < 2 ^ 22 → sector b = b.
Proof. intros Hb. unfold sector. change BSIZE with 1024. rewrite u32_small by lia. apply Z.div_mul. lia. Qed.

Lemma rsect_run b ks s : image_ok s → 0 ≤ b < 2000 → rsect b ks s = Ok (dblock (mk_img s) b) ks s.
Proof.
  intros I Hb. unfold rsect. rewrite bind_run. unfold gets. rewrite sector_small by lia.
  destruct (io_dom s I b Hb) as [d Hd]. unfold dblock. by rewrite Hd.
Qed.

Lemma wsect_run b d ks s :
  0 ≤ b < 2000 → wsect b d ks s = Ok tt ks (wrote b d s).
Proof. intros Hb. unfold wsect. rewrite sector_small by lia. by rewrite Hwrite. Qed.

(** Writing a block in use. *)
Lemma image_ok_write s b d :
  image_ok s → 0 ≤ b < mk_freeblock s → length d = 1024%nat → image_ok (wrote b d s).
Proof.
  intros [I1 I2 I3 I4 I5] Hb Hd. split; cbn; [done| | |done|].
  - by apply lens_insert.
  - intros b' Hb'. destruct (decide (b = b')) as [->|]; [rewrite lookup_insert_eq|rewrite lookup_insert_ne by done; apply I3; done].
    by eexists.
  - intros b' Hb'. rewrite dblock_insert_ne by lia. by apply I5.
Qed.

Lemma next_block_run ks s :
  image_ok s → mk_freeblock s < 2000 →
  next_block ks s = Ok (mk_freeblock s) ks (taken s).
Proof. intros I Hb. unfold next_block. rewrite bind_run. cbn. rewrite u32_small; [done|]. pose proof (io_fb s I). lia. Qed.

Lemma image_ok_next s : image_ok s → mk_freeblock s < 2000 → image_ok (taken s).
Proof. intros [I1 I2 I3 I4 I5] Hb. split; cbn; [done|done|done|lia|]. intros b Hb'. apply I5. lia. Qed.

(** The state after a block was taken for inode [i]. *)
Lemma grow_next i s own w : grow i s own (taken s) (give own (mk_freeblock s) w).
Proof. split; cbn; [done|lia| |done]. intros b Hb. apply give_ne. lia. Qed.

(** The state after a block of inode [i] was written. *)
Lemma grow_write i s own b d : (own b).1 = i → 46 ≤ b → grow i s own (wrote b d s) own.
Proof. intros Ho Hb. split; cbn; [done|lia|done|]. intros a Ha Hi. apply dblock_insert_ne. intros <-. destruct Hi; [lia|done]. Qed.

(** The part of an inode before the addresses. *)
Definition same_head (din din' : list Z) : Prop := bytes_at din' 0 12 = bytes_at din 0 12.

Lemma same_head_put din o v : 12 ≤ o → o + 4 ≤ Z.of_nat (length din) → same_head din (put32 din o v).
Proof. intros Ho Hl. apply bytes_at_put_other; rewrite ?Z_to_bytes_length; lia. Qed.

Lemma di_addr_ndirect : di_addr NDIRECT = 60.
Proof. reflexivity. Qed.

Lemma ensure_addr_direct ks s own i din c :
  let off := Z.of_nat (length c) in let bn := off / 1024 in
  image_ok s → bn < 12 → mk_freeblock s + nblk (off + 1) - nblk off ≤ 2000 →
  file_inv (mk_img s) own (mk_freeblock s) i din c off off →
  ∃ s' own' din', ensure_addr din bn ks s = Ok din' ks s' ∧ image_ok s' ∧ grow i s own s' own' ∧ same_head din din' ∧
    mk_freeblock s' = mk_freeblock s + nblk (off + 1) - nblk off ∧
    file_inv (mk_img s') own' (mk_freeblock s') i din' c (off + 1) (off + 1).
Proof.
  intros off bn I Hbn Hroom F. unfold ensure_addr, di_addr. pose proof (io_fb s I) as Hfb.
  assert (Hpos : 0 ≤ bn) by (unfold bn, off; div_lia).
  assert (Hb : blk (mk_img s) din bn = get32 din (12 + 4 * bn)) by (unfold blk; destruct (Z.ltb_spec bn 12); [done|lia]).
  destruct (decide (off mod 1024 = 0)) as [Hm|Hm].
  - assert (Hoff : off = bn * 1024) by (unfold bn; div_lia).
    rewrite <- Hb, (fv_addr_ge _ _ _ _ _ _ _ _ F) by lia. cbn [xint]. change (xint 0 =? 0) with true. cbn iota.
    assert (Hn : nblk (off + 1) = nblk off + 1).
    { unfold nblk. destruct (Z.ltb_spec 12288 (off + 1)), (Z.ltb_spec 12288 off); div_lia. }
    rewrite bind_run, next_block_run, ret_run, xint_small by (done || lia). rewrite Hoff in F.
    destruct (add_direct (mk_img s) own (mk_freeblock s) i din c bn (bn * 1024)) as [F' _]; [lia|fold off; lia|lia|apply I; lia|done|]. rewrite <- Hoff in F'.
    do 3 eexists. split; [done|]. split; [apply image_ok_next; [done|lia]|]. split; [apply grow_next|].
    split; [apply same_head_put; rewrite ?(fv_len _ _ _ _ _ _ _ _ F); lia|]. split; [cbn; lia|].
    eapply file_inv_limits; [done| |exact F']. destruct (Z.ltb_spec 12288 (off + 1)), (Z.ltb_spec 12288 (bn * 1024)); lia.
  - destruct (fv_addr_lt _ _ _ _ _ _ _ _ F bn) as [Hr _]; [lia|unfold bn; div_lia|]. rewrite <- Hb.
    rewrite xint_small by lia. destruct (Z.eqb_spec (blk (mk_img s) din bn) 0); [lia|]. rewrite ret_run.
    exists s, own, din. split; [done|]. split; [done|]. split; [apply grow_refl|]. split; [done|]. split.
    + unfold nblk. destruct (Z.ltb_spec 12288 (off + 1)), (Z.ltb_spec 12288 off); div_lia.
    + eapply file_inv_limits; [| |exact F].
      * intros k. apply eq_true_iff_eq. rewrite !Z.ltb_lt. div_lia.
      * apply eq_true_iff_eq. rewrite !Z.ltb_lt. div_lia.
Qed.

Lemma ensure_addr_ind ks s own i din c :
  let off := Z.of_nat (length c) in
  image_ok s → 12288 ≤ off → mk_freeblock s + (if off =? 12288 then 1 else 0) ≤ 2000 →
  file_inv (mk_img s) own (mk_freeblock s) i din c off off →
  ∃ s' own' din', ensure_addr din NDIRECT ks s = Ok din' ks s' ∧ image_ok s' ∧ grow i s own s' own' ∧ same_head din din' ∧
    mk_freeblock s' = mk_freeblock s + (if off =? 12288 then 1 else 0) ∧
    file_inv (mk_img s') own' (mk_freeblock s') i din' c off (off + 1).
Proof.
  intros off I Hoff Hroom F. unfold ensure_addr. rewrite di_addr_ndirect. pose proof (io_fb s I) as Hfb.
  destruct (Z.eqb_spec off 12288) as [E|E].
  - rewrite (fv_ind_ge _ _ _ _ _ _ _ _ F) by lia. change (xint 0 =? 0) with true. cbn iota.
    rewrite bind_run, next_block_run, ret_run, xint_small by (done || lia). rewrite E in F |- *.
    destruct (add_indirect (mk_img s) own (mk_freeblock s) i din c) as [F' _]; [lia|apply I; lia|done|].
    do 3 eexists. split; [done|]. split; [apply image_ok_next; [done|lia]|]. split; [apply grow_next|].
    split; [apply same_head_put; rewrite ?(fv_len _ _ _ _ _ _ _ _ F); lia|]. split; [done|exact F'].
  - destruct (fv_ind_lt _ _ _ _ _ _ _ _ F) as [Hr _]; [lia|]. rewrite xint_small by lia.
    destruct (Z.eqb_spec (get32 din 60) 0); [lia|]. rewrite ret_run. exists s, own, din.
    split; [done|]. split; [done|]. split; [apply grow_refl|]. split; [done|]. split; [lia|].
    eapply file_inv_limits; [done| |exact F]. apply eq_true_iff_eq. rewrite !Z.ltb_lt. lia.
Qed.

Lemma ensure_entry_run ks s own i din c :
  let off := Z.of_nat (length c) in let bn := off / 1024 in
  image_ok s → 12 ≤ bn < 268 → mk_freeblock s + (if off mod 1024 =? 0 then 1 else 0) ≤ 2000 →
  file_inv (mk_img s) own (mk_freeblock s) i din c off (off + 1) →
  ∃ s' own', ensure_entry din (bn - 12) ks s = Ok (dblock (mk_img s') (get32 din 60)) ks s' ∧
    image_ok s' ∧ grow i s own s' own' ∧
    mk_freeblock s' = mk_freeblock s + (if off mod 1024 =? 0 then 1 else 0) ∧
    file_inv (mk_img s') own' (mk_freeblock s') i din c (off + 1) (off + 1).
Proof.
  intros off bn I Hbn Hroom F. unfold ensure_entry. rewrite di_addr_ndirect. pose proof (io_fb s I) as Hfb.
  destruct (fv_ind_lt _ _ _ _ _ _ _ _ F) as [Hr Ho]; [unfold bn in Hbn; div_lia|].
  rewrite xint_small, bind_run, rsect_run by (done || lia).
  assert (Hb : blk (mk_img s) din bn = get32 (dblock (mk_img s) (get32 din 60)) (4 * (bn - 12))).
  { unfold blk. destruct (Z.ltb_spec bn 12); [lia|]. destruct (Z.eqb_spec (get32 din 60) 0); [lia|done]. }
  rewrite <- Hb. destruct (Z.eqb_spec (off mod 1024) 0) as [Hm|Hm].
  - assert (Hoff : off = bn * 1024) by (unfold bn; div_lia).
    rewrite (fv_addr_ge _ _ _ _ _ _ _ _ F) by lia. cbn [Z.eqb]. rewrite bind_run, next_block_run by (done || lia).
    rewrite bind_run, (xint_small (mk_freeblock s)), wsect_run, ret_run by lia.
    rewrite Hoff in F at 1.
    destruct (add_entry (mk_img s) own (mk_freeblock s) i din c bn (off + 1)) as [F' _];
      [lia|fold off; lia|lia|apply I; lia|lia|apply I|done|].
    rewrite <- Hoff in F'. do 2 eexists. split; [f_equal; cbn [wrote taken mk_img]; by rewrite dblock_insert_eq|]. split.
    + apply image_ok_write; [apply image_ok_next; [done|lia]|cbn; lia|]. rewrite put32_length. apply I.
    + split; [|split; [done|exact F']]. eapply grow_trans; [apply (grow_next i s own (i, bn))|].
      apply grow_write; [|lia]. rewrite give_ne by lia. by rewrite Ho.
  - destruct (fv_addr_lt _ _ _ _ _ _ _ _ F bn) as [Hr' _]; [lia|unfold bn; div_lia|].
    destruct (Z.eqb_spec (blk (mk_img s) din bn) 0); [lia|]. rewrite ret_run. exists s, own.
    split; [done|]. split; [done|]. split; [apply grow_refl|]. split; [lia|].
    eapply file_inv_limits; [|done|exact F]. intros k. apply eq_true_iff_eq. rewrite !Z.ltb_lt. div_lia.
Qed.

Lemma iappend_block_run ks s own i din c :
  let off := Z.of_nat (length c) in let bn := off / 1024 in
  image_ok s → bn < 268 → mk_freeblock s + nblk (off + 1) - nblk off ≤ 2000 →
  file_inv (mk_img s) own (mk_freeblock s) i din c off off →
  ∃ s' own' din', iappend_block din bn ks s = Ok (din', blk (mk_img s') din' bn) ks s' ∧
    image_ok s' ∧ grow i s own s' own' ∧ same_head din din' ∧
    mk_freeblock s' = mk_freeblock s + nblk (off + 1) - nblk off ∧
    file_inv (mk_img s') own' (mk_freeblock s') i din' c (off + 1) (off + 1).
Proof.
  intros off bn I Hbn Hroom F. unfold iappend_block. change NDIRECT with 12.
  assert (Hpos : 0 ≤ bn) by (unfold bn, off; div_lia). destruct (Z.ltb_spec bn 12) as [Hd|Hd].
  - destruct (ensure_addr_direct ks s own i din c) as (s' & own' & din' & E & R1 & R2 & R3 & R4 & R5); [done..|].
    fold off in E. fold bn in E. rewrite bind_run, E, ret_run. exists s', own', din'.
    destruct (fv_addr_lt _ _ _ _ _ _ _ _ R5 bn) as [Hr _]; [lia|unfold bn; fold off; div_lia|].
    pose proof (io_fb _ R1). unfold blk in Hr |- *. destruct (Z.ltb_spec bn 12); [|lia].
    unfold di_addr. rewrite xint_small by lia. done.
  - assert (Hn : nblk (off + 1) - nblk off = (if off =? 12288 then 1 else 0) + (if off mod 1024 =? 0 then 1 else 0)).
    { unfold nblk. destruct (Z.eqb_spec off 12288), (Z.eqb_spec (off mod 1024) 0),
        (Z.ltb_spec 12288 (off + 1)), (Z.ltb_spec 12288 off); div_lia. }
    assert (Hcases : 0 ≤ (if off =? 12288 then 1 else 0) ∧ 0 ≤ (if off mod 1024 =? 0 then 1 else 0)).
    { split; [by destruct (off =? _)|by destruct (off mod 1024 =? 0)]. }
    destruct (ensure_addr_ind ks s own i din c) as (s1 & own1 & din' & E & I1 & G1 & D1 & B1 & F1); fold off;
      [done|unfold bn in Hd; div_lia|lia|done|]. change NDIRECT with 12 in E. rewrite bind_run, E.
    fold off in B1, F1. destruct (ensure_entry_run ks s1 own1 i din' c) as (s' & own' & E' & I2 & G2 & B2 & F2);
      fold off; fold bn; [done|lia|lia|done|]. fold off in E'. fold bn in E'. rewrite bind_run, E', ret_run.
    fold off in B2, F2. exists s', own', din'. split.
    + f_equal. f_equal. destruct (fv_addr_lt _ _ _ _ _ _ _ _ F2 bn) as [Hr _]; [lia|unfold bn; div_lia|].
      destruct (fv_ind_lt _ _ _ _ _ _ _ _ F2) as [Hr2 _]; [unfold bn in Hd; div_lia|].
      pose proof (io_fb _ I2). unfold blk in Hr |- *. destruct (Z.ltb_spec bn 12); [lia|].
      destruct (Z.eqb_spec (get32 din' 60) 0); [lia|]. by apply xint_small; lia.
    + split; [done|]. split; [by eapply grow_trans|]. split; [done|]. split; [lia|done].
Qed.

Lemma nblk_mono a b : a ≤ b → nblk a ≤ nblk b.
Proof. intros Hab. unfold nblk. destruct (Z.ltb_spec 12288 a), (Z.ltb_spec 12288 b); div_lia. Qed.

(** The growth of a file, from [c] to [c'] in inode [i]. *)
Record appends (i : Z) (s : mkfs) (own : Z → Z * Z) (din c : list Z) (s' : mkfs) (own' : Z → Z * Z) (din' c' : list Z) : Prop := {
  ap_ok : image_ok s';
  ap_grow : grow i s own s' own';
  ap_head : same_head din din';
  ap_fb : mk_freeblock s' = mk_freeblock s + nblk (Z.of_nat (length c')) - nblk (Z.of_nat (length c));
  ap_file : file_inv (mk_img s') own' (mk_freeblock s') i din' c' (Z.of_nat (length c')) (Z.of_nat (length c'));
}.

Lemma iappend_body_run ks s own i din c p :
  image_ok s → p ≠ [] → Z.of_nat (length (c ++ p)) ≤ 274432 →
  mk_freeblock s + nblk (Z.of_nat (length (c ++ p))) - nblk (Z.of_nat (length c)) ≤ 2000 →
  file_inv (mk_img s) own (mk_freeblock s) i din c (Z.of_nat (length c)) (Z.of_nat (length c)) →
  ∃ s' own' din' q r, p = q ++ r ∧ q ≠ [] ∧
    iappend_body (Z.of_nat (length p), Z.of_nat (length c), p, din) ks s =
      Ok (inl (Z.of_nat (length r), Z.of_nat (length (c ++ q)), r, din')) ks s' ∧
    appends i s own din c s' own' din' (c ++ q).
Proof.
  intros I Hp Hmax Hroom F. unfold iappend_body. change BSIZE with 1024. change MAXFILE with 268.
  rewrite length_app, Nat2Z.inj_add in Hmax, Hroom. set (off := Z.of_nat (length c)) in *. set (fbn := off / 1024).
  assert (Hlen : (0 < length p)%nat) by (destruct p; [done|cbn; lia]).
  assert (Hoff : off = 1024 * fbn + off mod 1024 ∧ 0 ≤ off mod 1024 < 1024 ∧ 0 ≤ fbn) by (unfold fbn; div_lia).
  destruct (Z.ltb_spec 0 (Z.of_nat (length p))); [|lia]. destruct (Z.ltb_spec fbn 268) as [Hf|]; [|lia]. cbn [negb].
  pose proof (nblk_mono (off + 1) (off + Z.of_nat (length p)) ltac:(lia)) as Hmono.
  destruct (iappend_block_run ks s own i din c) as (s1 & own1 & din1 & E & I1 & G1 & D1 & B1 & F1); try done; fold off; [lia|].
  fold off in E, B1, F1. fold fbn in E. rewrite bind_run, E. cbn iota beta. set (x := blk (mk_img s1) din1 fbn).
  destruct (fv_addr_lt _ _ _ _ _ _ _ _ F1 fbn) as [Hx Hown]; [lia..|]. fold x in Hx, Hown. pose proof (io_fb _ I1).
  rewrite (u32_small ((fbn + 1) * 1024 - off)) by lia. set (n1 := Z.min _ _).
  assert (Hn1 : 0 < n1 ≤ Z.of_nat (length p) ∧ off mod 1024 + n1 ≤ 1024) by (unfold n1; lia).
  rewrite bind_run, rsect_run, bind_run, wsect_run by (done || lia). rewrite ret_run.
  set (q := take (Z.to_nat n1) p). assert (Hq : Z.of_nat (length q) = n1) by (unfold q; rewrite length_take; lia).
  assert (Hcq : Z.of_nat (length (c ++ q)) = off + n1) by (rewrite length_app; unfold off; lia).
  eexists _, own1, din1, q, (drop (Z.to_nat n1) p). split; [by unfold q; rewrite take_drop|]. split; [by intros Hq0; rewrite Hq0 in Hq; cbn in Hq; lia|].
  split; [rewrite Hcq, length_drop, u32_small by lia; do 5 f_equal; lia|].
  replace (off - fbn * 1024) with (off mod 1024) by lia. split.
  - apply image_ok_write; [done|lia|]. rewrite put_bytes_length. apply I1.
  - eapply grow_trans; [exact G1|]. apply grow_write; [by rewrite Hown|lia].
  - done.
  - rewrite Hcq. fold off. cbn [wrote mk_freeblock]. rewrite B1. enough (nblk (off + n1) = nblk (off + 1)) by lia.
    unfold nblk. destruct (Z.ltb_spec 12288 (off + n1)), (Z.ltb_spec 12288 (off + 1)); div_lia.
  - rewrite Hcq. eapply file_inv_limits; [done| |].
    2: { rewrite <- Hq. apply (append_bytes (mk_img s1)); fold off fbn; [lia|lia|done|apply I1|exact F1]. }
    apply eq_true_iff_eq. rewrite !Z.ltb_lt. div_lia.
Qed.

Lemma appends_trans i s own din c s1 own1 din1 c1 s2 own2 din2 c2 :
  appends i s own din c s1 own1 din1 c1 → appends i s1 own1 din1 c1 s2 own2 din2 c2 → appends i s own din c s2 own2 din2 c2.
Proof.
  intros [A1 A2 A3 A4 A5] [B1 B2 B3 B4 B5]. split; [done|by eapply grow_trans|by unfold same_head in *; congruence|lia|done].
Qed.

(** The loop of iappend(): each iteration takes at least one byte. *)
Lemma iappend_loop fuel ks s own i din c p :
  (length p < fuel)%nat → image_ok s → Z.of_nat (length (c ++ p)) ≤ 274432 →
  mk_freeblock s + nblk (Z.of_nat (length (c ++ p))) - nblk (Z.of_nat (length c)) ≤ 2000 →
  file_inv (mk_img s) own (mk_freeblock s) i din c (Z.of_nat (length c)) (Z.of_nat (length c)) →
  ∃ s' own' din',
    while_fuel fuel iappend_body (Z.of_nat (length p), Z.of_nat (length c), p, din) ks s =
      Ok (Z.of_nat (length (c ++ p)), din') ks s' ∧ appends i s own din c s' own' din' (c ++ p).
Proof.
  revert s own din c p. induction fuel as [|fuel IH]; intros s own din c p Hfuel I Hmax Hroom F; [lia|].
  cbn [while_fuel]. rewrite bind_run. destruct p as [|b p'].
  - cbn. exists s, own, din. rewrite app_nil_r. split; [done|]. split; [done|apply grow_refl|done|lia|done].
  - set (p := b :: p') in *.
    destruct (iappend_body_run ks s own i din c p) as (s1 & own1 & din1 & q & r & Hqr & Hq & E & A); [done..|].
    rewrite E. rewrite Hqr in Hmax, Hroom, Hfuel. rewrite app_assoc in Hmax, Hroom. rewrite length_app in Hfuel.
    assert (0 < length q)%nat by (destruct q; [done|cbn; lia]).
    destruct (IH s1 own1 din1 (c ++ q) r) as (s2 & own2 & din2 & E2 & A2); [lia|apply A|done| |apply A|].
    { pose proof (ap_fb _ _ _ _ _ _ _ _ _ A). lia. }
    exists s2, own2, din2. rewrite Hqr, app_assoc. split; [done|]. by eapply appends_trans.
Qed.

(** ** The inode table *)

Definition put_din (i : Z) (din : list Z) (s : mkfs) : mkfs :=
  wrote (32 + i / 16) (put_bytes (dblock (mk_img s) (32 + i / 16)) (i mod 16 * 64) din) s.

Lemma table_block i : 0 ≤ i < 208 → 32 ≤ 32 + i / 16 < 45 ∧ 0 ≤ i mod 16 * 64 ∧ i mod 16 * 64 + 64 ≤ 1024.
Proof. intros Hi. div_lia. Qed.

Lemma rinode_run i ks s : image_ok s → 0 ≤ i < 208 → rinode i ks s = Ok (din_at (mk_img s) i) ks s.
Proof.
  intros I Hi. destruct (table_block i Hi) as [Hb _]. unfold rinode. rewrite bind_run. unfold gets.
  rewrite (io_sb s I), iblock_eq by lia. by rewrite bind_run, rsect_run by (done || lia).
Qed.

Lemma winode_run i din ks s : image_ok s → 0 ≤ i < 208 → winode i din ks s = Ok tt ks (put_din i din s).
Proof.
  intros I Hi. destruct (table_block i Hi) as [Hb _]. unfold winode. rewrite bind_run. unfold gets.
  rewrite (io_sb s I), iblock_eq by lia. rewrite bind_run, rsect_run by (done || lia). by rewrite wsect_run by lia.
Qed.

Lemma put_din_ok i din s : image_ok s → 0 ≤ i < 208 → image_ok (put_din i din s).
Proof.
  intros I Hi. destruct (table_block i Hi) as [Hb _]. pose proof (io_fb s I).
  apply image_ok_write; [done|lia|]. rewrite put_bytes_length. apply I.
Qed.

Lemma put_din_block i din s b : 0 ≤ i < 208 → b < 32 ∨ 45 ≤ b → dblock (mk_img (put_din i din s)) b = dblock (mk_img s) b.
Proof. intros Hi Hb. destruct (table_block i Hi). apply dblock_insert_ne. lia. Qed.

Lemma put_din_eq i din s : image_ok s → 0 ≤ i < 208 → length din = 64%nat → din_at (mk_img (put_din i din s)) i = din.
Proof.
  intros I Hi Hd. destruct (table_block i Hi) as (Hb & Ho & Ho'). unfold din_at, put_din, wrote. cbn [mk_img].
  rewrite dblock_insert_eq. pose proof (io_lens s I (32 + i / 16)).
  pose proof (bytes_at_put (dblock (mk_img s) (32 + i / 16)) (i mod 16 * 64) din) as E.
  rewrite Hd in E. apply E; lia.
Qed.

Lemma put_din_ne i din s j :
  image_ok s → 0 ≤ i < 208 → 0 ≤ j < 208 → i ≠ j → length din = 64%nat →
  din_at (mk_img (put_din i din s)) j = din_at (mk_img s) j.
Proof.
  intros I Hi Hj Hij Hd. destruct (table_block i Hi) as (Hb & Ho & Ho'). unfold din_at, put_din, wrote. cbn [mk_img].
  destruct (decide (32 + i / 16 = 32 + j / 16)) as [E|E]; [|by rewrite dblock_insert_ne].
  rewrite E, dblock_insert_eq. pose proof (io_lens s I (32 + j / 16)).
  apply bytes_at_put_other; [lia|div_lia|lia|rewrite Hd; div_lia].
Qed.

(** ** The files of an image under construction *)

(** A file: its type and its contents. *)
Abbreviation file_t := (Z * list Z)%type.
Definition fsize (f : file_t) : Z := Z.of_nat (length f.2).

Record inode_inv (V : disk) (own : Z → Z * Z) (fb i : Z) (din : list Z) (f : file_t) : Prop := {
  iv_file : file_inv V own fb i din f.2 (fsize f) (fsize f);
  iv_type : get16 din 0 = f.1;
  iv_major : get16 din 2 = 0;
  iv_minor : get16 din 4 = 0;
  iv_nlink : get16 din 6 = 1;
  iv_size : get32 din 8 = fsize f;
  iv_max : fsize f ≤ 274432;
}.

(** Blocks of all the files. *)
Definition total (fs : list file_t) : Z := foldr (λ f n, nblk (fsize f) + n) 0 fs.

(** Inode [1 + k] is the [k]th file. *)
Record fs_inv (s : mkfs) (own : Z → Z * Z) (fs : list file_t) : Prop := {
  fi_image : image_ok s;
  fi_next : mk_freeinode s = 1 + Z.of_nat (length fs);
  fi_fb : mk_freeblock s = 46 + total fs;
  fi_file : ∀ k f, fs !! k = Some f →
    inode_inv (mk_img s) own (mk_freeblock s) (1 + Z.of_nat k) (din_at (mk_img s) (1 + Z.of_nat k)) f;
  fi_super : dblock (mk_img s) 1 = put_bytes zero_block 0 (sb_bytes image_sb);
  fi_log : ∀ b, 2 ≤ b < 32 → dblock (mk_img s) b = zero_block;
}.

Lemma total_cons f fs : total (f :: fs) = nblk (fsize f) + total fs.
Proof. reflexivity. Qed.

Lemma total_app fs fs' : total (fs ++ fs') = total fs + total fs'.
Proof. induction fs as [|f fs IH]; [done|]. rewrite <- app_comm_cons, !total_cons, IH. lia. Qed.

Lemma nblk_nonneg n : 0 ≤ n → 0 ≤ nblk n.
Proof. intros Hn. unfold nblk. destruct (12288 <? n); div_lia. Qed.

Lemma total_nonneg fs : 0 ≤ total fs.
Proof.
  induction fs as [|f fs IH]; [done|]. rewrite total_cons. pose proof (nblk_nonneg (fsize f) ltac:(unfold fsize; lia)). lia.
Qed.

Lemma total_insert fs k f f' :
  fs !! k = Some f → total (<[ k := f' ]> fs) = total fs + nblk (fsize f') - nblk (fsize f).
Proof.
  revert k. induction fs as [|g fs IH]; intros [|k] Hk; try done.
  - injection Hk as ->. change (<[ 0%nat := f' ]> (f :: fs)) with (f' :: fs). rewrite !total_cons. lia.
  - change (<[ S k := f' ]> (g :: fs)) with (g :: <[ k := f' ]> fs). rewrite !total_cons, (IH k Hk). lia.
Qed.

(** What is before the addresses determines the fields there. *)
Lemma same_head_fields din din' o :
  same_head din din' → 0 ≤ o → (o ≤ 10 → get16 din' o = get16 din o) ∧ (o ≤ 8 → get32 din' o = get32 din o).
Proof.
  intros Hh Ho. unfold get16, get32. split; intros Hle; f_equal.
  - rewrite <- (Z.add_0_l o), <- !(bytes_at_bytes_at _ 0 12) by lia. by rewrite Hh.
  - rewrite <- (Z.add_0_l o), <- !(bytes_at_bytes_at _ 0 12) by lia. by rewrite Hh.
Qed.

(** Writing the inode of a file that grew. *)
Lemma put_size din v : length din = 64%nat →
  let din' := put32 din 8 v in
  length din' = 64%nat ∧ get32 din' 8 = u32 v ∧ (∀ o, 0 ≤ o ≤ 6 → get16 din' o = get16 din o) ∧
  (∀ o, 12 ≤ o → get32 din' o = get32 din o).
Proof.
  intros Hd din'. unfold din'. rewrite put32_length. split; [done|]. split; [apply get32_put32; lia|]. split.
  - intros o Ho. apply get16_put32_ne; unfold apart; lia.
  - intros o Ho. apply get32_put32_other; lia.
Qed.

Lemma file_inv_addrs V own fb i din din' c m mi :
  length din' = 64%nat → (∀ o, 12 ≤ o → get32 din' o = get32 din o) →
  file_inv V own fb i din c m mi → file_inv V own fb i din' c m mi.
Proof.
  intros Hl Ha [F1 F2 F3 F4].
  assert (Hb : ∀ bn, 0 ≤ bn → blk V din' bn = blk V din bn) by (intros bn Hbn; unfold blk; by rewrite !Ha by lia).
  split; [done| |by rewrite Ha by lia|].
  - intros bn Hbn. rewrite Hb by lia. by apply F2.
  - intros bn o Hbn. rewrite Hb by lia. by apply F4.
Qed.

(** The inode table does not hold blocks of files. *)
Lemma file_inv_put_din own fb i din c m mi j e s :
  0 ≤ j < 208 → file_inv (mk_img s) own fb i din c m mi → file_inv (mk_img (put_din j e s)) own fb i din c m mi.
Proof.
  intros Hj F. eapply file_inv_frame; [done| |lia]. intros b Hb _. split; [|done]. apply put_din_block; [done|lia].
Qed.

(** A file of an image under construction is written back to its inode. *)
Lemma fs_inv_put s own (fs : list file_t) k (f : file_t) s1 own1 din1 c1 :
  fs_inv s own fs → (length fs < 208)%nat → fs !! k = Some f →
  appends (1 + Z.of_nat k) s own (din_at (mk_img s) (1 + Z.of_nat k)) f.2 s1 own1 din1 c1 →
  Z.of_nat (length c1) ≤ 274432 →
  fs_inv (put_din (1 + Z.of_nat k) (put32 din1 8 (Z.of_nat (length c1))) s1) own1 (<[ k := (f.1, c1) ]> fs).
Proof.
  intros FI Hn Hk [A1 A2 A3 A4 A5] Hmax. destruct FI as [I1 I2 I3 I4 I5 I6].
  assert (Hlt : (k < length fs)%nat) by (by eapply lookup_lt_Some). set (i := 1 + Z.of_nat k) in *. assert (Hi : 0 ≤ i < 208) by lia.
  destruct (put_size din1 (Z.of_nat (length c1))) as (D1 & D2 & D3 & D4); [apply A5|]. set (din2 := put32 _ _ _) in *.
  pose proof (gr_img _ _ _ _ _ A2) as Himg. pose proof (io_fb s I1).
  split.
  - by apply put_din_ok.
  - rewrite length_insert. cbn. rewrite (gr_inode _ _ _ _ _ A2). done.
  - rewrite (total_insert _ _ _ _ Hk). unfold fsize. cbn. lia.
  - intros k' f' Hk'. destruct (decide (k = k')) as [<-|Hne].
    + rewrite list_lookup_insert_eq in Hk' by done. injection Hk' as <-. fold i. rewrite put_din_eq by done.
      destruct (I4 k f Hk) as [V1 V2 V3 V4 V5 V6 V7]. fold i in V1, V2, V3, V4, V5, V6.
      pose proof (λ o Ho, proj1 (same_head_fields _ _ o A3 Ho)) as Hh.
      split; unfold fsize; cbn [fst snd]; rewrite ?D3, ?Hh by lia; try done; [|rewrite D2; apply u32_small; lia].
      apply file_inv_put_din; [done|]. by eapply file_inv_addrs.
    + rewrite list_lookup_insert_ne in Hk' by done. assert (Hlt' : (k' < length fs)%nat) by (by eapply lookup_lt_Some).
      rewrite put_din_ne by (done || lia).
      assert (E : din_at (mk_img s1) (1 + Z.of_nat k') = din_at (mk_img s) (1 + Z.of_nat k')).
      { destruct (table_block (1 + Z.of_nat k') ltac:(lia)). unfold din_at. rewrite Himg; [done|lia|left; lia]. }
      rewrite E. destruct (I4 k' f' Hk') as [V1 V2 V3 V4 V5 V6 V7]. split; try done.
      apply file_inv_put_din; [done|]. change (mk_freeblock (put_din _ _ s1)) with (mk_freeblock s1).
      eapply grow_other; [exact A2|lia|done].
  - rewrite put_din_block, Himg by (done || lia || (left; lia)). done.
  - intros b Hb. rewrite put_din_block, Himg by (done || lia || (left; lia)). by apply I6.
Qed.

(** iappend() adds its bytes to the file, taking the blocks this needs. *)
Lemma iappend_run ks s own (fs : list file_t) k (f : file_t) p :
  fs_inv s own fs → (length fs < 208)%nat → fs !! k = Some f →
  let fs' := <[ k := (f.1, f.2 ++ p) ]> fs in
  fsize (f.1, f.2 ++ p) ≤ 274432 → 46 + total fs' ≤ 2000 →
  ∃ s' own', iappend (1 + Z.of_nat k) p (Z.of_nat (length p)) ks s = Ok tt ks s' ∧ fs_inv s' own' fs'.
Proof.
  intros FI Hn Hk fs' Hmax Hroom. assert (Hlt : (k < length fs)%nat) by (by eapply lookup_lt_Some). pose proof (fi_image _ _ _ FI) as I.
  unfold fs' in Hroom. rewrite (total_insert _ _ _ _ Hk) in Hroom. unfold fsize in Hmax, Hroom. cbn [snd] in Hmax, Hroom.
  pose proof (fi_fb _ _ _ FI). destruct (fi_file _ _ _ FI k f Hk) as [V1 V2 V3 V4 V5 V6 V7].
  unfold iappend. rewrite bind_run, rinode_run by (done || lia). rewrite V6. unfold fsize in V7 |- *.
  rewrite xint_small, Nat2Z.id by lia.
  destruct (iappend_loop (S (length p)) ks s own (1 + Z.of_nat k) (din_at (mk_img s) (1 + Z.of_nat k)) f.2 p)
    as (s1 & own1 & din1 & E & A); [lia|done|done|lia|done|].
  rewrite bind_run, E. cbn iota beta. rewrite xint_small by lia. pose proof (ap_ok _ _ _ _ _ _ _ _ _ A).
  rewrite winode_run by (done || lia). do 2 eexists. split; [done|]. by eapply fs_inv_put.
Qed.

(** *** ialloc *)

Definition new_din (type : Z) : list Z := put32 (put16 (put16 zero_din 0 (xshort type)) 6 (xshort 1)) 8 (xint 0).

Lemma new_din_inv V own fb i type : type = T_DIR ∨ type = T_FILE → inode_inv V own fb i (new_din type) (type, []).
Proof.
  intros Ht. assert (Hz : length zero_din = 64%nat) by done.
  assert (Ha : ∀ k, 0 ≤ k < 13 → get32 (new_din type) (12 + 4 * k) = 0).
  { intros k Hk. unfold new_din. rewrite get32_put32_other, !get32_put16_ne by (unfold apart; rewrite ?put16_length, ?Hz; lia).
    apply get32_zeros. lia. }
  split; [|by destruct Ht as [->| ->]..]. split; [by destruct Ht as [->| ->]| | |].
  - intros bn Hbn. change (fsize (type, [])) with 0. destruct (Z.ltb_spec (bn * 1024) 0); [lia|]. unfold blk.
    destruct (Z.ltb_spec bn 12); [apply Ha; lia|]. change 60 with (12 + 4 * 12). by rewrite (Ha 12).
  - change 60 with (12 + 4 * 12). by rewrite (Ha 12).
  - intros bn o Hbn Hlt. change (fsize (type, [])) with 0 in Hlt. lia.
Qed.

Lemma ialloc_run ks s own (fs : list file_t) type :
  fs_inv s own fs → (length fs < 207)%nat → type = T_DIR ∨ type = T_FILE →
  ∃ s', ialloc type ks s = Ok (1 + Z.of_nat (length fs)) ks s' ∧ fs_inv s' own (fs ++ [(type, [])]).
Proof.
  intros [I1 I2 I3 I4 I5 I6] Hn Ht. set (i := 1 + Z.of_nat (length fs)). assert (Hi : 0 ≤ i < 208) by lia.
  set (s1 := Mkfs (mk_img s) (mk_sb s) (i + 1) (mk_freeblock s)).
  assert (E : ialloc type ks s = (winode i (new_din type) ;; mret i) ks s1).
  { unfold ialloc. rewrite bind_run. unfold next_inode. rewrite bind_run. unfold gets. rewrite I2. fold i.
    rewrite bind_run. unfold modify. rewrite u32_small by lia. done. }
  assert (Io : image_ok s1) by (destruct I1; by split).
  rewrite E, bind_run, winode_run, ret_run by done. eexists. split; [done|].
  assert (Hd : length (new_din type) = 64%nat) by (by destruct Ht as [->| ->]).
  split.
  - by apply put_din_ok.
  - cbn. rewrite length_app. cbn. lia.
  - cbn. rewrite total_app. change (total [(type, [])]) with 0. lia.
  - intros k f Hk. apply lookup_app_Some in Hk as [Hk|[Hk Hf]].
    + assert (Hlt : (k < length fs)%nat) by (by eapply lookup_lt_Some). rewrite put_din_ne by (done || lia).
      destruct (I4 k f Hk). split; try done. by apply (file_inv_put_din _ _ _ _ _ _ _ i _ s1).
    + apply list_lookup_singleton_Some in Hf as [Hz <-].
      assert (1 + Z.of_nat k = i) as -> by lia. rewrite put_din_eq by done. by apply new_din_inv.
  - rewrite put_din_block by lia. done.
  - intros b Hb. rewrite put_din_block by lia. by apply I6.
Qed.

(** *** The empty image *)

Lemma zero_loop ks s a n :
  0 ≤ a → a + Z.of_nat n ≤ 2000 →
  ∃ V, for_each (seqZ a (Z.of_nat n)) (λ i, wsect i zero_block) ks s =
    Ok tt ks (Mkfs V (mk_sb s) (mk_freeinode s) (mk_freeblock s)) ∧
    ∀ b, V !! b = if (a <=? b) && (b <? a + Z.of_nat n) then Some zero_block else mk_img s !! b.
Proof.
  revert a s. induction n as [|n IH]; intros a s Ha Hn.
  - exists (mk_img s). split; [by destruct s|]. intros b. destruct (Z.leb_spec a b), (Z.ltb_spec b (a + Z.of_nat 0)); done || lia.
  - rewrite seqZ_cons by lia. cbn [for_each]. rewrite bind_run, wsect_run by lia.
    replace (Z.pred (Z.of_nat (S n))) with (Z.of_nat n) by lia.
    destruct (IH (Z.succ a) (wrote a zero_block s)) as (V & E & HV); [lia..|]. exists V. rewrite E. split; [done|].
    intros b. rewrite HV. cbn [wrote mk_img]. destruct (decide (b = a)) as [->|Hne].
    + rewrite lookup_insert_eq.
      destruct (Z.leb_spec (Z.succ a) a), (Z.leb_spec a a), (Z.ltb_spec a (a + Z.of_nat (S n))); done || lia.
    + rewrite lookup_insert_ne by done.
      destruct (Z.leb_spec (Z.succ a) b), (Z.leb_spec a b), (Z.ltb_spec b (Z.succ a + Z.of_nat n)),
        (Z.ltb_spec b (a + Z.of_nat (S n))); done || lia.
Qed.

Lemma image_sb_eq : Superblock FSMAGIC (xint FSSIZE) (xint nblocks) (xint NINODES) (xint nlog)
                      (xint 2) (xint (2 + nlog)) (xint (2 + nlog + ninodeblocks)) = image_sb.
Proof. by vm_compute. Qed.

Lemma layout_run ks s own : mk_img s = ∅ → mk_freeinode s = 1 → ∃ s', layout ks s = Ok tt ks s' ∧ fs_inv s' own [].
Proof.
  intros Hs Hi. unfold layout. rewrite image_sb_eq, bind_run. unfold modify at 1. rewrite bind_run. unfold modify.
  rewrite bind_run. set (s1 := _ <| mk_freeblock := nmeta |>).
  destruct (zero_loop ks s1 0 2000) as (V & E & HV); [lia..|]. change (seqZ 0 FSSIZE) with (seqZ 0 (Z.of_nat 2000)).
  rewrite E, bind_run. unfold gets. change (mk_sb s1) with image_sb. cbn [mk_sb]. rewrite wsect_run by lia.
  eexists. split; [done|]. change (mk_freeblock s1) with 46. change (mk_freeinode s1) with (mk_freeinode s).
  assert (HV' : ∀ b, dblock V b = zero_block).
  { intros b. unfold dblock. rewrite HV. change (mk_img s1) with (mk_img s). rewrite Hs. by destruct (_ && _). }
  split; cbn [wrote mk_img mk_sb mk_freeinode mk_freeblock].
  - split; cbn [wrote mk_img mk_sb mk_freeinode mk_freeblock]; [done| | |lia|].
    + apply lens_insert; [intros b; by rewrite HV'|by rewrite put_bytes_length].
    + intros b Hb. destruct (decide (1 = b)) as [<-|]; [rewrite lookup_insert_eq; by eexists|].
      rewrite lookup_insert_ne, HV by done. destruct (Z.leb_spec 0 b), (Z.ltb_spec b (0 + Z.of_nat 2000)); try lia. by eexists.
    + intros b Hb. rewrite dblock_insert_ne by lia. apply HV'.
  - done.
  - done.
  - done.
  - by rewrite dblock_insert_eq.
  - intros b Hb. rewrite dblock_insert_ne by lia. apply HV'.
Qed.

(** *** The files named on the command line *)

Definition no_slash (arg : list Z) : Prop := existsb (λ c, c =? 47) (strip_user arg) = false.
Definition short_name (arg : list Z) : list Z := take 14 (strip_underscore (strip_user arg)).
Definition contents (arg : list Z) : list Z := concat (default [] (host_open arg)).
Definition usable (arg : list Z) : Prop := no_slash arg ∧ is_Some (host_open arg).

(** The entries of the root directory for [args], the first of which has
    inode [i]. *)
Fixpoint entries (i : Z) (args : list (list Z)) : list Z :=
  match args with
  | [] => []
  | arg :: args => dirent i (short_name arg) ++ entries (i + 1) args
  end.

Definition files_of (args : list (list Z)) : list file_t := (λ arg, (T_FILE, contents arg)) <$> args.

Lemma dirent_length i name : length (dirent i name) = 16%nat.
Proof. unfold dirent. by rewrite put_bytes_length, put16_length. Qed.

(** The reads of one file, appended one after the other. *)
Lemma append_reads ks s own (fs : list file_t) k (f : file_t) reads :
  fs_inv s own fs → (length fs < 208)%nat → fs !! k = Some f →
  let f' := (f.1, f.2 ++ concat reads) in
  fsize f' ≤ 274432 → 46 + total (<[ k := f' ]> fs) ≤ 2000 →
  ∃ s' own', for_each reads (λ buf, iappend (1 + Z.of_nat k) buf (Z.of_nat (length buf))) ks s = Ok tt ks s' ∧
    fs_inv s' own' (<[ k := f' ]> fs).
Proof.
  revert s own fs f. induction reads as [|r reads IH]; intros s own fs f FI Hn Hk f' Hmax Hroom.
  - exists s, own. split; [done|]. unfold f'. cbn [concat]. rewrite app_nil_r, <- surjective_pairing.
    by rewrite list_insert_id.
  - cbn [for_each]. rewrite bind_run. unfold f' in *. cbn [concat] in *. rewrite app_assoc in *.
    set (g := (f.1, f.2 ++ r)) in *.
    assert (Hg : fsize g ≤ fsize (f.1, (f.2 ++ r) ++ concat reads)) by (unfold fsize, g; cbn [snd]; rewrite (length_app (f.2 ++ r)); lia).
    assert (Hlt : (k < length fs)%nat) by (by eapply lookup_lt_Some).
    pose proof (total_insert _ _ _ (f.1, (f.2 ++ r) ++ concat reads) Hk). pose proof (total_insert _ _ _ g Hk).
    pose proof (nblk_mono _ _ Hg).
    destruct (iappend_run ks s own fs k f r) as (s1 & own1 & E & FI1); try done; fold g; [lia|lia|].
    rewrite E. destruct (IH s1 own1 (<[ k := g ]> fs) g) as (s2 & own2 & E2 & FI2); [done|by rewrite length_insert| | |..].
    + by rewrite list_lookup_insert_eq.
    + done.
    + by rewrite list_insert_insert_eq.
    + exists s2, own2. split; [done|]. by rewrite list_insert_insert_eq in FI2.
Qed.

(** An entry is added to the root directory. *)
Lemma append_dirent ks s own d (done_ : list file_t) i name :
  let fs' := (T_DIR, d ++ dirent i name) :: done_ in
  fs_inv s own ((T_DIR, d) :: done_) → (length done_ < 207)%nat →
  Z.of_nat (length d) + 16 ≤ 274432 → 46 + total fs' ≤ 2000 →
  ∃ s' own', iappend ROOTINO (dirent i name) dirent_size ks s = Ok tt ks s' ∧ fs_inv s' own' fs'.
Proof.
  intros fs' FI Hn Hmax Hroom.
  destruct (iappend_run ks s own ((T_DIR, d) :: done_) 0 (T_DIR, d) (dirent i name)) as (s' & own' & E & FI'); [done| |done| |done|].
  - cbn [length]. lia.
  - unfold fsize. cbn [snd]. rewrite length_app, dirent_length. lia.
  - rewrite dirent_length in E. exists s', own'. split; [exact E|exact FI'].
Qed.

Lemma add_file_run ks s own d (done_ : list file_t) arg :
  let i := 2 + Z.of_nat (length done_) in
  let fs' := (T_DIR, d ++ dirent i (short_name arg)) :: done_ ++ [(T_FILE, contents arg)] in
  fs_inv s own ((T_DIR, d) :: done_) → (length done_ < 206)%nat → usable arg →
  Z.of_nat (length d) + 16 ≤ 274432 → Z.of_nat (length (contents arg)) ≤ 274432 → 46 + total fs' ≤ 2000 →
  ∃ s' own', add_file ROOTINO arg ks s = Ok tt ks s' ∧ fs_inv s' own' fs'.
Proof.
  intros i fs' FI Hn [Hs [reads Hr]] Hmax1 Hmax2 Hroom. unfold add_file. rewrite Hs, Hr.
  destruct (ialloc_run ks s own ((T_DIR, d) :: done_) T_FILE) as (s1 & E1 & FI1); [done|cbn [length]; lia|by right|].
  cbn [length] in E1. replace (1 + Z.of_nat (S (length done_))) with i in E1 by lia. rewrite bind_run, E1.
  unfold fs' in Hroom. rewrite total_cons, total_app, total_cons in Hroom. change (total []) with 0 in Hroom.
  pose proof (nblk_nonneg (fsize (T_FILE, contents arg)) ltac:(unfold fsize; lia)).
  destruct (append_dirent ks s1 own d (done_ ++ [(T_FILE, [])]) i (short_name arg)) as (s2 & own2 & E2 & FI2).
  - exact FI1.
  - rewrite length_app. cbn [length]. lia.
  - done.
  - rewrite total_cons, total_app. change (total [(T_FILE, [])]) with 0. lia.
  - rewrite bind_run. change (take (Z.to_nat DIRSIZ) (strip_underscore (strip_user arg))) with (short_name arg). rewrite E2.
    set (fs2 := _ :: done_ ++ [(T_FILE, [])]) in FI2.
    assert (Hins : <[ S (length done_) := (T_FILE, contents arg) ]> fs2 = fs').
    { unfold fs2, fs'. change (<[ S (length done_) := ?x ]> (?y :: ?l)) with (y :: <[ length done_ := x ]> l).
      by rewrite insert_app_r_alt, Nat.sub_diag by lia. }
    destruct (append_reads ks s2 own2 fs2 (S (length done_)) (T_FILE, []) reads) as (s3 & own3 & E3 & FI3).
    + done.
    + unfold fs2. cbn [length]. rewrite length_app. cbn [length]. lia.
    + unfold fs2. change ((?y :: ?l) !! S ?n) with (l !! n). by rewrite lookup_app_r, Nat.sub_diag by lia.
    + unfold contents in Hmax2. rewrite Hr in Hmax2. exact Hmax2.
    + cbn [fst snd app]. replace (concat reads) with (contents arg) by (unfold contents; by rewrite Hr). rewrite Hins.
      unfold fs'. rewrite total_cons, total_app, total_cons. change (total []) with 0. lia.
    + cbn [fst snd app] in FI3. replace (concat reads) with (contents arg) in FI3 by (unfold contents; by rewrite Hr).
      rewrite Hins in FI3. exists s3, own3. split; [|done].
      replace (1 + Z.of_nat (S (length done_))) with i in E3 by lia. exact E3.
Qed.

Lemma entries_length i args : length (entries i args) = (16 * length args)%nat.
Proof. revert i. induction args as [|a args IH]; intros i; [done|]. cbn [entries length]. rewrite length_app, dirent_length, IH. lia. Qed.

Lemma add_files_run ks s own d (done_ : list file_t) args :
  let fs' := (T_DIR, d ++ entries (2 + Z.of_nat (length done_)) args) :: done_ ++ files_of args in
  fs_inv s own ((T_DIR, d) :: done_) → (length done_ + length args < 207)%nat → Forall usable args →
  Z.of_nat (length d) + 16 * Z.of_nat (length args) ≤ 274432 →
  Forall (λ arg, Z.of_nat (length (contents arg)) ≤ 274432) args → 46 + total fs' ≤ 2000 →
  ∃ s' own', for_each args (add_file ROOTINO) ks s = Ok tt ks s' ∧ fs_inv s' own' fs'.
Proof.
  revert s own d done_. induction args as [|arg args IH]; intros s own d done_ fs' FI Hn Hu Hmax1 Hmax2 Hroom.
  - exists s, own. split; [done|]. unfold fs'. cbn [entries files_of fmap list_fmap]. by rewrite !app_nil_r.
  - apply Forall_cons in Hu as [Hu Hus], Hmax2 as [Hm Hms]. cbn [length] in Hn, Hmax1. unfold fs' in *. clear fs'.
    set (i := 2 + Z.of_nat (length done_)) in *. cbn [entries files_of fmap list_fmap] in *. fold (files_of args) in *.
    rewrite app_assoc in *. rewrite (cons_middle _ done_), app_assoc in *.
    destruct (add_file_run ks s own d done_ arg) as (s1 & own1 & E1 & FI1); try done; [lia|lia| |].
    { rewrite total_cons, !total_app, ?total_cons in Hroom. rewrite total_cons, !total_app, ?total_cons. change (total []) with 0 in *. fold i.
      pose proof (total_nonneg (files_of args)).
      assert (Hle : nblk (fsize (T_DIR, d ++ dirent i (short_name arg))) ≤
              nblk (fsize (T_DIR, (d ++ dirent i (short_name arg)) ++ entries (i + 1) args))).
      { apply nblk_mono. unfold fsize. cbn [snd]. rewrite (length_app (_ ++ _)). lia. }
      lia. }
    cbn [for_each]. rewrite bind_run, E1. fold i in FI1.
    destruct (IH s1 own1 (d ++ dirent i (short_name arg)) (done_ ++ [(T_FILE, contents arg)])) as (s2 & own2 & E2 & FI2); try done.
    + rewrite length_app. cbn [length]. lia.
    + rewrite length_app, dirent_length. lia.
    + rewrite length_app. cbn [length]. replace (2 + Z.of_nat (length done_ + 1)) with (i + 1) by lia. exact Hroom.
    + exists s2, own2. split; [done|]. rewrite length_app in FI2. cbn [length] in FI2.
      replace (2 + Z.of_nat (length done_ + 1)) with (i + 1) in FI2 by lia. exact FI2.
Qed.

(** ** The bitmap *)

Lemma set_bits_length n i buf : length (set_bits n i buf) = length buf.
Proof. revert i buf. induction n as [|n IH]; intros i buf; [done|]. cbn [set_bits]. by rewrite IH, length_alter. Qed.

Lemma set_bits_bit n i buf b :
  length buf = 1024%nat → 0 ≤ i → i + Z.of_nat n ≤ 8192 → 0 ≤ b →
  bit_at (set_bits n i buf) b = (i <=? b) && (b <? i + Z.of_nat n) || bit_at buf b.
Proof.
  revert i buf. induction n as [|n IH]; intros i buf Hl Hi Hn Hb; cbn [set_bits].
  - destruct (Z.leb_spec i b), (Z.ltb_spec b (i + Z.of_nat 0)); done || lia.
  - rewrite IH by (rewrite ?length_alter; lia || done). rewrite (bit_at_alter _ _ _ _ (λ _, true)).
    + destruct (Z.eqb_spec b i), (Z.leb_spec i b), (Z.leb_spec (i + 1) b), (Z.ltb_spec b (i + 1 + Z.of_nat n)),
        (Z.ltb_spec b (i + Z.of_nat (S n))); try lia; by rewrite ?orb_true_r.
    + lia.
    + done.
    + intros x j Hj. unfold u8. change 256 with (2 ^ 8). rewrite Z.mod_pow2_bits_low, testbit_set by div_lia.
      by destruct (j =? i mod 8).
Qed.

(** ** What the kernel finds in the image *)

(** Inode [i] is a file of type [type] with contents [c]. *)
Definition holds (V : disk) (i type : Z) (c : list Z) : Prop :=
  let x := stored_inode V i in
  file_ok image_sb V x ∧ i_type x = type ∧ i_nlink x = 1 ∧ i_size x = Z.of_nat (length c) ∧
  file_bytes V x 0 (Z.of_nat (length c)) = c.

(** [c], followed by zeroes up to [n] bytes. *)
Definition padded (c : list Z) (n : Z) : list Z := c ++ replicate (Z.to_nat n - length c) 0.

Section found.
Context (V : disk) (own : Z → Z * Z) (fb i : Z) (din c : list Z) (m : Z).
Context (F : file_inv V own fb i din c m m) (Hfb : fb ≤ 2000).
Context (Hused : ∀ b, 0 ≤ b < 2000 → block_used image_sb V b = (b <? fb)).

Lemma own_of_inv a : 46 ≤ a < fb → FsFile.own image_sb V a.
Proof. intros Ha. split; [change (46 ≤ a < 2000); lia|]. rewrite Hused by lia. apply Z.ltb_lt. lia. Qed.

Lemma file_ok_of_inv sz :
  0 ≤ i < 200 → get32 din 8 = sz → 0 ≤ sz ≤ 274432 → (∀ bn, 0 ≤ bn → bn * 1024 < sz → bn * 1024 < m) →
  file_ok image_sb V (mk_inode i din).
Proof.
  intros Hi Hsz Hmax Hm.
  assert (Hb : ∀ bn, 0 ≤ bn < 268 → blk V din bn ≠ 0 → 46 ≤ blk V din bn < fb ∧ own (blk V din bn) = (i, bn)).
  { intros bn Hbn Hne. destruct (Z.ltb_spec (bn * 1024) m); [by apply (fv_addr_lt _ _ _ _ _ _ _ _ F)|].
    by rewrite (fv_addr_ge _ _ _ _ _ _ _ _ F) in Hne by done. }
  split; change MAXFILE with 268; change BSIZE with 1024.
  - reflexivity.
  - exact Hi.
  - reflexivity.
  - rewrite mk_inode_ind. destruct (Z.ltb_spec 12288 m) as [Hlt|Hge].
    + right. apply own_of_inv, (fv_ind_lt _ _ _ _ _ _ _ _ F Hlt).
    + left. by apply (fv_ind_ge _ _ _ _ _ _ _ _ F).
  - intros bn Hbn. rewrite file_addr_blk, mk_inode_ind by lia.
    destruct (decide (blk V din bn = 0)) as [|Hne]; [by left|right]. destruct (Hb bn Hbn Hne) as [Hr Ho].
    split; [by apply own_of_inv|]. intros E. destruct (Z.ltb_spec 12288 m) as [Hlt|Hge].
    + destruct (fv_ind_lt _ _ _ _ _ _ _ _ F Hlt) as [_ Ho']. rewrite <- E, Ho in Ho'. injection Ho'. lia.
    + rewrite (fv_ind_ge _ _ _ _ _ _ _ _ F Hge) in E. lia.
  - intros bn bn' Hbn Hbn'. rewrite !file_addr_blk by lia. intros Hne E.
    destruct (Hb bn Hbn Hne) as [_ H1]. rewrite E in Hne. destruct (Hb bn' Hbn' Hne) as [_ H2]. rewrite E, H2 in H1.
    by injection H1.
  - change (i_size (mk_inode i din)) with (get32 din 8). lia.
  - intros bn Hbn Hlt. change (i_size (mk_inode i din)) with (get32 din 8) in Hlt. rewrite Hsz in Hlt.
    rewrite file_addr_blk by lia. destruct (fv_addr_lt _ _ _ _ _ _ _ _ F bn) as [Hr _]; [lia|by apply Hm|lia].
Qed.

Lemma file_bytes_of_inv sz :
  0 ≤ sz ≤ 274432 → Z.of_nat (length c) ≤ sz → (∀ bn, 0 ≤ bn → bn * 1024 < sz → bn * 1024 < m) →
  file_bytes V (mk_inode i din) 0 sz = padded c sz.
Proof.
  intros Hsz Hc Hm. apply list_eq. intros k. unfold file_bytes. rewrite list_lookup_fmap. destruct (decide (Z.of_nat k < sz)) as [Hk|Hk].
  - rewrite lookup_seqZ_lt by lia. cbn [fmap option_fmap option_map]. unfold file_byte. change BSIZE with 1024.
    rewrite Z.add_0_l. rewrite file_addr_blk by div_lia. rewrite (fv_bytes _ _ _ _ _ _ _ _ F); [|div_lia|apply Hm; div_lia|div_lia].
    replace (Z.to_nat _) with k by div_lia. symmetry. unfold padded. destruct (decide (k < length c)%nat).
    + rewrite lookup_app_l by done. destruct (lookup_lt_is_Some_2 c k) as [x Hx]; [done|].
      rewrite Hx. f_equal. symmetry. by apply nth_lookup_Some.
    + rewrite lookup_app_r, nth_overflow, lookup_replicate_2 by lia. done.
  - rewrite lookup_seqZ_ge by lia. symmetry. apply lookup_ge_None_2. unfold padded. rewrite length_app, length_replicate. lia.
Qed.
End found.

(** *** The end of main() *)

Definition rounded (n : Z) : Z := (n / 1024 + 1) * 1024.

Definition finished (root : list Z) (s : mkfs) : mkfs :=
  wrote 45 (set_bits (Z.to_nat (mk_freeblock s)) 0 zero_block)
    (put_din 1 (put32 (din_at (mk_img s) 1) 8 (rounded (Z.of_nat (length root)))) s).

Lemma finish_run ks s own root files :
  fs_inv s own ((T_DIR, root) :: files) → finish ROOTINO ks s = Ok tt ks (finished root s).
Proof.
  intros FI. pose proof (fi_image _ _ _ FI) as I. destruct (fi_file _ _ _ FI 0 (T_DIR, root) eq_refl) as [V1 _ _ _ _ V6 V7].
  change (1 + Z.of_nat 0) with 1 in V1, V6. unfold fsize in V6, V7. cbn [snd] in V6, V7.
  unfold finish. change ROOTINO with 1. rewrite bind_run, rinode_run by (done || lia). rewrite V6. change BSIZE with 1024.
  fold (rounded (xint (Z.of_nat (length root)))). rewrite (xint_small (Z.of_nat _)) by lia.
  rewrite u32_small, xint_small by (unfold rounded; div_lia). rewrite bind_run, winode_run by (done || lia).
  rewrite bind_run. unfold gets. set (s1 := put_din _ _ s).
  assert (I1 : image_ok s1) by (apply put_din_ok; [done|lia]). pose proof (io_fb _ I1). unfold balloc. change (BSIZE * 8) with 8192.
  destruct (Z.ltb_spec (mk_freeblock s1) 8192); [|lia]. cbn [negb]. rewrite bind_run. unfold gets.
  rewrite (io_sb _ I1). by rewrite wsect_run.
Qed.

Section finished.
Context (s : mkfs) (own : Z → Z * Z) (root : list Z) (files : list file_t).
Context (FI : fs_inv s own ((T_DIR, root) :: files)) (Hn : (length files < 199)%nat).
#[local] Abbreviation V := (mk_img (finished root s)).

Lemma finished_block b : b < 32 ∨ 46 ≤ b → dblock V b = dblock (mk_img s) b.
Proof. clear FI Hn. intros Hb. unfold finished, wrote. cbn [mk_img]. rewrite dblock_insert_ne by lia. apply put_din_block; lia. Qed.

Lemma finished_used b : 0 ≤ b < 2000 → block_used image_sb V b = (b <? mk_freeblock s).
Proof.
  intros Hb. unfold block_used, BBLOCK. change BPB with 8192. pose proof (io_fb s (fi_image _ _ _ FI)).
  replace (b / 8192) with 0 by div_lia. change (u32 (0 + sb_bmapstart image_sb)) with 45.
  unfold finished, wrote. cbn [mk_img]. rewrite dblock_insert_eq, Z.mod_small by lia.
  rewrite set_bits_bit by (done || lia). rewrite Z2Nat.id, Z.add_0_l by lia. destruct (Z.leb_spec 0 b); [|lia].
  unfold bit_at. rewrite zero_block_byte by div_lia. by rewrite Z.bits_0, orb_false_r.
Qed.

Lemma finished_lens : lens V.
Proof.
  apply lens_insert; [|by rewrite set_bits_length]. apply (io_lens (put_din 1 _ s)), put_din_ok; [apply FI|lia].
Qed.

(** The inodes after the root directory are as they were. *)
Lemma finished_din k f : files !! k = Some f → din_at V (2 + Z.of_nat k) = din_at (mk_img s) (2 + Z.of_nat k).
Proof.
  intros Hk. assert (k < length files)%nat by (by eapply lookup_lt_Some).
  destruct (table_block (2 + Z.of_nat k) ltac:(lia)).
  transitivity (din_at (mk_img (put_din 1 (put32 (din_at (mk_img s) 1) 8 (rounded (Z.of_nat (length root)))) s)) (2 + Z.of_nat k)).
  - unfold din_at, finished, wrote. cbn [mk_img]. by rewrite dblock_insert_ne by lia.
  - apply put_din_ne; [apply FI|lia|lia|lia|]. rewrite put32_length.
    apply (iv_file _ _ _ _ _ _ (fi_file _ _ _ FI 0 _ eq_refl)).
Qed.

Lemma finished_root_din :
  let din := put32 (din_at (mk_img s) 1) 8 (rounded (Z.of_nat (length root))) in din_at V 1 = din.
Proof.
  intros din. pose proof (fv_len _ _ _ _ _ _ _ _ (iv_file _ _ _ _ _ _ (fi_file _ _ _ FI 0 _ eq_refl))) as Hl.
  transitivity (din_at (mk_img (put_din 1 din s)) 1).
  - unfold din_at, finished, wrote. cbn [mk_img]. by rewrite dblock_insert_ne by done.
  - apply put_din_eq; [apply FI|lia|]. unfold din. by rewrite put32_length.
Qed.

Lemma finished_file_inv i din c m :
  file_inv (mk_img s) own (mk_freeblock s) i din c m m → file_inv V own (mk_freeblock s) i din c m m.
Proof. intros F. eapply file_inv_frame; [done| |lia]. intros b Hb _. split; [|done]. apply finished_block. lia. Qed.

Lemma finished_holds k f :
  files !! k = Some f → f.1 = T_FILE → holds V (2 + Z.of_nat k) T_FILE f.2.
Proof.
  intros Hk Ht. assert (Hlt : (k < length files)%nat) by (by eapply lookup_lt_Some).
  pose proof (fi_file _ _ _ FI (S k) f Hk) as Hf. replace (1 + Z.of_nat (S k)) with (2 + Z.of_nat k) in Hf by lia.
  destruct Hf as [V1 V2 V3 V4 V5 V6 V7]. pose proof (io_fb s (fi_image _ _ _ FI)). unfold fsize in V7.
  unfold holds. rewrite stored_inode_eq, (finished_din k f) by (done || lia). apply finished_file_inv in V1.
  split; [|split_and!].
  - eapply file_ok_of_inv; [exact V1|lia|exact finished_used|lia|exact V6|unfold fsize; lia|done].
  - change (i_type (mk_inode ?i ?d)) with (i16 (get16 d 0)). by rewrite V2, Ht.
  - change (i_nlink (mk_inode ?i ?d)) with (i16 (get16 d 6)). by rewrite V5.
  - exact V6.
  - rewrite (file_bytes_of_inv V own (mk_freeblock s) _ _ f.2 _ V1) by (done || lia).
    unfold padded. by rewrite Nat2Z.id, Nat.sub_diag, app_nil_r.
Qed.

Lemma finished_root :
  Z.of_nat (length root) mod 1024 ≠ 0 → rounded (Z.of_nat (length root)) ≤ 274432 →
  holds V ROOTINO T_DIR (padded root (rounded (Z.of_nat (length root)))).
Proof.
  intros Hmod Hmax. set (n := Z.of_nat (length root)) in *. set (sz := rounded n) in *.
  destruct (fi_file _ _ _ FI 0 (T_DIR, root) eq_refl) as [V1 V2 V3 V4 V5 V6 V7]. pose proof (io_fb s (fi_image _ _ _ FI)).
  change (1 + Z.of_nat 0) with 1 in *. change (fsize (T_DIR, root)) with n in *. cbn [fst snd] in *.
  destruct (put_size (din_at (mk_img s) 1) sz) as (D1 & D2 & D3 & D4); [apply V1|].
  assert (Hsz : n ≤ sz ∧ 0 ≤ sz) by (unfold sz, rounded; div_lia). rewrite u32_small in D2 by lia.
  assert (Hlen : Z.of_nat (length (padded root sz)) = sz) by (unfold padded; rewrite length_app, length_replicate; lia).
  assert (Hm : ∀ bn, 0 ≤ bn → bn * 1024 < sz → bn * 1024 < n) by (intros bn Hbn; unfold sz, rounded; div_lia).
  unfold holds. change ROOTINO with 1. rewrite stored_inode_eq, finished_root_din, Hlen by lia. fold n. fold sz.
  apply finished_file_inv in V1. eapply file_inv_addrs in V1; [|exact D1|exact D4].
  split; [|split_and!].
  - eapply file_ok_of_inv; [exact V1|lia|exact finished_used|lia|exact D2|lia|exact Hm].
  - change (i_type (mk_inode ?i ?d)) with (i16 (get16 d 0)). by rewrite D3, V2 by lia.
  - change (i_nlink (mk_inode ?i ?d)) with (i16 (get16 d 6)). by rewrite D3, V5 by lia.
  - exact D2.
  - apply (file_bytes_of_inv V own (mk_freeblock s) _ _ root _ V1); [lia|unfold n in *; lia|exact Hm].
Qed.

(** Every block of a file has its owner. *)
Lemma finished_owner i bn :
  1 ≤ i ≤ 1 + Z.of_nat (length files) → 0 ≤ bn < 268 →
  file_addr V (stored_inode V i) bn ≠ 0 → own (file_addr V (stored_inode V i) bn) = (i, bn).
Proof.
  intros Hi Hbn. rewrite stored_inode_eq, file_addr_blk by lia. destruct (decide (i = 1)) as [->|Hne].
  - destruct (fi_file _ _ _ FI 0 (T_DIR, root) eq_refl) as [V1 _ _ _ _ _ _]. change (1 + Z.of_nat 0) with 1 in V1.
    rewrite finished_root_din. destruct (put_size (din_at (mk_img s) 1) (rounded (Z.of_nat (length root)))) as (D1 & _ & _ & D4); [apply V1|].
    apply finished_file_inv in V1. eapply file_inv_addrs in V1; [|exact D1|exact D4]. intros Hz.
    destruct (Z.ltb_spec (bn * 1024) (fsize (T_DIR, root))); [by apply (fv_addr_lt _ _ _ _ _ _ _ _ V1)|].
    by rewrite (fv_addr_ge _ _ _ _ _ _ _ _ V1) in Hz.
  - destruct (lookup_lt_is_Some_2 files (Z.to_nat (i - 2))) as [f Hf]; [lia|].
    replace i with (2 + Z.of_nat (Z.to_nat (i - 2))) by lia. rewrite (finished_din _ _ Hf).
    pose proof (fi_file _ _ _ FI (S (Z.to_nat (i - 2))) f Hf) as [V1 _ _ _ _ _ _]. intros Hz.
    replace (1 + Z.of_nat (S (Z.to_nat (i - 2)))) with (2 + Z.of_nat (Z.to_nat (i - 2))) in V1 by lia.
    apply finished_file_inv in V1. destruct (Z.ltb_spec (bn * 1024) (fsize f)); [by apply (fv_addr_lt _ _ _ _ _ _ _ _ V1)|].
    by rewrite (fv_addr_ge _ _ _ _ _ _ _ _ V1) in Hz.
Qed.
End finished.

(** ** The program *)

Definition root_dir (args : list (list Z)) : list Z := (dirent 1 [46; 0] ++ dirent 1 [46; 46; 0]) ++ entries 2 args.

(** The files that mkfs can put in an image. *)
Record fits (args : list (list Z)) : Prop := {
  ft_usable : Forall usable args;
  ft_inodes : (length args ≤ 198)%nat;
  ft_sizes : Forall (λ arg, Z.of_nat (length (contents arg)) ≤ MAXFILE * BSIZE) args;
  ft_blocks : 46 + total ((T_DIR, root_dir args) :: files_of args) ≤ 2000;
}.

Lemma root_dir_length args : length (root_dir args) = (16 * (2 + length args))%nat.
Proof. unfold root_dir. rewrite !length_app, !dirent_length, entries_length. lia. Qed.

Lemma main_run prog img args ks s :
  host_create img = true → mk_freeinode s = 1 → fits args →
  ∃ s' own, main (prog :: img :: args) ks s = Ok tt ks (finished (root_dir args) s') ∧
    fs_inv s' own ((T_DIR, root_dir args) :: files_of args).
Proof.
  intros Hc Hs [Hu Hn Hz Hroom]. unfold main. cbn [length].
  destruct (Z.ltb_spec (Z.of_nat (S (S (length args)))) 2); [lia|]. change ((prog :: img :: args) !!! 1%nat) with img. rewrite Hc. cbn [negb].
  rewrite bind_run. unfold modify at 1. rewrite bind_run.
  destruct (layout_run ks (s <| mk_img := ∅ |>) (λ _, (0, 0))) as (s1 & E1 & F1); [done|done|]. rewrite E1, bind_run.
  destruct (ialloc_run ks s1 _ [] T_DIR F1) as (s2 & E2 & F2); [cbn; lia|by left|]. rewrite E2.
  change (1 + Z.of_nat (length [])) with ROOTINO. cbn [negb Z.eqb ROOTINO Pos.eqb].
  pose proof (total_nonneg (files_of args)) as Ht. rewrite total_cons in Hroom.
  assert (Hmono : ∀ d, (length d ≤ length (root_dir args))%nat → 46 + total [(T_DIR, d)] ≤ 2000).
  { intros d Hd. rewrite total_cons. change (total []) with 0.
    pose proof (nblk_mono (fsize (T_DIR, d)) (fsize (T_DIR, root_dir args)) ltac:(unfold fsize; cbn [snd]; lia)). lia. }
  rewrite root_dir_length in Hmono. rewrite bind_run.
  destruct (append_dirent ks s2 _ [] [] ROOTINO [46; 0] F2) as (s3 & o3 & E3 & F3); [cbn; lia|cbn; lia|apply Hmono; cbn [app]; rewrite dirent_length; lia|].
  rewrite E3, bind_run. cbn [app] in F3.
  destruct (append_dirent ks s3 _ _ [] ROOTINO [46; 46; 0] F3) as (s4 & o4 & E4 & F4);
    [cbn; lia|rewrite dirent_length; lia|apply Hmono; rewrite length_app, !dirent_length; lia|].
  rewrite E4, bind_run. change (drop 2 (prog :: img :: args)) with args.
  destruct (add_files_run ks s4 _ _ [] args F4) as (s5 & o5 & E5 & F5).
  - cbn. lia.
  - done.
  - rewrite length_app, !dirent_length. lia.
  - exact Hz.
  - cbn [length app]. change (2 + Z.of_nat 0) with 2. fold (root_dir args). rewrite total_cons. exact Hroom.
  - rewrite E5. exists s5, o5. split; [|exact F5]. eapply finish_run. exact F5.
Qed.
End run.

#[export] Instance image_area : LogArea.
Proof. refine {| log_cap := 29 |}. by_eval. Defined.

(** What the image of [args] is for the kernel, when the blocks below [fb] are
    in use. *)
Record good_image {H : Host} (args : list (list Z)) (fb : Z) (V : disk) : Prop := {
  gi_super : decode_sb (dblock V 1) = image_sb;
  gi_layout : sb_ok 2 image_sb;
  gi_lens : lens V;
  gi_log : head_n (dblock V 2) = 0;
  gi_used : ∀ b, 0 ≤ b < 2000 → block_used image_sb V b = (b <? fb);
  gi_bitmap : bitmap_ok image_sb V;
  gi_root : holds V ROOTINO T_DIR (padded (root_dir args) (rounded (Z.of_nat (length (root_dir args)))));
  gi_files : ∀ k arg, args !! k = Some arg → holds V (2 + Z.of_nat k) T_FILE (contents arg);
  gi_apart : ∀ i j bn bn', 1 ≤ i ≤ 1 + Z.of_nat (length args) → 1 ≤ j ≤ 1 + Z.of_nat (length args) → i ≠ j →
    0 ≤ bn < MAXFILE → 0 ≤ bn' < MAXFILE → file_addr V (stored_inode V i) bn ≠ 0 →
    file_addr V (stored_inode V i) bn ≠ file_addr V (stored_inode V j) bn';
}.

Lemma main_image {H : Host} prog img args :
  host_create img = true → (∀ b, host_write b = true) → fits args → (2 + Z.of_nat (length args)) mod 64 ≠ 0 →
  ∃ s, main (prog :: img :: args) [] init_mkfs = Ok tt [] s ∧ good_image args (mk_freeblock s) (mk_img s).
Proof.
  intros Hc Hw Hfit Hmod. destruct (main_run Hw prog img args [] init_mkfs) as (s & own & E & FI); [done..|].
  pose proof (ft_inodes _ Hfit) as Hn. assert (Hlen : (length (files_of args) < 199)%nat) by (unfold files_of; rewrite length_fmap; lia).
  eexists. split; [exact E|]. pose proof (io_fb s (fi_image _ _ _ FI)).
  assert (Hused := finished_used s own _ _ FI Hlen). split.
  - rewrite finished_block, (fi_super _ _ _ FI) by lia. by vm_compute.
  - split; by_eval.
  - by eapply finished_lens.
  - rewrite finished_block, (fi_log _ _ _ FI) by lia. by vm_compute.
  - exact Hused.
  - intros b Hb. rewrite Hused by exact Hb. intros Hf%Z.ltb_ge. change (46 ≤ b < 2000). change (sb_size image_sb) with 2000 in Hb. lia.
  - eapply finished_root; [done|done|..]; rewrite root_dir_length; [div_lia|unfold rounded; div_lia].
  - intros k arg Hk. change (contents arg) with (T_FILE, contents arg).2. eapply finished_holds; [done|done| |done].
    unfold files_of. by rewrite list_lookup_fmap, Hk.
  - intros i j bn bn' Hi Hj Hij Hbn Hbn' Hz Heq. unfold files_of in Hlen. rewrite length_fmap in Hlen.
    assert (Ho := finished_owner s own _ _ FI ltac:(unfold files_of; by rewrite length_fmap)).
    unfold files_of in Ho. rewrite length_fmap in Ho. pose proof (Ho i bn Hi Hbn Hz) as H1. rewrite Heq in Hz, H1.
    rewrite (Ho j bn' Hj Hbn' Hz) in H1. injection H1. lia.
Qed.


(** A host with two files, the second of which needs an indirect block. *)
Definition two_files : Host := {|
  host_create _ := true;
  host_write _ := true;
  host_open arg := if bool_decide (arg = user_prefix ++ [95; 97]) then Some [[1; 2; 3]; [4]] else Some (replicate 13 (replicate 1000 7));
|}.


(** ** Mounting the image *)

Section agree.
Context (V V' : disk) (Hag : ∀ b, 32 ≤ b < 2000 → dblock V' b = dblock V b).

Lemma agree_used b : 0 ≤ b < 2000 → block_used image_sb V' b = block_used image_sb V b.
Proof.
  intros Hb. unfold block_used, BBLOCK. change BPB with 8192. replace (b / 8192) with 0 by div_lia.
  change (u32 (0 + sb_bmapstart image_sb)) with 45. by rewrite Hag.
Qed.

Lemma agree_own a : FsFile.own image_sb V a → FsFile.own image_sb V' a ∧ dblock V' a = dblock V a.
Proof.
  intros [Hd Hu]. change (46 ≤ a < 2000) in Hd. split; [|apply Hag; lia]. split; [done|]. by rewrite agree_used by lia.
Qed.

Lemma agree_addr x bn : file_ok image_sb V x → file_addr V' x bn = file_addr V x bn.
Proof. intros Hx. apply file_addr_frame. intros Hne. destruct (fo_ind _ _ _ Hx) as [|Ho]; [done|]. by apply agree_own. Qed.

Lemma agree_file_ok x : file_ok image_sb V x → file_ok image_sb V' x.
Proof.
  intros Hx. pose proof (agree_addr x) as Ha. destruct (Hx) as [F1 F2 F3 F4 F5 F6 F7 F8]. split; try done.
  - destruct F4 as [|Ho]; [by left|right]. by apply agree_own.
  - intros bn Hbn. rewrite Ha by done. destruct (F5 bn Hbn) as [|[Ho Hne]]; [by left|right]. split; [by apply agree_own|done].
  - intros bn bn' Hbn Hbn'. rewrite !Ha by done. by apply F6.
  - intros bn Hbn. rewrite Ha by done. by apply F8.
Qed.

Lemma agree_bytes x n : file_ok image_sb V x → n ≤ i_size x → file_bytes V' x 0 n = file_bytes V x 0 n.
Proof.
  intros Hx Hn. unfold file_bytes. apply list_fmap_ext. intros j o Ho. apply lookup_seqZ in Ho as [-> Hj].
  unfold file_byte. change BSIZE with 1024. rewrite agree_addr by done. set (bn := (0 + (0 + Z.of_nat j)) / 1024).
  pose proof (fo_size _ _ _ Hx) as Hs. change (MAXFILE * BSIZE) with 274432 in Hs.
  assert (Hne := fo_full _ _ _ Hx bn). change BSIZE with 1024 in Hne.
  destruct (fo_addr _ _ _ Hx bn) as [Hz|[Ho _]]; [change MAXFILE with 268; unfold bn; div_lia| |by rewrite (proj2 (agree_own _ Ho))].
  exfalso. apply Hne; [unfold bn; div_lia|unfold bn; div_lia|done].
Qed.

Lemma agree_holds i type c : 0 ≤ i < 200 → holds V i type c → holds V' i type c.
Proof.
  intros Hi (H1 & H2 & H3 & H4 & H5). unfold holds.
  assert (E : stored_inode V' i = stored_inode V i).
  { rewrite !stored_inode_eq by lia. unfold din_at. rewrite Hag; [done|div_lia]. }
  rewrite E. split; [by apply agree_file_ok|]. split; [done|]. split; [done|]. split; [done|].
  rewrite agree_bytes by (done || lia). done.
Qed.
End agree.

(** With an empty log there is nothing to recover. *)
Lemma recovered_empty start V : head_n (dblock V start) = 0 → recovered start V = V.
Proof.
  intros Hn. unfold recovered. assert (log_image start V = []) as ->; [|done].
  apply nil_length_inv. by rewrite log_image_length, Hn.
Qed.


Section witness.
#[local] Existing Instance sample_image.

End witness.
